(* ===== verification/_CoqProject ===== *)
-Q . S2P
Prelude.v
Libc.v
Blockdev.v
Fat16.v
Dhcp.v
Checksum.v
NetEnv.v
Cstr.v
Uri.v
Http.v
HttpChunked.v
HttpUrl.v
HttpGet.v
HttpSafe.v
Wire.v
DhcpClient.v
Net.v
NetRx.v
NetTx.v
DnsQuery.v
NetClient.v
NetSession.v
HttpTcp.v
Rtc.v
TlsFrame.v
TlsExact.v
Tls.v
Image.v
Resource.v
Pmm.v
Uefi.v
BootInstall.v
BootLoad.v
BootSim.v
Interrupts.v
Pci.v
Graphics.v
NetHw.v
E1000.v
E1000Fifo.v
Pcnet.v
Rtl8139.v
Virtio.v
Serial.v
Netdev.v
VelaText.v
Vela.v
VelaSafe.v
VelaSession.v
VelaNative.v
AsterDoc.v
AsterCss.v
AsterText.v
AsterTree.v
AsterParse.v
AsterSafe.v
AsterWf.v
AsterLayout.v
AsterFlow.v
DesktopText.v
DesktopScreen.v
AsterPaint.v
DesktopPaint.v
VelaAster.v
BrowserImage.v
Desktop.v
DesktopInput.v
DesktopSafe.v
DesktopSession.v
DesktopStack.v
DesktopBench.v
DesktopAster.v
KernelMain.v
Exceptions.v
Interrupts32.v
