(* ===== verification/Prelude.v ===== *)
(** * UN_Orion verification library

    A shallow embedding of the C code of UN_Orion: the UEFI boot loader
    (src/boot/main.c) and the kernel (src/kernel/).  Every operation is an
    executable definition translated from the source; the theorems are about those
    definitions.  This file is the root: it documents the library and holds what
    the other files share.

    ** How the program is put together

    The boot loader offers to install optical media to the one disk that
    qualifies, loads the ELF kernel into pages the firmware grants, leaves boot
    services with the final memory map in [OrionBootInfo] and jumps.  The kernel
    (main.c) takes pages from that map (pmm.c), draws into the framebuffer
    (graphics.c), queues what the timer, the keyboard and the mouse deliver
    (interrupts.c), finds an adapter on the PCI bus (pci.c, netdev*.c), asks DHCP
    for an address (dhcp.c) and then hands the queued input to the desktop
    (desktop.c) for ever.  The desktop draws windows: a terminal, a painting
    program, a clock, and the browser.  The browser (vela.c) keeps a history,
    resolves addresses, fetches documents through its platform callbacks
    (net_http_get, over TCP or, for https, through tls.c), has them parsed and laid
    out by the document engine (aster.c) and shows pictures (browser_image.c,
    vela_image.c, net_resource.c).  The network stack (net.c) polls the adapter:
    received frames reach its handlers through a callback, and the waiting loops of
    its clients poll again.  fat16.c reads volumes through the block device layer.

    ** Files and sources

    Memory, storage, boot:
    - Prelude: words, checked memory access, the copy and fill loops, automation.
    - Libc: kernel/libc.c, kernel/i686/builtins.c (one flat memory; overlapping
      copies; 64-bit division).
    - Blockdev: kernel/blockdev.c.  The driver callbacks are the class
      [BlockDriver] with its laws.  Fat16: kernel/fat16.c over Blockdev.
    - Pmm: kernel/pmm.c and the structure of include/bootinfo.h.
    - Uefi: the firmware calls of the boot loader as operations on an abstract
      state.  BootInstall, BootLoad: src/boot/main.c.  BootSim: a concrete firmware
      on which the boot theorems are instantiated and the boot is run.

    Devices:
    - Interrupts: gates, timer, input rings and mouse of kernel/interrupts.c.
      Exceptions: its tables, controllers and panic screen.  Interrupts32:
      kernel/i686/interrupts.c.
    - Pci: kernel/pci.c over the classes [PortIO] and [PciHost].
    - Serial: kernel/serial.c.  Rtc: the clock of kernel/tls.c.
    - Graphics: kernel/graphics.c; the glyph tables, generated at build time by
      tools/fontgen.py, are parameters.
    - NetHw: registers and memory shared with a card (classes [DeviceIO], [Dma]).
      E1000, Pcnet, Rtl8139, Virtio: the four drivers; E1000Fifo: a model of the
      card and what the driver delivers on it.  Netdev: the dispatcher; the four
      drivers are instances of its [DriverLaws].

    Network:
    - NetEnv: what the network code calls outside itself (clock, adapter), the
      outcome type [res] of code whose loops wait, [safe].
    - Dhcp: the packet half of kernel/dhcp.c.  Checksum: its Internet checksum.
      DhcpClient: the client, over the class [NetEnv].
    - Net, NetRx, NetTx: kernel/net.c: state and senders, reception and next-hop
      resolution, the frames on the wire.  DnsQuery, NetClient, NetSession: the
      blocking DNS, ping and TCP clients and sessions of them.  Wire: lemmas on
      messages written from left to right.
    - Uri: generic URI syntax and reference resolution by RFC 3986, with the examples
      of its section 5.4; HttpUrl and VelaText are compared with it.
    - Cstr, Http, HttpChunked, HttpUrl, HttpGet, HttpSafe: strings, parsers and the
      HTTP client of kernel/net.c.  The transports are the class [HttpNet] with its
      laws [HttpNetLaws]; HttpTcp is their instance over NetClient.
    - Tls: kernel/tls.c over the class [Bearssl] with the documented laws of the
      library.  TlsFrame, TlsExact: its detection of the end of a message.

    Pictures and documents:
    - Resource: kernel/net_resource.c.  Image: kernel/vela_image.c.  BrowserImage:
      kernel/browser_image.c.
    - AsterDoc, AsterCss, AsterText, AsterTree, AsterParse: the document, style
      sheets, text, tree and parser of kernel/aster.c; AsterSafe, AsterWf: its
      invariant.  AsterLayout, AsterFlow: cascade and layout.  AsterPaint: painting
      and links.
    - VelaText, Vela: kernel/vela.c.  VelaNative: its native callbacks.  VelaSafe:
      its invariant and the contracts [AsterLaws], [ConsoleLaws], [ops_ok].
      VelaSession: sessions of browser operations, what they ask the network for.
      VelaAster: Aster as the engine of Vela, an instance of [AsterLaws] within the
      limits on pages and widths that it has.

    Desktop:
    - DesktopText, DesktopScreen, DesktopPaint, Desktop, DesktopInput:
      kernel/desktop.c, with the screen as the class [Screen] (of which Graphics is an
      instance) and the rest of the kernel as the class [Kernel].  DesktopSafe,
      DesktopSession: the invariant and its preservation.  DesktopStack: the order of
      the windows.  DesktopBench: a small machine on which it all runs.
      DesktopAster: the desktop over Aster.
    - KernelMain: kernel/main.c, over classes for the parts it calls.

    ** How the code is rendered

    - A w-bit unsigned integer is a [Z]; every operation that may wrap is written
      with [u8], [u16], [u32], [u64].  [size_t] has 64 bits, as in the x86-64 build.
      A [char] is the byte 0..255; where the source orders characters the model says
      whether the sign matters ([Graphics.s8]).  A signed [int] that the invariants
      keep within its range (places on the screen, heights of windows) is a [Z]
      without a wrap.
    - A buffer is a list of bytes.  [rd] and [wr] are the only accesses and yield
      [None] outside the object, so that a result [Some _] (or [Ok _]) is memory
      safety.  A pointer into a buffer is the buffer and an offset; a pointer that
      the code tests for null is a [ptr].  The character arrays of the browser and
      the desktop are the texts they hold; VelaText proves the correspondence.
    - Static variables are the fields of records that the operations take and
      return; what a function writes through a pointer it returns.
    - Uninitialised local arrays are arbitrary: [stack n] is any list of [n] bytes.
    - Hardware, firmware and drivers are an abstract environment behind a type
      class, threaded through the operations.  [netdev_poll] of NetEnv yields the
      frames of one poll, fixed before the callbacks run and intact while they do.
    - Loops are recursive on what the source bounds them by.  Where that is a
      counter the recursion is on the counter.  Where it is a cursor the fuel is the
      room the cursor has, one more turn to leave the loop, and the functional
      theorems show that it is never exhausted ([None] would be indistinguishable
      from a fault, and is excluded with it).  The waiting loops are bounded by the
      clock, and the main loop not at all: there the fuel is an argument, a run cut
      off is [NoFuel], and the theorems say when it is enough.

    ** What is shown

    - Memory safety on all inputs: DHCP replies, the rings of the four adapters,
      HTTP responses and TLS exchanges, ELF files, directory sectors, text at any
      position of the screen; and on all but the inputs that are known to break the
      code, which each theorem names: frames whose IPv4 total length is less than
      their header ([NetRx.frame_ok]), pictures of height -2147483648
      ([Image.negatable]), pages with longer runs of text than the parser has room for
      ([VelaAster.aster_page]), more inputs at the desktop than its stacking order
      counts.
    - Functional correctness against reference definitions: the FAT16 layout and
      directory lookup, the DHCP option decoding, relative addresses and redirects
      (RFC 3986, for the references on which the code agrees with it), the chunked coding, the end of an HTTP
      message, calendar time, rectangles, strokes of the brush, the PCI
      enumeration, memmove and division.
    - Exact messages: DHCP packets and frames, DNS queries, TCP segments with
      verifying checksums.
    - Invariants over histories: page conservation, the input rings as FIFO queues
      under interleaving, the receive ring of the e1000, the TCP stream as a prefix
      of the peer's under loss, repetition and reordering, the history of the
      browser, documents as trees in preorder.
    - Protection: a disk is written only after both confirmations; the kernel is
      entered only after every step succeeded; a call that starts on https never
      touches plain TCP; the browser asks for pages at allowed addresses only; next hops
      come from the gateway's announcements only; a press beside the taskbar and the
      icons goes to the window drawn last.
    - Termination: leaving boot services, DHCP acquisition, the polls of the
      adapters, the parser, the HTTP client over transports that return.
    The examples next to the theorems show the places where the code does not do
    what it means to; each names the behaviour in its comment.

    ** Limits of the composition

    - The browser is proved over any document engine that keeps [AsterLaws] within
      [limits] on pages, widths and memory; VelaAster.aster_engine_laws shows that
      kernel/aster.c does, within [aster_limits].  What a page's scripts make of it has
      to be within the limits too ([VelaSafe.displayable]).
    - The pictures of a page are the class [Pictures]; BrowserImage is its instance,
      over an environment that holds the browser itself.
    - [KernelMain.kernel_main_safe] is relative to laws of the parts kernel_main calls
      ([MachineLaws], [FetchLaws]): the theorems on page allocator, frame reception,
      DHCP and HTTP client are not carried over to that environment.

    ** Not modelled

    - The instructions that load descriptor tables, the interrupt stubs, the entry
      points and the BIOS path are assembly.
    - BearSSL is a third-party library; trust anchors and glyph tables are
      generated; Python and shell tools build images and are not part of the
      kernel; the tests under tests/ drive the code from outside. *)

From Stdlib Require Export ZArith Lia.
From stdpp Require Export base list numbers option.

#[global] Open Scope Z_scope.

(** ** Machine words

    A w-bit unsigned integer is a [Z]; the C conversions and the arithmetic
    that may wrap are written with the functions below.  The moduli are
    literals so that [lia] sees linear constraints. *)

Definition u8 (z : Z) : Z := z mod 256.
Definition u16 (z : Z) : Z := z mod 65536.
Definition u32 (z : Z) : Z := z mod 4294967296.
Definition u64 (z : Z) : Z := z mod 18446744073709551616.

(** Buffers are lists of bytes; lengths are counted in [Z]. *)
Abbreviation bytes := (list Z).
Abbreviation len l := (Z.of_nat (length l)).

Definition is_byte (b : Z) : Prop := 0 <= b < 256.
Definition bytes_ok (l : bytes) : Prop := Forall is_byte l.

(** C pointers as the code tests them: [Null], or a valid object. *)
Inductive ptr (A : Type) : Type :=
| Null
| Ptr (a : A).
Arguments Null {A}.
Arguments Ptr {A} a.

Definition is_null {A} (p : ptr A) : bool :=
  match p with Null => true | Ptr _ => false end.

(** ** Checked memory access

    [rd] and [wr] are the only ways the models touch a buffer.  [None] is
    undefined behaviour (an access outside the object): a theorem that a
    function returns [Some _] is a memory-safety theorem, and, for the loops
    that carry fuel, a termination theorem too. *)

Definition rd {A} (m : list A) (i : Z) : option A :=
  if 0 <=? i then m !! Z.to_nat i else None.

Definition wr {A} (m : list A) (i : Z) (v : A) : option (list A) :=
  if (0 <=? i) && (i <? len m) then Some (<[Z.to_nat i := v]> m) else None.

(** [slice m o n]: the [n] bytes at offset [o]. *)
Definition slice {A} (m : list A) (o n : Z) : list A :=
  take (Z.to_nat n) (drop (Z.to_nat o) m).

(** [blit m o v]: [m] with [v] laid over it at offset [o] (specification
    of the copy loops). *)
Definition blit {A} (m : list A) (o : Z) (v : list A) : list A :=
  take (Z.to_nat o) m ++ v ++ drop (Z.to_nat o + length v) m.

(** [copy_from n dst o src s]: the loop [while (n--) *d++ = *s++] between two
    distinct objects, [dst + o] and [src + s]. *)
Fixpoint copy_from {A} (n : nat) (dst : list A) (o : Z) (src : list A) (s : Z)
  : option (list A) :=
  match n with
  | O => Some dst
  | S n' =>
      v ← rd src s;
      dst' ← wr dst o v;
      copy_from n' dst' (o + 1) src (s + 1)
  end.

(** [fill n dst o v]: the loop [while (n--) *d++ = v]. *)
Fixpoint fill {A} (n : nat) (dst : list A) (o : Z) (v : A) : option (list A) :=
  match n with
  | O => Some dst
  | S n' => dst' ← wr dst o v; fill n' dst' (o + 1) v
  end.

(** ** Automation *)

Create HintDb orion.
Create Rewrite HintDb orion.

(** [zlia]: [lia] after turning [/] and [mod] into linear constraints. *)
Ltac zlia := Z.div_mod_to_equations; lia.

(** Turn the boolean tests of the code into propositions. *)
Ltac bool_prop :=
  repeat match goal with
  | H : andb _ _ = true |- _ => apply andb_prop in H as [? ?]
  | H : orb _ _ = false |- _ => apply orb_false_elim in H as [? ?]
  | H : negb _ = true |- _ => apply negb_true_iff in H
  | H : negb _ = false |- _ => apply negb_false_iff in H
  | H : (_ =? _) = true |- _ => apply Z.eqb_eq in H
  | H : (_ =? _) = false |- _ => apply Z.eqb_neq in H
  | H : (_ <? _) = true |- _ => apply Z.ltb_lt in H
  | H : (_ <? _) = false |- _ => apply Z.ltb_ge in H
  | H : (_ <=? _) = true |- _ => apply Z.leb_le in H
  | H : (_ <=? _) = false |- _ => apply Z.leb_gt in H
  end.

(** Case on the guard of an [if] in the goal. *)
Ltac case_if :=
  match goal with
  | |- context [if ?b then _ else _] =>
      let E := fresh "E" in destruct b eqn:E; bool_prop
  end.

(** Decide the guard of an [if] in the goal by arithmetic. *)
Ltac if_true :=
  match goal with
  | |- context [if ?b then _ else _] =>
      replace b with true by (symmetry; repeat (apply andb_true_intro; split);
        first [apply Z.leb_le | apply Z.ltb_lt | apply Z.eqb_eq]; lia)
  end.
Ltac if_false :=
  match goal with
  | |- context [if ?b then _ else _] =>
      replace b with false by (symmetry;
        first [apply Z.leb_gt | apply Z.ltb_ge | apply Z.eqb_neq]; lia)
  end.

(** [bytes_ok] of a literal list. *)
Ltac bytes_lit :=
  unfold bytes_ok; repeat (constructor; [unfold is_byte; lia|]); constructor.

(** ** Words *)

Lemma u8_range z : 0 <= u8 z < 256.
Proof. unfold u8. zlia. Qed.
Lemma u16_range z : 0 <= u16 z < 65536.
Proof. unfold u16. zlia. Qed.
Lemma u32_range z : 0 <= u32 z < 4294967296.
Proof. unfold u32. zlia. Qed.
Lemma u64_range z : 0 <= u64 z < 18446744073709551616.
Proof. unfold u64. zlia. Qed.

Lemma u8_id z : 0 <= z < 256 -> u8 z = z.
Proof. unfold u8. zlia. Qed.
Lemma u16_id z : 0 <= z < 65536 -> u16 z = z.
Proof. unfold u16. zlia. Qed.
Lemma u32_id z : 0 <= z < 4294967296 -> u32 z = z.
Proof. unfold u32. zlia. Qed.
Lemma u64_id z : 0 <= z < 18446744073709551616 -> u64 z = z.
Proof. unfold u64. zlia. Qed.

#[export] Hint Resolve u8_range u16_range u32_range u64_range : orion.
#[export] Hint Rewrite u8_id u16_id u32_id u64_id using lia : orion.

(** A left shift by a constant over a value that fits below it is an addition. *)
Lemma lor_shiftl_add a b n :
  0 <= n -> 0 <= b < 2 ^ n -> Z.lor (Z.shiftl a n) b = a * 2 ^ n + b.
Proof.
  intros Hn Hb. rewrite Z.shiftl_mul_pow2 by lia.
  rewrite Z.lor_comm, <- Z.lxor_lor, <- Z.add_nocarry_lxor; [lia| |].
  all: apply Z.bits_inj'; intros i Hi; rewrite Z.land_spec, Z.bits_0;
    destruct (Z.ltb_spec i n);
    [ rewrite Z.mul_pow2_bits_low by lia; apply andb_false_r
    | replace (Z.testbit b i) with false; [done|];
      symmetry; rewrite <- (Z.mod_small b (2 ^ n)) by lia;
      apply Z.mod_pow2_bits_high; lia ].
Qed.

Lemma lor_shiftl_above a b n :
  0 <= n -> 0 <= a < 2 ^ n -> Z.lor a (Z.shiftl b n) = a + b * 2 ^ n.
Proof. intros. rewrite Z.lor_comm, lor_shiftl_add by lia. lia. Qed.

(** ** Checked access *)

Section access.
Context {A : Type}.
Implicit Types (m : list A) (i o n : Z) (v : A).

Lemma rd_inv m i v :
  rd m i = Some v -> 0 <= i < len m /\ m !! Z.to_nat i = Some v.
Proof.
  unfold rd. case_if; [|done]. intros H.
  pose proof (lookup_lt_Some _ _ _ H). split; [lia|done].
Qed.

Lemma rd_is_Some m i : 0 <= i < len m -> is_Some (rd m i).
Proof.
  intros H. unfold rd. if_true. apply lookup_lt_is_Some. lia.
Qed.

Lemma rd_nat m (k : nat) : rd m (Z.of_nat k) = m !! k.
Proof. unfold rd. if_true. by rewrite Nat2Z.id. Qed.

Lemma wr_inv m i v m' :
  wr m i v = Some m' -> 0 <= i < len m /\ m' = <[Z.to_nat i := v]> m.
Proof. unfold wr. case_if; [|done]. intros [= <-]. split; [lia|done]. Qed.

Lemma wr_Some m i v :
  0 <= i < len m -> wr m i v = Some (<[Z.to_nat i := v]> m).
Proof. intros H. unfold wr. by if_true. Qed.

Lemma wr_length m i v m' : wr m i v = Some m' -> length m' = length m.
Proof. intros [_ ->]%wr_inv. apply length_insert. Qed.

Lemma rd_wr_eq m i v m' : wr m i v = Some m' -> rd m' i = Some v.
Proof.
  intros [Hi ->]%wr_inv. unfold rd. if_true.
  apply list_lookup_insert_eq. lia.
Qed.

Lemma rd_wr_ne m i j v m' : wr m i v = Some m' -> i <> j -> rd m' j = rd m j.
Proof.
  intros [Hi ->]%wr_inv Hne. unfold rd. case_if; [|done].
  apply list_lookup_insert_ne. lia.
Qed.

Lemma wr_app_l m1 m2 i v m1' :
  wr m1 i v = Some m1' -> wr (m1 ++ m2) i v = Some (m1' ++ m2).
Proof.
  intros [Hi ->]%wr_inv. rewrite wr_Some by (rewrite length_app; lia).
  f_equal. apply insert_app_l. lia.
Qed.

Lemma rd_app_l m1 m2 i : i < len m1 -> rd (m1 ++ m2) i = rd m1 i.
Proof. intros H. unfold rd. case_if; [|done]. apply lookup_app_l. lia. Qed.

Lemma rd_app_r m1 m2 i :
  len m1 <= i -> rd (m1 ++ m2) i = rd m2 (i - len m1).
Proof.
  intros H. unfold rd. do 2 if_true.
  rewrite lookup_app_r by lia. f_equal. lia.
Qed.

Lemma rd_drop m i o : 0 <= o -> 0 <= i -> rd (drop (Z.to_nat o) m) i = rd m (o + i).
Proof.
  intros. unfold rd. do 2 if_true. rewrite lookup_drop. f_equal. lia.
Qed.

Lemma slice_length m o n :
  0 <= o -> 0 <= n -> o + n <= len m -> len (slice m o n) = n.
Proof. intros. unfold slice. rewrite length_take, length_drop. lia. Qed.

Lemma blit_length m o (l : list A) :
  0 <= o -> o + len l <= len m -> length (blit m o l) = length m.
Proof.
  intros. unfold blit. rewrite !length_app, length_take, length_drop. lia.
Qed.

Lemma blit_nil m o : blit m o [] = m.
Proof. unfold blit. simpl. rewrite Nat.add_0_r. apply take_drop. Qed.

(** One byte written, then the rest: the shape of every copy loop. *)
Lemma blit_cons m o (x : A) l :
  0 <= o < len m -> blit m o (x :: l) = blit (<[Z.to_nat o := x]> m) (o + 1) l.
Proof.
  intros H. unfold blit.
  replace (Z.to_nat (o + 1)) with (S (Z.to_nat o)) by lia.
  rewrite (take_S_r _ _ x) by (apply list_lookup_insert_eq; lia).
  rewrite take_insert_ge by lia.
  rewrite <- app_assoc. simpl. do 3 f_equal.
  rewrite drop_insert_lt by lia. f_equal. lia.
Qed.

Lemma slice_0 m o : slice m o (Z.of_nat 0) = [].
Proof. done. Qed.

Lemma slice_cons m o n v :
  0 <= o -> 0 < n -> m !! Z.to_nat o = Some v ->
  slice m o n = v :: slice m (o + 1) (n - 1).
Proof.
  intros Ho Hn Hv. unfold slice.
  rewrite (drop_S _ v) by done.
  replace (Z.to_nat n) with (S (Z.to_nat (n - 1))) by lia. simpl.
  do 3 f_equal. lia.
Qed.

Lemma slice_nil m o n : n <= 0 -> slice m o n = [].
Proof. intros. unfold slice. by replace (Z.to_nat n) with 0%nat by lia. Qed.

Lemma drop_slice m o n k :
  0 <= o -> 0 <= k -> drop (Z.to_nat k) (slice m o n) = slice m (o + k) (n - k).
Proof.
  intros. unfold slice. rewrite skipn_firstn_comm, drop_drop. f_equal; [lia|].
  f_equal. lia.
Qed.

Lemma take_slice m o n k :
  k <= n -> take (Z.to_nat k) (slice m o n) = slice m o k.
Proof. intros. unfold slice. rewrite take_take. f_equal. lia. Qed.

Lemma slice_split m o n k :
  0 <= o -> 0 <= n -> 0 <= k -> slice m o (n + k) = slice m o n ++ slice m (o + n) k.
Proof.
  intros. unfold slice. replace (Z.to_nat (o + n)) with (Z.to_nat o + Z.to_nat n)%nat by lia.
  rewrite <- drop_drop, take_take_drop. f_equal. lia.
Qed.

Lemma slice_slice m o n i k :
  0 <= o -> 0 <= i -> i + k <= n -> slice (slice m o n) i k = slice m (o + i) k.
Proof.
  intros. unfold slice at 1. rewrite drop_slice by lia. apply take_slice. lia.
Qed.

Lemma copy_from_spec (n : nat) (dst : list A) o (src : list A) s :
  0 <= o -> o + Z.of_nat n <= len dst ->
  0 <= s -> s + Z.of_nat n <= len src ->
  copy_from n dst o src s = Some (blit dst o (slice src s (Z.of_nat n))).
Proof.
  revert dst o s. induction n as [|n IH]; intros dst o s Ho Hd Hs Hl; simpl.
  { by rewrite slice_0, blit_nil. }
  destruct (rd_is_Some src s) as [v Hv]; [lia|]. rewrite Hv. simpl.
  rewrite wr_Some by lia. simpl.
  rewrite IH by (rewrite ?length_insert; lia). f_equal.
  apply rd_inv in Hv as [_ Hv].
  rewrite (slice_cons _ s _ v) by (done || lia).
  rewrite blit_cons by lia. do 3 f_equal. lia.
Qed.

Lemma fill_spec (n : nat) (dst : list A) o v :
  0 <= o -> o + Z.of_nat n <= len dst ->
  fill n dst o v = Some (blit dst o (replicate n v)).
Proof.
  revert dst o. induction n as [|n IH]; intros dst o Ho Hd; simpl.
  { by rewrite blit_nil. }
  rewrite wr_Some by lia. simpl.
  rewrite IH by (rewrite ?length_insert; lia).
  by rewrite blit_cons by lia.
Qed.

Lemma copy_from_past (n : nat) (dst : list A) o (src : list A) s :
  len src < s + Z.of_nat n -> s <= len src -> copy_from n dst o src s = None.
Proof.
  revert dst o s. induction n as [|n IH]; intros dst o s Hl Hs; simpl; [lia|].
  destruct (rd src s) as [v|] eqn:E; simpl; [|done]. apply rd_inv in E as [E _].
  destruct (wr dst o v); simpl; [|done]. apply IH; lia.
Qed.

Lemma copy_from_inv (n : nat) (dst : list A) o (src : list A) s d' :
  copy_from n dst o src s = Some d' -> length d' = length dst.
Proof.
  revert dst o s. induction n as [|n IH]; intros dst o s; simpl; [by intros [= ->]|].
  destruct (rd src s) as [v|]; simpl; [|done].
  destruct (wr dst o v) as [d1|] eqn:E; simpl; [|done].
  intros ->%IH. by eapply wr_length.
Qed.
End access.

#[export] Hint Rewrite @length_insert @length_app @length_replicate
  @length_take @length_drop : orion.

Lemma seqZ_one i : seqZ i 1 = [i].
Proof. unfold seqZ. change (Z.to_nat 1) with 1%nat. cbn. by rewrite Z.add_0_l. Qed.

Lemma in_fmap {A B} (f : A -> B) (l : list A) y :
  In y (f <$> l) <-> exists x, f x = y /\ In x l.
Proof.
  rewrite <- list_elem_of_In, list_elem_of_fmap.
  split; intros (x & H1 & H2); exists x; (split; [congruence|]); by apply list_elem_of_In.
Qed.

(** ** Byte buffers *)

Lemma bytes_ok_lookup l i b : bytes_ok l -> l !! i = Some b -> is_byte b.
Proof. intros H. by apply Forall_lookup_1. Qed.

Lemma bytes_ok_rd l i b : bytes_ok l -> rd l i = Some b -> is_byte b.
Proof. intros H [_ E]%rd_inv. by eapply bytes_ok_lookup. Qed.

Lemma bytes_ok_slice l o n : bytes_ok l -> bytes_ok (slice l o n).
Proof. intros H. unfold slice. by apply Forall_take, Forall_drop. Qed.

Lemma bytes_ok_app l1 l2 : bytes_ok (l1 ++ l2) <-> bytes_ok l1 /\ bytes_ok l2.
Proof. apply Forall_app. Qed.

Lemma bytes_ok_replicate n b : is_byte b -> bytes_ok (replicate n b).
Proof. intros H. by apply Forall_replicate. Qed.

Lemma bytes_ok_blit m o v : bytes_ok m -> bytes_ok v -> bytes_ok (blit m o v).
Proof.
  intros Hm Hv. unfold blit. rewrite !bytes_ok_app.
  repeat split; [by apply Forall_take|done|by apply Forall_drop].
Qed.

#[export] Hint Resolve bytes_ok_slice bytes_ok_replicate bytes_ok_blit : orion.

(** Reads with a default, for specifications. *)
Definition byte_at (p : bytes) (o : Z) : Z := default 0 (rd p o).

Lemma rd_byte_at p o : 0 <= o < len p -> rd p o = Some (byte_at p o).
Proof.
  intros H. unfold byte_at. destruct (rd_is_Some p o H) as [v ->]. done.
Qed.

Lemma byte_at_range p o : bytes_ok p -> 0 <= byte_at p o < 256.
Proof.
  intros H. unfold byte_at. destruct (rd p o) eqn:E; simpl; [|lia].
  by eapply bytes_ok_rd.
Qed.

Lemma rd_slice m o n i :
  0 <= o -> 0 <= i < n -> o + n <= len m -> rd (slice m o n) i = rd (A := Z) m (o + i).
Proof.
  intros. unfold rd, slice. do 2 if_true.
  rewrite lookup_take_lt by lia. rewrite lookup_drop. f_equal. lia.
Qed.

Lemma byte_at_slice m o n i :
  0 <= o -> 0 <= i < n -> o + n <= len m -> byte_at (slice m o n) i = byte_at m (o + i).
Proof. intros. unfold byte_at. by rewrite rd_slice. Qed.

Lemma slice_all (m : bytes) n : n = len m -> slice m 0 n = m.
Proof. intros ->. unfold slice. apply take_ge. simpl. lia. Qed.

(** The [n] bytes at [o] handed to a routine that copies them. *)
Definition rd_bytes (m : bytes) (o n : Z) : option bytes :=
  if (0 <=? o) && (0 <=? n) && (o + n <=? len m) then Some (slice m o n) else None.

Lemma rd_bytes_Some m o n :
  0 <= o -> 0 <= n -> o + n <= len m -> rd_bytes m o n = Some (slice m o n).
Proof. intros. unfold rd_bytes. by if_true. Qed.

(** ** A buffer written from left to right *)

Lemma blit_app (a r v : bytes) :
  (length v <= length r)%nat -> blit (a ++ r) (len a) v = (a ++ v) ++ drop (length v) r.
Proof.
  intros H. unfold blit. rewrite Nat2Z.id, take_app_length, <- app_assoc. do 2 f_equal.
  rewrite drop_app_ge by lia. f_equal. lia.
Qed.

(** [bytes_ok] is decidable. *)
Definition bytes_okb (l : bytes) : bool := forallb (fun b => (0 <=? b) && (b <? 256)) l.

Lemma bytes_okb_spec l : bytes_okb l = true -> bytes_ok l.
Proof.
  unfold bytes_okb, bytes_ok. rewrite forallb_forall, List.Forall_forall.
  intros H x Hx%H. bool_prop. unfold is_byte. lia.
Qed.

(** A little-endian load of [n] bytes, as the machine reads a field of a
    structure laid over a byte buffer. *)
Fixpoint load_le (n : nat) (m : bytes) (o : Z) : option Z :=
  match n with
  | O => Some 0
  | S n' => b ← rd m o; r ← load_le n' m (o + 1); Some (b + 256 * r)
  end.

Lemma load_le_is_Some n m o :
  0 <= o -> o + Z.of_nat n <= len m -> is_Some (load_le n m o).
Proof.
  revert o. induction n as [|n IH]; intros o Ho Hl; [by eexists|].
  destruct (rd_is_Some m o) as [b Hb]; [lia|].
  destruct (IH (o + 1)) as [r Hr]; [lia..|].
  exists (b + 256 * r). cbn [load_le]. by rewrite Hb, Hr.
Qed.

Lemma load_le_range n m o v : bytes_ok m -> load_le n m o = Some v -> 0 <= v < 256 ^ Z.of_nat n.
Proof.
  intros Hm. revert o v. induction n as [|n IH]; intros o v; cbn [load_le].
  { intros [= <-]. cbn. lia. }
  destruct (rd m o) as [b|] eqn:Hb; cbn [mbind option_bind]; [|done].
  destruct (load_le n m (o + 1)) as [r|] eqn:Hr; cbn [mbind option_bind]; [|done].
  intros [= <-]. apply IH in Hr. apply bytes_ok_rd in Hb; [|done]. unfold is_byte in Hb.
  rewrite Nat2Z.inj_succ, Z.pow_succ_r by lia. lia.
Qed.

(** A test on the numbers below a bound, for goals settled by computation. *)
Definition below (n : Z) : list Z := map Z.of_nat (seq 0 (Z.to_nat n)).

Lemma below_spec n (f : Z -> bool) :
  forallb f (below n) = true -> forall x, 0 <= x < n -> f x = true.
Proof.
  intros H x Hx. rewrite forallb_forall in H. apply H. unfold below.
  apply in_map_iff. exists (Z.to_nat x). split; [lia|]. apply in_seq. lia.
Qed.

(** Two adjacent pieces laid over a buffer. *)
Lemma blit_blit {A} (m v1 v2 : list A) o :
  0 <= o -> o + len v1 + len v2 <= len m -> blit (blit m o v1) (o + len v1) v2 = blit m o (v1 ++ v2).
Proof.
  intros Ho Hl. unfold blit at 1 3. rewrite <- app_assoc.
  assert (E : take (Z.to_nat (o + len v1)) (blit m o v1) = take (Z.to_nat o) m ++ v1).
  { unfold blit. rewrite app_assoc, take_app_le by (rewrite length_app, length_take; lia).
    apply take_ge. rewrite length_app, length_take. lia. }
  rewrite E, <- app_assoc. do 3 f_equal. unfold blit. rewrite app_assoc, drop_app_ge
    by (rewrite length_app, length_take; lia).
  rewrite drop_drop, length_app, length_take, length_app. f_equal. lia.
Qed.
