(* ===== verification/Libc.v ===== *)
(** * kernel/libc.c and kernel/i686/builtins.c

    The freestanding memory routines over one flat address space (a list of
    bytes, addresses are indices), so that source and destination may
    overlap, and the 64-bit division runtime of the i686 kernel.  The loops
    [while (n--)] are structural on [n]. *)

From S2P Require Import Prelude.

(** ** memcpy, memmove, memset *)

(** [while (n--) *d++ = *s++;] *)
Fixpoint copy_up (n : nat) (m : bytes) (d s : Z) : option bytes :=
  match n with
  | O => Some m
  | S n' =>
      v ← rd m s;
      m' ← wr m d v;
      copy_up n' m' (d + 1) (s + 1)
  end.

(** [while (n--) *--d = *--s;] *)
Fixpoint copy_down (n : nat) (m : bytes) (d s : Z) : option bytes :=
  match n with
  | O => Some m
  | S n' =>
      v ← rd m (s - 1);
      m' ← wr m (d - 1) v;
      copy_down n' m' (d - 1) (s - 1)
  end.

Definition memcpy (m : bytes) (dst src n : Z) : option bytes :=
  copy_up (Z.to_nat n) m dst src.

Definition memmove (m : bytes) (dst src n : Z) : option bytes :=
  if dst <? src then copy_up (Z.to_nat n) m dst src
  else copy_down (Z.to_nat n) m (dst + n) (src + n).

(** The value stored is the [int] argument converted to [unsigned char]. *)
Definition memset (m : bytes) (dst c n : Z) : option bytes :=
  fill (Z.to_nat n) m dst (u8 c).

(** ** memcmp, strlen *)

Fixpoint memcmp_loop (n : nat) (m : bytes) (x y : Z) : option Z :=
  match n with
  | O => Some 0
  | S n' =>
      a ← rd m x;
      b ← rd m y;
      if negb (a =? b) then Some (if a <? b then -1 else 1)
      else memcmp_loop n' m (x + 1) (y + 1)
  end.

Definition memcmp (m : bytes) (a b n : Z) : option Z :=
  memcmp_loop (Z.to_nat n) m a b.

(** [while (s && s[n]) n++;]: the fuel is the memory left above [s]; a string
    with no terminator inside the memory runs off its end ([None]). *)
Fixpoint strlen_loop (fuel : nat) (m : bytes) (s n : Z) : option Z :=
  match fuel with
  | O => None
  | S fuel' =>
      c ← rd m (s + n);
      if c =? 0 then Some n else strlen_loop fuel' m s (n + 1)
  end.

Definition strlen (m : bytes) (s : ptr Z) : option Z :=
  match s with
  | Null => Some 0
  | Ptr a => strlen_loop (S (length m - Z.to_nat a)) m a 0
  end.

(** ** The division runtime

    One turn of [for (int i = 63; i >= 0; i--)]; [k] turns remain, the bit
    index is [i = k - 1]. *)
Fixpoint udivmod64_loop (k : nat) (n d q r : Z) : Z * Z :=
  match k with
  | O => (q, r)
  | S i =>
      let r := Z.lor (u64 (Z.shiftl r 1)) (Z.land (Z.shiftr n (Z.of_nat i)) 1) in
      if d <=? r
      then udivmod64_loop i n d (Z.lor q (Z.shiftl 1 (Z.of_nat i))) (r - d)
      else udivmod64_loop i n d q r
  end.

(** Returns [(q, *rem)]; a zero divisor gives UINT64_MAX and [n]. *)
Definition udivmod64 (n d : Z) : Z * Z :=
  if d =? 0 then (18446744073709551615, n) else udivmod64_loop 64 n d 0 0.

Definition __udivdi3 (n d : Z) : Z := fst (udivmod64 n d).
Definition __umoddi3 (n d : Z) : Z := snd (udivmod64 n d).
Definition __udivmoddi4 (n d : Z) : Z * Z := udivmod64 n d.

(** ** Copies *)

Lemma slice_write_disjoint (m : bytes) d v s n :
  0 <= s -> 0 <= d -> d < s \/ s + n <= d ->
  slice (<[Z.to_nat d := v]> m) s n = slice m s n.
Proof.
  intros Hs Hd Hor. unfold slice. destruct Hor as [H|H].
  - rewrite drop_insert_lt by lia. done.
  - destruct (Z.ltb_spec d s); [rewrite drop_insert_lt by lia; done|].
    rewrite drop_insert_ge by lia. apply take_insert_ge. lia.
Qed.

(** The forward copy is right when the destination is below the source, or
    the ranges do not meet. *)
Lemma copy_up_spec n m d s :
  0 <= d -> d + Z.of_nat n <= len m -> 0 <= s -> s + Z.of_nat n <= len m ->
  d <= s \/ s + Z.of_nat n <= d ->
  copy_up n m d s = Some (blit m d (slice m s (Z.of_nat n))).
Proof.
  revert m d s. induction n as [|n IH]; intros m d s Hd Hdl Hs Hsl Hor; simpl.
  { by rewrite slice_0, blit_nil. }
  destruct (rd_is_Some m s) as [v Hv]; [lia|]. rewrite Hv. simpl.
  rewrite wr_Some by lia. simpl.
  rewrite IH by (rewrite ?length_insert; lia). f_equal.
  apply rd_inv in Hv as [_ Hv].
  rewrite slice_write_disjoint by lia.
  rewrite (slice_cons m s _ v) by (done || lia).
  rewrite blit_cons by lia. do 3 f_equal. lia.
Qed.

Lemma blit_snoc (m : bytes) o l v :
  0 <= o -> o + len l < len m ->
  blit m o (l ++ [v]) = blit (<[Z.to_nat (o + len l) := v]> m) o l.
Proof.
  intros Ho Hl. unfold blit.
  rewrite take_insert_ge by lia. rewrite <- app_assoc. do 2 f_equal.
  replace (Z.to_nat (o + len l)) with (Z.to_nat o + length l)%nat by lia.
  rewrite drop_insert_ge by lia. rewrite Nat.sub_diag.
  rewrite length_app. simpl.
  destruct (drop (Z.to_nat o + length l) m) as [|x t] eqn:E.
  { apply (f_equal length) in E. rewrite length_drop in E. simpl in E. lia. }
  simpl. f_equal.
  replace (Z.to_nat o + (length l + 1))%nat with (S (Z.to_nat o + length l)) by lia.
  change t with (drop 1 (x :: t)). rewrite <- E, drop_drop. f_equal. lia.
Qed.

Lemma slice_snoc (m : bytes) s n v :
  0 <= s -> 0 < n -> rd m (s + n - 1) = Some v ->
  slice m s n = slice m s (n - 1) ++ [v].
Proof.
  intros Hs Hn [Hr Hv]%rd_inv. unfold slice.
  replace (Z.to_nat n) with (S (Z.to_nat (n - 1))) by lia.
  apply take_S_r. rewrite lookup_drop, <- Hv. f_equal. lia.
Qed.

(** The backward copy is right when the destination is at or above the source. *)
Lemma copy_down_spec n m d s :
  0 <= d -> d + Z.of_nat n <= len m -> 0 <= s -> s + Z.of_nat n <= len m ->
  s <= d ->
  copy_down n m (d + Z.of_nat n) (s + Z.of_nat n)
    = Some (blit m d (slice m s (Z.of_nat n))).
Proof.
  revert m. induction n as [|n IH]; intros m Hd Hdl Hs Hsl Hor.
  { simpl. by rewrite slice_0, blit_nil. }
  cbn [copy_down].
  destruct (rd_is_Some m (s + Z.of_nat (S n) - 1)) as [v Hv]; [lia|].
  rewrite Hv. simpl mbind.
  rewrite wr_Some by lia. simpl mbind.
  replace (d + Z.of_nat (S n) - 1) with (d + Z.of_nat n) by lia.
  replace (s + Z.of_nat (S n) - 1) with (s + Z.of_nat n) in * by lia.
  rewrite IH by (rewrite ?length_insert; lia). f_equal.
  rewrite slice_write_disjoint by lia.
  rewrite (slice_snoc m s (Z.of_nat (S n)) v) by (done || lia || (rewrite <- Hv; f_equal; lia)).
  replace (Z.of_nat (S n) - 1) with (Z.of_nat n) by lia.
  rewrite blit_snoc by (rewrite ?slice_length; lia).
  by rewrite slice_length by lia.
Qed.

(** memmove copies the source range as it was before the call, however the
    two ranges overlap, and touches nothing else. *)
Theorem memmove_correct m dst src n :
  0 <= n -> 0 <= dst -> dst + n <= len m -> 0 <= src -> src + n <= len m ->
  memmove m dst src n = Some (blit m dst (slice m src n)).
Proof.
  intros Hn Hd Hdl Hs Hsl. unfold memmove. case_if.
  - rewrite copy_up_spec by lia. by rewrite Z2Nat.id by lia.
  - pose proof (copy_down_spec (Z.to_nat n) m dst src) as H.
    rewrite Z2Nat.id in H by lia. apply H; lia.
Qed.

(** Four bytes moved up by one, over themselves. *)
Theorem memmove_correct_witness :
  memmove [1; 2; 3; 4; 5; 6] 1 0 4 = Some [1; 1; 2; 3; 4; 6].
Proof. rewrite (memmove_correct [1; 2; 3; 4; 5; 6] 1 0 4); [reflexivity|..]; simpl; lia. Defined.

(** ** Division *)

Lemma shiftr_halve n (i : nat) :
  Z.shiftr n (Z.of_nat i)
    = 2 * Z.shiftr n (Z.of_nat (S i)) + Z.land (Z.shiftr n (Z.of_nat i)) 1.
Proof.
  replace (Z.of_nat (S i)) with (Z.of_nat i + 1) by lia.
  rewrite <- Z.shiftr_shiftr by lia.
  generalize (Z.shiftr n (Z.of_nat i)) as a. intros a.
  change 1 with (Z.ones 1) at 2. rewrite Z.land_ones, Z.shiftr_div_pow2 by lia.
  change (2 ^ 1) with 2. zlia.
Qed.

Lemma land_1_range a : 0 <= Z.land a 1 < 2.
Proof.
  change 1 with (Z.ones 1). rewrite Z.land_ones by lia. change (2 ^ 1) with 2. zlia.
Qed.

Lemma lor_double_bit r b :
  0 <= r < 9223372036854775808 -> 0 <= b < 2 ->
  Z.lor (u64 (Z.shiftl r 1)) b = 2 * r + b.
Proof.
  intros Hr Hb. rewrite u64_id by (rewrite Z.shiftl_mul_pow2 by lia; lia).
  rewrite lor_shiftl_add by lia. lia.
Qed.

Lemma lor_next_bit Q (i : nat) :
  Z.lor (Z.shiftl Q (Z.of_nat (S i))) (Z.shiftl 1 (Z.of_nat i))
    = Z.shiftl (2 * Q + 1) (Z.of_nat i).
Proof.
  replace (Z.of_nat (S i)) with (1 + Z.of_nat i) by lia.
  rewrite <- Z.shiftl_shiftl by lia. rewrite <- Z.shiftl_lor.
  f_equal. rewrite lor_shiftl_add by lia. lia.
Qed.

(** The high part of the dividend still fits below the bit being shifted out:
    this is why [r << 1] never loses a bit, even for divisors above 2^63. *)
Lemma shiftr_bound n (k : nat) :
  0 <= n < 18446744073709551616 -> (0 < k)%nat ->
  0 <= Z.shiftr n (Z.of_nat k) < 9223372036854775808.
Proof.
  intros Hn Hk. rewrite Z.shiftr_div_pow2 by lia.
  assert (2 ^ 1 <= 2 ^ Z.of_nat k) by (apply Z.pow_le_mono_r; lia).
  split; [apply Z.div_pos; lia|]. apply Z.div_lt_upper_bound; lia.
Qed.

Lemma udivmod64_loop_spec (k : nat) n d :
  0 <= n < 18446744073709551616 -> 0 < d ->
  let a := Z.shiftr n (Z.of_nat k) in
  udivmod64_loop k n d (Z.shiftl (a / d) (Z.of_nat k)) (a mod d)
    = (n / d, n mod d).
Proof.
  intros Hn Hd. induction k as [|i IH]; intros a.
  { subst a. cbn [udivmod64_loop]. change (Z.of_nat 0) with 0.
    by rewrite Z.shiftl_0_r, Z.shiftr_0_r. }
  cbn zeta in IH. cbn [udivmod64_loop].
  pose proof (shiftr_bound n (S i) Hn ltac:(lia)) as Ha. fold a in Ha.
  pose proof (land_1_range (Z.shiftr n (Z.of_nat i))) as Hb.
  pose proof (shiftr_halve n i) as Hh. fold a in Hh.
  set (b := Z.land (Z.shiftr n (Z.of_nat i)) 1) in *.
  pose proof (Z.mod_pos_bound a d Hd) as Hr.
  pose proof (Z.mod_le a d ltac:(lia) Hd) as Hra.
  pose proof (Z.div_mod a d ltac:(lia)) as Hqr.
  rewrite lor_double_bit by lia. cbn zeta.
  rewrite Hh in IH.
  case_if.
  - rewrite lor_next_bit.
    replace (2 * (a / d) + 1) with ((2 * a + b) / d)
      by (symmetry; apply Z.div_unique_pos with (2 * (a mod d) + b - d); lia).
    replace (2 * (a mod d) + b - d) with ((2 * a + b) mod d); [exact IH|].
    symmetry; apply Z.mod_unique_pos with (2 * (a / d) + 1); lia.
  - replace (Z.shiftl (a / d) (Z.of_nat (S i)))
      with (Z.shiftl ((2 * a + b) / d) (Z.of_nat i)).
    + replace (2 * (a mod d) + b) with ((2 * a + b) mod d); [exact IH|].
      symmetry; apply Z.mod_unique_pos with (2 * (a / d)); lia.
    + replace ((2 * a + b) / d) with (2 * (a / d))
        by (apply Z.div_unique_pos with (2 * (a mod d) + b); lia).
      rewrite !Z.shiftl_mul_pow2 by lia.
      replace (Z.of_nat (S i)) with (1 + Z.of_nat i) by lia.
      rewrite Z.pow_add_r by lia. lia.
Qed.

(** The shift-and-subtract division of the i686 runtime computes the 64-bit
    quotient and remainder for every non-zero divisor, and (UINT64_MAX, n) for
    a zero one. *)
Theorem udivmod64_correct n d :
  0 <= n < 18446744073709551616 -> 0 <= d < 18446744073709551616 ->
  udivmod64 n d = if d =? 0 then (18446744073709551615, n) else (n / d, n mod d).
Proof.
  intros Hn Hd. unfold udivmod64. case_if; [done|].
  pose proof (udivmod64_loop_spec 64 n d Hn ltac:(lia)) as H. cbn zeta in H.
  replace (Z.shiftr n (Z.of_nat 64)) with 0 in H; [exact H|].
  rewrite Z.shiftr_div_pow2 by lia. symmetry. apply Z.div_small. lia.
Qed.

Theorem udivmod64_correct_witness :
  udivmod64 18446744073709551615 9223372036854775809 = (1, 9223372036854775806).
Proof.
  rewrite (udivmod64_correct 18446744073709551615 9223372036854775809);
    [reflexivity | lia | lia].
Defined.

(** ** Comparison *)

(** The first position where two byte strings of equal length differ decides. *)
Fixpoint bytes_compare (a b : bytes) : Z :=
  match a, b with
  | x :: a', y :: b' =>
      if x =? y then bytes_compare a' b' else if x <? y then -1 else 1
  | _, _ => 0
  end.

Lemma memcmp_loop_spec n m x y :
  0 <= x -> x + Z.of_nat n <= len m -> 0 <= y -> y + Z.of_nat n <= len m ->
  memcmp_loop n m x y
    = Some (bytes_compare (slice m x (Z.of_nat n)) (slice m y (Z.of_nat n))).
Proof.
  revert x y. induction n as [|n IH]; intros x y Hx Hxl Hy Hyl; [done|].
  cbn [memcmp_loop].
  destruct (rd_is_Some m x) as [a Ha]; [lia|].
  destruct (rd_is_Some m y) as [b Hb]; [lia|]. rewrite Ha, Hb. simpl mbind.
  apply rd_inv in Ha as [_ Ha], Hb as [_ Hb].
  rewrite (slice_cons m x _ a), (slice_cons m y _ b) by (done || lia).
  cbn [bytes_compare]. destruct (a =? b) eqn:E; simpl.
  - rewrite IH by lia. do 3 f_equal; lia.
  - done.
Qed.

Lemma bytes_compare_0 a b : length a = length b -> bytes_compare a b = 0 <-> a = b.
Proof.
  revert b. induction a as [|x a IH]; intros [|y b] Hl; simpl in *; try done.
  destruct (Z.eqb_spec x y) as [->|Hne].
  - rewrite IH by lia. naive_solver.
  - split; [|naive_solver]. destruct (x <? y); lia.
Qed.

(** memcmp stays in its two ranges, is zero exactly when they hold the same
    bytes, and otherwise has the sign of the first difference. *)
Theorem memcmp_correct m a b n :
  0 <= n -> 0 <= a -> a + n <= len m -> 0 <= b -> b + n <= len m ->
  exists r, memcmp m a b n = Some r /\
    r = bytes_compare (slice m a n) (slice m b n) /\
    (r = 0 <-> slice m a n = slice m b n).
Proof.
  intros Hn Ha Hal Hb Hbl. eexists. split; [|split; [reflexivity|]].
  - unfold memcmp. rewrite memcmp_loop_spec by lia. by rewrite Z2Nat.id by lia.
  - apply bytes_compare_0.
    pose proof (slice_length m a n). pose proof (slice_length m b n). lia.
Qed.

Theorem memcmp_correct_witness :
  exists r, memcmp [1; 9; 3; 1; 2; 3] 0 3 3 = Some r /\ r = 1.
Proof.
  destruct (memcmp_correct [1; 9; 3; 1; 2; 3] 0 3 3) as (r & H & Hr & _); try (simpl; lia).
  exists r. split; [exact H|]. rewrite Hr. reflexivity.
Defined.
