(* ===== verification/Blockdev.v ===== *)
(** * kernel/blockdev.c, include/blockdev.h

    The architecture-neutral block-device ABI: a record of driver callbacks
    and the checked wrappers around them.  [W] is the state behind the
    device (the callback's [context]); the callbacks are fields of the record,
    as in C, so the wrappers are proved for every driver.  The class
    [BlockDriver] is the contract a driver offers to the layers above. *)

From stdpp Require Import strings.
From S2P Require Import Prelude.

(** ** The device record *)

Section device.
Context {W : Type}.

(** [read(dev, lba, count, buffer)]: status, buffer and device state after. *)
Definition orion_block_read_fn : Type := W -> Z -> Z -> bytes -> Z * bytes * W.
(** [write(dev, lba, count, buffer)]: status and device state after. *)
Definition orion_block_write_fn : Type := W -> Z -> Z -> bytes -> Z * W.

Record orion_blockdev := mk_blockdev {
  bd_name : ptr string;
  bd_block_size : Z;
  bd_block_count : Z;
  bd_read : ptr orion_block_read_fn;
  bd_write : ptr orion_block_write_fn
}.

Definition blockdev_range_valid (dev : ptr orion_blockdev) (lba count : Z) : bool :=
  match dev with
  | Null => false
  | Ptr d =>
      if count =? 0 then false
      else if bd_block_count d <=? lba then false
      else count <=? u64 (bd_block_count d - lba)
  end.

Definition blockdev_validate (dev : ptr orion_blockdev) : Z :=
  match dev with
  | Null => -1
  | Ptr d =>
      if is_null (bd_name d) || (bd_block_size d =? 0) || (bd_block_count d =? 0)
         || is_null (bd_read d)
      then -1 else 0
  end.

(** The result is the status, the buffer and the device state. *)
Definition blockdev_read (dev : ptr orion_blockdev) (lba count : Z)
    (buffer : ptr bytes) (w : W) : Z * ptr bytes * W :=
  if negb (blockdev_validate dev =? 0) || is_null buffer
     || negb (blockdev_range_valid dev lba count)
  then (-1, buffer, w)
  else
    match dev, buffer with
    | Ptr d, Ptr buf =>
        match bd_read d with
        | Ptr read => let '(rc, buf', w') := read w lba count buf in (rc, Ptr buf', w')
        | Null => (-1, buffer, w)
        end
    | _, _ => (-1, buffer, w)
    end.

Definition blockdev_has_write (dev : ptr orion_blockdev) : bool :=
  match dev with Ptr d => negb (is_null (bd_write d)) | Null => false end.

Definition blockdev_write (dev : ptr orion_blockdev) (lba count : Z)
    (buffer : ptr bytes) (w : W) : Z * W :=
  if negb (blockdev_validate dev =? 0) || negb (blockdev_has_write dev)
     || is_null buffer || negb (blockdev_range_valid dev lba count)
  then (-1, w)
  else
    match dev, buffer with
    | Ptr d, Ptr buf =>
        match bd_write d with
        | Ptr write => write w lba count buf
        | Null => (-1, w)
        end
    | _, _ => (-1, w)
    end.

(** ** What a driver promises

    [block_at w i] is the content of block [i] in device state [w]. *)
Class BlockDriver (d : orion_blockdev) (ok : W -> Prop) (block_at : W -> Z -> bytes) := {
  driver_shape : forall w i,
    ok w -> 0 <= i < bd_block_count d ->
    len (block_at w i) = bd_block_size d /\ bytes_ok (block_at w i);
  driver_read : forall fn w lba count buf,
    bd_read d = Ptr fn -> ok w ->
    0 <= lba -> 0 < count -> lba + count <= bd_block_count d ->
    count * bd_block_size d <= len buf ->
    exists w',
      fn w lba count buf
        = (0, blit buf 0 (concat (block_at w <$> seqZ lba count)), w') /\
      ok w' /\ (forall i, 0 <= i < bd_block_count d -> block_at w' i = block_at w i);
  driver_write : forall fn w lba count buf,
    bd_write d = Ptr fn -> ok w ->
    0 <= lba -> 0 < count -> lba + count <= bd_block_count d ->
    count * bd_block_size d <= len buf -> bytes_ok buf ->
    exists w',
      fn w lba count buf = (0, w') /\ ok w' /\
      (forall k, 0 <= k < count ->
         block_at w' (lba + k) = slice buf (k * bd_block_size d) (bd_block_size d)) /\
      (forall i, 0 <= i < bd_block_count d -> i < lba \/ lba + count <= i ->
         block_at w' i = block_at w i)
}.
End device.
Arguments orion_blockdev : clear implicits.
Arguments orion_block_read_fn : clear implicits.
Arguments orion_block_write_fn : clear implicits.

(** The range the wrappers accept, in unbounded arithmetic. *)
Definition range_ok (count lba n : Z) : Prop := 0 < n /\ 0 <= lba /\ lba + n <= count.

(** ** A RAM disk, the device the repository's own smoke test uses *)
Module RamDisk.

Definition mem_read (bs : Z) : orion_block_read_fn (Z -> bytes) :=
  fun disk lba count buf => (0, blit buf 0 (concat (disk <$> seqZ lba count)), disk).

Definition mem_write (bs : Z) : orion_block_write_fn (Z -> bytes) :=
  fun disk lba count buf =>
    (0, fun i => if (lba <=? i) && (i <? lba + count)
                 then slice buf ((i - lba) * bs) bs else disk i).

Definition device (bs count : Z) : orion_blockdev (Z -> bytes) :=
  mk_blockdev (Ptr "mem0"%string) bs count (Ptr (mem_read bs)) (Ptr (mem_write bs)).

Definition ok (bs : Z) (disk : Z -> bytes) : Prop :=
  forall i, len (disk i) = bs /\ bytes_ok (disk i).

#[export] Instance ram_driver (bs count : Z) (Hbs : 0 <= bs) :
  BlockDriver (device bs count) (ok bs) (fun disk => disk).
Proof.
  split.
  - intros w i Hw _. apply Hw.
  - intros fn w lba n buf [= <-] Hw H1 H2 H3 H4. exists w. done.
  - intros fn w lba n buf [= <-] Hw H1 H2 H3 H4 Hb. simpl in *.
    eexists. split; [reflexivity|]. split; [|split].
    + intros i. case_if; [|apply Hw].
      split; [apply slice_length; nia|auto with orion].
    + intros k Hk. if_true. f_equal. lia.
    + intros i _ Hi. case_if; [lia|done].
Qed.
End RamDisk.

(** ** The wrappers *)

Section wrappers.
Context {W : Type}.
Implicit Types (d : orion_blockdev W) (w : W) (buf : bytes).

Lemma range_valid_spec d lba n :
  0 <= bd_block_count d < 18446744073709551616 -> 0 <= lba -> 0 <= n ->
  blockdev_range_valid (Ptr d) lba n = true <-> range_ok (bd_block_count d) lba n.
Proof.
  intros Hc Hl Hn. unfold blockdev_range_valid, range_ok.
  destruct (n =? 0) eqn:E1; bool_prop; [split; [done|lia]|].
  destruct (bd_block_count d <=? lba) eqn:E2; bool_prop; [split; [done|lia]|].
  rewrite u64_id by lia. rewrite Z.leb_le. lia.
Qed.

Lemma validate_0 (dev : ptr (orion_blockdev W)) :
  blockdev_validate dev = 0 <->
  exists d nm rd, dev = Ptr d /\ bd_name d = Ptr nm /\ bd_read d = Ptr rd /\
    bd_block_size d <> 0 /\ bd_block_count d <> 0.
Proof.
  unfold blockdev_validate. destruct dev as [|d].
  { split; [done|]. by intros (? & ? & ? & ? & _). }
  split.
  - case_if; [done|]. intros _.
    destruct (bd_name d) as [|nm] eqn:E1, (bd_read d) as [|r] eqn:E2; try done.
    by exists d, nm, r.
  - intros (d' & nm & r & [= <-] & -> & -> & H1 & H2).
    apply Z.eqb_neq in H1, H2. by rewrite H1, H2.
Qed.

(** A read reaches the driver only with a non-empty range that lies inside
    the device (64-bit wrap-around included), and then is the driver's own
    result; every other call returns -1 and touches neither the buffer nor the
    device. *)
Theorem blockdev_read_checked d lba n buf w :
  0 <= bd_block_count d < 18446744073709551616 -> 0 <= lba -> 0 <= n ->
  (exists read, blockdev_validate (Ptr d) = 0 /\ bd_read d = Ptr read /\
     range_ok (bd_block_count d) lba n /\
     blockdev_read (Ptr d) lba n (Ptr buf) w
       = let '(rc, buf', w') := read w lba n buf in (rc, Ptr buf', w'))
  \/ ((blockdev_validate (Ptr d) <> 0 \/ ~ range_ok (bd_block_count d) lba n) /\
      blockdev_read (Ptr d) lba n (Ptr buf) w = (-1, Ptr buf, w)).
Proof.
  intros Hc Hl Hn. pose proof (range_valid_spec d lba n Hc Hl Hn) as Hr.
  unfold blockdev_read. simpl is_null. rewrite orb_false_r.
  destruct (Z.eqb_spec (blockdev_validate (Ptr d)) 0) as [Hv|Hv]; cbn [negb orb]; [|auto].
  destruct (blockdev_range_valid (Ptr d) lba n); cbn [negb].
  - apply validate_0 in Hv as Hv'.
    destruct Hv' as (d' & nm & r & [= <-] & _ & Er & _). rewrite Er.
    left. exists r. split; [exact Hv|]. split; [done|]. split; [by apply Hr|done].
  - right. split; [right; intros H; by apply Hr in H|done].
Qed.

Lemma blockdev_read_in_range d read lba n buf w :
  0 <= bd_block_count d < 18446744073709551616 ->
  blockdev_validate (Ptr d) = 0 -> bd_read d = Ptr read ->
  range_ok (bd_block_count d) lba n ->
  blockdev_read (Ptr d) lba n (Ptr buf) w
    = let '(rc, buf', w') := read w lba n buf in (rc, Ptr buf', w').
Proof.
  intros Hc Hv Hr Hok. unfold blockdev_read. rewrite Hv, Hr. simpl.
  assert (H : blockdev_range_valid (Ptr d) lba n = true)
    by (apply range_valid_spec; [done|unfold range_ok in Hok; lia..|done]).
  simpl in H. by rewrite H.
Qed.

Lemma blockdev_write_in_range d write lba n buf w :
  0 <= bd_block_count d < 18446744073709551616 ->
  blockdev_validate (Ptr d) = 0 -> bd_write d = Ptr write ->
  range_ok (bd_block_count d) lba n ->
  blockdev_write (Ptr d) lba n (Ptr buf) w = write w lba n buf.
Proof.
  intros Hc Hv Hr Hok. unfold blockdev_write, blockdev_has_write. rewrite Hv, Hr. simpl.
  assert (H : blockdev_range_valid (Ptr d) lba n = true)
    by (apply range_valid_spec; [done|unfold range_ok in Hok; lia..|done]).
  simpl in H. by rewrite H.
Qed.

(** ** Data *)

Lemma concat_slices (buf : bytes) bs (n : nat) :
  0 <= bs -> Z.of_nat n * bs <= len buf ->
  concat ((fun k => slice buf (k * bs) bs) <$> seqZ 0 (Z.of_nat n))
    = take (Z.to_nat (Z.of_nat n * bs)) buf.
Proof.
  intros Hbs. induction n as [|n IH]; intros Hl; [done|].
  rewrite seqZ_S, fmap_app, concat_app, IH by lia. cbn [fmap list_fmap concat].
  rewrite app_nil_r, Z.add_0_l. unfold slice.
  rewrite <- (take_drop (Z.to_nat (Z.of_nat n * bs)) (take (Z.to_nat (Z.of_nat (S n) * bs)) buf)).
  rewrite take_take, skipn_firstn_comm. do 3 f_equal; lia.
Qed.

Lemma blocks_shift (f : Z -> bytes) lba n :
  f <$> seqZ lba n = (fun k => f (lba + k)) <$> seqZ 0 n.
Proof.
  rewrite <- (Z.add_0_r lba) at 1. rewrite <- fmap_add_seqZ, <- list_fmap_compose. done.
Qed.

(** Reading through the wrapper delivers the blocks of the device. *)
Lemma blockdev_read_blocks d ok block_at `{!BlockDriver d ok block_at} lba n buf w :
  0 <= bd_block_count d < 18446744073709551616 ->
  blockdev_validate (Ptr d) = 0 -> ok w -> range_ok (bd_block_count d) lba n ->
  n * bd_block_size d <= len buf ->
  exists w',
    blockdev_read (Ptr d) lba n (Ptr buf) w
      = (0, Ptr (blit buf 0 (concat (block_at w <$> seqZ lba n))), w') /\
    ok w' /\ (forall i, 0 <= i < bd_block_count d -> block_at w' i = block_at w i).
Proof.
  intros Hc Hv Hok Hr Hl. apply validate_0 in Hv as Hv'.
  destruct Hv' as (d' & nm & r & [= <-] & _ & Er & _).
  rewrite (blockdev_read_in_range d r) by done.
  destruct Hr as (H1 & H2 & H3).
  destruct (driver_read r w lba n buf) as (w' & E & Hw' & Hsame); [done..|].
  rewrite E. by exists w'.
Qed.

(** On a device whose driver keeps its contract, a successful range written
    with blockdev_write reads back byte for byte, and no other block changes. *)
Theorem blockdev_write_read d ok block_at `{!BlockDriver d ok block_at} lba n data buf w :
  0 <= bd_block_count d < 18446744073709551616 -> 0 <= bd_block_size d ->
  blockdev_validate (Ptr d) = 0 -> bd_write d <> Null ->
  ok w -> range_ok (bd_block_count d) lba n ->
  bytes_ok data -> len data = n * bd_block_size d -> length buf = length data ->
  exists w' w'',
    blockdev_write (Ptr d) lba n (Ptr data) w = (0, w') /\
    blockdev_read (Ptr d) lba n (Ptr buf) w' = (0, Ptr data, w'') /\
    (forall i, 0 <= i < bd_block_count d -> i < lba \/ lba + n <= i ->
       block_at w'' i = block_at w i).
Proof.
  intros Hc Hbs Hv Hwr Hok Hr Hb Hl Hlb. pose proof Hr as (H1 & H2 & H3).
  destruct (bd_write d) as [|wrt] eqn:Ew; [done|].
  rewrite (blockdev_write_in_range d wrt) by done.
  destruct (driver_write wrt w lba n data) as (w' & E & Hw' & Hin & Hout); [done..|lia|done|].
  destruct (blockdev_read_blocks d ok block_at lba n buf w') as (w'' & E' & _ & Hs); [done..|lia|].
  exists w', w''. split; [exact E|]. split.
  - rewrite E'. do 3 f_equal. rewrite blocks_shift.
    rewrite (list_fmap_ext _ (fun k => slice data (k * bd_block_size d) (bd_block_size d))).
    + pose proof (concat_slices data (bd_block_size d) (Z.to_nat n) Hbs) as Hcat.
      rewrite Z2Nat.id in Hcat by lia. rewrite Hcat by lia.
      rewrite take_ge by lia. unfold blit.
      rewrite drop_ge by lia. by rewrite app_nil_r.
    + intros i k Hk. apply Hin. apply lookup_seqZ in Hk. lia.
  - intros i Hi Hne. rewrite Hs by done. by apply Hout.
Qed.
End wrappers.

Theorem blockdev_read_checked_witness :
  let d := RamDisk.device 2 4 in let disk i := [i; i + 1] in
  blockdev_read (Ptr d) 3 1 (Ptr [0; 0]) disk = (0, Ptr [3; 4], disk) /\
  blockdev_read (Ptr d) 3 2 (Ptr [0; 0]) disk = (-1, Ptr [0; 0], disk).
Proof.
  intros d disk. split.
  - destruct (blockdev_read_checked d 3 1 [0; 0] disk) as [H|[[H|H] _]];
      [simpl; lia..| | |].
    + destruct H as (r & _ & [= <-] & _ & ->). reflexivity.
    + destruct H. reflexivity.
    + destruct H. unfold range_ok. simpl. lia.
  - reflexivity.
Defined.

Theorem blockdev_write_read_witness :
  exists w' w'',
    blockdev_write (Ptr (RamDisk.device 2 4)) 1 2 (Ptr [7; 8; 9; 10]) (fun _ => [0; 0]) = (0, w') /\
    blockdev_read (Ptr (RamDisk.device 2 4)) 1 2 (Ptr [0; 0; 0; 0]) w' = (0, Ptr [7; 8; 9; 10], w'') /\
    w'' 3 = [0; 0].
Proof.
  assert (H2 : 0 <= 2) by lia.
  pose (H := blockdev_write_read (RamDisk.device 2 4) (RamDisk.ok 2) (fun disk => disk)
    (BlockDriver0 := RamDisk.ram_driver 2 4 H2)
    1 2 [7; 8; 9; 10] [0; 0; 0; 0] (fun _ => [0; 0])).
  destruct H as (w' & w'' & E1 & E2 & Hs); simpl; try lia; try done.
  - intros i. split; [done|]. bytes_lit.
  - bytes_lit.
  - exists w', w''. split; [exact E1|]. split; [exact E2|]. apply Hs; simpl; lia.
Defined.
