(* ===== verification/Fat16.v ===== *)
(** * kernel/fat16.c, include/fat16.h

    The read-only FAT16 layer over the block device: mounting a volume from
    its BIOS parameter block, bounded reads of root-directory sectors, and the
    8.3 lookup in the root directory.  Local arrays of the C code start with
    indeterminate contents, which the definitions take as an argument
    ([boot0], [sector0]); the theorems hold for every value of it. *)

From stdpp Require Import strings.
From S2P Require Import Prelude Blockdev.

(** ** Little-endian fields *)

Definition read_le16 (p : bytes) (o : Z) : option Z :=
  p0 ← rd p o;
  p1 ← rd p (o + 1);
  Some (u16 (Z.lor p0 (Z.shiftl p1 8))).

Definition read_le32 (p : bytes) (o : Z) : option Z :=
  p0 ← rd p o;
  p1 ← rd p (o + 1);
  p2 ← rd p (o + 2);
  p3 ← rd p (o + 3);
  Some (Z.lor (Z.lor (Z.lor p0 (u32 (Z.shiftl p1 8))) (u32 (Z.shiftl p2 16)))
              (u32 (Z.shiftl p3 24))).

Definition is_power_of_two_u8 (value : Z) : bool :=
  negb (value =? 0) && (Z.land value (u8 (value - 1)) =? 0).

(** [for (i = 0; i < 11; ++i) if (a[i] != b[i]) return 0;] with [k] turns left. *)
Fixpoint name83_loop (k : nat) (a : bytes) (ao : Z) (b : bytes) (i : Z) : option bool :=
  match k with
  | O => Some true
  | S k' =>
      x ← rd a (ao + i);
      y ← rd b i;
      if negb (x =? y) then Some false else name83_loop k' a ao b (i + 1)
  end.

Definition name83_equal (a : bytes) (ao : Z) (b : bytes) : option bool :=
  name83_loop 11 a ao b 0.

(** ** State *)

Section fat16.
Context {W : Type}.

Record orion_fat16 := mk_fat16 {
  fs_dev : ptr (orion_blockdev W);
  fs_volume_start_lba : Z;
  fs_total_sectors : Z;
  fs_bytes_per_sector : Z;
  fs_sectors_per_cluster : Z;
  fs_reserved_sectors : Z;
  fs_fat_count : Z;
  fs_root_entry_count : Z;
  fs_sectors_per_fat : Z;
  fs_root_dir_sectors : Z;
  fs_data_cluster_count : Z;
  fs_first_fat_lba : Z;
  fs_first_root_lba : Z;
  fs_first_data_lba : Z
}.

Record orion_fat16_dirent := mk_dirent {
  de_name : bytes;
  de_attributes : Z;
  de_first_cluster : Z;
  de_size : Z
}.

(** ** fat16_mount: the status, the caller's [*out], the device state *)
Definition fat16_mount (dev : ptr (orion_blockdev W)) (volume_start_lba : Z)
    (out : ptr orion_fat16) (boot0 : bytes) (w : W)
  : option (Z * ptr orion_fat16 * W) :=
  let fail w := Some (-1, out, w) in
  match out, dev with
  | Ptr _, Ptr d =>
    if negb (blockdev_validate dev =? 0) || negb (bd_block_size d =? 512) then fail w else
    let '(rc, buf, w) := blockdev_read dev volume_start_lba 1 (Ptr boot0) w in
    match buf with
    | Null => None
    | Ptr boot =>
      if negb (rc =? 0) then fail w else
      b510 ← rd boot 510;
      b511 ← rd boot 511;
      if negb (b510 =? 0x55) || negb (b511 =? 0xaa) then fail w else
      bytes_per_sector ← read_le16 boot 11;
      sectors_per_cluster ← rd boot 13;
      reserved_sectors ← read_le16 boot 14;
      fat_count ← rd boot 16;
      root_entry_count ← read_le16 boot 17;
      total_sectors_16 ← read_le16 boot 19;
      sectors_per_fat ← read_le16 boot 22;
      total_sectors_32 ← read_le32 boot 32;
      let total_sectors :=
        if negb (total_sectors_16 =? 0) then total_sectors_16 else total_sectors_32 in
      if negb (bytes_per_sector =? bd_block_size d) then fail w else
      if negb (is_power_of_two_u8 sectors_per_cluster) || (128 <? sectors_per_cluster)
      then fail w else
      if (reserved_sectors =? 0) || (fat_count =? 0) || (root_entry_count =? 0)
         || (sectors_per_fat =? 0) || (total_sectors =? 0) then fail w else
      let root_dir_sectors :=
        u32 (u32 (u32 (root_entry_count * 32) + bytes_per_sector) - 1) / bytes_per_sector in
      let overhead_sectors :=
        u64 (u64 (reserved_sectors + u64 (fat_count * sectors_per_fat)) + root_dir_sectors) in
      if total_sectors <=? overhead_sectors then fail w else
      let data_sectors := u64 (total_sectors - overhead_sectors) in
      let cluster_count := u32 (data_sectors / sectors_per_cluster) in
      if (cluster_count <? 4085) || (65525 <=? cluster_count) then fail w else
      if bd_block_count d <=? volume_start_lba then fail w else
      if u64 (bd_block_count d - volume_start_lba) <? total_sectors then fail w else
      let first_fat_lba := u64 (volume_start_lba + reserved_sectors) in
      let first_root_lba := u64 (first_fat_lba + u64 (fat_count * sectors_per_fat)) in
      let first_data_lba := u64 (first_root_lba + root_dir_sectors) in
      Some (0, Ptr (mk_fat16 dev volume_start_lba total_sectors bytes_per_sector
        sectors_per_cluster reserved_sectors fat_count root_entry_count sectors_per_fat
        root_dir_sectors cluster_count first_fat_lba first_root_lba first_data_lba), w)
    end
  | _, _ => fail w
  end.

(** ** fat16_read_root_sector *)
Definition fat16_read_root_sector (fs : ptr orion_fat16) (sector_index : Z)
    (buffer : ptr bytes) (w : W) : Z * ptr bytes * W :=
  match fs with
  | Null => (-1, buffer, w)
  | Ptr f =>
      if is_null (fs_dev f) || is_null buffer || (fs_root_dir_sectors f <=? sector_index)
      then (-1, buffer, w)
      else blockdev_read (fs_dev f) (u64 (fs_first_root_lba f + sector_index)) 1 buffer w
  end.

(** ** fat16_find_root *)

(** How the scan of one sector ends: a match, the end marker (entry[0] == 0), or
    the sector's (or the directory's) last entry passed with [seen] counted on. *)
Inductive sector_scan :=
| SFound (d : orion_fat16_dirent)
| SEnd
| SMore (seen : Z).

(** The inner loop; [k] is [entries_per_sector - entry_index]. *)
Fixpoint scan_sector (k : nat) (root_entry_count : Z) (sector name83 : bytes)
    (entry_index seen : Z) : option sector_scan :=
  match k with
  | O => Some (SMore seen)
  | S k' =>
      if negb (seen <? root_entry_count) then Some (SMore seen) else
      let entry := entry_index * 32 in
      let next := scan_sector k' root_entry_count sector name83 (entry_index + 1) (seen + 1) in
      attributes ← rd sector (entry + 11);
      e0 ← rd sector entry;
      if e0 =? 0 then Some SEnd else
      if (e0 =? 0xe5) || (attributes =? 0x0f) || negb (Z.land attributes 0x08 =? 0)
      then next else
      same ← name83_equal sector entry name83;
      if negb same then next else
      name ← copy_from 11 (replicate 11 0) 0 sector entry;
      first_cluster ← read_le16 sector (entry + 26);
      size ← read_le32 sector (entry + 28);
      Some (SFound (mk_dirent name attributes first_cluster size))
  end.

(** The outer loop; [k] is [root_dir_sectors - sector_index]. *)
Fixpoint find_root_loop (k : nat) (f : orion_fat16) (name83 : bytes)
    (out : orion_fat16_dirent) (sector : bytes) (sector_index seen : Z) (w : W)
  : option (Z * orion_fat16_dirent * W) :=
  match k with
  | O => Some (1, out, w)
  | S k' =>
      if negb (seen <? fs_root_entry_count f) then Some (1, out, w) else
      let '(rc, buf, w) := fat16_read_root_sector (Ptr f) sector_index (Ptr sector) w in
      match buf with
      | Null => None
      | Ptr sector =>
          if negb (rc =? 0) then Some (-1, out, w) else
          r ← scan_sector (Z.to_nat (fs_bytes_per_sector f / 32)) (fs_root_entry_count f)
                sector name83 0 seen;
          match r with
          | SFound d => Some (0, d, w)
          | SEnd => Some (1, out, w)
          | SMore seen => find_root_loop k' f name83 out sector (sector_index + 1) seen w
          end
      end
  end.

Definition fat16_find_root (fs : ptr orion_fat16) (name83 : ptr bytes)
    (out : ptr orion_fat16_dirent) (sector0 : bytes) (w : W)
  : option (Z * ptr orion_fat16_dirent * W) :=
  match fs, name83, out with
  | Ptr f, Ptr nm, Ptr o =>
      if is_null (fs_dev f) || negb (fs_bytes_per_sector f =? 512) then Some (-1, out, w) else
      '(rc, o', w') ← find_root_loop (Z.to_nat (fs_root_dir_sectors f)) f nm o sector0 0 0 w;
      Some (rc, Ptr o', w')
  | _, _, _ => Some (-1, out, w)
  end.
End fat16.
Arguments orion_fat16 : clear implicits.

(** ** Specification: fields of a sector in unbounded arithmetic *)

Definition le16 (p : bytes) (o : Z) : Z := byte_at p o + 256 * byte_at p (o + 1).
Definition le32 (p : bytes) (o : Z) : Z := le16 p o + 65536 * le16 p (o + 2).

Lemma le16_range p o : bytes_ok p -> 0 <= le16 p o < 65536.
Proof.
  intros H. unfold le16.
  pose proof (byte_at_range p o H). pose proof (byte_at_range p (o + 1) H). lia.
Qed.

Lemma le32_range p o : bytes_ok p -> 0 <= le32 p o < 4294967296.
Proof.
  intros H. unfold le32.
  pose proof (le16_range p o H). pose proof (le16_range p (o + 2) H). lia.
Qed.

Lemma read_le16_spec p o :
  bytes_ok p -> 0 <= o -> o + 2 <= len p -> read_le16 p o = Some (le16 p o).
Proof.
  intros Hb Ho Hl. unfold read_le16, le16.
  rewrite !rd_byte_at by lia. simpl. f_equal.
  pose proof (byte_at_range p o Hb). pose proof (byte_at_range p (o + 1) Hb).
  rewrite Z.lor_comm, lor_shiftl_add by lia. rewrite u16_id by lia. lia.
Qed.

Lemma read_le32_spec p o :
  bytes_ok p -> 0 <= o -> o + 4 <= len p -> read_le32 p o = Some (le32 p o).
Proof.
  intros Hb Ho Hl. unfold read_le32, le32, le16.
  rewrite !rd_byte_at by lia. cbn [mbind option_bind]. f_equal.
  pose proof (byte_at_range p o Hb). pose proof (byte_at_range p (o + 1) Hb).
  pose proof (byte_at_range p (o + 2) Hb). pose proof (byte_at_range p (o + 3) Hb).
  replace (o + 2 + 1) with (o + 3) by lia.
  rewrite !(fun z => u32_id (Z.shiftl z _)) by (rewrite Z.shiftl_mul_pow2 by lia; lia).
  rewrite (lor_shiftl_above (byte_at p o)), (lor_shiftl_above (byte_at p o + _)),
    lor_shiftl_above by lia. lia.
Qed.

(** ** Specification: the BIOS parameter block and the volume it describes *)

Record bpb := mk_bpb {
  bpb_bytes_per_sector : Z;
  bpb_sectors_per_cluster : Z;
  bpb_reserved : Z;
  bpb_fats : Z;
  bpb_root_entries : Z;
  bpb_sectors_per_fat : Z;
  bpb_total : Z
}.

Definition bpb_of (boot : bytes) : bpb :=
  mk_bpb (le16 boot 11) (byte_at boot 13) (le16 boot 14) (byte_at boot 16)
    (le16 boot 17) (le16 boot 22)
    (if le16 boot 19 =? 0 then le32 boot 32 else le16 boot 19).

(** Sectors of the root directory, rounded up; sectors before the data area;
    clusters in the data area. *)
Definition bpb_root_sectors (b : bpb) : Z := (bpb_root_entries b * 32 + 511) / 512.
Definition bpb_overhead (b : bpb) : Z :=
  bpb_reserved b + bpb_fats b * bpb_sectors_per_fat b + bpb_root_sectors b.
Definition bpb_clusters (b : bpb) : Z :=
  (bpb_total b - bpb_overhead b) / bpb_sectors_per_cluster b.

(** A volume of [total] sectors at [start] on a device of [blocks] blocks that
    Orion can mount as FAT16. *)
Definition fat16_volume (boot : bytes) (start blocks : Z) : bool :=
  let b := bpb_of boot in
  (byte_at boot 510 =? 0x55) && (byte_at boot 511 =? 0xaa) &&
  (bpb_bytes_per_sector b =? 512) &&
  existsb (Z.eqb (bpb_sectors_per_cluster b)) [1; 2; 4; 8; 16; 32; 64; 128] &&
  (0 <? bpb_reserved b) && (0 <? bpb_fats b) && (0 <? bpb_root_entries b) &&
  (0 <? bpb_sectors_per_fat b) && (bpb_overhead b <? bpb_total b) &&
  (4085 <=? bpb_clusters b) && (bpb_clusters b <? 65525) &&
  (start + bpb_total b <=? blocks).

Definition fat16_layout {W} (dev : ptr (orion_blockdev W)) (boot : bytes) (start : Z)
  : orion_fat16 W :=
  let b := bpb_of boot in
  mk_fat16 dev start (bpb_total b) 512 (bpb_sectors_per_cluster b) (bpb_reserved b)
    (bpb_fats b) (bpb_root_entries b) (bpb_sectors_per_fat b) (bpb_root_sectors b)
    (bpb_clusters b)
    (start + bpb_reserved b)
    (start + bpb_reserved b + bpb_fats b * bpb_sectors_per_fat b)
    (start + bpb_overhead b).

Lemma power_of_two_spec v :
  0 <= v < 256 ->
  is_power_of_two_u8 v = existsb (Z.eqb v) [1; 2; 4; 8; 16; 32; 64; 128].
Proof.
  intros Hv.
  assert (H : forallb (fun n => Bool.eqb (is_power_of_two_u8 (Z.of_nat n))
    (existsb (Z.eqb (Z.of_nat n)) [1; 2; 4; 8; 16; 32; 64; 128])) (List.seq 0 256) = true)
    by (vm_compute; reflexivity).
  rewrite forallb_forall in H.
  specialize (H (Z.to_nat v)). rewrite Z2Nat.id in H by lia.
  apply eqb_prop, H, in_seq. lia.
Qed.

Lemma bpb_ranges boot :
  bytes_ok boot ->
  let b := bpb_of boot in
  0 <= bpb_reserved b < 65536 /\ 0 <= bpb_fats b < 256 /\
  0 <= bpb_root_entries b < 65536 /\ 0 <= bpb_sectors_per_fat b < 65536 /\
  0 <= bpb_total b < 4294967296 /\ 0 <= bpb_sectors_per_cluster b < 256 /\
  0 <= bpb_fats b * bpb_sectors_per_fat b < 16777216 /\
  0 <= bpb_root_sectors b <= 4096.
Proof.
  intros Hb b. subst b. unfold bpb_root_sectors. simpl.
  pose proof (le16_range boot 14 Hb). pose proof (byte_at_range boot 16 Hb).
  pose proof (le16_range boot 17 Hb). pose proof (le16_range boot 22 Hb).
  pose proof (byte_at_range boot 13 Hb). pose proof (le16_range boot 19 Hb).
  pose proof (le32_range boot 32 Hb).
  repeat split; try lia; try nia.
  all: try (destruct (le16 boot 19 =? 0); lia).
  - apply Z.div_pos; lia.
  - zlia.
Qed.

Lemma fat16_volume_true boot start blocks :
  let b := bpb_of boot in
  fat16_volume boot start blocks = true <->
  byte_at boot 510 = 0x55 /\ byte_at boot 511 = 0xaa /\
  bpb_bytes_per_sector b = 512 /\
  existsb (Z.eqb (bpb_sectors_per_cluster b)) [1; 2; 4; 8; 16; 32; 64; 128] = true /\
  0 < bpb_reserved b /\ 0 < bpb_fats b /\ 0 < bpb_root_entries b /\
  0 < bpb_sectors_per_fat b /\ bpb_overhead b < bpb_total b /\
  4085 <= bpb_clusters b < 65525 /\ start + bpb_total b <= blocks.
Proof.
  intros b. unfold fat16_volume. fold b. cbn zeta.
  rewrite !andb_true_iff, !Z.eqb_eq, !Z.ltb_lt, !Z.leb_le. tauto.
Qed.

Lemma existsb_pow2_range v :
  existsb (Z.eqb v) [1; 2; 4; 8; 16; 32; 64; 128] = true -> 1 <= v <= 128.
Proof.
  rewrite existsb_exists. intros (x & Hx & E%Z.eqb_eq). subst x. simpl in Hx. lia.
Qed.

(** Reduce a failing branch of the code to a fact about the volume. *)
Ltac refute_volume :=
  match goal with
  | |- context [fat16_volume ?b ?s ?n] =>
      let E := fresh "E" in
      destruct (fat16_volume b s n) eqn:E; [exfalso|reflexivity];
      apply fat16_volume_true in E as (? & ? & ? & ? & ? & ? & ? & ? & ? & ? & ?)
  end.

Section mount.
Context {W : Type} (d : orion_blockdev W) (ok : W -> Prop) (block_at : W -> Z -> bytes).
Context `{!BlockDriver d ok block_at}.
Implicit Types (w : W) (out : orion_fat16 W).

(** What the code does once the boot sector is in memory. *)
Lemma fat16_mount_checks start out boot0 boot w w' :
  blockdev_validate (Ptr d) = 0 -> bd_block_size d = 512 ->
  0 <= bd_block_count d < 18446744073709551616 -> 0 <= start ->
  bytes_ok boot -> len boot = 512 ->
  blockdev_read (Ptr d) start 1 (Ptr boot0) w = (0, Ptr boot, w') ->
  fat16_mount (Ptr d) start (Ptr out) boot0 w
    = Some (if fat16_volume boot start (bd_block_count d)
            then (0, Ptr (fat16_layout (Ptr d) boot start), w')
            else (-1, Ptr out, w')).
Proof.
  intros Hv Hbs Hc Hs Hb Hl Hrd. unfold fat16_mount.
  rewrite Hv, Hbs, Hrd. cbn [negb orb Z.eqb Pos.eqb].
  rewrite !read_le16_spec, !read_le32_spec, !rd_byte_at by (done || lia).
  cbn [mbind option_bind].
  pose proof (bpb_ranges boot Hb) as (R1 & R2 & R3 & R4 & R5 & R6 & R7 & R8).
  assert (Ho : 0 <= bpb_overhead (bpb_of boot)) by (unfold bpb_overhead; lia).
  change (le16 boot 14) with (bpb_reserved (bpb_of boot)).
  change (byte_at boot 16) with (bpb_fats (bpb_of boot)).
  change (le16 boot 17) with (bpb_root_entries (bpb_of boot)).
  change (le16 boot 22) with (bpb_sectors_per_fat (bpb_of boot)).
  change (byte_at boot 13) with (bpb_sectors_per_cluster (bpb_of boot)).
  change (le16 boot 11) with (bpb_bytes_per_sector (bpb_of boot)).
  replace (if negb (le16 boot 19 =? 0) then le16 boot 19 else le32 boot 32)
    with (bpb_total (bpb_of boot)) by (simpl; by destruct (le16 boot 19 =? 0)).
  rewrite power_of_two_spec by lia.
  destruct (byte_at boot 510 =? 0x55) eqn:E1; bool_prop; cbn [negb orb]; [|by refute_volume].
  destruct (byte_at boot 511 =? 0xaa) eqn:E2; bool_prop; cbn [negb orb]; [|by refute_volume].
  destruct (bpb_bytes_per_sector (bpb_of boot) =? 512) eqn:E3; bool_prop; cbn [negb];
    [rewrite E3|by refute_volume].
  destruct (existsb _ _) eqn:E4; cbn [negb orb]; [|refute_volume; congruence].
  pose proof (existsb_pow2_range _ E4) as Hspc. if_false.
  case_if.
  { refute_volume. repeat (apply orb_prop in E as [E|E]); bool_prop; lia. }
  bool_prop.
  rewrite (u32_id (bpb_root_entries (bpb_of boot) * 32)) by lia.
  rewrite (u32_id (_ + 512)) by lia.
  rewrite (u32_id (_ + 512 - 1)) by lia.
  replace (bpb_root_entries (bpb_of boot) * 32 + 512 - 1)
    with (bpb_root_entries (bpb_of boot) * 32 + 511) by lia.
  fold (bpb_root_sectors (bpb_of boot)).
  rewrite (u64_id (bpb_fats _ * _)) by lia.
  rewrite (u64_id (bpb_reserved _ + _)) by lia.
  rewrite (u64_id (bpb_reserved _ + _ + _)) by lia.
  fold (bpb_overhead (bpb_of boot)).
  case_if; [refute_volume; lia|].
  rewrite (u64_id (bpb_total _ - _)) by lia.
  fold (bpb_clusters (bpb_of boot)).
  assert (Hcl : 0 <= bpb_clusters (bpb_of boot) < 4294967296).
  { unfold bpb_clusters. split; [apply Z.div_pos; lia|]. apply Z.div_lt_upper_bound; nia. }
  rewrite u32_id by lia.
  case_if; [refute_volume; apply orb_prop in E0 as [E0|E0]; bool_prop; lia|].
  case_if; [refute_volume; lia|].
  rewrite u64_id by lia.
  case_if; [refute_volume; lia|].
  replace (fat16_volume boot start (bd_block_count d)) with true.
  2: { symmetry. apply fat16_volume_true. bool_prop. repeat split; try done; lia. }
  unfold fat16_layout. unfold bpb_overhead in *. cbn zeta.
  rewrite !u64_id by lia. by rewrite !Z.add_assoc.
Qed.

Lemma sector_read i buf w :
  blockdev_validate (Ptr d) = 0 -> bd_block_size d = 512 ->
  0 <= bd_block_count d < 18446744073709551616 -> ok w ->
  0 <= i < bd_block_count d -> len buf = 512 ->
  exists w',
    blockdev_read (Ptr d) i 1 (Ptr buf) w = (0, Ptr (block_at w i), w') /\
    ok w' /\ (forall j, 0 <= j < bd_block_count d -> block_at w' j = block_at w j).
Proof.
  intros Hv Hbs Hc Hok Hi Hl.
  destruct (blockdev_read_blocks d ok block_at i 1 buf w) as (w' & E & Hw');
    [done..|unfold range_ok; lia|lia|].
  exists w'. split; [|done]. rewrite E. do 3 f_equal.
  rewrite seqZ_one. cbn [fmap list_fmap concat]. rewrite app_nil_r.
  destruct (driver_shape w i Hok Hi) as [Hsh _].
  unfold blit. rewrite drop_ge by lia. cbn [take app]. by rewrite app_nil_r.
Qed.

(** C1. fat16_mount accepts exactly the volumes of the specification - stated in
    unbounded arithmetic, so no 16-, 32- or 64-bit intermediate of the code
    wraps - and then fills in the layout of that volume; on every other device
    or boot sector it returns -1 and leaves the caller's structure alone. *)
Theorem fat16_mount_correct start out boot0 w :
  blockdev_validate (Ptr d) = 0 -> bd_block_size d = 512 ->
  0 <= bd_block_count d < 18446744073709551616 -> ok w ->
  0 <= start -> len boot0 = 512 ->
  exists w',
    fat16_mount (Ptr d) start (Ptr out) boot0 w
      = Some (if fat16_volume (block_at w start) start (bd_block_count d)
              then (0, Ptr (fat16_layout (Ptr d) (block_at w start) start), w')
              else (-1, Ptr out, w')) /\
    ok w' /\ (forall j, 0 <= j < bd_block_count d -> block_at w' j = block_at w j).
Proof.
  intros Hv Hbs Hc Hok Hs Hl.
  destruct (Z.ltb_spec start (bd_block_count d)) as [Hin|Hout].
  - destruct (sector_read start boot0 w) as (w' & E & Hw'); [done..|lia|done|].
    exists w'. split; [|done].
    destruct (driver_shape w start Hok (conj Hs Hin)) as [Hsh Hby].
    apply fat16_mount_checks; (done || lia).
  - exists w. split; [|done]. unfold fat16_mount, blockdev_read. rewrite Hv, Hbs.
    unfold blockdev_range_valid. cbn [negb orb Z.eqb Pos.eqb is_null].
    replace (bd_block_count d <=? start) with true by (symmetry; apply Z.leb_le; lia).
    cbn [negb orb].
    destruct (fat16_volume _ _ _) eqn:E; [|done]. exfalso.
    unfold fat16_volume in E. cbn zeta in E. bool_prop.
    assert (0 <= bpb_overhead (bpb_of (block_at w start))); [|lia].
    unfold bpb_overhead. assert (0 <= bpb_root_sectors (bpb_of (block_at w start))); [|nia].
    unfold bpb_root_sectors. apply Z.div_pos; lia.
Qed.
End mount.

(** ** The mounted volume *)

(** What the rest of the layer relies on: the regions follow each other, lie
    inside the volume and the volume inside the device, the clusters fit the
    data region, and the root region holds every root entry. *)
Definition fat16_wf {W} (d : orion_blockdev W) (fs : orion_fat16 W) : Prop :=
  fs_dev fs = Ptr d /\
  fs_bytes_per_sector fs = 512 /\
  0 <= fs_volume_start_lba fs < fs_first_fat_lba fs /\
  fs_first_fat_lba fs < fs_first_root_lba fs /\
  fs_first_root_lba fs + fs_root_dir_sectors fs = fs_first_data_lba fs /\
  0 < fs_root_dir_sectors fs /\
  0 < fs_root_entry_count fs <= 16 * fs_root_dir_sectors fs /\
  0 < fs_sectors_per_cluster fs /\
  4085 <= fs_data_cluster_count fs < 65525 /\
  fs_first_data_lba fs + fs_data_cluster_count fs * fs_sectors_per_cluster fs
    <= fs_volume_start_lba fs + fs_total_sectors fs /\
  fs_volume_start_lba fs + fs_total_sectors fs <= bd_block_count d.

Lemma fat16_layout_wf {W} (d : orion_blockdev W) boot start :
  bytes_ok boot -> 0 <= start -> fat16_volume boot start (bd_block_count d) = true ->
  fat16_wf d (fat16_layout (Ptr d) boot start).
Proof.
  intros Hb Hs Hv.
  apply fat16_volume_true in Hv as (_ & _ & _ & Hp & H1 & H2 & H3 & H4 & H5 & H6 & H7).
  apply existsb_pow2_range in Hp.
  pose proof (bpb_ranges boot Hb) as (R1 & R2 & R3 & R4 & R5 & R6 & R7 & R8).
  assert (Hm := Z.mul_div_le (bpb_total (bpb_of boot) - bpb_overhead (bpb_of boot))
    (bpb_sectors_per_cluster (bpb_of boot)) ltac:(lia)).
  fold (bpb_clusters (bpb_of boot)) in Hm.
  assert (Hrs : 0 < bpb_root_sectors (bpb_of boot) /\
    bpb_root_entries (bpb_of boot) <= 16 * bpb_root_sectors (bpb_of boot))
    by (unfold bpb_root_sectors; zlia).
  assert (Hf : 0 < bpb_fats (bpb_of boot) * bpb_sectors_per_fat (bpb_of boot))
    by (apply Z.mul_pos_pos; lia).
  unfold fat16_wf, fat16_layout, bpb_overhead in *. cbn zeta.
  set (b := bpb_of boot) in *. clearbody b. cbn -[Z.mul Z.add].
  repeat split; try done; lia.
Qed.

(** Whenever fat16_mount returns 0 the mounted volume is well formed:
    reserved area, FATs, root directory and data clusters are consecutive, lie
    inside the volume, and the volume lies inside the device. *)
Theorem fat16_mount_wf {W} (d : orion_blockdev W) ok block_at
    `{!BlockDriver d ok block_at} start out boot0 w fs w' :
  blockdev_validate (Ptr d) = 0 -> bd_block_size d = 512 ->
  0 <= bd_block_count d < 18446744073709551616 -> ok w -> 0 <= start -> len boot0 = 512 ->
  fat16_mount (Ptr d) start (Ptr out) boot0 w = Some (0, Ptr fs, w') ->
  fat16_wf d fs /\ fs_volume_start_lba fs = start.
Proof.
  intros Hv Hbs Hc Hok Hs Hl Hm.
  destruct (Z.ltb_spec start (bd_block_count d)) as [Hin|Hout].
  - destruct (sector_read d ok block_at start boot0 w) as (w1 & E & Hw'); [done..|lia|done|].
    destruct (driver_shape w start Hok (conj Hs Hin)) as [Hsh Hby].
    rewrite (fat16_mount_checks d start out boot0 (block_at w start) w w1)
      in Hm by (done || lia).
    case_match eqn:Ev; [|done]. simplify_eq.
    split; [by apply fat16_layout_wf|done].
  - exfalso. revert Hm. unfold fat16_mount, blockdev_read. rewrite Hv, Hbs.
    unfold blockdev_range_valid. cbn [negb orb Z.eqb Pos.eqb is_null].
    replace (bd_block_count d <=? start) with true by (symmetry; apply Z.leb_le; lia).
    done.
Qed.

(** ** The root directory *)

(** A directory is the list of its 32-byte entries; the scan order and the
    entries it skips. *)
Inductive dir_scan :=
| Found (entry : bytes)
| EndOfDirectory
| Exhausted.

Definition entry_skipped (e : bytes) : bool :=
  (byte_at e 0 =? 0xe5) || (byte_at e 11 =? 0x0f) || negb (Z.land (byte_at e 11) 0x08 =? 0).

Fixpoint scan_dir (es : list bytes) (name : bytes) : dir_scan :=
  match es with
  | [] => Exhausted
  | e :: es' =>
      if byte_at e 0 =? 0 then EndOfDirectory
      else if entry_skipped e then scan_dir es' name
      else if decide (take 11 e = name) then Found e
      else scan_dir es' name
  end.

(** The file with this 8.3 name, if the directory lists one before its end. *)
Definition dir_lookup (es : list bytes) (name : bytes) : option bytes :=
  match scan_dir es name with Found e => Some e | _ => None end.

Definition dirent_of (e : bytes) : orion_fat16_dirent :=
  mk_dirent (take 11 e) (byte_at e 11) (le16 e 26) (le32 e 28).

(** The entries a sector holds from index [i] on, and the directory of a
    mounted volume: the first [fs_root_entry_count] entries of its sectors. *)
Definition sector_entries (sector : bytes) (i : Z) (k : nat) : list bytes :=
  (fun j => slice sector (32 * j) 32) <$> seqZ i (Z.of_nat k).

Definition root_directory {W} (block_at : W -> Z -> bytes) (fs : orion_fat16 W) (w : W)
  : list bytes :=
  take (Z.to_nat (fs_root_entry_count fs))
    (concat ((fun i => sector_entries (block_at w (fs_first_root_lba fs + i)) 0 16)
       <$> seqZ 0 (fs_root_dir_sectors fs))).

Lemma scan_dir_app es1 es2 name :
  scan_dir (es1 ++ es2) name
    = match scan_dir es1 name with Exhausted => scan_dir es2 name | r => r end.
Proof.
  induction es1 as [|e es1 IH]; simpl; [done|].
  destruct (byte_at e 0 =? 0); [done|].
  destruct (entry_skipped e); [done|]. by destruct (decide _).
Qed.

Lemma name83_loop_spec k a ao b i :
  0 <= ao -> 0 <= i -> ao + i + Z.of_nat k <= len a -> i + Z.of_nat k <= len b ->
  name83_loop k a ao b i
    = Some (bool_decide (slice a (ao + i) (Z.of_nat k) = slice b i (Z.of_nat k))).
Proof.
  revert i. induction k as [|k IH]; intros i Ha Hi Hla Hlb; [done|].
  cbn [name83_loop].
  destruct (rd_is_Some a (ao + i)) as [x Hx]; [lia|].
  destruct (rd_is_Some b i) as [y Hy]; [lia|]. rewrite Hx, Hy. cbn [mbind option_bind].
  apply rd_inv in Hx as [_ Hx], Hy as [_ Hy].
  rewrite (slice_cons a (ao + i) _ x), (slice_cons b i _ y) by (done || lia).
  replace (Z.of_nat (S k) - 1) with (Z.of_nat k) by lia.
  destruct (Z.eqb_spec x y) as [->|Hne]; cbn [negb].
  - rewrite IH by lia. rewrite Z.add_assoc. f_equal.
    apply bool_decide_ext. split; [intros ->; done|by intros [= ->]].
  - f_equal. symmetry. apply bool_decide_eq_false_2. congruence.
Qed.

Lemma name83_equal_spec sector o name :
  0 <= o -> o + 32 <= len sector -> len name = 11 ->
  name83_equal sector o name
    = Some (bool_decide (take 11 (slice sector o 32) = name)).
Proof.
  intros Ho Hl Hn. unfold name83_equal. rewrite name83_loop_spec by lia.
  rewrite (slice_all name) by lia. rewrite Z.add_0_r. f_equal.
  apply bool_decide_ext. unfold slice. by rewrite take_take.
Qed.

Lemma sector_entries_cons sector i k :
  sector_entries sector i (S k)
    = slice sector (32 * i) 32 :: sector_entries sector (i + 1) k.
Proof.
  unfold sector_entries. rewrite seqZ_cons by lia. cbn [fmap list_fmap].
  do 3 f_equal; lia.
Qed.

Lemma dirent_of_slice sector o :
  bytes_ok sector -> 0 <= o -> o + 32 <= len sector ->
  copy_from 11 (replicate 11 0) 0 sector o = Some (take 11 (slice sector o 32)) /\
  read_le16 sector (o + 26) = Some (le16 (slice sector o 32) 26) /\
  read_le32 sector (o + 28) = Some (le32 (slice sector o 32) 28).
Proof.
  intros Hb Ho Hl. split; [|split].
  - rewrite copy_from_spec by (simpl; lia). f_equal.
    unfold blit. rewrite (drop_ge (replicate 11 0)).
    + rewrite app_nil_r. unfold slice. by rewrite take_take.
    + assert (len (slice sector o (Z.of_nat 11)) = 11) by (apply slice_length; lia).
      rewrite length_replicate. lia.
  - rewrite read_le16_spec by (done || lia). unfold le16.
    rewrite !byte_at_slice by lia. by rewrite !Z.add_assoc.
  - rewrite read_le32_spec by (done || lia). unfold le32, le16.
    rewrite !byte_at_slice by lia. by rewrite !Z.add_assoc.
Qed.

Definition sector_result (seen : Z) (k : nat) (rec : Z) (r : dir_scan) : sector_scan :=
  match r with
  | Found e => SFound (dirent_of e)
  | EndOfDirectory => SEnd
  | Exhausted => SMore (seen + Z.min (Z.of_nat k) (Z.max 0 (rec - seen)))
  end.

Lemma scan_sector_spec k rec sector name i seen :
  bytes_ok sector -> len name = 11 -> 0 <= i -> 32 * (i + Z.of_nat k) <= len sector ->
  scan_sector k rec sector name i seen
    = Some (sector_result seen k rec
        (scan_dir (take (Z.to_nat (rec - seen)) (sector_entries sector i k)) name)).
Proof.
  intros Hb Hn. revert i seen. induction k as [|k IH]; intros i seen Hi Hl.
  { change (sector_entries sector i 0) with (@nil bytes).
    rewrite take_nil. cbn -[Z.min Z.max]. do 2 f_equal. lia. }
  cbn [scan_sector]. destruct (Z.ltb_spec seen rec) as [Hs|Hs]; cbn [negb].
  2: { replace (Z.to_nat (rec - seen)) with 0%nat by lia.
       rewrite take_0. cbn [scan_dir sector_result]. do 2 f_equal. lia. }
  rewrite sector_entries_cons.
  replace (Z.to_nat (rec - seen)) with (S (Z.to_nat (rec - (seen + 1)))) by lia.
  set (e := slice sector (32 * i) 32). cbn [take scan_dir].
  rewrite !rd_byte_at by lia. cbn [mbind option_bind].
  replace (byte_at sector (i * 32 + 11)) with (byte_at e 11)
    by (unfold e; rewrite byte_at_slice by lia; f_equal; lia).
  replace (byte_at sector (i * 32)) with (byte_at e 0)
    by (unfold e; rewrite byte_at_slice by lia; f_equal; lia).
  assert (Hnext : scan_sector k rec sector name (i + 1) (seen + 1)
    = Some (sector_result seen (S k) rec (scan_dir
        (take (Z.to_nat (rec - (seen + 1))) (sector_entries sector (i + 1) k)) name))).
  { rewrite IH by lia. f_equal. unfold sector_result. case_match; try done. f_equal. lia. }
  destruct (byte_at e 0 =? 0); [done|].
  fold (entry_skipped e). destruct (entry_skipped e); [exact Hnext|].
  replace (i * 32) with (32 * i) by lia.
  rewrite name83_equal_spec by lia. fold e. cbn [mbind option_bind].
  destruct (decide (take 11 e = name)) as [He|He].
  - rewrite bool_decide_eq_true_2 by done. cbn [negb].
    destruct (dirent_of_slice sector (32 * i)) as (-> & -> & ->); [done|lia|lia|].
    done.
  - rewrite bool_decide_eq_false_2 by done. exact Hnext.
Qed.

Section find_root.
Context {W : Type} (d : orion_blockdev W) (ok : W -> Prop) (block_at : W -> Z -> bytes).
Context `{!BlockDriver d ok block_at}.
Context (Hv : blockdev_validate (Ptr d) = 0) (Hbs : bd_block_size d = 512).
Context (Hc : 0 <= bd_block_count d < 18446744073709551616).
Context (fs : orion_fat16 W) (Hwf : fat16_wf d fs).
Implicit Types (w : W) (out : orion_fat16_dirent).

(** The device still holds what [w0] held. *)
Definition same_disk (w0 w : W) : Prop :=
  ok w /\ forall j, 0 <= j < bd_block_count d -> block_at w j = block_at w0 j.

Lemma read_root_sector w0 w idx buf :
  same_disk w0 w -> 0 <= idx < fs_root_dir_sectors fs -> len buf = 512 ->
  exists w',
    fat16_read_root_sector (Ptr fs) idx (Ptr buf) w
      = (0, Ptr (block_at w0 (fs_first_root_lba fs + idx)), w') /\ same_disk w0 w'.
Proof using Type*.
  intros [Hok Hs] Hi Hl.
  destruct Hwf as (Hd & Hb & Hw1 & Hw2 & Hw3 & Hw4 & Hw5 & Hw6 & Hw7 & Hw8 & Hw9).
  assert (Hin : 0 <= fs_first_root_lba fs + idx < bd_block_count d) by nia.
  unfold fat16_read_root_sector. rewrite Hd. cbn [is_null orb].
  replace (fs_root_dir_sectors fs <=? idx) with false by (symmetry; apply Z.leb_gt; lia).
  rewrite u64_id by lia.
  destruct (sector_read d ok block_at (fs_first_root_lba fs + idx) buf w)
    as (w' & E & Hok' & Hs'); [done..|].
  exists w'. rewrite E, Hs by done. split; [done|]. split; [done|].
  intros j Hj. by rewrite Hs', Hs.
Qed.

Lemma find_root_loop_spec w0 k name out sector idx seen w :
  same_disk w0 w -> ok w0 -> len name = 11 -> len sector = 512 -> 0 <= idx ->
  idx + Z.of_nat k = fs_root_dir_sectors fs ->
  exists w', same_disk w0 w' /\
    find_root_loop k fs name out sector idx seen w
      = Some (match dir_lookup (take (Z.to_nat (fs_root_entry_count fs - seen))
                (concat ((fun i => sector_entries (block_at w0 (fs_first_root_lba fs + i)) 0 16)
                   <$> seqZ idx (Z.of_nat k)))) name with
              | Some e => (0, dirent_of e, w')
              | None => (1, out, w')
              end).
Proof using Type*.
  intros Hsame Hok0 Hn. revert sector idx seen w Hsame.
  induction k as [|k IH]; intros sector idx seen w Hsame Hl Hi Hk.
  { exists w. split; [done|]. change (seqZ idx (Z.of_nat 0)) with (@nil Z).
    cbn [fmap list_fmap concat]. by rewrite take_nil. }
  cbn [find_root_loop].
  destruct (Z.ltb_spec seen (fs_root_entry_count fs)) as [Hse|Hse]; cbn [negb].
  2: { exists w. split; [done|].
       by replace (Z.to_nat (fs_root_entry_count fs - seen)) with 0%nat by lia. }
  destruct (read_root_sector w0 w idx sector) as (w1 & -> & Hw1); [done|lia|done|].
  set (blk := block_at w0 (fs_first_root_lba fs + idx)).
  cbn [Z.eqb negb].
  destruct Hwf as (Hd & Hb & Hx1 & Hx2 & Hx3 & Hx4 & Hx5 & Hx6 & Hx7 & Hx8 & Hx9).
  destruct (driver_shape w0 (fs_first_root_lba fs + idx) Hok0) as [Hlen Hby]; [nia|].
  fold blk in Hlen, Hby. rewrite Hbs in Hlen.
  rewrite Hb. change (Z.to_nat (512 / 32)) with 16%nat.
  rewrite scan_sector_spec by (done || lia). cbn [mbind option_bind].
  rewrite seqZ_cons by lia. cbn [fmap list_fmap concat]. fold blk.
  replace (Z.pred (Z.of_nat (S k))) with (Z.of_nat k) by lia.
  replace (Z.succ idx) with (idx + 1) by lia.
  rewrite take_app. unfold dir_lookup. rewrite scan_dir_app.
  assert (H16 : length (sector_entries blk 0 16) = 16%nat) by done.
  rewrite H16.
  destruct (scan_dir (take _ (sector_entries blk 0 16)) name) as [e| |];
    cbn [sector_result]; [by exists w1|by exists w1|].
  destruct (IH blk (idx + 1) (seen + Z.min (Z.of_nat 16) (Z.max 0 (fs_root_entry_count fs - seen)))
    w1) as (w2 & Hw2 & ->); [done|done|lia|lia|].
  exists w2. split; [done|]. unfold dir_lookup.
  by replace (Z.to_nat (fs_root_entry_count fs - (seen + Z.min (Z.of_nat 16)
      (Z.max 0 (fs_root_entry_count fs - seen)))))
    with (Z.to_nat (fs_root_entry_count fs - seen) - 16)%nat by lia.
Qed.

(** C4. On a mounted volume, fat16_find_root implements directory lookup: it
    terminates, stays inside its buffers, and returns 0 with the fields of the
    first live 8.3 entry of that name before the end marker, or 1 with the
    caller's structure untouched when the directory has none. *)
Theorem fat16_find_root_refines name out sector0 w :
  ok w -> len name = 11 -> len sector0 = 512 ->
  exists w', same_disk w w' /\
    fat16_find_root (Ptr fs) (Ptr name) (Ptr out) sector0 w
      = Some (match dir_lookup (root_directory block_at fs w) name with
              | Some e => (0, Ptr (dirent_of e), w')
              | None => (1, Ptr out, w')
              end).
Proof using Type*.
  intros Hok Hn Hl. unfold fat16_find_root.
  pose proof Hwf as (Hd & Hb & Hx1 & Hx2 & Hx3 & Hx4 & _).
  rewrite Hd, Hb. cbn [is_null negb orb Z.eqb Pos.eqb].
  destruct (find_root_loop_spec w (Z.to_nat (fs_root_dir_sectors fs)) name out sector0 0 0 w)
    as (w' & Hw' & ->); [by split|done..|lia|].
  exists w'. split; [done|]. unfold root_directory.
  rewrite Z2Nat.id, Z.sub_0_r by lia. by case_match.
Qed.

(** The sector index given to fat16_read_root_sector is checked against the
    root directory: inside it the call returns that sector of the volume,
    outside it returns -1 with buffer and device untouched. *)
Theorem fat16_read_root_sector_bounds w idx buf :
  ok w -> 0 <= idx -> len buf = 512 ->
  if idx <? fs_root_dir_sectors fs
  then exists w', same_disk w w' /\
         fat16_read_root_sector (Ptr fs) idx (Ptr buf) w
           = (0, Ptr (block_at w (fs_first_root_lba fs + idx)), w') /\
         fs_first_root_lba fs + idx < fs_first_data_lba fs
  else fat16_read_root_sector (Ptr fs) idx (Ptr buf) w = (-1, Ptr buf, w).
Proof using Type*.
  intros Hok Hi Hl. case_if.
  - destruct (read_root_sector w w idx buf) as (w' & Er & Hw'); [by split|lia|done|].
    exists w'. split; [done|]. split; [done|].
    destruct Hwf as (_ & _ & _ & _ & H & _). lia.
  - unfold fat16_read_root_sector. destruct Hwf as (-> & _). cbn [is_null orb].
    by replace (fs_root_dir_sectors fs <=? idx) with true by (symmetry; apply Z.leb_le; lia).
Qed.
End find_root.

(** ** A concrete volume: the one of the repository's smoke test

    5001 blocks, the volume at block 1, NOTES.TXT as the fourth root entry after
    a volume label, a deleted entry and a long-name entry. *)
Module Smoke.

Definition put (o : nat) (vs : bytes) (m : bytes) : bytes := blit m (Z.of_nat o) vs.
Definition zeros : bytes := replicate 512 0.

Definition boot : bytes :=
  put 11 [0; 2] (put 13 [1] (put 14 [1; 0] (put 16 [2] (put 17 [0; 2] (put 19 [136; 19]
  (put 21 [0xf8] (put 22 [20; 0] (put 510 [0x55; 0xaa] zeros)))))))).

Definition notes_name : bytes := [78; 79; 84; 69; 83; 32; 32; 32; 84; 88; 84].
Definition missing_name : bytes := [77; 73; 83; 83; 73; 78; 71; 32; 84; 88; 84].

Definition root : bytes :=
  put 0 [86; 79; 76; 85; 77; 69; 32; 32; 32; 32; 32; 8] (put 32 (replicate 32 0xe5)
  (put 64 [76; 79; 78; 71; 78; 65; 126; 49; 84; 88; 84; 15]
  (put 96 (notes_name ++ [32]) (put 122 [7; 0; 210; 4; 0; 0] zeros)))).

Definition disk (lba : Z) : bytes :=
  if lba =? 1 then boot else if lba =? 42 then root else zeros.

Definition dev : orion_blockdev (Z -> bytes) := RamDisk.device 512 5001.
Definition blank : orion_fat16 (Z -> bytes) :=
  mk_fat16 Null 0 0 0 0 0 0 0 0 0 0 0 0 0.
Definition volume : orion_fat16 (Z -> bytes) := fat16_layout (Ptr dev) boot 1.

Lemma disk_ok : RamDisk.ok 512 disk.
Proof.
  intros i. unfold disk. repeat case_if; split; try done; by apply bytes_okb_spec.
Qed.

Lemma le_512 : 0 <= 512.
Proof. lia. Qed.

Definition driver := RamDisk.ram_driver 512 5001 le_512.

Lemma volume_wf : fat16_wf dev volume.
Proof.
  apply fat16_layout_wf; [by apply bytes_okb_spec|lia|vm_compute; reflexivity].
Qed.
End Smoke.

Theorem fat16_mount_correct_witness :
  exists w', fat16_mount (Ptr Smoke.dev) 1 (Ptr Smoke.blank) Smoke.zeros Smoke.disk
    = Some (0, Ptr Smoke.volume, w') /\
  fs_data_cluster_count Smoke.volume = 4927 /\ fs_first_data_lba Smoke.volume = 74.
Proof.
  destruct (fat16_mount_correct Smoke.dev (RamDisk.ok 512) (fun disk => disk)
    (BlockDriver0 := Smoke.driver) 1 Smoke.blank Smoke.zeros Smoke.disk)
    as (w' & E & _);
    [reflexivity|reflexivity|cbn; lia|exact Smoke.disk_ok|lia|reflexivity|].
  exists w'. split; [exact E|]. split; reflexivity.
Defined.

Theorem fat16_mount_wf_witness :
  exists w', fat16_mount (Ptr Smoke.dev) 1 (Ptr Smoke.blank) Smoke.zeros Smoke.disk
    = Some (0, Ptr Smoke.volume, w') /\ fat16_wf Smoke.dev Smoke.volume.
Proof.
  assert (E : fat16_mount (Ptr Smoke.dev) 1 (Ptr Smoke.blank) Smoke.zeros Smoke.disk
    = Some (0, Ptr Smoke.volume, Smoke.disk)) by (vm_compute; reflexivity).
  exists Smoke.disk. split; [exact E|].
  apply (fat16_mount_wf Smoke.dev (RamDisk.ok 512) (fun disk => disk)
    (BlockDriver0 := Smoke.driver) 1 Smoke.blank Smoke.zeros Smoke.disk Smoke.volume Smoke.disk);
    [reflexivity|reflexivity|cbn; lia|exact Smoke.disk_ok|lia|reflexivity|exact E].
Defined.

Theorem fat16_find_root_refines_witness :
  exists w' w'',
  fat16_find_root (Ptr Smoke.volume) (Ptr Smoke.notes_name) (Ptr (mk_dirent [] 0 0 0))
    Smoke.zeros Smoke.disk = Some (0, Ptr (mk_dirent Smoke.notes_name 32 7 1234), w') /\
  fat16_find_root (Ptr Smoke.volume) (Ptr Smoke.missing_name) (Ptr (mk_dirent [] 0 0 0))
    Smoke.zeros Smoke.disk = Some (1, Ptr (mk_dirent [] 0 0 0), w'').
Proof.
  pose (R := fun name => fat16_find_root_refines Smoke.dev (RamDisk.ok 512) (fun disk => disk)
    (BlockDriver0 := Smoke.driver) eq_refl eq_refl ltac:(cbn; lia)
    Smoke.volume Smoke.volume_wf name (mk_dirent [] 0 0 0) Smoke.zeros Smoke.disk
    Smoke.disk_ok).
  destruct (R Smoke.notes_name eq_refl eq_refl) as (w' & _ & E').
  destruct (R Smoke.missing_name eq_refl eq_refl) as (w'' & _ & E'').
  exists w', w''. split; [rewrite E'|rewrite E'']; vm_compute; reflexivity.
Defined.

Theorem fat16_read_root_sector_bounds_witness :
  fat16_read_root_sector (Ptr Smoke.volume) 32 (Ptr Smoke.zeros) Smoke.disk
    = (-1, Ptr Smoke.zeros, Smoke.disk).
Proof.
  exact (fat16_read_root_sector_bounds Smoke.dev (RamDisk.ok 512) (fun disk => disk)
    (BlockDriver0 := Smoke.driver) eq_refl eq_refl ltac:(cbn; lia)
    Smoke.volume Smoke.volume_wf Smoke.disk 32 Smoke.zeros Smoke.disk_ok ltac:(lia) eq_refl).
Defined.
