(* ===== verification/Dhcp.v ===== *)
(** * kernel/dhcp.c (packets), include/dhcp.h

    Construction of DHCPDISCOVER and DHCPREQUEST messages and the parser of
    server replies.  The protocol engine built on them is in DhcpClient. *)

From S2P Require Import Prelude.

Definition DHCP_PACKET_MIN : Z := 300.
Definition DHCP_COOKIE : Z := 0x63825363.

Definition ORION_DHCP_DISCOVER : Z := 1.
Definition ORION_DHCP_OFFER : Z := 2.
Definition ORION_DHCP_REQUEST : Z := 3.
Definition ORION_DHCP_ACK : Z := 5.
Definition ORION_DHCP_NAK : Z := 6.

(** ** The lease *)

Record OrionDhcpLease := mk_lease {
  message_type : Z;
  ip : bytes;
  netmask : bytes;
  gateway : bytes;
  dns : bytes;
  server : bytes;
  lease_seconds : Z;
  have_netmask : Z;
  have_gateway : Z;
  have_dns : Z;
  have_server : Z
}.

(** [dzero(lease, sizeof( *lease))] *)
Definition lease_zero : OrionDhcpLease :=
  mk_lease 0 [0; 0; 0; 0] [0; 0; 0; 0] [0; 0; 0; 0] [0; 0; 0; 0] [0; 0; 0; 0] 0 0 0 0 0.

Definition set_message_type (l : OrionDhcpLease) (v : Z) : OrionDhcpLease :=
  mk_lease v (ip l) (netmask l) (gateway l) (dns l) (server l) (lease_seconds l)
    (have_netmask l) (have_gateway l) (have_dns l) (have_server l).
Definition set_ip (l : OrionDhcpLease) (v : bytes) : OrionDhcpLease :=
  mk_lease (message_type l) v (netmask l) (gateway l) (dns l) (server l) (lease_seconds l)
    (have_netmask l) (have_gateway l) (have_dns l) (have_server l).
(** The address and the flag the code sets with it. *)
Definition set_netmask (l : OrionDhcpLease) (v : bytes) : OrionDhcpLease :=
  mk_lease (message_type l) (ip l) v (gateway l) (dns l) (server l) (lease_seconds l)
    1 (have_gateway l) (have_dns l) (have_server l).
Definition set_gateway (l : OrionDhcpLease) (v : bytes) : OrionDhcpLease :=
  mk_lease (message_type l) (ip l) (netmask l) v (dns l) (server l) (lease_seconds l)
    (have_netmask l) 1 (have_dns l) (have_server l).
Definition set_dns (l : OrionDhcpLease) (v : bytes) : OrionDhcpLease :=
  mk_lease (message_type l) (ip l) (netmask l) (gateway l) v (server l) (lease_seconds l)
    (have_netmask l) (have_gateway l) 1 (have_server l).
Definition set_server (l : OrionDhcpLease) (v : bytes) : OrionDhcpLease :=
  mk_lease (message_type l) (ip l) (netmask l) (gateway l) (dns l) v (lease_seconds l)
    (have_netmask l) (have_gateway l) (have_dns l) 1.
Definition set_lease_seconds (l : OrionDhcpLease) (v : Z) : OrionDhcpLease :=
  mk_lease (message_type l) (ip l) (netmask l) (gateway l) (dns l) (server l) v
    (have_netmask l) (have_gateway l) (have_dns l) (have_server l).

(** ** Byte helpers; [dcopy] and [dzero] are the prelude's loops *)

Definition dcopy (dst : bytes) (o : Z) (src : bytes) (s : Z) (n : nat) : option bytes :=
  copy_from n dst o src s.

Definition dzero (dst : bytes) (o : Z) (n : nat) : option bytes := fill n dst o 0.

Fixpoint dequal (a : bytes) (ao : Z) (b : bytes) (bo : Z) (n : nat) : option bool :=
  match n with
  | O => Some true
  | S n' =>
      x ← rd a ao;
      y ← rd b bo;
      if negb (x =? y) then Some false else dequal a (ao + 1) b (bo + 1) n'
  end.

Definition dput16 (p : bytes) (o v : Z) : option bytes :=
  p ← wr p o (u8 (Z.shiftr v 8));
  wr p (o + 1) (u8 v).

Definition dput32 (p : bytes) (o v : Z) : option bytes :=
  p ← wr p o (u8 (Z.shiftr v 24));
  p ← wr p (o + 1) (u8 (Z.shiftr v 16));
  p ← wr p (o + 2) (u8 (Z.shiftr v 8));
  wr p (o + 3) (u8 v).

Definition dget32 (p : bytes) (o : Z) : option Z :=
  p0 ← rd p o;
  p1 ← rd p (o + 1);
  p2 ← rd p (o + 2);
  p3 ← rd p (o + 3);
  Some (Z.lor (Z.lor (Z.lor (u32 (Z.shiftl p0 24)) (u32 (Z.shiftl p1 16)))
                     (u32 (Z.shiftl p2 8))) p3).

(** [packet[o++] = v] *)
Definition emit (po : bytes * Z) (v : Z) : option (bytes * Z) :=
  p ← wr (fst po) (snd po) v;
  Some (p, snd po + 1).

(** [dcopy(packet + o, src, n); o += n] *)
Definition emit_copy (po : bytes * Z) (src : bytes) (n : nat) : option (bytes * Z) :=
  p ← dcopy (fst po) (snd po) src 0 n;
  Some (p, snd po + Z.of_nat n).

(** ** Building requests: the size (0 on refusal) and the packet buffer *)

Definition dhcp_base (packet : ptr bytes) (cap xid : Z) (mac : ptr bytes)
    (message_type : Z) : option (Z * ptr bytes) :=
  match packet, mac with
  | Ptr p, Ptr m =>
      if cap <? DHCP_PACKET_MIN then Some (0, packet) else
      p ← dzero p 0 300;
      p ← wr p 0 1;
      p ← wr p 1 1;
      p ← wr p 2 6;
      p ← dput32 p 4 xid;
      p ← dput16 p 10 0x8000;
      p ← dcopy p 28 m 0 6;
      p ← dput32 p 236 DHCP_COOKIE;
      po ← emit (p, 240) 53; po ← emit po 1; po ← emit po message_type;
      po ← emit po 61; po ← emit po 7; po ← emit po 1;
      po ← emit_copy po m 6;
      po ← emit po 57; po ← emit po 2;
      p ← dput16 (fst po) (snd po) 576;
      Some (snd po + 2, Ptr p)
  | _, _ => Some (0, packet)
  end.

Definition dhcp_finish (packet : ptr bytes) (cap o : Z) : option (Z * ptr bytes) :=
  match packet with
  | Null => Some (0, packet)
  | Ptr p =>
      if (cap <? DHCP_PACKET_MIN) || (DHCP_PACKET_MIN <? o + 7) then Some (0, packet) else
      po ← emit (p, o) 55;
      po ← emit po 4;
      po ← emit_copy po [1; 3; 6; 51] 4;
      po ← emit po 255;
      Some (DHCP_PACKET_MIN, Ptr (fst po))
  end.

Definition dhcp_build_discover (packet : ptr bytes) (cap xid : Z) (mac : ptr bytes)
  : option (Z * ptr bytes) :=
  '(o, packet) ← dhcp_base packet cap xid mac ORION_DHCP_DISCOVER;
  if negb (o =? 0) then dhcp_finish packet cap o else Some (0, packet).

Definition dhcp_build_request (packet : ptr bytes) (cap xid : Z) (mac : ptr bytes)
    (requested_ip server_id : ptr bytes) : option (Z * ptr bytes) :=
  match requested_ip, server_id with
  | Ptr rip, Ptr sid =>
      '(o, packet) ← dhcp_base packet cap xid mac ORION_DHCP_REQUEST;
      if (o =? 0) || (DHCP_PACKET_MIN <? o + 12) then Some (0, packet) else
      match packet with
      | Null => None
      | Ptr p =>
          po ← emit (p, o) 50; po ← emit po 4; po ← emit_copy po rip 4;
          po ← emit po 54; po ← emit po 4; po ← emit_copy po sid 4;
          dhcp_finish (Ptr (fst po)) cap (snd po)
      end
  | _, _ => Some (0, packet)
  end.

(** ** Parsing replies *)

(** The [if]/[else if] chain on one option: code [code], [n] bytes at [v = o]. *)
Definition dhcp_option (packet : bytes) (o code n : Z) (lease : OrionDhcpLease)
  : option OrionDhcpLease :=
  if (code =? 53) && (n =? 1) then
    t ← rd packet o; Some (set_message_type lease t)
  else if (code =? 1) && (n =? 4) then
    a ← dcopy (netmask lease) 0 packet o 4; Some (set_netmask lease a)
  else if (code =? 3) && (4 <=? n) then
    a ← dcopy (gateway lease) 0 packet o 4; Some (set_gateway lease a)
  else if (code =? 6) && (4 <=? n) then
    a ← dcopy (dns lease) 0 packet o 4; Some (set_dns lease a)
  else if (code =? 51) && (n =? 4) then
    s ← dget32 packet o; Some (set_lease_seconds lease s)
  else if (code =? 54) && (n =? 4) then
    a ← dcopy (server lease) 0 packet o 4; Some (set_server lease a)
  else Some lease.

(** [return lease->message_type != 0;] *)
Definition dhcp_verdict (lease : OrionDhcpLease) : Z * OrionDhcpLease :=
  (if negb (message_type lease =? 0) then 1 else 0, lease).

(** [while (o < len)]: every turn consumes at least one byte, so [len - o + 1]
    turns are enough; running out of them is [None]. *)
Fixpoint dhcp_options (fuel : nat) (packet : bytes) (len o : Z) (lease : OrionDhcpLease)
  : option (Z * OrionDhcpLease) :=
  match fuel with
  | O => None
  | S fuel' =>
      if negb (o <? len) then Some (dhcp_verdict lease) else
      code ← rd packet o;
      let o := o + 1 in
      if code =? 0 then dhcp_options fuel' packet len o lease else
      if code =? 255 then Some (dhcp_verdict lease) else
      if len <=? o then Some (0, lease) else
      n ← rd packet o;
      let o := o + 1 in
      if len - o <? n then Some (0, lease) else
      lease ← dhcp_option packet o code n lease;
      dhcp_options fuel' packet len (o + n) lease
  end.

Definition dhcp_parse_reply (packet : ptr bytes) (len xid : Z) (mac : ptr bytes)
    (lease : ptr OrionDhcpLease) : option (Z * ptr OrionDhcpLease) :=
  match packet, mac, lease with
  | Ptr p, Ptr m, Ptr _ =>
      if len <? 240 then Some (0, lease) else
      p0 ← rd p 0; p1 ← rd p 1; p2 ← rd p 2;
      if negb (p0 =? 2) || negb (p1 =? 1) || negb (p2 =? 6) then Some (0, lease) else
      x ← dget32 p 4;
      if negb (x =? xid) then Some (0, lease) else
      same ← dequal p 28 m 0 6;
      if negb same then Some (0, lease) else
      c ← dget32 p 236;
      if negb (c =? DHCP_COOKIE) then Some (0, lease) else
      a ← dcopy (ip lease_zero) 0 p 16 4;
      '(r, l) ← dhcp_options (S (Z.to_nat (len - 240))) p len 240 (set_ip lease_zero a);
      Some (r, Ptr l)
  | _, _, _ => Some (0, lease)
  end.

(** ** Specification: big-endian fields and the option list *)

Definition be16 (v : Z) : bytes := [u8 (Z.shiftr v 8); u8 v].
Definition be32 (v : Z) : bytes :=
  [u8 (Z.shiftr v 24); u8 (Z.shiftr v 16); u8 (Z.shiftr v 8); u8 v].

(** The number at offset [o], most significant byte first. *)
Definition be32_at (p : bytes) (o : Z) : Z :=
  ((byte_at p o * 256 + byte_at p (o + 1)) * 256 + byte_at p (o + 2)) * 256
  + byte_at p (o + 3).

(** One option: its code and its value. *)
Definition dhcp_opt : Type := Z * bytes.

(** RFC 2132 layout: code, length, value. *)
Definition encode_option (x : dhcp_opt) : bytes := fst x :: len (snd x) :: snd x.
Definition encode_options (os : list dhcp_opt) : bytes := concat (encode_option <$> os).

(** Pads (0) are skipped, 255 ends the list, as does the end of the area; an
    option cut off by the end of the area makes it malformed. *)
Fixpoint decode_fuel (fuel : nat) (l : bytes) : option (list dhcp_opt) :=
  match fuel with
  | O => None
  | S fuel' =>
      match l with
      | [] => Some []
      | c :: t =>
          if c =? 0 then decode_fuel fuel' t else
          if c =? 255 then Some [] else
          match t with
          | [] => None
          | n :: t' =>
              if len t' <? n then None else
              os ← decode_fuel fuel' (drop (Z.to_nat n) t');
              Some ((c, take (Z.to_nat n) t') :: os)
          end
      end
  end.

Definition decode_options (l : bytes) : option (list dhcp_opt) :=
  decode_fuel (S (length l)) l.

(** Effect of one option on the lease, options the client ignores included. *)
Definition apply_option (lease : OrionDhcpLease) (x : dhcp_opt) : OrionDhcpLease :=
  let '(code, v) := x in
  if (code =? 53) && (len v =? 1) then set_message_type lease (byte_at v 0)
  else if (code =? 1) && (len v =? 4) then set_netmask lease v
  else if (code =? 3) && (4 <=? len v) then set_gateway lease (take 4 v)
  else if (code =? 6) && (4 <=? len v) then set_dns lease (take 4 v)
  else if (code =? 51) && (len v =? 4) then set_lease_seconds lease (be32_at v 0)
  else if (code =? 54) && (len v =? 4) then set_server lease v
  else lease.

Definition lease_of (yiaddr : bytes) (os : list dhcp_opt) : OrionDhcpLease :=
  fold_left apply_option os (set_ip lease_zero yiaddr).

(** The arrays of the C struct have four bytes. *)
Definition lease_wf (l : OrionDhcpLease) : Prop :=
  len (ip l) = 4 /\ len (netmask l) = 4 /\ len (gateway l) = 4 /\
  len (dns l) = 4 /\ len (server l) = 4.

(** The BOOTP header tests a reply must pass. *)
Definition reply_header_ok (p : bytes) (xid : Z) (mac : bytes) : bool :=
  (byte_at p 0 =? 2) && (byte_at p 1 =? 1) && (byte_at p 2 =? 6) &&
  (be32_at p 4 =? xid) && bool_decide (slice p 28 6 = mac) &&
  (be32_at p 236 =? DHCP_COOKIE).

(** ** Fields *)

Lemma be32_at_range p o : bytes_ok p -> 0 <= be32_at p o < 4294967296.
Proof.
  intros H. unfold be32_at.
  pose proof (byte_at_range p o H). pose proof (byte_at_range p (o + 1) H).
  pose proof (byte_at_range p (o + 2) H). pose proof (byte_at_range p (o + 3) H). lia.
Qed.

Lemma dget32_spec p o :
  bytes_ok p -> 0 <= o -> o + 4 <= len p -> dget32 p o = Some (be32_at p o).
Proof.
  intros Hb Ho Hl. unfold dget32, be32_at.
  rewrite !rd_byte_at by lia. cbn [mbind option_bind]. f_equal.
  pose proof (byte_at_range p o Hb). pose proof (byte_at_range p (o + 1) Hb).
  pose proof (byte_at_range p (o + 2) Hb). pose proof (byte_at_range p (o + 3) Hb).
  rewrite !(fun z => u32_id (Z.shiftl z _)) by (rewrite Z.shiftl_mul_pow2 by lia; lia).
  rewrite (Z.shiftl_mul_pow2 (byte_at p (o + 2))) by lia.
  rewrite (Z.shiftl_mul_pow2 (byte_at p (o + 1))) by lia.
  rewrite (lor_shiftl_add _ (_ * 2 ^ 16)) by lia.
  replace (byte_at p o * 2 ^ 24 + byte_at p (o + 1) * 2 ^ 16)
    with (Z.shiftl (byte_at p o * 2 ^ 8 + byte_at p (o + 1)) 16)
    by (rewrite Z.shiftl_mul_pow2 by lia; lia).
  rewrite lor_shiftl_add by lia.
  replace ((byte_at p o * 2 ^ 8 + byte_at p (o + 1)) * 2 ^ 16 + byte_at p (o + 2) * 2 ^ 8)
    with (Z.shiftl ((byte_at p o * 2 ^ 8 + byte_at p (o + 1)) * 2 ^ 8 + byte_at p (o + 2)) 8)
    by (rewrite Z.shiftl_mul_pow2 by lia; lia).
  rewrite lor_shiftl_add by lia. lia.
Qed.

Lemma be32_at_slice p o n i :
  0 <= o -> 0 <= i -> i + 4 <= n -> o + n <= len p ->
  be32_at (slice p o n) i = be32_at p (o + i).
Proof.
  intros. unfold be32_at. rewrite !byte_at_slice by lia. by rewrite !Z.add_assoc.
Qed.

Lemma dequal_spec a ao b bo n :
  0 <= ao -> ao + Z.of_nat n <= len a -> 0 <= bo -> bo + Z.of_nat n <= len b ->
  dequal a ao b bo n
    = Some (bool_decide (slice a ao (Z.of_nat n) = slice b bo (Z.of_nat n))).
Proof.
  revert ao bo. induction n as [|n IH]; intros ao bo Ha Hla Hb Hlb; [done|].
  cbn [dequal].
  destruct (rd_is_Some a ao) as [x Hx]; [lia|].
  destruct (rd_is_Some b bo) as [y Hy]; [lia|]. rewrite Hx, Hy. cbn [mbind option_bind].
  apply rd_inv in Hx as [_ Hx], Hy as [_ Hy].
  rewrite (slice_cons a ao _ x), (slice_cons b bo _ y) by (done || lia).
  replace (Z.of_nat (S n) - 1) with (Z.of_nat n) by lia.
  destruct (Z.eqb_spec x y) as [->|Hne]; cbn [negb].
  - rewrite IH by lia. f_equal.
    apply bool_decide_ext. split; [intros ->; done|by intros [= ->]].
  - f_equal. symmetry. apply bool_decide_eq_false_2. congruence.
Qed.

(** ** One option *)

Lemma dcopy4 dst p o n :
  len dst = 4 -> 0 <= o -> 4 <= n -> o + n <= len p ->
  dcopy dst 0 p o 4 = Some (take 4 (slice p o n)).
Proof.
  intros Hd Ho Hn Hl. unfold dcopy. rewrite copy_from_spec by lia. f_equal.
  assert (Hs : len (slice p o (Z.of_nat 4)) = 4) by (apply slice_length; lia).
  unfold blit. rewrite (drop_ge dst) by lia. rewrite app_nil_r.
  unfold slice. rewrite take_take, Nat.min_l by lia. done.
Qed.

Lemma dhcp_option_spec p o code n lease :
  bytes_ok p -> lease_wf lease -> 0 <= o -> 0 <= n -> o + n <= len p ->
  dhcp_option p o code n lease = Some (apply_option lease (code, slice p o n)) /\
  lease_wf (apply_option lease (code, slice p o n)).
Proof.
  intros Hb (W1 & W2 & W3 & W4 & W5) Ho Hn Hl.
  assert (Hs : len (slice p o n) = n) by (apply slice_length; lia).
  unfold dhcp_option, apply_option. rewrite Hs.
  assert (T4 : n = 4 -> take 4 (slice p o n) = slice p o n)
    by (intros ->; apply take_ge; lia).
  assert (L4 : 4 <= n -> len (take 4 (slice p o n)) = 4)
    by (intros; rewrite length_take; lia).
  assert (D4 : forall a, len a = 4 -> 4 <= n -> dcopy a 0 p o 4 = Some (take 4 (slice p o n)))
    by (intros; by apply dcopy4).
  unfold lease_wf.
  case_if; [rewrite rd_byte_at, byte_at_slice, Z.add_0_r by lia; done|].
  case_if; [rewrite D4, T4 by lia; cbn; auto with lia|].
  case_if; [rewrite D4 by lia; pose proof (L4 ltac:(lia)); cbn -[take]; auto with lia|].
  case_if; [rewrite D4 by lia; pose proof (L4 ltac:(lia)); cbn -[take]; auto with lia|].
  case_if; [rewrite dget32_spec, be32_at_slice, Z.add_0_r by (done || lia); done|].
  case_if; [rewrite D4, T4 by lia; cbn; auto with lia|]. done.
Qed.

(** ** The option loop *)

Lemma decode_fuel_enough f g l :
  (length l < f)%nat -> (length l < g)%nat -> decode_fuel f l = decode_fuel g l.
Proof.
  revert g l. induction f as [|f IH]; intros g l Hf Hg; [lia|].
  destruct g as [|g]; [lia|]. cbn [decode_fuel].
  destruct l as [|c t]; [done|]. cbn in Hf, Hg.
  destruct (c =? 0); [apply IH; lia|].
  destruct (c =? 255); [done|].
  destruct t as [|n t]; [done|]. cbn in Hf, Hg.
  destruct (len t <? n); [done|].
  rewrite (IH g); [done|..]; rewrite length_drop; lia.
Qed.

Lemma decode_fuel_options f l : (length l < f)%nat -> decode_fuel f l = decode_options l.
Proof. intros. apply decode_fuel_enough; lia. Qed.

Lemma dhcp_options_spec fuel p n o lease :
  bytes_ok p -> lease_wf lease -> 0 <= o <= n -> n <= len p ->
  (Z.to_nat (n - o) < fuel)%nat ->
  exists r l', dhcp_options fuel p n o lease = Some (r, l') /\ lease_wf l' /\
    match decode_fuel fuel (slice p o (n - o)) with
    | Some os => (r, l') = dhcp_verdict (fold_left apply_option os lease)
    | None => r = 0
    end.
Proof.
  intros Hb. revert o lease. induction fuel as [|fuel IH]; intros o lease Hw Ho Hn Hf; [lia|].
  cbn [dhcp_options]. destruct (Z.ltb_spec o n) as [Hlt|Hge]; cbn [negb].
  2: { rewrite slice_nil by lia. exists (dhcp_verdict lease).1, (dhcp_verdict lease).2.
    split; [reflexivity|]. split; [exact Hw|reflexivity]. }
  destruct (rd_is_Some p o) as [code Hcode]; [lia|]. rewrite Hcode. cbn [mbind option_bind].
  apply rd_inv in Hcode as [_ Hcode].
  rewrite (slice_cons p o _ code) by (done || lia). cbn [decode_fuel].
  replace (n - o - 1) with (n - (o + 1)) by lia.
  destruct (code =? 0); [apply IH; (done || lia)|].
  destruct (code =? 255).
  { exists (dhcp_verdict lease).1, (dhcp_verdict lease).2.
    split; [reflexivity|]. split; [exact Hw|reflexivity]. }
  destruct (Z.leb_spec n (o + 1)) as [Hend|Hmore].
  { rewrite slice_nil by lia. exists 0, lease. split; [reflexivity|]. split; [exact Hw|reflexivity]. }
  destruct (rd_is_Some p (o + 1)) as [k Hk]; [lia|]. rewrite Hk. cbn [mbind option_bind].
  pose proof (bytes_ok_rd _ _ _ Hb Hk) as Hkb. unfold is_byte in Hkb.
  apply rd_inv in Hk as [_ Hk].
  rewrite (slice_cons p (o + 1) _ k) by (done || lia).
  replace (n - (o + 1) - 1) with (n - (o + 1 + 1)) by lia.
  rewrite slice_length by lia.
  destruct (Z.ltb_spec (n - (o + 1 + 1)) k) as [Hbad|Hok].
  { exists 0, lease. split; [reflexivity|]. split; [exact Hw|reflexivity]. }
  destruct (dhcp_option_spec p (o + 1 + 1) code k lease) as [-> Hw']; [done|done|lia..|].
  cbn [mbind option_bind]. rewrite drop_slice, take_slice by lia.
  destruct (IH (o + 1 + 1 + k) (apply_option lease (code, slice p (o + 1 + 1) k)))
    as (r & l' & E & Hl' & Hd); [done|lia|lia|lia|].
  exists r, l'. split; [done|]. split; [done|].
  replace (n - (o + 1 + 1 + k)) with (n - (o + 1 + 1) - k) in Hd by lia.
  destruct (decode_fuel fuel _) as [os|]; exact Hd.
Qed.

(** The reply parser in one equation per outcome, for every buffer. *)
Lemma dhcp_parse_reply_spec p n xid mac lease0 :
  bytes_ok p -> 0 <= n <= len p -> len mac = 6 ->
  exists r l', dhcp_parse_reply (Ptr p) n xid (Ptr mac) (Ptr lease0) = Some (r, Ptr l') /\
    if (240 <=? n) && reply_header_ok p xid mac
    then lease_wf l' /\
         match decode_options (slice p 240 (n - 240)) with
         | Some os => (r, l') = dhcp_verdict (lease_of (slice p 16 4) os)
         | None => r = 0
         end
    else r = 0 /\ l' = lease0.
Proof.
  intros Hb Hn Hm. unfold dhcp_parse_reply, reply_header_ok.
  destruct (Z.ltb_spec n 240) as [Hs|Hs].
  { replace (240 <=? n) with false by (symmetry; apply Z.leb_gt; lia).
    exists 0, lease0. split; [reflexivity|split; reflexivity]. }
  replace (240 <=? n) with true by (symmetry; apply Z.leb_le; lia).
  rewrite !rd_byte_at by lia. cbn [mbind option_bind].
  destruct (byte_at p 0 =? 2), (byte_at p 1 =? 1), (byte_at p 2 =? 6);
    cbn [negb orb andb]; try (exists 0, lease0; split; [reflexivity|split; reflexivity]).
  rewrite (dget32_spec p 4) by (done || lia). cbn [mbind option_bind].
  destruct (be32_at p 4 =? xid); cbn [negb andb]; [|(exists 0, lease0; split; [reflexivity|split; reflexivity])].
  rewrite dequal_spec by lia. cbn [mbind option_bind].
  rewrite (slice_all mac) by lia. change (Z.of_nat 6) with 6.
  destruct (bool_decide (slice p 28 6 = mac)); cbn [negb andb]; [|(exists 0, lease0; split; [reflexivity|split; reflexivity])].
  rewrite (dget32_spec p 236) by (done || lia). cbn [mbind option_bind].
  destruct (be32_at p 236 =? DHCP_COOKIE); cbn [negb]; [|(exists 0, lease0; split; [reflexivity|split; reflexivity])].
  rewrite (dcopy4 _ p 16 4) by (done || lia). cbn [mbind option_bind].
  rewrite (take_ge (slice p 16 4)) by (pose proof (slice_length p 16 4); lia).
  assert (Hw : lease_wf (set_ip lease_zero (slice p 16 4))).
  { split; [apply slice_length; lia|done]. }
  destruct (dhcp_options_spec (S (Z.to_nat (n - 240))) p n 240
    (set_ip lease_zero (slice p 16 4))) as (r & l' & -> & Hl' & Hd); [done|done|lia..|].
  cbn [mbind option_bind]. exists r, l'. split; [done|]. split; [done|].
  rewrite decode_fuel_options in Hd; [done|].
  pose proof (slice_length p 240 (n - 240)). lia.
Qed.

(** ** Building: the stores do not touch what follows the packet

    Frame lemmas: a store that succeeds on a buffer succeeds on any longer one
    and leaves the tail alone. *)

Ltac bind_inv H :=
  match type of H with
  | mbind _ ?x = Some _ =>
      let E := fresh "E" in
      destruct x eqn:E; [cbn [mbind option_bind] in H|discriminate H]
  end.

Section frame.
Implicit Types (p q : bytes) (po : bytes * Z).

Lemma dput16_frame p q p' o v :
  dput16 p o v = Some p' -> dput16 (p ++ q) o v = Some (p' ++ q).
Proof.
  unfold dput16. intros H. bind_inv H.
  rewrite (wr_app_l _ q _ _ _ E). cbn [mbind option_bind]. by apply wr_app_l.
Qed.

Lemma dput32_frame p q p' o v :
  dput32 p o v = Some p' -> dput32 (p ++ q) o v = Some (p' ++ q).
Proof.
  unfold dput32. intros H. do 3 bind_inv H.
  rewrite (wr_app_l _ q _ _ _ E). cbn [mbind option_bind].
  rewrite (wr_app_l _ q _ _ _ E0). cbn [mbind option_bind].
  rewrite (wr_app_l _ q _ _ _ E1). cbn [mbind option_bind]. by apply wr_app_l.
Qed.

Lemma dcopy_frame n p q p' o src s :
  dcopy p o src s n = Some p' -> dcopy (p ++ q) o src s n = Some (p' ++ q).
Proof.
  unfold dcopy. revert p o s. induction n as [|n IH]; intros p o s; cbn [copy_from].
  { by intros [= ->]. }
  intros H. do 2 bind_inv H. cbn [mbind option_bind].
  rewrite (wr_app_l _ q _ _ _ E0). cbn [mbind option_bind]. by apply IH.
Qed.

Lemma dzero_frame n p q o v p' :
  fill n p o v = Some p' -> fill n (p ++ q) o v = Some (p' ++ q).
Proof.
  revert p o. induction n as [|n IH]; intros p o; cbn [fill]; [by intros [= ->]|].
  intros H. bind_inv H.
  rewrite (wr_app_l _ q _ _ _ E). cbn [mbind option_bind]. by apply IH.
Qed.

Definition tail_on (po : bytes * Z) (q : bytes) : bytes * Z := (fst po ++ q, snd po).

Lemma emit_frame po q po' v :
  emit po v = Some po' -> emit (tail_on po q) v = Some (tail_on po' q).
Proof.
  unfold emit. intros H. bind_inv H. injection H as <-.
  cbn [tail_on fst snd]. rewrite (wr_app_l _ q _ _ _ E). reflexivity.
Qed.

Lemma emit_copy_frame po q po' src n :
  emit_copy po src n = Some po' -> emit_copy (tail_on po q) src n = Some (tail_on po' q).
Proof.
  unfold emit_copy. intros H. bind_inv H. injection H as <-.
  cbn [tail_on fst snd]. rewrite (dcopy_frame _ _ q _ _ _ _ E). reflexivity.
Qed.
End frame.

Create HintDb dhcp_frame.
#[export] Hint Resolve dput16_frame dput32_frame dcopy_frame dzero_frame
  emit_frame emit_copy_frame wr_app_l : dhcp_frame.

(** Peel one store: [H] says it succeeds on the short buffer. *)
Ltac frame_step H q :=
  match type of H with
  | mbind _ ?x = Some _ =>
      let E := fresh "E" in let F := fresh "F" in
      destruct x eqn:E; [cbn [mbind option_bind] in H|discriminate H];
      first
        [ pose proof (wr_app_l _ q _ _ _ E) as F
        | pose proof (dput16_frame _ q _ _ _ E) as F
        | pose proof (dput32_frame _ q _ _ _ E) as F
        | pose proof (dcopy_frame _ _ q _ _ _ _ E) as F
        | pose proof (dzero_frame _ _ q _ _ _ E) as F
        | pose proof (emit_frame _ q _ _ E) as F
        | pose proof (emit_copy_frame _ q _ _ _ E) as F ];
      unfold tail_on in F; cbn [fst snd] in F; rewrite F; cbn [mbind option_bind fst snd]
  end.

Lemma dhcp_base_frame p q xid m mt o p' cap :
  300 <= cap ->
  dhcp_base (Ptr p) 300 xid (Ptr m) mt = Some (o, Ptr p') ->
  dhcp_base (Ptr (p ++ q)) cap xid (Ptr m) mt = Some (o, Ptr (p' ++ q)).
Proof.
  intros Hc. unfold dhcp_base, DHCP_PACKET_MIN, dzero.
  replace (cap <? 300) with false by (symmetry; apply Z.ltb_ge; lia).
  change (300 <? 300) with false. cbv iota.
  intros H. repeat frame_step H q. by injection H as <- <-.
Qed.

Lemma dhcp_finish_frame p q o p' cap :
  300 <= cap ->
  dhcp_finish (Ptr p) 300 o = Some (300, Ptr p') ->
  dhcp_finish (Ptr (p ++ q)) cap o = Some (300, Ptr (p' ++ q)).
Proof.
  intros Hc. unfold dhcp_finish, DHCP_PACKET_MIN.
  replace (cap <? 300) with false by (symmetry; apply Z.ltb_ge; lia).
  change (300 <? 300) with false. cbn [orb].
  destruct (300 <? o + 7); [discriminate|].
  intros H. repeat frame_step H q. by injection H as <-.
Qed.

(** ** What a request message is *)

(** BOOTP header of a client request (236 bytes) and the magic cookie. *)
Definition bootp_request (xid : Z) (mac : bytes) : bytes :=
  [1; 1; 6; 0] ++ be32 xid ++ [0; 0] ++ be16 0x8000 ++ replicate 16 0
  ++ mac ++ replicate 202 0 ++ be32 DHCP_COOKIE.

Definition discover_options (mac : bytes) : list dhcp_opt :=
  [(53, [ORION_DHCP_DISCOVER]); (61, 1 :: mac); (57, be16 576); (55, [1; 3; 6; 51])].

Definition request_options (mac rip sid : bytes) : list dhcp_opt :=
  [(53, [ORION_DHCP_REQUEST]); (61, 1 :: mac); (57, be16 576);
   (50, rip); (54, sid); (55, [1; 3; 6; 51])].

(** Header, options, end mark, zero padding up to the minimal packet. *)
Definition dhcp_message (xid : Z) (mac : bytes) (os : list dhcp_opt) : bytes :=
  let b := bootp_request xid mac ++ encode_options os ++ [255] in
  b ++ replicate (300 - length b) 0.

Lemma list4 (a : bytes) : len a = 4 -> exists x y z w, a = [x; y; z; w].
Proof.
  destruct a as [|x [|y [|z [|w [|v a]]]]]; cbn [length]; intros H; try lia. eauto.
Qed.

Lemma list6 (a : bytes) :
  len a = 6 -> exists x y z u v w, a = [x; y; z; u; v; w].
Proof.
  destruct a as [|x [|y [|z [|u [|v [|w [|k a]]]]]]]; cbn [length]; intros H; try lia.
  do 6 eexists. reflexivity.
Qed.

(** The old contents of the packet are erased first. *)
Lemma dhcp_base_erases p xid m mt :
  len p = 300 ->
  dhcp_base (Ptr p) 300 xid (Ptr m) mt = dhcp_base (Ptr (replicate 300 0)) 300 xid (Ptr m) mt.
Proof.
  intros Hp. unfold dhcp_base, dzero. change (300 <? DHCP_PACKET_MIN) with false. cbv iota.
  rewrite !fill_spec by (rewrite ?length_replicate; lia).
  cbn [mbind option_bind]. unfold blit. by rewrite !drop_ge by (rewrite ?length_replicate; lia).
Qed.

Lemma discover_erases p xid m :
  len p = 300 ->
  dhcp_build_discover (Ptr p) 300 xid (Ptr m)
  = dhcp_build_discover (Ptr (replicate 300 0)) 300 xid (Ptr m).
Proof. intros. unfold dhcp_build_discover. by rewrite dhcp_base_erases. Qed.

Lemma request_erases p xid m rip sid :
  len p = 300 ->
  dhcp_build_request (Ptr p) 300 xid (Ptr m) (Ptr rip) (Ptr sid)
  = dhcp_build_request (Ptr (replicate 300 0)) 300 xid (Ptr m) (Ptr rip) (Ptr sid).
Proof. intros. unfold dhcp_build_request. by rewrite dhcp_base_erases. Qed.

Lemma discover_300 xid mac :
  len mac = 6 ->
  dhcp_build_discover (Ptr (replicate 300 0)) 300 xid (Ptr mac)
  = Some (300, Ptr (dhcp_message xid mac (discover_options mac))).
Proof.
  intros (m0 & m1 & m2 & m3 & m4 & m5 & ->)%list6.
  lazy -[u8 Z.shiftr]. reflexivity.
Qed.

Lemma request_300 xid mac rip sid :
  len mac = 6 -> len rip = 4 -> len sid = 4 ->
  dhcp_build_request (Ptr (replicate 300 0)) 300 xid (Ptr mac) (Ptr rip) (Ptr sid)
  = Some (300, Ptr (dhcp_message xid mac (request_options mac rip sid))).
Proof.
  intros (m0 & m1 & m2 & m3 & m4 & m5 & ->)%list6 (a & b & c & d & ->)%list4
    (e & f & g & h & ->)%list4.
  lazy -[u8 Z.shiftr]. reflexivity.
Qed.

(** A result of a builder on a 300-byte buffer extends to any longer buffer. *)
Lemma discover_frame p q xid m p' cap :
  300 <= cap ->
  dhcp_build_discover (Ptr p) 300 xid (Ptr m) = Some (300, Ptr p') ->
  dhcp_build_discover (Ptr (p ++ q)) cap xid (Ptr m) = Some (300, Ptr (p' ++ q)).
Proof.
  intros Hc. unfold dhcp_build_discover. intros H.
  destruct (dhcp_base (Ptr p) _ _ _ _) as [[o [|p1]]|] eqn:E; cbn [mbind option_bind] in H;
    [destruct (negb (o =? 0)); discriminate| |discriminate].
  rewrite (dhcp_base_frame _ q _ _ _ _ _ cap Hc E). cbn [mbind option_bind].
  destruct (negb (o =? 0)); [|discriminate]. by apply dhcp_finish_frame.
Qed.

Lemma request_frame p q xid m rip sid p' cap :
  300 <= cap ->
  dhcp_build_request (Ptr p) 300 xid (Ptr m) (Ptr rip) (Ptr sid) = Some (300, Ptr p') ->
  dhcp_build_request (Ptr (p ++ q)) cap xid (Ptr m) (Ptr rip) (Ptr sid)
  = Some (300, Ptr (p' ++ q)).
Proof.
  intros Hc. unfold dhcp_build_request. intros H.
  destruct (dhcp_base (Ptr p) _ _ _ _) as [[o [|p1]]|] eqn:E; cbn [mbind option_bind] in H;
    [destruct ((o =? 0) || _); discriminate| |discriminate].
  rewrite (dhcp_base_frame _ q _ _ _ _ _ cap Hc E). cbn [mbind option_bind].
  destruct ((o =? 0) || _); [discriminate|].
  repeat frame_step H q. by apply dhcp_finish_frame.
Qed.

Lemma dhcp_base_refuses p cap xid m mt :
  cap < 300 -> dhcp_base p cap xid m mt = Some (0, p).
Proof.
  intros. unfold dhcp_base, DHCP_PACKET_MIN. destruct p as [|p], m as [|m]; [done..|].
  by replace (cap <? 300) with true by (symmetry; apply Z.ltb_lt; lia).
Qed.

(** *** Round trip of the option encoding *)

Definition option_wf (x : dhcp_opt) : Prop :=
  1 <= fst x < 255 /\ len (snd x) < 256.

Lemma decode_cons f c v l :
  option_wf (c, v) ->
  decode_fuel (S f) (c :: len v :: v ++ l)
  = (os ← decode_fuel f l; Some ((c, v) :: os)).
Proof.
  intros [Hc Hv]; cbn [fst snd] in Hc, Hv. cbn [decode_fuel].
  replace (c =? 0) with false by (symmetry; apply Z.eqb_neq; lia).
  replace (c =? 255) with false by (symmetry; apply Z.eqb_neq; lia).
  replace (len (v ++ l) <? len v) with false
    by (symmetry; apply Z.ltb_ge; rewrite length_app; lia).
  by rewrite Nat2Z.id, drop_app_length, take_app_length.
Qed.

Lemma decode_encode_fuel os rest f :
  Forall option_wf os -> (length (encode_options os) < f)%nat ->
  decode_fuel f (encode_options os ++ 255 :: rest) = Some os.
Proof.
  intros Hos. revert f. induction Hos as [|[c v] os Hx Hos IH]; intros f Hf.
  { destruct f as [|f]; [lia|]. reflexivity. }
  destruct f as [|f]; [lia|].
  change (encode_options ((c, v) :: os)) with ((c :: len v :: v) ++ encode_options os) in *.
  rewrite length_app in Hf. cbn [length] in Hf. rewrite <- app_assoc. cbn [app].
  rewrite decode_cons by done. rewrite IH by lia. reflexivity.
Qed.

Lemma decode_encode os rest :
  Forall option_wf os -> decode_options (encode_options os ++ 255 :: rest) = Some os.
Proof.
  intros Hos. apply decode_encode_fuel; [done|]. rewrite length_app. lia.
Qed.

(** ** Properties *)

(** C3. The reply parser never reads outside the [n] bytes it was given, for
    every byte sequence and every malformed option list; it returns 1 exactly
    when the BOOTP header belongs to this transaction (operation, hardware
    type, xid, MAC, magic cookie), the option area decodes as a
    tag-length-value list and some option 53 of length 1 gave a message type,
    and then the lease holds exactly the fold of the decoded options over a
    cleared lease; otherwise it returns 0, with the caller's lease untouched
    when the header did not match. *)
Theorem dhcp_parse_reply_correct p n xid mac lease0 :
  bytes_ok p -> 0 <= n <= len p -> len mac = 6 ->
  exists r l', dhcp_parse_reply (Ptr p) n xid (Ptr mac) (Ptr lease0) = Some (r, Ptr l') /\
    (r = 0 \/ r = 1) /\
    (r = 1 <-> 240 <= n /\ reply_header_ok p xid mac = true /\
       exists os, decode_options (slice p 240 (n - 240)) = Some os /\
         message_type (lease_of (slice p 16 4) os) <> 0) /\
    (r = 1 -> lease_wf l' /\ forall os, decode_options (slice p 240 (n - 240)) = Some os ->
       l' = lease_of (slice p 16 4) os) /\
    (reply_header_ok p xid mac = false -> l' = lease0).
Proof.
  intros Hb Hn Hm.
  destruct (dhcp_parse_reply_spec p n xid mac lease0 Hb Hn Hm) as (r & l' & E & H).
  exists r, l'. split; [exact E|]. clear E.
  destruct (Z.leb_spec 240 n) as [Hs|Hs], (reply_header_ok p xid mac) eqn:Hh; cbn [andb] in H.
  2-4: destruct H as [-> ->]; split; [tauto|];
    split; [split; [lia|intros (? & ? & ?); (lia || discriminate)]|];
    split; [lia|done].
  destruct H as [Hw H]. destruct (decode_options _) as [os|] eqn:Hd.
  - unfold dhcp_verdict in H. injection H as -> ->.
    split; [case_match; tauto|]. split.
    + destruct (Z.eqb_spec (message_type (lease_of (slice p 16 4) os)) 0) as [E|E]; cbn [negb].
      * split; [lia|]. intros (_ & _ & os' & [= <-] & ?). done.
      * split; [|done]. intros _. split; [done|]. split; [done|]. by exists os.
    + split; [|done]. intros _. split; [done|]. by intros os' [= <-].
  - subst r. split; [tauto|]. split; [|done].
    split; [lia|]. intros (_ & _ & os & [=] & _).
Qed.

(** Encoding and parsing are inverse: a reply whose option area is the
    encoding of any options with codes 1..254 and values under 256 bytes, the
    end mark and arbitrary padding, is parsed to the lease those options
    describe, and accepted when they carry a message type. *)
Theorem dhcp_reply_roundtrip p xid mac lease0 os rest :
  bytes_ok p -> len mac = 6 -> reply_header_ok p xid mac = true -> Forall option_wf os ->
  slice p 240 (len p - 240) = encode_options os ++ 255 :: rest -> 240 <= len p ->
  dhcp_parse_reply (Ptr p) (len p) xid (Ptr mac) (Ptr lease0)
  = Some (if message_type (lease_of (slice p 16 4) os) =? 0 then 0 else 1,
          Ptr (lease_of (slice p 16 4) os)).
Proof.
  intros Hb Hm Hh Hos Harea Hn.
  destruct (dhcp_parse_reply_spec p (len p) xid mac lease0) as (r & l' & -> & H); [done|lia|done|].
  rewrite Hh, (proj2 (Z.leb_le 240 (len p))) in H by lia. cbn [andb] in H.
  destruct H as [_ H]. rewrite Harea, decode_encode in H by done.
  unfold dhcp_verdict in H. injection H as -> ->. by destruct (_ =? 0).
Qed.

(** [dhcp_build_discover] with room for a packet writes exactly the
    300-byte DHCPDISCOVER message (BOOTP header with the transaction id, the
    broadcast flag and the MAC, the cookie, the options, the end mark, zero
    padding), erasing whatever the buffer held, and leaves the bytes after it
    alone; with less room, or a null pointer, it refuses and writes nothing. *)
Theorem dhcp_build_discover_correct p cap xid mac :
  cap <= len p -> len mac = 6 ->
  dhcp_build_discover (Ptr p) cap xid (Ptr mac)
    = Some (if cap <? 300 then (0, Ptr p)
            else (300, Ptr (dhcp_message xid mac (discover_options mac) ++ drop 300 p))) /\
  dhcp_build_discover Null cap xid (Ptr mac) = Some (0, Null) /\
  dhcp_build_discover (Ptr p) cap xid Null = Some (0, Ptr p).
Proof.
  intros Hcap Hm. split; [|split; reflexivity].
  destruct (Z.ltb_spec cap 300) as [Hs|Hs].
  { unfold dhcp_build_discover. by rewrite dhcp_base_refuses. }
  rewrite <- (take_drop 300 p) at 1. apply discover_frame; [done|].
  rewrite discover_erases by (rewrite length_take; lia). by rewrite discover_300.
Qed.

(** Likewise [dhcp_build_request] writes exactly the DHCPREQUEST message
    that names the offered address and the server identifier. *)
Theorem dhcp_build_request_correct p cap xid mac rip sid :
  cap <= len p -> len mac = 6 -> len rip = 4 -> len sid = 4 ->
  dhcp_build_request (Ptr p) cap xid (Ptr mac) (Ptr rip) (Ptr sid)
    = Some (if cap <? 300 then (0, Ptr p)
            else (300, Ptr (dhcp_message xid mac (request_options mac rip sid) ++ drop 300 p))) /\
  dhcp_build_request (Ptr p) cap xid (Ptr mac) Null (Ptr sid) = Some (0, Ptr p) /\
  dhcp_build_request (Ptr p) cap xid (Ptr mac) (Ptr rip) Null = Some (0, Ptr p).
Proof.
  intros Hcap Hm Hr Hsid. split; [|split; reflexivity].
  destruct (Z.ltb_spec cap 300) as [Hs|Hs].
  { unfold dhcp_build_request. by rewrite dhcp_base_refuses. }
  rewrite <- (take_drop 300 p) at 1. apply request_frame; [done|].
  rewrite request_erases by (rewrite length_take; lia). by rewrite request_300.
Qed.

(** What is sent can be read back: the option area of either message
    decodes to exactly the options it was built from, for every transaction. *)
Theorem dhcp_message_decodes xid mac rip sid :
  len mac = 6 -> len rip = 4 -> len sid = 4 ->
  let d := dhcp_message xid mac (discover_options mac) in
  let r := dhcp_message xid mac (request_options mac rip sid) in
  len d = 300 /\ len r = 300 /\
  decode_options (slice d 240 60) = Some (discover_options mac) /\
  decode_options (slice r 240 60) = Some (request_options mac rip sid).
Proof.
  intros (m0 & m1 & m2 & m3 & m4 & m5 & ->)%list6 (a & b & c & d & ->)%list4
    (e & f & g & h & ->)%list4.
  cbv zeta. repeat split; lazy -[u8 Z.shiftr]; reflexivity.
Qed.

(** ** A concrete exchange *)

Module Sample.

Definition xid : Z := 0x4f524e31.
Definition mac : bytes := [0x52; 0x54; 0; 0x12; 0x34; 0x56].
Definition yiaddr : bytes := [10; 0; 2; 15].

Definition offer_options : list dhcp_opt :=
  [(53, [ORION_DHCP_OFFER]); (54, [10; 0; 2; 2]); (51, be32 86400);
   (1, [255; 255; 255; 0]); (3, [10; 0; 2; 2]); (6, [10; 0; 2; 3; 8; 8; 8; 8]);
   (12, [111; 114; 105])].

(** A reply of a server, with any option area. *)
Definition reply_with (area : bytes) : bytes :=
  [2; 1; 6; 0] ++ be32 xid ++ replicate 8 0 ++ yiaddr ++ replicate 8 0
  ++ mac ++ replicate 202 0 ++ be32 DHCP_COOKIE ++ area.

Definition reply : bytes := reply_with (encode_options offer_options ++ [255; 0; 0; 0]).

(** An option that claims more bytes than the packet has. *)
Definition truncated : bytes := reply_with [53; 1; 2; 6; 200; 1].

Definition offered : OrionDhcpLease :=
  mk_lease 2 [10; 0; 2; 15] [255; 255; 255; 0] [10; 0; 2; 2] [10; 0; 2; 3] [10; 0; 2; 2]
    86400 1 1 1 1.

Example reply_parsed :
  dhcp_parse_reply (Ptr reply) (len reply) xid (Ptr mac) (Ptr lease_zero)
  = Some (1, Ptr offered).
Proof. vm_compute. reflexivity. Qed.

Example truncated_refused :
  fst <$> dhcp_parse_reply (Ptr truncated) (len truncated) xid (Ptr mac) (Ptr lease_zero)
  = Some 0.
Proof. vm_compute. reflexivity. Qed.

Lemma dhcp_parse_reply_correct_witness :
  exists r l', dhcp_parse_reply (Ptr reply) (len reply) xid (Ptr mac) (Ptr lease_zero)
    = Some (r, Ptr l') /\ r = 1 /\ l' = offered.
Proof.
  destruct (dhcp_parse_reply_correct reply (len reply) xid mac lease_zero)
    as (r & l' & E & _ & Hr & Hl & _).
  { apply bytes_okb_spec. vm_compute. reflexivity. }
  { lia. }
  { reflexivity. }
  exists r, l'. split; [exact E|].
  assert (H1 : r = 1).
  { apply Hr. split; [vm_compute; discriminate|]. split; [vm_compute; reflexivity|].
    exists offer_options. split; [vm_compute; reflexivity|vm_compute; discriminate]. }
  split; [exact H1|]. destruct (Hl H1) as [_ He].
  rewrite (He offer_options) by (vm_compute; reflexivity). vm_compute. reflexivity.
Defined.

Lemma dhcp_reply_roundtrip_witness :
  dhcp_parse_reply (Ptr reply) (len reply) xid (Ptr mac) (Ptr lease_zero)
  = Some (1, Ptr offered).
Proof.
  rewrite (dhcp_reply_roundtrip reply xid mac lease_zero offer_options [0; 0; 0]).
  { vm_compute. reflexivity. }
  { apply bytes_okb_spec. vm_compute. reflexivity. }
  { reflexivity. }
  { vm_compute. reflexivity. }
  { unfold offer_options, option_wf. repeat constructor; cbn; lia. }
  { vm_compute. reflexivity. }
  { vm_compute. discriminate. }
Defined.

Lemma dhcp_build_discover_correct_witness :
  dhcp_build_discover (Ptr (replicate 310 7)) 310 xid (Ptr mac)
  = Some (300, Ptr (dhcp_message xid mac (discover_options mac) ++ replicate 10 7)).
Proof.
  destruct (dhcp_build_discover_correct (replicate 310 7) 310 xid mac) as [H _].
  { vm_compute. discriminate. }
  { reflexivity. }
  exact H.
Defined.

Lemma dhcp_build_request_correct_witness :
  dhcp_build_request (Ptr (replicate 310 7)) 310 xid (Ptr mac) (Ptr yiaddr) (Ptr [10; 0; 2; 2])
  = Some (300, Ptr (dhcp_message xid mac (request_options mac yiaddr [10; 0; 2; 2])
                    ++ replicate 10 7)).
Proof.
  destruct (dhcp_build_request_correct (replicate 310 7) 310 xid mac yiaddr [10; 0; 2; 2])
    as [H _].
  { vm_compute. discriminate. }
  { reflexivity. }
  { reflexivity. }
  { reflexivity. }
  exact H.
Defined.

Lemma dhcp_message_decodes_witness :
  decode_options (slice (dhcp_message xid mac (discover_options mac)) 240 60)
  = Some (discover_options mac).
Proof.
  destruct (dhcp_message_decodes xid mac yiaddr yiaddr) as (_ & _ & H & _);
    [reflexivity|reflexivity|reflexivity|exact H].
Defined.

End Sample.
