(* ===== verification/Checksum.v ===== *)
(** * The Internet checksum of kernel/dhcp.c (and kernel/net.c)

    [dhcp_checksum16]: the sum of big-endian 16-bit words, folded by end-around
    carry and complemented. *)

From S2P Require Import Prelude Dhcp.

(** [while (len > 1) {...} if (len) sum += p[0] << 8;] *)
Fixpoint sum16 (fuel : nat) (p : bytes) (o len sum : Z) : option Z :=
  match fuel with
  | O => None
  | S fuel' =>
      if 1 <? len then
        a ← rd p o;
        b ← rd p (o + 1);
        sum16 fuel' p (o + 2) (len - 2) (u32 (sum + Z.lor (Z.shiftl (u16 a) 8) b))
      else if negb (len =? 0) then
        a ← rd p o; Some (u32 (sum + Z.shiftl (u16 a) 8))
      else Some sum
  end.

(** [while (sum >> 16) sum = (sum & 0xffffu) + (sum >> 16);] *)
Fixpoint fold16 (fuel : nat) (sum : Z) : option Z :=
  match fuel with
  | O => None
  | S fuel' =>
      if negb (Z.shiftr sum 16 =? 0)
      then fold16 fuel' (u32 (Z.land sum 0xffff + Z.shiftr sum 16))
      else Some sum
  end.

Definition dhcp_checksum16 (p : bytes) (o len : Z) : option Z :=
  sum ← sum16 (S (Z.to_nat len)) p o len 0;
  sum ← fold16 3 sum;
  Some (u16 (Z.lnot sum)).

(** ** Specification *)

(** The sum of the words of [l], an odd last byte padded with zero. *)
Fixpoint word_sum (l : bytes) : Z :=
  match l with
  | a :: b :: l' => a * 256 + b + word_sum l'
  | [a] => a * 256
  | [] => 0
  end.

(** End-around carry: the representative of the sum modulo 65535, 65535
    rather than 0 for a sum that is not null. *)
Definition oc_fold (s : Z) : Z := if s =? 0 then 0 else (s - 1) mod 65535 + 1.

Definition checksum (l : bytes) : Z := 65535 - oc_fold (word_sum l).

(** ** Lemmas *)

Lemma bytes_ind2 (P : bytes -> Prop) :
  P [] -> (forall a, P [a]) -> (forall a b l, P l -> P (a :: b :: l)) -> forall l, P l.
Proof.
  intros H0 H1 H2. fix IH 1. intros [|a [|b l]]; [exact H0|apply H1|apply H2, IH].
Qed.

Lemma word_sum_bounds l : bytes_ok l -> 0 <= word_sum l <= 65535 * ((len l + 1) / 2).
Proof.
  induction l as [|a|a b l IH] using bytes_ind2; intros H; cbn [word_sum length].
  - change ((Z.of_nat 0 + 1) / 2) with 0. lia.
  - inversion H; subst. unfold is_byte in *. change ((Z.of_nat 1 + 1) / 2) with 1. lia.
  - inversion H as [|? ? Ha H']; subst. inversion H' as [|? ? Hb H'']; subst.
    unfold is_byte in *. specialize (IH H'').
    replace (Z.of_nat (S (S (length l))) + 1) with (len l + 1 + 1 * 2) by lia.
    rewrite Z.div_add by lia. lia.
Qed.

Lemma sum16_spec fuel p o n s :
  bytes_ok p -> 0 <= o -> 0 <= n -> o + n <= len p -> n < Z.of_nat fuel ->
  0 <= s -> s + word_sum (slice p o n) < 4294967296 ->
  sum16 fuel p o n s = Some (s + word_sum (slice p o n)).
Proof.
  intros Hb. revert o n s. induction fuel as [|fuel IH]; intros o n s Ho Hn Hl Hf Hs Hov; [lia|].
  cbn [sum16]. destruct (Z.ltb_spec 1 n) as [H1|H1].
  - destruct (rd_is_Some p o) as [a Ha]; [lia|]. destruct (rd_is_Some p (o + 1)) as [b' Hb']; [lia|].
    rewrite Ha, Hb'. cbn [mbind option_bind].
    pose proof (bytes_ok_rd _ _ _ Hb Ha) as Ra. pose proof (bytes_ok_rd _ _ _ Hb Hb') as Rb.
    unfold is_byte in *. apply rd_inv in Ha as [_ Ha], Hb' as [_ Hb'].
    rewrite (slice_cons p o n a), (slice_cons p (o + 1) (n - 1) b') in * by (done || lia).
    cbn [word_sum] in *. replace (o + 1 + 1) with (o + 2) in * by lia.
    replace (n - 1 - 1) with (n - 2) in * by lia.
    rewrite (u16_id a), lor_shiftl_add by lia. change (2 ^ 8) with 256.
    pose proof (word_sum_bounds (slice p (o + 2) (n - 2)) ltac:(auto with orion)).
    rewrite u32_id by lia. rewrite IH by lia. f_equal. lia.
  - destruct (Z.eqb_spec n 0) as [->|H0]; cbn [negb].
    + rewrite slice_nil by lia. cbn. by rewrite Z.add_0_r.
    + assert (n = 1) as -> by lia.
      destruct (rd_is_Some p o) as [a Ha]; [lia|]. rewrite Ha. cbn [mbind option_bind].
      pose proof (bytes_ok_rd _ _ _ Hb Ha) as Ra. unfold is_byte in *.
      apply rd_inv in Ha as [_ Ha].
      rewrite (slice_cons p o 1 a), slice_nil in * by (done || lia). cbn [word_sum] in *.
      rewrite (u16_id a), Z.shiftl_mul_pow2 by lia. change (2 ^ 8) with 256.
      by rewrite u32_id by lia.
Qed.

Lemma fold16_step s :
  0 <= s < 4294967296 -> u32 (Z.land s 0xffff + Z.shiftr s 16) = s mod 65536 + s / 65536.
Proof.
  intros H. change 0xffff with (Z.ones 16). rewrite Z.land_ones, Z.shiftr_div_pow2 by lia.
  change (2 ^ 16) with 65536. apply u32_id. zlia.
Qed.

Lemma oc_fold_step s : 65536 <= s -> oc_fold (s mod 65536 + s / 65536) = oc_fold s.
Proof.
  intros H. unfold oc_fold.
  destruct (Z.eqb_spec (s mod 65536 + s / 65536) 0); [zlia|].
  destruct (Z.eqb_spec s 0); [lia|]. f_equal.
  pose proof (Z.div_mod s 65536 ltac:(lia)) as D.
  replace (s - 1) with (s mod 65536 + s / 65536 - 1 + s / 65536 * 65535) by lia.
  by rewrite Z.mod_add.
Qed.

Lemma oc_fold_small s : 0 <= s < 65536 -> oc_fold s = s.
Proof. intros H. unfold oc_fold. destruct (Z.eqb_spec s 0); [lia|]. rewrite Z.mod_small; lia. Qed.

Lemma fold16_spec s : 0 <= s < 4294967296 -> fold16 3 s = Some (oc_fold s).
Proof.
  assert (Hgen : forall fuel s, 0 <= s < 65536 -> fold16 (S fuel) s = Some (oc_fold s)).
  { intros fuel x Hx. cbn [fold16]. rewrite Z.shiftr_div_pow2 by lia. change (2 ^ 16) with 65536.
    rewrite Z.div_small by lia. cbn. by rewrite oc_fold_small. }
  assert (Hstep : forall fuel s, 65536 <= s < 4294967296 ->
            fold16 (S fuel) s = fold16 fuel (s mod 65536 + s / 65536)).
  { intros fuel x Hx. cbn [fold16]. rewrite fold16_step by lia.
    rewrite Z.shiftr_div_pow2 by lia. change (2 ^ 16) with 65536.
    destruct (Z.eqb_spec (x / 65536) 0); [zlia|done]. }
  intros H. destruct (Z.ltb_spec s 65536); [apply Hgen; lia|].
  rewrite Hstep by lia. rewrite <- (oc_fold_step s) by lia.
  set (t := s mod 65536 + s / 65536).
  assert (Ht : 0 <= t < 131071) by (subst t; zlia).
  destruct (Z.ltb_spec t 65536); [apply Hgen; lia|].
  rewrite Hstep by lia. rewrite <- (oc_fold_step t) by lia. apply Hgen. zlia.
Qed.

Lemma oc_fold_range s : 0 <= s -> 0 <= oc_fold s <= 65535.
Proof. intros H. unfold oc_fold. destruct (Z.eqb_spec s 0); [lia|]. zlia. Qed.

Lemma lnot16 x : 0 <= x <= 65535 -> u16 (Z.lnot x) = 65535 - x.
Proof. intros H. unfold Z.lnot, u16. zlia. Qed.

(** No overflow up to 128 KiB, whatever the bytes. *)
Lemma dhcp_checksum16_spec p o n :
  bytes_ok p -> 0 <= o -> 0 <= n <= 131072 -> o + n <= len p ->
  dhcp_checksum16 p o n = Some (checksum (slice p o n)).
Proof.
  intros Hb Ho Hn Hl. unfold dhcp_checksum16.
  pose proof (word_sum_bounds (slice p o n) ltac:(auto with orion)) as Hw.
  rewrite slice_length in Hw by lia.
  assert (word_sum (slice p o n) < 4294967296) by zlia.
  rewrite sum16_spec by (done || lia). cbn [mbind option_bind]. rewrite Z.add_0_l.
  rewrite fold16_spec by lia. cbn [mbind option_bind].
  rewrite lnot16; [done|]. apply oc_fold_range. lia.
Qed.

(** ** Verification by the receiver *)

Lemma word_sum_app l1 l2 :
  Nat.Even (length l1) -> word_sum (l1 ++ l2) = word_sum l1 + word_sum l2.
Proof.
  induction l1 as [|a|a b l1 IH] using bytes_ind2; intros H; [done| |].
  - destruct H as [k Hk]. cbn in Hk. lia.
  - cbn [app word_sum]. rewrite IH; [lia|]. destruct H as [k Hk]. cbn in Hk.
    exists (k - 1)%nat. lia.
Qed.

Lemma be16_sum c : 0 <= c < 65536 -> word_sum (be16 c) = c.
Proof.
  intros H. unfold be16. cbn [word_sum]. rewrite Z.shiftr_div_pow2 by lia.
  change (2 ^ 8) with 256. unfold u8. zlia.
Qed.

Lemma checksum_range l : bytes_ok l -> 0 <= checksum l < 65536.
Proof.
  intros Hb. pose proof (word_sum_bounds l Hb). unfold checksum.
  pose proof (oc_fold_range (word_sum l) ltac:(lia)). lia.
Qed.

(** The checksum put in its own zeroed field makes the whole sum to zero. *)
Lemma checksum_verifies pre post :
  bytes_ok (pre ++ [0; 0] ++ post) -> Nat.Even (length pre) ->
  checksum (pre ++ be16 (checksum (pre ++ [0; 0] ++ post)) ++ post) = 0.
Proof.
  intros Hb He. pose proof (checksum_range _ Hb) as Hc.
  pose proof (word_sum_bounds _ Hb) as Hs.
  remember (checksum (pre ++ [0; 0] ++ post)) as c eqn:Ec. unfold checksum in *.
  rewrite !word_sum_app in * by (done || by exists 1%nat).
  rewrite be16_sum by done. cbn [word_sum] in Hs, Ec.
  replace (word_sum pre + (0 * 256 + 0 + 0 + word_sum post)) with (word_sum pre + word_sum post)
    in * by lia.
  replace (word_sum pre + (c + word_sum post)) with (word_sum pre + word_sum post + c) by lia.
  set (s := word_sum pre + word_sum post) in *. assert (0 <= s) by lia. clearbody s.
  assert (Hsc : 0 < s + c) by (rewrite Ec; unfold oc_fold; destruct (Z.eqb_spec s 0); zlia).
  rewrite Ec in *. unfold oc_fold in *. destruct (Z.eqb_spec s 0) as [H0|H0].
  - rewrite H0 in *. reflexivity.
  - destruct (Z.eqb_spec (s + (65535 - ((s - 1) mod 65535 + 1))) 0); [lia|].
    replace (s + (65535 - ((s - 1) mod 65535 + 1)) - 1) with (65534 + (s - 1) / 65535 * 65535)
      by zlia.
    rewrite Z.mod_add by lia. reflexivity.
Qed.

(** The checksum is the one of RFC 1071: for any bytes up to 128 KiB the
    routine stays inside them, terminates and never overflows, and when its
    result is stored in the zeroed checksum field (at any even offset) the
    receiver's computation over the whole gives 0. *)
Theorem dhcp_checksum16_verifies pre post :
  bytes_ok (pre ++ [0; 0] ++ post) -> Nat.Even (length pre) ->
  len (pre ++ [0; 0] ++ post) <= 131072 ->
  exists c,
    dhcp_checksum16 (pre ++ [0; 0] ++ post) 0 (len (pre ++ [0; 0] ++ post)) = Some c /\
    dhcp_checksum16 (pre ++ be16 c ++ post) 0 (len (pre ++ be16 c ++ post)) = Some 0.
Proof.
  intros Hb He Hl. exists (checksum (pre ++ [0; 0] ++ post)).
  rewrite dhcp_checksum16_spec, slice_all by (done || lia). split; [done|].
  rewrite dhcp_checksum16_spec, slice_all; try lia.
  - f_equal. by apply checksum_verifies.
  - apply bytes_ok_app in Hb as [Hb1 [_ Hb2]%bytes_ok_app]. rewrite !bytes_ok_app.
    split; [done|]. split; [|done]. unfold be16. repeat constructor; apply u8_range.
  - rewrite !length_app in *. cbn [length be16] in *. lia.
Qed.

(** The header of a DHCPDISCOVER datagram. *)
Lemma dhcp_checksum16_verifies_witness :
  exists c,
    dhcp_checksum16 ([0x45; 0; 1; 72; 0x4f; 0x52; 0; 0; 64; 17] ++ be16 c
                     ++ [0; 0; 0; 0; 255; 255; 255; 255]) 0 20 = Some 0.
Proof.
  destruct (dhcp_checksum16_verifies [0x45; 0; 1; 72; 0x4f; 0x52; 0; 0; 64; 17]
    [0; 0; 0; 0; 255; 255; 255; 255]) as (c & _ & E).
  { apply bytes_okb_spec. reflexivity. }
  { exists 5%nat. reflexivity. }
  { vm_compute. discriminate. }
  exists c. exact E.
Defined.
