(* ===== verification/NetEnv.v ===== *)
(** * The environment of the network code

    What kernel/dhcp.c and kernel/net.c call outside themselves: the timer
    counters of kernel/interrupts.c and the adapter behind kernel/netdev.c.
    Also the outcome type of the code of net.c, whose waiting loops take as
    long as the clock lets them, and lemmas on big-endian fields. *)

From S2P Require Import Prelude.

(** [netdev_poll] returns the frames handed to the callback, in order. *)
Class NetEnv (E : Type) := {
  timer_ticks : E -> Z * E;
  timer_frequency : E -> Z;
  netdev_tx : bytes -> E -> Z * E;
  netdev_poll : E -> list bytes * E
}.

(** ** Outcomes

    [Ok]: the code returned.  [Fault]: it read or wrote outside an object.
    [NoFuel]: a waiting loop was cut off by the fuel of the model. *)
Inductive res (A : Type) : Type :=
| Ok (a : A)
| Fault
| NoFuel.
Arguments Ok {A} a.
Arguments Fault {A}.
Arguments NoFuel {A}.

#[export] Instance res_ret : MRet res := fun A => Ok.
#[export] Instance res_bind : MBind res := fun A B f r =>
  match r with Ok a => f a | Fault => Fault | NoFuel => NoFuel end.

(** A memory access. *)
Definition ub {A} (o : option A) : res A :=
  match o with Some a => Ok a | None => Fault end.

(** [safe T r Q]: no fault, and [Q] of the result when there is one; a run cut
    off is acceptable when [T] holds.  [safe True] is partial correctness,
    [safe False] says that the code returns. *)
Definition safe {A} (T : Prop) (r : res A) (Q : A -> Prop) : Prop :=
  match r with Ok a => Q a | Fault => False | NoFuel => T end.

Lemma safe_bind {A B} T (r : res A) (f : A -> res B) (P : A -> Prop) (Q : B -> Prop) :
  safe T r P -> (forall a, P a -> safe T (f a) Q) -> safe T (r ≫= f) Q.
Proof. destruct r; cbn; auto. Qed.

Lemma safe_mono {A} T (r : res A) (P Q : A -> Prop) :
  safe T r P -> (forall a, P a -> Q a) -> safe T r Q.
Proof. destruct r; cbn; auto. Qed.

Lemma safe_total {A} (r : res A) (Q : A -> Prop) :
  safe False r Q -> exists a, r = Ok a /\ Q a.
Proof. destruct r as [a| |]; cbn; [|done|done]. by exists a. Qed.

Lemma ok_bind {A B} (a : A) (f : A -> res B) : (Ok a ≫= f) = f a.
Proof. reflexivity. Qed.

Lemma bind_some {A B} (a : A) (f : A -> option B) : (Some a ≫= f) = f a.
Proof. reflexivity. Qed.

(** ** Big-endian fields *)

Definition be16_at (p : bytes) (o : Z) : Z := byte_at p o * 256 + byte_at p (o + 1).

Lemma be16_at_range p o : bytes_ok p -> 0 <= be16_at p o < 65536.
Proof.
  intros Hb. unfold be16_at.
  pose proof (byte_at_range p o Hb). pose proof (byte_at_range p (o + 1) Hb). lia.
Qed.
