(* ===== verification/Cstr.v ===== *)
(** * NUL-terminated strings

    A C string is a position in a memory object from which a zero byte is
    reached.  [cstr m o t] says that the string at [o] of [m] has the characters
    [t]; [returns] is total correctness of the partial functions of the models
    (no access outside an object, and a result that satisfies the
    postcondition). *)

From S2P Require Import Prelude.
From Stdlib Require Import Ascii.
From Stdlib Require String.
Export String.StringSyntax.

(** The bytes of a literal, without and with the terminator. *)
Fixpoint chars (s : String.string) : bytes :=
  match s with
  | String.EmptyString => []
  | String.String a s' => Z.of_N (N_of_ascii a) :: chars s'
  end.
Definition lit (s : String.string) : bytes := chars s ++ [0].
Arguments lit s%_string_scope.
Arguments chars s%_string_scope.

(** Characters compared with in the sources. *)
Abbreviation HT := 9.
Abbreviation LF := 10.
Abbreviation CR := 13.
Abbreviation SP := 32.
Abbreviation HASH := 35.
Abbreviation COMMA := 44.
Abbreviation DOT := 46.
Abbreviation SLASH := 47.
Abbreviation COLON := 58.
Abbreviation SEMICOLON := 59.
Abbreviation QUESTION := 63.

(** [c>='0'&&c<='9'] *)
Definition is_digit (c : Z) : bool := (48 <=? c) && (c <=? 57).

(** [c>='A'&&c<='Z'?(char)(c+32):c] *)
Definition lower_ascii (c : Z) : Z := if (65 <=? c) && (c <=? 90) then c + 32 else c.

(** ** Total correctness *)

Definition returns {A} (o : option A) (Q : A -> Prop) : Prop := exists a, o = Some a /\ Q a.

Lemma returns_ret {A} (a : A) (Q : A -> Prop) : Q a -> returns (Some a) Q.
Proof. intros H. by exists a. Qed.

Lemma returns_bind {A B} (o : option A) (f : A -> option B) (P : A -> Prop) (Q : B -> Prop) :
  returns o P -> (forall a, P a -> returns (f a) Q) -> returns (o ≫= f) Q.
Proof. intros (a & -> & Ha) Hf. cbn. by apply Hf. Qed.

Lemma returns_mono {A} (o : option A) (P Q : A -> Prop) :
  returns o P -> (forall a, P a -> Q a) -> returns o Q.
Proof. intros (a & -> & Ha) HPQ. exists a. auto. Qed.

Lemma returns_rd (m : bytes) i : 0 <= i < len m -> returns (rd m i) (fun v => rd m i = Some v).
Proof. intros H. destruct (rd_is_Some m i H) as [v Hv]. exists v. by rewrite Hv. Qed.

Lemma returns_wr (m : bytes) i v :
  0 <= i < len m -> returns (wr m i v) (fun m' => m' = <[Z.to_nat i := v]> m).
Proof. intros H. rewrite wr_Some by done. by apply returns_ret. Qed.

(** ** Strings *)

Inductive cstr (m : bytes) : Z -> bytes -> Prop :=
| cstr_nul o : rd m o = Some 0 -> cstr m o []
| cstr_char o c t : rd m o = Some c -> c <> 0 -> cstr m (o + 1) t -> cstr m o (c :: t).

(** The string at [o], if there is one. *)
Fixpoint string_at (fuel : nat) (m : bytes) (o : Z) : option bytes :=
  match fuel with
  | O => None
  | S f =>
      c ← rd m o;
      if c =? 0 then Some [] else t ← string_at f m (o + 1); Some (c :: t)
  end.

Lemma string_at_cstr fuel m o t : string_at fuel m o = Some t -> cstr m o t.
Proof.
  revert o t. induction fuel as [|f IH]; intros o t; cbn; [done|].
  destruct (rd m o) as [c|] eqn:Hc; cbn; [|done].
  destruct (Z.eqb_spec c 0) as [->|Hn]; [intros [= <-]; by constructor|].
  destruct (string_at f m (o + 1)) as [t'|] eqn:Ht; cbn; [|done].
  intros [= <-]. constructor; auto.
Qed.

Lemma cstr_bounds m o t : cstr m o t -> 0 <= o /\ o + len t < len m.
Proof.
  induction 1 as [o Hr|o c t Hr _ _ IH]; apply rd_inv in Hr as [Hr _]; cbn [length]; lia.
Qed.

Lemma cstr_nonzero m o t : cstr m o t -> Forall (fun c => c <> 0) t.
Proof. induction 1; constructor; done. Qed.

Lemma cstr_char_inv m o c t :
  cstr m o (c :: t) -> rd m o = Some c /\ c <> 0 /\ cstr m (o + 1) t.
Proof. by inversion 1. Qed.

Lemma cstr_nul_inv m o : cstr m o [] -> rd m o = Some 0.
Proof. by inversion 1. Qed.

(** The first byte of a string. *)
Definition head0 (t : bytes) : Z := match t with [] => 0 | c :: _ => c end.

Lemma cstr_rd m o t : cstr m o t -> rd m o = Some (head0 t).
Proof. by inversion 1. Qed.

(** A suffix of a string, given by what precedes it. *)
Lemma cstr_app m o t1 t2 : cstr m o (t1 ++ t2) -> cstr m (o + len t1) t2.
Proof.
  revert o. induction t1 as [|c t1 IH]; intros o H; cbn in *.
  { by rewrite Z.add_0_r. }
  apply cstr_char_inv in H as (_ & _ & H%IH).
  by replace (o + Z.of_nat (S (length t1))) with (o + 1 + len t1) by lia.
Qed.

Lemma cstr_slice m o t : cstr m o t -> slice m o (len t) = t.
Proof.
  induction 1 as [o Hr|o c t Hr Hc Ht IH]; [by apply slice_nil|].
  apply rd_inv in Hr as [Ho Hr].
  rewrite (slice_cons _ _ _ c) by (cbn [length]; done || lia). f_equal.
  rewrite <- IH at 2. f_equal. cbn [length]. lia.
Qed.

Lemma cstr_intro (a t r : bytes) :
  Forall (fun c => c <> 0) t -> cstr (a ++ t ++ 0 :: r) (len a) t.
Proof.
  intros H. revert a. induction H as [|c t Hc Ht IH]; intros a.
  { constructor. by rewrite rd_app_r, Z.sub_diag by lia. }
  constructor; [by rewrite rd_app_r, Z.sub_diag by lia|done|].
  specialize (IH (a ++ [c])). rewrite <- app_assoc in IH. cbn [app] in IH.
  rewrite length_app in IH. cbn [length] in IH.
  replace (len a + 1) with (Z.of_nat (length a + 1)) by lia. done.
Qed.

Lemma cstr_lit (t : bytes) : Forall (fun c => c <> 0) t -> cstr (t ++ [0]) 0 t.
Proof. apply (cstr_intro [] t []). Qed.

(** ** Bounded copy (net.c:30)

    [while(s&&s[i]&&i+1<cap){d[i]=s[i];i++;}] *)
Fixpoint scopy_loop (fuel : nat) (d : bytes) (cap : Z) (s : bytes) (i : Z) : option (bytes * Z) :=
  match fuel with
  | O => None
  | S f =>
      c ← rd s i;
      if negb (c =? 0) && (i + 1 <? cap) then
        d ← wr d i c;
        scopy_loop f d cap s (i + 1)
      else Some (d, i)
  end.

Definition scopy (d : ptr bytes) (cap : Z) (s : ptr bytes) : option (ptr bytes) :=
  if cap =? 0 then Some d
  else
    match d with
    | Null => None
    | Ptr d =>
        '(d, i) ← match s with
                  | Null => Some (d, 0)
                  | Ptr s => scopy_loop (Z.to_nat cap) d cap s 0
                  end;
        d ← wr d i 0;
        Some (Ptr d)
    end.

(** Bounded append (net.c:150):
    [while(i<cap&&d[i])i++; while(i+1<cap&&s&&*s)d[i++]=*s++; if(i<cap)d[i]=0;] *)
Fixpoint sappend_scan (fuel : nat) (d : bytes) (cap i : Z) : option Z :=
  match fuel with
  | O => None
  | S f =>
      if i <? cap then c ← rd d i; if c =? 0 then Some i else sappend_scan f d cap (i + 1)
      else Some i
  end.

Fixpoint sappend_loop (fuel : nat) (d : bytes) (cap i : Z) (s : bytes) (j : Z)
  : option (bytes * Z) :=
  match fuel with
  | O => None
  | S f =>
      if i + 1 <? cap then
        c ← rd s j;
        if c =? 0 then Some (d, i)
        else d ← wr d i c; sappend_loop f d cap (i + 1) s (j + 1)
      else Some (d, i)
  end.

Definition sappend (d : bytes) (cap : Z) (s : bytes) : option bytes :=
  i ← sappend_scan (S (Z.to_nat cap)) d cap 0;
  '(d, i) ← sappend_loop (S (Z.to_nat cap)) d cap i s 0;
  if i <? cap then wr d i 0 else Some d.

(** What a bounded buffer holds after a copy: as much as fits. *)
Definition fit (cap : Z) (t : bytes) : bytes := take (Z.to_nat (cap - 1)) t.

Lemma scopy_loop_spec fuel d cap s i t :
  cstr s i t -> cap <= len d -> i < cap -> cap - i <= Z.of_nat fuel ->
  scopy_loop fuel d cap s i
  = Some (blit d i (fit (cap - i) t), i + len (fit (cap - i) t)).
Proof.
  revert d i t. induction fuel as [|f IH]; intros d i t Ht Hd Hi Hf; [lia|].
  pose proof (cstr_bounds _ _ _ Ht) as [H0 _]. cbn [scopy_loop].
  rewrite (cstr_rd _ _ _ Ht). cbn [mbind option_bind]. destruct t as [|c t]; cbn [head0].
  { unfold fit. rewrite take_nil, blit_nil. cbn. by rewrite Z.add_0_r. }
  apply cstr_char_inv in Ht as (_ & Hc & Ht).
  replace (c =? 0) with false by (symmetry; by apply Z.eqb_neq). cbn [negb andb].
  destruct (Z.ltb_spec (i + 1) cap) as [Hl|Hl].
  - rewrite wr_Some by lia. cbn [mbind option_bind].
    rewrite (IH _ _ t) by (rewrite ?length_insert; done || lia).
    unfold fit. replace (Z.to_nat (cap - i - 1)) with (S (Z.to_nat (cap - (i + 1) - 1))) by lia.
    cbn [take length]. rewrite blit_cons by lia. do 2 f_equal. lia.
  - unfold fit. replace (Z.to_nat (cap - i - 1)) with 0%nat by lia.
    rewrite take_0, blit_nil. cbn [length]. do 2 f_equal. lia.
Qed.

Lemma blit_push {A} (m : list A) o (v : list A) x :
  0 <= o -> o + len v < len m -> <[Z.to_nat (o + len v) := x]> (blit m o v) = blit m o (v ++ [x]).
Proof.
  intros Ho Hl. unfold blit.
  rewrite insert_app_r_alt by (rewrite length_take; lia). f_equal.
  rewrite length_take.
  replace (Z.to_nat (o + len v) - Nat.min (Z.to_nat o) (length m))%nat with (length v) by lia.
  rewrite insert_app_r_alt, Nat.sub_diag by lia. rewrite <- app_assoc. f_equal.
  rewrite length_app. cbn [length app].
  destruct (lookup_lt_is_Some_2 m (Z.to_nat o + length v)) as [y Hy]; [lia|].
  rewrite (drop_S _ y) by done. cbn. do 2 f_equal. lia.
Qed.

Lemma blit_terminate (d v : bytes) :
  len v < len d -> <[Z.to_nat (len v) := 0]> (blit d 0 v) = blit d 0 (v ++ [0]).
Proof. intros. rewrite <- (Z.add_0_l (len v)). by rewrite blit_push by lia. Qed.

Lemma scopy_spec d cap s t :
  cstr s 0 t -> 0 < cap <= len d ->
  scopy (Ptr d) cap (Ptr s) = Some (Ptr (blit d 0 (fit cap t ++ [0]))).
Proof.
  intros Ht Hc. unfold scopy. if_false.
  rewrite (scopy_loop_spec _ _ _ _ _ t) by (done || lia). cbn [mbind option_bind].
  rewrite Z.sub_0_r, Z.add_0_l. set (v := fit cap t).
  assert (Hv : len v < cap) by (unfold v, fit; rewrite length_take; lia).
  rewrite wr_Some by (rewrite blit_length; lia). cbn [mbind option_bind].
  rewrite <- (Z.add_0_l (len v)). by rewrite blit_push by lia.
Qed.

Lemma fit_nonzero cap t : Forall (fun c => c <> 0) t -> Forall (fun c => c <> 0) (fit cap t).
Proof. apply Forall_take. Qed.

Lemma fit_length cap t : 0 < cap -> len (fit cap t) <= cap - 1.
Proof. intros. unfold fit. rewrite length_take. lia. Qed.

Lemma fit_all cap t : len t < cap -> fit cap t = t.
Proof. intros. unfold fit. apply take_ge. lia. Qed.

Lemma blit_0 {A} (m v : list A) : blit m 0 v = v ++ drop (length v) m.
Proof. unfold blit. by rewrite take_0. Qed.

(** A buffer filled from its start by a string. *)
Lemma cstr_blit d t :
  Forall (fun c => c <> 0) t -> cstr (blit d 0 (t ++ [0])) 0 t.
Proof. intros H. rewrite blit_0, <- app_assoc. by apply (cstr_intro []). Qed.

Lemma sappend_scan_spec fuel d cap i t :
  cstr d i t -> i + len t < cap -> len t < Z.of_nat fuel ->
  sappend_scan fuel d cap i = Some (i + len t).
Proof.
  revert i t. induction fuel as [|f IH]; intros i t Ht Hc Hf; [lia|].
  cbn [sappend_scan]. if_true. rewrite (cstr_rd _ _ _ Ht). cbn [mbind option_bind].
  destruct t as [|c t]; cbn [head0].
  { cbn. by rewrite Z.add_0_r. }
  apply cstr_char_inv in Ht as (_ & Hn & Ht).
  replace (c =? 0) with false by (symmetry; by apply Z.eqb_neq).
  cbn [length] in *. rewrite (IH _ t) by (done || lia). f_equal. lia.
Qed.

Lemma sappend_loop_spec fuel d cap i s j t :
  cstr s j t -> cap <= len d -> 0 <= i < cap -> cap - i <= Z.of_nat fuel ->
  sappend_loop fuel d cap i s j
  = Some (blit d i (fit (cap - i) t), i + len (fit (cap - i) t)).
Proof.
  revert d i j t. induction fuel as [|f IH]; intros d i j t Ht Hd Hi Hf; [lia|].
  cbn [sappend_loop]. destruct (Z.ltb_spec (i + 1) cap) as [Hl|Hl].
  - rewrite (cstr_rd _ _ _ Ht). cbn [mbind option_bind]. destruct t as [|c t]; cbn [head0].
    { unfold fit. rewrite take_nil, blit_nil. cbn. by rewrite Z.add_0_r. }
    apply cstr_char_inv in Ht as (_ & Hc & Ht).
    replace (c =? 0) with false by (symmetry; by apply Z.eqb_neq).
    rewrite wr_Some by lia. cbn [mbind option_bind].
    rewrite (IH _ _ _ t) by (rewrite ?length_insert; done || lia).
    unfold fit. replace (Z.to_nat (cap - i - 1)) with (S (Z.to_nat (cap - (i + 1) - 1))) by lia.
    cbn [take length]. rewrite blit_cons by lia. do 2 f_equal. lia.
  - unfold fit. replace (Z.to_nat (cap - i - 1)) with 0%nat by lia.
    rewrite take_0, blit_nil. cbn [length]. do 2 f_equal. lia.
Qed.

(** Appending to a buffer that holds the string [a] leaves it with as much of
    [a ++ t] as fits. *)
Lemma sappend_spec d cap s a t :
  cstr s 0 t -> Forall (fun c => c <> 0) a -> len a < cap -> cap <= len d ->
  sappend (blit d 0 (a ++ [0])) cap s = Some (blit d 0 (fit cap (a ++ t) ++ [0])).
Proof.
  intros Ht Ha Hl Hc. set (D := blit d 0 (a ++ [0])).
  assert (HD : length D = length d) by (apply blit_length; rewrite ?length_app; cbn; lia).
  unfold sappend. rewrite (sappend_scan_spec _ D cap 0 a) by (by apply cstr_blit || lia).
  cbn [mbind option_bind]. rewrite Z.add_0_l.
  rewrite (sappend_loop_spec _ D cap (len a) s 0 t) by (done || lia). cbn [mbind option_bind].
  set (v := fit (cap - len a) t).
  assert (Hv : len v <= cap - len a - 1) by (apply fit_length; lia).
  if_true. rewrite wr_Some by (rewrite blit_length; lia).
  rewrite blit_push by lia.
  assert (Hfit : fit cap (a ++ t) = a ++ v).
  { unfold v, fit. rewrite take_app_ge by lia. do 2 f_equal. lia. }
  rewrite Hfit. f_equal. unfold D. rewrite !blit_0, <- !app_assoc.
  rewrite blit_app.
  2: { rewrite !length_app, length_drop. cbn [length]. lia. }
  rewrite <- !app_assoc. do 3 f_equal.
  rewrite drop_app_ge by (rewrite length_app; cbn [length]; lia).
  rewrite drop_drop. f_equal. rewrite !length_app. cbn [length]. lia.
Qed.

(** Two pieces laid one after the other. *)
Lemma blit_extend (d v k : bytes) :
  len v + len k <= len d -> blit (blit d 0 v) (len v) k = blit d 0 (v ++ k).
Proof.
  intros H. rewrite (blit_0 d v), blit_app by (rewrite length_drop; lia).
  rewrite drop_drop, blit_0, length_app. done.
Qed.

Lemma fit_app cap (a t : bytes) : 0 < cap -> fit cap (fit cap a ++ t) = fit cap (a ++ t).
Proof.
  intros Hc. unfold fit. destruct (Z.le_gt_cases (len a) (cap - 1)).
  - by rewrite (take_ge a) by lia.
  - rewrite !take_app_le by (rewrite ?length_take; lia). by rewrite take_take, Nat.min_id.
Qed.

Lemma lit_nonzero (l : bytes) : forallb (fun c => negb (c =? 0)) l = true -> Forall (fun c => c <> 0) l.
Proof.
  rewrite forallb_forall, List.Forall_forall. intros H x Hx%H. by bool_prop.
Qed.

(** The literals of the source. *)
Lemma cstr_text (l : bytes) : forallb (fun c => negb (c =? 0)) l = true -> cstr (l ++ [0]) 0 l.
Proof. intros. by apply cstr_lit, lit_nonzero. Qed.

(** ** Status buffers

    A caller's buffer of [cap] bytes, or null. *)

(** A buffer written to is the same buffer. *)
Definition same_object (a b : ptr bytes) : Prop :=
  match a, b with
  | Null, Null => True
  | Ptr x, Ptr y => length x = length y
  | _, _ => False
  end.

Definition status_ok (cap : Z) (st : ptr bytes) : Prop :=
  0 <= cap /\ match st with Ptr s => cap <= len s | Null => cap = 0 end.

Lemma same_object_refl a : same_object a a.
Proof. by destruct a. Qed.

Lemma same_object_trans a b c : same_object a b -> same_object b c -> same_object a c.
Proof. destruct a, b, c; cbn; congruence || tauto. Qed.

Lemma status_ok_same cap a b : same_object a b -> status_ok cap a -> status_ok cap b.
Proof. destruct a, b; cbn; unfold status_ok; try tauto. intros ->. tauto. Qed.

Lemma scopy_status cap st why t :
  cstr why 0 t -> status_ok cap st -> returns (scopy st cap (Ptr why)) (same_object st).
Proof.
  intros Hw [Hc Hs]. unfold scopy. case_if; [exists st; split; [done|apply same_object_refl]|].
  destruct st as [|d]; [lia|].
  pose proof (scopy_spec d cap why t Hw ltac:(lia)) as Hsc. unfold scopy in Hsc.
  replace (cap =? 0) with false in Hsc by (symmetry; by apply Z.eqb_neq).
  rewrite Hsc. eexists. split; [done|]. cbn. pose proof (fit_length cap t ltac:(lia)).
  rewrite blit_length; [done|lia|]. rewrite length_app. cbn [length]. lia.
Qed.
