(* ===== verification/Uri.v ===== *)
(** * References to resources: RFC 3986

    The specification against which the two resolvers of the kernel, the redirects of
    kernel/net.c and the references of kernel/vela.c, are compared: the components of
    a reference (appendix B), the transformation of a reference against a base (5.2.2)
    with the merging of paths (5.2.3) and the removal of dot segments (5.2.4), and the
    recomposition of the result (5.3), in the module Rfc.  Nothing here is taken from the program. *)

From S2P Require Import Prelude Cstr.

(** ** Scanning texts *)

Fixpoint take_while (f : Z -> bool) (t : bytes) : bytes :=
  match t with [] => [] | c :: t' => if f c then c :: take_while f t' else [] end.
Fixpoint drop_while (f : Z -> bool) (t : bytes) : bytes :=
  match t with [] => [] | c :: t' => if f c then drop_while f t' else t end.
Fixpoint prefixb (l t : bytes) : bool :=
  match l, t with
  | [], _ => true
  | x :: l', c :: t' => (c =? x) && prefixb l' t'
  | _, _ => false
  end.

Lemma take_drop_while f t : take_while f t ++ drop_while f t = t.
Proof. induction t as [|c t IH]; cbn; [done|]. destruct (f c); cbn; congruence. Qed.

Lemma take_while_all f t : Forall (fun c => f c = true) (take_while f t).
Proof. induction t as [|c t IH]; cbn; [constructor|]. destruct (f c) eqn:E; by constructor. Qed.

Lemma drop_while_head f t c r : drop_while f t = c :: r -> f c = false.
Proof.
  induction t as [|d t IH]; cbn; [done|]. destruct (f d) eqn:E; [done|]. by intros [= <- <-].
Qed.

Lemma take_while_app f a r :
  Forall (fun c => f c = true) a -> match r with [] => True | c :: _ => f c = false end ->
  take_while f (a ++ r) = a /\ drop_while f (a ++ r) = r.
Proof.
  intros Ha Hr. induction Ha as [|c a Hc _ [IH1 IH2]]; cbn [app take_while drop_while].
  - destruct r as [|c r]; [done|]. cbn. by rewrite Hr.
  - by rewrite Hc, IH1, IH2.
Qed.

Lemma prefixb_app l t : prefixb l t = true -> exists r, t = l ++ r.
Proof.
  revert t. induction l as [|x l IH]; intros t H; [by exists t|]. destruct t as [|c t]; [done|].
  cbn in H. apply andb_prop in H as [->%Z.eqb_eq H]. destruct (IH t H) as [r ->]. by exists r.
Qed.

Module Rfc.

(** ** Components (appendix B) *)

Record uri := mk_uri {
  scheme : option bytes; authority : option bytes; path : bytes; query : option bytes; fragment : option bytes
}.

(** What stands before the first [c], and behind it if there is one. *)
Definition cut (c : Z) (t : bytes) : bytes * option bytes :=
  (take_while (fun x => negb (x =? c)) t,
   match drop_while (fun x => negb (x =? c)) t with [] => None | _ :: r => Some r end).

(** The scheme before a colon that comes before any slash, in a text without
    question mark and hash. *)
Definition cut_scheme (t : bytes) : option bytes * bytes :=
  match take_while (fun x => negb (x =? COLON) && negb (x =? SLASH)) t,
        drop_while (fun x => negb (x =? COLON) && negb (x =? SLASH)) t with
  | x :: s, c :: r => if c =? COLON then (Some (x :: s), r) else (None, t)
  | _, _ => (None, t)
  end.

(** The authority behind two slashes, up to the next one. *)
Definition cut_authority (t : bytes) : option bytes * bytes :=
  if prefixb [SLASH; SLASH] t then
    (Some (take_while (fun x => negb (x =? SLASH)) (drop 2 t)), drop_while (fun x => negb (x =? SLASH)) (drop 2 t))
  else (None, t).

Definition parse (t : bytes) : uri :=
  let '(t, f) := cut HASH t in
  let '(t, q) := cut QUESTION t in
  let '(s, t) := cut_scheme t in
  let '(a, p) := cut_authority t in
  mk_uri s a p q f.

(** ** Recomposition (5.3) *)

Definition opt (pre : bytes) (o : option bytes) (post : bytes) : bytes :=
  match o with Some t => pre ++ t ++ post | None => [] end.
Definition recompose (u : uri) : bytes :=
  opt [] (scheme u) [COLON] ++ opt [SLASH; SLASH] (authority u) [] ++ path u ++
  opt [QUESTION] (query u) [] ++ opt [HASH] (fragment u) [].

(** ** Dot segments (5.2.4) *)

Abbreviation DOT := 46.

(** The output without its last segment and the slash before it. *)
Definition drop_last (out : bytes) : bytes := rev (tail (drop_while (fun c => negb (c =? SLASH)) (rev out))).

(** The loop of 5.2.4; the input gets shorter in every turn. *)
Fixpoint dots_loop (fuel : nat) (input out : bytes) : bytes :=
  match fuel with
  | O => out
  | S k =>
      if prefixb [DOT; DOT; SLASH] input then dots_loop k (drop 3 input) out
      else if prefixb [DOT; SLASH] input then dots_loop k (drop 2 input) out
      else if prefixb [SLASH; DOT; SLASH] input then dots_loop k (drop 2 input) out
      else if bool_decide (input = [SLASH; DOT]) then dots_loop k [SLASH] out
      else if prefixb [SLASH; DOT; DOT; SLASH] input then dots_loop k (drop 3 input) (drop_last out)
      else if bool_decide (input = [SLASH; DOT; DOT]) then dots_loop k [SLASH] (drop_last out)
      else if bool_decide (input = [DOT]) || bool_decide (input = [DOT; DOT]) then out
      else
        match input with
        | [] => out
        | c :: r =>
            let seg := c :: take_while (fun x => negb (x =? SLASH)) r in
            dots_loop k (drop_while (fun x => negb (x =? SLASH)) r) (out ++ seg)
        end
  end.
Definition remove_dot_segments (p : bytes) : bytes := dots_loop (S (length p)) p [].

(** ** Transformation (5.2.2, 5.2.3) *)

(** The path up to its last slash. *)
Definition up_to_slash (p : bytes) : bytes := rev (drop_while (fun c => negb (c =? SLASH)) (rev p)).

Definition merge (base : uri) (p : bytes) : bytes :=
  match authority base, path base with
  | Some _, [] => SLASH :: p
  | _, b => up_to_slash b ++ p
  end.

(** The path of the target before its dot segments are removed. *)
Definition target_path (base r : uri) : bytes :=
  match scheme r, authority r with
  | None, None => if prefixb [SLASH] (path r) then path r else merge base (path r)
  | _, _ => path r
  end.

Definition transform (base r : uri) : uri :=
  match scheme r with
  | Some s => mk_uri (Some s) (authority r) (remove_dot_segments (path r)) (query r) (fragment r)
  | None =>
      match authority r with
      | Some a => mk_uri (scheme base) (Some a) (remove_dot_segments (path r)) (query r) (fragment r)
      | None =>
          if bool_decide (path r = []) then
            mk_uri (scheme base) (authority base) (path base)
              (match query r with Some q => Some q | None => query base end) (fragment r)
          else mk_uri (scheme base) (authority base) (remove_dot_segments (target_path base r)) (query r) (fragment r)
      end
  end.

Definition without_fragment (u : uri) : uri := mk_uri (scheme u) (authority u) (path u) (query u) None.

(** The examples of the standard, 5.4. *)
Definition rfc_example (r : bytes) : bytes := recompose (transform (parse (chars "http://a/b/c/d;p?q")) (parse r)).
Example rfc_examples :
  map rfc_example
    [chars "g:h"; chars "g"; chars "./g"; chars "g/"; chars "/g"; chars "//g"; chars "?y"; chars "g?y";
     chars "#s"; chars "g#s"; chars ";x"; chars "g;x?y#s"; chars ""; chars "."; chars "./"; chars "..";
     chars "../"; chars "../g"; chars "../.."; chars "../../"; chars "../../g"; chars "../../../g"; chars "/./g";
     chars "/../g"; chars "g."; chars "..g"; chars "./../g"; chars "./g/."; chars "g/./h"; chars "g/../h";
     chars "g?y/../x"]
  = [chars "g:h"; chars "http://a/b/c/g"; chars "http://a/b/c/g"; chars "http://a/b/c/g/"; chars "http://a/g";
     chars "http://g"; chars "http://a/b/c/d;p?y"; chars "http://a/b/c/g?y"; chars "http://a/b/c/d;p?q#s";
     chars "http://a/b/c/g#s"; chars "http://a/b/c/;x"; chars "http://a/b/c/g;x?y#s"; chars "http://a/b/c/d;p?q";
     chars "http://a/b/c/"; chars "http://a/b/c/"; chars "http://a/b/"; chars "http://a/b/";
     chars "http://a/b/g"; chars "http://a/"; chars "http://a/"; chars "http://a/g"; chars "http://a/g";
     chars "http://a/g"; chars "http://a/g"; chars "http://a/b/c/g."; chars "http://a/b/c/..g";
     chars "http://a/b/g"; chars "http://a/b/c/g/"; chars "http://a/b/c/g/h"; chars "http://a/b/c/h";
     chars "http://a/b/c/g?y/../x"].
Proof. vm_compute. reflexivity. Qed.

(** ** The parts of a text *)

Lemma cut_app c t : let '(a, o) := cut c t in t = a ++ opt [c] o [].
Proof.
  unfold cut. set (f := fun x => negb (x =? c)). pose proof (take_drop_while f t) as H.
  destruct (drop_while f t) as [|x r] eqn:E; cbn [opt app]; [by rewrite H|].
  apply drop_while_head in E. unfold f in E. apply negb_false_iff, Z.eqb_eq in E as ->. by rewrite app_nil_r.
Qed.

Lemma cut_fst c t a o : cut c t = (a, o) -> Forall (fun x => x <> c) a.
Proof.
  intros [= <- _]. pose proof (take_while_all (fun x => negb (x =? c)) t) as H. rewrite Forall_forall in *.
  intros x Hx. specialize (H x Hx). by apply negb_true_iff, Z.eqb_neq in H.
Qed.

Lemma cut_scheme_app t : let '(o, r) := cut_scheme t in t = opt [] o [COLON] ++ r.
Proof.
  unfold cut_scheme. set (f := fun x => negb (x =? COLON) && negb (x =? SLASH)). pose proof (take_drop_while f t) as H.
  destruct (take_while f t) as [|x s]; [done|]. destruct (drop_while f t) as [|c r]; [done|].
  destruct (Z.eqb_spec c COLON) as [->|]; [|done]. cbn [opt app]. by rewrite <- app_assoc, <- H.
Qed.

Lemma cut_authority_app t : let '(o, r) := cut_authority t in t = opt [SLASH; SLASH] o [] ++ r.
Proof.
  unfold cut_authority. destruct (prefixb [SLASH; SLASH] t) eqn:E; [|done]. apply prefixb_app in E as [r ->].
  cbn [opt]. rewrite app_nil_r, <- app_assoc, take_drop_while. done.
Qed.

(** Nothing is lost: the components of a text are put together to the text. *)
Theorem recompose_parse t : recompose (parse t) = t.
Proof.
  unfold parse. pose proof (cut_app HASH t) as H1. destruct (cut HASH t) as [t1 f].
  pose proof (cut_app QUESTION t1) as H2. destruct (cut QUESTION t1) as [t2 q].
  pose proof (cut_scheme_app t2) as H3. destruct (cut_scheme t2) as [s t3].
  pose proof (cut_authority_app t3) as H4. destruct (cut_authority t3) as [a p].
  unfold recompose. cbn [scheme authority path query fragment]. rewrite H1, H2, H3, H4, <- !app_assoc. done.
Qed.

(** ** Paths without dot segments *)

Fixpoint segments (p : bytes) : list bytes :=
  match p with
  | [] => [[]]
  | c :: r =>
      if c =? SLASH then [] :: segments r
      else match segments r with s :: l => (c :: s) :: l | [] => [[c]] end
  end.

Definition dot_free (p : bytes) : Prop := Forall (fun s => s <> [DOT] /\ s <> [DOT; DOT]) (segments p).
#[export] Instance dot_free_dec p : Decision (dot_free p).
Proof. unfold dot_free. apply _. Defined.

Lemma segments_app s r :
  Forall (fun x => negb (x =? SLASH) = true) s ->
  segments (s ++ r) = match segments r with x :: l => (s ++ x) :: l | [] => [s] end.
Proof.
  intros H. induction H as [|c s Hc _ IH]; cbn [app segments].
  - destruct r as [|c r]; [done|]. cbn [segments]. case_if; [done|]. by destruct (segments r).
  - apply negb_true_iff in Hc as ->. rewrite IH. by destruct (segments r).
Qed.

(** The rest of a path behind its first segment. *)
Lemma dot_free_rest c r :
  dot_free (c :: r) -> dot_free (drop_while (fun x => negb (x =? SLASH)) r).
Proof.
  intros H. set (f := fun x => negb (x =? SLASH)). pose proof (take_drop_while f r) as E.
  pose proof (take_while_all f r) as Ha. destruct (drop_while f r) as [|x r'] eqn:Ed.
  { unfold dot_free. cbn. repeat constructor; done. }
  apply drop_while_head in Ed. unfold f in Ed. apply negb_false_iff, Z.eqb_eq in Ed as ->.
  unfold dot_free in *. cbn [segments] in H |- *. rewrite Z.eqb_refl.
  assert (Hr : Forall (fun s => s <> [DOT] /\ s <> [DOT; DOT]) (segments r')).
  { rewrite <- E in H. rewrite (segments_app _ _ Ha) in H. cbn [segments] in H. rewrite Z.eqb_refl in H.
    destruct (c =? SLASH); by repeat (apply List.Forall_cons_iff in H as [_ H]). }
  by constructor.
Qed.

(** A path that begins like one with dot segments is not free of them. *)
Ltac no_dots Hp :=
  exfalso; unfold dot_free in Hp; cbn [app segments] in Hp;
  repeat (apply List.Forall_cons_iff in Hp as [? Hp]); naive_solver.

Lemma dots_loop_free k p out : dot_free p -> (length p < k)%nat -> dots_loop k p out = out ++ p.
Proof.
  revert p out. induction k as [|k IH]; intros p out Hp Hk; [lia|]. cbn [dots_loop].
  repeat match goal with |- context [prefixb ?l p] =>
    let E := fresh "E" in destruct (prefixb l p) eqn:E; [apply prefixb_app in E as [? ->]; no_dots Hp|] end.
  repeat match goal with |- context [bool_decide (p = ?l)] =>
    let E := fresh "E" in destruct (bool_decide_reflect (p = l)) as [->|E]; [no_dots Hp|] end.
  cbn [orb]. destruct p as [|c r]; [by rewrite app_nil_r|].
  pose proof (take_drop_while (fun x => negb (x =? SLASH)) r) as Er. rewrite IH.
  - rewrite <- app_assoc. cbn [app]. by rewrite Er.
  - by apply (dot_free_rest c).
  - rewrite <- Er in Hk. cbn [length] in Hk. rewrite length_app in Hk. lia.
Qed.

(** Removing dot segments changes nothing where there are none. *)
Theorem remove_dot_segments_free p : dot_free p -> remove_dot_segments p = p.
Proof. intros H. unfold remove_dot_segments. rewrite dots_loop_free by (done || lia). done. Qed.

(** ** Texts in the forms the resolvers distinguish *)

(** A reference with a scheme, and the rest of it behind the colon. *)
Lemma parse_scheme t s : scheme (parse t) = Some s ->
  exists r, t = s ++ COLON :: r /\ s <> [] /\ Forall (fun c => c <> COLON /\ c <> SLASH /\ c <> QUESTION /\ c <> HASH) s /\
    (authority (parse t) <> None <-> prefixb [SLASH; SLASH] r = true).
Proof.
  unfold parse. pose proof (cut_app HASH t) as H1. destruct (cut HASH t) as [t1 f] eqn:C1.
  pose proof (cut_app QUESTION t1) as H2. destruct (cut QUESTION t1) as [t2 q] eqn:C2.
  pose proof (cut_scheme_app t2) as H3.
  pose proof (cut_fst _ _ _ _ C1) as Hhash. pose proof (cut_fst _ _ _ _ C2) as Hq.
  destruct (cut_scheme t2) as [o t3] eqn:C3. destruct (cut_authority t3) as [a p] eqn:C4. cbn [scheme authority].
  intros ->. cbn [opt app] in H3. exists (t3 ++ opt [QUESTION] q [] ++ opt [HASH] f []).
  split; [rewrite H1, H2, H3, <- !app_assoc; done|].
  unfold cut_scheme in C3. destruct (take_while _ t2) as [|x s'] eqn:Et; [done|].
  destruct (drop_while _ t2) as [|c r]; [done|]. destruct (c =? COLON); [|done]. injection C3 as <- ->.
  split; [done|]. split.
  - rewrite H2, H3 in Hhash. rewrite H3 in Hq. rewrite !Forall_app in Hhash. rewrite !Forall_app in Hq.
    destruct Hhash as [[[Hh _] _] _], Hq as [[Hq _] _].
    pose proof (take_while_all (fun x => negb (x =? COLON) && negb (x =? SLASH)) t2) as Ha. rewrite Et in Ha.
    rewrite Forall_forall in *. intros y Hy. specialize (Ha y Hy). specialize (Hh y Hy). specialize (Hq y Hy).
    cbn in Ha. apply andb_prop in Ha as [Ha1%negb_true_iff%Z.eqb_neq Ha2%negb_true_iff%Z.eqb_neq]. done.
  - unfold cut_authority in C4. assert (Hpre : prefixb [SLASH; SLASH] (t3 ++ opt [QUESTION] q [] ++ opt [HASH] f []) = prefixb [SLASH; SLASH] t3).
    { destruct t3 as [|y [|z t3]]; [by destruct q, f|by destruct q, f|done]. }
    rewrite Hpre. destruct (prefixb _ t3); injection C4 as <- <-; by split.
Qed.

Lemma take_while_prefix f a r :
  Forall (fun c => f c = true) a ->
  take_while f (a ++ r) = a ++ take_while f r /\ drop_while f (a ++ r) = drop_while f r.
Proof.
  intros Ha. induction Ha as [|c a Hc _ [IH1 IH2]]; [done|]. cbn [app take_while drop_while]. by rewrite Hc, IH1, IH2.
Qed.

Lemma cut_prefix c a r : Forall (fun x => x <> c) a -> cut c (a ++ r) = (a ++ fst (cut c r), snd (cut c r)).
Proof.
  intros Ha. unfold cut. cbn [fst snd].
  destruct (take_while_prefix (fun x => negb (x =? c)) a r) as [-> ->]; [|done].
  eapply Forall_impl; [|exact Ha]. intros x Hx. by apply negb_true_iff, Z.eqb_neq.
Qed.

(** The characters that end a scheme. *)
Definition scheme_char (c : Z) : Prop := c <> COLON /\ c <> SLASH /\ c <> QUESTION /\ c <> HASH.

Lemma parse_of_scheme s r : s <> [] -> Forall scheme_char s -> scheme (parse (s ++ COLON :: r)) = Some s.
Proof.
  intros Hne Hs. unfold parse.
  change (COLON :: r) with ([COLON] ++ r). rewrite app_assoc.
  assert (Ha : forall c, c = HASH \/ c = QUESTION -> Forall (fun x => x <> c) (s ++ [COLON])).
  { intros c Hc. apply Forall_app_2; [|repeat constructor; destruct Hc as [-> | ->]; done].
    eapply Forall_impl; [|exact Hs]. intros x (_ & _ & H1 & H2). destruct Hc as [-> | ->]; done. }
  rewrite cut_prefix by (apply Ha; by left). cbn [fst snd]. rewrite cut_prefix by (apply Ha; by right). cbn [fst snd].
  set (rest := fst _). assert (Hcut : cut_scheme ((s ++ [COLON]) ++ rest) = (Some s, rest)).
  { rewrite <- app_assoc. unfold cut_scheme.
    destruct (take_while_app (fun x => negb (x =? COLON) && negb (x =? SLASH)) s ([COLON] ++ rest)) as [-> ->].
    - eapply Forall_impl; [|exact Hs]. intros x (H1 & H2 & _). apply andb_true_iff. by rewrite !negb_true_iff, !Z.eqb_neq.
    - done.
    - by destruct s as [|x s]. }
  rewrite Hcut. by destruct (cut_authority rest).
Qed.

Lemma slashes_app t q f : prefixb [SLASH; SLASH] (t ++ opt [QUESTION] q [] ++ opt [HASH] f []) = prefixb [SLASH; SLASH] t.
Proof. destruct t as [|y [|z t]]; [by destruct q, f|by destruct q, f|done]. Qed.

(** References without a scheme: [//] announces an authority, anything else a path. *)
Lemma parse_network t : scheme (parse t) = None -> authority (parse t) <> None <-> prefixb [SLASH; SLASH] t = true.
Proof.
  unfold parse. pose proof (cut_app HASH t) as H1. destruct (cut HASH t) as [t1 f].
  pose proof (cut_app QUESTION t1) as H2. destruct (cut QUESTION t1) as [t2 q].
  pose proof (cut_scheme_app t2) as H3. destruct (cut_scheme t2) as [o t3].
  destruct (cut_authority t3) as [a p] eqn:C4. cbn [scheme authority]. intros ->. cbn [opt app] in H3. subst t3 t1 t.
  rewrite <- app_assoc, slashes_app. unfold cut_authority in C4.
  destruct (prefixb _ t2); injection C4 as <- <-; by split.
Qed.

Lemma parse_path t : scheme (parse t) = None -> authority (parse t) = None -> t <> [] ->
  head0 t <> QUESTION -> head0 t <> HASH -> path (parse t) <> [] /\ head0 (path (parse t)) = head0 t.
Proof.
  intros Hs Ha Hne H1 H2. pose proof (recompose_parse t) as E. unfold recompose in E. rewrite Hs, Ha in E. cbn [opt app] in E.
  destruct (path (parse t)) as [|c p]; [|split; [done|by rewrite <- E]].
  cbn [app] in E. destruct (query (parse t)) as [q|]; [by rewrite <- E in H1|].
  destruct (fragment (parse t)) as [f|]; [by rewrite <- E in H2|]. done.
Qed.

(** ** Targets *)

(** The scheme and the authority of a base, as they are written. *)
Definition site (b : uri) : bytes := opt [] (scheme b) [COLON] ++ opt [SLASH; SLASH] (authority b) [].

Section targets.
Context (b : uri) (t : bytes).
Hypothesis Hfree : dot_free (target_path b (parse t)).
Local Abbreviation target := (recompose (transform b (parse t))).

Lemma target_absolute : scheme (parse t) <> None -> target = t.
Proof.
  intros Hs. pose proof (recompose_parse t) as E. unfold target_path, transform in *.
  destruct (scheme (parse t)) as [s|] eqn:Es; [|done].
  rewrite remove_dot_segments_free by done. etrans; [|exact E]. unfold recompose. cbn [scheme authority path query fragment].
  by rewrite Es.
Qed.

Lemma target_network : scheme (parse t) = None -> authority (parse t) <> None -> target = opt [] (scheme b) [COLON] ++ t.
Proof.
  intros Hs Ha. pose proof (recompose_parse t) as E. unfold target_path, transform in *. rewrite Hs in *.
  destruct (authority (parse t)) as [a|] eqn:Ea; [|done].
  rewrite remove_dot_segments_free by done. etrans; [|by rewrite <- E at 1]. unfold recompose. cbn [scheme authority path query fragment].
  by rewrite Hs, Ea.
Qed.

(** A reference that is a path, with or without a query and a fragment. *)
Lemma target_of_path : scheme (parse t) = None -> authority (parse t) = None -> path (parse t) <> [] ->
  target = site b ++ (if prefixb [SLASH] t then [] else merge b []) ++ t.
Proof.
  intros Hs Ha Hp. pose proof (recompose_parse t) as E. unfold transform. rewrite Hs, Ha, bool_decide_false by done.
  rewrite remove_dot_segments_free by done. unfold recompose in *. rewrite Hs, Ha in E. cbn [opt app] in E.
  cbn [scheme authority path query fragment]. unfold site. rewrite <- !app_assoc. do 2 f_equal.
  assert (Hpre : prefixb [SLASH] t = prefixb [SLASH] (path (parse t))).
  { transitivity (prefixb [SLASH] (path (parse t) ++ opt [QUESTION] (query (parse t)) [] ++ opt [HASH] (fragment (parse t)) [])).
    - by rewrite E.
    - by destruct (path (parse t)). }
  rewrite Hpre. unfold target_path. rewrite Hs, Ha. destruct (prefixb [SLASH] (path (parse t))).
  - by rewrite E.
  - transitivity (merge b [] ++ path (parse t) ++ opt [QUESTION] (query (parse t)) [] ++ opt [HASH] (fragment (parse t)) []).
    + rewrite (app_assoc (merge b [])). f_equal. unfold merge. destruct (authority b), (path b); by rewrite ?app_nil_r.
    + by rewrite E.
Qed.
End targets.

(** ** Schemes, whatever their case *)

Definition begins (l t : bytes) : Prop := map lower_ascii (take (length l) t) = map lower_ascii l.

Lemma lower_fixed c x : lower_ascii c = x -> ~ (97 <= x <= 122) -> c = x.
Proof. unfold lower_ascii. case_if; [|done]. bool_prop. lia. Qed.

Lemma begins_app a b t : begins (a ++ b) t -> begins a t /\ begins b (drop (length a) t).
Proof.
  unfold begins. rewrite length_app, map_app. intros H.
  assert (E : take (length a + length b) t = take (length a) t ++ take (length b) (drop (length a) t)) by by rewrite take_take_drop.
  rewrite E, map_app in H. apply app_inj_1 in H as [H1 H2]; [done|].
  apply (f_equal length) in H. rewrite !length_app, !length_map in H. rewrite !length_map.
  rewrite !length_take in *. rewrite length_drop in H. lia.
Qed.

(** A scheme, in any case, at the beginning of a text. *)
Lemma begins_colon name t :
  name <> [] -> Forall (fun c => scheme_char c /\ ~ (65 <= c <= 90)) name -> begins (name ++ [COLON]) t ->
  exists s r, t = s ++ COLON :: r /\ map lower_ascii s = map lower_ascii name /\ s <> [] /\ Forall scheme_char s.
Proof.
  intros Hne Hn [H1 H2]%begins_app. unfold begins in *. set (s := take (length name) t) in *.
  exists s, (drop (S (length name)) t).
  assert (Et : t = s ++ COLON :: drop (S (length name)) t).
  { rewrite <- (take_drop (length name) t) at 1. fold s. f_equal.
    destruct (drop (length name) t) as [|c r] eqn:Ed; [done|].
    change (map lower_ascii [COLON]) with [COLON] in H2. injection H2 as Hc. apply lower_fixed in Hc as ->; [|lia].
    f_equal. change r with (drop 1 (COLON :: r)). rewrite <- Ed, drop_drop. f_equal. lia. }
  split; [done|]. split; [done|]. split; [intros Es; rewrite Es in H1; by destruct name|].
  rewrite Forall_forall in *. intros c Hcs. apply (in_map lower_ascii) in Hcs. rewrite H1 in Hcs.
  apply in_map_iff in Hcs as (x & Hx & Hin). destruct (Hn x Hin) as [(A1 & A2 & A3 & A4) Hup].
  assert (Hlx : lower_ascii x = x) by (unfold lower_ascii; case_if; [bool_prop; lia|done]). rewrite Hlx in Hx. subst x.
  repeat split; intros ->; done.
Qed.

Lemma begins_scheme name t :
  name <> [] -> Forall (fun c => scheme_char c /\ ~ (65 <= c <= 90)) name ->
  begins (name ++ chars "://") t <->
  exists s, scheme (parse t) = Some s /\ map lower_ascii s = map lower_ascii name /\ authority (parse t) <> None.
Proof.
  intros Hne Hn. split.
  - change (chars "://") with ([COLON] ++ [SLASH; SLASH]). rewrite app_assoc. intros [H1 H2]%begins_app.
    apply begins_colon in H1 as (s & r & -> & Hl & Hsne & Hc); [|done|done].
    pose proof (parse_of_scheme s r Hsne Hc) as Hsch. exists s. split; [done|]. split; [done|].
    apply parse_scheme in Hsch as (r' & E' & _ & _ & Ha). apply app_inv_head in E'. injection E' as <-. apply Ha.
    assert (Hlen : length (name ++ [COLON]) = length (s ++ [COLON])).
    { apply (f_equal length) in Hl. rewrite !length_map in Hl. rewrite !length_app. lia. }
    rewrite Hlen in H2. change (COLON :: r) with ([COLON] ++ r) in H2. rewrite app_assoc, drop_app_length in H2.
    unfold begins in H2. change (map lower_ascii [SLASH; SLASH]) with [SLASH; SLASH] in H2.
    destruct r as [|c1 [|c2 r]]; try done. injection H2 as H2 H3.
    apply lower_fixed in H2 as ->; [|lia]. by apply lower_fixed in H3 as ->; [|lia].
  - intros (s & Hs & Hl & Ha). apply parse_scheme in Hs as (r & -> & _ & _ & Hr). apply Hr in Ha.
    apply prefixb_app in Ha as [r' ->]. unfold begins.
    assert (Hlen : length s = length name) by (apply (f_equal length) in Hl; by rewrite !length_map in Hl).
    rewrite length_app, map_app, <- Hl, <- Hlen. change (length (chars "://")) with 3%nat.
    rewrite take_app, take_ge, map_app by lia. f_equal. by replace (length s + 3 - length s)%nat with 3%nat by lia.
Qed.

(** The authority ends at a slash. *)
Lemma parse_authority t a : authority (parse t) = Some a ->
  Forall (fun c => c <> SLASH) a /\ (path (parse t) = [] \/ head0 (path (parse t)) = SLASH).
Proof.
  unfold parse. destruct (cut HASH t) as [t1 f]. destruct (cut QUESTION t1) as [t2 q]. destruct (cut_scheme t2) as [o t3].
  destruct (cut_authority t3) as [o' p] eqn:C4. cbn [authority path]. intros ->. unfold cut_authority in C4.
  destruct (prefixb _ t3); [|done]. injection C4 as <- <-. split.
  - pose proof (take_while_all (fun x => negb (x =? SLASH)) (drop 2 t3)) as H. rewrite Forall_forall in *.
    intros x Hx. specialize (H x Hx). by apply negb_true_iff, Z.eqb_neq in H.
  - destruct (drop_while _ (drop 2 t3)) as [|c r] eqn:E; [by left|right]. apply drop_while_head in E.
    by apply negb_false_iff, Z.eqb_eq in E.
Qed.

Lemma parse_fragment r : parse (HASH :: r) = mk_uri None None [] None (Some r).
Proof. reflexivity. Qed.

Lemma up_to_slash_app p : exists e, p = up_to_slash p ++ e /\ Forall (fun c => c <> SLASH) e.
Proof.
  unfold up_to_slash. set (f := fun c => negb (c =? SLASH)). exists (rev (take_while f (rev p))). split.
  - rewrite <- rev_app_distr, take_drop_while. by rewrite rev_involutive.
  - apply List.Forall_rev. pose proof (take_while_all f (rev p)) as H. rewrite Forall_forall in *.
    intros x Hx. specialize (H x Hx). by apply negb_true_iff, Z.eqb_neq in H.
Qed.

Lemma up_to_slash_end p : head0 p = SLASH -> exists d, up_to_slash p = d ++ [SLASH].
Proof.
  intros Hh. unfold up_to_slash. destruct (drop_while _ (rev p)) as [|c r] eqn:E.
  - exfalso. pose proof (take_drop_while (fun c => negb (c =? SLASH)) (rev p)) as H. rewrite E, app_nil_r in H.
    pose proof (take_while_all (fun c => negb (c =? SLASH)) (rev p)) as Ha. rewrite H in Ha.
    destruct p as [|x p]; [done|]. cbn in Hh. subst x. cbn [rev] in Ha. apply Forall_app in Ha as [_ Ha].
    by apply List.Forall_inv in Ha.
  - apply drop_while_head in E. apply negb_false_iff, Z.eqb_eq in E as ->. by exists (rev r).
Qed.
End Rfc.
