(* ===== verification/Http.v ===== *)
(** * kernel/net.c: addresses, URLs and HTTP messages

    The text routines of the file (lines 125 and 133-155): dotted addresses,
    the URL parser, the case-insensitive header search, the chunked decoder and
    the resolution of redirects.  A function that can fail returns the code's
    integer result beside the objects it wrote; [None] is an access outside an
    object. *)

From S2P Require Import Prelude Cstr.

(** ** Definitions *)

(** [while( *s>='0'&&*s<='9'){v=v*10+( *s++-'0');n++;if(v>255)return 0;}]; the
    result is [None] when the code returns 0 here. *)
Fixpoint octet_loop (fuel : nat) (s : bytes) (p v n : Z) : option (option (Z * Z * Z)) :=
  match fuel with
  | O => None
  | S f =>
      c ← rd s p;
      if is_digit c then
        let v := v * 10 + (c - 48) in
        if 255 <? v then Some None else octet_loop f s (p + 1) v (n + 1)
      else Some (Some (p, v, n))
  end.

(** [for(int i=0;i<4;i++)]; [k] turns remain. *)
Fixpoint parse_ipv4_loop (k : nat) (s : bytes) (p i : Z) (out : bytes) : option (Z * bytes) :=
  match k with
  | O => c ← rd s p; Some (if c =? 0 then 1 else 0, out)
  | S k' =>
      r ← octet_loop (S (length s)) s p 0 0;
      match r with
      | None => Some (0, out)
      | Some (p, v, n) =>
          if n =? 0 then Some (0, out)
          else
            out ← wr out i (u8 v);
            if i <? 3 then
              c ← rd s p;
              if negb (c =? DOT) then Some (0, out) else parse_ipv4_loop k' s (p + 1) (i + 1) out
            else parse_ipv4_loop k' s p (i + 1) out
      end
  end.

Definition parse_ipv4 (s out : bytes) : option (Z * bytes) := parse_ipv4_loop 4 s 0 0 out.

(** The chain [s[0]=='h'&&s[1]=='t'&&...]. *)
Fixpoint starts (s : bytes) (o : Z) (l : bytes) : option bool :=
  match l with
  | [] => Some true
  | x :: l' => c ← rd s o; if c =? x then starts s (o + 1) l' else Some false
  end.

Record url_parts := mk_url {
  u_host : bytes;
  u_port : Z;
  u_path : bytes;
  u_secure : Z
}.

(** [while( *s&&*s!='/'&&*s!=':'&&*s!='?'&&*s!='#')]; [None] inside when the
    name does not fit. *)
Fixpoint host_loop (fuel : nat) (s : bytes) (p : Z) (host : bytes) (hcap hi : Z)
  : option (option (Z * bytes * Z)) :=
  match fuel with
  | O => None
  | S f =>
      c ← rd s p;
      if negb (c =? 0) && negb (c =? SLASH) && negb (c =? COLON)
         && negb (c =? QUESTION) && negb (c =? HASH) then
        if hcap <=? hi + 1 then Some None
        else host ← wr host hi c; host_loop f s (p + 1) host hcap (hi + 1)
      else Some (Some (p, host, hi))
  end.

Fixpoint port_loop (fuel : nat) (s : bytes) (p v n : Z) : option (option (Z * Z * Z)) :=
  match fuel with
  | O => None
  | S f =>
      c ← rd s p;
      if is_digit c then
        let v := u32 (u32 (v * 10) + (c - 48)) in
        if 65535 <? v then Some None else port_loop f s (p + 1) v (n + 1)
      else Some (Some (p, v, n))
  end.

(** [while( *s&&pi+1<pcap)path[pi++]=*s++;] *)
Fixpoint path_loop (fuel : nat) (s : bytes) (p : Z) (path : bytes) (pcap pi : Z)
  : option (Z * bytes * Z) :=
  match fuel with
  | O => None
  | S f =>
      c ← rd s p;
      if negb (c =? 0) && (pi + 1 <? pcap) then
        path ← wr path pi c; path_loop f s (p + 1) path pcap (pi + 1)
      else Some (p, path, pi)
  end.

(** What follows the host and the port. *)
Definition parse_path (s : bytes) (p : Z) (host : bytes) (port : Z) (path : bytes) (pcap secure : Z)
  : option (Z * url_parts) :=
  c ← rd s p;
  '(p, path, pi) ←
    if c =? 0 then path ← wr path 0 SLASH; Some (p, path, 1)
    else if (c =? QUESTION) || (c =? HASH) then
      path ← wr path 0 SLASH; path_loop (S (length s)) s p path pcap 1
    else path_loop (S (length s)) s p path pcap 0;
  path ← wr path pi 0;
  c ← rd s p;
  Some (if c =? 0 then 1 else 0, mk_url host port path secure).

(** The pointers to the outputs are the addresses of the callers' variables. *)
Definition parse_url (url : ptr bytes) (host : bytes) (hcap port : Z) (path : bytes) (pcap secure : Z)
  : option (Z * url_parts) :=
  match url with
  | Null => Some (0, mk_url host port path secure)
  | Ptr s =>
      if (hcap <? 2) || (pcap <? 2) then Some (0, mk_url host port path secure)
      else
        https ← starts s 0 (chars "https://");
        http ← if (https : bool) then Some false else starts s 0 (chars "http://");
        if negb https && negb http then Some (0, mk_url host port path 0)
        else
          let '(p, secure, port) := if https then (8, 1, 443) else (7, 0, 80) in
          r ← host_loop (S (Z.to_nat hcap)) s p host hcap 0;
          match r with
          | None => Some (0, mk_url host port path secure)
          | Some (p, host, hi) =>
              host ← wr host hi 0;
              if hi =? 0 then Some (0, mk_url host port path secure)
              else
                c ← rd s p;
                if c =? COLON then
                  r ← port_loop (S (length s)) s (p + 1) 0 0;
                  match r with
                  | None => Some (0, mk_url host port path secure)
                  | Some (p, v, n) =>
                      if (n =? 0) || (v =? 0) then Some (0, mk_url host port path secure)
                      else parse_path s p host (u16 v) path pcap secure
                  end
                else parse_path s p host port path pcap secure
          end
  end.

Fixpoint cstrlen (fuel : nat) (m : bytes) (i : Z) : option Z :=
  match fuel with
  | O => None
  | S f => c ← rd m i; if c =? 0 then Some i else cstrlen f m (i + 1)
  end.

(** [while(j<nn&&lower_ascii(s[i+j])==lower_ascii(needle[j]))j++;] *)
Fixpoint match_ci (k : nat) (s : bytes) (i : Z) (needle : bytes) (j : Z) : option Z :=
  match k with
  | O => Some j
  | S k' =>
      a ← rd s (i + j); b ← rd needle j;
      if lower_ascii a =? lower_ascii b then match_ci k' s i needle (j + 1) else Some j
  end.

(** [for(size_t i=0;i+nn<=n;i++)]; [k] turns remain. *)
Fixpoint contains_loop (k : nat) (s : bytes) (i : Z) (needle : bytes) (nn : Z) : option bool :=
  match k with
  | O => Some false
  | S k' =>
      j ← match_ci (Z.to_nat nn) s i needle 0;
      if j =? nn then Some true else contains_loop k' s (i + 1) needle nn
  end.

Definition contains_ci (s : bytes) (n : Z) (needle : bytes) : option bool :=
  nn ← cstrlen (S (length needle)) needle 0;
  if (nn =? 0) || (n <? nn) then Some false
  else contains_loop (Z.to_nat (n - nn + 1)) s 0 needle nn.

Definition hexval (c : Z) : Z :=
  if is_digit c then c - 48
  else
    let c := lower_ascii c in
    if (97 <=? c) && (c <=? 102) then c - 97 + 10 else -1.

(** ** The chunked decoder (lines 136-138)

    [src] is the pointer [m + so]. *)
Section decode.
Context (m : bytes) (so len : Z).

Definition src_at (p : Z) : option Z := rd m (so + p).

(** [src[p]!='\r'&&src[p]!='\n'] *)
Definition eol (c : Z) : bool := (c =? CR) || (c =? LF).

Fixpoint skip_ext (fuel : nat) (p : Z) : option Z :=
  match fuel with
  | O => None
  | S f =>
      if p <? len then c ← src_at p; if eol c then Some p else skip_ext f (p + 1)
      else Some p
  end.

(** The size of a chunk; [None] inside when the decoder returns 0. *)
Fixpoint size_loop (fuel : nat) (p chunk digits : Z) : option (option (Z * Z * Z)) :=
  match fuel with
  | O => None
  | S f =>
      if p <? len then
        c ← src_at p;
        if eol c then Some (Some (p, chunk, digits))
        else if c =? SEMICOLON then
          p ← skip_ext (S (Z.to_nat len)) p; Some (Some (p, chunk, digits))
        else
          let h := hexval c in
          if h <? 0 then Some None
          else
            let chunk := u64 (u64 (chunk * 16) + h) in
            if 0x100000 <? chunk then Some None else size_loop f (p + 1) chunk (digits + 1)
      else Some (Some (p, chunk, digits))
  end.

(** [if(p<len&&src[p]==c)p++;] *)
Definition skip_char (c p : Z) : option Z :=
  if p <? len then x ← src_at p; Some (if x =? c then p + 1 else p) else Some p.

Definition skip_crlf (p : Z) : option Z := p ← skip_char CR p; skip_char LF p.

(** [while(p<len)] *)
Fixpoint decode_loop (fuel : nat) (p o : Z) (out : bytes) (cap : Z) : option (Z * bytes) :=
  match fuel with
  | O => None
  | S f =>
      if p <? len then
        r ← size_loop (S (Z.to_nat len)) p 0 0;
        match r with
        | None => Some (0, out)
        | Some (p, chunk, digits) =>
            if digits =? 0 then Some (0, out)
            else
              p ← skip_crlf p;
              if chunk =? 0 then out ← wr out o 0; Some (o, out)
              else if len - p <? chunk then Some (0, out)
              else
                let room := cap - 1 - o in
                let copy := if chunk <? room then chunk else room in
                out ← if negb (copy =? 0) then copy_from (Z.to_nat copy) out o m (so + p)
                      else Some out;
                p ← skip_crlf (p + chunk);
                decode_loop f p (if negb (copy =? 0) then o + copy else o) out cap
        end
      else out ← wr out o 0; Some (o, out)
  end.

Definition decode_chunked (out : bytes) (cap : Z) : option (Z * bytes) :=
  if cap =? 0 then Some (0, out) else decode_loop (S (Z.to_nat len)) 0 0 out cap.
End decode.

(** ** Response headers (lines 140-149) *)

(** [while(p<n&&stop(raw[p]) == b)p++;] *)
Fixpoint skip_while (fuel : nat) (raw : bytes) (n : Z) (f : Z -> bool) (p : Z) : option Z :=
  match fuel with
  | O => None
  | S k =>
      if p <? n then c ← rd raw p; if f c then skip_while k raw n f (p + 1) else Some p
      else Some p
  end.

Definition skip (raw : bytes) (n : Z) (f : Z -> bool) (p : Z) : option Z :=
  skip_while (S (Z.to_nat n)) raw n f p.

(** [while(p<len&&raw[p]>='0'&&raw[p]<='9'&&n<3)] *)
Fixpoint code_loop (k : nat) (raw : bytes) (len p code n : Z) : option (Z * Z) :=
  match k with
  | O => Some (code, n)
  | S k' =>
      if p <? len then
        c ← rd raw p;
        if is_digit c then code_loop k' raw len (p + 1) (code * 10 + (c - 48)) (n + 1)
        else Some (code, n)
      else Some (code, n)
  end.

Definition http_status_code (raw : bytes) (len : Z) : option Z :=
  p ← skip raw len (fun c => negb (c =? SP)) 0;
  p ← skip raw len (fun c => c =? SP) p;
  '(code, n) ← code_loop 3 raw len p 0 0;
  Some (if n =? 3 then code else 0).

(** [for(size_t j=0;j<n;j++)if(lower_ascii(a[j])!=lower_ascii(b[j]))return 0;] *)
Fixpoint range_eq_loop (k : nat) (a : bytes) (ao : Z) (b : bytes) (j : Z) : option bool :=
  match k with
  | O => Some true
  | S k' =>
      x ← rd a (ao + j); y ← rd b j;
      if negb (lower_ascii x =? lower_ascii y) then Some false else range_eq_loop k' a ao b (j + 1)
  end.

Definition range_eq_ci (a : bytes) (ao n : Z) (b : bytes) : option bool :=
  i ← cstrlen (S (length b)) b 0;
  if negb (i =? n) then Some false else range_eq_loop (Z.to_nat n) a ao b 0.

Definition blank (c : Z) : bool := (c =? SP) || (c =? HT).

(** [while(z>v&&(raw[z-1]==' '||raw[z-1]=='\t'))z--;] *)
Fixpoint trim_end (fuel : nat) (raw : bytes) (v z : Z) : option Z :=
  match fuel with
  | O => None
  | S f =>
      if v <? z then c ← rd raw (z - 1); if blank c then trim_end f raw v (z - 1) else Some z
      else Some z
  end.

(** [while(v<z&&o+1<cap)out[o++]=raw[v++];] *)
Fixpoint value_loop (fuel : nat) (raw : bytes) (v z : Z) (out : bytes) (cap o : Z)
  : option (bytes * Z) :=
  match fuel with
  | O => None
  | S f =>
      if (v <? z) && (o + 1 <? cap) then
        c ← rd raw v; out ← wr out o c; value_loop f raw (v + 1) z out cap (o + 1)
      else Some (out, o)
  end.

(** [while(p<n)]: one header line a turn. *)
Fixpoint header_loop (fuel : nat) (raw : bytes) (n p : Z) (name out : bytes) (cap : Z)
  : option (Z * bytes) :=
  match fuel with
  | O => None
  | S f =>
      if p <? n then
        p ← skip raw n eol p;
        if n <=? p then Some (0, out)
        else
          let a := p in
          p ← skip raw n (fun c => negb (eol c)) p;
          let z := p in
          colon ← skip raw z (fun c => negb (c =? COLON)) a;
          hit ← if colon <? z then range_eq_ci raw a (colon - a) name else Some false;
          if (hit : bool) then
            v ← skip raw z blank (colon + 1);
            z ← trim_end (S (Z.to_nat z)) raw v z;
            '(out, o) ← value_loop (S (Z.to_nat cap)) raw v z out cap 0;
            out ← wr out o 0;
            Some (1, out)
          else header_loop f raw n p name out cap
      else Some (0, out)
  end.

(** [raw] and [out] are arrays of the caller. *)
Definition header_value_ci (raw : bytes) (n : Z) (name out : bytes) (cap : Z) : option (Z * bytes) :=
  if cap =? 0 then Some (0, out)
  else
    out ← wr out 0 0;
    p ← skip raw n (fun c => negb (c =? LF)) 0;
    let p := if p <? n then p + 1 else p in
    header_loop (S (Z.to_nat n)) raw n p name out cap.

(** [for(size_t i=0;s[i];i++)] *)
Fixpoint size_dec_loop (fuel : nat) (s : bytes) (i v : Z) : option (option Z) :=
  match fuel with
  | O => None
  | S f =>
      c ← rd s i;
      if c =? 0 then Some (Some v)
      else if negb (is_digit c) then Some None
      else
        let nv := u64 (u64 (v * 10) + (c - 48)) in
        if (nv <? v) || (0x1000000 <? nv) then Some None else size_dec_loop f s (i + 1) nv
  end.

(** The result is the value stored, or [None] inside for 0. *)
Definition parse_size_dec (s : ptr bytes) : option (option Z) :=
  match s with
  | Null => Some None
  | Ptr s =>
      c ← rd s 0;
      if c =? 0 then Some None else size_dec_loop (S (length s)) s 0 0
  end.

(** ** Redirects (lines 151-155) *)

(** [do{t[n++]='0'+v%10;v/=10;}while(v&&n<limit);]: the digits, last first. *)
Fixpoint dec_rev (limit : nat) (v : Z) : bytes :=
  match limit with
  | O => []
  | S l => (48 + v mod 10) :: (if v / 10 =? 0 then [] else dec_rev l (v / 10))
  end.

Definition append_port (d : bytes) (cap port : Z) : option bytes :=
  sappend d cap (rev (dec_rev 8 port) ++ [0]).

(** [while( *p){if(!*s||lower_ascii( *s++)!=lower_ascii( *p++))return 0;}] *)
Fixpoint starts_ci (s : bytes) (o : Z) (l : bytes) : option bool :=
  match l with
  | [] => Some true
  | x :: l' =>
      c ← rd s o;
      if (c =? 0) || negb (lower_ascii c =? lower_ascii x) then Some false
      else starts_ci s (o + 1) l'
  end.

(** [for(size_t i=0;loc[i]&&loc[i]!='/'&&loc[i]!='?'&&loc[i]!='#';i++)
       if(loc[i]==':')return 0;]: true when the code returns here. *)
Fixpoint scheme_scan (fuel : nat) (loc : bytes) (i : Z) : option bool :=
  match fuel with
  | O => None
  | S f =>
      c ← rd loc i;
      if negb (c =? 0) && negb (c =? SLASH) && negb (c =? QUESTION) && negb (c =? HASH) then
        if c =? COLON then Some true else scheme_scan f loc (i + 1)
      else Some false
  end.

(** [for(size_t i=0;path[i]&&path[i]!='?'&&path[i]!='#';i++)if(path[i]=='/')last=i;] *)
Fixpoint last_slash (fuel : nat) (path : bytes) (i last : Z) : option Z :=
  match fuel with
  | O => None
  | S f =>
      c ← rd path i;
      if negb (c =? 0) && negb (c =? QUESTION) && negb (c =? HASH) then
        last_slash f path (i + 1) (if c =? SLASH then i else last)
      else Some last
  end.

Section redirect.
(** Uninitialised local arrays: [stack n] is one of [n] bytes. *)
Context (stack : Z -> bytes).

(** [scopy] between two arrays. *)
Definition scopy_array (d : bytes) (cap : Z) (s : bytes) : option bytes :=
  r ← scopy (Ptr d) cap (Ptr s); match r with Ptr d => Some d | Null => None end.

(** [for(size_t i=0;i<n;i++)dir[i]=path[i]; dir[n]=0;
    if(!dir[0])scopy(dir,sizeof(dir),"/");] *)
Definition directory (path : bytes) : option bytes :=
  last ← last_slash (S (length path)) path 0 0;
  let n := last + 1 in
  let n := if 160 <=? n then 159 else n in
  dir ← copy_from (Z.to_nat n) (stack 160) 0 path 0;
  dir ← wr dir n 0;
  c ← rd dir 0;
  if c =? 0 then scopy_array dir 160 (lit "/") else Some dir.

(** [scheme://host[:port]] of the base. *)
Definition authority (u : url_parts) (out : bytes) (cap : Z) : option bytes :=
  let base_secure := negb (u_secure u =? 0) in
  out ← scopy_array out cap (if base_secure then lit "https://" else lit "http://");
  out ← sappend out cap (u_host u);
  let def := if base_secure then 443 else 80 in
  if negb (u_port u =? def) then
    out ← sappend out cap (lit ":"); append_port out cap (u_port u)
  else Some out.

Definition resolve_redirect (base loc : ptr bytes) (out : bytes) (cap : Z) : option (Z * bytes) :=
  match base, loc with
  | Ptr base, Ptr loc =>
      c ← rd loc 0;
      if (c =? 0) || (cap <? 9) then Some (0, out)
      else
        '(ok, u) ← parse_url (Ptr base) (stack 96) 96 0 (stack 160) 160 0;
        if ok =? 0 then Some (0, out)
        else
          let base_secure := negb (u_secure u =? 0) in
          https ← starts_ci loc 0 (chars "https://");
          if (https : bool) then out ← scopy_array out cap loc; Some (1, out)
          else
            http ← starts_ci loc 0 (chars "http://");
            if (http : bool) then
              if base_secure then Some (-1, out)
              else out ← scopy_array out cap loc; Some (1, out)
            else
              slashes ← starts loc 0 [SLASH; SLASH];
              if (slashes : bool) then
                out ← scopy_array out cap (if base_secure then lit "https:" else lit "http:");
                out ← sappend out cap loc;
                Some (1, out)
              else
                scheme ← scheme_scan (S (length loc)) loc 0;
                if (scheme : bool) then Some (0, out)
                else
                  out ← authority u out cap;
                  c ← rd loc 0;
                  if c =? SLASH then out ← sappend out cap loc; Some (1, out)
                  else
                    dir ← directory (u_path u);
                    out ← sappend out cap dir;
                    out ← sappend out cap loc;
                    Some (1, out)
  | _, _ => Some (0, out)
  end.

Definition redirect_code (c : Z) : bool :=
  (c =? 301) || (c =? 302) || (c =? 303) || (c =? 307) || (c =? 308).
End redirect.
