(* ===== verification/HttpUrl.v ===== *)
(** * kernel/net.c: URLs and redirects are parsed right

    [parse_url] and [resolve_redirect] against reference definitions on lists of
    characters, and the rule that a redirect never leaves HTTPS. *)

From S2P Require Import Prelude Cstr Uri Http.

(** ** Scanning strings *)

Fixpoint prefix_ci (l t : bytes) : bool :=
  match l, t with
  | [], _ => true
  | x :: l', c :: t' => (lower_ascii c =? lower_ascii x) && prefix_ci l' t'
  | _, _ => false
  end.

Lemma cstr_drop_while m p t f :
  cstr m p t -> cstr m (p + len (take_while f t)) (drop_while f t).
Proof. intros H. apply cstr_app. by rewrite take_drop_while. Qed.

Lemma starts_spec s o t l :
  cstr s o t -> Forall (fun c => c <> 0) l -> starts s o l = Some (prefixb l t).
Proof.
  intros Ht Hl. revert o t Ht. induction Hl as [|x l Hx Hl IH]; intros o t Ht; [done|].
  cbn [starts prefixb]. rewrite (cstr_rd _ _ _ Ht). cbn [mbind option_bind].
  destruct t as [|c t]; cbn [head0]; [if_false; done|].
  apply cstr_char_inv in Ht as (_ & _ & Ht). destruct (c =? x); [by apply IH|done].
Qed.

Lemma starts_ci_spec s o t l :
  cstr s o t -> Forall (fun c => c <> 0) l -> starts_ci s o l = Some (prefix_ci l t).
Proof.
  intros Ht Hl. revert o t Ht. induction Hl as [|x l Hx Hl IH]; intros o t Ht; [done|].
  cbn [starts_ci prefix_ci]. rewrite (cstr_rd _ _ _ Ht). cbn [mbind option_bind].
  destruct t as [|c t]; cbn [head0]; [done|].
  apply cstr_char_inv in Ht as (_ & Hc & Ht).
  replace (c =? 0) with false by (symmetry; by apply Z.eqb_neq). cbn [orb].
  destruct (lower_ascii c =? lower_ascii x); cbn [negb andb]; [by apply IH|done].
Qed.

Lemma cstr_skip m o t n :
  cstr m o t -> 0 <= n <= len t -> cstr m (o + n) (drop (Z.to_nat n) t).
Proof.
  intros H Hn. rewrite <- (take_drop (Z.to_nat n) t) in H. apply cstr_app in H.
  rewrite length_take in H. by replace (Z.of_nat _) with n in H by lia.
Qed.

Lemma prefixb_length l t : prefixb l t = true -> len l <= len t.
Proof.
  revert t. induction l as [|x l IH]; intros [|c t]; cbn; intros H; [lia|lia|done|].
  bool_prop. apply IH in H0. lia.
Qed.

(** Forms of the lists of the literals. *)
(** ** The URL *)

Definition host_char (c : Z) : bool :=
  negb (c =? SLASH) && negb (c =? COLON) && negb (c =? QUESTION) && negb (c =? HASH).

Definition dec_num (v : Z) (ds : bytes) : Z := fold_left (fun v c => v * 10 + (c - 48)) ds v.

(** The components of a URL as the client understands it. *)
Definition url_scheme (t : bytes) : option (Z * Z * bytes) :=
  if prefixb (chars "https://") t then Some (1, 443, drop 8 t)
  else if prefixb (chars "http://") t then Some (0, 80, drop 7 t)
  else None.

Definition url_port (def : Z) (r : bytes) : option (Z * bytes) :=
  match r with
  | c :: r' =>
      if c =? COLON then
        let ds := take_while is_digit r' in
        if bool_decide (ds = []) || (dec_num 0 ds =? 0) || (65535 <? dec_num 0 ds) then None
        else Some (dec_num 0 ds, drop_while is_digit r')
      else Some (def, r)
  | [] => Some (def, r)
  end.

Definition url_path (r : bytes) : bytes :=
  match r with
  | [] => [SLASH]
  | c :: _ => if (c =? QUESTION) || (c =? HASH) then SLASH :: r else r
  end.

Record url := mk_parsed { secure : Z; port : Z; host : bytes; path : bytes }.

Definition url_ref (hcap pcap : Z) (t : bytes) : option url :=
  '(sec, def, r) ← url_scheme t;
  let h := take_while host_char r in
  if (hcap <=? len h) || bool_decide (h = []) then None
  else
    '(p, r) ← url_port def (drop_while host_char r);
    if pcap <=? len (url_path r) then None else Some (mk_parsed sec p h (url_path r)).

Lemma host_loop_spec fuel s p t d cap acc :
  cstr s p t -> len acc < cap <= len d -> cap - len acc <= Z.of_nat fuel ->
  let h := take_while host_char t in
  host_loop fuel s p (blit d 0 acc) cap (len acc)
  = Some (if cap <=? len acc + len h then None
          else Some (p + len h, blit d 0 (acc ++ h), len acc + len h)).
Proof.
  revert p t acc. induction fuel as [|f IH]; intros p t acc Ht Hc Hf; [lia|].
  cbn [host_loop]. rewrite (cstr_rd _ _ _ Ht). cbn [mbind option_bind].
  destruct t as [|c t]; cbn [head0 take_while].
  { cbn [length]. rewrite app_nil_r, !Z.add_0_r. if_false. done. }
  apply cstr_char_inv in Ht as (_ & Hn & Ht).
  replace (c =? 0) with false by (symmetry; by apply Z.eqb_neq). cbn [negb andb].
  fold (host_char c).
  change (negb (c =? SLASH) && negb (c =? COLON) && negb (c =? QUESTION) && negb (c =? HASH))
    with (host_char c).
  destruct (host_char c); cbn [length].
  2: { rewrite app_nil_r, !Z.add_0_r. if_false. done. }
  destruct (Z.leb_spec cap (len acc + 1)) as [Hl|Hl].
  { replace (cap <=? _) with true; [done|]. symmetry. apply Z.leb_le. lia. }
  rewrite wr_Some by (rewrite blit_length; lia). cbn [mbind option_bind].
  rewrite <- (Z.add_0_l (len acc)) at 1. rewrite blit_push by lia.
  specialize (IH (p + 1) t (acc ++ [c]) Ht). rewrite length_app in IH. cbn [length] in IH.
  replace (Z.of_nat (length acc + 1)) with (len acc + 1) in IH by lia.
  rewrite IH by lia. rewrite <- app_assoc. cbn [app].
  replace (len acc + 1 + len (take_while host_char t))
    with (len acc + Z.of_nat (S (length (take_while host_char t)))) by lia.
  case_if; [done|]. do 4 f_equal. lia.
Qed.

Lemma dec_num_ge v ds : 0 <= v -> Forall (fun c => is_digit c = true) ds -> v <= dec_num v ds.
Proof.
  intros Hv H. revert v Hv. induction H as [|c ds Hc Hds IH]; intros v Hv; [done|].
  cbn. unfold is_digit in Hc. bool_prop. etrans; [|apply IH]; lia.
Qed.

Lemma port_loop_spec fuel s p t v n :
  cstr s p t -> 0 <= v <= 65535 -> (length t < fuel)%nat ->
  let ds := take_while is_digit t in
  port_loop fuel s p v n
  = Some (if 65535 <? dec_num v ds then None else Some (p + len ds, dec_num v ds, n + len ds)).
Proof.
  revert p t v n. induction fuel as [|f IH]; intros p t v n Ht Hv Hf; [lia|].
  cbn [port_loop]. rewrite (cstr_rd _ _ _ Ht). cbn [mbind option_bind].
  destruct t as [|c t]; cbn [head0 take_while].
  { cbn. rewrite !Z.add_0_r. if_false. done. }
  apply cstr_char_inv in Ht as (_ & Hn & Ht).
  destruct (is_digit c) eqn:Hd.
  2: { cbn. rewrite !Z.add_0_r. if_false. done. }
  pose proof Hd as Hd'. unfold is_digit in Hd'. bool_prop.
  rewrite (u32_id (v * 10)), u32_id by lia.
  change (dec_num v (c :: take_while is_digit t))
    with (dec_num (v * 10 + (c - 48)) (take_while is_digit t)).
  destruct (Z.ltb_spec 65535 (v * 10 + (c - 48))) as [Hb|Hb].
  - pose proof (dec_num_ge (v * 10 + (c - 48)) _ ltac:(lia) (take_while_all is_digit t)).
    if_true. done.
  - cbn [length] in *. rewrite (IH _ t) by (done || lia). case_if; [done|].
    do 2 f_equal. f_equal; [f_equal|]; lia.
Qed.

Lemma path_loop_spec fuel s p t d cap i :
  cstr s p t -> 0 <= i < cap -> cap <= len d -> (length t < fuel)%nat ->
  let k := fit (cap - i) t in
  path_loop fuel s p d cap i = Some (p + len k, blit d i k, i + len k).
Proof.
  revert p t d i. induction fuel as [|f IH]; intros p t d i Ht Hi Hd Hf; [lia|].
  cbn [path_loop]. rewrite (cstr_rd _ _ _ Ht). cbn [mbind option_bind].
  destruct t as [|c t]; cbn [head0].
  { unfold fit. rewrite take_nil, blit_nil. cbn. by rewrite !Z.add_0_r. }
  apply cstr_char_inv in Ht as (_ & Hn & Ht). cbn [length] in Hf.
  replace (c =? 0) with false by (symmetry; by apply Z.eqb_neq). cbn [negb andb].
  unfold fit. destruct (Z.ltb_spec (i + 1) cap) as [Hl|Hl].
  - rewrite wr_Some by lia. cbn [mbind option_bind].
    rewrite (IH _ t) by (rewrite ?length_insert; done || lia). unfold fit.
    replace (Z.to_nat (cap - i - 1)) with (S (Z.to_nat (cap - (i + 1) - 1))) by lia.
    cbn [take length]. rewrite blit_cons by lia. do 2 f_equal; [f_equal|]; lia.
  - replace (Z.to_nat (cap - i - 1)) with 0%nat by lia. rewrite take_0, blit_nil. cbn [length].
    by rewrite !Z.add_0_r.
Qed.

(** The copy and what it leaves behind. *)
Lemma path_loop_rest s p r d cap i :
  cstr s p r -> 0 <= i < cap -> cap <= len d ->
  let k := fit (cap - i) r in let rest := drop (length k) r in
  cstr s (p + len k) rest /\ (rest = [] <-> len r + i < cap) /\
  path_loop (S (length s)) s p d cap i = Some (p + len k, blit d i k, i + len k).
Proof.
  intros Hr Hi Hd k rest. pose proof (cstr_bounds _ _ _ Hr) as [Hp Hb].
  assert (Hk : len k = Z.min (cap - i - 1) (len r)) by (unfold k, fit; rewrite length_take; lia).
  split; [|split].
  - pose proof (cstr_skip s p r (len k) Hr ltac:(lia)) as H. by rewrite Nat2Z.id in H.
  - unfold rest. split; intros H.
    + apply (f_equal length) in H. rewrite length_drop in H. cbn [length] in H. lia.
    + apply drop_ge. lia.
  - apply path_loop_spec; (done || lia).
Qed.

(** The branches of [parse_path]: the buffer holds what fits of the path, and the
    end of the string is reached when all of it does. *)
Lemma parse_path_copy s p r d cap :
  cstr s p r -> 2 <= cap <= len d ->
  let w := url_path r in
  exists q rest, cstr s q rest /\ (rest = [] <-> len w < cap) /\
    (if head0 r =? 0 then path ← wr d 0 SLASH; Some (p, path, 1)
     else if (head0 r =? QUESTION) || (head0 r =? HASH) then
       path ← wr d 0 SLASH; path_loop (S (length s)) s p path cap 1
     else path_loop (S (length s)) s p d cap 0)
    = Some (q, blit d 0 (fit cap w), len (fit cap w)).
Proof.
  intros Hr Hc w. destruct r as [|c r]; cbn [head0].
  { exists p, []. split; [done|]. split; [split; [cbn; lia|done]|].
    cbn [Z.eqb]. rewrite wr_Some by lia. cbn [mbind option_bind].
    rewrite fit_all by (cbn; lia). unfold w, url_path. by rewrite blit_cons, blit_nil by lia. }
  pose proof (cstr_char_inv _ _ _ _ Hr) as (_ & Hn & _).
  replace (c =? 0) with false by (symmetry; by apply Z.eqb_neq).
  unfold w, url_path. destruct ((c =? QUESTION) || (c =? HASH)).
  - destruct (path_loop_rest s p (c :: r) (<[Z.to_nat 0 := SLASH]> d) cap 1)
      as (H1 & H2 & H3); [done|lia|rewrite length_insert; lia|].
    eexists _, _. split; [exact H1|]. split; [rewrite H2; cbn [length]; lia|].
    rewrite wr_Some by lia. cbn [mbind option_bind]. rewrite H3.
    assert (Hf : fit cap (SLASH :: c :: r) = SLASH :: fit (cap - 1) (c :: r)).
    { unfold fit. by replace (Z.to_nat (cap - 1)) with (S (Z.to_nat (cap - 1 - 1))) by lia. }
    rewrite Hf, blit_cons by lia. do 2 f_equal. cbn [length]. lia.
  - destruct (path_loop_rest s p (c :: r) d cap 0) as (H1 & H2 & H3); [done|lia..|].
    eexists _, _. split; [exact H1|]. split; [rewrite H2; lia|]. rewrite H3.
    by rewrite Z.sub_0_r.
Qed.

Lemma parse_path_spec s p r hostb port pathb pcap sec :
  cstr s p r -> 2 <= pcap <= len pathb ->
  parse_path s p hostb port pathb pcap sec
  = Some (if pcap <=? len (url_path r) then 0 else 1,
          mk_url hostb port (blit pathb 0 (fit pcap (url_path r) ++ [0])) sec).
Proof.
  intros Hr Hc. unfold parse_path. rewrite (cstr_rd _ _ _ Hr). cbn [mbind option_bind].
  destruct (parse_path_copy _ _ _ _ _ Hr Hc) as (q & rest & Hrest & Hfits & ->).
  cbn [mbind option_bind]. set (w := url_path r) in *.
  pose proof (fit_length pcap w ltac:(lia)).
  rewrite wr_Some by (rewrite blit_length; lia). cbn [mbind option_bind].
  rewrite (cstr_rd _ _ _ Hrest). cbn [mbind option_bind].
  rewrite <- (Z.add_0_l (len (fit pcap w))), blit_push by lia.
  destruct rest as [|x rest]; cbn [head0].
  - destruct Hfits as [Hf _]. specialize (Hf eq_refl). if_false. done.
  - apply cstr_char_inv in Hrest as (_ & Hx & _).
    replace (x =? 0) with false by (symmetry; by apply Z.eqb_neq).
    destruct (Z.leb_spec pcap (len w)) as [|Hl]; [done|]. by apply Hfits in Hl.
Qed.

(** The end of the parser, from the host on. *)
Definition parse_rest (hcap pcap sec def : Z) (r : bytes) : option url :=
  let h := take_while host_char r in
  if (hcap <=? len h) || bool_decide (h = []) then None
  else
    '(p, r) ← url_port def (drop_while host_char r);
    if pcap <=? len (url_path r) then None else Some (mk_parsed sec p h (url_path r)).

(** What [parse_url] stores for the parsed URL [u]. *)
Definition stored (hostb pathb : bytes) (u : url) : url_parts :=
  mk_url (blit hostb 0 (host u ++ [0])) (port u) (blit pathb 0 (path u ++ [0])) (secure u).

(** The code's result agrees with the reference. *)
Definition agrees (hostb pathb : bytes) (ref : option url) (r : option (Z * url_parts)) : Prop :=
  match ref with
  | Some u => r = Some (1, stored hostb pathb u)
  | None => exists v, r = Some (0, v)
  end.

Lemma parse_path_agrees s p r hostb h port pathb pcap sec :
  cstr s p r -> 2 <= pcap <= len pathb ->
  agrees hostb pathb
    (if pcap <=? len (url_path r) then None else Some (mk_parsed sec port h (url_path r)))
    (parse_path s p (blit hostb 0 (h ++ [0])) port pathb pcap sec).
Proof.
  intros Hr Hc. rewrite (parse_path_spec _ _ r) by done.
  case_if; [by eexists|]. cbn [agrees]. unfold stored. cbn [Http.u_host].
  by rewrite fit_all by lia.
Qed.

Lemma parse_rest_agrees s p r hostb hcap pathb pcap sec def :
  cstr s p r -> 2 <= hcap <= len hostb -> 2 <= pcap <= len pathb ->
  agrees hostb pathb (parse_rest hcap pcap sec def r)
    (r ← host_loop (S (Z.to_nat hcap)) s p hostb hcap 0;
     match r with
     | None => Some (0, mk_url hostb def pathb sec)
     | Some (p, host, hi) =>
         host ← wr host hi 0;
         if hi =? 0 then Some (0, mk_url host def pathb sec)
         else
           c ← rd s p;
           if c =? COLON then
             r ← port_loop (S (length s)) s (p + 1) 0 0;
             match r with
             | None => Some (0, mk_url host def pathb sec)
             | Some (p, v, n) =>
                 if (n =? 0) || (v =? 0) then Some (0, mk_url host def pathb sec)
                 else parse_path s p host (u16 v) pathb pcap sec
             end
           else parse_path s p host def pathb pcap sec
     end).
Proof.
  intros Hr Hh Hp. unfold parse_rest. set (h := take_while host_char r).
  pose proof (host_loop_spec (S (Z.to_nat hcap)) s p r hostb hcap [] Hr) as Hl.
  change (len []) with 0 in Hl. rewrite blit_nil in Hl. rewrite Hl by lia. fold h. rewrite Z.add_0_l.
  cbn [mbind option_bind app]. clear Hl.
  destruct (Z.leb_spec hcap (len h)) as [Hf|Hf]; cbn [orb]; [by eexists|].
  rewrite wr_Some by (rewrite blit_length; lia). cbn [mbind option_bind].
  rewrite blit_terminate by lia.
  assert (He : bool_decide (h = []) = (len h =? 0)).
  { destruct h; [done|]. cbn [length]. symmetry. apply Z.eqb_neq. lia. }
  rewrite He. destruct (Z.eqb_spec (len h) 0) as [H0|H0]; [by eexists|].
  pose proof (cstr_drop_while s p r host_char Hr) as Hd. fold h in Hd.
  clearbody h. remember (drop_while host_char r) as q eqn:Eq0. clear Eq0.
  rewrite (cstr_rd _ _ _ Hd). cbn [mbind option_bind].
  destruct q as [|c q]; cbn [head0 url_port].
  { by apply parse_path_agrees. }
  destruct (Z.eqb_spec c COLON) as [->|Hc]; [|by apply parse_path_agrees].
  apply cstr_char_inv in Hd as (_ & _ & Hd).
  pose proof (cstr_bounds _ _ _ Hd) as [? Hb].
  rewrite (port_loop_spec _ _ _ q) by (done || lia). cbn [mbind option_bind].
  set (ds := take_while is_digit q).
  pose proof (dec_num_ge 0 ds ltac:(lia) (take_while_all is_digit q)).
  assert (Hd0 : bool_decide (ds = []) = (len ds =? 0)).
  { destruct ds; [done|]. cbn [length]. symmetry. apply Z.eqb_neq. lia. }
  rewrite Hd0, Z.add_0_l. destruct (Z.ltb_spec 65535 (dec_num 0 ds)) as [|Hv].
  { rewrite orb_true_r. by eexists. }
  rewrite orb_false_r.
  destruct ((len ds =? 0) || (dec_num 0 ds =? 0)); [by eexists|]. cbn [mbind option_bind].
  rewrite u16_id by lia. apply parse_path_agrees; [|done]. by apply cstr_drop_while.
Qed.

Lemma parse_url_agrees s t hostb hcap port0 pathb pcap sec0 :
  cstr s 0 t -> 2 <= hcap <= len hostb -> 2 <= pcap <= len pathb ->
  agrees hostb pathb (url_ref hcap pcap t)
    (parse_url (Ptr s) hostb hcap port0 pathb pcap sec0).
Proof.
  intros Ht Hh Hp. unfold parse_url.
  replace ((hcap <? 2) || (pcap <? 2)) with false
    by (symmetry; apply orb_false_intro; apply Z.ltb_ge; lia).
  rewrite !(starts_spec s 0 t) by (done || by apply lit_nonzero). cbn [mbind option_bind].
  unfold url_ref, url_scheme.
  destruct (prefixb (chars "https://") t) eqn:E1; [|destruct (prefixb (chars "http://") t) eqn:E2];
    cbn [mbind option_bind negb andb]; [..|by eexists].
  - apply prefixb_length in E1. apply parse_rest_agrees; try done.
    apply (cstr_skip s 0 t 8 Ht). cbn in E1. lia.
  - apply prefixb_length in E2. apply parse_rest_agrees; try done.
    apply (cstr_skip s 0 t 7 Ht). cbn in E2. lia.
Qed.

(** ** Redirects *)

Inductive redirect :=
| Target (t : bytes)
| Downgrade
| Unsupported.

(** The directory of a path: up to its last slash, before any query. *)
Definition before_query (c : Z) : bool := negb (c =? QUESTION) && negb (c =? HASH).
Definition dir_ref (p : bytes) : bytes :=
  let pre := take_while before_query p in
  if existsb (fun c => c =? SLASH) pre then rev (drop_while (fun c => negb (c =? SLASH)) (rev pre))
  else take 1 p.

Definition scheme_name (u : url) : bytes := if secure u =? 0 then chars "http" else chars "https".
Definition origin (u : url) : bytes :=
  scheme_name u ++ chars "://" ++ host u ++
  (if port u =? (if secure u =? 0 then 80 else 443) then [] else chars ":" ++ rev (dec_rev 8 (port u))).

(** What the code computes, on texts. *)
Definition resolve_ref (base loc : bytes) : redirect :=
  match loc, url_ref 96 160 base with
  | [], _ | _, None => Unsupported
  | _, Some u =>
      if prefix_ci (chars "https://") loc then Target loc
      else if prefix_ci (chars "http://") loc then
        if secure u =? 0 then Target loc else Downgrade
      else if prefixb (chars "//") loc then Target (scheme_name u ++ chars ":" ++ loc)
      else if existsb (fun c => c =? COLON)
                (take_while (fun c => negb (c =? SLASH) && before_query c) loc) then Unsupported
      else if prefixb (chars "/") loc then Target (origin u ++ loc)
      else Target (origin u ++ dir_ref (path u) ++ loc)
  end.

Lemma Forall_drop_while (P : Z -> Prop) f t : Forall P t -> Forall P (drop_while f t).
Proof. induction 1 as [|c t Hc Ht IH]; cbn; [done|]. destruct (f c); [done|by constructor]. Qed.
Lemma Forall_take_while (P : Z -> Prop) f t : Forall P t -> Forall P (take_while f t).
Proof. induction 1 as [|c t Hc Ht IH]; cbn; [done|]. destruct (f c); [by constructor|done]. Qed.

Abbreviation nonzero := (Forall (fun c : Z => c <> 0)).

(** What a parsed URL satisfies. *)
Definition url_ok (pcap : Z) (u : url) : Prop :=
  (secure u = 0 \/ secure u = 1) /\ nonzero (host u) /\ nonzero (path u) /\ path u <> [] /\
  len (path u) < pcap /\ 0 <= port u <= 65535.

Lemma url_ref_ok hcap pcap t u : nonzero t -> url_ref hcap pcap t = Some u -> url_ok pcap u.
Proof.
  intros Ht. unfold url_ref.
  assert (Hs : forall s d r, url_scheme t = Some (s, d, r) ->
    (s = 0 \/ s = 1) /\ 0 <= d <= 65535 /\ nonzero r).
  { intros s d r. unfold url_scheme. repeat case_if; intros [= <- <- <-];
      (split; [lia|split; [lia|by apply Forall_drop]]). }
  destruct (url_scheme t) as [[[s d] r]|]; cbn [mbind option_bind]; [|done].
  destruct (Hs _ _ _ eq_refl) as (Hs01 & Hd & Hr). clear Hs.
  case_if; [done|].
  assert (Hp : forall p r', url_port d (drop_while host_char r) = Some (p, r') ->
    0 <= p <= 65535 /\ nonzero r').
  { intros p r'. pose proof (Forall_drop_while _ host_char _ Hr) as Hq. unfold url_port.
    destruct Hq as [|c q Hc Hq]; [by intros [= <- <-]|].
    case_if; [|by intros [= <- <-]; split; [|constructor]].
    pose proof (dec_num_ge 0 _ ltac:(lia) (take_while_all is_digit q)).
    case_if; [done|]. intros [= <- <-]. split; [lia|by apply Forall_drop_while]. }
  destruct (url_port d _) as [[p r']|]; cbn [mbind option_bind]; [|done].
  destruct (Hp _ _ eq_refl) as [Hp1 Hr']. case_if; [done|]. intros [= <-].
  split; [done|]. cbn [host path port]. split; [by apply Forall_take_while|].
  unfold url_path in *. destruct r' as [|c r']; [repeat split; auto; try lia; by repeat constructor|].
  case_if; repeat split; auto; try done; try lia; by constructor.
Qed.

Lemma scopy_array_spec d cap s t :
  cstr s 0 t -> 0 < cap <= len d -> scopy_array d cap s = Some (blit d 0 (fit cap t ++ [0])).
Proof. intros Ht Hc. unfold scopy_array. by rewrite (scopy_spec _ _ _ t). Qed.

Lemma sappend_fit d cap s a t :
  cstr s 0 t -> nonzero a -> 0 < cap <= len d ->
  sappend (blit d 0 (fit cap a ++ [0])) cap s = Some (blit d 0 (fit cap (a ++ t) ++ [0])).
Proof.
  intros Ht Ha Hc. pose proof (fit_length cap a ltac:(lia)).
  rewrite (sappend_spec _ _ _ _ t) by (done || lia || by apply fit_nonzero).
  by rewrite fit_app by lia.
Qed.

Lemma scheme_scan_spec fuel s p t :
  cstr s p t -> (length t < fuel)%nat ->
  scheme_scan fuel s p = Some (existsb (fun c => c =? COLON)
    (take_while (fun c => negb (c =? SLASH) && before_query c) t)).
Proof.
  revert p t. induction fuel as [|f IH]; intros p t Ht Hf; [lia|].
  cbn [scheme_scan]. rewrite (cstr_rd _ _ _ Ht). cbn [mbind option_bind].
  destruct t as [|c t]; cbn [head0 take_while existsb]; [done|].
  apply cstr_char_inv in Ht as (_ & Hn & Ht). cbn [length] in Hf.
  replace (c =? 0) with false by (symmetry; by apply Z.eqb_neq). cbn [negb andb].
  unfold before_query at 1. rewrite !andb_assoc.
  destruct (negb (c =? SLASH) && negb (c =? QUESTION) && negb (c =? HASH)); [|done].
  cbn [existsb]. destruct (c =? COLON); [done|]. cbn [orb]. apply IH; (done || lia).
Qed.

(** The index of the last slash. *)
Fixpoint last_of (t : bytes) (i last : Z) : Z :=
  match t with [] => last | c :: t' => last_of t' (i + 1) (if c =? SLASH then i else last) end.

Lemma last_slash_spec fuel s p t i last :
  cstr s p t -> i = p -> (length t < fuel)%nat ->
  last_slash fuel s i last = Some (last_of (take_while before_query t) i last).
Proof.
  intros Ht ->. revert p t last Ht.
  induction fuel as [|f IH]; intros p t last Ht Hf; [lia|].
  cbn [last_slash]. rewrite (cstr_rd _ _ _ Ht). cbn [mbind option_bind].
  destruct t as [|c t]; cbn [head0 take_while]; [done|].
  apply cstr_char_inv in Ht as (_ & Hn & Ht). cbn [length] in Hf.
  replace (c =? 0) with false by (symmetry; by apply Z.eqb_neq). cbn [negb andb].
  change (negb (c =? QUESTION) && negb (c =? HASH)) with (before_query c).
  destruct (before_query c); [|done]. cbn [last_of]. apply IH; (done || lia).
Qed.

Lemma last_of_snoc t c i last :
  last_of (t ++ [c]) i last = if c =? SLASH then i + len t else last_of t i last.
Proof.
  revert i last. induction t as [|d t IH]; intros i last; cbn [app last_of length].
  { by rewrite Z.add_0_r. }
  rewrite IH. case_if; [lia|done].
Qed.

Lemma last_of_spec t :
  let d := rev (drop_while (fun c => negb (c =? SLASH)) (rev t)) in
  last_of t 0 0 = (if existsb (fun c => c =? SLASH) t then len d - 1 else 0) /\
  exists e, t = d ++ e.
Proof.
  split.
  - induction t as [|c t IH] using rev_ind; [done|].
    rewrite last_of_snoc, existsb_app, rev_app_distr. cbn [rev app drop_while existsb].
    rewrite orb_false_r. destruct (c =? SLASH) eqn:Ec; cbn [negb].
    + rewrite orb_true_r. cbn [rev]. rewrite length_app, rev_involutive. cbn [length]. lia.
    + rewrite orb_false_r. exact IH.
  - exists (rev (take_while (fun c => negb (c =? SLASH)) (rev t))).
    rewrite <- rev_app_distr, take_drop_while. by rewrite rev_involutive.
Qed.

(** The directory is a prefix of the path, as long as the index says. *)
Lemma dir_ref_prefix p :
  p <> [] -> nonzero p ->
  dir_ref p = take (Z.to_nat (last_of (take_while before_query p) 0 0 + 1)) p /\
  0 <= last_of (take_while before_query p) 0 0 < len p /\ dir_ref p <> [].
Proof.
  intros Hne Hz. unfold dir_ref. set (pre := take_while before_query p).
  destruct (last_of_spec pre) as [Hl [e He]]. set (d := rev _) in *. rewrite Hl.
  assert (Hp : exists e', p = d ++ e').
  { exists (e ++ drop_while before_query p). rewrite app_assoc, <- He.
    unfold pre. by rewrite take_drop_while. }
  destruct Hp as [e' Hp].
  destruct (existsb _ pre) eqn:Ex.
  - assert (Hd : d <> []).
    { intros E. apply existsb_exists in Ex as (x & Hin & Hx).
      assert (Hr : rev d = []) by (by rewrite E). unfold d in Hr. rewrite rev_involutive in Hr.
      clear -Hin Hx Hr. apply in_rev in Hin. revert Hr Hin. generalize (rev pre) as l.
      induction l as [|y l IH]; cbn; [done|]. destruct (y =? SLASH) eqn:Ey; cbn; [done|].
      intros Hr [->|Hin]; [congruence|]. auto. }
    assert (0 < len d) by (destruct d; [done|cbn; lia]).
    split; [|split; [|done]].
    + rewrite Hp at 1. by rewrite take_app_length' by lia.
    + rewrite Hp, length_app. lia.
  - destruct p as [|c p]; [done|]. split; [done|]. split; [cbn [length]; lia|done].
Qed.

Section resolve.
Context (stack : Z -> bytes).
Context (Hstack : forall n, 0 <= n -> len (stack n) = n).

Lemma directory_spec m p :
  cstr m 0 p -> p <> [] -> len p < 160 ->
  exists d, directory stack m = Some d /\ cstr d 0 (dir_ref p).
Proof.
  intros Hp Hne Hl. pose proof (cstr_nonzero _ _ _ Hp) as Hz.
  destruct (dir_ref_prefix p Hne Hz) as (Hd & Hr & Hdn). unfold directory.
  pose proof (cstr_bounds _ _ _ Hp) as [_ Hb].
  rewrite (last_slash_spec _ m 0 p) by (done || lia). cbn [mbind option_bind].
  set (n := last_of _ 0 0) in *. if_false.
  pose proof (Hstack 160 ltac:(lia)).
  rewrite copy_from_spec by lia. cbn [mbind option_bind].
  assert (Hs : slice m 0 (Z.of_nat (Z.to_nat (n + 1))) = dir_ref p).
  { rewrite Hd, <- (cstr_slice _ _ _ Hp) at 1. rewrite take_slice by lia. f_equal. lia. }
  rewrite Hs. assert (Hln : len (dir_ref p) = n + 1) by (rewrite Hd, length_take; lia).
  rewrite <- Hln, wr_Some by (rewrite blit_length; lia). cbn [mbind option_bind].
  rewrite blit_terminate by lia.
  assert (Hc : cstr (blit (stack 160) 0 (dir_ref p ++ [0])) 0 (dir_ref p)).
  { apply cstr_blit. rewrite Hd. by apply Forall_take. }
  rewrite (cstr_rd _ _ _ Hc). cbn [mbind option_bind].
  pose proof (cstr_nonzero _ _ _ Hc) as Hdz.
  destruct (dir_ref p) as [|x d]; [done|]. cbn [head0]. apply List.Forall_inv in Hdz.
  replace (x =? 0) with false by (symmetry; by apply Z.eqb_neq). by eexists.
Qed.

Lemma dec_rev_nonzero k v : 0 <= v -> nonzero (dec_rev k v).
Proof.
  revert v. induction k as [|k IH]; intros v Hv; cbn [dec_rev]; [constructor|].
  constructor; [zlia|]. case_if; [constructor|]. apply IH. zlia.
Qed.

Lemma origin_nonzero pcap u : url_ok pcap u -> nonzero (origin u).
Proof.
  intros (_ & Hh & _ & _ & _ & Hp). unfold origin, scheme_name.
  repeat apply Forall_app_2; try done; [case_if; by apply lit_nonzero|by apply lit_nonzero|].
  destruct (port u =? _); [constructor|]. apply Forall_app_2; [by apply lit_nonzero|].
  apply Forall_rev. apply dec_rev_nonzero. lia.
Qed.

Lemma authority_spec u hostb pathb out cap :
  url_ok 160 u -> 0 < cap <= len out ->
  authority (stored hostb pathb u) out cap = Some (blit out 0 (fit cap (origin u) ++ [0])).
Proof.
  intros (Hs & Hh & _ & _ & _ & Hp) Hc. unfold authority, stored, origin, scheme_name.
  cbn [u_host u_port u_secure].
  assert (Hsec : forall b : bool,
    scopy_array out cap (if b then lit "https://" else lit "http://")
    = Some (blit out 0 (fit cap ((if b then chars "https" else chars "http") ++ chars "://") ++ [0]))).
  { intros b. erewrite scopy_array_spec; [done| |done].
    destruct b; [apply (cstr_lit (chars "https://"))|apply (cstr_lit (chars "http://"))];
      by apply lit_nonzero. }
  rewrite Hsec. clear Hsec. cbn [mbind option_bind].
  set (sc := (if negb (secure u =? 0) then _ else _) ++ _).
  assert (Hsc : nonzero sc) by (unfold sc; case_if; by apply lit_nonzero).
  rewrite (sappend_fit _ _ _ _ (host u)) by (by apply cstr_blit || done). cbn [mbind option_bind].
  assert (Hdef : (if negb (secure u =? 0) then 443 else 80) = (if secure u =? 0 then 80 else 443))
    by (by destruct (secure u =? 0)).
  assert (Hname : sc = (if secure u =? 0 then chars "http" else chars "https") ++ chars "://")
    by (unfold sc; by destruct (secure u =? 0)).
  assert (Hsh : nonzero (sc ++ host u)) by (by apply Forall_app_2).
  rewrite Hdef. destruct (port u =? _); cbn [negb].
  { by rewrite app_nil_r, app_assoc, Hname. }
  rewrite (sappend_fit _ _ _ _ (chars ":")) by
    (done || (apply (cstr_lit (chars ":")); by apply lit_nonzero)).
  cbn [mbind option_bind]. unfold append_port.
  rewrite (sappend_fit _ _ _ _ (rev (dec_rev 8 (port u)))).
  - rewrite Hname. by rewrite <- !app_assoc.
  - apply cstr_lit, Forall_rev. apply dec_rev_nonzero. lia.
  - apply Forall_app_2; [done|by apply lit_nonzero].
  - done.
Qed.

Lemma resolve_redirect_spec mb base ml loc out cap :
  cstr mb 0 base -> cstr ml 0 loc -> 9 <= cap <= len out ->
  resolve_redirect stack (Ptr mb) (Ptr ml) out cap
  = Some match resolve_ref base loc with
         | Target t => (1, blit out 0 (fit cap t ++ [0]))
         | Downgrade => (-1, out)
         | Unsupported => (0, out)
         end.
Proof.
  intros Hb Hl Hc. unfold resolve_redirect.
  rewrite (cstr_rd _ _ _ Hl). cbn [mbind option_bind]. unfold resolve_ref.
  destruct loc as [|c0 loc']; [done|]. cbn [head0].
  pose proof (cstr_char_inv _ _ _ _ Hl) as (_ & Hc0 & _).
  replace ((c0 =? 0) || (cap <? 9)) with false
    by (symmetry; apply orb_false_intro; [by apply Z.eqb_neq|apply Z.ltb_ge; lia]).
  pose proof (parse_url_agrees mb base (stack 96) 96 0 (stack 160) 160 0 Hb) as Hu.
  rewrite !Hstack in Hu by lia. specialize (Hu ltac:(lia) ltac:(lia)).
  destruct (url_ref 96 160 base) as [u|] eqn:Eu; cbn [agrees] in Hu;
    [rewrite Hu|destruct Hu as [v ->]; done].
  pose proof (url_ref_ok _ _ _ _ (cstr_nonzero _ _ _ Hb) Eu) as Hok.
  cbn [mbind option_bind stored u_secure]. clear Hu.
  set (loc := c0 :: loc') in *.
  pose proof (fun l H => starts_ci_spec ml 0 loc l Hl (lit_nonzero l H)) as Hci.
  rewrite (Hci (chars "https://") eq_refl). cbn [mbind option_bind].
  destruct (prefix_ci (chars "https://") loc).
  { by rewrite (scopy_array_spec _ _ _ loc) by (done || lia). }
  rewrite (Hci (chars "http://") eq_refl). cbn [mbind option_bind]. clear Hci.
  destruct (prefix_ci (chars "http://") loc).
  { destruct (secure u =? 0); cbn [negb]; [|done].
    by rewrite (scopy_array_spec _ _ _ loc) by (done || lia). }
  rewrite (starts_spec ml 0 loc [SLASH; SLASH]) by (done || by apply lit_nonzero).
  cbn [mbind option_bind]. change (chars "//") with [SLASH; SLASH].
  destruct (prefixb [SLASH; SLASH] loc).
  { assert (Hsc : (if negb (secure u =? 0) then lit "https:" else lit "http:")
              = (scheme_name u ++ chars ":") ++ [0])
      by (unfold scheme_name; by destruct (secure u =? 0)).
    assert (Hn : nonzero (scheme_name u ++ chars ":"))
      by (unfold scheme_name; destruct (secure u =? 0); by apply lit_nonzero).
    rewrite Hsc, (scopy_array_spec _ _ _ (scheme_name u ++ chars ":"))
      by (lia || by apply cstr_lit).
    cbn [mbind option_bind].
    rewrite (sappend_fit _ _ _ _ loc) by (done || lia). by rewrite <- app_assoc. }
  rewrite (scheme_scan_spec _ _ _ loc) by
    (done || (apply cstr_bounds in Hl; lia)). cbn [mbind option_bind].
  destruct (existsb _ _); [done|].
  rewrite authority_spec by (done || lia). cbn [mbind option_bind].
  pose proof (origin_nonzero _ _ Hok) as Ho.
  change (chars "/") with [SLASH]. cbn [prefixb loc]. rewrite andb_true_r.
  destruct (Z.eqb_spec c0 SLASH) as [->|Hs].
  { by rewrite (sappend_fit _ _ _ _ loc) by (done || lia). }
  destruct Hok as (_ & _ & Hpz & Hpn & Hpl & _).
  destruct (directory_spec (u_path (stored (stack 96) (stack 160) u)) (path u))
    as (d & Hd & Hdc); [by apply cstr_blit|done|lia|].
  unfold stored in *. cbn [u_path] in *. rewrite Hd. cbn [mbind option_bind].
  rewrite (sappend_fit _ _ _ _ (dir_ref (path u))) by (done || lia). cbn [mbind option_bind].
  rewrite (sappend_fit _ _ _ _ loc); [by rewrite <- app_assoc|done| |lia].
  apply Forall_app_2; [done|by eapply cstr_nonzero].
Qed.
End resolve.

(** ** Properties *)

(** C33. [parse_url] computes the reference decomposition of a URL: scheme,
    host, port (80 or 443 unless an explicit decimal port between 1 and 65535 is
    given) and path, into the caller's buffers; it returns 0 exactly when the
    reference rejects, and never leaves the string or the buffers. *)
Theorem parse_url_correct s t hostb hcap port0 pathb pcap sec0 :
  cstr s 0 t -> 2 <= hcap <= len hostb -> 2 <= pcap <= len pathb ->
  match url_ref hcap pcap t with
  | Some u => parse_url (Ptr s) hostb hcap port0 pathb pcap sec0 = Some (1, stored hostb pathb u)
  | None => exists v, parse_url (Ptr s) hostb hcap port0 pathb pcap sec0 = Some (0, v)
  end.
Proof. exact (parse_url_agrees s t hostb hcap port0 pathb pcap sec0). Qed.

Definition sample_url : bytes := chars "https://orion.un:8443/api/v1?x=1#top".

Lemma parse_url_correct_witness :
  parse_url (Ptr (sample_url ++ [0])) (replicate 96 7) 96 0 (replicate 160 7) 160 0
  = Some (1, mk_url (chars "orion.un" ++ [0] ++ replicate 87 7) 8443
               (chars "/api/v1?x=1#top" ++ [0] ++ replicate 144 7) 1).
Proof.
  pose proof (parse_url_correct (sample_url ++ [0]) sample_url (replicate 96 7) 96 0
    (replicate 160 7) 160 0) as H.
  change (url_ref 96 160 sample_url)
    with (Some (mk_parsed 1 8443 (chars "orion.un") (chars "/api/v1?x=1#top"))) in H.
  apply H; [apply cstr_lit; by apply lit_nonzero|split; discriminate|split; discriminate].
Defined.

(** *** Redirects and RFC 3986 *)

(** The URL as a base: the client leaves the default port of the scheme out. *)
Definition base_uri (u : url) : Rfc.uri :=
  let '(t, f) := Rfc.cut HASH (path u) in
  let '(p, q) := Rfc.cut QUESTION t in
  Rfc.mk_uri (Some (scheme_name u))
    (Some (host u ++ (if port u =? (if secure u =? 0 then 80 else 443) then [] else chars ":" ++ rev (dec_rev 8 (port u)))))
    p q f.

Definition is_scheme (name : bytes) (s : bytes) : bool := bool_decide (map lower_ascii s = name).

(** Where a [Location] leads from [u]: the target of the reference, for http and https
    addresses with a host and for references without a scheme; down to http from https
    is refused. *)
Definition redirect_target (u : url) (loc : bytes) : redirect :=
  let r := Rfc.parse loc in
  let t := Target (Rfc.recompose (Rfc.transform (base_uri u) r)) in
  match Rfc.scheme r, Rfc.authority r with
  | Some s, Some _ =>
      if is_scheme (chars "https") s then t
      else if is_scheme (chars "http") s then (if secure u =? 0 then t else Downgrade)
      else Unsupported
  | Some _, None => Unsupported
  | None, _ => if head0 loc =? COLON then Unsupported else t
  end.

Lemma prefix_ci_begins l t : prefix_ci l t = true <-> Rfc.begins l t.
Proof.
  unfold Rfc.begins. revert t. induction l as [|x l IH]; intros t; [done|]. destruct t as [|c t]; cbn; [done|].
  rewrite andb_true_iff, Z.eqb_eq, IH. split; [intros [-> ->]; done|]. by intros [= -> ->].
Qed.

Lemma prefix_ci_scheme name t :
  name = chars "http" \/ name = chars "https" ->
  prefix_ci (name ++ chars "://") t =
  match Rfc.scheme (Rfc.parse t), Rfc.authority (Rfc.parse t) with Some s, Some _ => is_scheme name s | _, _ => false end.
Proof.
  intros Hn. apply eq_true_iff_eq. rewrite prefix_ci_begins, Rfc.begins_scheme.
  - assert (Hl : map lower_ascii name = name) by (destruct Hn as [-> | ->]; done). rewrite Hl.
    destruct (Rfc.scheme _) as [s|], (Rfc.authority _) as [a|]; split; try (intros (? & ? & ? & ?); congruence); try done.
    + intros (s' & [= <-] & H & _). by apply bool_decide_eq_true.
    + intros H%bool_decide_eq_true. by exists s.
  - by destruct Hn as [-> | ->].
  - unfold Rfc.scheme_char. destruct Hn as [-> | ->];
      [change (chars "http") with [104; 116; 116; 112]|change (chars "https") with [104; 116; 116; 112; 115]];
      repeat (constructor; [lia|]); constructor.
Qed.

(** A colon before any slash, question mark and hash: a scheme, or nothing before it. *)
Lemma colon_scheme t :
  existsb (fun c => c =? COLON) (take_while (fun c => negb (c =? SLASH) && before_query c) t) = true <->
  Rfc.scheme (Rfc.parse t) <> None \/ head0 t = COLON.
Proof.
  set (f := fun c => negb (c =? SLASH) && before_query c).
  assert (Hf : forall c, f c = true <-> c <> SLASH /\ c <> QUESTION /\ c <> HASH).
  { intros c. unfold f, before_query. rewrite !andb_true_iff, !negb_true_iff, !Z.eqb_neq. done. }
  split.
  - intros H. set (g := fun c => negb (c =? COLON) && f c).
    assert (Hg : forall c, g c = true -> c <> COLON /\ f c = true).
    { intros c Hc. unfold g in Hc. apply andb_prop in Hc as [Hc%negb_true_iff%Z.eqb_neq Hc']. done. }
    pose proof (take_while_all g t) as Ha. pose proof (take_drop_while g t) as E.
    set (a := take_while g t) in *.
    assert (Haf : Forall (fun c => f c = true) a) by (eapply Forall_impl; [|exact Ha]; intros c Hc; by apply Hg).
    assert (Hno : existsb (fun c => c =? COLON) a = false).
    { apply not_true_is_false. intros (c & Hin & ->%Z.eqb_eq)%existsb_exists.
      rewrite Forall_forall in Ha. by apply Ha, Hg in Hin as [? _]. }
    destruct (drop_while g t) as [|c r] eqn:Ed.
    { rewrite app_nil_r in E. destruct (take_while_app f a [] Haf I) as [Et _]. rewrite app_nil_r in Et.
      rewrite <- E, Et, Hno in H. done. }
    apply drop_while_head in Ed. destruct (Z.eqb_spec c COLON) as [->|Hc].
    + destruct a as [|x a]; [right; by rewrite <- E|left]. rewrite <- E, Rfc.parse_of_scheme; [done|done|].
      rewrite Forall_forall in *. intros y Hy. apply Ha, Hg in Hy as [H1 H2]. apply Hf in H2. unfold Rfc.scheme_char. tauto.
    + assert (Hcf : f c = false).
      { destruct (f c) eqn:Efc; [|done]. unfold g in Ed. rewrite Efc, andb_true_r in Ed.
        by apply negb_false_iff, Z.eqb_eq in Ed. }
      destruct (take_while_app f a (c :: r) Haf Hcf) as [Et _]. rewrite <- E, Et, Hno in H. done.
  - intros [H|H].
    + destruct (Rfc.scheme (Rfc.parse t)) as [s|] eqn:Es; [|done].
      apply Rfc.parse_scheme in Es as (r & -> & _ & Hs & _).
      assert (Hsf : Forall (fun c => f c = true) s).
      { eapply Forall_impl; [|exact Hs]. intros c Hc. apply Hf. unfold Rfc.scheme_char in Hc. tauto. }
      destruct (Rfc.take_while_prefix f s (COLON :: r) Hsf) as [-> _]. cbn [take_while].
      replace (f COLON) with true by (symmetry; by apply Hf). rewrite existsb_app. cbn. apply orb_true_r.
    + destruct t as [|c t]; [done|]. cbn [head0] in H. subst c. cbn [take_while].
      replace (f COLON) with true by (symmetry; by apply Hf). done.
Qed.

Lemma take_while_both f g t : take_while f (take_while g t) = take_while (fun c => g c && f c) t.
Proof. induction t as [|c t IH]; [done|]. cbn. destruct (g c); cbn; [|done]. by rewrite IH. Qed.

(** The directory of the code is that of the standard, for paths that begin with a slash. *)
Lemma directory_merge u : head (path u) = Some SLASH -> Rfc.merge (base_uri u) [] = dir_ref (path u).
Proof.
  intros Hh. destruct (path u) as [|c p] eqn:Ep; [done|]. injection Hh as ->.
  unfold base_uri. rewrite Ep. unfold Rfc.cut. unfold Rfc.merge. cbn [Rfc.authority Rfc.path]. rewrite take_while_both.
  cbn [take_while]. change (negb (SLASH =? HASH) && negb (SLASH =? QUESTION)) with true. cbv iota.
  rewrite app_nil_r. unfold dir_ref. cbn [take_while]. change (before_query SLASH) with true. cbv iota. cbn [existsb].
  rewrite Z.eqb_refl. cbn [orb]. unfold Rfc.up_to_slash. do 4 f_equal.
  clear. induction p as [|c p IH]; [done|]. cbn [take_while]. unfold before_query at 1. rewrite IH.
  rewrite (andb_comm (negb (c =? HASH))). done.
Qed.

Lemma origin_site u : origin u = Rfc.site (base_uri u).
Proof.
  unfold origin, Rfc.site, base_uri. destruct (Rfc.cut HASH (path u)) as [t f]. destruct (Rfc.cut QUESTION t) as [p q].
  cbn [Rfc.scheme Rfc.authority Rfc.opt app]. rewrite <- app_assoc, app_nil_r. done.
Qed.

Lemma resolve_ref_target u base loc :
  url_ref 96 160 base = Some u -> head (path u) = Some SLASH ->
  loc <> [] -> head0 loc <> QUESTION -> head0 loc <> HASH ->
  Rfc.dot_free (Rfc.target_path (base_uri u) (Rfc.parse loc)) ->
  resolve_ref base loc = redirect_target u loc.
Proof.
  intros Hu Hp Hne Hq Hh Hfree. unfold resolve_ref. rewrite Hu. destruct loc as [|c0 loc'] eqn:El; [done|]. rewrite <- El in *.
  clear El. unfold redirect_target. cbv zeta.
  rewrite (prefix_ci_scheme (chars "https")) by by right. rewrite (prefix_ci_scheme (chars "http")) by by left.
  pose proof (colon_scheme loc) as Hcol. pose proof (Rfc.parse_network loc) as Hnet.
  pose proof (Rfc.target_absolute _ _ Hfree) as T1. pose proof (Rfc.target_network _ _ Hfree) as T2.
  pose proof (Rfc.target_of_path _ _ Hfree) as T3. pose proof (Rfc.parse_path loc) as Hpath.
  destruct (Rfc.scheme (Rfc.parse loc)) as [s|] eqn:Es.
  - assert (Hns : prefixb (chars "//") loc = false /\ prefixb [SLASH] loc = false).
    { apply Rfc.parse_scheme in Es as (r & -> & Hsne & Hs & _). destruct s as [|x s]; [done|].
      apply List.Forall_inv in Hs as (_ & Hs & _). apply Z.eqb_neq in Hs.
      change (chars "//") with [SLASH; SLASH]. cbn [app prefixb]. by rewrite Hs. }
    destruct Hns as [Hns1 Hns2]. rewrite Hns1. rewrite (proj2 Hcol) by by left.
    rewrite T1 by done. destruct (Rfc.authority _) as [a|]; [|done].
    destruct (is_scheme (chars "https") s); [done|]. by destruct (is_scheme (chars "http") s).
  - assert (Hc : existsb (fun c => c =? COLON) (take_while (fun c => negb (c =? SLASH) && before_query c) loc) = (head0 loc =? COLON)).
    { apply eq_true_iff_eq. rewrite Hcol, Z.eqb_eq. split; [intros [?|?]; done|by right]. }
    rewrite Hc. specialize (Hnet eq_refl). change (chars "//") with [SLASH; SLASH]. change (chars "/") with [SLASH].
    destruct (Rfc.authority (Rfc.parse loc)) as [a|] eqn:Ea.
    + rewrite (proj1 Hnet) by done. rewrite T2 by done.
      assert (Hh0 : (head0 loc =? COLON) = false).
      { assert (Hx : prefixb [SLASH; SLASH] loc = true) by by apply Hnet. apply prefixb_app in Hx as [r ->]. done. }
      rewrite Hh0. unfold base_uri. destruct (Rfc.cut HASH (path u)) as [t f]. destruct (Rfc.cut QUESTION t) as [p q].
      cbn [Rfc.scheme Rfc.opt app]. by rewrite <- app_assoc.
    + destruct (prefixb [SLASH; SLASH] loc); [by destruct (proj2 Hnet eq_refl)|].
      destruct (head0 loc =? COLON); [done|]. destruct (Hpath eq_refl eq_refl Hne Hq Hh) as [Hpn _].
      rewrite T3 by done. rewrite origin_site, directory_merge by done.
      by destruct (prefixb [SLASH] loc).
Qed.

(** C31. [resolve_redirect] follows RFC 3986: it computes the target of a [Location]
    against the current URL (absolute, scheme-relative, absolute-path and relative
    forms, with their queries and fragments), cut at the capacity of the buffer and
    terminated; it refuses to leave https with -1, and what is neither http nor https
    with 0, leaving the buffer alone; it never leaves its buffers.  Left out are what
    the code does otherwise than the standard: references that begin with a question
    mark or a hash, paths with dot segments, which are not removed, and URLs whose
    path does not begin with a slash, which [parse_url] accepts after a port.  The
    default port of the scheme is not repeated. *)
Theorem resolve_redirect_correct stack mb base ml loc out cap :
  (forall n, 0 <= n -> len (stack n) = n) ->
  cstr mb 0 base -> cstr ml 0 loc -> 9 <= cap <= len out ->
  head0 loc <> QUESTION -> head0 loc <> HASH ->
  (forall u, url_ref 96 160 base = Some u -> head (path u) = Some SLASH /\
     Rfc.dot_free (Rfc.target_path (base_uri u) (Rfc.parse loc))) ->
  resolve_redirect stack (Ptr mb) (Ptr ml) out cap
  = Some match url_ref 96 160 base with
         | None => (0, out)
         | Some u =>
             if bool_decide (loc = []) then (0, out) else
             match redirect_target u loc with
             | Target t => (1, blit out 0 (fit cap t ++ [0]))
             | Downgrade => (-1, out)
             | Unsupported => (0, out)
             end
         end.
Proof.
  intros Hst Hb Hl Hc Hq Hh Hok. rewrite (resolve_redirect_spec stack Hst mb base ml loc out cap) by done. f_equal.
  destruct (url_ref 96 160 base) as [u|] eqn:Hu; [|unfold resolve_ref; rewrite Hu; by destruct loc].
  destruct (Hok u eq_refl) as [Hp Hf]. case_bool_decide as Hne; [by subst loc|].
  by rewrite (resolve_ref_target u).
Qed.

Lemma resolve_redirect_correct_witness :
  resolve_redirect (fun n => replicate (Z.to_nat n) 7)
    (Ptr (lit "https://orion.un:8443/docs/a/b?q=/x")) (Ptr (lit "c?d/e#f")) (replicate 40 7) 40
  = Some (1, chars "https://orion.un:8443/docs/a/c?d/e#f" ++ [0] ++ replicate 3 7).
Proof.
  rewrite (resolve_redirect_correct _ _ (chars "https://orion.un:8443/docs/a/b?q=/x") _ (chars "c?d/e#f")).
  - reflexivity.
  - intros n Hn. rewrite length_replicate. lia.
  - apply (cstr_lit (chars "https://orion.un:8443/docs/a/b?q=/x")). by apply lit_nonzero.
  - apply (cstr_lit (chars "c?d/e#f")). by apply lit_nonzero.
  - split; discriminate.
  - discriminate.
  - discriminate.
  - intros u [= <-]. split; [reflexivity|]. apply (bool_decide_unpack _). vm_compute. exact I.
Defined.

(** Where the code departs from the standard: the last segment of the path is dropped
    for a reference that is only a query, and dot segments stay. *)
Example query_reference :
  resolve_ref (chars "http://h.un/a/b") (chars "?page=2") = Target (chars "http://h.un/a/?page=2") /\
  Rfc.recompose (Rfc.transform (Rfc.parse (chars "http://h.un/a/b")) (Rfc.parse (chars "?page=2"))) = chars "http://h.un/a/b?page=2".
Proof. vm_compute. done. Qed.
Example dot_reference :
  resolve_ref (chars "http://h.un/a/b") (chars "../c") = Target (chars "http://h.un/a/../c") /\
  Rfc.recompose (Rfc.transform (Rfc.parse (chars "http://h.un/a/b")) (Rfc.parse (chars "../c"))) = chars "http://h.un/c".
Proof. vm_compute. done. Qed.

(** ** HTTPS is not left *)

Lemma prefixb_lookup l t k x :
  prefixb l t = true -> l !! k = Some x -> t !! k = Some x.
Proof.
  revert t k. induction l as [|y l IH]; intros [|c t] k H; cbn in H; try done.
  bool_prop. destruct k as [|k]; cbn; [by intros [= ->]; subst|by apply IH].
Qed.

Lemma prefix_ci_lookup l t k x :
  prefix_ci l t = true -> l !! k = Some x ->
  exists c, t !! k = Some c /\ lower_ascii c = lower_ascii x.
Proof.
  revert t k. induction l as [|y l IH]; intros [|c t] k H; cbn in H; try done.
  bool_prop. destruct k as [|k]; cbn; [intros [= ->]; by exists c|by apply IH].
Qed.

(** A plain HTTP URL has its colon fifth. *)
Lemma url_ref_plain hcap pcap t u :
  url_ref hcap pcap t = Some u -> secure u = 0 -> t !! 4%nat = Some COLON.
Proof.
  unfold url_ref, url_scheme. intros H Hs.
  destruct (prefixb (chars "https://") t); [|destruct (prefixb (chars "http://") t) eqn:E2; [|done]].
  { cbn [mbind option_bind] in H. case_match; [done|].
    destruct (url_port _ _) as [[p r]|]; cbn [mbind option_bind] in H; [|done].
    case_match; [done|]. injection H as <-. done. }
  by apply (prefixb_lookup _ _ 4 COLON) in E2.
Qed.

Lemma resolve_ref_https base loc u t :
  url_ref 96 160 base = Some u -> secure u = 1 -> resolve_ref base loc = Target t ->
  t !! 4%nat <> Some COLON.
Proof.
  intros Hu Hs. unfold resolve_ref. rewrite Hu. destruct loc as [|c loc]; [done|].
  unfold origin, scheme_name. rewrite Hs. change (1 =? 0) with false. cbn match.
  destruct (prefix_ci (chars "https://") (c :: loc)) eqn:E.
  { intros [= <-]. apply (prefix_ci_lookup _ _ 4 115) in E as (x & -> & Hx); [|done].
    intros [= ->]. done. }
  destruct (prefix_ci (chars "http://") (c :: loc)); [done|].
  destruct (prefixb (chars "//") (c :: loc)); [by intros [= <-]|].
  destruct (existsb _ _); [done|].
  destruct (prefixb (chars "/") (c :: loc)); intros [= <-]; done.
Qed.

Lemma resolve_ref_nonzero base loc t :
  nonzero base -> nonzero loc -> resolve_ref base loc = Target t -> nonzero t.
Proof.
  intros Hb Hl. unfold resolve_ref. destruct loc as [|c loc]; [done|].
  destruct (url_ref 96 160 base) as [u|] eqn:Hu; [|done].
  pose proof (url_ref_ok _ _ _ _ Hb Hu) as Hok.
  pose proof (origin_nonzero _ _ Hok) as Ho.
  assert (Hs : nonzero (scheme_name u)) by (unfold scheme_name; case_if; by apply lit_nonzero).
  destruct (prefix_ci (chars "https://") (c :: loc)); [by intros [= <-]|].
  destruct (prefix_ci (chars "http://") (c :: loc)); [case_if; [by intros [= <-]|done]|].
  destruct (prefixb (chars "//") (c :: loc)).
  { intros [= <-]. apply Forall_app_2; [done|]. by constructor. }
  destruct (existsb _ _); [done|].
  destruct (prefixb (chars "/") (c :: loc)); intros [= <-]; apply Forall_app_2; try done.
  apply Forall_app_2; [|done]. destruct Hok as (_ & _ & Hp & Hpn & _).
  destruct (dir_ref_prefix (path u) Hpn Hp) as (-> & _). by apply Forall_take.
Qed.

Lemma fit_lookup cap (t : bytes) (k : nat) x :
  fit cap t !! k = Some x -> t !! k = Some x.
Proof. unfold fit. intros H. apply lookup_take_Some in H as [H _]. exact H. Qed.

(** From an HTTPS URL, whatever the server answers, the URL followed is HTTPS. *)
Lemma redirect_keeps_https base loc cap u t u' :
  url_ref 96 160 base = Some u -> secure u = 1 -> resolve_ref base loc = Target t ->
  url_ref 96 160 (fit cap t) = Some u' -> nonzero (fit cap t) -> secure u' = 1.
Proof.
  intros Hu Hs Ht Hu' Hz. destruct (url_ref_ok _ _ _ _ Hz Hu') as ([H0|H1] & _); [|done].
  pose proof (url_ref_plain _ _ _ _ Hu' H0) as Hc. apply fit_lookup in Hc.
  by apply (resolve_ref_https _ _ _ _ Hu Hs) in Ht.
Qed.

(** After the port the parser accepts any character, and takes it for the path:
    the request line then has no slash, and a relative redirect extends the host. *)
Example port_without_slash :
  url_ref 96 160 (chars "http://orion.un:80evil")
  = Some (mk_parsed 0 80 (chars "orion.un") (chars "evil")).
Proof. reflexivity. Qed.

Example port_without_slash_redirect :
  resolve_ref (chars "http://orion.un:80evil") (chars "x.net/") = Target (chars "http://orion.unex.net/").
Proof. reflexivity. Qed.

(** The scheme of a redirect is compared without case, that of a URL with case. *)
Example upper_case_scheme_rejected :
  resolve_ref (chars "http://a/") (chars "HTTP://b/") = Target (chars "HTTP://b/") /\
  url_ref 96 160 (chars "HTTP://b/") = None.
Proof. done. Qed.
