(* ===== verification/HttpGet.v ===== *)
(** * kernel/net.c: the HTTP client

    [net_http_get] (line 157) over the transports it uses: the TCP calls of
    lines 128-132 of the file and [tls_https_exchange] of kernel/tls.c, which the
    class [HttpNet] abstracts.  The client is shown to stay inside its buffers
    whatever a server answers, and to stay on HTTPS once a URL is HTTPS. *)

From S2P Require Import Prelude NetEnv Cstr Http HttpChunked HttpUrl.

(** ** The transports *)

(** [http_read] returns the integer result and the bytes stored;
    [https_exchange] the result, the response buffer, its length and the status. *)
Class HttpNet (E : Type) := {
  serial_write : bytes -> E -> E;
  net_tcp_connect : bytes -> Z -> ptr bytes -> Z -> E -> res (Z * ptr bytes * E);
  net_tcp_write : bytes -> Z -> Z -> E -> res (Z * E);
  net_tcp_read : Z -> Z -> E -> res (Z * bytes * E);
  net_tcp_close : E -> res E;
  tls_https_exchange :
    bytes -> Z -> bytes -> Z -> bytes -> Z -> ptr bytes -> Z -> E ->
    res (Z * bytes * Z * ptr bytes * E)
}.

(** What the transports promise: they write into the buffers they are given, a
    read delivers something and at most what was asked, an exchange leaves room
    for the terminator.  [T] says whether a call may be cut off; [J] is an
    invariant of the environment, [I] a property of it that the log and the TLS
    exchanges keep. *)
Class HttpNetLaws {E : Type} `{!HttpNet E} (T : Prop) (J I : E -> Prop) : Prop := {
  log_law s e : J e -> J (serial_write s e) /\ (I e -> I (serial_write s e));
  tcp_connect_law h t p st sc e : J e -> cstr h 0 t -> status_ok sc st ->
    safe T (net_tcp_connect h p st sc e) (fun '(_, st', e') => same_object st st' /\ J e');
  tcp_write_law d n t e : J e -> 0 <= n <= len d ->
    safe T (net_tcp_write d n t e) (fun '(_, e') => J e');
  tcp_read_law cap t e : J e -> 0 < cap ->
    safe T (net_tcp_read cap t e)
      (fun '(n, d, e') => (n < 0 \/ (0 < n <= cap /\ len d = n)) /\ J e');
  tcp_close_law e : J e -> safe T (net_tcp_close e) J;
  exchange_law h t p r n raw st sc e : J e -> cstr h 0 t -> 0 <= n <= len r -> status_ok sc st ->
    safe T (tls_https_exchange h p r n raw (len raw) st sc e)
      (fun '(ok, raw', m, st', e') =>
         len raw' = len raw /\ same_object st st' /\ (ok <> 0 -> 0 <= m < len raw) /\
         J e' /\ (I e -> I e'))
}.

(** ** The request *)

(** [while( *a&&o+1<sizeof(req))req[o++]=*a++;] *)
Fixpoint req_append (fuel : nat) (req : bytes) (o : Z) (a : bytes) (i : Z) : option (bytes * Z) :=
  match fuel with
  | O => None
  | S f =>
      c ← rd a i;
      if negb (c =? 0) && (o + 1 <? 768) then
        req ← wr req o c; req_append f req (o + 1) a (i + 1)
      else Some (req, o)
  end.

Definition append (req : bytes) (o : Z) (a : bytes) : option (bytes * Z) :=
  req_append (S (length a)) req o a 0.

(** [while(dn&&o+1<sizeof(req))req[o++]=digits[--dn];] *)
Fixpoint digits_append (req : bytes) (o : Z) (ds : bytes) : option (bytes * Z) :=
  match ds with
  | [] => Some (req, o)
  | d :: ds' =>
      if o + 1 <? 768 then req ← wr req o d; digits_append req (o + 1) ds' else Some (req, o)
  end.

Definition request_tail : bytes :=
  CRLF ++ chars "User-Agent: UN_Orion/0.0.8 UN_Vela/0.3.2 Aster/0.3.2" ++ CRLF ++
  chars "Accept: text/html,text/plain;q=0.9,*/*;q=0.1" ++ CRLF ++
  chars "Accept-Encoding: identity" ++ CRLF ++ chars "Connection: close" ++ CRLF ++ CRLF.

Definition build_request (req : bytes) (u : url_parts) : option (bytes * Z) :=
  '(req, o) ← append req 0 (lit "GET ");
  '(req, o) ← append req o (u_path u);
  '(req, o) ← append req o (chars " HTTP/1.0" ++ CRLF ++ lit "Host: ");
  '(req, o) ← append req o (u_host u);
  let def := if negb (u_secure u =? 0) then 443 else 80 in
  '(req, o) ←
    if negb (u_port u =? def) && (o + 7 <? 768) then
      req ← wr req o COLON;
      digits_append req (o + 1) (rev (dec_rev 6 (u_port u)))
    else Some (req, o);
  append req o (request_tail ++ [0]).

(** ** The response *)

(** [for(size_t i=0;i+k<n;i++)] looking for the bytes [l] ([k+1] of them). *)
Fixpoint find_loop (k : nat) (raw : bytes) (l : bytes) (i : Z) : option (option Z) :=
  match k with
  | O => Some None
  | S k' =>
      hit ← starts raw i l;
      if (hit : bool) then Some (Some i) else find_loop k' raw l (i + 1)
  end.

Definition find_bytes (raw : bytes) (n : Z) (l : bytes) : option (option Z) :=
  find_loop (Z.to_nat (n - len l + 1)) raw l 0.

(** [header_end] and [body_off]; both 0 when there is no empty line. *)
Definition header_bounds (raw : bytes) (n : Z) : option (Z * Z) :=
  r ← find_bytes raw n [CR; LF; CR; LF];
  match r with
  | Some i => Some (i, i + 4)
  | None =>
      r ← find_bytes raw n [LF; LF];
      match r with Some i => Some (i, i + 2) | None => Some (0, 0) end
  end.

(** [while(n<raw_len&&raw[n]!='\r'&&raw[n]!='\n'&&n+1<status_cap)] *)
Fixpoint status_loop (fuel : nat) (raw : bytes) (raw_len : Z) (status : bytes) (cap n : Z)
  : option (bytes * Z) :=
  match fuel with
  | O => None
  | S f =>
      if n <? raw_len then
        c ← rd raw n;
        if negb (eol c) && (n + 1 <? cap) then
          status ← wr status n c; status_loop f raw raw_len status cap (n + 1)
        else Some (status, n)
      else Some (status, n)
  end.

Definition status_line (raw : bytes) (raw_len : Z) (status : ptr bytes) (cap : Z) : option (ptr bytes) :=
  match status with
  | Null => Some Null
  | Ptr st =>
      if cap =? 0 then Some (Ptr st)
      else
        '(st, n) ← status_loop (S (Z.to_nat cap)) raw raw_len st cap 0;
        st ← wr st n 0;
        Some (Ptr st)
  end.

(** The result of storing a body: [None] inside with the message to report. *)
Inductive stored_body :=
| Stored (body : bytes)
| Rejected (body : bytes) (why : bytes).

(** [if(src_len>=3&&...)]: a UTF-8 byte order mark is skipped. *)
Definition skip_bom (raw : bytes) (off src_len : Z) : option (Z * Z) :=
  if 3 <=? src_len then
    bom ← starts raw off [0xEF; 0xBB; 0xBF];
    Some (if (bom : bool) then (off + 3, src_len - 3) else (off, src_len))
  else Some (off, src_len).

Section get.
Context {E : Type} `{!HttpNet E}.
(** Uninitialised local arrays: [stack n] is one of [n] bytes. *)
Context (stack : Z -> bytes).

Definition store_body (raw : bytes) (header_end body_off raw_len : Z) (body : bytes) (cap : Z)
  : option stored_body :=
  '(src, src_len) ← skip_bom raw body_off (raw_len - body_off);
  chunked ← contains_ci raw header_end (lit "transfer-encoding: chunked");
  if (chunked : bool) then
    '(written, body) ← decode_chunked raw src src_len body cap;
    if (written =? 0) && negb (src_len =? 0) then
      Some (Rejected body (lit "Invalid chunked response"))
    else Some (Stored body)
  else
    '(found, clen) ← header_value_ci raw header_end (lit "Content-Length") (stack 32) 32;
    expected ← (if found =? 0 then Some (Some src_len) else parse_size_dec (Ptr clen));
    match expected with
    | None => Some (Rejected body (lit "Invalid Content-Length"))
    | Some expected =>
        if src_len <? expected then Some (Rejected body (lit "Truncated HTTP body"))
        else
          let src_len := if expected <? src_len then expected else src_len in
          let written := if src_len <? cap - 1 then src_len else cap - 1 in
          body ← copy_from (Z.to_nat written) body 0 raw src;
          body ← wr body written 0;
          Some (Stored body)
    end.

(** The objects the call works on; [raw] is the static buffer. *)
Record http := mk_http { h_body : bytes; h_status : ptr bytes; h_raw : bytes; h_env : E }.

Inductive outcome :=
| Return (r : Z)
| Follow (next : bytes).

Definition log (s : bytes) (h : http) : http :=
  mk_http (h_body h) (h_status h) (h_raw h) (serial_write s (h_env h)).

(** [scopy(status,status_cap,why);return 0;] *)
Definition fail (status_cap : Z) (why : bytes) (h : http) : res (outcome * http) :=
  st ← ub (scopy (h_status h) status_cap (Ptr why));
  Ok (Return 0, mk_http (h_body h) st (h_raw h) (h_env h)).

(** [while(raw_len+1<sizeof(raw))] *)
Fixpoint read_loop (fuel : nat) (raw : bytes) (raw_len : Z) (e : E) : res (bytes * Z * E) :=
  match fuel with
  | O => NoFuel
  | S f =>
      if raw_len + 1 <? 32768 then
        '(n, d, e) ← net_tcp_read (32768 - 1 - raw_len) 1400 e;
        if n <? 0 then Ok (raw, raw_len, e)
        else
          raw ← ub (copy_from (length d) raw raw_len d 0);
          read_loop f raw (raw_len + n) e
      else Ok (raw, raw_len, e)
  end.

(** The request sent and the response received; the length is [None] when the
    call returns 0. *)
Definition transact (u : url_parts) (req : bytes) (o status_cap : Z) (h : http)
  : res (option Z * http) :=
  if negb (u_secure u =? 0) then
    '(ok, raw, n, st, e) ← tls_https_exchange (u_host u) (u_port u) req o (h_raw h) 32768
                             (h_status h) status_cap (h_env h);
    Ok (if ok =? 0 then None else Some n, mk_http (h_body h) st raw e)
  else
    '(ok, st, e) ← net_tcp_connect (u_host u) (u_port u) (h_status h) status_cap (h_env h);
    let h := mk_http (h_body h) st (h_raw h) e in
    if ok =? 0 then Ok (None, h)
    else
      '(ok, e) ← net_tcp_write req o 5000 e;
      if ok =? 0 then
        e ← net_tcp_close e;
        '(_, h) ← fail status_cap (lit "HTTP write failed") (mk_http (h_body h) st (h_raw h) e);
        Ok (None, h)
      else
        '(raw, raw_len, e) ← read_loop (Z.to_nat 32768) (h_raw h) 0 e;
        e ← net_tcp_close e;
        let h := mk_http (h_body h) st raw e in
        if raw_len =? 0 then
          '(_, h) ← fail status_cap (lit "No HTTP data") h; Ok (None, h)
        else
          raw ← ub (wr raw raw_len 0);
          Ok (Some raw_len, mk_http (h_body h) st raw e).

(** From [int code=...] on: a redirect to follow, or the body. *)
Definition respond (redirect : Z) (current : bytes) (header_end body_off raw_len cap status_cap : Z)
    (secure : bool) (h : http) : res (outcome * http) :=
  code ← ub (http_status_code (h_raw h) header_end);
  if redirect_code code then
    '(found, loc) ← ub (header_value_ci (h_raw h) header_end (lit "Location") (stack 256) 256);
    if found =? 0 then fail status_cap (lit "Redirect missing Location") h
    else if redirect =? 3 then fail status_cap (lit "Too many redirects") h
    else
      '(rr, next) ← ub (resolve_redirect stack (Ptr current) (Ptr loc) (stack 256) 256);
      if rr <? 0 then fail status_cap (lit "Refusing HTTPS downgrade") h
      else if rr =? 0 then fail status_cap (lit "Unsupported redirect URL") h
      else
        let h := log (chars "HTTP: redirect " ++ next) h in
        current ← ub (scopy_array current 256 next);
        Ok (Follow current, h)
  else
    b ← ub (store_body (h_raw h) header_end body_off raw_len (h_body h) cap);
    match b with
    | Rejected body why => fail status_cap why (mk_http body (h_status h) (h_raw h) (h_env h))
    | Stored body =>
        let h := mk_http body (h_status h) (h_raw h) (h_env h) in
        Ok (Return 1, log (if secure then chars "HTTPS: verified markup response received" ++ CRLF ++ [0]
                           else chars "HTTP: markup response received" ++ CRLF ++ [0]) h)
    end.

(** One turn of [for(int redirect=0;redirect<4;redirect++)]. *)
Definition http_turn (redirect : Z) (current : bytes) (cap status_cap : Z) (h : http)
  : res (outcome * http) :=
  '(ok, u) ← ub (parse_url (Ptr current) (stack 96) 96 0 (stack 160) 160 0);
  if ok =? 0 then fail status_cap (lit "Invalid URL") h
  else
    let secure := negb (u_secure u =? 0) in
    let h := log (if secure then lit "HTTPS: GET " else lit "HTTP: GET ") h in
    let h := log (CRLF ++ [0]) (log current h) in
    '(req, o) ← ub (build_request (stack 768) u);
    '(n, h) ← transact u req o status_cap h;
    match n with
    | None => Ok (Return 0, h)
    | Some raw_len =>
        '(header_end, body_off) ← ub (header_bounds (h_raw h) raw_len);
        st ← ub (status_line (h_raw h) raw_len (h_status h) status_cap);
        let h := mk_http (h_body h) st (h_raw h) (h_env h) in
        if body_off =? 0 then fail status_cap (lit "Malformed HTTP response") h
        else respond redirect current header_end body_off raw_len cap status_cap secure h
    end.

(** [k] turns remain. *)
Fixpoint http_loop (k : nat) (redirect : Z) (current : bytes) (cap status_cap : Z) (h : http)
  : res (Z * http) :=
  match k with
  | O => '(_, h) ← fail status_cap (lit "Too many redirects") h; Ok (0, h)
  | S k' =>
      '(r, h) ← http_turn redirect current cap status_cap h;
      match r with
      | Return v => Ok (v, h)
      | Follow next => http_loop k' (redirect + 1) next cap status_cap h
      end
  end.

(** [ready] is the flag of the interface, [raw] the static buffer. *)
Definition net_http_get (ready : Z) (url body : ptr bytes) (cap : Z) (status : ptr bytes)
    (status_cap : Z) (raw : bytes) (e : E) : res (Z * http) :=
  match body with
  | Null => Ok (0, mk_http [] status raw e)
  | Ptr body =>
      if (ready =? 0) || (cap <? 2) then Ok (0, mk_http body status raw e)
      else
        body ← ub (wr body 0 0);
        st ← ub (match status with
                 | Ptr st =>
                     if status_cap =? 0 then Some (Ptr st) else st ← wr st 0 0; Some (Ptr st)
                 | Null => Some Null
                 end);
        current ← ub (scopy (Ptr (stack 256)) 256 url);
        match current with
        | Ptr current => http_loop 4 0 current cap status_cap (mk_http body st raw e)
        | Null => Fault
        end
  end.
End get.
