(* ===== verification/HttpSafe.v ===== *)
(** * kernel/net.c: the HTTP client is safe

    The parsers of a response never leave the buffer, whatever bytes it holds;
    [net_http_get] returns with its buffers intact and its body terminated, and
    keeps to HTTPS. *)

From S2P Require Import Prelude NetEnv Cstr Uri Http HttpChunked HttpUrl HttpGet.

Lemma safe_ub {A} T (o : option A) Q : returns o Q -> safe T (ub o) Q.
Proof. by intros (a & -> & H). Qed.

(** A zero byte anywhere makes a string of what precedes it. *)
Lemma cstr_exists m o : 0 <= o -> rd m o = Some 0 -> exists t, cstr m 0 t.
Proof.
  intros Ho H. assert (Hk : forall k : nat, (k <= Z.to_nat o)%nat -> exists t, cstr m (o - Z.of_nat k) t).
  { induction k as [|k IH]; intros Hk.
    { exists []. constructor. by replace (o - Z.of_nat 0) with o by lia. }
    destruct IH as [t Ht]; [lia|]. apply rd_inv in H as [Hr _].
    destruct (rd_is_Some m (o - Z.of_nat (S k))) as [c Hc]; [lia|].
    destruct (Z.eq_dec c 0) as [->|Hn]; [exists []; by constructor|].
    exists (c :: t). constructor; [done|done|].
    by replace (o - Z.of_nat (S k) + 1) with (o - Z.of_nat k) by lia. }
  destruct (Hk (Z.to_nat o)) as [t Ht]; [lia|]. exists t.
  by replace (o - Z.of_nat (Z.to_nat o)) with 0 in Ht by lia.
Qed.

Lemma cstrlen_spec fuel m i t :
  cstr m i t -> (length t < fuel)%nat -> cstrlen fuel m i = Some (i + len t).
Proof.
  revert i t. induction fuel as [|f IH]; intros i t Ht Hf; [lia|].
  cbn [cstrlen]. rewrite (cstr_rd _ _ _ Ht). cbn [mbind option_bind].
  destruct t as [|c t]; cbn [head0]; [by rewrite Z.add_0_r|].
  apply cstr_char_inv in Ht as (_ & Hc & Ht). cbn [length] in *.
  replace (c =? 0) with false by (symmetry; by apply Z.eqb_neq).
  rewrite (IH _ t) by (done || lia). f_equal. lia.
Qed.

Lemma cstrlen_of m t : cstr m 0 t -> cstrlen (S (length m)) m 0 = Some (len t).
Proof. intros Ht. pose proof (cstr_bounds _ _ _ Ht). rewrite (cstrlen_spec _ _ _ t); (done || lia). Qed.

(** [simp_rd]: resolve the next read of the goal, in bounds by arithmetic. *)
Ltac next_rd c H :=
  match goal with
  | |- context [rd ?m ?i] =>
      let E := fresh "E" in
      assert (is_Some (rd m i)) as [c E] by (apply rd_is_Some; lia);
      rewrite E; cbn [mbind option_bind]; rename E into H
  end.

(** ** Headers *)

Section headers.
Context (raw : bytes) (n : Z).
Context (Hn : 0 <= n <= len raw).

Lemma skip_while_safe fuel m f p :
  0 <= p -> m <= len raw -> Z.max 0 (m - p) < Z.of_nat fuel ->
  returns (skip_while fuel raw m f p) (fun q =>
    p <= q /\ q <= Z.max p m /\ (q < m -> exists c, rd raw q = Some c /\ f c = false)).
Proof.
  revert p. induction fuel as [|k IH]; intros p Hp Hm Hf; [lia|]. cbn [skip_while].
  destruct (Z.ltb_spec p m) as [Hl|Hl]; [|exists p; repeat split; lia].
  next_rd c Hc. destruct (f c) eqn:Ef; [|exists p; repeat split; try lia; by exists c].
  apply (returns_mono _ _ _ (IH (p + 1) ltac:(lia) Hm ltac:(lia))).
  intros q (H1 & H2 & H3). repeat split; (done || lia).
Qed.

Lemma skip_safe m f p :
  0 <= p -> m <= len raw ->
  returns (skip raw m f p) (fun q =>
    p <= q /\ q <= Z.max p m /\ (q < m -> exists c, rd raw q = Some c /\ f c = false)).
Proof. intros. apply skip_while_safe; lia. Qed.

Lemma code_loop_safe k p code d : 0 <= p -> returns (code_loop k raw n p code d) (fun _ => True).
Proof.
  revert p code d. induction k as [|k IH]; intros p code d Hp; cbn [code_loop]; [by eexists|].
  case_if; [|by eexists]. next_rd c Hc. case_if; [|by eexists]. apply IH. lia.
Qed.

Lemma http_status_code_safe : returns (http_status_code raw n) (fun _ => True).
Proof.
  unfold http_status_code.
  eapply returns_bind; [apply skip_safe; lia|]. intros p (H1 & _).
  eapply returns_bind; [apply skip_safe; lia|]. intros q (H2 & _).
  eapply returns_bind; [apply code_loop_safe; lia|]. intros [code d] _. by eexists.
Qed.

Lemma match_ci_safe k i needle t j :
  cstr needle 0 t -> 0 <= i -> 0 <= j -> j + Z.of_nat k <= len t -> i + len t <= n ->
  returns (match_ci k raw i needle j) (fun r => j <= r <= j + Z.of_nat k).
Proof.
  intros Ht Hi. pose proof (cstr_bounds _ _ _ Ht) as [_ Hb]. revert j.
  induction k as [|k IH]; intros j Hj Hk Hl; cbn [match_ci]; [eexists; split; [done|cbn; lia]|].
  next_rd a Ha. next_rd b Hb'. case_if; [|eexists; split; [done|cbn; lia]].
  apply (returns_mono _ _ _ (IH (j + 1) ltac:(lia) ltac:(lia) Hl)). lia.
Qed.

Lemma contains_ci_safe needle t :
  cstr needle 0 t -> returns (contains_ci raw n needle) (fun _ => True).
Proof.
  intros Ht. unfold contains_ci. rewrite (cstrlen_of _ t) by done. cbn [mbind option_bind].
  case_if; [by eexists|].
  assert (Hloop : forall k i, 0 <= i -> i + Z.of_nat k + len t <= n + 1 ->
    returns (contains_loop k raw i needle (len t)) (fun _ => True)).
  { induction k as [|k IH]; intros i Hi Hk; cbn [contains_loop]; [by eexists|].
    eapply returns_bind; [apply (match_ci_safe _ _ _ t); (done || lia)|]. intros j _.
    case_if; [by eexists|]. apply IH; lia. }
  apply Hloop; lia.
Qed.

Lemma range_eq_ci_safe ao k b t :
  cstr b 0 t -> 0 <= ao -> 0 <= k -> ao + k <= n ->
  returns (range_eq_ci raw ao k b) (fun _ => True).
Proof.
  intros Ht Ha Hk Hl. pose proof (cstr_bounds _ _ _ Ht) as [_ Hb].
  unfold range_eq_ci. rewrite (cstrlen_of _ t) by done. cbn [mbind option_bind].
  case_if; [by eexists|].
  assert (Hloop : forall j m, 0 <= m -> m + Z.of_nat j <= k ->
    returns (range_eq_loop j raw ao b m) (fun _ => True)).
  { induction j as [|j IH]; intros m Hm Hj; cbn [range_eq_loop]; [by eexists|].
    next_rd x Hx. next_rd y Hy. case_if; [by eexists|]. apply IH; lia. }
  apply Hloop; lia.
Qed.

Lemma trim_end_safe fuel v z :
  0 <= v -> z <= n -> Z.max 0 (z - v) < Z.of_nat fuel ->
  returns (trim_end fuel raw v z) (fun r => r <= z).
Proof.
  revert z. induction fuel as [|f IH]; intros z Hv Hz Hf; [lia|]. cbn [trim_end].
  destruct (Z.ltb_spec v z); [|eexists; split; [done|cbn; lia]].
  next_rd c Hc. case_if; [|eexists; split; [done|cbn; lia]].
  eapply returns_mono; [apply IH; lia|]. cbn. lia.
Qed.

Lemma value_loop_safe fuel v z out cap o :
  0 <= v -> z <= n -> 0 <= o < cap -> cap <= len out -> cap - o <= Z.of_nat fuel ->
  returns (value_loop fuel raw v z out cap o)
    (fun '(out', o') => length out' = length out /\ 0 <= o' < cap).
Proof.
  revert v out o. induction fuel as [|f IH]; intros v out o Hv Hz Ho Hc Hf; [lia|].
  cbn [value_loop]. case_if; [|eexists; split; [done|cbn; lia]].
  next_rd c Hr. rewrite wr_Some by lia. cbn [mbind option_bind].
  eapply returns_mono; [apply IH; rewrite ?length_insert; lia|].
  intros [out' o'] [H1 H2]. by rewrite length_insert in H1.
Qed.

Definition value_post (out : bytes) (v : Z * bytes) : Prop :=
  let '(r, out') := v in
  (r = 0 \/ r = 1) /\ length out' = length out /\ exists t, cstr out' 0 t.

Lemma header_loop_safe fuel p name t out cap :
  cstr name 0 t -> 0 <= p -> 0 < cap <= len out -> (exists t, cstr out 0 t) ->
  Z.max 0 (n - p) < Z.of_nat fuel ->
  returns (header_loop fuel raw n p name out cap) (value_post out).
Proof.
  intros Ht. revert p. induction fuel as [|f IH]; intros p Hp Hc Ho Hf; [lia|]. cbn [header_loop].
  destruct (Z.ltb_spec p n); [|eexists; split; [done|cbn; auto]].
  eapply returns_bind; [apply skip_safe; lia|]. intros a (Ha & Ha' & Hstop).
  destruct (Z.leb_spec n a) as [|Hal]; [eexists; split; [done|cbn; auto]|].
  eapply returns_bind; [apply skip_safe; lia|]. intros z (Hz & Hz' & Hzstop).
  assert (Hgt : a < z).
  { destruct (Z.eq_dec a z) as [<-|]; [|lia].
    destruct (Hstop Hal) as (c & Hc1 & Hc2), (Hzstop Hal) as (c' & Hc1' & Hc2').
    rewrite Hc1 in Hc1'. injection Hc1' as <-. by rewrite Hc2 in Hc2'. }
  eapply returns_bind; [apply skip_safe; lia|]. intros colon (Hco & Hco' & _).
  apply (returns_bind _ _ (fun _ => True)).
  { case_if; [|by eexists]. apply (range_eq_ci_safe _ _ _ t); (done || lia). }
  intros hit _. destruct hit; [|apply IH; (done || lia)].
  eapply returns_bind; [apply skip_safe; lia|]. intros v (Hv & _).
  eapply returns_bind; [apply trim_end_safe; lia|]. cbn. intros z' Hz2.
  eapply returns_bind; [apply (value_loop_safe (S (Z.to_nat cap)) v z' out cap 0); lia|].
  intros [out' o] [Hlo Hoo].
  rewrite wr_Some by lia. cbn [mbind option_bind]. eexists. split; [done|].
  split; [by right|]. split; [by rewrite length_insert|].
  apply (cstr_exists _ o); [lia|]. apply (rd_wr_eq out'). apply wr_Some. lia.
Qed.

Lemma header_value_ci_safe name t out cap :
  cstr name 0 t -> 0 < cap <= len out ->
  returns (header_value_ci raw n name out cap) (value_post out).
Proof.
  intros Ht Hc. unfold header_value_ci. if_false. rewrite wr_Some by lia. cbn [mbind option_bind].
  eapply returns_bind; [apply skip_safe; lia|]. intros p (Hp & _).
  eapply returns_mono; [apply (header_loop_safe _ _ _ t)|].
  - done.
  - case_if; lia.
  - rewrite length_insert. lia.
  - exists []. constructor. apply (rd_wr_eq out), wr_Some. lia.
  - case_if; lia.
  - intros [r out'] (H1 & H2 & H3). rewrite length_insert in H2. done.
Qed.

Lemma starts_safe i l : 0 <= i -> i + len l <= len raw -> returns (starts raw i l) (fun _ => True).
Proof.
  revert i. induction l as [|x l IH]; intros i Hi Hl; cbn [starts length] in *; [by eexists|].
  next_rd c Hc. case_if; [apply IH; lia|by eexists].
Qed.

Lemma find_bytes_safe l :
  returns (find_bytes raw n l) (fun r =>
    match r with Some i => 0 <= i /\ i + len l <= n | None => True end).
Proof.
  assert (Hloop : forall k i, 0 <= i -> Z.of_nat k + i + len l <= n + 1 \/ k = 0%nat ->
    returns (find_loop k raw l i) (fun r =>
      match r with Some i => 0 <= i /\ i + len l <= n | None => True end)).
  { induction k as [|k IH]; intros i Hi Hk; cbn [find_loop]; [by eexists|].
    eapply returns_bind; [apply starts_safe; lia|]. intros hit _.
    destruct hit; [eexists; split; [done|cbn; lia]|]. apply IH; lia. }
  apply Hloop; lia.
Qed.

Lemma header_bounds_safe :
  returns (header_bounds raw n) (fun '(he, bo) =>
    0 <= he <= n /\ 0 <= bo <= n /\ he <= bo).
Proof.
  unfold header_bounds. eapply returns_bind; [apply find_bytes_safe|].
  intros [i|] Hi; [eexists; split; [done|cbn in *; lia]|].
  eapply returns_bind; [apply find_bytes_safe|].
  intros [j|] Hj; (eexists; split; [done|cbn in *; lia]).
Qed.

Lemma status_line_safe st cap :
  0 <= cap -> match st with Ptr s => cap <= len s | Null => True end ->
  returns (status_line raw n st cap) (same_object st).
Proof.
  intros Hc Hs. unfold status_line. destruct st as [|s]; [by eexists|].
  case_if; [by eexists|].
  assert (Hloop : forall fuel s' i, length s' = length s -> 0 <= i < cap -> cap - i <= Z.of_nat fuel ->
    returns (status_loop fuel raw n s' cap i) (fun '(s2, j) => length s2 = length s /\ 0 <= j < cap)).
  { induction fuel as [|f IH]; intros s' i Hl Hi Hf; [lia|]. cbn [status_loop].
    case_if; [|by eexists]. next_rd c Hr. case_if; [|by eexists].
    rewrite wr_Some by lia. cbn [mbind option_bind]. apply IH; rewrite ?length_insert; lia. }
  eapply returns_bind; [apply Hloop; (done || lia)|]. intros [s2 j] [H2 Hj].
  rewrite wr_Some by lia. eexists. split; [done|]. cbn. by rewrite length_insert.
Qed.
End headers.

Lemma parse_size_dec_safe s t :
  cstr s 0 t -> returns (parse_size_dec (Ptr s)) (fun r =>
    match r with Some v => 0 <= v | None => True end).
Proof.
  intros Ht. unfold parse_size_dec. rewrite (cstr_rd _ _ _ Ht). cbn [mbind option_bind].
  case_if; [by eexists|].
  assert (Hloop : forall fuel i t v, cstr s i t -> (length t < fuel)%nat -> 0 <= v ->
    returns (size_dec_loop fuel s i v) (fun r =>
      match r with Some v => 0 <= v | None => True end)).
  { induction fuel as [|f IH]; intros i t' v Ht' Hf Hv; [lia|]. cbn [size_dec_loop].
    rewrite (cstr_rd _ _ _ Ht'). cbn [mbind option_bind].
    destruct t' as [|c t']; cbn [head0]; [by eexists|].
    apply cstr_char_inv in Ht' as (_ & Hc & Ht'). cbn [length] in Hf.
    replace (c =? 0) with false by (symmetry; by apply Z.eqb_neq).
    case_if; [by eexists|]. case_if; [by eexists|].
    apply (IH _ t'); [done|lia|apply u64_range]. }
  pose proof (cstr_bounds _ _ _ Ht). apply (Hloop _ _ t); (done || lia).
Qed.

(** ** The decoder on any input *)

Section decode.
Context (m : bytes) (so n : Z).
Context (Hso : 0 <= so) (Hm : so + n <= len m).

Lemma skip_ext_safe fuel p :
  0 <= p <= n -> n - p < Z.of_nat fuel ->
  returns (skip_ext m so n fuel p) (fun q => p <= q <= n).
Proof.
  revert p. induction fuel as [|f IH]; intros p Hp Hf; [lia|]. cbn [skip_ext]. unfold src_at.
  case_if; [|eexists; split; [done|cbn; lia]]. next_rd c Hc.
  case_if; [eexists; split; [done|cbn; lia]|].
  eapply returns_mono; [apply IH; lia|]. cbn. lia.
Qed.

Definition size_post (p : Z) (r : option (Z * Z * Z)) : Prop :=
  match r with
  | Some (q, v, k) => p <= q <= n /\ 0 <= v <= 0x100000 /\ (k = 0 \/ p < q)
  | None => True
  end.

Lemma size_loop_safe fuel p0 p v k :
  0 <= p0 <= p -> p <= n -> 0 <= v <= 0x100000 -> (k = 0 \/ p0 < p) ->
  n - p < Z.of_nat fuel ->
  returns (size_loop m so n fuel p v k) (size_post p0).
Proof.
  revert p v k. induction fuel as [|f IH]; intros p v k Hp Hpn Hv Hk Hf; [lia|].
  cbn [size_loop]. unfold src_at.
  case_if; [|eexists; split; [done|cbn; lia]]. next_rd c Hc.
  case_if; [eexists; split; [done|cbn; lia]|]. case_if.
  { eapply returns_bind; [apply skip_ext_safe; lia|]. intros q Hq.
    eexists. split; [done|]. cbn in *. lia. }
  case_if; [by eexists|].
  pose proof (hexval_lt c). rewrite (u64_id (v * 16)), u64_id by lia.
  case_if; [by eexists|]. apply IH; lia.
Qed.

Lemma skip_char_safe c p :
  0 <= p <= n -> returns (skip_char m so n c p) (fun q => p <= q <= n).
Proof.
  intros Hp. unfold skip_char, src_at. case_if; [|eexists; split; [done|cbn; lia]].
  next_rd x Hx. eexists. split; [done|]. cbn. case_if; lia.
Qed.

Lemma skip_crlf_safe p : 0 <= p <= n -> returns (skip_crlf m so n p) (fun q => p <= q <= n).
Proof.
  intros Hp. unfold skip_crlf. eapply returns_bind; [by apply skip_char_safe|].
  cbn. intros q Hq. eapply returns_mono; [apply skip_char_safe; lia|]. cbn. lia.
Qed.

(** The buffer keeps its size; a body that is reported is terminated. *)
Definition decode_post (out : bytes) (cap : Z) (v : Z * bytes) : Prop :=
  let '(r, out') := v in
  length out' = length out /\ 0 <= r < cap /\ (r <> 0 \/ n = 0 -> rd out' r = Some 0).

Lemma decode_loop_safe fuel p o out cap :
  0 <= p <= n -> 0 <= o < cap -> cap <= len out -> n - p < Z.of_nat fuel ->
  returns (decode_loop m so n fuel p o out cap) (decode_post out cap).
Proof.
  revert p o out. induction fuel as [|f IH]; intros p o out Hp Ho Hc Hf; [lia|].
  cbn [decode_loop].
  assert (Hend : forall out', length out' = length out ->
    returns (out' ← wr out' o 0; Some (o, out')) (decode_post out cap)).
  { intros out' Hl. rewrite wr_Some by lia. cbn [mbind option_bind]. eexists. split; [done|].
    split; [by rewrite length_insert|]. split; [done|]. intros _.
    apply (rd_wr_eq out'), wr_Some. lia. }
  destruct (Z.ltb_spec p n) as [Hpn|Hpn]; [|by apply Hend].
  assert (Hzero : returns (Some (0, out)) (decode_post out cap)).
  { eexists. split; [done|]. cbn. split; [done|]. split; lia. }
  eapply returns_bind; [apply (size_loop_safe _ p); lia|].
  intros [[[q v] k]|] Hs; [|exact Hzero]. destruct Hs as (Hq & Hv & Hk).
  destruct (Z.eqb_spec k 0) as [|Hk0]; [exact Hzero|].
  eapply returns_bind; [apply skip_crlf_safe; lia|]. cbn. intros p2 Hp2.
  destruct (Z.eqb_spec v 0) as [|Hv0]; [by apply Hend|].
  destruct (Z.ltb_spec (n - p2) v) as [|Hle]; [exact Hzero|].
  set (copy := if v <? cap - 1 - o then v else cap - 1 - o).
  assert (Hcopy : 0 <= copy <= v /\ copy <= cap - 1 - o) by (unfold copy; case_if; lia).
  apply (returns_bind _ _ (fun out' => length out' = length out)).
  { case_if; [|by eexists]. rewrite copy_from_spec by lia. eexists. split; [done|].
    apply blit_length; rewrite ?slice_length; lia. }
  intros out' Hl. eapply returns_bind; [apply skip_crlf_safe; lia|]. cbn. intros p3 Hp3.
  eapply returns_mono; [apply IH; [lia| |lia|lia]|].
  { case_if; lia. }
  intros [r o'] (H1 & H2 & H3). split; [lia|]. done.
Qed.

Lemma decode_chunked_safe out cap :
  0 <= n -> 0 < cap <= len out ->
  returns (decode_chunked m so n out cap) (decode_post out cap).
Proof. intros Hn Hc. unfold decode_chunked. if_false. apply decode_loop_safe; lia. Qed.
End decode.

(** ** The request *)

Definition request_post (v : bytes * Z) : Prop := let '(req, o) := v in len req = 768 /\ 0 <= o < 768.

Lemma append_safe req o a t :
  cstr a 0 t -> request_post (req, o) -> returns (append req o a) request_post.
Proof.
  intros Ha [Hl Ho]. unfold append.
  assert (Hloop : forall fuel req o i t, cstr a i t -> request_post (req, o) ->
    (length t < fuel)%nat -> returns (req_append fuel req o a i) request_post).
  { clear. induction fuel as [|f IH]; intros req o i t Ht [Hl Ho] Hf; [lia|].
    cbn [req_append]. rewrite (cstr_rd _ _ _ Ht). cbn [mbind option_bind].
    destruct t as [|c t]; cbn [head0]; [by eexists|].
    apply cstr_char_inv in Ht as (_ & Hc & Ht). cbn [length] in Hf.
    case_if; [|by eexists]. rewrite wr_Some by lia. cbn [mbind option_bind].
    apply (IH _ _ _ t); [done|split; [rewrite length_insert|]; lia|lia]. }
  pose proof (cstr_bounds _ _ _ Ha). apply (Hloop _ _ _ _ t); (done || lia).
Qed.

Lemma digits_append_safe req o ds :
  request_post (req, o) -> returns (digits_append req o ds) request_post.
Proof.
  revert req o. induction ds as [|d ds IH]; intros req o [Hl Ho]; cbn [digits_append]; [by eexists|].
  case_if; [|by eexists]. rewrite wr_Some by lia. cbn [mbind option_bind].
  apply IH. split; [rewrite length_insert|]; lia.
Qed.

Lemma build_request_safe req u h p :
  len req = 768 -> cstr (u_host u) 0 h -> cstr (u_path u) 0 p ->
  returns (build_request req u) request_post.
Proof.
  intros Hl Hh Hp. unfold build_request.
  eapply returns_bind; [apply (append_safe _ _ _ _ (cstr_text (chars "GET ") eq_refl)); split; lia|].
  intros [r1 o1] H1. eapply returns_bind; [by apply (append_safe _ _ _ _ Hp)|].
  intros [r2 o2] H2. eapply returns_bind.
  { apply (append_safe _ _ _ _ (cstr_text (chars " HTTP/1.0" ++ CRLF ++ chars "Host: ") eq_refl)). done. }
  intros [r3 o3] H3. eapply returns_bind; [by apply (append_safe _ _ _ _ Hh)|].
  intros [r4 o4] H4. apply (returns_bind _ _ request_post).
  { case_if; [|by eexists]. destruct H4 as [Hr4 Ho4]. rewrite wr_Some by lia.
    cbn [mbind option_bind]. apply digits_append_safe. split; [rewrite length_insert|]; lia. }
  intros [r5 o5] H5. by apply (append_safe _ _ _ _ (cstr_text request_tail eq_refl)).
Qed.

(** ** The client *)

Section client.
Context {E : Type} `{!HttpNet E}.
Context (stack : Z -> bytes).
Context (Hstack : forall n, 0 <= n -> len (stack n) = n).
Context (T : Prop) (J I : E -> Prop) `{!HttpNetLaws T J I}.
Context (cap status_cap : Z).

Local Abbreviation status_ok := (Cstr.status_ok status_cap).

(** The objects of the call; [n] is the size of the body buffer. *)
Definition objects_ok (n : Z) (st : ptr bytes) (h : http (E := E)) : Prop :=
  len (h_body h) = n /\ same_object st (h_status h) /\ len (h_raw h) = 32768 /\ J (h_env h).

Lemma log_J s h : J (h_env h) -> J (h_env (log s h)).
Proof. intros H. by apply (log_law s (h_env h) H). Qed.

Lemma log_I s h : J (h_env h) -> I (h_env h) -> I (h_env (log s h)).
Proof. intros H. by apply (log_law s (h_env h) H). Qed.

Lemma fail_safe n st why t h :
  cstr why 0 t -> status_ok st -> objects_ok n st h ->
  safe T (fail status_cap why h) (fun '(r, h') =>
    r = Return 0 /\ objects_ok n st h' /\ h_env h' = h_env h /\ h_raw h' = h_raw h).
Proof.
  intros Hw Hs (Hb & Hst & Hr & Hj). unfold fail.
  apply (status_ok_same _ _ _ Hst) in Hs.
  apply (safe_bind _ _ _ (same_object (h_status h))).
  - apply safe_ub. by apply (scopy_status _ _ _ t).
  - intros st' Hst'. cbn. repeat split; try done. by eapply same_object_trans.
Qed.

Lemma read_loop_safe fuel raw rl e :
  J e -> len raw = 32768 -> 0 <= rl < 32768 -> 32768 - rl <= Z.of_nat fuel ->
  safe T (read_loop fuel raw rl e)
    (fun '(raw', rl', e') => len raw' = 32768 /\ 0 <= rl' < 32768 /\ J e').
Proof.
  revert raw rl e. induction fuel as [|f IH]; intros raw rl e Hj Hl Hr Hf; [lia|].
  cbn [read_loop]. destruct (Z.ltb_spec (rl + 1) 32768) as [Hlt|Hge]; [|done].
  eapply safe_bind; [apply tcp_read_law; [done|lia]|]. intros [[n d] e'] [Hn Hj'].
  destruct (Z.ltb_spec n 0) as [|Hn0]; [done|]. destruct Hn as [|[Hn Hd]]; [lia|].
  apply (safe_bind _ _ _ (fun raw' => len raw' = 32768)).
  { apply safe_ub. rewrite copy_from_spec by lia. eexists. split; [done|].
    rewrite blit_length; [done|lia|]. rewrite slice_length by lia. lia. }
  intros raw' Hraw'. apply IH; (done || lia).
Qed.

(** The outcome of an exchange with the server. *)
Definition transact_post (n : Z) (st : ptr bytes) (u : url_parts) (h : http (E := E))
    (x : option Z * http) : Prop :=
  let '(r, h') := x in
  objects_ok n st h' /\ match r with Some m => 0 <= m < 32768 | None => True end /\
  (u_secure u <> 0 -> I (h_env h) -> I (h_env h')).

Lemma transact_plain n st u t req o h :
  u_secure u = 0 -> cstr (u_host u) 0 t -> 0 <= o <= len req -> status_ok st -> objects_ok n st h ->
  safe T (transact u req o status_cap h) (transact_post n st u h).
Proof.
  intros Hu Hh Ho Hs (Hb & Hst & Hr & Hj). unfold transact. rewrite Hu. cbn [Z.eqb negb].
  eapply safe_bind; [apply (tcp_connect_law _ t); [done|done|by apply (status_ok_same _ st)]|].
  intros [[ok st1] e1] [Hst1 Hj1].
  assert (Hst1' : same_object st st1) by (by eapply same_object_trans).
  destruct (ok =? 0); [by repeat split|].
  eapply safe_bind; [by apply tcp_write_law|]. intros [ok2 e2] Hj2.
  assert (Hfail : forall raw e why t, len raw = 32768 -> J e -> cstr why 0 t ->
    safe T ('(_, h) ← fail status_cap why (mk_http (h_body h) st1 raw e); Ok (None, h))
      (transact_post n st u h)).
  { intros raw e why w Hraw Hje Hw. eapply safe_bind; [by apply (fail_safe n st _ w)|].
    intros [r h'] (_ & Hok & _). cbn. split; [done|]. split; [done|]. by intros. }
  destruct (ok2 =? 0).
  { eapply safe_bind; [by apply tcp_close_law|]. intros e3 Hj3.
    by apply (Hfail _ _ _ (chars "HTTP write failed")); [| |apply cstr_text]. }
  eapply safe_bind; [apply read_loop_safe; (done || lia)|]. intros [[raw rl] e3] (Hraw & Hrl & Hj3).
  eapply safe_bind; [by apply tcp_close_law|]. intros e4 Hj4.
  destruct (Z.eqb_spec rl 0).
  { by apply (Hfail _ _ _ (chars "No HTTP data")); [| |apply cstr_text]. }
  cbn [h_raw h_body h_status]. rewrite wr_Some by lia. cbn. repeat split; try done; try lia.
  cbn. by rewrite length_insert.
Qed.

Lemma transact_safe n st u t req o h :
  cstr (u_host u) 0 t -> 0 <= o <= len req -> status_ok st -> objects_ok n st h ->
  safe T (transact u req o status_cap h) (transact_post n st u h).
Proof.
  intros Hh Ho Hs Hobj. destruct (Z.eq_dec (u_secure u) 0) as [Hu|Hu]; [by apply (transact_plain _ _ _ t)|].
  destruct Hobj as (Hb & Hst & Hr & Hj). unfold transact.
  destruct (Z.eqb_spec (u_secure u) 0) as [|_]; [done|]. cbn [negb].
  rewrite <- Hr at 1. eapply safe_bind; [apply (exchange_law _ t); try done; by apply (status_ok_same _ st)|].
  intros [[[[ok raw'] m] st'] e'] (H1 & H2 & H3 & H4 & H5).
  cbn. split; [split; [done|split; [by eapply same_object_trans|cbn; split; [lia|done]]]|]. split; [|done].
  destruct (Z.eqb_spec ok 0); [done|]. rewrite <- Hr. by apply H3.
Qed.

(** The body buffer after a successful call. *)
Definition terminated (body : bytes) : Prop := exists k, 0 <= k < cap /\ rd body k = Some 0.

Lemma store_body_safe raw he bo rl body :
  len raw = 32768 -> 0 <= he <= rl -> 0 <= bo <= rl -> rl < 32768 -> 2 <= cap <= len body ->
  returns (store_body stack raw he bo rl body cap) (fun r =>
    match r with
    | Stored b => length b = length body /\ terminated b
    | Rejected b why => length b = length body /\ exists t, cstr why 0 t
    end).
Proof.
  intros Hr Hhe Hbo Hrl Hc. unfold store_body.
  apply (returns_bind _ _ (fun '(src, k) => 0 <= src /\ 0 <= k /\ src + k = rl)).
  { unfold skip_bom. case_if; [|eexists; split; [done|cbn; lia]].
    eapply returns_bind; [apply starts_safe; cbn; lia|]. intros b _. eexists. split; [done|].
    destruct b; cbn; lia. }
  intros [src k] (Hsrc & Hk & Hsum).
  eapply returns_bind.
  { apply (contains_ci_safe raw he ltac:(lia) _ _ (cstr_text (chars "transfer-encoding: chunked") eq_refl)). }
  intros chunked _. destruct chunked.
  - eapply returns_bind; [apply decode_chunked_safe; lia|]. intros [w b] (H1 & H2 & H3).
    destruct (Z.eqb_spec w 0) as [Hw|Hw]; cbn [andb].
    + destruct (Z.eqb_spec k 0) as [Hk0|Hk0]; cbn [negb].
      * eexists. split; [done|]. split; [done|]. exists w. split; [lia|]. auto.
      * eexists. split; [done|]. split; [done|].
        eexists. apply (cstr_text (chars "Invalid chunked response") eq_refl).
    + eexists. split; [done|]. split; [done|]. exists w. split; [lia|]. auto.
  - pose proof (Hstack 32 ltac:(lia)) as H32. eapply returns_bind.
    { apply (header_value_ci_safe raw he ltac:(lia) _ (chars "Content-Length") (stack 32) 32
        (cstr_text (chars "Content-Length") eq_refl)). lia. }
    intros [found clen] (_ & Hcl & t & Ht).
    apply (returns_bind _ _ (fun r => match r with Some v => 0 <= v | None => True end)).
    { case_if; [by eexists|]. by apply (parse_size_dec_safe _ t). }
    intros [ex|] Hex.
    2: { eexists. split; [done|]. split; [done|]. eexists. apply (cstr_text (chars "Invalid Content-Length") eq_refl). }
    destruct (Z.ltb_spec k ex) as [|Hke].
    { eexists. split; [done|]. split; [done|]. eexists. apply (cstr_text (chars "Truncated HTTP body") eq_refl). }
    set (k' := if ex <? k then ex else k). assert (Hk' : 0 <= k' <= k) by (unfold k'; case_if; lia).
    set (w := if k' <? cap - 1 then k' else cap - 1).
    assert (Hw : 0 <= w <= k' /\ w <= cap - 1) by (unfold w; case_if; lia).
    rewrite copy_from_spec by lia. cbn [mbind option_bind].
    assert (Hbl : length (blit body 0 (slice raw src (Z.of_nat (Z.to_nat w)))) = length body)
      by (apply blit_length; rewrite ?slice_length; lia).
    rewrite wr_Some by lia. eexists. split; [done|]. split; [by rewrite length_insert|].
    exists w. split; [lia|]. eapply rd_wr_eq. apply wr_Some. lia.
Qed.

(** A URL that, if it parses, is HTTPS. *)
Definition https_only (t : bytes) : Prop := forall u, url_ref 96 160 t = Some u -> secure u = 1.

(** The results of a turn from the URL [t]. *)
Definition turn_post (n : Z) (st : ptr bytes) (t : bytes) (h : http (E := E)) (v : outcome * http) : Prop :=
  let '(r, h') := v in
  objects_ok n st h' /\ (https_only t -> I (h_env h) -> I (h_env h')) /\
  match r with
  | Return x => x = 0 \/ (x = 1 /\ terminated (h_body h'))
  | Follow next => len next = 256 /\ exists t', cstr next 0 t' /\ (https_only t -> https_only t')
  end.

Lemma fail_turn n st t h0 why w h :
  cstr why 0 w -> status_ok st -> objects_ok n st h ->
  (https_only t -> I (h_env h0) -> I (h_env h)) ->
  safe T (fail status_cap why h) (turn_post n st t h0).
Proof.
  intros Hw Hs Ho Hi. eapply safe_mono; [by apply (fail_safe n st _ w)|].
  intros [r h'] (-> & Hok & He & _). split; [done|]. rewrite He. split; [done|by left].
Qed.

Lemma respond_safe redirect current t he bo rl n st h0 h u :
  cstr current 0 t -> len current = 256 -> status_ok st -> objects_ok n st h -> 2 <= cap <= n ->
  0 <= he <= rl -> 0 <= bo <= rl -> rl < 32768 ->
  url_ref 96 160 t = Some u ->
  (https_only t -> I (h_env h0) -> I (h_env h)) ->
  safe T (respond stack redirect current he bo rl cap status_cap (negb (secure u =? 0)) h)
    (turn_post n st t h0).
Proof.
  intros Hcur Hcl Hs Ho Hcap Hhe Hbo Hrl Hu Hi. pose proof Ho as (Hb & Hst & Hraw & Hj). unfold respond.
  eapply safe_bind; [apply safe_ub, http_status_code_safe; lia|]. intros code _.
  destruct (redirect_code code).
  - pose proof (Hstack 256 ltac:(lia)) as H256. eapply safe_bind.
    { apply safe_ub, (header_value_ci_safe (h_raw h) he ltac:(lia) _ (chars "Location") (stack 256) 256
        (cstr_text (chars "Location") eq_refl)). lia. }
    intros [found loc] (_ & Hll & tl & Htl).
    destruct (found =? 0); [by apply (fail_turn _ _ _ _ _ _ _ (cstr_text (chars "Redirect missing Location") eq_refl))|].
    destruct (redirect =? 3); [by apply (fail_turn _ _ _ _ _ _ _ (cstr_text (chars "Too many redirects") eq_refl))|].
    rewrite (resolve_redirect_spec stack Hstack current t loc tl) by (done || lia).
    destruct (resolve_ref t tl) as [target| |] eqn:Eres; cbn [ub mbind res_bind];
      [|by apply (fail_turn _ _ _ _ _ _ _ (cstr_text (chars "Refusing HTTPS downgrade") eq_refl))
       |by apply (fail_turn _ _ _ _ _ _ _ (cstr_text (chars "Unsupported redirect URL") eq_refl))].
    change (1 <? 0) with false. change (1 =? 0) with false. cbn match.
    set (nt := fit 256 target).
    assert (Hnt : nonzero nt).
    { apply fit_nonzero. apply (resolve_ref_nonzero t tl); [by eapply cstr_nonzero..|done]. }
    pose proof (fit_length 256 target ltac:(lia)) as Hnl. fold nt in Hnl.
    rewrite (scopy_array_spec _ _ _ nt) by (by apply cstr_blit || lia).
    rewrite (fit_all 256 nt) by lia. cbn [ub mbind res_bind].
    split; [split; [done|split; [done|split; [done|by apply log_J]]]|].
    split; [intros Ht1 Hi1; by apply log_I; [|apply Hi]|].
    split; [rewrite blit_length; [done|lia|rewrite length_app; cbn [length]; lia]|].
    exists nt. split; [by apply cstr_blit|]. intros Ht u' Hu'.
    by apply (redirect_keeps_https t tl 256 u target u'); [|apply Ht| | |].
  - eapply safe_bind; [apply safe_ub, store_body_safe; (done || lia)|].
    intros [body|body why] Hb'.
    + destruct Hb' as [Hbl Hterm]. cbn.
      split; [split; [cbn; lia|split; [done|split; [done|]]]|split; [|by right]].
      * by apply (log_J _ (mk_http _ _ _ _)).
      * intros. by apply (log_I _ (mk_http body (h_status h) (h_raw h) (h_env h))); [|apply Hi].
    + destruct Hb' as [Hbl [w Hw]]. apply (fail_turn _ _ _ _ _ w); [done|done| |done].
      split; [cbn; lia|done].
Qed.

Lemma turn_safe redirect current t n st h :
  cstr current 0 t -> len current = 256 -> status_ok st -> objects_ok n st h -> 2 <= cap <= n ->
  safe T (http_turn stack redirect current cap status_cap h) (turn_post n st t h).
Proof.
  intros Hcur Hcl Hs Ho Hcap. unfold http_turn.
  pose proof (Hstack 96 ltac:(lia)) as H96. pose proof (Hstack 160 ltac:(lia)) as H160.
  pose proof (Hstack 768 ltac:(lia)) as H768.
  pose proof (parse_url_agrees current t (stack 96) 96 0 (stack 160) 160 0 Hcur ltac:(lia) ltac:(lia))
    as Hp.
  destruct (url_ref 96 160 t) as [u|] eqn:Hu; cbn [agrees] in Hp;
    [rewrite Hp|destruct Hp as [v ->]]; cbn [ub mbind res_bind].
  2: { by apply (fail_turn _ _ _ _ _ _ _ (cstr_text (chars "Invalid URL") eq_refl)). }
  change (1 =? 0) with false. cbn match.
  pose proof (url_ref_ok _ _ _ _ (cstr_nonzero _ _ _ Hcur) Hu) as (_ & Hhz & Hpz & _).
  match goal with |- context [transact _ _ _ _ ?h'] => set (h1 := h') end.
  assert (Hj : J (h_env h)) by apply Ho.
  assert (Ho1 : objects_ok n st h1).
  { destruct Ho as (? & ? & ? & _). split; [done|]. split; [done|]. split; [done|]. by repeat apply log_J. }
  assert (Hi1 : I (h_env h) -> I (h_env h1)) by (intros; repeat apply log_I; by repeat apply log_J).
  eapply safe_bind.
  { apply safe_ub, (build_request_safe _ _ (host u) (path u)); [done|by apply cstr_blit..]. }
  intros [req o] [Hreq Horeq]. eapply safe_bind.
  { apply (transact_safe n st _ (host u)); [by apply cstr_blit|lia|done|done]. }
  intros [[rl|] h2] (Ho2 & Hrl & Hi2).
  - pose proof Ho2 as (Hb2 & Hst2 & Hraw2 & Hj2).
    eapply safe_bind; [apply safe_ub, header_bounds_safe; lia|]. intros [he bo] (Hhe & Hbo & _).
    eapply safe_bind.
    { apply safe_ub, status_line_safe; [lia| |].
      - by destruct Hs. 
      - apply (status_ok_same _ _ _ Hst2) in Hs as [_ Hs]. by destruct (h_status h2). }
    intros st' Hst'.
    assert (Ho3 : objects_ok n st (mk_http (h_body h2) st' (h_raw h2) (h_env h2))).
    { split; [done|split; [by eapply same_object_trans|split; done]]. }
    assert (Hi3 : https_only t -> I (h_env h) -> I (h_env h2)).
    { intros Ht Hi. apply Hi2; [cbn; by rewrite (Ht u Hu)|by apply Hi1]. }
    destruct (bo =? 0); [by apply (fail_turn _ _ _ _ _ _ _ (cstr_text (chars "Malformed HTTP response") eq_refl))|].
    apply (respond_safe _ _ _ _ _ rl); try done; lia.
  - cbn. split; [done|]. split; [|by left].
    intros Ht Hi. apply Hi2; [cbn; by rewrite (Ht u Hu)|by apply Hi1].
Qed.

Definition get_post (n : Z) (st : ptr bytes) (t : bytes) (h : http) (v : Z * http) : Prop :=
  let '(r, h') := v in
  objects_ok n st h' /\ (https_only t -> I (h_env h) -> I (h_env h')) /\
  (r = 0 \/ (r = 1 /\ terminated (h_body h'))).

Lemma loop_safe k redirect current t n st h :
  cstr current 0 t -> len current = 256 -> status_ok st -> objects_ok n st h -> 2 <= cap <= n ->
  safe T (http_loop stack k redirect current cap status_cap h) (get_post n st t h).
Proof.
  revert redirect current t h. induction k as [|k IH]; intros redirect current t h Hcur Hcl Hs Ho Hcap;
    cbn [http_loop].
  - eapply safe_bind.
    { apply (fail_turn n st t h _ (chars "Too many redirects")); try done. apply cstr_lit.
      by apply lit_nonzero. }
    intros [r h'] (H1 & H2 & _). cbn. auto.
  - eapply safe_bind; [by apply (turn_safe _ _ t n st)|].
    intros [[x|next] h'] (Ho' & Hi' & Hr); [cbn; auto|].
    destruct Hr as (Hnl & t' & Ht' & Hsec).
    eapply safe_mono; [by apply (IH _ _ t')|]. intros [r h2] (H1 & H2 & H3).
    split; [done|]. split; [auto|done].
Qed.
End client.

Lemma http_get_post {E} `{!HttpNet E} stack T (J I : E -> Prop) `{!HttpNetLaws T J I}
    ready url t body cap status status_cap raw e :
  (forall n, 0 <= n -> len (stack n) = n) ->
  match url with Null => t = [] | Ptr s => cstr s 0 t end ->
  cap <= len body -> status_ok status_cap status -> len raw = 32768 -> J e ->
  safe T (net_http_get stack ready url (Ptr body) cap status status_cap raw e)
    (get_post J I cap (len body) status (fit 256 t) (mk_http body status raw e)).
Proof.
  intros Hstack Hurl Hc Hs Hr Hj. pose proof (Hstack 256 ltac:(lia)) as H256.
  assert (Href : same_object status status) by (by destruct status).
  unfold net_http_get. case_if.
  { cbn. split; [by repeat split|]. split; [done|by left]. }
  rewrite wr_Some by lia. cbn [ub mbind res_bind].
  apply (safe_bind _ _ _ (same_object status)).
  { apply safe_ub. destruct status as [|st]; [by eexists|]. destruct Hs as [Hs0 Hs].
    case_if; [by eexists|]. rewrite wr_Some by lia. eexists. split; [done|].
    cbn. by rewrite length_insert. }
  intros st Hst.
  assert (Hcur : exists cur, scopy (Ptr (stack 256)) 256 url = Some (Ptr cur) /\
    cstr cur 0 (fit 256 t) /\ len cur = 256).
  { destruct url as [|s].
    - subst t. unfold scopy. cbn [Z.eqb mbind option_bind]. rewrite wr_Some by lia.
      eexists. split; [done|]. split; [|by rewrite length_insert].
      unfold fit. rewrite take_nil. constructor. apply (rd_wr_eq (stack 256)), wr_Some. lia.
    - rewrite (scopy_spec _ _ _ t) by (done || lia). eexists. split; [done|].
      pose proof (fit_length 256 t ltac:(lia)).
      split; [apply cstr_blit, fit_nonzero; by eapply cstr_nonzero|].
      rewrite blit_length; [done|lia|]. rewrite length_app. cbn [length]. lia. }
  destruct Hcur as (cur & -> & Hcs & Hcl). cbn [ub mbind res_bind].
  eapply safe_mono.
  { apply (loop_safe stack Hstack T J I cap status_cap 4 0 cur (fit 256 t) (len body) status);
      [done|done|done| |lia].
    split; [cbn; by rewrite length_insert|split; [done|split; done]]. }
  intros [r h'] Hpost. exact Hpost.
Qed.

(** ** Properties *)

(** The HTTP client is memory safe against any server: whatever the
    transports deliver, [net_http_get] never reads or writes outside its request
    and response buffers, the caller's body and status buffers or its local
    arrays; the buffers keep their sizes, the result is 0 or 1, and a body reported
    with 1 is terminated inside its capacity.  An invariant [J] of the transports
    holds when it returns.  With transports that always return
    ([T] false) it always returns. *)
Theorem net_http_get_safe {E} `{!HttpNet E} stack T (J : E -> Prop) `{!HttpNetLaws T J (fun _ => True)}
    ready url t body cap status status_cap raw e :
  (forall n, 0 <= n -> len (stack n) = n) ->
  match url with Null => t = [] | Ptr s => cstr s 0 t end ->
  cap <= len body -> status_ok status_cap status -> len raw = 32768 -> J e ->
  safe T (net_http_get stack ready url (Ptr body) cap status status_cap raw e) (fun '(r, h) =>
    J (h_env h) /\ len (h_body h) = len body /\ same_object status (h_status h) /\
    (r = 0 \/ (r = 1 /\ exists k, 0 <= k < cap /\ rd (h_body h) k = Some 0))).
Proof.
  intros Hst Hu Hc Hs Hr Hj. eapply safe_mono.
  - by apply (http_get_post stack T J (fun _ => True) ready url t).
  - intros [r h] ((H1 & H2 & _ & H4) & _ & H3). done.
Qed.

(** C29. HTTPS is never left: a call whose URL begins with [https://], however
    long the URL and whatever redirects the servers answer, touches the network
    only through TLS exchanges.  Every property [I] of the environment that the log
    and the exchanges keep holds when the call returns. *)
Theorem net_http_get_https {E} `{!HttpNet E} stack T (J I : E -> Prop) `{!HttpNetLaws T J I}
    ready s t body cap status status_cap raw e :
  (forall n, 0 <= n -> len (stack n) = n) ->
  cstr s 0 t -> prefixb (chars "https://") t = true ->
  cap <= len body -> status_ok status_cap status -> len raw = 32768 -> J e -> I e ->
  safe T (net_http_get stack ready (Ptr s) (Ptr body) cap status status_cap raw e)
    (fun '(_, h) => I (h_env h)).
Proof.
  intros Hst Hu Hpre Hc Hs Hr Hj Hi. eapply safe_mono.
  - by apply (http_get_post stack T J I ready (Ptr s) t).
  - intros [r h] (_ & H & _). apply H; [|done]. intros u Hu'.
    assert (Hz : nonzero (fit 256 t)) by (apply fit_nonzero; by eapply cstr_nonzero).
    destruct (url_ref_ok _ _ _ _ Hz Hu') as ([H0|] & _); [|done].
    pose proof (url_ref_plain _ _ _ _ Hu' H0) as H4. apply fit_lookup in H4.
    apply (prefixb_lookup _ _ 4 115) in Hpre; [|done]. by rewrite Hpre in H4.
Qed.

(** ** A scripted network *)

Module Scripted.

(** The answers still to be given, and whether a plain connection was opened. *)
Record env := mk_env { answers : list bytes; plain : bool; fed : bytes }.

#[local] Instance scripted : HttpNet env := {|
  serial_write _ e := e;
  net_tcp_connect _ _ st _ e :=
    match answers e with
    | [] => Ok (0, st, mk_env [] true [])
    | a :: l => Ok (1, st, mk_env l true a)
    end;
  net_tcp_write _ _ _ e := Ok (1, e);
  net_tcp_read cap _ e :=
    match fed e with
    | [] => Ok (-1, [], e)
    | f =>
        let d := take (Z.to_nat cap) f in
        Ok (if 0 <? cap then len d else -1, d, mk_env (answers e) (plain e) (drop (Z.to_nat cap) f))
    end;
  net_tcp_close e := Ok (mk_env (answers e) (plain e) []);
  tls_https_exchange _ _ _ _ raw cap st _ e :=
    match answers e with
    | [] => Ok (0, raw, 0, st, e)
    | a :: l =>
        if len a <? len raw then Ok (1, blit raw 0 a, len a, st, mk_env l (plain e) (fed e))
        else Ok (0, raw, 0, st, mk_env l (plain e) (fed e))
    end
|}.

Lemma scripted_laws (I : env -> Prop)
  (HI : forall e e', plain e' = plain e -> I e -> I e') : HttpNetLaws False (fun _ => True) I.
Proof.
  split.
  - done.
  - intros. cbn. destruct (answers e); (split; [apply same_object_refl|done]).
  - done.
  - intros cap t e _ Hc. cbn. destruct (fed e) as [|f0 f]; cbn; [split; [lia|done]|].
    if_true. split; [|done]. right. split; [|done].
    destruct (Z.to_nat cap) eqn:Ec; [lia|]. cbn. rewrite length_take. lia.
  - done.
  - intros. cbn. pose proof (same_object_refl st).
    destruct (answers e) as [|a l]; [cbn; repeat split; try done; lia|].
    destruct (Z.ltb_spec (len a) (len raw)); cbn; repeat split; try done; try lia; try (by apply HI).
    rewrite blit_length; lia.
Qed.

Definition stack (n : Z) : bytes := replicate (Z.to_nat n) 0x5a.

Lemma stack_length n : 0 <= n -> len (stack n) = n.
Proof. intros. unfold stack. rewrite length_replicate. lia. Qed.

Definition response (lines : list bytes) (body : bytes) : bytes :=
  concat ((fun l => l ++ CRLF) <$> lines) ++ CRLF ++ body.

Definition get (url : bytes) (script : list bytes) : res (Z * http) :=
  net_http_get stack 1 (Ptr url) (Ptr (replicate 64 7)) 64 (Ptr (replicate 32 7)) 32
    (stack 32768) (mk_env script false []).

(** The result, the text of the status and of the body, the network. *)
Definition summary (r : res (Z * http)) : option (Z * option bytes * option bytes * env) :=
  match r with
  | Ok (v, h) =>
      Some (v, match h_status h with Ptr s => string_at 33 s 0 | Null => None end,
            string_at 65 (h_body h) 0, h_env h)
  | _ => None
  end.

Definition ok_chunked : bytes :=
  response [chars "HTTP/1.1 200 OK"; chars "Transfer-Encoding: chunked"]
    (chars "6" ++ CRLF ++ chars "<Orion" ++ CRLF ++ chars "1" ++ CRLF ++ chars ">" ++ CRLF ++
     chars "0" ++ CRLF ++ CRLF).
Definition moved (to : bytes) : bytes :=
  response [chars "HTTP/1.1 301 Moved"; chars "location: " ++ to] [].

Example redirected_and_chunked :
  summary (get (lit "https://orion.un/a/b") [moved (chars "c"); ok_chunked])
  = Some (1, Some (chars "HTTP/1.1 200 OK"), Some (chars "<Orion>"), mk_env [] false []).
Proof. vm_compute. reflexivity. Qed.

Example downgrade_refused :
  summary (get (lit "https://orion.un/a/b") [moved (chars "http://orion.un/"); ok_chunked])
  = Some (0, Some (chars "Refusing HTTPS downgrade"), Some [], mk_env [ok_chunked] false []).
Proof. vm_compute. reflexivity. Qed.

(** A complete response with an empty chunked body is reported as an error. *)
Example empty_chunked_rejected :
  summary (get (lit "https://orion.un/")
    [response [chars "HTTP/1.1 200 OK"; chars "Transfer-Encoding: chunked"]
       (chars "0" ++ CRLF ++ CRLF)])
  = Some (0, Some (chars "Invalid chunked response"), Some [], mk_env [] false []).
Proof. vm_compute. reflexivity. Qed.

(** A header name that ends in the searched text selects the decoder. *)
Example other_header_chunked :
  summary (get (lit "http://orion.un/")
    [response [chars "HTTP/1.1 200 OK"; chars "X-Transfer-Encoding: chunked"] (chars "3 little pigs")])
  = Some (0, Some (chars "Invalid chunked response"), Some [], mk_env [] true []).
Proof. vm_compute. reflexivity. Qed.

Lemma net_http_get_safe_witness :
  safe False (get (lit "http://orion.un/") [ok_chunked]) (fun '(r, h) =>
    True /\ len (h_body h) = 64 /\ same_object (Ptr (replicate 32 7)) (h_status h) /\
    (r = 0 \/ (r = 1 /\ exists k, 0 <= k < 64 /\ rd (h_body h) k = Some 0))).
Proof.
  unfold get. apply (net_http_get_safe (HttpNetLaws0 := scripted_laws (fun _ => True) ltac:(done))
    stack False (fun _ => True) 1 (Ptr (lit "http://orion.un/")) (chars "http://orion.un/")).
  - exact stack_length.
  - apply cstr_lit. by apply lit_nonzero.
  - discriminate.
  - split; discriminate.
  - apply stack_length. discriminate.
  - exact Logic.I.
Defined.

Lemma net_http_get_https_witness :
  safe False (get (lit "https://orion.un/") [moved (chars "http://evil/"); ok_chunked])
    (fun '(_, h) => plain (h_env h) = false).
Proof.
  unfold get. apply (net_http_get_https
    (HttpNetLaws0 := scripted_laws (fun e => plain e = false) ltac:(intros; cbn in *; congruence))
    stack False (fun _ => True) (fun e => plain e = false) 1 (lit "https://orion.un/") (chars "https://orion.un/")).
  - exact stack_length.
  - apply cstr_lit. by apply lit_nonzero.
  - reflexivity.
  - discriminate.
  - split; discriminate.
  - apply stack_length. discriminate.
  - exact Logic.I.
  - reflexivity.
Defined.
End Scripted.
