(* ===== verification/Wire.v ===== *)
(** * Messages written from left to right

    The lemmas and the tactic with which the frame builders of kernel/dhcp.c and
    kernel/net.c are computed: every store extends the part already written. *)

From S2P Require Import Prelude Dhcp NetEnv.

Section append.
Implicit Types (a r src : bytes).

Lemma dcopy_app a r o src n :
  o = len a -> n = length src -> (n <= length r)%nat ->
  dcopy (a ++ r) o src 0 n = Some ((a ++ src) ++ drop n r).
Proof.
  intros -> -> Hr. unfold dcopy. rewrite copy_from_spec by (rewrite ?length_app; lia).
  by rewrite slice_all, blit_app by lia.
Qed.

Lemma dzero_app a r o n :
  o = len a -> (n <= length r)%nat ->
  dzero (a ++ r) o n = Some ((a ++ replicate n 0) ++ drop n r).
Proof.
  intros -> Hr. unfold dzero. rewrite fill_spec by (rewrite ?length_app; lia).
  by rewrite blit_app, length_replicate by (rewrite length_replicate; lia).
Qed.

Lemma dput16_app a r o v :
  o = len a -> (2 <= length r)%nat -> dput16 (a ++ r) o v = Some ((a ++ be16 v) ++ drop 2 r).
Proof.
  intros -> Hr. destruct r as [|x [|y r]]; cbn [length] in Hr; [lia|lia|].
  unfold dput16. rewrite wr_Some by (rewrite length_app; cbn [length]; lia).
  cbn [mbind option_bind].
  rewrite wr_Some by (rewrite length_insert, length_app; cbn [length]; lia).
  f_equal. rewrite Nat2Z.id. replace (Z.to_nat (len a + 1)) with (length a + 1)%nat by lia.
  rewrite insert_app_r_alt by lia. replace (length a - length a)%nat with 0%nat by lia.
  rewrite insert_app_r_alt by lia. replace (length a + 1 - length a)%nat with 1%nat by lia.
  cbn. by rewrite <- app_assoc.
Qed.

Lemma dput32_app a r o v :
  o = len a -> (4 <= length r)%nat -> dput32 (a ++ r) o v = Some ((a ++ be32 v) ++ drop 4 r).
Proof.
  intros -> Hr.
  destruct r as [|x [|y [|z [|w r]]]]; cbn [length] in Hr; [lia..|].
  change (x :: y :: z :: w :: r) with ([x; y; z; w] ++ r). rewrite app_assoc.
  assert (E : dput32 (a ++ [x; y; z; w]) (len a) v = Some (a ++ be32 v)).
  { unfold dput32.
    assert (Hw : forall (l1 l2 : bytes) u (i : Z), (0 < length l2)%nat -> i = len l1 ->
      wr (l1 ++ l2) i u = Some (l1 ++ u :: drop 1 l2)).
    { intros l1 [|h l2] u i H ->; [cbn in H; lia|].
      rewrite wr_Some by (rewrite length_app; cbn [length]; lia).
      rewrite Nat2Z.id, insert_app_r_alt, Nat.sub_diag by lia. done. }
    rewrite Hw by (done || (cbn; lia)). cbn [mbind option_bind drop].
    change (u8 (Z.shiftr v 24) :: [y; z; w]) with ([u8 (Z.shiftr v 24)] ++ [y; z; w]).
    rewrite app_assoc, Hw by (rewrite ?length_app; cbn; lia). cbn [mbind option_bind drop].
    change (u8 (Z.shiftr v 16) :: [z; w]) with ([u8 (Z.shiftr v 16)] ++ [z; w]).
    rewrite app_assoc, Hw by (rewrite ?length_app; cbn; lia). cbn [mbind option_bind drop].
    change (u8 (Z.shiftr v 8) :: [w]) with ([u8 (Z.shiftr v 8)] ++ [w]).
    rewrite app_assoc, Hw by (rewrite ?length_app; cbn; lia).
    by rewrite <- !app_assoc. }
  rewrite (dput32_frame _ r _ _ _ E). by rewrite drop_app_ge.
Qed.

Lemma wr_app a r o (v : Z) :
  o = len a -> (1 <= length r)%nat -> wr (a ++ r) o v = Some ((a ++ [v]) ++ drop 1 r).
Proof.
  intros -> Hr. destruct r as [|h r]; [cbn in Hr; lia|].
  rewrite wr_Some by (rewrite length_app; cbn [length]; lia).
  rewrite Nat2Z.id, insert_app_r_alt, Nat.sub_diag by lia. by rewrite <- app_assoc.
Qed.
End append.

(** One store into the literal prefix of the buffer. *)
Ltac store_step :=
  match goal with
  | |- context [wr (?l ++ ?r) ?o ?v] =>
      let x := eval lazy -[u8 u16 Z.shiftr] in (wr l o v) in
      match x with Some ?l' => rewrite (wr_app_l l r o v l' eq_refl) end
  | |- context [dput16 (?l ++ ?r) ?o ?v] =>
      let x := eval lazy -[u8 u16 Z.shiftr] in (dput16 l o v) in
      match x with Some ?l' => rewrite (dput16_frame l r l' o v eq_refl) end
  | |- context [dcopy (?l ++ ?r) ?o ?s 0 ?n] =>
      let x := eval lazy -[u8 u16 Z.shiftr] in (dcopy l o s 0 n) in
      match x with Some ?l' => rewrite (dcopy_frame n l r l' o s 0 eq_refl) end
  end; cbn [mbind option_bind].
