(* ===== verification/DhcpClient.v ===== *)
(** * kernel/dhcp.c: the protocol engine

    The frames sent and received, the callback that reacts to replies, and the
    synchronous DISCOVER/OFFER/REQUEST/ACK exchange with its retransmissions
    and timeouts.  The clock and the network adapter are an environment [E]. *)

From S2P Require Import Prelude Dhcp Checksum NetEnv Wire.

Definition ETH_IP : Z := 0x0800.
Definition IP_UDP : Z := 17.
Definition DHCP_CLIENT_PORT : Z := 68.
Definition DHCP_SERVER_PORT : Z := 67.

Definition dget16 (p : bytes) (o : Z) : option Z :=
  a ← rd p o; b ← rd p (o + 1); Some (u16 (Z.lor (Z.shiftl (u16 a) 8) b)).

Definition ip_nonzero (ip : bytes) : option bool :=
  a ← rd ip 0;
  if negb (a =? 0) then Some true else
  b ← rd ip 1;
  if negb (b =? 0) then Some true else
  c ← rd ip 2;
  if negb (c =? 0) then Some true else
  d ← rd ip 3;
  Some (negb (d =? 0)).

(** The static variables of the file. *)
Record dhcp_state := mk_state {
  dhcp_phase : Z;
  dhcp_event : Z;
  dhcp_xid : Z;
  dhcp_mac : bytes;
  dhcp_rx_lease : OrionDhcpLease;
  dhcp_ip_id : Z
}.

Definition set_event (s : dhcp_state) (v : Z) : dhcp_state :=
  mk_state (dhcp_phase s) v (dhcp_xid s) (dhcp_mac s) (dhcp_rx_lease s) (dhcp_ip_id s).
Definition set_phase (s : dhcp_state) (v : Z) : dhcp_state :=
  mk_state v (dhcp_event s) (dhcp_xid s) (dhcp_mac s) (dhcp_rx_lease s) (dhcp_ip_id s).
Definition set_rx_lease (s : dhcp_state) (l : OrionDhcpLease) : dhcp_state :=
  mk_state (dhcp_phase s) (dhcp_event s) (dhcp_xid s) (dhcp_mac s) l (dhcp_ip_id s).
Definition set_ip_id (s : dhcp_state) (v : Z) : dhcp_state :=
  mk_state (dhcp_phase s) (dhcp_event s) (dhcp_xid s) (dhcp_mac s) (dhcp_rx_lease s) v.
Definition set_session (s : dhcp_state) (xid : Z) (mac : bytes) : dhcp_state :=
  mk_state (dhcp_phase s) (dhcp_event s) xid mac (dhcp_rx_lease s) (dhcp_ip_id s).

(** The frame of [dhcp_send_broadcast]; [frame] is the stack buffer, whose old
    contents are arbitrary.  The identification counter is consumed. *)
Definition broadcast_frame (s : dhcp_state) (frame payload : bytes) (payload_len : Z)
  : option (bytes * dhcp_state) :=
  f ← dcopy frame 0 [255; 255; 255; 255; 255; 255] 0 6;
  f ← dcopy f 6 (dhcp_mac s) 0 6;
  f ← dput16 f 12 ETH_IP;
  f ← dzero f 14 20;
  f ← wr f 14 0x45;
  f ← dput16 f (14 + 2) (u16 (20 + 8 + payload_len));
  f ← dput16 f (14 + 4) (dhcp_ip_id s);
  let s := set_ip_id s (u16 (dhcp_ip_id s + 1)) in
  f ← wr f (14 + 8) 64;
  f ← wr f (14 + 9) IP_UDP;
  f ← dcopy f (14 + 12) [0; 0; 0; 0] 0 4;
  f ← dcopy f (14 + 16) [255; 255; 255; 255] 0 4;
  c ← dhcp_checksum16 f 14 20;
  f ← dput16 f (14 + 10) c;
  f ← dput16 f 34 DHCP_CLIENT_PORT;
  f ← dput16 f (34 + 2) DHCP_SERVER_PORT;
  f ← dput16 f (34 + 4) (u16 (8 + payload_len));
  f ← dput16 f (34 + 6) 0;
  f ← dcopy f (34 + 8) payload 0 (Z.to_nat payload_len);
  Some (f, s).

(** [dhcp_rx], called by the adapter for one received frame. *)
Definition dhcp_rx (s : dhcp_state) (frame : ptr bytes) (len : Z) : option dhcp_state :=
  match frame with
  | Null => Some s
  | Ptr f =>
      if len <? 14 + 20 + 8 then Some s else
      t ← dget16 f 12;
      if negb (t =? ETH_IP) then Some s else
      let ip_len := len - 14 in
      b0 ← rd f 14;
      b9 ← rd f (14 + 9);
      if negb (Z.shiftr b0 4 =? 4) || negb (b9 =? IP_UDP) then Some s else
      let ihl := Z.land b0 15 * 4 in
      if (ihl <? 20) || (ip_len <? ihl) then Some s else
      total ← dget16 f (14 + 2);
      if (total <? ihl + 8) || (ip_len <? total) then Some s else
      let udp := 14 + ihl in
      let udp_avail := total - ihl in
      udp_len ← dget16 f (udp + 4);
      sport ← dget16 f udp;
      dport ← dget16 f (udp + 2);
      if negb (sport =? DHCP_SERVER_PORT) || negb (dport =? DHCP_CLIENT_PORT) then Some s else
      if (udp_len <? 8) || (udp_avail <? udp_len) then Some s else
      payload ← rd_bytes f (udp + 8) (udp_len - 8);
      '(ok, reply) ← dhcp_parse_reply (Ptr payload) (udp_len - 8) (dhcp_xid s)
                       (Ptr (dhcp_mac s)) (Ptr lease_zero);
      match reply with
      | Null => None
      | Ptr reply =>
          if ok =? 0 then Some s else
          if message_type reply =? ORION_DHCP_NAK then Some (set_event s (-1)) else
          if (dhcp_phase s =? 1) && (message_type reply =? ORION_DHCP_OFFER) then
            Some (set_event (set_rx_lease s reply) ORION_DHCP_OFFER)
          else if (dhcp_phase s =? 2) && (message_type reply =? ORION_DHCP_ACK) then
            Some (set_event (set_rx_lease s reply) ORION_DHCP_ACK)
          else Some s
      end
  end.

(** The callback over the frames of one poll. *)
Fixpoint rx_all (s : dhcp_state) (frames : list bytes) : option dhcp_state :=
  match frames with
  | [] => Some s
  | f :: fs => s ← dhcp_rx s (Ptr f) (len f); rx_all s fs
  end.

Definition lease_overlay (dst src : OrionDhcpLease) : option OrionDhcpLease :=
  nz ← ip_nonzero (ip src);
  dst ← (if (nz : bool) then a ← dcopy (ip dst) 0 (ip src) 0 4; Some (set_ip dst a) else Some dst);
  dst ← (if negb (have_netmask src =? 0)
         then a ← dcopy (netmask dst) 0 (netmask src) 0 4; Some (set_netmask dst a) else Some dst);
  dst ← (if negb (have_gateway src =? 0)
         then a ← dcopy (gateway dst) 0 (gateway src) 0 4; Some (set_gateway dst a) else Some dst);
  dst ← (if negb (have_dns src =? 0)
         then a ← dcopy (dns dst) 0 (dns src) 0 4; Some (set_dns dst a) else Some dst);
  dst ← (if negb (have_server src =? 0)
         then a ← dcopy (server dst) 0 (server src) 0 4; Some (set_server dst a) else Some dst);
  let dst := if negb (lease_seconds src =? 0) then set_lease_seconds dst (lease_seconds src)
             else dst in
  Some (set_message_type dst (message_type src)).

Section client.
Context {E : Type} `{!NetEnv E}.
(** The uninitialised stack buffers of [dhcp_send_broadcast] and
    [dhcp_acquire]. *)
Context (frame_buffer packet_buffer : bytes).

Definition dhcp_now_ms (e : E) : Z * E :=
  let hz := timer_frequency e in
  if hz =? 0 then (0, e) else
  let '(t, e) := timer_ticks e in
  (u32 (u64 (t * 1000) / hz), e).

Definition dhcp_elapsed (start ms : Z) (e : E) : bool * E :=
  let '(now, e) := dhcp_now_ms e in (ms <=? u32 (now - start), e).

Definition dhcp_send_broadcast (s : dhcp_state) (payload : ptr bytes) (payload_len : Z) (e : E)
  : option (Z * dhcp_state * E) :=
  match payload with
  | Null => Some (0, s, e)
  | Ptr p =>
      if 1472 <? payload_len then Some (0, s, e) else
      '(f, s) ← broadcast_frame s frame_buffer p payload_len;
      sent ← rd_bytes f 0 (14 + 20 + 8 + payload_len);
      let '(r, e) := netdev_tx sent e in
      Some (r, s, e)
  end.

(** [while (!dhcp_elapsed(start, timeout_ms))]: how long it turns depends on
    the clock, so the fuel is an argument. *)
Fixpoint wait_loop (fuel : nat) (packet : ptr bytes) (len wanted timeout_ms start last_tx : Z)
    (s : dhcp_state) (e : E) : option (Z * dhcp_state * E) :=
  match fuel with
  | O => None
  | S fuel' =>
      let '(over, e) := dhcp_elapsed start timeout_ms e in
      if (over : bool) then Some (0, s, e) else
      let '(now, e) := dhcp_now_ms e in
      '(last_tx, s, e) ←
        (if (last_tx =? 0xffffffff) || (400 <=? u32 (now - last_tx)) then
           '(_, s, e) ← dhcp_send_broadcast s packet len e; Some (now, s, e)
         else Some (last_tx, s, e));
      let '(frames, e) := netdev_poll e in
      s ← rx_all s frames;
      if dhcp_event s =? wanted then Some (1, s, e) else
      if dhcp_event s <? 0 then Some (0, s, e) else
      wait_loop fuel' packet len wanted timeout_ms start last_tx s e
  end.

Definition dhcp_wait (fuel : nat) (packet : ptr bytes) (len phase wanted timeout_ms : Z)
    (s : dhcp_state) (e : E) : option (Z * dhcp_state * E) :=
  let s := set_event (set_phase s phase) 0 in
  let '(start, e) := dhcp_now_ms e in
  wait_loop fuel packet len wanted timeout_ms start 0xffffffff s e.

(** [dhcp_phase = dhcp_event = 0] *)
Definition reset (s : dhcp_state) : dhcp_state := set_phase (set_event s 0) 0.

Definition dhcp_acquire (fuel : nat) (mac : ptr bytes) (timeout_ms : Z)
    (lease : ptr OrionDhcpLease) (s : dhcp_state) (e : E)
  : option (Z * ptr OrionDhcpLease * dhcp_state * E) :=
  match mac, lease with
  | Ptr m, Ptr _ =>
      let timeout_ms := if timeout_ms <? 1000 then 1000 else timeout_ms in
      let phase_timeout := timeout_ms / 2 in
      m6 ← dcopy (dhcp_mac s) 0 m 0 6;
      let '(t, e) := timer_ticks e in
      let xid := Z.lxor 0x4f520000 (u32 t) in
      let xid := if xid =? 0 then 0x4f52494f else xid in
      let s := set_session s xid m6 in
      '(n, packet) ← dhcp_build_discover (Ptr packet_buffer) 300 xid (Ptr m6);
      '(r, s, e) ← (if n =? 0 then Some (0, s, e)
                    else dhcp_wait fuel packet n 1 ORION_DHCP_OFFER phase_timeout s e);
      if r =? 0 then Some (0, lease, reset s, e) else
      let offer := dhcp_rx_lease s in
      nz ← ip_nonzero (ip offer);
      if negb nz || (have_server offer =? 0) then Some (0, lease, reset s, e) else
      '(n, packet) ← dhcp_build_request packet 300 xid (Ptr m6) (Ptr (ip offer))
                       (Ptr (server offer));
      '(r, s, e) ← (if n =? 0 then Some (0, s, e)
                    else dhcp_wait fuel packet n 2 ORION_DHCP_ACK phase_timeout s e);
      if r =? 0 then Some (0, lease, reset s, e) else
      final ← lease_overlay offer (dhcp_rx_lease s);
      nz ← ip_nonzero (ip final);
      if negb nz || (have_netmask final =? 0) || (have_gateway final =? 0)
         || (have_dns final =? 0) then Some (0, lease, reset s, e) else
      Some (1, Ptr final, reset s, e)
  | _, _ => Some (0, lease, s, e)
  end.
End client.

(** ** The datagram that is sent *)

Definition ip_header (id n c : Z) : bytes :=
  [0x45; 0] ++ be16 (28 + n) ++ be16 id ++ [0; 0; 64; 17] ++ be16 c
  ++ [0; 0; 0; 0; 255; 255; 255; 255].

(** Ethernet, IPv4, UDP 68 to 67, all broadcast; the checksum field holds the
    checksum of the header with that field zero. *)
Definition broadcast_datagram (mac : bytes) (id : Z) (payload : bytes) : bytes :=
  let n := len payload in
  [255; 255; 255; 255; 255; 255] ++ mac ++ be16 ETH_IP
  ++ ip_header id n (checksum (ip_header id n 0))
  ++ be16 DHCP_CLIENT_PORT ++ be16 DHCP_SERVER_PORT ++ be16 (8 + n) ++ be16 0 ++ payload.

Lemma broadcast_frame_spec s buf payload :
  len buf = 1514 -> bytes_ok buf -> len (dhcp_mac s) = 6 -> bytes_ok (dhcp_mac s) ->
  0 <= dhcp_ip_id s < 65536 -> len payload <= 1472 ->
  broadcast_frame s buf payload (len payload)
  = Some (broadcast_datagram (dhcp_mac s) (dhcp_ip_id s) payload
            ++ drop (42 + length payload) buf, set_ip_id s (u16 (dhcp_ip_id s + 1))).
Proof.
  intros Hbuf Hb Hm Hmb Hid Hp. unfold broadcast_frame.
  destruct (list6 _ Hm) as (m0 & m1 & m2 & m3 & m4 & m5 & Em). rewrite Em in *.
  rewrite (u16_id (20 + 8 + len payload)), (u16_id (8 + len payload)) by lia.
  remember (20 + 8 + len payload) as tl eqn:Etl. remember (dhcp_ip_id s) as id eqn:Eid.
  rewrite (dcopy_app [] buf 0 [255; 255; 255; 255; 255; 255] 6 eq_refl eq_refl
    ltac:(lia) : dcopy buf 0 _ 0 6 = _). cbn [mbind option_bind].
  rewrite dcopy_app by (rewrite ?length_app, ?length_drop; cbn [length]; lia).
  cbn [mbind option_bind].
  rewrite dput16_app by (rewrite ?length_app, ?length_drop; cbn [length]; lia).
  cbn [mbind option_bind].
  rewrite dzero_app by (rewrite ?length_app, ?length_drop; cbn [length be16]; lia).
  cbn [mbind option_bind]. rewrite !drop_drop.
  change (6 + (6 + (2 + 20)))%nat with 34%nat.
  do 6 store_step.
  match goal with |- context [dcopy (?l ++ ?r) (14 + 16) _ 0 4] =>
    let a := eval lazy -[u8 Z.shiftr] in (take 30 l) in
    change (l ++ r) with (a ++ ([0; 0; 0; 0] ++ r)) end.
  rewrite dcopy_app by (rewrite ?length_app; cbn [length]; lia). rewrite bind_some.
  rewrite (drop_app_length [0; 0; 0; 0] _ : drop 4 _ = _).
  set (R := drop 34 buf).
  assert (HR : bytes_ok R) by (by apply Forall_drop).
  match goal with |- context [dhcp_checksum16 (?L ++ R) 14 20] => assert (HL : bytes_ok L) end.
  { inversion_clear Hmb as [|? ? M0 T0]. inversion_clear T0 as [|? ? M1 T1].
    inversion_clear T1 as [|? ? M2 T2]. inversion_clear T2 as [|? ? M3 T3].
    inversion_clear T3 as [|? ? M4 T4]. inversion_clear T4 as [|? ? M5 T5].
    unfold bytes_ok. repeat (constructor; [first [assumption|apply u8_range|unfold is_byte; lia]|]).
    constructor. }
  rewrite dhcp_checksum16_spec by (first [by apply bytes_ok_app|rewrite ?length_app; cbn [length]; lia]).
  cbn [mbind option_bind].
  match goal with |- context [checksum ?l] =>
    assert (Es : l = ip_header id (len payload) 0) end.
  { unfold ip_header. replace (28 + len payload) with tl by lia.
    cbv [slice Z.to_nat Pos.to_nat Pos.iter_op Nat.add drop take app be16]. reflexivity. }
  rewrite Es. clear Es.
  remember (checksum (ip_header id (len payload) 0)) as c eqn:Ec.
  store_step.
  rewrite dput16_app by (unfold R; rewrite ?length_drop; cbn [length]; lia).
  cbn [mbind option_bind].
  rewrite dput16_app by (unfold R; rewrite ?length_app, ?length_drop; cbn [length be16]; lia).
  cbn [mbind option_bind].
  rewrite dput16_app by (unfold R; rewrite ?length_app, ?length_drop; cbn [length be16]; lia).
  cbn [mbind option_bind].
  rewrite dput16_app by (unfold R; rewrite ?length_app, ?length_drop; cbn [length be16]; lia).
  cbn [mbind option_bind]. rewrite Nat2Z.id.
  rewrite dcopy_app by (unfold R; rewrite ?length_app, ?length_drop; cbn [length be16]; lia).
  cbn [mbind option_bind]. unfold R. rewrite !drop_drop.
  do 2 f_equal. rewrite Ec, Etl. unfold broadcast_datagram. rewrite <- !app_assoc.
  replace (34 + 2 + 2 + 2 + 2 + length payload)%nat with (42 + length payload)%nat by lia.
  reflexivity.
Qed.

(** ** What a received frame means *)

(** The UDP payload of an IPv4 datagram from port 67 to port 68 whose lengths
    are consistent with the frame. *)
Definition udp_payload (f : bytes) : option bytes :=
  let ihl := byte_at f 14 mod 16 * 4 in
  let total := be16_at f 16 in
  let u := 14 + ihl in
  let ul := be16_at f (u + 4) in
  if (42 <=? len f) && (be16_at f 12 =? ETH_IP) && (byte_at f 14 / 16 =? 4)
     && (byte_at f 23 =? IP_UDP) && (20 <=? ihl) && (14 + ihl <=? len f)
     && (ihl + 8 <=? total) && (14 + total <=? len f)
     && (be16_at f u =? DHCP_SERVER_PORT) && (be16_at f (u + 2) =? DHCP_CLIENT_PORT)
     && (8 <=? ul) && (ul <=? total - ihl)
  then Some (slice f (u + 8) (ul - 8)) else None.

(** The lease a payload describes, when it is a reply of this transaction. *)
Definition reply_of (p : bytes) (xid : Z) (mac : bytes) : option OrionDhcpLease :=
  if (240 <=? len p) && reply_header_ok p xid mac then
    os ← decode_options (slice p 240 (len p - 240));
    let l := lease_of (slice p 16 4) os in
    if message_type l =? 0 then None else Some l
  else None.

(** A NAK ends the exchange in any phase; an OFFER counts in phase 1 and an
    ACK in phase 2, and nothing else does. *)
Definition react (s : dhcp_state) (l : OrionDhcpLease) : dhcp_state :=
  if message_type l =? ORION_DHCP_NAK then set_event s (-1)
  else if (dhcp_phase s =? 1) && (message_type l =? ORION_DHCP_OFFER)
  then set_event (set_rx_lease s l) ORION_DHCP_OFFER
  else if (dhcp_phase s =? 2) && (message_type l =? ORION_DHCP_ACK)
  then set_event (set_rx_lease s l) ORION_DHCP_ACK
  else s.

Definition rx_spec (s : dhcp_state) (f : bytes) : dhcp_state :=
  match udp_payload f with
  | Some p =>
      match reply_of p (dhcp_xid s) (dhcp_mac s) with Some l => react s l | None => s end
  | None => s
  end.

Lemma dget16_spec p o :
  bytes_ok p -> 0 <= o -> o + 2 <= len p -> dget16 p o = Some (be16_at p o).
Proof.
  intros Hb Ho Hl. unfold dget16, be16_at. rewrite !rd_byte_at by lia. cbn [mbind option_bind].
  pose proof (byte_at_range p o Hb). pose proof (byte_at_range p (o + 1) Hb).
  rewrite (u16_id (byte_at p o)), lor_shiftl_add by lia. change (2 ^ 8) with 256.
  by rewrite u16_id by lia.
Qed.

(** The parser, as [reply_of]. *)
Lemma parse_reply_of p xid mac l0 :
  bytes_ok p -> len mac = 6 ->
  exists r l, dhcp_parse_reply (Ptr p) (len p) xid (Ptr mac) (Ptr l0) = Some (r, Ptr l) /\
    match reply_of p xid mac with
    | Some l' => r = 1 /\ l = l' /\ lease_wf l
    | None => r = 0
    end.
Proof.
  intros Hb Hm.
  destruct (dhcp_parse_reply_spec p (len p) xid mac l0) as (r & l & E & H); [done|lia|done|].
  exists r, l. split; [exact E|]. unfold reply_of.
  destruct ((240 <=? len p) && reply_header_ok p xid mac); [|apply H].
  destruct H as [Hw H]. destruct (decode_options _) as [os|]; cbn [mbind option_bind]; [|done].
  unfold dhcp_verdict in H. injection H as -> ->.
  by destruct (message_type (lease_of _ os) =? 0).
Qed.

Lemma dhcp_rx_spec s f :
  bytes_ok f -> len (dhcp_mac s) = 6 -> dhcp_rx s (Ptr f) (len f) = Some (rx_spec s f).
Proof.
  intros Hb Hm. unfold dhcp_rx, rx_spec, udp_payload.
  destruct (Z.ltb_spec (len f) (14 + 20 + 8)) as [H42|H42].
  { by replace (42 <=? len f) with false by (symmetry; apply Z.leb_gt; lia). }
  replace (42 <=? len f) with true by (symmetry; apply Z.leb_le; lia). cbn [andb].
  rewrite (dget16_spec f 12) by (done || lia). cbn [mbind option_bind].
  destruct (be16_at f 12 =? ETH_IP); cbn [negb andb]; [|done].
  rewrite !rd_byte_at by lia. cbn [mbind option_bind].
  pose proof (byte_at_range f 14 Hb) as H14.
  change 15 with (Z.ones 4). rewrite Z.shiftr_div_pow2, Z.land_ones by lia.
  change (2 ^ 4) with 16. change (14 + 9) with 23. change (14 + 2) with 16.
  destruct (byte_at f 14 / 16 =? 4); cbn [negb orb andb]; [|done].
  destruct (byte_at f 23 =? IP_UDP); cbn [negb orb andb]; [|done].
  set (ihl := byte_at f 14 mod 16 * 4).
  rewrite Z.ltb_antisym. destruct (Z.leb_spec 20 ihl) as [Hi1|Hi1]; cbn [negb orb andb]; [|done].
  replace (len f - 14 <? ihl) with (negb (14 + ihl <=? len f))
    by (destruct (Z.leb_spec (14 + ihl) (len f)), (Z.ltb_spec (len f - 14) ihl); cbn; lia).
  destruct (Z.leb_spec (14 + ihl) (len f)) as [Hi2|Hi2]; cbn [negb andb]; [|done].
  rewrite (dget16_spec f 16) by (done || lia). cbn [mbind option_bind].
  rewrite Z.ltb_antisym.
  destruct (Z.leb_spec (ihl + 8) (be16_at f 16)) as [Ht1|Ht1]; cbn [negb orb andb]; [|done].
  replace (len f - 14 <? be16_at f 16) with (negb (14 + be16_at f 16 <=? len f))
    by (destruct (Z.leb_spec (14 + be16_at f 16) (len f)),
          (Z.ltb_spec (len f - 14) (be16_at f 16)); cbn; lia).
  destruct (Z.leb_spec (14 + be16_at f 16) (len f)) as [Ht2|Ht2]; cbn [negb andb]; [|done].
  rewrite !dget16_spec by (done || lia). cbn [mbind option_bind].
  destruct (be16_at f (14 + ihl) =? DHCP_SERVER_PORT); cbn [negb orb andb]; [|done].
  destruct (be16_at f (14 + ihl + 2) =? DHCP_CLIENT_PORT); cbn [negb orb andb]; [|done].
  set (ul := be16_at f (14 + ihl + 4)).
  rewrite Z.ltb_antisym. destruct (Z.leb_spec 8 ul) as [Hu1|Hu1]; cbn [negb orb andb]; [|done].
  rewrite Z.ltb_antisym.
  destruct (Z.leb_spec ul (be16_at f 16 - ihl)) as [Hu2|Hu2]; cbn [negb]; [|done].
  rewrite rd_bytes_Some by lia. cbn [mbind option_bind].
  assert (Hlen : len (slice f (14 + ihl + 8) (ul - 8)) = ul - 8) by (apply slice_length; lia).
  destruct (parse_reply_of (slice f (14 + ihl + 8) (ul - 8)) (dhcp_xid s) (dhcp_mac s) lease_zero)
    as (r & l & E & H); [auto with orion|done|].
  rewrite Hlen in E. rewrite E. cbn [mbind option_bind].
  destruct (reply_of _ _ _) as [l'|].
  - destruct H as (-> & <- & _). unfold react. cbn [Z.eqb].
    by repeat case_match.
  - by subst r.
Qed.

(** ** Overlay of the acknowledgement on the offer *)

Definition nonzero (a : bytes) : bool := existsb (fun x => negb (x =? 0)) a.

Definition pick {A} (c : bool) (a b : A) : A := if c then a else b.

(** Every field the acknowledgement carries replaces the offered one. *)
Definition overlay (d s : OrionDhcpLease) : OrionDhcpLease :=
  let has f := negb (f s =? 0) in
  mk_lease (message_type s)
    (pick (nonzero (ip s)) (ip s) (ip d))
    (pick (has have_netmask) (netmask s) (netmask d))
    (pick (has have_gateway) (gateway s) (gateway d))
    (pick (has have_dns) (dns s) (dns d))
    (pick (has have_server) (server s) (server d))
    (pick (has lease_seconds) (lease_seconds s) (lease_seconds d))
    (pick (has have_netmask) 1 (have_netmask d))
    (pick (has have_gateway) 1 (have_gateway d))
    (pick (has have_dns) 1 (have_dns d))
    (pick (has have_server) 1 (have_server d)).

Lemma ip_nonzero_spec a : len a = 4 -> ip_nonzero a = Some (nonzero a).
Proof.
  intros (x & y & z & w & ->)%list4. unfold ip_nonzero, nonzero.
  change (rd [x; y; z; w] 0) with (Some x). change (rd [x; y; z; w] 1) with (Some y).
  change (rd [x; y; z; w] 2) with (Some z). change (rd [x; y; z; w] 3) with (Some w).
  cbn [mbind option_bind existsb].
  destruct (x =? 0), (y =? 0), (z =? 0), (w =? 0); reflexivity.
Qed.

Lemma dcopy_whole a b : len a = 4 -> len b = 4 -> dcopy a 0 b 0 4 = Some b.
Proof.
  intros (x & y & z & w & ->)%list4 (x' & y' & z' & w' & ->)%list4. reflexivity.
Qed.

Lemma lease_overlay_spec d s :
  lease_wf d -> lease_wf s ->
  lease_overlay d s = Some (overlay d s) /\ lease_wf (overlay d s).
Proof.
  intros (D1 & D2 & D3 & D4 & D5) (S1 & S2 & S3 & S4 & S5).
  unfold lease_overlay, overlay, lease_wf. rewrite ip_nonzero_spec by done.
  cbn [mbind option_bind].
  destruct (nonzero (ip s)), (have_netmask s =? 0), (have_gateway s =? 0), (have_dns s =? 0),
    (have_server s =? 0), (lease_seconds s =? 0); cbn [negb pick];
    cbn -[dcopy]; repeat (rewrite dcopy_whole by done; cbn -[dcopy]); (split; [reflexivity|auto 6]).
Qed.

(** ** Time and the adapter, as the client relies on them

    [now] counts the timer interrupts so far.  Reading the counter gives it;
    any call takes at most [jump] ticks; the adapter delivers byte frames, and
    time goes on: between two ticks only boundedly many polls fit ([lag]). *)

Class NetEnvLaws (E : Type) `{!NetEnv E} := {
  now : E -> Z;
  lag : E -> nat;
  hz : Z;
  jump : Z;
  max_lag : nat;
  hz_pos : 0 < hz;
  advance : E -> E -> Prop := fun e e' =>
    now e <= now e' <= now e + jump /\ (now e' = now e -> (lag e' <= lag e)%nat);
  law_now e : 0 <= now e;
  law_lag e : (lag e <= max_lag)%nat;
  law_freq e : timer_frequency e = hz;
  law_ticks e : fst (timer_ticks e) = now (snd (timer_ticks e)) /\
                advance e (snd (timer_ticks e));
  law_tx f e : advance e (snd (netdev_tx f e));
  law_poll e : Forall bytes_ok (fst (netdev_poll e)) /\ advance e (snd (netdev_poll e)) /\
    (now e < now (snd (netdev_poll e)) \/ (lag (snd (netdev_poll e)) < lag e)%nat)
}.

Section run.
Context {E : Type} `{!NetEnv E, !NetEnvLaws E}.
Context (frame_buffer : bytes).
Hypothesis Hframe : len frame_buffer = 1514 /\ bytes_ok frame_buffer.

(** A lease the adapter really delivered: the payload of a received frame,
    addressed to this transaction, of message type [v]. *)
Definition delivered (xid : Z) (mac : bytes) (v : Z) (l : OrionDhcpLease) : Prop :=
  exists (e : E) f p, In f (fst (netdev_poll e)) /\ udp_payload f = Some p /\
    reply_of p xid mac = Some l /\ message_type l = v /\ lease_wf l.

Definition session_ok (s : dhcp_state) : Prop :=
  len (dhcp_mac s) = 6 /\ bytes_ok (dhcp_mac s) /\ 0 <= dhcp_ip_id s < 65536 /\
  (dhcp_event s = 0 \/ dhcp_event s = -1 \/
   dhcp_event s = ORION_DHCP_OFFER /\ dhcp_phase s = 1 /\
     delivered (dhcp_xid s) (dhcp_mac s) ORION_DHCP_OFFER (dhcp_rx_lease s) \/
   dhcp_event s = ORION_DHCP_ACK /\ dhcp_phase s = 2 /\
     delivered (dhcp_xid s) (dhcp_mac s) ORION_DHCP_ACK (dhcp_rx_lease s)).

Definition same_session (s s' : dhcp_state) : Prop :=
  dhcp_xid s' = dhcp_xid s /\ dhcp_mac s' = dhcp_mac s /\ dhcp_phase s' = dhcp_phase s.

Lemma same_session_trans s1 s2 s3 :
  same_session s1 s2 -> same_session s2 s3 -> same_session s1 s3.
Proof. intros (? & ? & ?) (? & ? & ?). repeat split; congruence. Qed.

Lemma reply_of_wf p xid mac l :
  bytes_ok p -> len mac = 6 -> reply_of p xid mac = Some l -> lease_wf l.
Proof.
  intros Hb Hm E0. destruct (parse_reply_of p xid mac lease_zero Hb Hm) as (r & l' & _ & H).
  rewrite E0 in H. destruct H as (_ & -> & H). exact H.
Qed.

Lemma rx_spec_session s f (e : E) :
  session_ok s -> bytes_ok f -> In f (fst (netdev_poll e)) ->
  session_ok (rx_spec s f) /\ same_session s (rx_spec s f).
Proof.
  intros Hs Hb Hin. assert (Hid : session_ok s /\ same_session s s) by (split; [done|by split]).
  unfold rx_spec. destruct (udp_payload f) as [p|] eqn:Ep; [|exact Hid].
  destruct (reply_of p _ _) as [l|] eqn:El; [|exact Hid].
  destruct Hs as (Hm & Hmb & Hi & Hev).
  assert (Hp : bytes_ok p).
  { unfold udp_payload in Ep. case_match; [|done]. injection Ep as <-. auto with orion. }
  pose proof (reply_of_wf _ _ _ _ Hp Hm El) as Hw.
  assert (Hd : forall v, message_type l = v -> delivered (dhcp_xid s) (dhcp_mac s) v l)
    by (intros v Hv; by exists e, f, p).
  unfold react. destruct (message_type l =? ORION_DHCP_NAK).
  { split; [|by split]. split; [done|]. split; [done|]. split; [done|]. cbn. auto. }
  destruct (Z.eqb_spec (dhcp_phase s) 1), (Z.eqb_spec (message_type l) ORION_DHCP_OFFER);
    cbn [andb].
  1: { split; [|by split]. split; [done|]. split; [done|]. split; [done|].
       right; right; left. cbn. auto. }
  all: destruct (Z.eqb_spec (dhcp_phase s) 2), (Z.eqb_spec (message_type l) ORION_DHCP_ACK);
    cbn [andb]; try exact Hid.
  all: split; [|by split]; split; [done|]; split; [done|]; split; [done|];
    right; right; right; cbn; auto.
Qed.

Lemma rx_all_session frames s (e : E) :
  session_ok s -> Forall bytes_ok frames -> incl frames (fst (netdev_poll e)) ->
  exists s', rx_all s frames = Some s' /\ session_ok s' /\ same_session s s'.
Proof.
  intros Hs Hb. revert s Hs. induction Hb as [|f frames Hf Hfs IH]; intros s Hs Hin.
  { exists s. split; [done|]. split; [done|by split]. }
  cbn [rx_all]. destruct Hs as (Hm & Hrest). rewrite dhcp_rx_spec by done.
  cbn [mbind option_bind].
  destruct (rx_spec_session s f e) as [H1 H2]; [by split|done|apply Hin; by left|].
  destruct (IH (rx_spec s f) H1) as (s' & E1 & H3 & H4).
  { intros g Hg. apply Hin. by right. }
  exists s'. split; [exact E1|]. split; [done|]. by eapply same_session_trans.
Qed.

(** ** One transmission *)

Lemma send_broadcast_spec s p (e : E) :
  session_ok s -> len p <= 1472 ->
  exists r s' e', dhcp_send_broadcast frame_buffer s (Ptr p) (len p) e = Some (r, s', e') /\
    session_ok s' /\ same_session s s' /\ dhcp_event s' = dhcp_event s /\ advance e e' /\
    netdev_tx (broadcast_datagram (dhcp_mac s) (dhcp_ip_id s) p) e = (r, e').
Proof.
  intros (Hm & Hmb & Hi & Hev) Hp. destruct Hframe as [Hl Hb].
  unfold dhcp_send_broadcast.
  replace (1472 <? len p) with false by (symmetry; apply Z.ltb_ge; lia).
  rewrite broadcast_frame_spec by done. cbn [mbind option_bind].
  set (dg := broadcast_datagram _ _ p).
  assert (Hdg : len dg = 42 + len p).
  { unfold dg, broadcast_datagram, ip_header, be16. rewrite !length_app. cbn [length]. lia. }
  rewrite rd_bytes_Some by (rewrite ?length_app; lia). cbn [mbind option_bind].
  assert (slice (dg ++ drop (42 + length p) frame_buffer) 0 (14 + 20 + 8 + len p) = dg) as ->.
  { unfold slice. rewrite drop_0, take_app_le by lia. apply take_ge. lia. }
  pose proof (law_tx dg e) as Ha. destruct (netdev_tx dg e) as [r e'] eqn:Et. cbn [snd] in Ha.
  exists r, (set_ip_id s (u16 (dhcp_ip_id s + 1))), e'.
  pose proof (u16_range (dhcp_ip_id s + 1)).
  split; [done|]. split; [by split|]. split; [by split|]. by split.
Qed.

Lemma advance_trans3 (e1 e2 e3 : E) n m :
  now e1 <= now e2 <= now e1 + n -> now e2 <= now e3 <= now e2 + m ->
  now e1 <= now e3 <= now e1 + (n + m).
Proof. lia. Qed.

Lemma u32_sub a b : 0 <= a - b < 4294967296 -> u32 (u32 a - u32 b) = a - b.
Proof. intros H. unfold u32. rewrite <- Zminus_mod. by apply Z.mod_small. Qed.

(** The clock read by the client, as long as it does not overflow. *)
Lemma now_ms_spec (e : E) :
  exists e1, dhcp_now_ms e = (u32 (u64 (now e1 * 1000) / hz), e1) /\ advance e e1.
Proof.
  unfold dhcp_now_ms. rewrite law_freq. pose proof hz_pos.
  destruct (Z.eqb_spec hz 0); [lia|].
  destruct (law_ticks e) as [Ht Ha]. destruct (timer_ticks e) as [t e1]; cbn [fst snd] in *.
  subst t. by exists e1.
Qed.

(** ** The wait loop

    [T0] is the start in milliseconds; [left e] bounds the ticks that remain
    before the deadline. *)

Definition deadline (T0 timeout : Z) : Z := (T0 + timeout) * hz.
Definition ticks_left (T0 timeout : Z) (e : E) : Z :=
  Z.max 0 ((deadline T0 timeout - now e * 1000 + 999) / 1000).
Definition measure (T0 timeout : Z) (e : E) : Z :=
  ticks_left T0 timeout e * (Z.of_nat max_lag + 1) + Z.of_nat (lag e).

Lemma measure_decreases T0 timeout (e e' : E) :
  now e * 1000 < deadline T0 timeout -> now e <= now e' ->
  (now e' = now e -> (lag e' < lag e)%nat) ->
  measure T0 timeout e' < measure T0 timeout e.
Proof.
  intros Hd Hn Hl. unfold measure, ticks_left.
  destruct (Z.eq_dec (now e') (now e)) as [Heq|Hne].
  { rewrite Heq. specialize (Hl Heq). lia. }
  pose proof (law_lag e') as Hm.
  assert (H : Z.max 0 ((deadline T0 timeout - now e' * 1000 + 999) / 1000)
    <= Z.max 0 ((deadline T0 timeout - now e * 1000 + 999) / 1000) - 1) by zlia.
  set (a := Z.max 0 ((deadline T0 timeout - now e' * 1000 + 999) / 1000)) in *.
  set (b := Z.max 0 ((deadline T0 timeout - now e * 1000 + 999) / 1000)) in *.
  nia.
Qed.

Lemma wait_loop_spec fuel p wanted timeout T0 last s (e : E) :
  session_ok s -> len p <= 1472 -> 0 <= T0 -> T0 * hz <= now e * 1000 ->
  now e * 1000 < deadline T0 timeout + 3000 * jump ->
  deadline T0 timeout + 4000 * jump < 18446744073709551616 ->
  timeout * hz + 4000 * jump < 4294967296 * hz ->
  measure T0 timeout e < Z.of_nat fuel ->
  exists r s' e',
    wait_loop frame_buffer fuel (Ptr p) (len p) wanted timeout (u32 T0) last s e
      = Some (r, s', e') /\
    (r = 0 \/ r = 1 /\ dhcp_event s' = wanted) /\ session_ok s' /\ same_session s s' /\
    now e <= now e' /\ now e' * 1000 < deadline T0 timeout + 4000 * jump.
Proof.
  intros Hs Hp HT0. revert last s e Hs.
  induction fuel as [|fuel IH]; intros last s e Hs Hlow Hhigh H64 H32 Hfuel.
  { unfold measure, ticks_left in Hfuel. lia. }
  pose proof hz_pos as Hz. cbn [wait_loop]. unfold dhcp_elapsed.
  destruct (now_ms_spec e) as (e1 & -> & Ha1 & Hl1).
  rewrite u64_id by (pose proof (law_now e1); lia).
  assert (Hq : T0 <= now e1 * 1000 / hz < T0 + 4294967296).
  { split; [apply Z.div_le_lower_bound; lia|apply Z.div_lt_upper_bound; [lia|]].
    unfold deadline in *. lia. }
  rewrite u32_sub by lia.
  destruct (Z.leb_spec timeout (now e1 * 1000 / hz - T0)) as [Hover|Hover].
  { exists 0, s, e1. split; [done|]. split; [by left|]. split; [done|].
    split; [by split|]. lia. }
  assert (Hin : now e1 * 1000 < deadline T0 timeout).
  { unfold deadline. pose proof (Z.mul_succ_div_gt (now e1 * 1000) hz Hz).
    assert (hz * Z.succ (now e1 * 1000 / hz) <= hz * (T0 + timeout)); [|lia].
    apply Z.mul_le_mono_nonneg_l; lia. }
  destruct (now_ms_spec e1) as (e2 & -> & Ha2 & Hl2). set (nowv := u32 (u64 _ / hz)).
  assert (Hsend : exists last' s1 e3,
    (if (last =? 0xffffffff) || (400 <=? u32 (nowv - last)) then
       '(_, s, e) ← dhcp_send_broadcast frame_buffer s (Ptr p) (len p) e2; Some (nowv, s, e)
     else Some (last, s, e2)) = Some (last', s1, e3) /\
    session_ok s1 /\ same_session s s1 /\ now e2 <= now e3 <= now e2 + jump /\
    (now e3 = now e2 -> (lag e3 <= lag e2)%nat)).
  { destruct (_ || _).
    - destruct (send_broadcast_spec s p e2 Hs Hp) as (r & s1 & e3 & -> & H1 & H2 & _ & [H3 H4] & _).
      cbn [mbind option_bind]. by exists nowv, s1, e3.
    - exists last, s, e2. split; [done|]. split; [done|]. split; [by split|]. lia. }
  destruct Hsend as (last' & s1 & e3 & -> & Hs1 & Hsame1 & Ha3 & Hl3). cbn [mbind option_bind].
  destruct (law_poll e3) as (Hframes & [Ha4 Hl4] & Hprog).
  destruct (netdev_poll e3) as [frames e4] eqn:Epoll; cbn [fst snd] in *.
  destruct (rx_all_session frames s1 e3 Hs1 Hframes) as (s2 & -> & Hs2 & Hsame2);
    [rewrite Epoll; apply incl_refl|].
  cbn [mbind option_bind].
  assert (Hsame : same_session s s2) by (by eapply same_session_trans).
  destruct (Z.eqb_spec (dhcp_event s2) wanted).
  { exists 1, s2, e4. split; [done|]. split; [by right|]. split; [done|]. split; [done|]. lia. }
  destruct (dhcp_event s2 <? 0).
  { exists 0, s2, e4. split; [done|]. split; [by left|]. split; [done|]. split; [done|]. lia. }
  destruct (IH last' s2 e4 Hs2) as (r & s' & e' & -> & Hr & Hs' & Hsame' & Hn' & Hb'); try lia.
  { assert (measure T0 timeout e4 < measure T0 timeout e); [|lia].
    apply measure_decreases; [lia|lia|]. lia. }
  exists r, s', e'. split; [done|]. split; [done|]. split; [done|].
  split; [by eapply same_session_trans|]. lia.
Qed.

(** Fuel enough for one phase: ticks before the deadline, times the polls
    between two ticks. *)
Definition wait_fuel (timeout : Z) : Z :=
  (timeout * hz / 1000 + 1) * (Z.of_nat max_lag + 1) + Z.of_nat max_lag.

Lemma dhcp_wait_spec fuel p phase wanted timeout s (e : E) :
  session_ok s -> len p <= 1472 -> 1 <= timeout ->
  now e * 1000 + timeout * hz + 5000 * jump < 18446744073709551616 ->
  timeout * hz + 4000 * jump < 4294967296 * hz ->
  wait_fuel timeout < Z.of_nat fuel ->
  exists r s' e',
    dhcp_wait frame_buffer fuel (Ptr p) (len p) phase wanted timeout s e = Some (r, s', e') /\
    (r = 0 \/ r = 1 /\ dhcp_event s' = wanted) /\ session_ok s' /\
    same_session (set_phase s phase) s' /\
    now e <= now e' /\ now e' * 1000 < now e * 1000 + timeout * hz + 5000 * jump.
Proof.
  intros Hs Hp Ht H64 H32 Hfuel. unfold dhcp_wait. pose proof hz_pos as Hz.
  destruct (now_ms_spec e) as (e1 & -> & Ha1 & Hl1). pose proof (law_now e1).
  rewrite u64_id by lia. set (T0 := now e1 * 1000 / hz).
  pose proof (Z.mul_div_le (now e1 * 1000) hz Hz) as Hlow.
  pose proof (Z.mul_succ_div_gt (now e1 * 1000) hz Hz) as Hhigh. fold T0 in Hlow, Hhigh.
  assert (HT : 0 <= T0) by (apply Z.div_pos; lia). clearbody T0.
  destruct (wait_loop_spec fuel p wanted timeout T0 0xffffffff
    (set_event (set_phase s phase) 0) e1) as (r & s' & e' & -> & Hr & Hs' & Hsame & Hn & Hb);
    unfold deadline in *; try lia.
  - destruct Hs as (H1 & H2 & H3 & _). split; [done|]. split; [done|]. split; [done|]. by left.
  - nia.
  - unfold measure, ticks_left, deadline. unfold wait_fuel in Hfuel. pose proof (law_lag e1).
    assert (Z.max 0 (((T0 + timeout) * hz - now e1 * 1000 + 999) / 1000)
            <= timeout * hz / 1000 + 1) by zlia.
    set (a := Z.max 0 _) in *. nia.
  - exists r, s', e'. split; [done|]. split; [done|]. split; [done|].
    split; [exact Hsame|]. lia.
Qed.

(** ** The whole exchange *)

Lemma discover_message_length xid mac :
  len mac = 6 -> len (dhcp_message xid mac (discover_options mac)) = 300.
Proof. intros (m0 & m1 & m2 & m3 & m4 & m5 & ->)%list6. reflexivity. Qed.

Lemma request_message_length xid mac rip sid :
  len mac = 6 -> len rip = 4 -> len sid = 4 ->
  len (dhcp_message xid mac (request_options mac rip sid)) = 300.
Proof.
  intros (m0 & m1 & m2 & m3 & m4 & m5 & ->)%list6 (a & b & c & d & ->)%list4
    (e & f & g & h & ->)%list4. reflexivity.
Qed.

Lemma dcopy_mac old m : len old = 6 -> 6 <= len m -> dcopy old 0 m 0 6 = Some (take 6 m).
Proof.
  intros Ho Hm. unfold dcopy. rewrite copy_from_spec by lia. f_equal.
  unfold blit, slice. cbn [Z.to_nat]. rewrite take_0, drop_0, drop_ge, app_nil_r; [done|].
  change (Z.to_nat (Z.of_nat 6)) with 6%nat. change (Z.to_nat 0) with 0%nat.
  rewrite length_take. lia.
Qed.

(** A lease good enough to configure the network. *)
Definition complete (l : OrionDhcpLease) : Prop :=
  nonzero (ip l) = true /\ have_netmask l <> 0 /\ have_gateway l <> 0 /\ have_dns l <> 0.

Definition acquired (mac : bytes) (l : OrionDhcpLease) : Prop :=
  complete l /\
  exists xid offer ack,
    xid <> 0 /\
    delivered xid mac ORION_DHCP_OFFER offer /\ nonzero (ip offer) = true /\
    have_server offer <> 0 /\
    delivered xid mac ORION_DHCP_ACK ack /\ l = overlay offer ack.

Definition phase_timeout (timeout_ms : Z) : Z := Z.max timeout_ms 1000 / 2.

(** What one phase of the exchange establishes. *)
Lemma phase_outcome s s' phase v :
  session_ok s' -> same_session (set_phase s phase) s' -> dhcp_event s' = v ->
  (v = ORION_DHCP_OFFER \/ v = ORION_DHCP_ACK) ->
  delivered (dhcp_xid s) (dhcp_mac s) v (dhcp_rx_lease s').
Proof.
  intros (_ & _ & _ & Hev) (Hx & Hm & _) He Hv. cbn [set_phase dhcp_xid dhcp_mac] in *.
  rewrite <- Hx, <- Hm. unfold ORION_DHCP_OFFER, ORION_DHCP_ACK in *.
  destruct Hev as [?|[?|[(H1 & _ & H2)|(H1 & _ & H2)]]]; try lia; by subst v; rewrite H1.
Qed.

Lemma delivered_wf xid mac v l : delivered xid mac v l -> lease_wf l.
Proof. by intros (? & ? & ? & ? & ? & ? & ? & ?). Qed.

(** The exchange from the accepted offer on. *)
Lemma request_phase fuel m lease s p timeout (e : E) :
  let offer := dhcp_rx_lease s in
  session_ok s -> dhcp_xid s <> 0 -> m = dhcp_mac s -> len p = 300 -> 1 <= timeout ->
  delivered (dhcp_xid s) m ORION_DHCP_OFFER offer ->
  now e * 1000 + timeout * hz + 5000 * jump < 18446744073709551616 ->
  timeout * hz + 4000 * jump < 4294967296 * hz ->
  wait_fuel timeout < Z.of_nat fuel ->
  exists r l' s' e',
    (nz ← ip_nonzero (ip offer);
     if negb nz || (have_server offer =? 0) then Some (0, Ptr lease, reset s, e) else
     '(n, packet) ← dhcp_build_request (Ptr p) 300 (dhcp_xid s) (Ptr m) (Ptr (ip offer))
                      (Ptr (server offer));
     '(r, s, e) ← (if n =? 0 then Some (0, s, e)
                   else dhcp_wait frame_buffer fuel packet n 2 ORION_DHCP_ACK timeout s e);
     if r =? 0 then Some (0, Ptr lease, reset s, e) else
     final ← lease_overlay offer (dhcp_rx_lease s);
     nz ← ip_nonzero (ip final);
     if negb nz || (have_netmask final =? 0) || (have_gateway final =? 0)
        || (have_dns final =? 0) then Some (0, Ptr lease, reset s, e) else
     Some (1, Ptr final, reset s, e)) = Some (r, Ptr l', s', e') /\
    dhcp_phase s' = 0 /\ dhcp_event s' = 0 /\
    (r = 0 /\ l' = lease \/ r = 1 /\ acquired m l') /\
    now e <= now e' /\ now e' * 1000 <= now e * 1000 + timeout * hz + 5000 * jump.
Proof.
  intros offer Hs Hx -> Hp Ht Hoff H64 H32 Hfuel.
  pose proof (delivered_wf _ _ _ _ Hoff) as Hwf. pose proof Hwf as (W1 & _ & _ & _ & W5).
  pose proof hz_pos as Hz. pose proof (law_now e) as Hnow.
  assert (Hj : 0 <= jump) by (destruct (law_tx [] e) as [? _]; lia).
  assert (Hfail : forall s1 e1, now e <= now e1 ->
    now e1 * 1000 <= now e * 1000 + timeout * hz + 5000 * jump ->
    exists r l' s' e', Some (0, Ptr lease, reset s1, e1) = Some (r, Ptr l', s', e') /\
      dhcp_phase s' = 0 /\ dhcp_event s' = 0 /\
      (r = 0 /\ l' = lease \/ r = 1 /\ acquired (dhcp_mac s) l') /\
      now e <= now e' /\ now e' * 1000 <= now e * 1000 + timeout * hz + 5000 * jump).
  { intros s1 e1 H1 H2. exists 0, lease, (reset s1), e1. repeat (split; [done|]).
    split; [by left|]. by split. }
  rewrite ip_nonzero_spec by done. cbn [mbind option_bind].
  destruct (nonzero (ip offer)) eqn:Enz; cbn [negb orb]; [|apply Hfail; nia].
  destruct (Z.eqb_spec (have_server offer) 0) as [Hsrv|Hsrv]; [apply Hfail; nia|].
  rewrite request_erases by done. rewrite request_300 by (done || apply Hs).
  cbn [mbind option_bind]. change (300 =? 0) with false. cbv iota.
  pose proof (request_message_length (dhcp_xid s) (dhcp_mac s) (ip offer) (server offer)
    (proj1 Hs) W1 W5) as Hmsg.
  destruct (dhcp_wait_spec fuel (dhcp_message (dhcp_xid s) (dhcp_mac s)
    (request_options (dhcp_mac s) (ip offer) (server offer))) 2 ORION_DHCP_ACK timeout s e)
    as (r & s2 & e2 & Ew & Hr & Hs2 & Hsame & Hn & Hb); [done|lia|done|done|done|done|].
  rewrite Hmsg in Ew. rewrite Ew. cbn [mbind option_bind].
  destruct Hr as [->|[-> Hev]]; [apply Hfail; lia|]. change (1 =? 0) with false. cbv iota.
  assert (Hack : delivered (dhcp_xid s) (dhcp_mac s) ORION_DHCP_ACK (dhcp_rx_lease s2))
    by (eapply phase_outcome; eauto).
  pose proof (delivered_wf _ _ _ _ Hack) as Hwf2.
  destruct (lease_overlay_spec offer (dhcp_rx_lease s2) Hwf Hwf2) as [-> Hwf3].
  set (final := overlay offer (dhcp_rx_lease s2)) in *. cbn [mbind option_bind].
  rewrite ip_nonzero_spec by apply Hwf3. cbn [mbind option_bind].
  destruct (nonzero (ip final)) eqn:F1; cbn [negb orb]; [|apply Hfail; lia].
  destruct (Z.eqb_spec (have_netmask final) 0) as [|F2]; [apply Hfail; lia|].
  destruct (Z.eqb_spec (have_gateway final) 0) as [|F3]; [apply Hfail; lia|].
  destruct (Z.eqb_spec (have_dns final) 0) as [|F4]; [apply Hfail; lia|]. cbn [orb].
  exists 1, final, (reset s2), e2. repeat (split; [done|]). split; [|lia].
  right. split; [done|]. split; [done|].
  by exists (dhcp_xid s), offer, (dhcp_rx_lease s2).
Qed.
End run.

(** The header checksum of the datagram verifies at the receiver. *)
Lemma ip_header_verifies mac id p :
  len mac = 6 -> bytes_ok mac -> bytes_ok p ->
  dhcp_checksum16 (broadcast_datagram mac id p) 14 20 = Some 0.
Proof.
  intros Hm Hmb Hp. destruct (list6 _ Hm) as (m0 & m1 & m2 & m3 & m4 & m5 & ->).
  set (n := len p). set (pre := [0x45; 0] ++ be16 (28 + n) ++ be16 id ++ [0; 0; 64; 17]).
  set (post := [0; 0; 0; 0; 255; 255; 255; 255]).
  assert (Hz : bytes_ok (pre ++ [0; 0] ++ post)).
  { unfold pre, post, be16, bytes_ok.
    repeat (constructor; [first [apply u8_range|unfold is_byte; lia]|]). constructor. }
  set (c := checksum (pre ++ [0; 0] ++ post)).
  assert (Ed : broadcast_datagram [m0; m1; m2; m3; m4; m5] id p
    = ([255; 255; 255; 255; 255; 255; m0; m1; m2; m3; m4; m5] ++ be16 ETH_IP)
      ++ (pre ++ be16 c ++ post)
      ++ (be16 DHCP_CLIENT_PORT ++ be16 DHCP_SERVER_PORT ++ be16 (8 + n) ++ be16 0 ++ p))
    by reflexivity.
  rewrite Ed. rewrite dhcp_checksum16_spec.
  - replace (slice _ 14 20) with (pre ++ be16 c ++ post) by reflexivity.
    f_equal. apply checksum_verifies; [done|]. by exists 5%nat.
  - apply bytes_ok_app in Hz as [Hz1 [_ Hz2]%bytes_ok_app].
    assert (Hbe : forall v, bytes_ok (be16 v))
      by (intros v; unfold be16; repeat constructor; apply u8_range).
    rewrite !bytes_ok_app. change [255; 255; 255; 255; 255; 255; m0; m1; m2; m3; m4; m5]
      with ([255; 255; 255; 255; 255; 255] ++ [m0; m1; m2; m3; m4; m5]).
    rewrite bytes_ok_app. repeat split; try done. by apply bytes_okb_spec.
  - lia.
  - lia.
  - unfold pre, post. rewrite !length_app. cbn [length be16]. lia.
Qed.

(** ** Properties *)

(** The receive callback is safe on every frame, whatever its lengths and
    headers claim (no byte outside the frame is read), and reacts to exactly
    one kind of frame: an IPv4/UDP datagram from port 67 to port 68 with
    consistent lengths whose payload is a well-formed DHCP reply to this
    transaction.  A NAK sets the event to -1 in any phase, an OFFER is taken
    in phase 1 and an ACK in phase 2; every other frame, and a null pointer or
    a frame under 42 bytes, changes nothing. *)
Theorem dhcp_rx_correct s f n :
  bytes_ok f -> len (dhcp_mac s) = 6 ->
  dhcp_rx s (Ptr f) (len f) = Some (rx_spec s f) /\
  dhcp_rx s Null n = Some s /\
  (forall l, udp_payload f = Some l -> reply_of l (dhcp_xid s) (dhcp_mac s) = None ->
     dhcp_rx s (Ptr f) (len f) = Some s).
Proof.
  intros Hb Hm. rewrite (dhcp_rx_spec s f Hb Hm). split; [done|]. split; [done|].
  intros l Hl Hr. unfold rx_spec. by rewrite Hl, Hr.
Qed.

(** What goes on the wire: for every payload of at most 1472 bytes the
    frame handed to the adapter is exactly the broadcast Ethernet/IPv4/UDP
    datagram from port 68 to port 67 around that payload, with the lengths and
    a valid header checksum, whatever the stack buffer held before; the
    identification counter advances by one (modulo 2^16). *)
Theorem dhcp_send_broadcast_frame {E} `{!NetEnv E} buf s p (e : E) :
  len buf = 1514 -> bytes_ok buf -> len (dhcp_mac s) = 6 -> bytes_ok (dhcp_mac s) ->
  0 <= dhcp_ip_id s < 65536 -> bytes_ok p -> len p <= 1472 ->
  dhcp_send_broadcast buf s (Ptr p) (len p) e
  = (let '(r, e') := netdev_tx (broadcast_datagram (dhcp_mac s) (dhcp_ip_id s) p) e in
     Some (r, set_ip_id s (u16 (dhcp_ip_id s + 1)), e')) /\
  dhcp_checksum16 (broadcast_datagram (dhcp_mac s) (dhcp_ip_id s) p) 14 20 = Some 0.
Proof.
  intros Hbuf Hb Hm Hmb Hi Hpb Hp.
  set (dg := broadcast_datagram (dhcp_mac s) (dhcp_ip_id s) p).
  assert (Hdg : len dg = 42 + len p).
  { unfold dg, broadcast_datagram, ip_header, be16. rewrite !length_app. cbn [length]. lia. }
  split.
  - unfold dhcp_send_broadcast.
    replace (1472 <? len p) with false by (symmetry; apply Z.ltb_ge; lia).
    rewrite broadcast_frame_spec by done. cbn [mbind option_bind]. fold dg.
    rewrite rd_bytes_Some by (rewrite ?length_app; lia). cbn [mbind option_bind].
    assert (slice (dg ++ drop (42 + length p) buf) 0 (14 + 20 + 8 + len p) = dg) as ->.
    { unfold slice. rewrite drop_0, take_app_le by lia. apply take_ge. lia. }
    done.
  - by apply ip_header_verifies.
Qed.

(** C39. [dhcp_acquire] always ends, within the time it was given: it returns
    no later than the two phase timeouts and a few calls after its start.  It
    leaves the engine idle.  It returns 1 only with a complete lease (address,
    netmask, gateway and name server present) that is the overlay of an ACK on
    an OFFER, both really delivered by the adapter as replies to this MAC
    address under one non-zero transaction id; otherwise it returns 0 and the
    caller's lease is untouched.  (The clock does not overflow 64 bits of
    milliseconds during the call, and no call takes a 32-bit wrap of the
    millisecond counter.) *)
Theorem dhcp_acquire_correct {E} `{!NetEnv E, !NetEnvLaws E}
    frame_buffer packet_buffer fuel m timeout lease s (e : E) :
  len frame_buffer = 1514 /\ bytes_ok frame_buffer -> len packet_buffer = 300 ->
  6 <= len m -> bytes_ok m -> len (dhcp_mac s) = 6 -> 0 <= dhcp_ip_id s < 65536 ->
  now e * 1000 + 2 * (phase_timeout timeout * hz) + 12000 * jump < 18446744073709551616 ->
  phase_timeout timeout * hz + 4000 * jump < 4294967296 * hz ->
  wait_fuel (phase_timeout timeout) < Z.of_nat fuel ->
  exists r l' s' e',
    dhcp_acquire frame_buffer packet_buffer fuel (Ptr m) timeout (Ptr lease) s e
      = Some (r, Ptr l', s', e') /\
    dhcp_phase s' = 0 /\ dhcp_event s' = 0 /\
    (r = 0 /\ l' = lease \/ r = 1 /\ acquired (take 6 m) l') /\
    now e <= now e' /\
    now e' * 1000 <= now e * 1000 + 2 * (phase_timeout timeout * hz) + 11000 * jump.
Proof.
  intros Hframe Hpacket Hm Hmb Hold Hid H64 H32 Hfuel. unfold dhcp_acquire.
  replace ((if timeout <? 1000 then 1000 else timeout) / 2) with (phase_timeout timeout)
    by (unfold phase_timeout; destruct (Z.ltb_spec timeout 1000);
        rewrite ?Z.max_r, ?Z.max_l by lia; reflexivity).
  set (T := phase_timeout timeout) in *.
  assert (HT : 1 <= T) by (unfold T, phase_timeout; zlia).
  rewrite dcopy_mac by done. cbn [mbind option_bind].
  destruct (law_ticks e) as [Et [Ha _]]. destruct (timer_ticks e) as [t e1]; cbn [fst snd] in *.
  set (xid := if Z.lxor _ _ =? 0 then _ else _).
  assert (Hxid : xid <> 0) by (subst xid; destruct (Z.eqb_spec (Z.lxor 0x4f520000 (u32 t)) 0); lia).
  assert (Hm6 : len (take 6 m) = 6) by (rewrite length_take; lia).
  rewrite discover_erases, discover_300 by done. cbn [mbind option_bind].
  change (300 =? 0) with false. cbv iota.
  pose proof (discover_message_length xid (take 6 m) Hm6) as Hmsg.
  set (s1 := set_session s xid (take 6 m)).
  assert (Hs1 : session_ok (E := E) (set_event s1 0)).
  { split; [exact Hm6|]. split; [by apply Forall_take|]. split; [done|]. by left. }
  pose proof hz_pos as Hz.
  destruct (dhcp_wait_spec frame_buffer Hframe fuel
    (dhcp_message xid (take 6 m) (discover_options (take 6 m))) 1 ORION_DHCP_OFFER T
    (set_event s1 0) e1) as (r & s2 & e2 & Ew & Hr & Hs2 & Hsame & Hn & Hb);
    [done|lia|done|nia|done|done|].
  rewrite Hmsg in Ew.
  change (dhcp_wait frame_buffer fuel _ 300 1 ORION_DHCP_OFFER T (set_event s1 0) e1)
    with (dhcp_wait frame_buffer fuel
      (Ptr (dhcp_message xid (take 6 m) (discover_options (take 6 m)))) 300 1
      ORION_DHCP_OFFER T s1 e1) in Ew.
  rewrite Ew. cbn [mbind option_bind].
  destruct Hr as [->|[-> Hev]].
  { exists 0, lease, (reset s2), e2. repeat (split; [done|]). split; [by left|]. lia. }
  change (1 =? 0) with false. cbv iota.
  destruct Hsame as (Hx & Hmac & Hph). cbn [set_phase set_event s1 set_session dhcp_xid dhcp_mac] in *.
  destruct (request_phase frame_buffer Hframe fuel (take 6 m) lease s2
    (dhcp_message xid (take 6 m) (discover_options (take 6 m))) T e2)
    as (r & l' & s' & e' & E' & H1 & H2 & H3 & H4 & H5); try done.
  - by rewrite Hx.
  - rewrite <- Hmac. apply phase_outcome with (phase := dhcp_phase s2); auto. by split.
  - nia.
  - rewrite Hx in E'. exists r, l', s', e'. split; [exact E'|].
    split; [exact H1|]. split; [exact H2|]. split; [exact H3|]. nia.
Qed.

(** ** Two environments *)

Module Smoke.

Definition mac : bytes := [0x52; 0x54; 0; 0xaa; 0xbb; 0xcc].

(** A server on the wire: an OFFER answers a DISCOVER and an ACK a REQUEST;
    [active = false] is the silent network of tests/dhcp_timeout_smoke.c.
    Every poll takes 25 ticks of 1 ms. *)
Record net := mk_net { ticks : Z; inbox : list bytes; active : bool }.

Definition options (t : Z) : list dhcp_opt :=
  [(53, [t]); (54, [10; 0; 2; 2]); (1, [255; 255; 255; 0]); (3, [10; 0; 2; 2]);
   (6, [10; 0; 2; 3])].

Definition payload (f : bytes) (t : Z) : bytes :=
  [2; 1; 6; 0] ++ slice f 46 4 ++ replicate 8 0 ++ [10; 0; 2; 15] ++ replicate 8 0
  ++ slice f 70 6 ++ replicate 202 0 ++ be32 DHCP_COOKIE ++ encode_options (options t) ++ [255].

Definition answer (f : bytes) (t : Z) : bytes :=
  let p := payload f t in
  replicate 12 0 ++ be16 ETH_IP
  ++ [0x45; 0] ++ be16 (28 + len p) ++ [0; 0; 0; 0; 64; 17; 0; 0; 10; 0; 2; 2; 255; 255; 255; 255]
  ++ be16 67 ++ be16 68 ++ be16 (8 + len p) ++ be16 0 ++ p.

#[export] Instance net_env : NetEnv net := {|
  timer_ticks := fun e => (Z.max 0 (ticks e), e);
  timer_frequency := fun _ => 1000;
  netdev_tx := fun f e =>
    (1, if active e then
          mk_net (ticks e) [answer f (if byte_at f 284 =? 1 then ORION_DHCP_OFFER
                                      else ORION_DHCP_ACK)] true
        else e);
  netdev_poll := fun e =>
    (List.filter bytes_okb (inbox e), mk_net (Z.max 0 (ticks e) + 25) [] (active e))
|}.

#[export] Instance net_laws : NetEnvLaws net.
Proof.
  refine {| now := fun e => Z.max 0 (ticks e); lag := fun _ => 0%nat; hz := 1000; jump := 25;
            max_lag := 0 |}.
  - lia.
  - intros e. lia.
  - intros e. lia.
  - reflexivity.
  - intros e. cbn. split; [reflexivity|lia].
  - intros f e. cbn. destruct (active e); cbn; lia.
  - intros e. cbn. split; [|lia]. apply List.Forall_forall. intros f Hf.
    apply filter_In in Hf as [_ Hf]. by apply bytes_okb_spec.
Defined.

Definition idle : dhcp_state := mk_state 0 0 0 [0; 0; 0; 0; 0; 0] lease_zero 0x4f52.
Definition stack_frame : bytes := replicate 1514 0xa5.
Definition stack_packet : bytes := replicate 300 0xa5.

Abbreviation run serving :=
  (dhcp_acquire stack_frame stack_packet 520 (Ptr mac) 1000 (Ptr lease_zero) idle
    (mk_net 0 [] serving)).

(** The assertions of the repository's smoke test, and a successful exchange. *)
Example silent_network :
  (fun '(r, l, s, e) => (r, l, dhcp_ip_id s - 0x4f52, ticks e)) <$> run false
  = Some (0, Ptr lease_zero, 2, 500).
Proof. vm_compute. reflexivity. Qed.

Example serving_network :
  (fun '(r, l, s, e) => (r, l, ticks e)) <$> run true
  = Some (1, Ptr (mk_lease 5 [10; 0; 2; 15] [255; 255; 255; 0] [10; 0; 2; 2] [10; 0; 2; 3]
                    [10; 0; 2; 2] 0 1 1 1 1), 50).
Proof. vm_compute. reflexivity. Qed.

Lemma dhcp_acquire_correct_witness :
  exists r l' s' e', run true = Some (r, Ptr l', s', e') /\ r = 1 /\ acquired mac l'.
Proof.
  destruct (dhcp_acquire_correct stack_frame stack_packet 520 mac 1000 lease_zero idle
    (mk_net 0 [] true)) as (r & l' & s' & e' & E & _ & _ & H & _).
  { split; [reflexivity|]. apply bytes_okb_spec. vm_compute. reflexivity. }
  { reflexivity. }
  { vm_compute. discriminate. }
  { apply bytes_okb_spec. reflexivity. }
  { reflexivity. }
  { cbn. lia. }
  { reflexivity. }
  { reflexivity. }
  { reflexivity. }
  exists r, l', s', e'. split; [exact E|].
  assert (Hr : r = 1).
  { pose proof serving_network as H1. rewrite E in H1.
    injection H1 as -> _ _. reflexivity. }
  split; [exact Hr|]. destruct H as [[H0 _]|[_ H]]; [congruence|exact H].
Defined.

Definition phase1 : dhcp_state := mk_state 1 0 0x4f520019 mac lease_zero 0.

Lemma dhcp_rx_correct_witness :
  let f := answer (replicate 46 0 ++ be32 0x4f520019 ++ replicate 20 0 ++ mac) ORION_DHCP_OFFER in
  dhcp_event <$> dhcp_rx phase1 (Ptr f) (len f) = Some ORION_DHCP_OFFER.
Proof.
  intros f. destruct (dhcp_rx_correct phase1 f 0) as [H _].
  { apply bytes_okb_spec. vm_compute. reflexivity. }
  { reflexivity. }
  rewrite H. vm_compute. reflexivity.
Defined.

Lemma dhcp_send_broadcast_frame_witness :
  dhcp_checksum16 (broadcast_datagram mac 7 [1; 2; 3]) 14 20 = Some 0.
Proof.
  destruct (dhcp_send_broadcast_frame stack_frame (mk_state 0 0 0 mac lease_zero 7) [1; 2; 3]
    (mk_net 0 [] false)) as [_ H].
  { reflexivity. }
  { apply bytes_okb_spec. vm_compute. reflexivity. }
  { reflexivity. }
  { apply bytes_okb_spec. reflexivity. }
  { cbn. lia. }
  { apply bytes_okb_spec. reflexivity. }
  { vm_compute. discriminate. }
  exact H.
Defined.

End Smoke.
