(* ===== verification/Net.v ===== *)
(** * kernel/net.c: state and transmission

    The static variables of the file, the byte helpers, the checksums and the
    builders of the ARP, IPv4, ICMP, UDP and TCP messages.  Reception is in
    NetRx. *)

From S2P Require Import Prelude Dhcp Checksum NetEnv Wire.

Definition ETH_IP : Z := 0x0800.
Definition ETH_ARP : Z := 0x0806.
Definition IP_ICMP : Z := 1.
Definition IP_TCP : Z := 6.
Definition IP_UDP : Z := 17.

(** ** State *)

(** The interface: lines 15-25 of the file. *)
Record netif := mk_if {
  mac : bytes;
  ip_addr : bytes;
  netmask : bytes;
  gateway : bytes;
  dns_ip : bytes;
  gateway_mac : bytes;
  gateway_mac_valid : Z;
  ready : Z;
  rx_count : Z;
  tx_count : Z;
  ip_id : Z;
  next_src_port : Z
}.

Record icmp_state := mk_icmp { icmp_reply : Z; icmp_ident : Z; icmp_seq : Z }.

Record dns_state := mk_dns { dns_done : Z; dns_id : Z; dns_port : Z; dns_answer : bytes }.

(** [tcp_out] is null or points to [tcp_stream_buf]. *)
Record tcp_state := mk_tcp {
  tcp_event : Z;
  tcp_peer_ip : bytes;
  tcp_local_port : Z;
  tcp_peer_port : Z;
  tcp_iss : Z;
  tcp_snd_nxt : Z;
  tcp_snd_una : Z;
  tcp_rcv_nxt : Z;
  tcp_stream_buf : bytes;
  tcp_out : ptr unit;
  tcp_out_cap : Z;
  tcp_out_len : Z
}.

Record net := mk_net { nif : netif; nicmp : icmp_state; ndns : dns_state; ntcp : tcp_state }.

(** The values the program starts with. *)
Definition net_start : net :=
  mk_net
    (mk_if (replicate 6 0) [10; 0; 2; 15] [255; 255; 255; 0] [10; 0; 2; 2] [10; 0; 2; 3]
       (replicate 6 0) 0 0 0 0 1 49152)
    (mk_icmp 0 0x4f52 0) (mk_dns 0 0 0 [0; 0; 0; 0])
    (mk_tcp 0 [0; 0; 0; 0] 0 0 0 0 0 0 (replicate 32768 0) Null 0 0).

Definition upd_if (f : netif -> netif) (s : net) : net :=
  mk_net (f (nif s)) (nicmp s) (ndns s) (ntcp s).
Definition upd_icmp (f : icmp_state -> icmp_state) (s : net) : net :=
  mk_net (nif s) (f (nicmp s)) (ndns s) (ntcp s).
Definition upd_dns (f : dns_state -> dns_state) (s : net) : net :=
  mk_net (nif s) (nicmp s) (f (ndns s)) (ntcp s).
Definition upd_tcp (f : tcp_state -> tcp_state) (s : net) : net :=
  mk_net (nif s) (nicmp s) (ndns s) (f (ntcp s)).

Definition set_gateway_mac (m : bytes) (valid : Z) (i : netif) : netif :=
  mk_if (mac i) (ip_addr i) (netmask i) (gateway i) (dns_ip i) m valid (ready i) (rx_count i)
    (tx_count i) (ip_id i) (next_src_port i).
Definition set_counts (rx tx : Z) (i : netif) : netif :=
  mk_if (mac i) (ip_addr i) (netmask i) (gateway i) (dns_ip i) (gateway_mac i)
    (gateway_mac_valid i) (ready i) rx tx (ip_id i) (next_src_port i).
Definition set_ip_id (v : Z) (i : netif) : netif :=
  mk_if (mac i) (ip_addr i) (netmask i) (gateway i) (dns_ip i) (gateway_mac i)
    (gateway_mac_valid i) (ready i) (rx_count i) (tx_count i) v (next_src_port i).
Definition set_icmp_reply (v : Z) (c : icmp_state) : icmp_state :=
  mk_icmp v (icmp_ident c) (icmp_seq c).
Definition set_icmp_seq (v : Z) (c : icmp_state) : icmp_state :=
  mk_icmp (icmp_reply c) (icmp_ident c) v.
Definition set_dns_done (v : Z) (d : dns_state) : dns_state :=
  mk_dns v (dns_id d) (dns_port d) (dns_answer d).
Definition set_dns_answer (a : bytes) (d : dns_state) : dns_state :=
  mk_dns (dns_done d) (dns_id d) (dns_port d) a.
Definition set_tcp_event (v : Z) (t : tcp_state) : tcp_state :=
  mk_tcp v (tcp_peer_ip t) (tcp_local_port t) (tcp_peer_port t) (tcp_iss t) (tcp_snd_nxt t)
    (tcp_snd_una t) (tcp_rcv_nxt t) (tcp_stream_buf t) (tcp_out t) (tcp_out_cap t) (tcp_out_len t).
Definition set_snd (nxt una : Z) (t : tcp_state) : tcp_state :=
  mk_tcp (tcp_event t) (tcp_peer_ip t) (tcp_local_port t) (tcp_peer_port t) (tcp_iss t) nxt
    una (tcp_rcv_nxt t) (tcp_stream_buf t) (tcp_out t) (tcp_out_cap t) (tcp_out_len t).
Definition set_rcv_nxt (v : Z) (t : tcp_state) : tcp_state :=
  mk_tcp (tcp_event t) (tcp_peer_ip t) (tcp_local_port t) (tcp_peer_port t) (tcp_iss t)
    (tcp_snd_nxt t) (tcp_snd_una t) v (tcp_stream_buf t) (tcp_out t) (tcp_out_cap t)
    (tcp_out_len t).
Definition set_stream (b : bytes) (n : Z) (t : tcp_state) : tcp_state :=
  mk_tcp (tcp_event t) (tcp_peer_ip t) (tcp_local_port t) (tcp_peer_port t) (tcp_iss t)
    (tcp_snd_nxt t) (tcp_snd_una t) (tcp_rcv_nxt t) b (tcp_out t) (tcp_out_cap t) n.

(** ** Byte helpers (lines 27-38) *)

Definition memcopy (d : bytes) (o : Z) (s : bytes) (so : Z) (n : nat) : option bytes :=
  copy_from n d o s so.
Definition memzero (d : bytes) (o : Z) (n : nat) : option bytes := fill n d o 0.

Fixpoint memequal (a : bytes) (ao : Z) (b : bytes) (bo : Z) (n : nat) : option bool :=
  match n with
  | O => Some true
  | S n' =>
      x ← rd a ao; y ← rd b bo;
      if negb (x =? y) then Some false else memequal a (ao + 1) b (bo + 1) n'
  end.

Definition checksum16 (p : bytes) (o len : Z) : option Z :=
  sum ← sum16 (S (Z.to_nat len)) p o len 0;
  sum ← fold16 3 sum;
  Some (u16 (Z.lnot sum)).

Definition put16 (p : bytes) (o v : Z) : option bytes :=
  p ← wr p o (u8 (Z.shiftr v 8));
  wr p (o + 1) (u8 v).

Definition put32 (p : bytes) (o v : Z) : option bytes :=
  p ← wr p o (u8 (Z.shiftr v 24));
  p ← wr p (o + 1) (u8 (Z.shiftr v 16));
  p ← wr p (o + 2) (u8 (Z.shiftr v 8));
  wr p (o + 3) (u8 v).

Definition get16 (p : bytes) (o : Z) : option Z :=
  a ← rd p o; b ← rd p (o + 1); Some (u16 (Z.lor (Z.shiftl (u16 a) 8) b)).

Definition get32 (p : bytes) (o : Z) : option Z :=
  p0 ← rd p o; p1 ← rd p (o + 1); p2 ← rd p (o + 2); p3 ← rd p (o + 3);
  Some (Z.lor (Z.lor (Z.lor (u32 (Z.shiftl p0 24)) (u32 (Z.shiftl p1 16)))
                     (u32 (Z.shiftl p2 8))) p3).

(** [for(i=0;i<4;i++)] of [same_subnet]. *)
Fixpoint same_subnet_loop (k : nat) (netmask a b : bytes) (i : Z) : option bool :=
  match k with
  | O => Some true
  | S k' =>
      x ← rd a i; y ← rd b i; m ← rd netmask i;
      if negb (Z.land x m =? Z.land y m) then Some false
      else same_subnet_loop k' netmask a b (i + 1)
  end.
Definition same_subnet (s : net) (a b : bytes) : option bool :=
  same_subnet_loop 4 (netmask (nif s)) a b 0.

Definition ip_equal (a b : bytes) : option bool := memequal a 0 b 0 4.

(** ** Frames *)

Definition eth_header (s : net) (p dst : bytes) (type : Z) : option bytes :=
  p ← memcopy p 0 dst 0 6;
  p ← memcopy p 6 (mac (nif s)) 0 6;
  put16 p 12 type.

(** The fields of an ARP packet that do not depend on the operation. *)
Definition arp_request (s : net) (p target : bytes) : option bytes :=
  p ← eth_header s p [255; 255; 255; 255; 255; 255] ETH_ARP;
  p ← put16 p 14 1;
  p ← put16 p 16 0x0800;
  p ← wr p 18 6;
  p ← wr p 19 4;
  p ← put16 p 20 1;
  p ← memcopy p 22 (mac (nif s)) 0 6;
  p ← memcopy p 28 (ip_addr (nif s)) 0 4;
  p ← memzero p 32 6;
  memcopy p 38 target 0 4.

Definition arp_reply (s : net) (p dstmac dstip : bytes) : option bytes :=
  p ← eth_header s p dstmac ETH_ARP;
  p ← put16 p 14 1;
  p ← put16 p 16 0x0800;
  p ← wr p 18 6;
  p ← wr p 19 4;
  p ← put16 p 20 2;
  p ← memcopy p 22 (mac (nif s)) 0 6;
  p ← memcopy p 28 (ip_addr (nif s)) 0 4;
  p ← memcopy p 32 dstmac 0 6;
  memcopy p 38 dstip 0 4.

(** The 20 bytes at [o]; the identification counter advances. *)
Definition make_ipv4 (s : net) (p : bytes) (o proto : Z) (dst : bytes) (payload_len : Z)
  : option (bytes * net) :=
  p ← wr p o 0x45;
  p ← wr p (o + 1) 0;
  p ← put16 p (o + 2) (u16 (20 + payload_len));
  p ← put16 p (o + 4) (ip_id (nif s));
  let s := upd_if (set_ip_id (u16 (ip_id (nif s) + 1))) s in
  p ← put16 p (o + 6) 0x4000;
  p ← wr p (o + 8) 64;
  p ← wr p (o + 9) proto;
  p ← put16 p (o + 10) 0;
  p ← memcopy p (o + 12) (ip_addr (nif s)) 0 4;
  p ← memcopy p (o + 16) dst 0 4;
  c ← checksum16 p o 20;
  p ← put16 p (o + 10) c;
  Some (p, s).

(** [for(size_t i=0;i+1<len;i+=2)] *)
Fixpoint tcp_sum_loop (fuel : nat) (tcp : bytes) (len i sum : Z) : option Z :=
  match fuel with
  | O => None
  | S fuel' =>
      if i + 1 <? len then
        a ← rd tcp i; b ← rd tcp (i + 1);
        tcp_sum_loop fuel' tcp len (i + 2) (u32 (sum + Z.lor (Z.shiftl (u16 a) 8) b))
      else Some sum
  end.

(** [for(int i=0;i<4;i+=2)] over both addresses. *)
Fixpoint addr_sum_loop (k : nat) (src dst : bytes) (i sum : Z) : option Z :=
  match k with
  | O => Some sum
  | S k' =>
      a ← rd src i; b ← rd src (i + 1);
      let sum := u32 (sum + Z.lor (Z.shiftl (u16 a) 8) b) in
      c ← rd dst i; d ← rd dst (i + 1);
      addr_sum_loop k' src dst (i + 2) (u32 (sum + Z.lor (Z.shiftl (u16 c) 8) d))
  end.

Definition tcp_checksum (src dst tcp : bytes) (len : Z) : option Z :=
  sum ← addr_sum_loop 2 src dst 0 0;
  let sum := u32 (sum + IP_TCP) in
  let sum := u32 (sum + u16 len) in
  sum ← tcp_sum_loop (S (Z.to_nat len)) tcp len 0 sum;
  sum ← (if negb (Z.land len 1 =? 0)
         then a ← rd tcp (len - 1); Some (u32 (sum + Z.shiftl (u16 a) 8))
         else Some sum);
  sum ← fold16 3 sum;
  Some (u16 (Z.lnot sum)).

(** The echo request of [send_icmp_echo]. *)
Definition icmp_echo (s : net) (p : bytes) : option (bytes * net) :=
  p ← memzero p 0 16;
  p ← wr p 0 8;
  p ← put16 p 4 (icmp_ident (nicmp s));
  let seq := u16 (icmp_seq (nicmp s) + 1) in
  let s := upd_icmp (set_icmp_seq seq) s in
  p ← put16 p 6 seq;
  p ← wr p 8 8; p ← wr p 9 9; p ← wr p 10 10; p ← wr p 11 11;
  p ← wr p 12 12; p ← wr p 13 13; p ← wr p 14 14; p ← wr p 15 15;
  c ← checksum16 p 0 16;
  p ← put16 p 2 c;
  Some (p, s).

Definition udp_datagram (p : bytes) (sport dport : Z) (data : bytes) (len : Z) : option bytes :=
  p ← put16 p 0 sport;
  p ← put16 p 2 dport;
  p ← put16 p 4 (u16 (8 + len));
  p ← put16 p 6 0;
  memcopy p 8 data 0 (Z.to_nat len).

(** The segment of [send_tcp]; [data] is null or the bytes to send. *)
Definition tcp_segment (s : net) (p : bytes) (flags : Z) (data : ptr bytes) (len : Z)
  : option bytes :=
  let t := ntcp s in
  p ← memzero p 0 20;
  p ← put16 p 0 (tcp_local_port t);
  p ← put16 p 2 (tcp_peer_port t);
  p ← put32 p 4 (tcp_snd_nxt t);
  p ← put32 p 8 (tcp_rcv_nxt t);
  p ← wr p 12 (Z.shiftl 5 4);
  p ← wr p 13 flags;
  p ← put16 p 14 4096;
  p ← match data with
      | Ptr d => if negb (len =? 0) then memcopy p 20 d 0 (Z.to_nat len) else Some p
      | Null => Some p
      end;
  p ← put16 p 16 0;
  c ← tcp_checksum (ip_addr (nif s)) (tcp_peer_ip t) p (20 + len);
  put16 p 16 c.

Section tx.
Context {E : Type} `{!NetEnv E}.

Definition now_ms (e : E) : Z * E :=
  let hz := timer_frequency e in
  if hz =? 0 then (0, e) else
  let '(t, e) := timer_ticks e in
  (u32 (u64 (t * 1000) / hz), e).

Definition elapsed (start ms : Z) (e : E) : bool * E :=
  let '(now, e) := now_ms e in (ms <=? u32 (now - start), e).

(** [data, len] are the first bytes of the frame buffer. *)
Definition eth_tx (data : bytes) (s : net) (e : E) : Z * net * E :=
  if ready (nif s) =? 0 then (0, s, e) else
  let '(r, e) := netdev_tx data e in
  if negb (r =? 0)
  then (1, upd_if (fun i => set_counts (rx_count i) (u64 (tx_count i + 1)) i) s, e)
  else (0, s, e).

(** Uninitialised local arrays: [stack n] is one of [n] bytes. *)
Context (stack : Z -> bytes).

Definition send_arp_request (target : bytes) (s : net) (e : E) : res (net * E) :=
  p ← ub (arp_request s (stack 42) target);
  let '(_, s, e) := eth_tx p s e in Ok (s, e).

Definition send_arp_reply (dstmac dstip : bytes) (s : net) (e : E) : res (net * E) :=
  p ← ub (arp_reply s (stack 42) dstmac dstip);
  let '(_, s, e) := eth_tx p s e in Ok (s, e).

(** The next hop of a destination: the destination itself on the local
    network, else the gateway. *)
Definition next_hop (s : net) (dest : bytes) : option bytes :=
  local ← same_subnet s dest (ip_addr (nif s));
  Some (if (local : bool) then dest else gateway (nif s)).

(** [ip_equal(target,gateway)&&gateway_mac_valid] *)
Definition hop_known (s : net) (target : bytes) : option bool :=
  eq ← ip_equal target (gateway (nif s));
  Some ((eq : bool) && negb (gateway_mac_valid (nif s) =? 0)).

(** [resolve] is [resolve_next_hop]: the address when it returns 1. *)
Definition send_ip_packet (resolve : bytes -> net -> E -> res (option bytes * net * E))
    (proto : Z) (dest payload : bytes) (plen : Z) (s : net) (e : E) : res (net * E) :=
  if 1500 - 20 <? plen then Ok (s, e) else
  '(r, s, e) ← resolve dest s e;
  match r with
  | None => Ok (s, e)
  | Some nh =>
      frame ← ub (eth_header s (stack 1600) nh ETH_IP);
      '(frame, s) ← ub (make_ipv4 s frame 14 proto dest plen);
      frame ← ub (memcopy frame 34 payload 0 (Z.to_nat plen));
      data ← ub (rd_bytes frame 0 (34 + plen));
      let '(_, s, e) := eth_tx data s e in Ok (s, e)
  end.

(** The senders above IP, given [send_ip_packet]. *)
Context (send_ip : Z -> bytes -> bytes -> Z -> net -> E -> res (net * E)).

Definition send_icmp_echo (dest : bytes) (s : net) (e : E) : res (net * E) :=
  '(p, s) ← ub (icmp_echo s (stack 16));
  send_ip IP_ICMP dest p 16 s e.

Definition send_udp (dest : bytes) (sport dport : Z) (data : bytes) (len : Z) (s : net) (e : E)
  : res (net * E) :=
  p ← ub (udp_datagram (stack 1500) sport dport data len);
  send_ip IP_UDP dest p (u16 (8 + len)) s e.

Definition send_tcp (flags : Z) (data : ptr bytes) (len : Z) (s : net) (e : E) : res (net * E) :=
  p ← ub (tcp_segment s (stack 1500) flags data len);
  '(s, e) ← send_ip IP_TCP (tcp_peer_ip (ntcp s)) p (u16 (20 + len)) s e;
  let bump (c : bool) s :=
    if c then upd_tcp (fun t => set_snd (u32 (tcp_snd_nxt t + 1)) (tcp_snd_una t) t) s else s in
  let s := bump (negb (Z.land flags 0x02 =? 0)) s in
  let s := bump (negb (Z.land flags 0x01 =? 0)) s in
  Ok (upd_tcp (fun t => set_snd (u32 (tcp_snd_nxt t + len)) (tcp_snd_una t) t) s, e).
End tx.

(** ** The messages, as the standards lay them out *)

Definition eth_head (dst src : bytes) (type : Z) : bytes := dst ++ src ++ be16 type.

Definition arp_packet (dst src : bytes) (op : Z) (smac sip tmac tip : bytes) : bytes :=
  eth_head dst src ETH_ARP ++ be16 1 ++ be16 0x0800 ++ [6; 4] ++ be16 op
  ++ smac ++ sip ++ tmac ++ tip.

Definition ipv4_header (id proto : Z) (src dst : bytes) (n c : Z) : bytes :=
  [0x45; 0] ++ be16 (20 + n) ++ be16 id ++ be16 0x4000 ++ [64; proto] ++ be16 c ++ src ++ dst.

(** Header checksum included. *)
Definition ipv4_head (id proto : Z) (src dst : bytes) (n : Z) : bytes :=
  ipv4_header id proto src dst n (checksum (ipv4_header id proto src dst n 0)).

Definition tcp_head (sport dport seq ack flags c : Z) : bytes :=
  be16 sport ++ be16 dport ++ be32 seq ++ be32 ack ++ [0x50; flags] ++ be16 4096 ++ be16 c
  ++ [0; 0].

(** The pseudo-header of RFC 793, over which the TCP checksum extends. *)
Definition pseudo_header (src dst : bytes) (n : Z) : bytes :=
  src ++ dst ++ be16 IP_TCP ++ be16 n.

Definition tcp_message (src dst : bytes) (sport dport seq ack flags : Z) (data : bytes) : bytes :=
  let n := 20 + len data in
  tcp_head sport dport seq ack flags
    (checksum (pseudo_header src dst n ++ tcp_head sport dport seq ack flags 0 ++ data)) ++ data.

(** ** The byte helpers *)

Lemma memcopy_app (a r : bytes) o src n :
  o = len a -> n = length src -> (n <= length r)%nat ->
  memcopy (a ++ r) o src 0 n = Some ((a ++ src) ++ drop n r).
Proof. apply dcopy_app. Qed.

Lemma memzero_app (a r : bytes) o n :
  o = len a -> (n <= length r)%nat ->
  memzero (a ++ r) o n = Some ((a ++ replicate n 0) ++ drop n r).
Proof. apply dzero_app. Qed.

Lemma put16_app (a r : bytes) o v :
  o = len a -> (2 <= length r)%nat -> put16 (a ++ r) o v = Some ((a ++ be16 v) ++ drop 2 r).
Proof. apply dput16_app. Qed.

Lemma put32_app (a r : bytes) o v :
  o = len a -> (4 <= length r)%nat -> put32 (a ++ r) o v = Some ((a ++ be32 v) ++ drop 4 r).
Proof. apply dput32_app. Qed.

Lemma memequal_spec a ao b bo n :
  0 <= ao -> ao + Z.of_nat n <= len a -> 0 <= bo -> bo + Z.of_nat n <= len b ->
  memequal a ao b bo n
  = Some (bool_decide (slice a ao (Z.of_nat n) = slice b bo (Z.of_nat n))).
Proof.
  revert ao bo. induction n as [|n IH]; intros ao bo Ha Hla Hb Hlb; [done|].
  cbn [memequal].
  destruct (rd_is_Some a ao) as [x Hx]; [lia|]. destruct (rd_is_Some b bo) as [y Hy]; [lia|].
  rewrite Hx, Hy. cbn [mbind option_bind]. apply rd_inv in Hx as [_ Hx], Hy as [_ Hy].
  rewrite (slice_cons a ao _ x), (slice_cons b bo _ y) by (done || lia).
  replace (Z.of_nat (S n) - 1) with (Z.of_nat n) by lia.
  destruct (Z.eqb_spec x y) as [->|Hne]; cbn [negb].
  - rewrite IH by lia. f_equal. apply bool_decide_ext. split; congruence.
  - rewrite bool_decide_false; congruence.
Qed.

Lemma ip_equal_spec a b :
  len a = 4 -> len b = 4 -> ip_equal a b = Some (bool_decide (a = b)).
Proof.
  intros Ha Hb. unfold ip_equal. rewrite memequal_spec by lia.
  change (Z.of_nat 4) with 4. by rewrite !slice_all.
Qed.

Lemma checksum16_spec p o n :
  bytes_ok p -> 0 <= o -> 0 <= n <= 131072 -> o + n <= len p ->
  checksum16 p o n = Some (checksum (slice p o n)).
Proof. apply dhcp_checksum16_spec. Qed.

Lemma get16_spec p o :
  bytes_ok p -> 0 <= o -> o + 2 <= len p -> get16 p o = Some (be16_at p o).
Proof.
  intros Hb Ho Hl. unfold get16, be16_at. rewrite !rd_byte_at by lia. cbn [mbind option_bind].
  pose proof (byte_at_range p o Hb). pose proof (byte_at_range p (o + 1) Hb).
  rewrite (u16_id (byte_at p o)), lor_shiftl_add by lia. change (2 ^ 8) with 256.
  by rewrite u16_id by lia.
Qed.

Lemma get32_spec p o :
  bytes_ok p -> 0 <= o -> o + 4 <= len p -> get32 p o = Some (be32_at p o).
Proof. apply dget32_spec. Qed.

Lemma be16_ok v : bytes_ok (be16 v).
Proof. unfold be16. repeat constructor; apply u8_range. Qed.
Lemma be32_ok v : bytes_ok (be32 v).
Proof. unfold be32. repeat constructor; apply u8_range. Qed.
#[export] Hint Resolve be16_ok be32_ok : orion.

(** Lengths of messages. *)
Ltac wlen := rewrite ?length_app, ?length_drop, ?length_replicate, ?length_app, ?length_drop,
  ?length_replicate; cbn [length be16 be32]; lia.

(** The next store of a builder. *)
Ltac put_step :=
  first [ rewrite memcopy_app by wlen | rewrite put16_app by wlen | rewrite put32_app by wlen
        | rewrite wr_app by wlen | rewrite memzero_app by wlen ];
  rewrite ?bind_some, ?drop_drop.

Lemma eth_header_spec s p dst type :
  len dst = 6 -> len (mac (nif s)) = 6 -> (14 <= length p)%nat ->
  eth_header s p dst type = Some (eth_head dst (mac (nif s)) type ++ drop 14 p).
Proof.
  intros Hd Hm Hp. unfold eth_header. change p with ([] ++ p) at 1. do 3 put_step.
  unfold eth_head. cbn [app]. by rewrite <- !app_assoc.
Qed.

Lemma arp_request_spec s p target :
  len (mac (nif s)) = 6 -> len (ip_addr (nif s)) = 4 -> len target = 4 -> len p = 42 ->
  arp_request s p target
  = Some (arp_packet (replicate 6 255) (mac (nif s)) 1 (mac (nif s)) (ip_addr (nif s))
            (replicate 6 0) target).
Proof.
  intros Hm Hi Ht Hp. unfold arp_request.
  rewrite eth_header_spec by (done || wlen). rewrite bind_some. unfold eth_head.
  do 9 put_step. rewrite drop_ge by wlen. rewrite app_nil_r.
  unfold arp_packet, eth_head. by rewrite <- !app_assoc.
Qed.

Lemma arp_reply_spec s p dmac dip :
  len (mac (nif s)) = 6 -> len (ip_addr (nif s)) = 4 -> len dmac = 6 -> len dip = 4 ->
  len p = 42 ->
  arp_reply s p dmac dip
  = Some (arp_packet dmac (mac (nif s)) 2 (mac (nif s)) (ip_addr (nif s)) dmac dip).
Proof.
  intros Hm Hi Hd Ht Hp. unfold arp_reply.
  rewrite eth_header_spec by (done || wlen). rewrite bind_some. unfold eth_head.
  do 9 put_step. rewrite drop_ge by wlen. rewrite app_nil_r.
  unfold arp_packet, eth_head. by rewrite <- !app_assoc.
Qed.

Lemma make_ipv4_spec s a r proto dst n :
  bytes_ok a -> bytes_ok r -> (20 <= length r)%nat -> bytes_ok dst -> len dst = 4 ->
  bytes_ok (ip_addr (nif s)) -> len (ip_addr (nif s)) = 4 -> is_byte proto ->
  0 <= n -> 20 + n < 65536 ->
  make_ipv4 s (a ++ r) (len a) proto dst n
  = Some ((a ++ ipv4_head (ip_id (nif s)) proto (ip_addr (nif s)) dst n) ++ drop 20 r,
          upd_if (set_ip_id (u16 (ip_id (nif s) + 1))) s).
Proof.
  intros Ha Hr Hl Hdb Hd Hib Hi Hp Hn Hn'. unfold make_ipv4, ipv4_head.
  rewrite (u16_id (20 + n)) by lia. remember (ipv4_header _ _ _ _ n 0) as h0 eqn:Eh0.
  cbn [upd_if nif set_ip_id ip_addr].
  do 10 put_step.
  match goal with |- context [checksum16 ?x _ _] => set (p := x) end.
  assert (Ep : p = a ++ (h0 ++ drop 20 r)).
  { subst p. rewrite Eh0. unfold ipv4_header. rewrite <- !app_assoc. reflexivity. }
  assert (Hh0 : bytes_ok h0).
  { rewrite Eh0. unfold ipv4_header. rewrite !bytes_ok_app.
    repeat split; auto with orion; repeat constructor; unfold is_byte in *; lia. }
  assert (Hh : len h0 = 20) by (rewrite Eh0; unfold ipv4_header; wlen).
  rewrite Ep, checksum16_spec; first last.
  { rewrite !length_app. lia. } { lia. } { lia. }
  { rewrite !bytes_ok_app. repeat split; [done|done|]. by apply Forall_drop. }
  rewrite bind_some.
  replace (slice (a ++ h0 ++ drop 20 r) (len a) 20) with h0; last first.
  { unfold slice. rewrite Nat2Z.id, drop_app_length, take_app_le by lia.
    rewrite take_ge by lia. done. }
  rewrite Eh0 at 1. unfold ipv4_header.
  replace (a ++ ([0x45; 0] ++ be16 (20 + n) ++ be16 (ip_id (nif s)) ++ be16 0x4000 ++ [64; proto]
    ++ be16 0 ++ ip_addr (nif s) ++ dst) ++ drop 20 r)
    with ((a ++ [0x45; 0] ++ be16 (20 + n) ++ be16 (ip_id (nif s)) ++ be16 0x4000 ++ [64; proto])
          ++ (be16 0 ++ ip_addr (nif s) ++ dst ++ drop 20 r)) by (by rewrite <- !app_assoc).
  rewrite put16_app by wlen. rewrite bind_some. do 2 f_equal.
  change (drop 2 (be16 0 ++ ip_addr (nif s) ++ dst ++ drop 20 r))
    with (ip_addr (nif s) ++ dst ++ drop 20 r). by rewrite <- !app_assoc.
Qed.

(** ** The TCP checksum *)

Lemma word_sum_snoc l x : Nat.Even (length l) -> word_sum (l ++ [x]) = word_sum l + x * 256.
Proof. intros H. by rewrite word_sum_app. Qed.

Lemma tcp_sum_loop_spec fuel p n i s :
  bytes_ok p -> 0 <= i <= n -> n <= len p -> n - i < Z.of_nat fuel ->
  0 <= s -> s + word_sum (slice p i (n - i)) < 4294967296 ->
  tcp_sum_loop fuel p n i s = Some (s + word_sum (slice p i (2 * ((n - i) / 2)))).
Proof.
  intros Hb. revert i s. induction fuel as [|fuel IH]; intros i s Hi Hl Hf Hs Hov; [lia|].
  cbn [tcp_sum_loop]. destruct (Z.ltb_spec (i + 1) n) as [H1|H1].
  - destruct (rd_is_Some p i) as [a Ha]; [lia|]. destruct (rd_is_Some p (i + 1)) as [b Hb']; [lia|].
    rewrite Ha, Hb'. cbn [mbind option_bind].
    pose proof (bytes_ok_rd _ _ _ Hb Ha) as Ra. pose proof (bytes_ok_rd _ _ _ Hb Hb') as Rb.
    unfold is_byte in *. apply rd_inv in Ha as [_ Ha], Hb' as [_ Hb'].
    replace (2 * ((n - i) / 2)) with (2 * ((n - (i + 2)) / 2) + 2) by zlia.
    rewrite (slice_cons p i (n - i) a), (slice_cons p (i + 1) _ b) in Hov by (done || lia).
    rewrite (slice_cons p i _ a), (slice_cons p (i + 1) _ b) by (done || zlia).
    cbn [word_sum] in *. replace (i + 1 + 1) with (i + 2) in * by lia.
    replace (n - i - 1 - 1) with (n - (i + 2)) in * by lia.
    rewrite (u16_id a), lor_shiftl_add by lia. change (2 ^ 8) with 256.
    pose proof (word_sum_bounds (slice p (i + 2) (n - (i + 2))) ltac:(auto with orion)).
    rewrite u32_id by lia. rewrite IH by lia. f_equal.
    replace (2 * ((n - (i + 2)) / 2) + 2 - 1 - 1) with (2 * ((n - (i + 2)) / 2)) by lia. lia.
  - rewrite slice_nil by zlia. cbn. f_equal. lia.
Qed.

Lemma slice_extend (p : bytes) i n x :
  0 <= i -> 0 <= n -> rd p (i + n) = Some x -> slice p i (n + 1) = slice p i n ++ [x].
Proof.
  intros Hi Hn [_ Hx]%rd_inv. unfold slice.
  replace (Z.to_nat (n + 1)) with (S (Z.to_nat n)) by lia.
  apply take_S_r. rewrite lookup_drop. rewrite <- Hx. f_equal. lia.
Qed.

Lemma land_1 n : Z.land n 1 = n mod 2.
Proof. change 1 with (Z.ones 1). by rewrite Z.land_ones. Qed.

Lemma addr_sum_spec src dst :
  bytes_ok src -> len src = 4 -> bytes_ok dst -> len dst = 4 ->
  addr_sum_loop 2 src dst 0 0 = Some (word_sum src + word_sum dst).
Proof.
  intros Hsb (a & b & c & d & ->)%list4 Hdb (a' & b' & c' & d' & ->)%list4.
  assert (R : forall x, In x [a; b; c; d] \/ In x [a'; b'; c'; d'] -> 0 <= x < 256).
  { intros x [Hx|Hx]; [revert Hsb|revert Hdb]; unfold bytes_ok; rewrite List.Forall_forall;
      intros H; exact (H x Hx). }
  pose proof (R a ltac:(cbn; auto 12)). pose proof (R b ltac:(cbn; auto 12)).
  pose proof (R c ltac:(cbn; auto 12)). pose proof (R d ltac:(cbn; auto 12)).
  pose proof (R a' ltac:(cbn; auto 12)). pose proof (R b' ltac:(cbn; auto 12)).
  pose proof (R c' ltac:(cbn; auto 12)). pose proof (R d' ltac:(cbn; auto 12)). clear R Hsb Hdb.
  set (w x y := Z.lor (Z.shiftl (u16 x) 8) y).
  change (addr_sum_loop 2 [a; b; c; d] [a'; b'; c'; d'] 0 0)
    with (Some (u32 (u32 (u32 (u32 (0 + w a b) + w a' b') + w c d) + w c' d'))).
  assert (Hw : forall x y, 0 <= x < 256 -> 0 <= y < 256 -> w x y = x * 256 + y).
  { intros x y Hx Hy. unfold w. by rewrite u16_id, lor_shiftl_add by lia. }
  rewrite !Hw by lia. f_equal. cbn [word_sum]. unfold u32. zlia.
Qed.

Lemma tcp_checksum_spec src dst p n :
  bytes_ok src -> len src = 4 -> bytes_ok dst -> len dst = 4 -> bytes_ok p ->
  0 <= n < 65536 -> n <= len p ->
  tcp_checksum src dst p n = Some (checksum (pseudo_header src dst n ++ slice p 0 n)).
Proof.
  intros Hsb Hs Hdb Hd Hb Hn Hl. unfold tcp_checksum, checksum, pseudo_header.
  rewrite addr_sum_spec by done. rewrite bind_some. rewrite (u16_id n) by lia.
  pose proof (word_sum_bounds src Hsb). pose proof (word_sum_bounds dst Hdb).
  pose proof (word_sum_bounds (slice p 0 n) ltac:(auto with orion)) as Hw.
  rewrite slice_length in Hw by lia. rewrite Hs, Hd in *. change ((4 + 1) / 2) with 2 in *.
  assert (Hsum : word_sum ((src ++ dst ++ be16 IP_TCP ++ be16 n) ++ slice p 0 n)
    = word_sum src + word_sum dst + 6 + n + word_sum (slice p 0 n)).
  { rewrite <- !app_assoc, !word_sum_app, !be16_sum; unfold IP_TCP; try lia;
      try (by exists 1%nat); exists 2%nat; lia. }
  rewrite Hsum. change IP_TCP with 6.
  replace (u32 (u32 (word_sum src + word_sum dst + 6) + n)) with (word_sum src + word_sum dst + 6 + n)
    by (unfold u32; zlia).
  rewrite tcp_sum_loop_spec; rewrite ?Z.sub_0_r; try done; try lia; [|zlia].
  rewrite bind_some, land_1.
  assert (Hodd : (if negb (n mod 2 =? 0)
      then a ← rd p (n - 1);
           Some (u32 (word_sum src + word_sum dst + 6 + n + word_sum (slice p 0 (2 * (n / 2)))
                      + Z.shiftl (u16 a) 8))
      else Some (word_sum src + word_sum dst + 6 + n + word_sum (slice p 0 (2 * (n / 2)))))
    = Some (word_sum src + word_sum dst + 6 + n + word_sum (slice p 0 n))).
  { destruct (Z.eqb_spec (n mod 2) 0) as [He|He]; cbn [negb].
    { replace (2 * (n / 2)) with n by zlia. done. }
    destruct (rd_is_Some p (n - 1)) as [x Hx]; [zlia|]. rewrite Hx. cbn [mbind option_bind].
    pose proof (bytes_ok_rd _ _ _ Hb Hx) as Rx. unfold is_byte in Rx.
    replace (2 * (n / 2)) with (n - 1) by zlia.
    rewrite (u16_id x), Z.shiftl_mul_pow2 by lia. change (2 ^ 8) with 256.
    assert (Hsn : slice p 0 n = slice p 0 (n - 1) ++ [x]).
    { rewrite <- (slice_extend p 0 (n - 1) x) by (zlia || exact Hx). f_equal. lia. }
    rewrite Hsn in Hw |- *.
    assert (He' : Nat.Even (length (slice p 0 (n - 1)))).
    { pose proof (slice_length p 0 (n - 1)). exists (Z.to_nat (n / 2)). zlia. }
    rewrite word_sum_snoc in * by done.
    pose proof (word_sum_bounds (slice p 0 (n - 1)) ltac:(auto with orion)).
    rewrite u32_id by zlia. f_equal. lia. }
  rewrite Hodd, bind_some. rewrite fold16_spec by zlia. rewrite bind_some.
  rewrite lnot16; [done|]. apply oc_fold_range. lia.
Qed.

(** ** The segment *)

Definition payload_of (data : ptr bytes) : bytes := match data with Ptr d => d | Null => [] end.

Lemma tcp_head_length sport dport seq ack flags c :
  length (tcp_head sport dport seq ack flags c) = 20%nat.
Proof. reflexivity. Qed.

Lemma tcp_head_ok sport dport seq ack flags c :
  is_byte flags -> bytes_ok (tcp_head sport dport seq ack flags c).
Proof.
  intros Hf. unfold tcp_head. rewrite !bytes_ok_app.
  repeat split; auto with orion; repeat constructor; unfold is_byte in *; lia.
Qed.

Lemma tcp_segment_spec s p flags data :
  let t := ntcp s in let d := payload_of data in let n := len d in
  len p = 1500 -> bytes_ok p -> is_byte flags -> bytes_ok d -> n <= 1480 ->
  bytes_ok (ip_addr (nif s)) -> len (ip_addr (nif s)) = 4 ->
  bytes_ok (tcp_peer_ip t) -> len (tcp_peer_ip t) = 4 ->
  tcp_segment s p flags data n
  = Some (tcp_message (ip_addr (nif s)) (tcp_peer_ip t) (tcp_local_port t) (tcp_peer_port t)
            (tcp_snd_nxt t) (tcp_rcv_nxt t) flags d ++ drop (20 + length d) p).
Proof.
  intros t d n Hp Hpb Hf Hdb Hn Hib Hi Htb Ht. unfold tcp_segment. fold t.
  set (R := drop 20 p).
  assert (HR : len R = 1480) by (unfold R; wlen).
  assert (HRb : bytes_ok R) by (by apply Forall_drop).
  change (memzero p 0 20) with (memzero ([] ++ p) 0 20).
  rewrite (memzero_app [] p 0 20) by (done || lia). rewrite bind_some. fold R.
  change (([] ++ replicate 20 0) ++ R) with ([] ++ (replicate 20 0 ++ R)).
  do 7 put_step. cbn [Nat.add].
  match goal with |- context [?a ++ drop 16 (replicate 20 0 ++ R)] => set (h := a) end.
  change (drop 16 (replicate 20 0 ++ R)) with ([0; 0; 0; 0] ++ R).
  assert (Hh : h = take 16 (tcp_head (tcp_local_port t) (tcp_peer_port t) (tcp_snd_nxt t)
                              (tcp_rcv_nxt t) flags 0)) by reflexivity.
  assert (Hh16 : len h = 16) by reflexivity. clearbody h.
  assert (Edata : (match data with
      | Ptr d => if negb (n =? 0) then memcopy (h ++ [0; 0; 0; 0] ++ R) 20 d 0 (Z.to_nat n)
                 else Some (h ++ [0; 0; 0; 0] ++ R)
      | Null => Some (h ++ [0; 0; 0; 0] ++ R)
      end) = Some (h ++ [0; 0; 0; 0] ++ d ++ drop (length d) R)).
  { subst n d. destruct data as [|d]; cbn [payload_of] in *; [done|].
    destruct (Z.eqb_spec (len d) 0) as [H0|H0]; cbn [negb].
    { destruct d; [done|cbn in H0; lia]. }
    rewrite Nat2Z.id, app_assoc. rewrite memcopy_app by wlen. by rewrite <- !app_assoc. }
  rewrite Edata, bind_some.
  assert (Hput : forall c, put16 (h ++ [0; 0; 0; 0] ++ d ++ drop (length d) R) 16 c
    = Some (tcp_head (tcp_local_port t) (tcp_peer_port t) (tcp_snd_nxt t) (tcp_rcv_nxt t) flags c
            ++ d ++ drop (length d) R)).
  { intros c. rewrite put16_app by wlen. rewrite Hh. by rewrite <- !app_assoc. }
  rewrite Hput, bind_some.
  set (hd := tcp_head _ _ _ _ _ 0) in *.
  assert (Hhd : length hd = 20%nat) by apply tcp_head_length.
  assert (Hhb : bytes_ok hd) by (by apply tcp_head_ok).
  rewrite tcp_checksum_spec; try done; first last.
  { subst n. wlen. } { lia. }
  { rewrite !bytes_ok_app. repeat split; [done|done|]. by apply Forall_drop. }
  rewrite bind_some.
  assert (Esl : slice (hd ++ d ++ drop (length d) R) 0 (20 + n) = hd ++ d).
  { unfold slice. rewrite drop_0, app_assoc. apply take_app_length'. rewrite length_app. lia. }
  rewrite Esl.
  assert (Hback : hd ++ d ++ drop (length d) R = h ++ [0; 0; 0; 0] ++ d ++ drop (length d) R)
    by (rewrite Hh; reflexivity).
  rewrite Hback, Hput. unfold tcp_message. fold n hd. rewrite <- app_assoc.
  unfold R. by rewrite drop_drop.
Qed.
