(* ===== verification/NetRx.v ===== *)
(** * kernel/net.c: reception

    The handlers of ARP, ICMP, UDP (DNS answers), TCP and IPv4 packets, the
    dispatcher, and next-hop resolution, which polls the adapter and so may run
    the handlers again.  A frame is a buffer and the number of bytes received; a
    read beyond them is a fault.  The adapter leaves a frame alone while the
    callback runs on it. *)

From S2P Require Import Prelude Dhcp Checksum NetEnv Cstr Wire Net.

(** ** The DNS message (lines 104 and 105) *)

(** [while(o<n&&labels++<128)] of [dns_skip_name]; [d] is the message at offset
    [b] of the frame, [k] the labels still allowed. *)
Fixpoint skip_name_loop (k : nat) (f : bytes) (b n o : Z) : option Z :=
  if negb (o <? n) then Some (n + 1) else
  match k with
  | O => Some (n + 1)
  | S k' =>
      z ← rd f (b + o);
      if z =? 0 then Some (o + 1) else
      if Z.land z 0xc0 =? 0xc0 then Some (o + 2) else
      if negb (Z.land z 0xc0 =? 0) || (63 <? z) || (n <? o + 1 + z) then Some (n + 1) else
      skip_name_loop k' f b n (o + (1 + z))
  end.
Definition dns_skip_name (f : bytes) (b n o : Z) : option Z := skip_name_loop 128 f b n o.

(** [for(q=0;q<qd;q++)]: the offset after the questions; [None] inside is the
    early return with [dns_done=-1]. *)
Fixpoint skip_questions (k : nat) (f : bytes) (b n o : Z) : option (option Z) :=
  match k with
  | O => Some (Some o)
  | S k' =>
      o ← dns_skip_name f b n o;
      if (n <? o) || (n <? o + 4) then Some None else skip_questions k' f b n (o + 4)
  end.

(** [for(a=0;a<an;a++)]: the address of the first A record, or [None] when
    [dns_done] becomes -1. *)
Fixpoint scan_answers (k : nat) (f : bytes) (b n o : Z) : option (option bytes) :=
  match k with
  | O => Some None
  | S k' =>
      o ← dns_skip_name f b n o;
      if (n <? o) || (n <? o + 10) then Some None else
      typ ← get16 f (b + o);
      cls ← get16 f (b + o + 2);
      rdl ← get16 f (b + o + 8);
      let o := o + 10 in
      if n <? o + rdl then Some None else
      if (typ =? 1) && (cls =? 1) && (rdl =? 4)
      then a ← rd_bytes f (b + o) 4; Some (Some a)
      else scan_answers k' f b n (o + rdl)
  end.

(** The handlers take the frame, the offset of their packet and its length. *)

Definition handle_udp (f : bytes) (o len : Z) (s : net) : option net :=
  let done v := upd_dns (set_dns_done v) s in
  if len <? 8 then Some s else
  sp ← get16 f o;
  dp ← get16 f (o + 2);
  ulen ← get16 f (o + 4);
  if (ulen <? 8) || (len <? ulen) || negb (sp =? 53) || (dns_id (ndns s) =? 0)
     || negb (dp =? dns_port (ndns s)) then Some s else
  let d := o + 8 in
  let n := ulen - 8 in
  if n <? 12 then Some s else
  id ← get16 f d;
  if negb (id =? dns_id (ndns s)) then Some s else
  flags ← get16 f (d + 2);
  if Z.land flags 0x8000 =? 0 then Some s else
  if negb (Z.land flags 0x000f =? 0) then Some (done (-1)) else
  qd ← get16 f (d + 4);
  an ← get16 f (d + 6);
  q ← skip_questions (Z.to_nat qd) f d n 12;
  match q with
  | None => Some (done (-1))
  | Some o =>
      a ← scan_answers (Z.to_nat an) f d n o;
      match a with
      | Some ip => Some (upd_dns (fun x => set_dns_done 1 (set_dns_answer ip x)) s)
      | None => Some (done (-1))
      end
  end.

Section rx.
Context {E : Type} `{!NetEnv E}.
Context (stack : Z -> bytes).

Section handlers.
Context (send_ip : Z -> bytes -> bytes -> Z -> net -> E -> res (net * E)).

Definition handle_arp (f : bytes) (o len : Z) (s : net) (e : E) : res (net * E) :=
  if len <? 28 then Ok (s, e) else
  hw ← ub (get16 f o);
  pr ← ub (get16 f (o + 2));
  hl ← ub (rd f (o + 4));
  pl ← ub (rd f (o + 5));
  if negb (hw =? 1) || negb (pr =? 0x0800) || negb (hl =? 6) || negb (pl =? 4)
  then Ok (s, e) else
  op ← ub (get16 f (o + 6));
  sm ← ub (rd_bytes f (o + 8) 6);
  sip ← ub (rd_bytes f (o + 14) 4);
  tip ← ub (rd_bytes f (o + 24) 4);
  from_gw ← ub (ip_equal sip (gateway (nif s)));
  let s := if (from_gw : bool) then upd_if (set_gateway_mac sm 1) s else s in
  for_us ← ub (ip_equal tip (ip_addr (nif s)));
  if (op =? 1) && (for_us : bool) then send_arp_reply stack sm sip s e else Ok (s, e).

(** The echo reply is built in [r[256]]. *)
Definition icmp_answer (f : bytes) (o len : Z) : option bytes :=
  r ← memcopy (stack 256) 0 f o (Z.to_nat len);
  r ← wr r 0 0;
  r ← wr r 3 0;
  r ← wr r 2 0;
  c ← checksum16 r 0 len;
  put16 r 2 c.

Definition handle_icmp (f : bytes) (o len : Z) (srcip : bytes) (s : net) (e : E)
  : res (net * E) :=
  if len <? 8 then Ok (s, e) else
  type ← ub (rd f o);
  ours ← (if type =? 0 then id ← ub (get16 f (o + 4)); Ok (id =? icmp_ident (nicmp s))
          else Ok false);
  if (ours : bool) then Ok (upd_icmp (set_icmp_reply 1) s, e) else
  if type =? 8 then
    let len := if 256 <? len then 256 else len in
    r ← ub (icmp_answer f o len);
    send_ip IP_ICMP srcip r (u16 len) s e
  else Ok (s, e).

(** [tcp_out+tcp_out_len] receives the bytes that fit. *)
Definition tcp_deliver (f : bytes) (o data_len : Z) (t : tcp_state) : option tcp_state :=
  let room := if tcp_out_len t <? tcp_out_cap t then tcp_out_cap t - tcp_out_len t else 0 in
  let copy := if data_len <? room then data_len else room in
  if copy =? 0 then Some t else
  match tcp_out t with
  | Null => None
  | Ptr _ =>
      b ← memcopy (tcp_stream_buf t) (tcp_out_len t) f o (Z.to_nat copy);
      Some (set_stream b (tcp_out_len t + copy) t)
  end.

Definition handle_tcp (f : bytes) (o len : Z) (srcip : bytes) (s : net) (e : E)
  : res (net * E) :=
  if len <? 20 then Ok (s, e) else
  peer ← ub (memequal srcip 0 (tcp_peer_ip (ntcp s)) 0 4);
  if negb peer then Ok (s, e) else
  sp ← ub (get16 f o);
  dp ← ub (get16 f (o + 2));
  if negb (sp =? tcp_peer_port (ntcp s)) || negb (dp =? tcp_local_port (ntcp s))
  then Ok (s, e) else
  seq ← ub (get32 f (o + 4));
  ack ← ub (get32 f (o + 8));
  b12 ← ub (rd f (o + 12));
  flags ← ub (rd f (o + 13));
  let hlen := Z.shiftr b12 4 * 4 in
  if (hlen <? 20) || (len <? hlen) then Ok (s, e) else
  let s := if negb (Z.land flags 0x10 =? 0) && (tcp_snd_una (ntcp s) <=? ack)
              && (ack <=? tcp_snd_nxt (ntcp s))
           then upd_tcp (set_snd (tcp_snd_nxt (ntcp s)) ack) s else s in
  if (Z.land flags 0x12 =? 0x12) && (tcp_event (ntcp s) =? 1) && (ack =? tcp_snd_nxt (ntcp s))
  then
    let s := upd_tcp (fun t => set_tcp_event 2 (set_rcv_nxt (u32 (seq + 1)) t)) s in
    send_tcp stack send_ip 0x10 Null 0 s e
  else if negb (Z.land flags 0x04 =? 0) then Ok (upd_tcp (set_tcp_event (-1)) s, e) else
  let data_len := len - hlen in
  '(s, e) ←
    (if negb (data_len =? 0) && (seq =? tcp_rcv_nxt (ntcp s)) then
       t ← ub (tcp_deliver f (o + hlen) data_len (ntcp s));
       let s := upd_tcp (fun _ => set_rcv_nxt (u32 (tcp_rcv_nxt t + data_len)) t) s in
       '(s, e) ← send_tcp stack send_ip 0x10 Null 0 s e;
       Ok (upd_tcp (set_tcp_event 3) s, e)
     else Ok (s, e));
  if negb (Z.land flags 0x01 =? 0) then
    let s := if u64 (seq + data_len) =? tcp_rcv_nxt (ntcp s)
             then upd_tcp (fun t => set_rcv_nxt (u32 (tcp_rcv_nxt t + 1)) t) s else s in
    '(s, e) ← send_tcp stack send_ip 0x10 Null 0 s e;
    Ok (upd_tcp (set_tcp_event 4) s, e)
  else Ok (s, e).

(** [plen=total-ihl] is an unsigned difference. *)
Definition handle_ip (f : bytes) (o len : Z) (s : net) (e : E) : res (net * E) :=
  if len <? 20 then Ok (s, e) else
  b0 ← ub (rd f o);
  if negb (Z.shiftr b0 4 =? 4) then Ok (s, e) else
  let ihl := Z.land b0 15 * 4 in
  if (ihl <? 20) || (len <? ihl) then Ok (s, e) else
  total ← ub (get16 f (o + 2));
  let total := if len <? total then u16 len else total in
  dst ← ub (rd_bytes f (o + 16) 4);
  for_us ← ub (ip_equal dst (ip_addr (nif s)));
  if negb for_us then Ok (s, e) else
  src ← ub (rd_bytes f (o + 12) 4);
  proto ← ub (rd f (o + 9));
  let plen := u64 (total - ihl) in
  if proto =? IP_ICMP then handle_icmp f (o + ihl) plen src s e else
  if proto =? IP_UDP then s ← ub (handle_udp f (o + ihl) plen s); Ok (s, e) else
  if proto =? IP_TCP then handle_tcp f (o + ihl) plen src s e else Ok (s, e).

Definition handle_frame (f : bytes) (len : Z) (s : net) (e : E) : res (net * E) :=
  if len <? 14 then Ok (s, e) else
  t ← ub (get16 f 12);
  if t =? ETH_ARP then handle_arp f 14 (len - 14) s e else
  if t =? ETH_IP then handle_ip f 14 (len - 14) s e else Ok (s, e).

Definition rx_dispatch (f : bytes) (len : Z) (s : net) (e : E) : res (net * E) :=
  '(s, e) ← handle_frame f len s e;
  Ok (upd_if (fun i => set_counts (u64 (rx_count i + 1)) (tx_count i) i) s, e).

(** The callback on the frames of one poll, in order. *)
Fixpoint rx_frames (fs : list bytes) (s : net) (e : E) : res (net * E) :=
  match fs with
  | [] => Ok (s, e)
  | f :: fs => '(s, e) ← rx_dispatch f (len f) s e; rx_frames fs s e
  end.

Definition poll_with (s : net) (e : E) : res (net * E) :=
  if ready (nif s) =? 0 then Ok (s, e) else
  let '(frames, e) := netdev_poll e in rx_frames frames s e.
End handlers.

(** ** Next hop *)

(** [resolve_next_hop], with its waiting loop as an argument. *)
Definition resolve_with
    (loop : bytes -> Z -> Z -> net -> E -> res (option bytes * net * E))
    (dest : bytes) (s : net) (e : E) : res (option bytes * net * E) :=
  target ← ub (next_hop s dest);
  known ← ub (hop_known s target);
  if (known : bool) then Ok (Some (gateway_mac (nif s)), s, e) else
  let '(st, e) := now_ms e in loop target st 0xffffffff s e.

(** [while(!elapsed(st,2500))].  The poll runs the handlers, which may send and
    so wait for a next hop again: one unit of fuel per turn, inner loops
    included. *)
Fixpoint resolve_loop (fuel : nat) (target : bytes) (st last : Z) (s : net) (e : E)
  : res (option bytes * net * E) :=
  match fuel with
  | O => NoFuel
  | S fuel' =>
      let '(over, e) := elapsed st 2500 e in
      if (over : bool) then Ok (None, s, e) else
      let '(n, e) := now_ms e in
      '(last, s, e) ←
        (if (last =? 0xffffffff) || (500 <? u32 (n - last)) then
           '(s, e) ← send_arp_request stack target s e; Ok (n, s, e)
         else Ok (last, s, e));
      '(s, e) ← poll_with (send_ip_packet stack (resolve_with (resolve_loop fuel'))) s e;
      known ← ub (hop_known s target);
      if (known : bool) then Ok (Some (gateway_mac (nif s)), s, e)
      else resolve_loop fuel' target st last s e
  end.

Definition resolve_next_hop (fuel : nat) := resolve_with (resolve_loop fuel).
Definition send_ip (fuel : nat) := send_ip_packet stack (resolve_next_hop fuel).
Definition net_poll (fuel : nat) : net -> E -> res (net * E) := poll_with (send_ip fuel).
End rx.

(** ** Well-formed states *)

Definition addr_ok (n : Z) (a : bytes) : Prop := len a = n /\ bytes_ok a.

Definition if_ok (i : netif) : Prop :=
  addr_ok 6 (mac i) /\ addr_ok 4 (ip_addr i) /\ addr_ok 4 (netmask i) /\
  addr_ok 4 (gateway i) /\ addr_ok 4 (dns_ip i) /\ addr_ok 6 (gateway_mac i).

(** The receive buffer and what is stored of it. *)
Definition tcp_ok (t : tcp_state) : Prop :=
  addr_ok 4 (tcp_peer_ip t) /\ addr_ok 32768 (tcp_stream_buf t) /\
  0 <= tcp_out_len t <= tcp_out_cap t /\ tcp_out_cap t <= 32768 /\
  (tcp_out t = Null -> tcp_out_cap t = 0).

Definition net_ok (s : net) : Prop :=
  if_ok (nif s) /\ tcp_ok (ntcp s) /\ addr_ok 4 (dns_answer (ndns s)).

(** What reception never changes: the configuration and the connection's
    addresses. *)
Definition same_conf (s s' : net) : Prop :=
  mac (nif s') = mac (nif s) /\ ip_addr (nif s') = ip_addr (nif s) /\
  netmask (nif s') = netmask (nif s) /\ gateway (nif s') = gateway (nif s) /\
  dns_ip (nif s') = dns_ip (nif s) /\ ready (nif s') = ready (nif s) /\
  tcp_peer_ip (ntcp s') = tcp_peer_ip (ntcp s) /\
  tcp_peer_port (ntcp s') = tcp_peer_port (ntcp s) /\
  tcp_local_port (ntcp s') = tcp_local_port (ntcp s) /\
  tcp_out (ntcp s') = tcp_out (ntcp s) /\ tcp_out_cap (ntcp s') = tcp_out_cap (ntcp s).

#[export] Instance same_conf_preorder : PreOrder same_conf.
Proof.
  split; [by intros s; repeat split|]. unfold same_conf. intros x y z. intuition congruence.
Qed.

(** A frame whose IPv4 total length covers at least its header.  [handle_ip]
    does not check it; see [short_total_length_faults]. *)
Definition frame_ok (f : bytes) : Prop :=
  bytes_ok f /\ (be16_at f 12 = ETH_IP -> byte_at f 14 mod 16 * 4 <= be16_at f 16).

(** A TCP segment: source, ports, sequence number, SYN and FIN flags, data. *)
Record segment := mk_segment {
  seg_src : bytes; seg_sport : Z; seg_dport : Z; seg_seq : Z; seg_syn : bool; seg_fin : bool;
  seg_data : bytes
}.

(** The segment at offset [o], of [n] bytes. *)
Definition segment_at (f src : bytes) (o n : Z) : segment :=
  let hlen := byte_at f (o + 12) / 16 * 4 in
  mk_segment src (be16_at f o) (be16_at f (o + 2)) (be32_at f (o + 4))
    (Z.testbit (byte_at f (o + 13)) 1) (Z.odd (byte_at f (o + 13))) (slice f (o + hlen) (n - hlen)).

(** The segment a frame carries. *)
Definition segment_of (f : bytes) : segment :=
  let ihl := byte_at f 14 mod 16 * 4 in
  segment_at f (slice f 26 4) (14 + ihl) (Z.min (be16_at f 16) (len f - 14) - ihl).

(** [tcp_deliver] and the new sequence number, in one step. *)
Definition accept (d : bytes) (t : tcp_state) : tcp_state :=
  let n := Z.min (len d) (tcp_out_cap t - tcp_out_len t) in
  set_rcv_nxt (u32 (tcp_rcv_nxt t + len d))
    (set_stream (blit (tcp_stream_buf t) (tcp_out_len t) (take (Z.to_nat n) d))
       (tcp_out_len t + n) t).

(** An invariant of reception: a property of the state kept by the elementary
    changes the handlers make.  [seg] says what is known of the segments of the
    connection. *)
Class RxInvariant (I : net -> Prop) (seg : segment -> Prop) := {
  inv_ok s : I s -> net_ok s;
  inv_gateway s m : I s -> addr_ok 6 m -> I (upd_if (set_gateway_mac m 1) s);
  inv_counts s a b : I s -> I (upd_if (set_counts a b) s);
  inv_ip_id s v : I s -> I (upd_if (set_ip_id v) s);
  inv_icmp s v : I s -> I (upd_icmp (set_icmp_reply v) s);
  inv_dns_done s v : I s -> I (upd_dns (set_dns_done v) s);
  inv_dns_answer s a : I s -> addr_ok 4 a -> I (upd_dns (set_dns_answer a) s);
  inv_snd s a b : I s -> I (upd_tcp (set_snd a b) s);
  inv_event s v : I s -> v <> 1 -> v <> 2 -> I (upd_tcp (set_tcp_event v) s);
  inv_syn s q : I s -> tcp_event (ntcp s) = 1 -> seg q -> seg_syn q = true ->
    I (upd_tcp (fun t => set_tcp_event 2 (set_rcv_nxt (u32 (seg_seq q + 1)) t)) s);
  inv_data s q : I s -> seg q -> seg_data q <> [] -> seg_seq q = tcp_rcv_nxt (ntcp s) ->
    I (upd_tcp (accept (seg_data q)) s);
  inv_fin s q : I s -> seg q -> seg_fin q = true ->
    u64 (seg_seq q + len (seg_data q)) = tcp_rcv_nxt (ntcp s) ->
    I (upd_tcp (fun t => set_rcv_nxt (u32 (tcp_rcv_nxt t + 1)) t) s)
}.

(** The segments of the connection of [s] that a frame may carry satisfy [seg]. *)
Definition seg_ok (seg : segment -> Prop) (s : net) (f : bytes) : Prop :=
  let q := segment_of f in
  be16_at f 12 = ETH_IP -> byte_at f 23 = IP_TCP -> slice f 30 4 = ip_addr (nif s) ->
  seg_src q = tcp_peer_ip (ntcp s) -> seg_sport q = tcp_peer_port (ntcp s) ->
  seg_dport q = tcp_local_port (ntcp s) -> seg q.

Lemma seg_ok_conf seg s s' f : same_conf s s' -> seg_ok seg s f -> seg_ok seg s' f.
Proof. unfold seg_ok. intros (_ & -> & _ & _ & _ & _ & -> & -> & -> & _). done. Qed.

(** ** Transmission keeps an invariant *)

Lemma addr_ok_slice f o n : bytes_ok f -> 0 <= o -> 0 <= n -> o + n <= len f -> addr_ok n (slice f o n).
Proof. intros Hb Ho Hn Hl. split; [by apply slice_length|auto with orion]. Qed.

Lemma same_subnet_spec s a b :
  len a = 4 -> len b = 4 -> len (netmask (nif s)) = 4 -> is_Some (same_subnet s a b).
Proof.
  intros Ha Hb Hm. unfold same_subnet.
  assert (G : forall k i, 0 <= i -> i + Z.of_nat k <= 4 ->
    is_Some (same_subnet_loop k (netmask (nif s)) a b i)); [|apply G; lia].
  induction k as [|k IH]; intros i Hi Hk; [by eexists|]. cbn [same_subnet_loop].
  rewrite !rd_byte_at by lia. cbn [mbind option_bind]. case_match; [by eexists|]. apply IH; lia.
Qed.

(** Any segment can be built, whatever the data are. *)
Lemma memzero_safe (d : bytes) o n : 0 <= o -> o + Z.of_nat n <= len d ->
  returns (memzero d o n) (fun d' => length d' = length d).
Proof.
  intros. unfold memzero. rewrite fill_spec by lia. eexists. split; [done|].
  apply blit_length; rewrite ?length_replicate; lia.
Qed.

Lemma memcopy_safe (d : bytes) o (src : bytes) so n :
  0 <= o -> o + Z.of_nat n <= len d -> 0 <= so -> so + Z.of_nat n <= len src ->
  returns (memcopy d o src so n) (fun d' => length d' = length d).
Proof.
  intros. unfold memcopy. rewrite copy_from_spec by lia. eexists. split; [done|].
  apply blit_length; rewrite ?slice_length; lia.
Qed.

Lemma wr_safe (d : bytes) o v : 0 <= o < len d -> returns (wr d o v) (fun d' => length d' = length d).
Proof. intros. rewrite wr_Some by lia. eexists. split; [done|]. apply length_insert. Qed.

Lemma put16_safe (d : bytes) o v : 0 <= o -> o + 2 <= len d -> returns (put16 d o v) (fun d' => length d' = length d).
Proof.
  intros. unfold put16. eapply returns_bind; [apply wr_safe; lia|]. intros d1 H1.
  cbv beta in H1. rewrite <- H1. apply wr_safe. lia.
Qed.

Lemma put32_safe (d : bytes) o v : 0 <= o -> o + 4 <= len d -> returns (put32 d o v) (fun d' => length d' = length d).
Proof.
  intros. unfold put32. do 3 (eapply returns_bind; [apply wr_safe; lia|]; intros ? ?; cbv beta in * ).
  eapply returns_mono; [apply wr_safe; lia|]. intros. cbv beta in *. congruence.
Qed.

Lemma addr_sum_safe k (src dst : bytes) i sum :
  0 <= i -> i + 2 * Z.of_nat k <= len src -> i + 2 * Z.of_nat k <= len dst ->
  is_Some (addr_sum_loop k src dst i sum).
Proof.
  revert i sum. induction k as [|k IH]; intros i sum Hi H1 H2; [by eexists|]. cbn [addr_sum_loop].
  rewrite !rd_byte_at by lia. cbn [mbind option_bind]. apply IH; lia.
Qed.

Lemma tcp_sum_safe fuel (p : bytes) n i sum :
  0 <= i <= n -> n <= len p -> n - i < 2 * Z.of_nat fuel -> 0 <= sum < 4294967296 ->
  returns (tcp_sum_loop fuel p n i sum) (fun s => 0 <= s < 4294967296).
Proof.
  revert i sum. induction fuel as [|fuel IH]; intros i sum Hi Hn Hf Hs; cbn [tcp_sum_loop].
  - lia.
  - destruct (Z.ltb_spec (i + 1) n); [|by eexists].
    rewrite !rd_byte_at by lia. cbn [mbind option_bind]. apply IH; try lia. apply u32_range.
Qed.

Lemma tcp_checksum_safe (src dst p : bytes) n :
  len src = 4 -> len dst = 4 -> 0 <= n <= len p -> is_Some (tcp_checksum src dst p n).
Proof.
  intros Hs Hd Hn. unfold tcp_checksum.
  destruct (addr_sum_safe 2 src dst 0 0) as [x ->]; [lia|lia|lia|]. cbn [mbind option_bind].
  destruct (tcp_sum_safe (S (Z.to_nat n)) p n 0 (u32 (u32 (x + IP_TCP) + u16 n)))
    as (y & -> & Hy); [lia|lia|lia|apply u32_range|]. cbn [mbind option_bind].
  assert (H : returns (if negb (Z.land n 1 =? 0)
      then a ← rd p (n - 1); Some (u32 (y + Z.shiftl (u16 a) 8)) else Some y)
      (fun z => 0 <= z < 4294967296)).
  { destruct (Z.eqb_spec (Z.land n 1) 0); cbn [negb]; [by eexists|].
    rewrite rd_byte_at; [eexists; split; [done|apply u32_range]|].
    destruct (decide (n = 0)) as [->|]; [done|lia]. }
  destruct H as (z & -> & Hz). cbn [mbind option_bind]. rewrite fold16_spec by done.
  by eexists.
Qed.

Lemma tcp_segment_safe s (p : bytes) flags data n :
  len p = 1500 -> len (ip_addr (nif s)) = 4 -> len (tcp_peer_ip (ntcp s)) = 4 ->
  0 <= n <= 1460 /\ match data with Ptr d => n <= len d | Null => True end ->
  returns (tcp_segment s p flags data n) (fun m => len m = 1500).
Proof.
  intros Hp Hi Ht [Hn Hd]. unfold tcp_segment.
  eapply returns_bind; [apply memzero_safe; lia|]. intros p1 H1. cbv beta in *.
  do 2 (eapply returns_bind; [apply put16_safe; lia|]; intros ? ?; cbv beta in * ).
  do 2 (eapply returns_bind; [apply put32_safe; lia|]; intros ? ?; cbv beta in * ).
  do 2 (eapply returns_bind; [apply wr_safe; lia|]; intros ? ?; cbv beta in * ).
  eapply returns_bind; [apply put16_safe; lia|]; intros p8 H8; cbv beta in *.
  apply (returns_bind _ _ (fun q => length q = length p8)).
  { destruct data as [|d]; [by eexists|]. destruct (n =? 0); [by eexists|].
    apply memcopy_safe; lia. }
  intros p9 H9; cbv beta in *. eapply returns_bind; [apply put16_safe; lia|]. intros p10 H10; cbv beta in *.
  destruct (tcp_checksum_safe (ip_addr (nif s)) (tcp_peer_ip (ntcp s)) p10 (20 + n)) as [c ->];
    [done|done|lia|]. cbn [mbind option_bind].
  eapply returns_mono; [apply put16_safe; lia|]. cbv beta. intros. lia.
Qed.
Section keeps.
Context {E : Type} `{!NetEnv E}.
Context (stack : Z -> bytes).
Hypothesis stack_ok : forall n, 0 <= n -> addr_ok n (stack n).
Context (I : net -> Prop) (seg : segment -> Prop) `{!RxInvariant I seg}.

(** [D] says which addresses may be sent to, [T] whether a wait may be cut off. *)
Context (T : Prop) (D : net -> bytes -> Prop).
Hypothesis D_conf : forall s s' a, same_conf s s' -> D s a -> D s' a.
Hypothesis D_peer : forall s, I s -> D s (tcp_peer_ip (ntcp s)).

(** The outcome of a step that began in [s]. *)
Definition kept (s : net) (x : net * E) : Prop := I x.1 /\ same_conf s x.1.

Lemma kept_refl s e : I s -> kept s (s, e).
Proof. by split. Qed.

Lemma kept_trans s1 s2 (r : res (net * E)) :
  same_conf s1 s2 -> safe T r (kept s2) -> safe T r (kept s1).
Proof.
  intros H Hr. eapply safe_mono; [exact Hr|]. intros x [H1 H2]. split; [done|].
  by etransitivity.
Qed.

Lemma eth_tx_keeps data s e :
  I s -> let '(_, s', _) := eth_tx data s e in I s' /\ same_conf s s'.
Proof.
  intros Hs. unfold eth_tx. destruct (ready (nif s) =? 0); [by split|].
  destruct (netdev_tx data e) as [r e']. destruct (negb (r =? 0)); [|by split].
  split; [|by repeat split].
  apply (inv_counts (I := I) s (rx_count (nif s)) (u64 (tx_count (nif s) + 1)) Hs).
Qed.

Lemma send_arp_request_keeps target s e :
  I s -> addr_ok 4 target -> safe T (send_arp_request stack target s e) (kept s).
Proof.
  intros Hs [Ht _]. destruct (inv_ok s Hs) as ((Hm & Hi & _) & _). unfold send_arp_request.
  rewrite arp_request_spec; [|apply Hm|apply Hi|done|by apply stack_ok]. cbn [ub mbind res_bind].
  pose proof (eth_tx_keeps) as K. specialize (K (arp_packet (replicate 6 255) (mac (nif s)) 1
    (mac (nif s)) (ip_addr (nif s)) (replicate 6 0) target) s e Hs).
  by destruct (eth_tx _ s e) as [[? s'] e'].
Qed.

Lemma send_arp_reply_keeps dmac dip s e :
  I s -> addr_ok 6 dmac -> addr_ok 4 dip -> safe T (send_arp_reply stack dmac dip s e) (kept s).
Proof.
  intros Hs [Hd _] [Ht _]. destruct (inv_ok s Hs) as ((Hm & Hi & _) & _). unfold send_arp_reply.
  rewrite arp_reply_spec; [|apply Hm|apply Hi|done|done|by apply stack_ok].
  cbn [ub mbind res_bind].
  pose proof (eth_tx_keeps) as K. specialize (K (arp_packet dmac (mac (nif s)) 2
    (mac (nif s)) (ip_addr (nif s)) dmac dip) s e Hs).
  by destruct (eth_tx _ s e) as [[? s'] e'].
Qed.

(** What the sender below needs of next-hop resolution, and offers. *)
Definition resolve_keeps (resolve : bytes -> net -> E -> res (option bytes * net * E)) : Prop :=
  forall dest s e, I s -> addr_ok 4 dest -> D s dest ->
    safe T (resolve dest s e) (fun '(r, s', e') => kept s (s', e') /\
      match r with Some m => addr_ok 6 m | None => True end).

Definition send_keeps (send : Z -> bytes -> bytes -> Z -> net -> E -> res (net * E)) : Prop :=
  forall proto dest payload plen s e,
    I s -> is_byte proto -> addr_ok 4 dest -> D s dest -> 0 <= plen <= len payload ->
    safe T (send proto dest payload plen s e) (kept s).

Lemma send_ip_packet_keeps resolve :
  resolve_keeps resolve -> send_keeps (send_ip_packet stack resolve).
Proof.
  intros Hr proto dest payload plen s e Hs Hp Hd Hok Hl. unfold send_ip_packet.
  destruct (Z.ltb_spec (1500 - 20) plen); [by split|].
  eapply safe_bind; [by apply Hr|]. intros [[r s1] e1] [[Hs1 Hc] Hm].
  destruct r as [nh|]; [|by split]. cbn [fst] in *.
  destruct (inv_ok s1 Hs1) as ((Hmac & Hi & _) & _).
  destruct (stack_ok 1600) as [L1 L2]; [lia|]. destruct Hmac as [M1 M2], Hi as [I1 I2].
  destruct Hm as [Hm1 Hm2], Hd as [D1 D2].
  rewrite eth_header_spec by (done || lia). cbn [ub mbind res_bind].
  set (h := eth_head nh (mac (nif s1)) ETH_IP).
  assert (Hh : len h = 14) by (unfold h, eth_head; wlen).
  assert (Hhb : bytes_ok h) by (unfold h, eth_head; rewrite !bytes_ok_app; auto with orion).
  assert (Hdb : bytes_ok (drop 14 (stack 1600))) by (by apply Forall_drop).
  rewrite <- Hh. rewrite make_ipv4_spec; try done; try lia; [|wlen].
  cbn [ub mbind res_bind].
  set (ih := ipv4_head _ _ _ _ _).
  assert (Hih : len ih = 20) by (unfold ih, ipv4_head, ipv4_header; wlen).
  unfold memcopy. rewrite copy_from_spec by wlen. cbn [ub mbind res_bind].
  rewrite rd_bytes_Some by (rewrite ?blit_length; rewrite ?slice_length; wlen).
  cbn [ub mbind res_bind].
  match goal with |- context [eth_tx ?d ?x ?y] =>
    pose proof (eth_tx_keeps d x y ltac:(by apply inv_ip_id)) as K;
    destruct (eth_tx d x y) as [[? s'] e'] end.
  destruct K as [K1 K2]. split; [exact K1|]. cbn [fst]. etransitivity; [exact Hc|].
  etransitivity; [|exact K2]. by repeat split.
Qed.

Context (send : Z -> bytes -> bytes -> Z -> net -> E -> res (net * E)).
Hypothesis Hsend : send_keeps send.

(** The bytes behind [data], when there are any to send. *)
Definition sendable (data : ptr bytes) (n : Z) : Prop :=
  0 <= n <= 1460 /\ match data with Ptr d => n <= len d | Null => True end.

Lemma send_tcp_keeps flags data n s e :
  I s -> sendable data n -> safe T (send_tcp stack send flags data n s e) (kept s).
Proof.
  intros Hs Hn. unfold send_tcp. destruct (inv_ok s Hs) as ((_ & Hi & _) & (Ht & _) & _).
  destruct (stack_ok 1500) as [L1 L2]; [lia|].
  destruct (tcp_segment_safe s (stack 1500) flags data n) as (m & -> & Hm);
    [done|apply Hi|apply Ht|exact Hn|].
  cbn [ub mbind res_bind]. destruct Hn as [Hn _].
  eapply safe_bind.
  { apply Hsend; [done|unfold is_byte, IP_TCP; lia|exact Ht|by apply D_peer|].
    rewrite u16_id by lia. lia. }
  intros [s1 e1] [H1 H2]. cbn [fst] in *. eapply (kept_trans s s1); [done|]. cbv zeta.
  assert (Hb : forall (c : bool) s, I s ->
    kept s (if c then upd_tcp (fun t => set_snd (u32 (tcp_snd_nxt t + 1)) (tcp_snd_una t) t) s else s, e1)).
  { intros c s0 H0. destruct c; [|by split]. split; [|by repeat split].
    apply (inv_snd (I := I) s0 (u32 (tcp_snd_nxt (ntcp s0) + 1)) (tcp_snd_una (ntcp s0)) H0). }
  destruct (Hb (negb (Z.land flags 2 =? 0)) s1 H1) as [H3 C3]. cbn [fst] in *.
  destruct (Hb (negb (Z.land flags 1 =? 0)) _ H3) as [H4 C4]. cbn [fst] in *.
  split; [|cbn [fst]; etransitivity; [exact C3|]; etransitivity; [exact C4|by repeat split]].
  set (s4 := if negb (Z.land flags 1 =? 0) then _ else _) in *.
  apply (inv_snd (I := I) s4 (u32 (tcp_snd_nxt (ntcp s4) + n)) (tcp_snd_una (ntcp s4)) H4).
Qed.

Lemma send_tcp_ack_keeps s e : I s -> safe T (send_tcp stack send 0x10 Null 0 s e) (kept s).
Proof. intros Hs. apply send_tcp_keeps; [done|split; [lia|done]]. Qed.

(** ** Reception keeps it *)

(** Reads of a frame inside its length. *)
Ltac rx_read :=
  match goal with
  | |- safe _ (ub (get16 ?f ?o) ≫= _) _ => rewrite (get16_spec f o) by (done || lia)
  | |- safe _ (ub (get32 ?f ?o) ≫= _) _ => rewrite (get32_spec f o) by (done || lia)
  | |- safe _ (ub (rd ?f ?o) ≫= _) _ => rewrite (rd_byte_at f o) by lia
  | |- safe _ (ub (rd_bytes ?f ?o ?n) ≫= _) _ => rewrite (rd_bytes_Some f o n) by lia
  end; cbn [ub mbind res_bind].

Lemma handle_arp_keeps f o n s e :
  I s -> bytes_ok f -> 0 <= o -> o + n <= len f -> safe T (handle_arp stack f o n s e) (kept s).
Proof.
  intros Hs Hb Ho Hl. unfold handle_arp. destruct (Z.ltb_spec n 28); [by split|].
  do 4 rx_read. case_match; [by split|]. do 4 rx_read.
  destruct (inv_ok s Hs) as ((_ & [Hi _] & _ & [Hg _] & _) & _).
  assert (Hsip : addr_ok 4 (slice f (o + 14) 4)) by (apply addr_ok_slice; done || lia).
  assert (Hsm : addr_ok 6 (slice f (o + 8) 6)) by (apply addr_ok_slice; done || lia).
  rewrite ip_equal_spec by (apply Hsip || done). cbn [ub mbind res_bind].
  set (s1 := if bool_decide _ then _ else s).
  assert (H1 : I s1 /\ same_conf s s1).
  { unfold s1. case_bool_decide; [|by split]. split; [by apply inv_gateway|by repeat split]. }
  destruct H1 as [H1 H2].
  rewrite ip_equal_spec; [|apply slice_length; lia|].
  2:{ destruct H2 as (_ & -> & _). done. }
  cbn [ub mbind res_bind]. case_match; [|by split].
  eapply kept_trans; [exact H2|]. by apply send_arp_reply_keeps.
Qed.

Lemma icmp_answer_spec f o n :
  bytes_ok f -> 0 <= o -> 8 <= n <= 256 -> o + n <= len f ->
  exists r, icmp_answer stack f o n = Some r /\ len r = 256 /\ bytes_ok r.
Proof.
  intros Hb Ho Hn Hl. unfold icmp_answer, memcopy. destruct (stack_ok 256) as [L B]; [lia|].
  rewrite copy_from_spec by lia. rewrite bind_some.
  assert (Hlen : len (slice f o (Z.of_nat (Z.to_nat n))) = Z.of_nat (Z.to_nat n))
    by (apply slice_length; lia).
  set (r0 := blit _ _ _). assert (Hr0 : len r0 = 256) by (unfold r0; rewrite blit_length; lia).
  assert (Hb0 : bytes_ok r0) by (apply bytes_ok_blit; auto with orion).
  rewrite wr_Some by lia. rewrite bind_some. rewrite wr_Some by (rewrite length_insert; lia).
  rewrite bind_some. rewrite wr_Some by (rewrite !length_insert; lia). rewrite bind_some.
  set (r1 := <[_ := _]> _). assert (Hr1 : len r1 = 256) by (unfold r1; rewrite !length_insert; done).
  assert (Hb1 : bytes_ok r1).
  { unfold r1. repeat (apply Forall_insert; [|unfold is_byte; lia]). exact Hb0. }
  rewrite checksum16_spec by (done || lia). rewrite bind_some. unfold put16.
  rewrite wr_Some by lia. rewrite bind_some. rewrite wr_Some by (rewrite length_insert; lia).
  eexists. split; [reflexivity|]. split; [by rewrite !length_insert|].
  repeat (apply Forall_insert; [|apply u8_range]). exact Hb1.
Qed.

Lemma handle_icmp_keeps f o n src s e :
  I s -> bytes_ok f -> 0 <= o -> o + n <= len f -> addr_ok 4 src -> D s src ->
  safe T (handle_icmp stack send f o n src s e) (kept s).
Proof.
  intros Hs Hb Ho Hl Hsrc HD. unfold handle_icmp. destruct (Z.ltb_spec n 8); [by split|].
  rx_read.
  assert (Hours : exists b, (if byte_at f o =? 0
      then id ← ub (get16 f (o + 4)); Ok (id =? icmp_ident (nicmp s)) else Ok false) = Ok b).
  { case_match; [rewrite get16_spec by (done || lia)|]; by eexists. }
  destruct Hours as [b ->]. cbn [mbind res_bind]. destruct b.
  { split; [by apply inv_icmp|by repeat split]. }
  destruct (byte_at f o =? 8); [|by split].
  set (k := if 256 <? n then 256 else n).
  assert (Hk : 8 <= k <= 256 /\ k <= n) by (unfold k; destruct (Z.ltb_spec 256 n); lia).
  destruct (icmp_answer_spec f o k) as (r & -> & Hr & Hrb); [done|done|lia|lia|].
  cbn [ub mbind res_bind]. apply Hsend;
    [done|unfold is_byte, IP_ICMP; lia|done|done|rewrite u16_id; lia].
Qed.

(** The DNS walk stays inside the message. *)
Lemma skip_name_safe k f b n o :
  bytes_ok f -> 0 <= b -> 0 <= n -> b + n <= len f -> 0 <= o ->
  exists o', skip_name_loop k f b n o = Some o' /\ 0 <= o' /\ (o < o' \/ n < o').
Proof.
  intros Hf Hb Hn Hl. revert o. induction k as [|k IH]; intros o Ho; cbn [skip_name_loop];
    (destruct (Z.ltb_spec o n) as [H1|H1]; cbn [negb]; [|exists (n + 1); split; [done|lia]]).
  { exists (n + 1). split; [done|lia]. }
  rewrite rd_byte_at by lia. cbn [mbind option_bind].
  pose proof (byte_at_range f (b + o) Hf).
  case_if; [exists (o + 1); split; [done|lia]|].
  case_if; [exists (o + 2); split; [done|lia]|].
  case_if; [exists (n + 1); split; [done|lia]|].
  destruct (IH (o + (1 + byte_at f (b + o)))) as (o' & -> & G1 & G2); [lia|].
  exists o'. split; [done|]. lia.
Qed.

Lemma skip_questions_safe k f b n o :
  bytes_ok f -> 0 <= b -> 0 <= n -> b + n <= len f -> 0 <= o ->
  exists r, skip_questions k f b n o = Some r /\ match r with Some o' => 0 <= o' | None => True end.
Proof.
  intros Hf Hb Hn Hl. revert o. induction k as [|k IH]; intros o Ho; cbn [skip_questions].
  { by exists (Some o). }
  destruct (skip_name_safe 128 f b n o) as (o' & E1 & H3 & H4); [done..|].
  unfold dns_skip_name. rewrite E1. cbn [mbind option_bind].
  case_if; [by exists None|]. apply IH. lia.
Qed.

Lemma scan_answers_safe k f b n o :
  bytes_ok f -> 0 <= b -> 0 <= n -> b + n <= len f -> 0 <= o ->
  exists r, scan_answers k f b n o = Some r /\
    match r with Some a => addr_ok 4 a | None => True end.
Proof.
  intros Hf Hb Hn Hl. revert o. induction k as [|k IH]; intros o Ho; cbn [scan_answers].
  { by exists None. }
  destruct (skip_name_safe 128 f b n o) as (o' & E1 & H3 & H4); [done..|].
  unfold dns_skip_name. rewrite E1. cbn [mbind option_bind].
  destruct (Z.ltb_spec n o'); cbn [orb]; [by exists None|].
  destruct (Z.ltb_spec n (o' + 10)); [by exists None|].
  rewrite !get16_spec by (done || lia). cbn [mbind option_bind].
  pose proof (be16_at_range f (b + o' + 8) Hf).
  destruct (Z.ltb_spec n (o' + 10 + be16_at f (b + o' + 8))); [by exists None|].
  destruct (Z.eqb_spec (be16_at f (b + o' + 8)) 4) as [E4|_];
    rewrite ?andb_false_r, ?andb_true_r; [|apply IH; lia].
  case_match; [|apply IH; lia].
  rewrite rd_bytes_Some by lia. cbn [mbind option_bind]. eexists. split; [done|].
  apply addr_ok_slice; done || lia.
Qed.

Lemma handle_udp_keeps f o n s :
  I s -> bytes_ok f -> 0 <= o -> o + n <= len f ->
  exists s', handle_udp f o n s = Some s' /\ I s' /\ same_conf s s'.
Proof.
  intros Hs Hb Ho Hl. unfold handle_udp.
  assert (Hid : exists s', Some s = Some s' /\ I s' /\ same_conf s s') by (by exists s).
  assert (Hdone : forall v, exists s', Some (upd_dns (set_dns_done v) s) = Some s' /\ I s' /\
    same_conf s s').
  { intros v. eexists. split; [done|]. split; [by apply inv_dns_done|by repeat split]. }
  destruct (Z.ltb_spec n 8); [done|].
  rewrite (get16_spec f o), (get16_spec f (o + 2)), (get16_spec f (o + 4)) by (done || lia).
  cbn [mbind option_bind].
  set (ul := be16_at f (o + 4)).
  destruct (Z.ltb_spec ul 8); cbn [orb]; [done|]. destruct (Z.ltb_spec n ul); cbn [orb]; [done|].
  case_if; [done|]. destruct (Z.ltb_spec (ul - 8) 12); [done|].
  rewrite (get16_spec f (o + 8)) by (done || lia). cbn [mbind option_bind]. case_if; [done|].
  rewrite (get16_spec f (o + 8 + 2)) by (done || lia). cbn [mbind option_bind].
  case_if; [done|]. case_if; [done|].
  rewrite (get16_spec f (o + 8 + 4)), (get16_spec f (o + 8 + 6)) by (done || lia).
  cbn [mbind option_bind].
  destruct (skip_questions_safe (Z.to_nat (be16_at f (o + 8 + 4))) f (o + 8) (ul - 8) 12)
    as (r & -> & Hr); [done|lia..|]. cbn [mbind option_bind].
  destruct r as [o1|]; [|done].
  destruct (scan_answers_safe (Z.to_nat (be16_at f (o + 8 + 6))) f (o + 8) (ul - 8) o1)
    as (a & -> & Ha); [done|lia|lia|lia|done|]. cbn [mbind option_bind].
  destruct a as [a|]; [|done]. eexists. split; [done|]. split; [|by repeat split].
  apply (inv_dns_done (I := I) (upd_dns (set_dns_answer a) s) 1). by apply inv_dns_answer.
Qed.

(** [tcp_deliver] is [accept], the sequence number apart. *)
Lemma tcp_deliver_spec f o n t :
  tcp_ok t -> bytes_ok f -> 0 <= o -> 0 < n -> o + n <= len f ->
  exists t', tcp_deliver f o n t = Some t' /\ tcp_rcv_nxt t' = tcp_rcv_nxt t /\
    set_rcv_nxt (u32 (tcp_rcv_nxt t' + n)) t' = accept (slice f o n) t.
Proof.
  intros (_ & [Hbl _] & Hout & Hcap & Hnull) Hb Ho Hn Hl. unfold tcp_deliver, accept.
  rewrite slice_length by lia.
  set (k := Z.min n (tcp_out_cap t - tcp_out_len t)).
  assert (Hroom : (if n <? (if tcp_out_len t <? tcp_out_cap t then tcp_out_cap t - tcp_out_len t
                          else 0) then n
                   else if tcp_out_len t <? tcp_out_cap t then tcp_out_cap t - tcp_out_len t
                   else 0) = k).
  { unfold k. destruct (Z.ltb_spec (tcp_out_len t) (tcp_out_cap t));
      [destruct (Z.ltb_spec n (tcp_out_cap t - tcp_out_len t))|destruct (Z.ltb_spec n 0)]; lia. }
  rewrite Hroom. clear Hroom. destruct (Z.eqb_spec k 0) as [Hk|Hk].
  { exists t. split; [done|]. split; [done|]. rewrite Hk.
    change (take (Z.to_nat 0) (slice f o n)) with (@nil Z).
    rewrite blit_nil, Z.add_0_r. by destruct t. }
  destruct (tcp_out t) eqn:Eo; [specialize (Hnull eq_refl); lia|].
  unfold memcopy. rewrite copy_from_spec by lia. rewrite bind_some.
  eexists. split; [reflexivity|]. split; [done|].
  rewrite Z2Nat.id by lia. rewrite take_slice by lia. done.
Qed.

(** The tail of [handle_tcp]: the data, then the FIN. *)
Lemma tcp_data_keeps f o n src q s e :
  I s -> bytes_ok f -> 0 <= o -> o + n <= len f -> q = segment_at f src o n -> seg q ->
  20 <= byte_at f (o + 12) / 16 * 4 <= n ->
  safe T (if negb (n - byte_at f (o + 12) / 16 * 4 =? 0) && (seg_seq q =? tcp_rcv_nxt (ntcp s)) then
       t ← ub (tcp_deliver f (o + byte_at f (o + 12) / 16 * 4) (n - byte_at f (o + 12) / 16 * 4)
                 (ntcp s));
       let s := upd_tcp (fun _ => set_rcv_nxt
         (u32 (tcp_rcv_nxt t + (n - byte_at f (o + 12) / 16 * 4))) t) s in
       '(s, e) ← send_tcp stack send 0x10 Null 0 s e;
       Ok (upd_tcp (set_tcp_event 3) s, e)
     else Ok (s, e)) (kept s).
Proof.
  intros Hs Hb Ho Hl Hq Hseg Hh. set (hlen := byte_at f (o + 12) / 16 * 4) in *.
  destruct (Z.eqb_spec (n - hlen) 0) as [H0|H0]; cbn [negb andb]; [by split|].
  destruct (Z.eqb_spec (seg_seq q) (tcp_rcv_nxt (ntcp s))) as [Hrcv|]; [|by split].
  destruct (inv_ok s Hs) as (_ & Ht & _).
  destruct (tcp_deliver_spec f (o + hlen) (n - hlen) (ntcp s)) as (t & -> & Hr & Ha);
    [done|done|lia|lia|lia|].
  cbn [ub mbind res_bind]. rewrite Ha.
  set (s1 := upd_tcp _ s).
  assert (H1 : I s1).
  { assert (Hd : slice f (o + hlen) (n - hlen) = seg_data q) by (by rewrite Hq).
    unfold s1. rewrite Hd. change (upd_tcp (fun _ => accept (seg_data q) (ntcp s)) s)
      with (upd_tcp (accept (seg_data q)) s).
    apply inv_data; [done|done| |done].
    intros Hnil. assert (Hz : len (seg_data q) = 0) by (by rewrite Hnil).
    rewrite <- Hd, slice_length in Hz by lia. lia. }
  assert (C1 : same_conf s s1) by (by repeat split).
  eapply safe_bind; [by apply send_tcp_ack_keeps|]. intros [s2 e2] [H2 C2]. cbn [fst] in *.
  split; [by apply inv_event|]. cbn [fst]. etransitivity; [exact C1|].
  etransitivity; [exact C2|by repeat split].
Qed.

Lemma tcp_fin_keeps q s0 s e :
  I s -> same_conf s0 s -> seg q ->
  safe T (if seg_fin q then
    let s := if u64 (seg_seq q + len (seg_data q)) =? tcp_rcv_nxt (ntcp s)
             then upd_tcp (fun t => set_rcv_nxt (u32 (tcp_rcv_nxt t + 1)) t) s else s in
    '(s, e) ← send_tcp stack send 0x10 Null 0 s e;
    Ok (upd_tcp (set_tcp_event 4) s, e)
  else Ok (s, e)) (kept s0).
Proof.
  intros Hs C0 Hseg. destruct (seg_fin q) eqn:Ef; [|by split].
  set (s1 := if _ =? _ then _ else s).
  assert (H1 : I s1 /\ same_conf s s1).
  { unfold s1. destruct (Z.eqb_spec (u64 (seg_seq q + len (seg_data q))) (tcp_rcv_nxt (ntcp s)));
      [|by split]. split; [by eapply inv_fin|by repeat split]. }
  destruct H1 as [H1 C1].
  eapply safe_bind; [by apply send_tcp_ack_keeps|]. intros [s2 e2] [H2 C2]. cbn [fst] in *.
  split; [by apply inv_event|]. cbn [fst]. etransitivity; [exact C0|].
  etransitivity; [exact C1|]. etransitivity; [exact C2|by repeat split].
Qed.

Lemma land_testbit a m i : Z.land a m = m -> Z.testbit m i = true -> Z.testbit a i = true.
Proof. intros H Hm. rewrite <- H, Z.land_spec in Hm. by apply andb_prop in Hm as [? _]. Qed.

Lemma odd_land1 b : negb (Z.land b 1 =? 0) = Z.odd b.
Proof.
  rewrite land_1. pose proof (Zmod_odd b) as H. rewrite H. by destruct (Z.odd b).
Qed.

Lemma handle_tcp_keeps f o n src s e :
  I s -> bytes_ok f -> 0 <= o -> o + n <= len f -> addr_ok 4 src ->
  (src = tcp_peer_ip (ntcp s) -> be16_at f o = tcp_peer_port (ntcp s) ->
   be16_at f (o + 2) = tcp_local_port (ntcp s) -> seg (segment_at f src o n)) ->
  safe T (handle_tcp stack send f o n src s e) (kept s).
Proof.
  intros Hs Hb Ho Hl [Hsrc _] Hseg. unfold handle_tcp. destruct (Z.ltb_spec n 20) as [|Hn]; [by split|].
  destruct (inv_ok s Hs) as (_ & ([Hpl _] & _) & _).
  change (memequal src 0 (tcp_peer_ip (ntcp s)) 0 4) with (ip_equal src (tcp_peer_ip (ntcp s))).
  rewrite ip_equal_spec by done. cbn [ub mbind res_bind].
  case_bool_decide as Epeer; cbn [negb]; [|by split]. do 2 rx_read.
  destruct (Z.eqb_spec (be16_at f o) (tcp_peer_port (ntcp s))) as [Esp|]; cbn [negb orb]; [|by split].
  destruct (Z.eqb_spec (be16_at f (o + 2)) (tcp_local_port (ntcp s))) as [Edp|]; cbn [negb];
    [|by split].
  specialize (Hseg Epeer Esp Edp). set (q := segment_at f src o n) in *. do 4 rx_read.
  rewrite Z.shiftr_div_pow2 by lia. change (2 ^ 4) with 16.
  set (hlen := byte_at f (o + 12) / 16 * 4).
  destruct (Z.ltb_spec hlen 20) as [|Hh1]; cbn [orb]; [by split|].
  destruct (Z.ltb_spec n hlen) as [|Hh2]; [by split|].
  set (s1 := if _ && _ && _ then _ else s).
  assert (H1 : I s1 /\ same_conf s s1).
  { unfold s1. destruct (_ && _ && _); [|by split]. split; [by apply inv_snd|by repeat split]. }
  destruct H1 as [H1 C1]. eapply kept_trans; [exact C1|]. clearbody s1.
  destruct (_ && (tcp_event (ntcp s1) =? 1) && _) eqn:Esyn.
  { apply andb_prop in Esyn as [[Efl Eev]%andb_prop _]. apply Z.eqb_eq in Eev, Efl.
    eapply kept_trans; [|apply send_tcp_ack_keeps; apply (inv_syn s1 q); try done];
      [by repeat split|]. cbn [q segment_at seg_syn]. by apply (land_testbit _ 0x12). }
  destruct (negb (Z.land (byte_at f (o + 13)) 0x04 =? 0)).
  { split; [by apply inv_event|by repeat split]. }
  eapply safe_bind;
    [exact (tcp_data_keeps f o n src q s1 e H1 Hb Ho Hl eq_refl Hseg (conj Hh1 Hh2))|].
  intros [s2 e2] [H2 C2]. cbn [fst] in *.
  rewrite odd_land1.
  assert (Hd : n - hlen = len (seg_data q)).
  { unfold q, segment_at, seg_data. rewrite slice_length; unfold hlen in *; lia. }
  rewrite Hd.
  exact (tcp_fin_keeps q s1 s2 e2 H2 C2 Hseg).
Qed.

Lemma land_15 b : Z.land b 15 = b mod 16.
Proof. change 15 with (Z.ones 4). by rewrite Z.land_ones. Qed.

(** What a frame may carry in state [s]: a segment of the connection satisfies
    [seg], and the sender of an ICMP packet may be answered. *)
Definition frame_due (s : net) (f : bytes) : Prop :=
  seg_ok seg s f /\
  (be16_at f 12 = ETH_IP -> byte_at f 23 = IP_ICMP -> D s (slice f 26 4)).

Lemma frame_due_conf s s' f : same_conf s s' -> frame_due s f -> frame_due s' f.
Proof.
  intros Hc [H1 H2]. split; [by eapply seg_ok_conf|]. intros. eapply D_conf; eauto.
Qed.

Lemma handle_ip_keeps f s e :
  I s -> frame_ok f -> be16_at f 12 = ETH_IP -> 14 <= len f -> frame_due s f ->
  safe T (handle_ip stack send f 14 (len f - 14) s e) (kept s).
Proof.
  intros Hs [Hb Hihl] Et Hl [Hseg HD]. unfold handle_ip. specialize (Hihl Et).
  destruct (Z.ltb_spec (len f - 14) 20); [by split|]. rx_read. rewrite land_15.
  case_match; [by split|]. set (ihl := byte_at f 14 mod 16 * 4) in *.
  destruct (Z.ltb_spec ihl 20); cbn [orb]; [by split|].
  destruct (Z.ltb_spec (len f - 14) ihl); [by split|].
  rx_read. pose proof (be16_at_range f (14 + 2) Hb). change (14 + 2) with 16 in *.
  set (total := if len f - 14 <? be16_at f 16 then _ else _).
  assert (Htot : total = Z.min (be16_at f 16) (len f - 14)).
  { unfold total. destruct (Z.ltb_spec (len f - 14) (be16_at f 16)); rewrite ?u16_id; lia. }
  rx_read. change (14 + 16) with 30.
  destruct (inv_ok s Hs) as ((_ & [Hi _] & _) & _).
  assert (Hdst : len (slice f 30 4) = 4) by (apply slice_length; lia).
  rewrite ip_equal_spec by done. cbn [ub mbind res_bind].
  case_bool_decide as Edst; cbn [negb]; [|by split]. rx_read. rx_read.
  change (14 + 12) with 26. change (14 + 9) with 23.
  assert (Hsrc : addr_ok 4 (slice f 26 4)) by (apply addr_ok_slice; done || lia).
  rewrite u64_id by lia.
  destruct (Z.eqb_spec (byte_at f 23) IP_ICMP); [apply handle_icmp_keeps; auto; lia|].
  destruct (byte_at f 23 =? IP_UDP).
  { destruct (handle_udp_keeps f (14 + ihl) (total - ihl) s) as (s' & -> & G1 & G2);
      [done|done|lia|lia|]. by split. }
  destruct (Z.eqb_spec (byte_at f 23) IP_TCP); [|by split].
  apply handle_tcp_keeps; try done; try lia. intros E1 E2 E3.
  unfold seg_ok, segment_of in Hseg. fold ihl in Hseg. rewrite <- Htot in Hseg. by apply Hseg.
Qed.

Lemma handle_frame_keeps f s e :
  I s -> frame_ok f -> frame_due s f -> safe T (handle_frame stack send f (len f) s e) (kept s).
Proof.
  intros Hs Hf Hseg. unfold handle_frame. destruct (Z.ltb_spec (len f) 14); [by split|].
  destruct Hf as [Hb Hihl]. rx_read.
  destruct (be16_at f 12 =? ETH_ARP); [apply handle_arp_keeps; done || lia|].
  destruct (Z.eqb_spec (be16_at f 12) ETH_IP); [|by split]. by apply handle_ip_keeps.
Qed.

Lemma rx_frames_keeps fs s e :
  I s -> Forall (fun f => frame_ok f /\ frame_due s f) fs ->
  safe T (rx_frames stack send fs s e) (kept s).
Proof.
  intros Hs Hfs. revert s e Hs Hfs. induction fs as [|f fs IH]; intros s e Hs Hfs; [by split|].
  inversion Hfs as [|? ? [Hf Hseg] Hrest]; subst. cbn [rx_frames]. unfold rx_dispatch.
  eapply safe_bind.
  { eapply safe_bind; [by apply handle_frame_keeps|].
    intros [s1 e1] [H1 C1]. instantiate (1 := kept s). split; [|by etransitivity; [|by repeat split]].
    apply (inv_counts (I := I) s1 (u64 (rx_count (nif s1) + 1)) (tx_count (nif s1)) H1). }
  intros [s2 e2] [H2 C2]. cbn [fst] in *. eapply kept_trans; [exact C2|]. apply IH; [done|].
  eapply List.Forall_impl; [|exact Hrest]. intros g [Hg Hg']. split; [done|]. by eapply frame_due_conf.
Qed.

(** ** Polling and next-hop resolution *)

Hypothesis env_frames : forall (e : E) s, I s ->
  Forall (fun f => frame_ok f /\ frame_due s f) (fst (netdev_poll e)).

Lemma poll_with_keeps s e : I s -> safe T (poll_with stack send s e) (kept s).
Proof.
  intros Hs. unfold poll_with. destruct (ready (nif s) =? 0); [by split|].
  pose proof (env_frames e s Hs) as Hf. destruct (netdev_poll e) as [fs e1].
  by apply rx_frames_keeps.
Qed.
End keeps.

Section waits.
Context {E : Type} `{!NetEnv E}.
Context (stack : Z -> bytes).
Hypothesis stack_ok : forall n, 0 <= n -> addr_ok n (stack n).
Context (I : net -> Prop) (seg : segment -> Prop) `{!RxInvariant I seg}.

Lemma next_hop_spec s dest :
  net_ok s -> addr_ok 4 dest ->
  exists t, next_hop s dest = Some t /\ addr_ok 4 t.
Proof.
  intros ((_ & [Hi _] & [Hm _] & Hg & _) & _) Hd. unfold next_hop.
  destruct (same_subnet_spec s dest (ip_addr (nif s))) as [b ->]; [apply Hd|done|done|].
  cbn [mbind option_bind]. eexists. split; [done|]. by destruct b.
Qed.

Lemma hop_known_spec s t :
  net_ok s -> addr_ok 4 t ->
  hop_known s t
  = Some (bool_decide (t = gateway (nif s)) && negb (gateway_mac_valid (nif s) =? 0)).
Proof.
  intros ((_ & _ & _ & [Hg _] & _) & _) [Ht _]. unfold hop_known. by rewrite ip_equal_spec.
Qed.

(** *** Partial correctness: any destination, any wait *)
Section partial.
Let D (s : net) (a : bytes) : Prop := True.
Hypothesis env_frames : forall (e : E) s, I s ->
  Forall (fun f => frame_ok f /\ frame_due seg D s f) (fst (netdev_poll e)).

(** An address found is the gateway's, and the hop was the gateway. *)
Definition hop_result (target : bytes) (r : option bytes) (s : net) : Prop :=
  match r with
  | Some m => m = gateway_mac (nif s) /\ target = gateway (nif s)
  | None => True
  end.

Lemma resolve_with_spec loop dest s e :
  (forall target st last s e, I s -> addr_ok 4 target ->
    safe True (loop target st last s e)
      (fun '(r, s', e') => kept I s (s', e') /\ hop_result target r s')) ->
  I s -> addr_ok 4 dest ->
  safe True (resolve_with (E := E) loop dest s e) (fun '(r, s', e') =>
    kept I s (s', e') /\ exists t, next_hop s dest = Some t /\ hop_result t r s').
Proof.
  intros Hloop Hs Hd. unfold resolve_with. pose proof (inv_ok s Hs) as Hok.
  destruct (next_hop_spec s dest Hok Hd) as (t & Et & Ht). rewrite Et. cbn [ub mbind res_bind].
  rewrite hop_known_spec by done. cbn [ub mbind res_bind].
  case_bool_decide as Eg; cbn [andb].
  - destruct (negb _).
    + split; [by split|]. by exists t.
    + destruct (now_ms e) as [st e1]. eapply safe_mono; [by apply Hloop|].
      intros [[r s'] e'] [H1 H2]. split; [done|]. by exists t.
  - destruct (now_ms e) as [st e1]. eapply safe_mono; [by apply Hloop|].
    intros [[r s'] e'] [H1 H2]. split; [done|]. by exists t.
Qed.

Lemma resolve_with_keeps loop :
  (forall target st last s e, I s -> addr_ok 4 target ->
    safe True (loop target st last s e)
      (fun '(r, s', e') => kept I s (s', e') /\ hop_result target r s')) ->
  resolve_keeps I True D (resolve_with (E := E) loop).
Proof.
  intros Hloop dest s e Hs Hd _. eapply safe_mono; [by apply resolve_with_spec|].
  intros [[r s'] e'] [H1 (t & _ & H2)]. split; [done|]. destruct r as [m|]; [|done].
  destruct H2 as [-> _]. destruct H1 as [H1 _].
  by destruct (inv_ok s' H1) as ((_ & _ & _ & _ & _ & ?) & _).
Qed.

Lemma resolve_loop_keeps fuel target st last s e :
  I s -> addr_ok 4 target ->
  safe True (resolve_loop stack fuel target st last s e)
    (fun '(r, s', e') => kept I s (s', e') /\ hop_result target r s').
Proof.
  revert target st last s e. induction fuel as [|fuel IH]; intros target st last s e Hs Ht; [done|].
  cbn [resolve_loop]. destruct (elapsed st 2500 e) as [over e1]. destruct over; [by repeat split|].
  destruct (now_ms e1) as [n e2].
  apply safe_bind with (P := fun '(_, s', e') => kept I s (s', e')).
  { case_if; [|by split].
    eapply safe_bind; [by eapply (send_arp_request_keeps stack stack_ok I seg)|].
    by intros [s1 e3]. }
  intros [[last1 s1] e3] [H1 C1]. cbn [fst] in *.
  eapply safe_bind.
  { apply (poll_with_keeps stack stack_ok I seg True D); try done.
    apply (send_ip_packet_keeps stack stack_ok I seg). by apply resolve_with_keeps. }
  intros [s2 e4] [H2 C2]. cbn [fst] in *.
  rewrite hop_known_spec by (done || by eapply inv_ok). cbn [ub mbind res_bind].
  case_bool_decide as Eg; cbn [andb].
  1: destruct (negb _).
  { split; [split; [done|by etransitivity]|]. by split. }
  all: eapply safe_mono; [by apply IH|]; intros [[r s3] e5] [[H3 C3] Hr]; (split; [|done]);
    (split; [done|]); cbn [fst] in *; (etransitivity; [exact C1|by etransitivity]).
Qed.

Lemma resolve_next_hop_keeps fuel dest s e :
  I s -> addr_ok 4 dest ->
  safe True (resolve_next_hop stack fuel dest s e) (fun '(r, s', e') =>
    kept I s (s', e') /\ exists t, next_hop s dest = Some t /\ hop_result t r s').
Proof.
  intros. apply resolve_with_spec; try done. intros. by apply resolve_loop_keeps.
Qed.

Lemma net_poll_keeps fuel s e : I s -> safe True (net_poll stack fuel s e) (kept I s).
Proof.
  intros Hs. apply (poll_with_keeps stack stack_ok I seg True D); try done.
  apply (send_ip_packet_keeps stack stack_ok I seg). apply resolve_with_keeps.
  intros. by apply resolve_loop_keeps.
Qed.
End partial.

(** *** Total correctness: the gateway is known and everything goes through it *)
Section total.
Let D (s : net) (a : bytes) : Prop := next_hop s a = Some (gateway (nif s)).
Hypothesis known : forall s, I s -> gateway_mac_valid (nif s) <> 0.
Hypothesis peer : forall s, I s -> D s (tcp_peer_ip (ntcp s)).
Hypothesis env_frames : forall (e : E) s, I s ->
  Forall (fun f => frame_ok f /\ frame_due seg D s f) (fst (netdev_poll e)).

Lemma next_hop_conf s s' a : same_conf s s' -> D s a -> D s' a.
Proof.
  unfold D, next_hop, same_subnet. intros (_ & -> & -> & -> & _). done.
Qed.

Lemma net_poll_returns fuel s e :
  I s -> exists s' e', net_poll stack fuel s e = Ok (s', e') /\ I s' /\ same_conf s s'.
Proof.
  intros Hs.
  destruct (safe_total (net_poll stack fuel s e) (kept I s)) as ([s' e'] & E1 & H1 & H2);
    [|by exists s', e'].
  apply (poll_with_keeps stack stack_ok I seg False D); try done; [apply next_hop_conf|].
  apply (send_ip_packet_keeps stack stack_ok I seg). clear s e Hs. intros dest s e Hs Hd HD.
  unfold resolve_next_hop, resolve_with. rewrite HD. cbn [ub mbind res_bind].
  pose proof (inv_ok s Hs) as Hok. destruct Hok as ((_ & _ & _ & Hg & _ & Hgm) & _).
  rewrite hop_known_spec by (done || by eapply inv_ok). cbn [ub mbind res_bind].
  rewrite bool_decide_true by done. pose proof (known s Hs) as Hk. apply Z.eqb_neq in Hk.
  rewrite Hk. cbn [negb andb]. split; [by split|exact Hgm].
Qed.
End total.
End waits.

(** ** Two invariants *)

Lemma accept_ok d t : tcp_ok t -> bytes_ok d -> tcp_ok (accept d t).
Proof.
  intros (Hp & [Hl Hb] & Hout & Hcap & Hnull) Hd. unfold accept, tcp_ok.
  cbn [set_rcv_nxt set_stream tcp_peer_ip tcp_stream_buf tcp_out_len tcp_out_cap tcp_out].
  set (n := Z.min (len d) (tcp_out_cap t - tcp_out_len t)).
  assert (Hn : len (take (Z.to_nat n) d) = n) by (rewrite length_take; lia).
  split; [done|]. split; [|split; [lia|done]]. split.
  - rewrite blit_length by lia. done.
  - apply bytes_ok_blit; [done|]. by apply Forall_take.
Qed.

(** Well-formedness alone. *)
#[export] Instance net_ok_invariant : RxInvariant net_ok (fun q => bytes_ok (seg_data q)).
Proof.
  split; try (by intros ? ? ? (? & ? & ?)); try (by intros ? ? (? & ? & ?)); [done|..].
  - intros s m (Hi & ? & ?) Hm. split; [|done]. unfold if_ok in *. cbn. tauto.
  - intros s q (? & Ht & ?) Hq _ _. split; [done|]. split; [|done]. by apply accept_ok.
Qed.

(** The stream of the peer: [str] is what it sends after its initial sequence
    number [irs].  The first [k] bytes, and the FIN when [fin] is 1, have been
    acknowledged; the buffer holds as many of them as it has room for. *)
Definition stream (str : bytes) (irs : Z) (t : tcp_state) : Prop :=
  exists k fin,
    0 <= k <= len str /\ (fin = 0 \/ fin = 1 /\ k = len str) /\
    tcp_rcv_nxt t = u32 (irs + 1 + k + fin) /\
    tcp_out_len t = Z.min k (tcp_out_cap t) /\
    take (Z.to_nat (tcp_out_len t)) (tcp_stream_buf t) = take (Z.to_nat (tcp_out_len t)) str.

(** A segment the peer really sent: the SYN, or bytes [i ..] of the stream under
    their sequence number, a FIN only at its end.  Segments may be lost, repeated
    and reordered. *)
Definition genuine (str : bytes) (irs : Z) (q : segment) : Prop :=
  seg_syn q = true /\ seg_seq q = irs /\ seg_data q = [] /\ seg_fin q = false \/
  seg_syn q = false /\ exists i, 0 <= i /\ i + len (seg_data q) <= len str /\
    seg_seq q = u32 (irs + 1 + i) /\ seg_data q = slice str i (len (seg_data q)) /\
    (seg_fin q = true -> i + len (seg_data q) = len str).

Lemma u32_eq a b : u32 a = u32 b -> - 4294967296 < a - b < 4294967296 -> a = b.
Proof. unfold u32. zlia. Qed.

Lemma accept_stream str irs t q i :
  tcp_ok t -> len str < 4294967290 -> bytes_ok (seg_data q) ->
  0 <= i -> i + len (seg_data q) <= len str -> seg_data q = slice str i (len (seg_data q)) ->
  seg_data q <> [] -> seg_seq q = u32 (irs + 1 + i) -> seg_seq q = tcp_rcv_nxt t ->
  stream str irs t -> stream str irs (accept (seg_data q) t).
Proof.
  intros (_ & [Hbl _] & Hout & Hcap & _) Hlen Hdb Hi Hil Hd Hne Hseq Hrcv
    (k & fin & Hk & Hfin & Hnxt & Hol & Htk).
  assert (Hdl : 0 < len (seg_data q)) by (destruct (seg_data q); [done|cbn; lia]).
  assert (Hik : i = k + fin).
  { rewrite Hnxt, Hseq in Hrcv. apply u32_eq in Hrcv; lia. }
  assert (fin = 0) as -> by lia. rewrite Z.add_0_r in *. subst i.
  exists (k + len (seg_data q)), 0. unfold accept.
  cbn [set_rcv_nxt set_stream tcp_rcv_nxt tcp_stream_buf tcp_out_len tcp_out_cap].
  set (m := Z.min (len (seg_data q)) (tcp_out_cap t - tcp_out_len t)).
  split; [lia|]. split; [by left|]. split.
  { rewrite Hnxt. unfold u32. rewrite Z.add_mod_idemp_l by lia. f_equal. lia. }
  split; [lia|].
  assert (Hm : length (take (Z.to_nat m) (seg_data q)) = Z.to_nat m) by (rewrite length_take; lia).
  unfold blit. rewrite app_assoc, take_app_length'
    by (rewrite length_app, length_take, Hm; lia).
  rewrite Htk.
  destruct (Z.eq_dec m 0) as [Hm0|Hm0].
  { rewrite Hm0, Z.add_0_r. cbn [Z.to_nat]. rewrite firstn_O, app_nil_r. done. }
  assert (Hkl : tcp_out_len t = k) by lia. rewrite Hkl, Hd.
  rewrite take_slice by lia. unfold slice.
  rewrite (take_take_drop str (Z.to_nat k) (Z.to_nat m)). f_equal. lia.
Qed.

(** The connection is established and holds a prefix of the peer's stream. *)
Definition streaming (str : bytes) (irs : Z) (s : net) : Prop :=
  net_ok s /\ tcp_event (ntcp s) <> 1 /\ stream str irs (ntcp s).

Lemma streaming_invariant str irs :
  len str < 4294967290 ->
  RxInvariant (streaming str irs) (fun q => bytes_ok (seg_data q) /\ genuine str irs q).
Proof.
  intros Hlen. pose proof net_ok_invariant as N.
  split; try (by intros ? ? ? (? & ? & ?)); try (by intros ? ? (? & ? & ?)).
  - by intros s [H _].
  - intros s m (H & ? & ?) Hm. split; [by apply inv_gateway|done].
  - intros s a (H & ? & ?) Ha. split; [by apply inv_dns_answer|done].
  - intros s q (H & Hev & Hst) [Hb [(_ & _ & Hnil & _)|(_ & i & H0 & H1 & H2 & H3 & _)]] Hne Hq;
      [done|].
    split; [by apply inv_data|]. split; [done|].
    eapply accept_stream; try done. apply H.
  - intros s q (H & Hev & (k & fin & Hk & Hfin & Hnxt & Hol & Htk))
      [Hb [(_ & _ & _ & Hnf)|(Hns & i & H0 & H1 & H2 & H3 & H4)]] Hf Heq; [congruence|].
    split; [exact (inv_fin (I := net_ok) s q H Hb Hf Heq)|]. split; [done|]. specialize (H4 Hf).
    pose proof (u32_range (irs + 1 + i)). rewrite u64_id in Heq by lia.
    assert (Hik : i + len (seg_data q) = k + fin).
    { rewrite Hnxt, H2 in Heq.
      assert (E : u32 (irs + 1 + (i + len (seg_data q))) = u32 (irs + 1 + (k + fin))).
      { replace (irs + 1 + (k + fin)) with (irs + 1 + k + fin) by lia. rewrite <- Heq.
        unfold u32 in *. zlia. }
      apply u32_eq in E; lia. }
    exists k, 1. cbn [upd_tcp ntcp set_rcv_nxt tcp_rcv_nxt tcp_out_len tcp_out_cap tcp_stream_buf].
    split; [lia|]. split; [right; lia|]. split; [|done].
    rewrite Hnxt. assert (fin = 0) as -> by lia. unfold u32.
    rewrite Z.add_mod_idemp_l by lia. f_equal. lia.
Qed.

(** ** Runs from a given state *)

(** [I], the configuration of [s0], and the gateway still known. *)
Definition since (I : net -> Prop) (s0 s : net) : Prop :=
  I s /\ same_conf s0 s /\
  (gateway_mac_valid (nif s0) <> 0 -> gateway_mac_valid (nif s) <> 0).

#[export] Instance since_invariant I seg `{!RxInvariant I seg} s0 :
  RxInvariant (since I s0) seg.
Proof.
  unfold since. split.
  - intros s [H _]. by eapply inv_ok.
  - intros s m (H & ? & ?) Hm. split; [by apply inv_gateway|done].
  - intros s a b (H & ? & ?). split; [by apply inv_counts|done].
  - intros s v (H & ? & ?). split; [by apply inv_ip_id|done].
  - intros s v (H & ? & ?). split; [by apply inv_icmp|done].
  - intros s v (H & ? & ?). split; [by apply inv_dns_done|done].
  - intros s a (H & ? & ?) Ha. split; [by apply inv_dns_answer|done].
  - intros s a b (H & ? & ?). split; [by apply inv_snd|done].
  - intros s v (H & ? & ?) Hv Hv2. split; [by apply inv_event|done].
  - intros s q (H & ? & ?) Hv Hq Hy. split; [by apply inv_syn|done].
  - intros s q (H & ? & ?) Hq Hne Heq. split; [by apply inv_data|done].
  - intros s q (H & ? & ?) Hq Hne Heq. split; [by eapply inv_fin|done].
Qed.

(** The gateway has been resolved and the peer is reached through it, which is
    how [net_tcp_connect] leaves the state. *)
Definition gateway_bound (s : net) : Prop :=
  gateway_mac_valid (nif s) <> 0 /\ next_hop s (tcp_peer_ip (ntcp s)) = Some (gateway (nif s)).

Definition icmp_via_gateway (s : net) (f : bytes) : Prop :=
  be16_at f 12 = ETH_IP -> byte_at f 23 = IP_ICMP ->
  next_hop s (slice f 26 4) = Some (gateway (nif s)).

Lemma net_poll_run {E} `{!NetEnv E} stack I seg `{!RxInvariant I seg} fuel s (e : E) :
  (forall n, 0 <= n -> addr_ok n (stack n)) -> I s ->
  (forall e : E, Forall (fun f => frame_ok f /\ seg_ok seg s f) (fst (netdev_poll e))) ->
  safe True (net_poll stack fuel s e) (fun x => I x.1 /\ same_conf s x.1) /\
  (gateway_bound s -> (forall e : E, Forall (icmp_via_gateway s) (fst (netdev_poll e))) ->
   exists s' e', net_poll stack fuel s e = Ok (s', e') /\ I s' /\ same_conf s s').
Proof.
  intros Hst Hs Hf. assert (H0 : since I s s) by (by split).
  split.
  - eapply safe_mono; [apply (net_poll_keeps stack Hst (since I s) seg); [|exact H0]|].
    + intros e1 s1 (_ & Hc & _). eapply List.Forall_impl; [|apply Hf]. intros f [H1 H2].
      split; [done|]. split; [by eapply seg_ok_conf|done].
    + intros x [(H1 & _) H2]. done.
  - intros [Hk Hp] Hicmp.
    destruct (net_poll_returns stack Hst (since I s) seg) with (fuel := fuel) (s := s) (e := e)
      as (s' & e' & E1 & (H1 & _) & H2); [| | |done|by exists s', e'].
    + intros s1 (_ & _ & H1). by apply H1.
    + intros s1 (_ & Hc & _). eapply next_hop_conf; [exact Hc|].
      destruct Hc as (_ & _ & _ & _ & _ & _ & -> & _). exact Hp.
    + intros e1 s1 (_ & Hc & _). specialize (Hf e1). specialize (Hicmp e1).
      rewrite List.Forall_forall in *. intros f Hin. destruct (Hf f Hin) as [H1 H2].
      split; [done|]. split; [by eapply seg_ok_conf|]. intros G1 G2.
      eapply next_hop_conf; [exact Hc|]. by apply (Hicmp f).
Qed.

(** ** Frames that leave their bytes

    An ICMP echo request for this host whose total length is less than its
    header length, with fewer than 256 bytes behind the header: the difference
    wraps round and [handle_icmp] copies 256 bytes from there. *)
Definition short_echo (s : net) (f : bytes) : Prop :=
  let ihl := byte_at f 14 mod 16 * 4 in
  bytes_ok f /\ be16_at f 12 = ETH_IP /\ byte_at f 14 / 16 = 4 /\
  20 <= ihl /\ 14 + ihl < len f < 14 + ihl + 256 /\ be16_at f 16 < ihl /\
  slice f 30 4 = ip_addr (nif s) /\ byte_at f 23 = IP_ICMP /\ byte_at f (14 + ihl) = 8.

Lemma short_echo_not_ok s f : short_echo s f -> ~ frame_ok f.
Proof. intros (_ & He & _ & _ & _ & Ht & _) [_ H]. specialize (H He). lia. Qed.

Ltac ip_read :=
  match goal with
  | |- ub (get16 ?f ?o) ≫= _ = _ => rewrite (get16_spec f o) by (done || lia)
  | |- ub (rd ?f ?o) ≫= _ = _ => rewrite (rd_byte_at f o) by lia
  | |- ub (rd_bytes ?f ?o ?n) ≫= _ = _ => rewrite (rd_bytes_Some f o n) by lia
  end; cbn [ub mbind res_bind].

Lemma handle_short_echo {E} `{!NetEnv E} stack send s f (e : E) :
  (forall n, 0 <= n -> addr_ok n (stack n)) -> net_ok s -> short_echo s f ->
  handle_frame stack send f (len f) s e = Fault.
Proof.
  intros Hst ((_ & [Hi _] & _) & _) (Hb & Het & Hv & Hi20 & Hl & Ht & Hd & Hp & H8).
  unfold handle_frame. destruct (Z.ltb_spec (len f) 14); [lia|]. ip_read. rewrite Het.
  change (ETH_IP =? ETH_ARP) with false. rewrite Z.eqb_refl. cbn iota.
  unfold handle_ip. destruct (Z.ltb_spec (len f - 14) 20); [lia|]. ip_read.
  rewrite land_15, Z.shiftr_div_pow2 by lia. change (2 ^ 4) with 16. rewrite Hv.
  change (4 =? 4) with true. cbn [negb]. set (ihl := byte_at f 14 mod 16 * 4) in *.
  destruct (Z.ltb_spec ihl 20); [lia|]. destruct (Z.ltb_spec (len f - 14) ihl); [lia|]. cbn [orb].
  ip_read. change (14 + 2) with 16. destruct (Z.ltb_spec (len f - 14) (be16_at f 16)); [lia|].
  ip_read. change (14 + 16) with 30.
  rewrite ip_equal_spec; [|apply slice_length; lia|done]. cbn [ub mbind res_bind].
  rewrite bool_decide_true by done. cbn [negb]. do 2 ip_read. change (14 + 9) with 23. rewrite Hp.
  rewrite Z.eqb_refl. pose proof (be16_at_range f 16 Hb).
  assert (Hi60 : ihl <= 60) by (unfold ihl; pose proof (Z.mod_pos_bound (byte_at f 14) 16); lia).
  assert (Hu : u64 (be16_at f 16 - ihl) = be16_at f 16 - ihl + 2 ^ 64).
  { unfold u64. symmetry. apply (Z.mod_unique _ _ (-1)); lia. }
  rewrite Hu. unfold handle_icmp. destruct (Z.ltb_spec (be16_at f 16 - ihl + 2 ^ 64) 8); [lia|].
  ip_read. rewrite H8. change (8 =? 0) with false. cbn [mbind res_bind]. change (8 =? 8) with true.
  cbn iota. destruct (Z.ltb_spec 256 (be16_at f 16 - ihl + 2 ^ 64)); [|lia].
  unfold icmp_answer, memcopy. by rewrite copy_from_past by lia.
Qed.

(** ** Properties *)


(** C6. TCP reception delivers the peer's stream in order: while the state holds
    a prefix of the stream [str] whose initial sequence number is [irs], any
    poll, with the segments of the connection genuine but lost, repeated,
    reordered or overlapping other traffic at will (32-bit sequence numbers
    wrapping included), leaves a prefix in the buffer, the acknowledged count
    matching [tcp_rcv_nxt] and bounded by the stream, and the FIN acknowledged
    only after all of it.  The buffer keeps what fits: bytes beyond its capacity
    are acknowledged all the same. *)
Theorem tcp_stream_in_order {E} `{!NetEnv E} stack fuel str irs s (e : E) :
  (forall n, 0 <= n -> addr_ok n (stack n)) -> len str < 4294967290 ->
  net_ok s -> tcp_event (ntcp s) <> 1 -> stream str irs (ntcp s) ->
  (forall e : E, Forall (fun f => frame_ok f /\ seg_ok (genuine str irs) s f)
                   (fst (netdev_poll e))) ->
  safe True (net_poll stack fuel s e) (fun x => stream str irs (ntcp x.1)) /\
  (gateway_bound s -> (forall e : E, Forall (icmp_via_gateway s) (fst (netdev_poll e))) ->
   exists s' e', net_poll stack fuel s e = Ok (s', e') /\ streaming str irs s').
Proof.
  intros Hst Hlen Hs Hev Hstr Hf. pose proof (streaming_invariant str irs Hlen) as Hinv.
  destruct (net_poll_run stack (streaming str irs) _ fuel s e) as [H1 H2]; [done|done| |].
  { intros e1. eapply List.Forall_impl; [|apply Hf]. intros f [[Hb Hi] Hg]. split; [by split|].
    unfold seg_ok in *. intros. split; [cbn; auto with orion|auto]. }
  split.
  - eapply safe_mono; [exact H1|]. intros x [(_ & _ & H) _]. exact H.
  - intros Hg Hi. destruct (H2 Hg Hi) as (s' & e' & E1 & H & _). by exists s', e'.
Qed.

(** Next-hop resolution answers only with the address the gateway announced
    and only for a destination whose hop is the gateway: at once, without a poll,
    when the gateway is known, and after any wait otherwise.  In particular a
    neighbour on the local network other than the gateway is never resolved,
    even by its own ARP reply. *)
Theorem resolve_next_hop_gateway {E} `{!NetEnv E} stack fuel dest s (e : E) :
  (forall n, 0 <= n -> addr_ok n (stack n)) -> net_ok s -> addr_ok 4 dest ->
  (forall e : E, Forall frame_ok (fst (netdev_poll e))) ->
  safe True (resolve_next_hop stack fuel dest s e) (fun '(r, s', e') => forall m, r = Some m ->
    next_hop s dest = Some (gateway (nif s)) /\ m = gateway_mac (nif s')) /\
  (gateway_mac_valid (nif s) <> 0 -> next_hop s dest = Some (gateway (nif s)) ->
   resolve_next_hop stack fuel dest s e = Ok (Some (gateway_mac (nif s)), s, e)).
Proof.
  intros Hst Hs Hd Hf. split.
  - eapply safe_mono; [apply (resolve_next_hop_keeps stack Hst net_ok
      (fun q => bytes_ok (seg_data q))); try done|].
    + intros e1 s1 _. eapply List.Forall_impl; [|apply Hf]. intros f [Hb Hf1]. split; [by split|].
      split; [|done]. unfold seg_ok. intros. cbn. auto with orion.
    + intros [[r s'] e'] [[_ Hc] (t & Et & Hr)] m ->. destruct Hr as [-> ->].
      destruct Hc as (_ & _ & _ & <- & _). done.
  - intros Hk Hg. unfold resolve_next_hop, resolve_with. rewrite Hg. cbn [ub mbind res_bind].
    destruct Hs as [Hi Ho]. pose proof Hi as (_ & _ & _ & Hgw & _).
    rewrite hop_known_spec by done. cbn [ub mbind res_bind].
    rewrite bool_decide_true by done. apply Z.eqb_neq in Hk. by rewrite Hk.
Qed.

(** ** Concrete traffic *)
Module Traffic.

Definition zeros (n : Z) : bytes := replicate (Z.to_nat n) 0.

Lemma zeros_ok n : 0 <= n -> addr_ok n (zeros n).
Proof.
  intros H. unfold zeros. split; [rewrite length_replicate; lia|].
  apply bytes_ok_replicate. unfold is_byte. lia.
Qed.

(** An adapter that delivers [script n] at its [n]-th call; 1000 ticks a second. *)
Definition scripted (script : nat -> list bytes) : NetEnv nat := {|
  timer_ticks := fun n => (Z.of_nat n, S n);
  timer_frequency := fun _ => 1000;
  netdev_tx := fun _ n => (1, n);
  netdev_poll := fun n => (script n, S n)
|}.

Definition my_mac : bytes := [0x52; 0x54; 0; 0x12; 0x34; 0x56].
Definition gw_mac : bytes := [0x52; 0x55; 10; 0; 2; 2].
Definition me : bytes := [10; 0; 2; 15].
Definition gw : bytes := [10; 0; 2; 2].
Definition server : bytes := [93; 184; 216; 34].

Definition ip_frame (src : bytes) (proto : Z) (payload : bytes) : bytes :=
  eth_head my_mac gw_mac ETH_IP ++ ipv4_head 7 proto src me (len payload) ++ payload.

Definition from_server (seq flags : Z) (data : bytes) : bytes :=
  ip_frame server IP_TCP (tcp_message server me 80 49152 seq 5000 flags data).

Definition interface : netif :=
  mk_if my_mac me [255; 255; 255; 0] gw [10; 0; 2; 3] gw_mac 1 1 0 0 1 49153.

Definition connected (rcv out : Z) : net :=
  mk_net interface (mk_icmp 0 0x4f52 0) (mk_dns 0 0 0 [0; 0; 0; 0])
    (mk_tcp 2 server 49152 80 4999 5000 5000 rcv (zeros 32768) (Ptr tt) 32768 out).

Lemma connected_ok rcv out : 0 <= out <= 32768 -> net_ok (connected rcv out).
Proof.
  intros H. split; [|split; [split; [|split; [apply zeros_ok; lia|cbn; split; [lia|split; [lia|done]]]]|]].
  - repeat split; by apply bytes_okb_spec.
  - split; [done|by apply bytes_okb_spec].
  - split; [done|by apply bytes_okb_spec].
Qed.

(** The peer sends "Hi!" from sequence number 0xffffffff on; the segments come
    in the wrong order, one of them twice, the FIN last. *)
Definition text : bytes := [72; 105; 33].
Definition irs : Z := 0xfffffffe.
Definition late : bytes := from_server 1 0x18 [33].
Definition early : bytes := from_server 0xffffffff 0x18 [72; 105].
Definition last : bytes := from_server 2 0x11 [].

Definition script (n : nat) : list bytes :=
  match n with O => [late; early; early; late; last] | _ => [] end.

Abbreviation stream_run := (net_poll (NetEnv0 := scripted script) zeros 0 (connected 0xffffffff 0) 0%nat).

Lemma frame_okb f :
  bytes_okb f && (byte_at f 14 mod 16 * 4 <=? be16_at f 16) = true -> frame_ok f.
Proof. intros [H1 H2]%andb_prop. split; [by apply bytes_okb_spec|]. intros _. by apply Z.leb_le. Qed.

Lemma script_genuine n :
  Forall (fun f => frame_ok f /\ seg_ok (genuine text irs) (connected 0xffffffff 0) f) (script n).
Proof.
  assert (Hl : frame_ok late) by (apply frame_okb; vm_compute; reflexivity).
  assert (He : frame_ok early) by (apply frame_okb; vm_compute; reflexivity).
  assert (Hf : frame_ok last) by (apply frame_okb; vm_compute; reflexivity).
  destruct n as [|n]; cbn [script]; [|by constructor].
  assert (Gl : genuine text irs (segment_of late)).
  { right. split; [reflexivity|]. exists 2. vm_compute. repeat split; congruence. }
  assert (Ge : genuine text irs (segment_of early)).
  { right. split; [reflexivity|]. exists 0. vm_compute. repeat split; congruence. }
  assert (Gf : genuine text irs (segment_of last)).
  { right. split; [reflexivity|]. exists 3. vm_compute. repeat split; congruence. }
  repeat (constructor; [split; [assumption|by unfold seg_ok]|]). constructor.
Qed.

Example stream_result :
  (match stream_run with
   | Ok (s, _) => Some (take 5 (tcp_stream_buf (ntcp s)), tcp_out_len (ntcp s), tcp_rcv_nxt (ntcp s),
                        tcp_event (ntcp s), tx_count (nif s))
   | _ => None end) = Some ([72; 105; 33; 0; 0], 3, 3, 4, 3).
Proof. vm_compute. reflexivity. Qed.

Lemma connected_bound rcv out : gateway_bound (connected rcv out).
Proof. by split. Qed.

Lemma tcp_stream_in_order_witness :
  exists s' e', stream_run = Ok (s', e') /\ streaming text irs s' /\ tcp_out_len (ntcp s') = 3.
Proof.
  destruct (tcp_stream_in_order (NetEnv0 := scripted script) zeros 0 text irs
    (connected 0xffffffff 0) 0%nat) as [_ H].
  { exact zeros_ok. }
  { reflexivity. }
  { apply connected_ok. lia. }
  { discriminate. }
  { exists 0, 0. repeat split; try reflexivity; cbn; try lia. }
  { exact script_genuine. }
  destruct H as (s' & e' & E1 & H1).
  { apply connected_bound. }
  { intros n. destruct n as [|n]; cbn [script netdev_poll scripted fst]; [|by constructor].
    repeat (constructor; [unfold icmp_via_gateway; vm_compute; discriminate|]). constructor. }
  exists s', e'. split; [exact E1|]. split; [exact H1|].
  pose proof stream_result as R. rewrite E1 in R. injection R as _ R _ _ _. exact R.
Defined.

(** A neighbour asks for our address, pings us and sends a DNS answer that
    claims more records than it has. *)
Definition neighbour : bytes := [10; 0; 2; 9].
Definition who_has : bytes :=
  arp_packet (replicate 6 255) gw_mac 1 gw_mac gw (zeros 6) me.
Definition ping_from (src : bytes) : bytes := ip_frame src IP_ICMP [8; 0; 0; 0; 1; 2; 3; 4].
Definition bad_dns : bytes :=
  ip_frame [10; 0; 2; 3] IP_UDP
    (be16 53 ++ be16 50007 ++ be16 20 ++ be16 0
     ++ be16 0x4001 ++ be16 0x8180 ++ be16 9 ++ be16 9 ++ be16 0 ++ be16 0).

Definition mixed (n : nat) : list bytes :=
  match n with O => [who_has; ping_from server; bad_dns] | _ => [] end.

Abbreviation mixed_run := (net_poll (NetEnv0 := scripted mixed) zeros 0 (connected 7 0) 0%nat).


Lemma resolve_next_hop_gateway_witness :
  resolve_next_hop (NetEnv0 := scripted script) zeros 0 server (connected 7 0) 0%nat
  = Ok (Some gw_mac, connected 7 0, 0%nat).
Proof.
  destruct (resolve_next_hop_gateway (NetEnv0 := scripted script) zeros 0 server (connected 7 0)
    0%nat) as [_ H].
  { exact zeros_ok. }
  { apply connected_ok. lia. }
  { split; [reflexivity|by apply bytes_okb_spec]. }
  { intros n. eapply List.Forall_impl; [|apply script_genuine]. by intros f [Hf _]. }
  apply H; [discriminate|reflexivity].
Defined.

(** *** What the theorems leave out *)

(** An IPv4 total length below the header length makes the payload length wrap:
    the echo reply then copies 256 bytes from the end of a 42-byte frame. *)
Definition short_total : bytes := <[16%nat := 0]> (<[17%nat := 0]> (ping_from server)).

Example short_total_length_faults :
  len short_total = 42 /\ bytes_ok short_total /\
  handle_frame (NetEnv0 := scripted script) zeros (send_ip (NetEnv0 := scripted script) zeros 0)
    short_total 42 (connected 7 0) 0%nat = Fault.
Proof.
  split; [reflexivity|]. split; [apply bytes_okb_spec; vm_compute; reflexivity|].
  vm_compute. reflexivity.
Qed.

(** With the buffer full, in-order data is acknowledged and dropped: the
    sequence number advances by 2, nothing is stored. *)
Definition full_script (n : nat) : list bytes := [from_server 7 0x18 [72; 105]].

Example acknowledged_but_dropped :
  (match net_poll (NetEnv0 := scripted full_script) zeros 0 (connected 7 32768) 0%nat with
   | Ok (s, _) => Some (tcp_rcv_nxt (ntcp s), tcp_out_len (ntcp s), tx_count (nif s))
   | _ => None end) = Some (9, 32768, 1).
Proof. vm_compute. reflexivity. Qed.

(** A FIN that overtakes the data before it ends the stream at once. *)
Definition fin_first (n : nat) : list bytes := [from_server 9 0x11 []].

Example early_fin_ends_stream :
  (match net_poll (NetEnv0 := scripted fin_first) zeros 0 (connected 7 0) 0%nat with
   | Ok (s, _) => Some (tcp_rcv_nxt (ntcp s), tcp_event (ntcp s))
   | _ => None end) = Some (7, 4).
Proof. vm_compute. reflexivity. Qed.

(** An adapter that delivers the same ping from a neighbour at every poll, as
    the drivers do while the callback on that frame has not returned.  No timer
    tick passes. *)
Definition flood : NetEnv unit := {|
  timer_ticks := fun e => (0, e);
  timer_frequency := fun _ => 1000;
  netdev_tx := fun _ e => (1, e);
  netdev_poll := fun e => ([ping_from neighbour], e)
|}.

(** The interface of [connected], whatever the counters and the gateway entry. *)
Definition listening (s : net) : Prop :=
  exists g v rx tx id port, nif s = mk_if my_mac me [255; 255; 255; 0] gw [10; 0; 2; 3] g v 1 rx tx id port.

Lemma flood_handled (send : Z -> bytes -> bytes -> Z -> net -> unit -> res (net * unit)) s :
  listening s ->
  exists r, handle_frame (NetEnv0 := flood) zeros send (ping_from neighbour) 42 s tt
    = send IP_ICMP neighbour r 8 s tt.
Proof.
  intros (g & v & rx & tx & id & port & E). destruct s as [i ic d t]. cbn in E. subst i.
  eexists. vm_compute. reflexivity.
Qed.

(** The handlers never come back, at any depth. *)
Lemma flood_never_returns fuel s :
  listening s ->
  resolve_loop (NetEnv0 := flood) zeros fuel neighbour 0 0xffffffff s tt = NoFuel.
Proof.
  revert s. induction fuel as [|fuel IH]; intros s Hs; [done|]. cbn [resolve_loop].
  change (elapsed (NetEnv0 := flood) 0 2500 tt) with (false, tt). cbv iota beta.
  change (now_ms (NetEnv0 := flood) tt) with (0, tt). cbv iota beta.
  change ((0xffffffff =? 0xffffffff) || (500 <? u32 (0 - 0xffffffff))) with true. cbv iota.
  assert (Harp : exists s1, send_arp_request (NetEnv0 := flood) zeros neighbour s tt = Ok (s1, tt)
    /\ listening s1).
  { destruct Hs as (g & v & rx & tx & id & port & E). destruct s as [i ic d t]. cbn in E. subst i.
    unfold send_arp_request. rewrite arp_request_spec by reflexivity. cbn [ub mbind res_bind].
    unfold eth_tx. cbn -[arp_packet u64 Z.add]. eexists. split; [reflexivity|].
    by repeat eexists. }
  destruct Harp as (s1 & -> & H1). cbn [mbind res_bind].
  assert (Hr : forall s, listening s -> (ready (nif s) =? 0) = false).
  { intros x (g & v & rx & tx & id & port & E). by rewrite E. }
  unfold poll_with at 1. rewrite Hr by done. cbn [netdev_poll flood rx_frames]. unfold rx_dispatch.
  change (len (ping_from neighbour)) with 42.
  destruct (flood_handled (send_ip_packet (NetEnv0 := flood) zeros
    (resolve_with (NetEnv0 := flood) (resolve_loop (NetEnv0 := flood) zeros fuel))) s1 H1) as [r ->].
  unfold send_ip_packet. change (1500 - 20 <? 8) with false. cbv iota.
  assert (Hn : next_hop s1 neighbour = Some neighbour /\ hop_known s1 neighbour = Some false).
  { destruct H1 as (g & v & rx & tx & id & port & E). destruct s1 as [i ic d t]. cbn in E. subst i.
    split; reflexivity. }
  destruct Hn as [Hn1 Hn2]. unfold resolve_with. rewrite Hn1. cbn [ub mbind res_bind].
  rewrite Hn2. cbn [ub mbind res_bind]. change (now_ms (NetEnv0 := flood) tt) with (0, tt).
  cbv iota beta. by rewrite IH.
Qed.

Example neighbour_ping_never_returns fuel :
  net_poll (NetEnv0 := flood) zeros fuel (connected 7 0) tt = NoFuel.
Proof.
  unfold net_poll, poll_with. change (ready (nif (connected 7 0)) =? 0) with false.
  cbv iota. cbn [netdev_poll flood rx_frames]. unfold rx_dispatch.
  change (len (ping_from neighbour)) with 42.
  assert (Hs : listening (connected 7 0)) by (by repeat eexists).
  destruct (flood_handled (send_ip (NetEnv0 := flood) zeros fuel) _ Hs) as [r ->].
  unfold send_ip, send_ip_packet, resolve_next_hop, resolve_with.
  change (1500 - 20 <? 8) with false. cbv iota.
  change (next_hop (connected 7 0) neighbour) with (Some neighbour). cbn [ub mbind res_bind].
  change (hop_known (connected 7 0) neighbour) with (Some false). cbn [ub mbind res_bind].
  change (now_ms (NetEnv0 := flood) tt) with (0, tt). cbv iota beta.
  by rewrite flood_never_returns.
Qed.
End Traffic.
