(* ===== verification/NetTx.v ===== *)
(** * kernel/net.c: what goes on the wire

    The frames that [send_ip_packet] and [send_tcp] hand to the adapter. *)

From S2P Require Import Prelude Dhcp Checksum NetEnv Wire Net NetRx.

(** A TCP segment in an IPv4 packet in an Ethernet frame to [nh]. *)
Definition tcp_frame (nh : bytes) (s : net) (flags : Z) (data : bytes) : bytes :=
  let i := nif s in let t := ntcp s in
  eth_head nh (mac i) ETH_IP
  ++ ipv4_head (ip_id i) IP_TCP (ip_addr i) (tcp_peer_ip t) (20 + len data)
  ++ tcp_message (ip_addr i) (tcp_peer_ip t) (tcp_local_port t) (tcp_peer_port t)
       (tcp_snd_nxt t) (tcp_rcv_nxt t) flags data.

Definition flag_syn (flags : Z) : Z := if Z.testbit flags 1 then 1 else 0.
Definition flag_fin (flags : Z) : Z := if Z.testbit flags 0 then 1 else 0.

(** SYN and FIN take a sequence number each. *)
Definition advance_snd (flags n : Z) (s : net) : net :=
  upd_tcp (fun t => set_snd (u32 (tcp_snd_nxt t + flag_syn flags + flag_fin flags + n))
                      (tcp_snd_una t) t) s.

Lemma send_ip_frame {E} `{!NetEnv E} stack resolve proto dest payload rest nh s (e : E) :
  (forall n, 0 <= n -> addr_ok n (stack n)) -> if_ok (nif s) ->
  is_byte proto -> addr_ok 4 dest -> addr_ok 6 nh -> len payload <= 1480 ->
  resolve dest s e = Ok (Some nh, s, e) ->
  send_ip_packet stack resolve proto dest (payload ++ rest) (len payload) s e
  = let f := eth_head nh (mac (nif s)) ETH_IP
             ++ ipv4_head (ip_id (nif s)) proto (ip_addr (nif s)) dest (len payload) ++ payload in
    let '(_, s', e') := eth_tx f (upd_if (set_ip_id (u16 (ip_id (nif s) + 1))) s) e in
    Ok (s', e').
Proof.
  intros Hst ([M1 M2] & [I1 I2] & _) Hp [D1 D2] [N1 N2] Hl Hres. unfold send_ip_packet.
  destruct (Z.ltb_spec (1500 - 20) (len payload)); [lia|]. rewrite Hres. cbn [mbind res_bind].
  destruct (Hst 1600) as [L1 L2]; [lia|].
  rewrite eth_header_spec by (done || lia). cbn [ub mbind res_bind].
  set (h := eth_head nh (mac (nif s)) ETH_IP).
  assert (Hh : len h = 14) by (unfold h, eth_head; wlen).
  assert (Hhb : bytes_ok h) by (unfold h, eth_head; rewrite !bytes_ok_app; auto with orion).
  rewrite <- Hh. rewrite make_ipv4_spec; try done; [|by apply Forall_drop|wlen|lia|lia].
  cbn [ub mbind res_bind].
  set (ih := ipv4_head _ _ _ _ _).
  assert (Hih : len ih = 20) by (unfold ih, ipv4_head, ipv4_header; wlen).
  unfold memcopy. rewrite copy_from_spec by wlen. rewrite Nat2Z.id. cbn [ub mbind res_bind].
  assert (Hsl : slice (payload ++ rest) 0 (len payload) = payload).
  { unfold slice. rewrite drop_0, Nat2Z.id. apply take_app_length. }
  rewrite Hsl. replace 34 with (len (h ++ ih)) by wlen.
  rewrite blit_app by wlen.
  rewrite rd_bytes_Some by wlen. cbn [ub mbind res_bind].
  assert (Hf : slice (((h ++ ih) ++ payload) ++ drop (length payload) (drop 20 (drop 14 (stack 1600))))
                 0 (len (h ++ ih) + len payload) = (h ++ ih) ++ payload).
  { unfold slice. rewrite drop_0, take_app_length' by (rewrite !length_app; lia). done. }
  rewrite Hf, <- app_assoc. done.
Qed.

Lemma checksum_field pre post c :
  bytes_ok (pre ++ [0; 0] ++ post) -> Nat.Even (length pre) ->
  c = checksum (pre ++ be16 0 ++ post) -> checksum (pre ++ be16 c ++ post) = 0.
Proof. intros Hb He ->. by apply checksum_verifies. Qed.

Lemma ipv4_head_verifies id proto src dst n :
  is_byte proto -> bytes_ok src -> bytes_ok dst -> checksum (ipv4_head id proto src dst n) = 0.
Proof.
  intros Hp Hs Hd. unfold ipv4_head, ipv4_header.
  pose (pre := [0x45; 0] ++ be16 (20 + n) ++ be16 id ++ be16 0x4000 ++ [64; proto]).
  apply (checksum_field pre (src ++ dst)); [|by exists 5%nat|reflexivity].
  unfold pre. rewrite !bytes_ok_app.
  repeat split; auto with orion; repeat constructor; unfold is_byte in *; lia.
Qed.

Lemma tcp_message_verifies src dst sport dport seq ack flags data :
  is_byte flags -> addr_ok 4 src -> addr_ok 4 dst -> bytes_ok data ->
  checksum (pseudo_header src dst (20 + len data)
            ++ tcp_message src dst sport dport seq ack flags data) = 0.
Proof.
  intros Hf [Hs1 Hs2] [Hd1 Hd2] Hdb. unfold tcp_message.
  remember (checksum (pseudo_header src dst (20 + len data)
    ++ tcp_head sport dport seq ack flags 0 ++ data)) as c eqn:Ec. unfold tcp_head in *.
  pose (pre := pseudo_header src dst (20 + len data) ++ be16 sport ++ be16 dport ++ be32 seq
               ++ be32 ack ++ [0x50; flags] ++ be16 4096).
  replace (pseudo_header src dst (20 + len data) ++
    (be16 sport ++ be16 dport ++ be32 seq ++ be32 ack ++ [0x50; flags] ++ be16 4096 ++ be16 c
     ++ [0; 0]) ++ data) with (pre ++ be16 c ++ ([0; 0] ++ data))
    by (unfold pre; by rewrite <- !app_assoc).
  apply (checksum_field pre ([0; 0] ++ data) c).
  - unfold pre, pseudo_header. rewrite !bytes_ok_app.
    repeat split; auto with orion; repeat constructor; unfold is_byte in *; lia.
  - exists 14%nat. unfold pre, pseudo_header. rewrite !length_app. cbn [length be16 be32]. lia.
  - rewrite Ec. unfold pre. by rewrite <- !app_assoc.
Qed.

Lemma land_pow2_test a k : 0 <= k -> negb (Z.land a (2 ^ k) =? 0) = Z.testbit a k.
Proof.
  intros Hk. destruct (Z.testbit a k) eqn:Et.
  - apply negb_true_iff, Z.eqb_neq. intros H.
    assert (Hb : Z.testbit (Z.land a (2 ^ k)) k = true)
      by (rewrite Z.land_spec, Et, Z.pow2_bits_true by done; done).
    rewrite H, Z.bits_0 in Hb. done.
  - apply negb_false_iff, Z.eqb_eq. apply Z.bits_inj'. intros i Hi.
    rewrite Z.land_spec, Z.bits_0. destruct (Z.eq_dec k i) as [->|Hne]; [by rewrite Et|].
    rewrite Z.pow2_bits_false by done. apply andb_false_r.
Qed.

Lemma advance_snd_steps flags n s :
  let bump (c : bool) s :=
    if c then upd_tcp (fun t => set_snd (u32 (tcp_snd_nxt t + 1)) (tcp_snd_una t) t) s else s in
  0 <= tcp_snd_nxt (ntcp s) < 4294967296 ->
  upd_tcp (fun t => set_snd (u32 (tcp_snd_nxt t + n)) (tcp_snd_una t) t)
    (bump (negb (Z.land flags 0x01 =? 0)) (bump (negb (Z.land flags 0x02 =? 0)) s))
  = advance_snd flags n s.
Proof.
  cbv zeta. intros Hr. unfold advance_snd, flag_syn, flag_fin.
  change 2 with (2 ^ 1). change (negb (Z.land flags 1 =? 0)) with (negb (Z.land flags (2 ^ 0) =? 0)).
  rewrite !land_pow2_test by lia. destruct s as [i c d t], t. cbn in Hr.
  destruct (Z.testbit flags 1), (Z.testbit flags 0); unfold upd_tcp, set_snd; cbn -[Z.add u32];
    do 2 f_equal; unfold u32;
    rewrite ?(Z.add_mod_idemp_l (_ mod _ + 1)), ?Z.add_mod_idemp_l by lia;
    rewrite <- ?Z.add_assoc, ?Z.add_mod_idemp_l by lia; f_equal; lia.
Qed.

(** A segment on the wire: once the gateway is resolved, [send_tcp] hands the
    adapter exactly the Ethernet frame to the gateway around the IPv4 packet
    around the TCP segment with the connection's ports, sequence and
    acknowledgement numbers and the data, whatever the stack buffers held; the
    IPv4 header checksum and the TCP checksum over the pseudo-header verify; and
    the send sequence number advances by the data, the SYN and the FIN, modulo
    2^32. *)
Theorem send_tcp_wire {E} `{!NetEnv E} stack fuel flags data s (e : E) :
  (forall n, 0 <= n -> addr_ok n (stack n)) -> net_ok s -> gateway_bound s ->
  ready (nif s) <> 0 -> is_byte flags -> bytes_ok (payload_of data) ->
  len (payload_of data) <= 1460 -> 0 <= tcp_snd_nxt (ntcp s) < 4294967296 ->
  let d := payload_of data in
  let f := tcp_frame (gateway_mac (nif s)) s flags d in
  let '(r, e') := netdev_tx f e in
  (exists s', send_tcp stack (send_ip stack fuel) flags data (len d) s e = Ok (s', e') /\
     s' = advance_snd flags (len d) (upd_if (fun i => set_counts (rx_count i)
            (if r =? 0 then tx_count i else u64 (tx_count i + 1))
            (set_ip_id (u16 (ip_id i + 1)) i)) s)) /\
  checksum (slice f 14 20) = 0 /\
  checksum (pseudo_header (ip_addr (nif s)) (tcp_peer_ip (ntcp s)) (20 + len d)
            ++ slice f 34 (20 + len d)) = 0.
Proof.
  intros Hst Hs [Hk Hg] Hready Hf Hdb Hl Hnxt d f.
  assert (Hld : len d <= 1460) by exact Hl. destruct (netdev_tx f e) as [r e'] eqn:Etx.
  destruct Hs as (Hi & (Hp & _) & _). pose proof Hi as (Hm & Ha & _ & Hgw & _ & Hgm).
  pose proof (proj1 Hm). pose proof (proj1 Ha). pose proof (proj1 Hgm). pose proof (proj1 Hp).
  assert (Hmsg : len (tcp_message (ip_addr (nif s)) (tcp_peer_ip (ntcp s)) (tcp_local_port (ntcp s))
    (tcp_peer_port (ntcp s)) (tcp_snd_nxt (ntcp s)) (tcp_rcv_nxt (ntcp s)) flags d) = 20 + len d).
  { unfold tcp_message. rewrite length_app, tcp_head_length. lia. }
  split; [|split].
  - destruct (Hst 1500) as [L1 L2]; [lia|]. unfold send_tcp.
    rewrite tcp_segment_spec; [|done|done|done|done|fold d; lia|apply Ha|apply Ha|apply Hp|apply Hp].
    cbn [ub mbind res_bind]. fold d. rewrite u16_id by lia. rewrite <- Hmsg.
    unfold send_ip. rewrite (send_ip_frame stack _ IP_TCP (tcp_peer_ip (ntcp s)) _ _
      (gateway_mac (nif s))); [|done|done|unfold is_byte, IP_TCP; lia|done|done|lia|].
    2: { unfold resolve_next_hop, resolve_with. rewrite Hg. cbn [ub mbind res_bind].
         unfold hop_known. rewrite ip_equal_spec by apply Hgw. cbn [mbind option_bind ub res_bind].
         rewrite bool_decide_true by done. apply Z.eqb_neq in Hk. by rewrite Hk. }
    rewrite Hmsg. change (eth_head _ _ _ ++ ipv4_head _ _ _ _ _ ++ tcp_message _ _ _ _ _ _ _ _) with f.
    unfold eth_tx. cbn [upd_if nif set_ip_id ready]. apply Z.eqb_neq in Hready. rewrite Hready, Etx.
    cbv zeta. destruct (r =? 0); cbn [negb mbind res_bind];
      (eexists; split; [reflexivity|]); rewrite advance_snd_steps by done; reflexivity.
  - assert (E1 : slice f 14 20 = ipv4_head (ip_id (nif s)) IP_TCP (ip_addr (nif s))
      (tcp_peer_ip (ntcp s)) (20 + len d)).
    { unfold f, tcp_frame, slice. rewrite drop_app_length' by (unfold eth_head; wlen).
      apply take_app_length'. unfold ipv4_head, ipv4_header. wlen. }
    rewrite E1. apply ipv4_head_verifies; [unfold is_byte, IP_TCP; lia|apply Ha|apply Hp].
  - assert (E2 : slice f 34 (20 + len d) = tcp_message (ip_addr (nif s)) (tcp_peer_ip (ntcp s))
      (tcp_local_port (ntcp s)) (tcp_peer_port (ntcp s)) (tcp_snd_nxt (ntcp s))
      (tcp_rcv_nxt (ntcp s)) flags d).
    { unfold f, tcp_frame, slice. rewrite app_assoc.
      rewrite drop_app_length' by (unfold eth_head, ipv4_head, ipv4_header; wlen).
      apply take_ge. lia. }
    rewrite E2. by apply tcp_message_verifies.
Qed.

Lemma send_tcp_wire_witness :
  let s := Traffic.connected 7 0 in
  exists s', send_tcp Traffic.zeros
    (send_ip (NetEnv0 := Traffic.scripted Traffic.script) Traffic.zeros 0) 0x11 (Ptr [71; 69; 84])
    3 s 0%nat = Ok (s', 0%nat) /\ tcp_snd_nxt (ntcp s') = tcp_snd_nxt (ntcp s) + 4.
Proof.
  intros s. destruct (send_tcp_wire (NetEnv0 := Traffic.scripted Traffic.script) Traffic.zeros 0 0x11
    (Ptr [71; 69; 84]) s 0%nat) as [(s' & E & ->) _].
  { exact Traffic.zeros_ok. }
  { apply Traffic.connected_ok. lia. }
  { apply Traffic.connected_bound. }
  { discriminate. }
  { unfold is_byte. lia. }
  { apply bytes_okb_spec. reflexivity. }
  { vm_compute. discriminate. }
  { vm_compute. split; [discriminate|reflexivity]. }
  eexists. split; [exact E|]. reflexivity.
Defined.
