(* ===== verification/DnsQuery.v ===== *)
(** * kernel/net.c: the DNS query

    The message [dns_lookup] (line 126) builds for a host name, and the reference
    it is compared with: the labels of the name, each behind its length. *)

From S2P Require Import Prelude Dhcp NetEnv Cstr Wire Net.

(** ** The query

    [q] has 512 bytes.  [None] inside is a return of 0; the flag says whether
    [dns_id] was cleared first. *)
Inductive label_result :=
| Label (q : bytes) (p o n : Z)
| LabelTooLong.

(** [while( *s&&*s!='.')] *)
Fixpoint label_loop (fuel : nat) (s : bytes) (p : Z) (q : bytes) (o n : Z) : option label_result :=
  match fuel with
  | O => None
  | S f =>
      c ← rd s p;
      if negb (c =? 0) && negb (c =? DOT) then
        if (63 <=? n) || (500 <=? o) then Some LabelTooLong
        else q ← wr q o c; label_loop f s (p + 1) q (o + 1) (n + 1)
      else Some (Label q p o n)
  end.

Inductive name_result :=
| Name (q : bytes) (o : Z)
| NameRejected (cleared : bool).

(** [while( *s)] *)
Fixpoint name_loop (fuel : nat) (s : bytes) (p : Z) (q : bytes) (o : Z) : option name_result :=
  match fuel with
  | O => None
  | S f =>
      c ← rd s p;
      if c =? 0 then Some (Name q o)
      else
        let lp := o in
        let o := o + 1 in
        if 500 <=? o then Some (NameRejected false)
        else
          r ← label_loop (S (length s)) s p q o 0;
          match r with
          | LabelTooLong => Some (NameRejected true)
          | Label q p o n =>
              if n =? 0 then Some (NameRejected true)
              else
                q ← wr q lp (u8 n);
                c ← rd s p;
                name_loop f s (if c =? DOT then p + 1 else p) q o
          end
  end.

(** From [memzero(q,...)] to the class of the question: the message and its
    length. *)
Definition dns_query (q host : bytes) (id : Z) : option (name_result) :=
  q ← memzero q 0 512;
  q ← put16 q 0 id;
  q ← put16 q 2 0x0100;
  q ← put16 q 4 1;
  r ← name_loop (S (length host)) host 0 q 12;
  match r with
  | NameRejected c => Some (NameRejected c)
  | Name q o =>
      q ← wr q o 0;
      let o := o + 1 in
      q ← put16 q o 1;
      let o := o + 2 in
      q ← put16 q o 1;
      Some (Name q (o + 2))
  end.

(** ** The reference *)

(** The labels of a name; one trailing dot is allowed.  A leading dot, or two
    dots in a row, make an empty label. *)
Fixpoint dns_labels (t : bytes) : list bytes :=
  match t with
  | [] => []
  | c :: t' =>
      if c =? DOT then [] :: dns_labels t'
      else match dns_labels t' with
           | l :: ls => (c :: l) :: ls
           | [] => [[c]]
           end
  end.

Definition label_wire (l : bytes) : bytes := len l :: l.
Definition name_wire (ls : list bytes) : bytes := concat (map label_wire ls).

Definition label_okb (l : bytes) : bool := (1 <=? len l) && (len l <=? 63).

(** The encoded name, when every label fits and the name ends before byte 500. *)
Definition encode_name (t : bytes) : option bytes :=
  let ls := dns_labels t in
  if forallb label_okb ls && (12 + len (name_wire ls) <=? 500) then Some (name_wire ls) else None.

(** One question, recursion desired, type A, class IN. *)
Definition query_message (id : Z) (name : bytes) : bytes :=
  be16 id ++ be16 0x0100 ++ be16 1 ++ [0; 0; 0; 0; 0; 0] ++ name ++ [0] ++ be16 1 ++ be16 1.

(** The 512-byte buffer that starts with [a], zeros behind. *)
Definition buffer (a : bytes) : bytes := a ++ replicate (512 - length a) 0.

Definition dotless (l : bytes) : Prop := Forall (fun c => c <> DOT) l.

Lemma dns_labels_app l t :
  dotless l -> dns_labels (l ++ DOT :: t) = l :: dns_labels t.
Proof.
  induction 1 as [|c l Hc _ IH]; [done|]. cbn [app dns_labels]. apply Z.eqb_neq in Hc.
  by rewrite Hc, IH.
Qed.

Lemma dns_labels_last l : dotless l -> l <> [] -> dns_labels l = [l].
Proof.
  induction 1 as [|c l Hc _ IH]; [done|]. intros _. cbn [dns_labels]. apply Z.eqb_neq in Hc.
  rewrite Hc. destruct l as [|x l]; [done|]. by rewrite IH.
Qed.

Lemma span_label t : exists l r, t = l ++ r /\ dotless l /\ (r = [] \/ exists t', r = DOT :: t').
Proof.
  induction t as [|c t (l & r & -> & Hl & Hr)].
  - exists [], []. repeat split; [constructor|by left].
  - destruct (Z.eq_dec c DOT) as [->|Hc].
    + exists [], (DOT :: l ++ r). repeat split; [constructor|right; by eexists].
    + exists (c :: l), r. repeat split; [by constructor|done].
Qed.

Lemma buffer_length a : (length a <= 512)%nat -> length (buffer a) = 512%nat.
Proof. intros. unfold buffer. rewrite length_app, length_replicate. lia. Qed.

Lemma buffer_push a c : (length a < 512)%nat -> wr (buffer a) (len a) c = Some (buffer (a ++ [c])).
Proof.
  intros Ha. rewrite wr_Some by (rewrite buffer_length by lia; lia). f_equal. unfold buffer.
  rewrite Nat2Z.id, length_app. cbn [length].
  replace (512 - length a)%nat with (S (512 - (length a + 1))) by lia. cbn [replicate].
  rewrite insert_app_r_alt by lia. rewrite Nat.sub_diag. by rewrite <- app_assoc.
Qed.

Lemma buffer_set a x l c :
  wr (buffer (a ++ x :: l)) (len a) c = Some (buffer (a ++ c :: l)) \/ (512 < length (a ++ x :: l))%nat.
Proof.
  destruct (decide (length (a ++ x :: l) <= 512)%nat); [left|right; lia].
  rewrite wr_Some by (rewrite buffer_length by done; rewrite length_app in *; cbn [length] in *; lia).
  f_equal. unfold buffer. rewrite !length_app. cbn [length]. rewrite Nat2Z.id, <- !app_assoc.
  by rewrite insert_app_r_alt, Nat.sub_diag by lia.
Qed.

Lemma buffer_put16 a v :
  (length a <= 510)%nat -> put16 (buffer a) (len a) v = Some (buffer (a ++ be16 v)).
Proof.
  intros Ha. unfold put16. rewrite buffer_push by lia. cbn [mbind option_bind].
  replace (len a + 1) with (len (a ++ [u8 (Z.shiftr v 8)])) by (rewrite length_app; cbn [length]; lia).
  rewrite buffer_push by (rewrite length_app; cbn [length]; lia). rewrite <- app_assoc. done.
Qed.

(** ** The loops *)

Section loops.
Context (s : bytes).

Lemma label_loop_spec fuel l r a p n :
  cstr s p (l ++ r) -> dotless l -> (r = [] \/ exists t, r = DOT :: t) ->
  (length l < fuel)%nat -> len a <= 500 -> 0 <= n <= 63 ->
  label_loop fuel s p (buffer a) (len a) n
  = Some (if (n + len l <=? 63) && (len a + len l <=? 500)
          then Label (buffer (a ++ l)) (p + len l) (len a + len l) (n + len l) else LabelTooLong).
Proof.
  revert l a p n. induction fuel as [|fuel IH]; intros l a p n Hs Hl Hr Hf Ha Hn; [lia|].
  cbn [label_loop]. rewrite (cstr_rd _ _ _ Hs). cbn [mbind option_bind].
  destruct l as [|c l]; cbn [app length] in *.
  - rewrite app_nil_r, !Z.add_0_r.
    destruct (Z.leb_spec n 63), (Z.leb_spec (len a) 500); try lia.
    destruct Hr as [->|[t ->]]; reflexivity.
  - inversion Hl as [|? ? Hc Hl']; subst. cbn [head0].
    pose proof (cstr_nonzero _ _ _ Hs) as Hz. inversion Hz as [|? ? Hc0 _]; subst.
    apply Z.eqb_neq in Hc, Hc0. rewrite Hc, Hc0. cbn [negb andb].
    destruct (Z.leb_spec 63 n); cbn [orb].
    { destruct (Z.leb_spec (n + Z.of_nat (S (length l))) 63); [lia|done]. }
    destruct (Z.leb_spec 500 (len a)).
    { destruct (Z.leb_spec (len a + Z.of_nat (S (length l))) 500); [lia|by rewrite andb_false_r]. }
    rewrite buffer_push by lia. cbn [mbind option_bind].
    replace (len a + 1) with (len (a ++ [c])) by (rewrite length_app; cbn [length]; lia).
    rewrite (IH l); [|by apply (cstr_app s p [c] (l ++ r))|done|done|lia|rewrite length_app; cbn [length]; lia|lia].
    rewrite length_app, <- app_assoc. cbn [length app]. rewrite !Nat2Z.inj_add, !Nat2Z.inj_succ.
    change (Z.of_nat 0) with 0.
    replace (n + 1 + len l) with (n + Z.succ (len l)) by lia.
    replace (len a + Z.succ 0 + len l) with (len a + Z.succ (len l)) by lia.
    replace (p + 1 + len l) with (p + Z.succ (len l)) by lia. done.
Qed.

Definition acceptb (n : Z) (t : bytes) : bool :=
  forallb label_okb (dns_labels t) && (n + len (name_wire (dns_labels t)) <=? 500).

Lemma acceptb_cons n l r :
  dotless l -> l ++ r <> [] -> (r = [] \/ exists t, r = DOT :: t) ->
  acceptb n (l ++ r) = label_okb l && acceptb (n + 1 + len l) (tail r) /\
  name_wire (dns_labels (l ++ r)) = label_wire l ++ name_wire (dns_labels (tail r)).
Proof.
  intros Hl Hne Hr.
  assert (E : dns_labels (l ++ r) = l :: dns_labels (tail r)).
  { destruct Hr as [->|[t ->]]; [|by apply dns_labels_app].
    rewrite app_nil_r in *. by apply dns_labels_last. }
  unfold acceptb. rewrite E. split; [|done]. cbn [forallb]. rewrite <- andb_assoc. do 2 f_equal.
  unfold name_wire. cbn [map concat]. rewrite length_app. unfold label_wire at 1. cbn [length].
  f_equal. lia.
Qed.

Lemma buffer_zero a : (length a < 512)%nat -> buffer a = buffer (a ++ [0]).
Proof.
  intros Ha. unfold buffer. rewrite length_app, <- app_assoc. cbn [length].
  by replace (512 - length a)%nat with (S (512 - (length a + 1))) by lia.
Qed.

(** What the induction hypothesis of [name_loop_spec] says. *)
Definition name_loop_ok (fuel : nat) (t a : bytes) (p : Z) : Prop :=
  cstr s p t -> (length t < fuel)%nat -> len a <= 500 ->
  if acceptb (len a) t
  then name_loop fuel s p (buffer a) (len a)
       = Some (Name (buffer (a ++ name_wire (dns_labels t)))
                 (len a + len (name_wire (dns_labels t))))
  else exists c, name_loop fuel s p (buffer a) (len a) = Some (NameRejected c).

(** The length byte, the dot, and the next label. *)
Lemma name_step fuel l r a p :
  cstr s p (l ++ r) -> (r = [] \/ exists t, r = DOT :: t) -> (length (l ++ r) < S fuel)%nat ->
  1 <= len l <= 63 -> len a + 1 + len l <= 500 ->
  (forall t a p, name_loop_ok fuel t a p) ->
  let go := 
    q ← wr (buffer ((a ++ [0]) ++ l)) (len a) (u8 (len l));
    c ← rd s (p + len l);
    name_loop fuel s (if c =? DOT then p + len l + 1 else p + len l) q (len (a ++ [0]) + len l) in
  if acceptb (len (a ++ [0]) + len l) (tail r)
  then go = Some (Name (buffer (a ++ label_wire l ++ name_wire (dns_labels (tail r))))
                 (len a + len (label_wire l ++ name_wire (dns_labels (tail r)))))
  else exists c, go = Some (NameRejected c).
Proof.
  intros Hs Hr Hf Hl Ha IH go. unfold go. clear go. rewrite <- app_assoc. cbn [app].
  destruct (buffer_set a 0 l (u8 (len l))) as [->|Hbig];
    [|rewrite length_app in Hbig; cbn [length] in Hbig; lia].
  assert (Hu : u8 (len l) = len l) by (unfold u8; zlia).
  rewrite Hu. cbn [mbind option_bind]. rewrite length_app in Hf.
  pose proof (cstr_app _ _ _ _ Hs) as Hsr. rewrite (cstr_rd _ _ _ Hsr). cbn [mbind option_bind].
  assert (Htl : cstr s (if head0 r =? DOT then p + len l + 1 else p + len l) (tail r)).
  { destruct Hr as [->|[t ->]]; [done|]. by apply (cstr_app s _ [DOT] t). }
  pose proof (IH (tail r) (a ++ label_wire l) _ Htl) as H.
  assert (Hlen : len (a ++ label_wire l) = len (a ++ [0]) + len l)
    by (unfold label_wire; rewrite !length_app; cbn [length]; lia).
  rewrite Hlen in H. fold (label_wire l).
  replace (len a + len (label_wire l ++ name_wire (dns_labels (tail r))))
    with (len (a ++ [0]) + len l + len (name_wire (dns_labels (tail r))))
    by (rewrite <- Hlen, !length_app; lia).
  rewrite app_assoc. apply H; [|rewrite length_app; cbn [length]; lia].
  destruct Hr as [->|[t ->]]; cbn [tail length] in *; lia.
Qed.

Lemma name_loop_spec fuel t a p : name_loop_ok fuel t a p.
Proof.
  revert t a p. induction fuel as [|fuel IH]; intros t a p Hs Hf Ha; [lia|].
  cbn [name_loop]. rewrite (cstr_rd _ _ _ Hs). cbn [mbind option_bind].
  destruct (decide (t = [])) as [->|Hne].
  { unfold acceptb. cbn. change (Z.of_nat 0) with 0. rewrite app_nil_r, Z.add_0_r.
    destruct (Z.leb_spec (len a) 500); [done|lia]. }
  assert (Hc0 : (head0 t =? 0) = false).
  { pose proof (cstr_nonzero _ _ _ Hs) as Hz. destruct t; [done|]. inversion Hz; subst.
    by apply Z.eqb_neq. }
  rewrite Hc0. destruct (span_label t) as (l & r & -> & Hl & Hr).
  destruct (acceptb_cons (len a) l r Hl Hne Hr) as [-> ->].
  pose proof (cstr_bounds _ _ _ Hs) as [Hp Hlen]. rewrite length_app in Hlen.
  destruct (Z.leb_spec 500 (len a + 1)) as [Hbig|Hsmall].
  { replace (label_okb l && _) with false; [by eexists|]. symmetry. unfold label_okb, acceptb.
    destruct (Z.leb_spec 1 (len l)); [|done].
    destruct (Z.leb_spec (len a + 1 + len l + len (name_wire (dns_labels (tail r)))) 500); [lia|].
    by rewrite !andb_false_r. }
  rewrite buffer_zero by lia.
  replace (len a + 1) with (len (a ++ [0])) by (rewrite length_app; cbn [length]; lia).
  rewrite (label_loop_spec _ l r) by (try done; try lia; rewrite length_app; cbn [length]; lia).
  cbn [mbind option_bind]. rewrite !Z.add_0_l.
  assert (Hla : len (a ++ [0]) = len a + 1) by (rewrite length_app; cbn [length]; lia).
  unfold label_okb. destruct (Z.leb_spec (len l) 63); cbn [andb];
    [|rewrite andb_false_r; by eexists].
  destruct (Z.leb_spec (len (a ++ [0]) + len l) 500) as [H500|H500].
  2: { unfold acceptb.
       destruct (Z.leb_spec (len (a ++ [0]) + len l + len (name_wire (dns_labels (tail r)))) 500);
         [lia|]. rewrite !andb_false_r. by eexists. }
  destruct (Z.eqb_spec (len l) 0) as [Hl0|Hl0].
  { destruct (Z.leb_spec 1 (len l)); [lia|]. by eexists. }
  destruct (Z.leb_spec 1 (len l)); [|lia]. cbn [andb].
  exact (name_step fuel l r a p Hs Hr Hf ltac:(lia) ltac:(lia) IH).
Qed.
End loops.

(** ** The message *)

Lemma query_head q id :
  len q = 512 ->
  (q ← memzero q 0 512; q ← put16 q 0 id; q ← put16 q 2 0x0100; put16 q 4 1)
  = Some (buffer (be16 id ++ be16 0x0100 ++ be16 1 ++ [0; 0; 0; 0; 0; 0])).
Proof.
  intros Hq. change (memzero q 0 512) with (memzero ([] ++ q) 0 512).
  rewrite (memzero_app [] q 0 512) by (done || lia).
  rewrite (drop_ge q 512) by lia. rewrite app_nil_r. reflexivity.
Qed.

Lemma encode_name_bound t name : encode_name t = Some name -> 0 <= len name <= 488.
Proof.
  unfold encode_name. destruct (_ && (_ <=? 500)) eqn:E; [|done]. intros [= <-].
  apply andb_prop in E as [_ E%Z.leb_le]. lia.
Qed.

Lemma query_length id t name : encode_name t = Some name -> len (buffer (query_message id name)) = 512.
Proof.
  intros H%encode_name_bound. rewrite buffer_length; [done|].
  unfold query_message. rewrite !length_app. cbn [length be16]. lia.
Qed.

Lemma dns_query_spec q host t id :
  len q = 512 -> cstr host 0 t ->
  match encode_name t with
  | Some name => dns_query q host id
                 = Some (Name (buffer (query_message id name)) (17 + len name))
  | None => exists c, dns_query q host id = Some (NameRejected c)
  end.
Proof.
  intros Hq Hs. unfold dns_query, encode_name.
  pose proof (query_head q id Hq) as Hh. destruct (memzero q 0 512) as [q1|]; [|done].
  cbn [mbind option_bind] in *. destruct (put16 q1 0 id) as [q2|]; [|done].
  cbn [mbind option_bind] in *. destruct (put16 q2 2 0x0100) as [q3|]; [|done].
  cbn [mbind option_bind] in *. rewrite Hh. cbn [mbind option_bind].
  set (h := be16 id ++ _). change 12 with (len h).
  pose proof (cstr_bounds _ _ _ Hs) as [_ Hlen].
  pose proof (name_loop_spec host (S (length host)) t h 0 Hs ltac:(lia) ltac:(cbn; lia)) as H.
  fold (acceptb (len h) t). destruct (acceptb (len h) t) eqn:Ea; [|destruct H as [c ->]; by exists c].
  rewrite H. cbn [mbind option_bind]. apply andb_prop in Ea as [_ Ea%Z.leb_le].
  set (w := name_wire (dns_labels t)) in *.
  rewrite <- Nat2Z.inj_add, <- length_app, buffer_push by (rewrite length_app; lia).
  cbn [mbind option_bind].
  replace (len (h ++ w) + 1) with (len ((h ++ w) ++ [0])) by (rewrite length_app; cbn [length]; lia).
  rewrite buffer_put16 by (rewrite !length_app; cbn [length]; lia). cbn [mbind option_bind].
  replace (len ((h ++ w) ++ [0]) + 2) with (len (((h ++ w) ++ [0]) ++ be16 1))
    by (rewrite (length_app _ (be16 1)); cbn [length be16]; lia).
  rewrite buffer_put16 by (rewrite !length_app; cbn [length be16]; lia). cbn [mbind option_bind].
  do 2 f_equal.
  - unfold query_message, h. by rewrite <- !app_assoc.
  - rewrite !length_app. cbn [length be16]. unfold h. cbn [length app be16]. lia.
Qed.

(** C32. The DNS question: for every host name, [dns_lookup]'s message is exactly
    the header, the labels of the name behind their lengths, the root, type A and
    class IN, zeros behind, when each label has between 1 and 63 bytes and the
    encoded name ends by byte 500 of the message; every other name is rejected. *)
Theorem dns_query_correct q host t id :
  len q = 512 -> cstr host 0 t ->
  match encode_name t with
  | Some name => dns_query q host id
                 = Some (Name (buffer (query_message id name)) (17 + len name))
  | None => exists c, dns_query q host id = Some (NameRejected c)
  end.
Proof. exact (dns_query_spec q host t id). Qed.

Lemma dns_query_correct_witness :
  dns_query (replicate 512 7) (lit "a.un") 0x4001
  = Some (Name (buffer (query_message 0x4001 [1; 97; 2; 117; 110])) 22) /\
  exists c, dns_query (replicate 512 7) (lit "a..un") 0x4001 = Some (NameRejected c).
Proof.
  split.
  - apply (dns_query_correct (replicate 512 7) (lit "a.un") (chars "a.un") 0x4001); [done|].
    apply cstr_lit. by repeat constructor.
  - apply (dns_query_correct (replicate 512 7) (lit "a..un") (chars "a..un") 0x4001); [done|].
    apply cstr_lit. by repeat constructor.
Defined.
