(* ===== verification/NetClient.v ===== *)
(** * kernel/net.c: configuration and the blocking clients

    Lines 114-132: initialisation, the accessors, ping, name lookup, and the TCP
    calls [net_tcp_connect], [net_tcp_read], [net_tcp_write], [net_tcp_close].
    Their loops poll until the clock says otherwise; the fuel bounds their turns
    and those of the waits inside a poll. *)

From S2P Require Import Prelude Dhcp NetEnv Cstr Http Wire Net NetRx DnsQuery.

(** What net.c calls besides the clock, the adapter and its own files. *)
Class NetDevice (E : Type) := {
  netdev_init : bytes -> E -> Z * bytes * E;
  netdev_name : E -> bytes;
  serial_write : bytes -> E -> E
}.

Definition set_dns_id (v : Z) (d : dns_state) : dns_state :=
  mk_dns (dns_done d) v (dns_port d) (dns_answer d).
Definition set_dns_port (v : Z) (d : dns_state) : dns_state :=
  mk_dns (dns_done d) (dns_id d) v (dns_answer d).
Definition set_mac (m : bytes) (i : netif) : netif :=
  mk_if m (ip_addr i) (netmask i) (gateway i) (dns_ip i) (gateway_mac i) (gateway_mac_valid i)
    (ready i) (rx_count i) (tx_count i) (ip_id i) (next_src_port i).
Definition set_ready (r valid : Z) (i : netif) : netif :=
  mk_if (mac i) (ip_addr i) (netmask i) (gateway i) (dns_ip i) (gateway_mac i) valid r (rx_count i)
    (tx_count i) (ip_id i) (next_src_port i).
Definition set_addresses (ip mask gw dns : bytes) (i : netif) : netif :=
  mk_if (mac i) ip mask gw dns (gateway_mac i) 0 (ready i) (rx_count i) (tx_count i) (ip_id i)
    (next_src_port i).
Definition set_src_port (p : Z) (i : netif) : netif :=
  mk_if (mac i) (ip_addr i) (netmask i) (gateway i) (dns_ip i) (gateway_mac i) (gateway_mac_valid i)
    (ready i) (rx_count i) (tx_count i) (ip_id i) p.

(** ** Text of net_init (line 119) *)

Definition hex_table : bytes := chars "0123456789ABCDEF".

(** [for(int i=0;i<6;i++)]: the strings written. *)
Fixpoint mac_texts (k : nat) (mac : bytes) (i : Z) : option (list bytes) :=
  match k with
  | O => Some []
  | S k' =>
      m ← rd mac i;
      hi ← rd hex_table (Z.shiftr m 4);
      lo ← rd hex_table (Z.land m 15);
      rest ← mac_texts k' mac (i + 1);
      Some ([hi; lo; if i =? 5 then CR else COLON; 0] :: rest)
  end.

Section client.
Context {E : Type} `{!NetEnv E, !NetDevice E}.
(** Uninitialised local arrays: [stack n] is one of [n] bytes. *)
Context (stack : Z -> bytes).

Definition log_all (texts : list bytes) (e : E) : E := fold_left (fun e t => serial_write t e) texts e.

Definition net_init (s : net) (e : E) : res (Z * net * E) :=
  let '(ok, m, e) := netdev_init (mac (nif s)) e in
  let s := upd_if (set_mac m) s in
  if ok =? 0 then
    Ok (0, s, serial_write (chars "NET: no supported adapter found" ++ [CR; LF; 0]) e)
  else
    let s := upd_if (set_ready 1 0) s in
    let e := log_all [lit "NET: "; netdev_name e; lit " ready MAC="] e in
    texts ← ub (mac_texts 6 (mac (nif s)) 0);
    let e := serial_write [LF; 0] (log_all texts e) in
    '(s, e) ← send_arp_request stack (gateway (nif s)) s e;
    Ok (1, s, e).

Definition net_ready (s : net) : Z := ready (nif s).
Definition net_driver_name (s : net) (e : E) : bytes :=
  if negb (ready (nif s) =? 0) then netdev_name e else lit "none".
Definition net_get_mac (s : net) (out : bytes) : option bytes := memcopy out 0 (mac (nif s)) 0 6.
Definition net_get_ipv4 (s : net) (out : bytes) : option bytes := memcopy out 0 (ip_addr (nif s)) 0 4.
Definition net_get_gateway (s : net) (out : bytes) : option bytes := memcopy out 0 (gateway (nif s)) 0 4.
Definition net_rx_packets (s : net) : Z := rx_count (nif s).
Definition net_tx_packets (s : net) : Z := tx_count (nif s).

Definition net_configure (ip mask gw dns : bytes) (s : net) (e : E) : res (net * E) :=
  ip ← ub (memcopy (ip_addr (nif s)) 0 ip 0 4);
  mask ← ub (memcopy (netmask (nif s)) 0 mask 0 4);
  gw ← ub (memcopy (gateway (nif s)) 0 gw 0 4);
  dns ← ub (memcopy (dns_ip (nif s)) 0 dns 0 4);
  let s := upd_if (set_addresses ip mask gw dns) s in
  send_arp_request stack (gateway (nif s)) s e.

(** [while(!elapsed(st,ms)&&go){net_poll();if(stop)...}]: the waiting loops.
    [go] is tested after the clock, [stop] after the poll; the flag is true when
    [stop] ended the loop. *)
Fixpoint wait (fuel : nat) (ms st : Z) (go stop : net -> bool) (s : net) (e : E) : res (bool * net * E) :=
  match fuel with
  | O => NoFuel
  | S f =>
      let '(over, e) := elapsed st ms e in
      if (over : bool) || negb (go s) then Ok (false, s, e)
      else
        '(s, e) ← net_poll stack f s e;
        if stop s then Ok (true, s, e) else wait f ms st go stop s e
  end.

Definition always (_ : net) : bool := true.
Definition never (_ : net) : bool := false.

Definition net_ping_gateway (fuel : nat) (timeout_ms : Z) (s : net) (e : E) : res (Z * net * E) :=
  if ready (nif s) =? 0 then Ok (0, s, e)
  else
    let s := upd_icmp (set_icmp_reply 0) s in
    '(s, e) ← send_icmp_echo stack (send_ip stack fuel) (gateway (nif s)) s e;
    let '(st, e) := now_ms e in
    '(replied, s, e) ← wait fuel timeout_ms st always (fun s => negb (icmp_reply (nicmp s) =? 0)) s e;
    Ok (if (replied : bool) then 1 else 0, s, e).

(** [while(!elapsed(st,4000))] of [dns_lookup]; the answer is copied to [out]. *)
Fixpoint dns_wait (fuel : nat) (q : bytes) (o st last : Z) (out : bytes) (s : net) (e : E)
  : res (Z * bytes * net * E) :=
  match fuel with
  | O => NoFuel
  | S f =>
      let '(over, e) := elapsed st 4000 e in
      if (over : bool) then Ok (0, out, s, e)
      else
        let '(now, e) := now_ms e in
        '(last, s, e) ←
          (if (last =? 0xffffffff) || (800 <? u32 (now - last)) then
             '(s, e) ← send_udp stack (send_ip stack f) (dns_ip (nif s)) (dns_port (ndns s)) 53 q (u16 o) s e;
             Ok (now, s, e)
           else Ok (last, s, e));
        '(s, e) ← net_poll stack f s e;
        if 0 <? dns_done (ndns s) then
          out ← ub (memcopy out 0 (dns_answer (ndns s)) 0 4);
          Ok (1, out, s, e)
        else if dns_done (ndns s) <? 0 then Ok (0, out, s, e)
        else dns_wait f q o st last out s e
  end.

(** [dns_id=0;dns_port=0;] *)
Definition dns_clear (s : net) : net := upd_dns (fun d => set_dns_port 0 (set_dns_id 0 d)) s.

(** [host] is not null: it is read before it is tested. *)
Definition dns_lookup (fuel : nat) (host out : bytes) (s : net) (e : E) : res (Z * bytes * net * E) :=
  '(ok, out) ← ub (parse_ipv4 host out);
  if negb (ok =? 0) then Ok (1, out, s, e)
  else
    c ← ub (rd host 0);
    if c =? 0 then Ok (0, out, s, e)
    else
      let '(t, e) := timer_ticks e in
      let s := upd_dns (set_dns_id (u16 (0x4000 + Z.land t 0x3fff))) s in
      r ← ub (dns_query (stack 512) host (dns_id (ndns s)));
      match r with
      | NameRejected cleared => Ok (0, out, if cleared : bool then upd_dns (set_dns_id 0) s else s, e)
      | Name q o =>
          let s := upd_dns (set_dns_done 0) s in
          let '(t, e) := timer_ticks e in
          let s := upd_dns (set_dns_port (u16 (50000 + t mod 1000))) s in
          let '(st, e) := now_ms e in
          '(ok, out, s, e) ← dns_wait fuel q o st 0xffffffff out s e;
          Ok (ok, out, dns_clear s, e)
      end.

Definition net_dns_lookup (fuel : nat) (host out : bytes) (s : net) (e : E) : res (Z * bytes * net * E) :=
  if ready (nif s) =? 0 then Ok (0, out, s, e) else dns_lookup fuel host out s e.

(** ** TCP *)

(** From [memcopy(tcp_peer_ip,...)] to [tcp_out_len=0]. *)
Definition tcp_open (dest : bytes) (port ticks : Z) (s : net) : option net :=
  peer ← memcopy (tcp_peer_ip (ntcp s)) 0 dest 0 4;
  let local := next_src_port (nif s) in
  let next := u16 (local + 1) in
  let s := upd_if (set_src_port (if next <? 49152 then 49152 else next)) s in
  let iss := u32 (0x13570000 + u32 ticks) in
  Some (upd_tcp (fun t => mk_tcp 1 peer local port iss iss iss 0 (tcp_stream_buf t) (Ptr tt) 32768 0) s).

(** [scopy(status,status_cap,why);return 0;] *)
Definition tcp_fail (why : bytes) (status : ptr bytes) (status_cap : Z) (s : net) (e : E)
  : res (Z * ptr bytes * net * E) :=
  st ← ub (scopy status status_cap (Ptr why)); Ok (0, st, s, e).

Definition net_tcp_connect (fuel : nat) (host : ptr bytes) (port : Z) (status : ptr bytes)
    (status_cap : Z) (s : net) (e : E) : res (Z * ptr bytes * net * E) :=
  match host with
  | Null => tcp_fail (lit "TCP unavailable") status status_cap s e
  | Ptr host =>
      if (ready (nif s) =? 0) || (port =? 0) then tcp_fail (lit "TCP unavailable") status status_cap s e
      else
        '(ok, dest, s, e) ← dns_lookup fuel host (stack 4) s e;
        if ok =? 0 then tcp_fail (lit "DNS failed") status status_cap s e
        else
          '(nh, s, e) ← resolve_next_hop stack fuel dest s e;
          match nh with
          | None => tcp_fail (lit "ARP failed") status status_cap s e
          | Some _ =>
              let '(t, e) := timer_ticks e in
              s ← ub (tcp_open dest port t s);
              '(s, e) ← send_tcp stack (send_ip stack fuel) 0x02 Null 0 s e;
              let '(st, e) := now_ms e in
              '(_, s, e) ← wait fuel 4000 st (fun s => tcp_event (ntcp s) =? 1) never s e;
              if negb (tcp_event (ntcp s) =? 2)
              then tcp_fail (lit "TCP connect failed") status status_cap s e
              else Ok (1, status, s, e)
          end
  end.

(** [for(size_t i=n;i<tcp_out_len;i++)tcp_out[i-n]=tcp_out[i];] *)
Fixpoint shift_loop (k : nat) (b : bytes) (n i : Z) : option bytes :=
  match k with
  | O => Some b
  | S k' => v ← rd b i; b ← wr b (i - n) v; shift_loop k' b n (i + 1)
  end.

(** The bytes taken and what is left. *)
Definition tcp_take (data : bytes) (cap : Z) (t : tcp_state) : option (Z * bytes * tcp_state) :=
  let n := if tcp_out_len t <? cap then tcp_out_len t else cap in
  match tcp_out t with
  | Null => None
  | Ptr _ =>
      data ← copy_from (Z.to_nat n) data 0 (tcp_stream_buf t) 0;
      b ← shift_loop (Z.to_nat (tcp_out_len t - n)) (tcp_stream_buf t) n n;
      Some (n, data, set_stream b (tcp_out_len t - n) t)
  end.

(** [for(;;)] *)
Fixpoint tcp_read_loop (fuel : nat) (data : bytes) (cap timeout_ms st : Z) (s : net) (e : E)
  : res (Z * bytes * net * E) :=
  match fuel with
  | O => NoFuel
  | S f =>
      if negb (tcp_out_len (ntcp s) =? 0) then
        '(n, data, t) ← ub (tcp_take data cap (ntcp s));
        Ok (n, data, upd_tcp (fun _ => t) s, e)
      else if (tcp_event (ntcp s) <? 0) || (tcp_event (ntcp s) =? 4) then Ok (-1, data, s, e)
      else
        let '(over, e) := elapsed st timeout_ms e in
        if (over : bool) then Ok (-1, data, s, e)
        else
          '(s, e) ← net_poll stack f s e;
          tcp_read_loop f data cap timeout_ms st s e
  end.

(** [data] is the buffer behind a pointer that is not null. *)
Definition net_tcp_read (fuel : nat) (data : bytes) (cap timeout_ms : Z) (s : net) (e : E)
  : res (Z * bytes * net * E) :=
  if cap =? 0 then Ok (-1, data, s, e)
  else
    let '(st, e) := now_ms e in
    tcp_read_loop fuel data cap timeout_ms st s e.

(** [while(tcp_snd_una<want&&!elapsed(st,timeout_ms)&&tcp_event>=0)] *)
Fixpoint write_wait (fuel : nat) (want timeout_ms st : Z) (s : net) (e : E) : res (net * E) :=
  match fuel with
  | O => NoFuel
  | S f =>
      if tcp_snd_una (ntcp s) <? want then
        let '(over, e) := elapsed st timeout_ms e in
        if (over : bool) || (tcp_event (ntcp s) <? 0) then Ok (s, e)
        else '(s, e) ← net_poll stack f s e; write_wait f want timeout_ms st s e
      else Ok (s, e)
  end.

(** [while(off<len)]: one segment of at most 1200 bytes a turn. *)
Fixpoint tcp_write_loop (k fuel : nat) (data : bytes) (len off timeout_ms : Z) (s : net) (e : E)
  : res (Z * net * E) :=
  match k with
  | O => NoFuel
  | S k' =>
      if off <? len then
        let n := len - off in
        let n := if 1200 <? n then 1200 else n in
        '(s, e) ← send_tcp stack (send_ip stack fuel) 0x18 (Ptr (drop (Z.to_nat off) data)) (u16 n) s e;
        let want := tcp_snd_nxt (ntcp s) in
        let '(st, e) := now_ms e in
        '(s, e) ← write_wait fuel want timeout_ms st s e;
        if tcp_snd_una (ntcp s) <? want then Ok (0, s, e)
        else tcp_write_loop k' fuel data len (off + n) timeout_ms s e
      else Ok (1, s, e)
  end.

Definition net_tcp_write (fuel : nat) (data : ptr bytes) (len timeout_ms : Z) (s : net) (e : E)
  : res (Z * net * E) :=
  match data with
  | Null => if negb (len =? 0) then Ok (0, s, e) else Ok (1, s, e)
  | Ptr data => tcp_write_loop (S (Z.to_nat len)) fuel data len 0 timeout_ms s e
  end.

(** [tcp_event=0;tcp_out=0;tcp_out_cap=tcp_out_len=0;] *)
Definition tcp_reset (t : tcp_state) : tcp_state :=
  mk_tcp 0 (tcp_peer_ip t) (tcp_local_port t) (tcp_peer_port t) (tcp_iss t) (tcp_snd_nxt t)
    (tcp_snd_una t) (tcp_rcv_nxt t) (tcp_stream_buf t) Null 0 0.

Definition net_tcp_close (fuel : nat) (s : net) (e : E) : res (net * E) :=
  '(s, e) ←
    (if (2 <=? tcp_event (ntcp s)) && negb (tcp_event (ntcp s) =? 4) then
       '(s, e) ← send_tcp stack (send_ip stack fuel) 0x11 Null 0 s e;
       let '(st, e) := now_ms e in
       '(_, s, e) ← wait fuel 300 st
          (fun s => (0 <=? tcp_event (ntcp s)) && negb (tcp_event (ntcp s) =? 4)) never s e;
       Ok (s, e)
     else Ok (s, e));
  Ok (upd_tcp tcp_reset s, e).
End client.
