(* ===== verification/NetSession.v ===== *)
(** * kernel/net.c: sessions of the blocking clients

    What the calls of NetClient guarantee on any traffic: they stay inside their
    buffers, and a TCP connection delivers the peer's stream in order from the
    first byte to the last read. *)

From S2P Require Import Prelude Dhcp NetEnv Cstr Http Wire Net NetRx DnsQuery NetClient.

(** ** Dotted quads *)

Lemma octet_loop_safe fuel s p v n t :
  cstr s p t -> (length t < fuel)%nat -> 0 <= v <= 255 ->
  returns (octet_loop fuel s p v n) (fun r =>
    match r with Some (p', v', _) => 0 <= v' <= 255 /\ exists t', cstr s p' t' | None => True end).
Proof.
  revert p v n t. induction fuel as [|fuel IH]; intros p v n t Hs Hf Hv; [lia|].
  cbn [octet_loop]. rewrite (cstr_rd _ _ _ Hs). cbn [mbind option_bind].
  destruct (is_digit (head0 t)) eqn:Ed.
  2: { eexists. split; [done|]. split; [lia|by eexists]. }
  destruct t as [|c t]; [done|]. cbn [head0 length] in *.
  apply andb_prop in Ed as [E1%Z.leb_le E2%Z.leb_le].
  destruct (Z.ltb_spec 255 (v * 10 + (c - 48))); [by eexists|].
  apply (IH _ _ _ t); [by apply (cstr_app s p [c] t)|lia|lia].
Qed.

Lemma parse_ipv4_safe s t out :
  cstr s 0 t -> addr_ok 4 out -> returns (parse_ipv4 s out) (fun '(_, out') => addr_ok 4 out').
Proof.
  intros Hs Ho. unfold parse_ipv4.
  assert (G : forall k p i t out, cstr s p t -> addr_ok 4 out -> 0 <= i -> i + Z.of_nat k = 4 ->
    returns (parse_ipv4_loop k s p i out) (fun '(_, out') => addr_ok 4 out')).
  2: { by apply (G 4%nat 0 0 t). }
  clear t out Hs Ho. induction k as [|k IH]; intros p i t out Hs Ho Hi Hk; cbn [parse_ipv4_loop].
  { rewrite (cstr_rd _ _ _ Hs). by eexists. }
  pose proof (cstr_bounds _ _ _ Hs).
  eapply returns_bind; [apply (octet_loop_safe _ s p 0 0 t); [done|lia|lia]|].
  intros [[[p1 v] n]|]; [|by eexists]. intros [Hv [t1 Ht1]]. case_if; [by eexists|].
  assert (Ho' : addr_ok 4 (<[Z.to_nat i := u8 v]> out)).
  { destruct Ho as [H1 H2]. split; [by rewrite length_insert|].
    apply Forall_insert; [done|]. apply u8_range. }
  destruct Ho as [Hl _]. rewrite wr_Some by lia. cbn [mbind option_bind].
  destruct (Z.ltb_spec i 3).
  - rewrite (cstr_rd _ _ _ Ht1). cbn [mbind option_bind].
    destruct (Z.eqb_spec (head0 t1) DOT) as [Edot|]; cbn [negb]; [|by eexists].
    destruct t1 as [|c t1]; [done|]. apply (IH _ _ t1); [by apply (cstr_app s p1 [c] t1)|done|lia|lia].
  - apply (IH _ _ t1); try done; lia.
Qed.

(** ** The calls keep an invariant of reception *)
Section calls.
Context {E : Type} `{!NetEnv E, !NetDevice E}.
Context (stack : Z -> bytes).
Hypothesis stack_ok : forall n, 0 <= n -> addr_ok n (stack n).
Context (I : net -> Prop) (seg : segment -> Prop) `{!RxInvariant I seg}.

(** Whatever arrives while [I] holds is well formed, and the segments of the
    connection are as [seg] says. *)
Definition traffic : Prop := forall (e : E) s, I s ->
  Forall (fun f => frame_ok f /\ seg_ok seg s f) (fst (netdev_poll e)).
Hypothesis frames : traffic.

Let anywhere (_ : net) (_ : bytes) : Prop := True.

Lemma due_frames (e : E) s : I s ->
  Forall (fun f => frame_ok f /\ frame_due seg anywhere s f) (fst (netdev_poll e)).
Proof.
  intros Hs. eapply List.Forall_impl; [|by apply (frames e s)]. intros f [H1 H2].
  split; [done|by split].
Qed.

Lemma poll_keeps fuel s e : I s -> safe True (net_poll stack fuel s e) (kept I s).
Proof. intros Hs. apply (net_poll_keeps stack stack_ok I seg); [exact due_frames|done]. Qed.

Lemma send_ip_keeps fuel : send_keeps (E := E) I True anywhere (send_ip stack fuel).
Proof.
  apply (send_ip_packet_keeps stack stack_ok I seg).
  apply (resolve_with_keeps I seg). intros.
  apply (resolve_loop_keeps stack stack_ok I seg); try done. exact due_frames.
Qed.

Lemma tcp_send_keeps fuel flags data n s e :
  I s -> sendable data n -> safe True (send_tcp stack (send_ip stack fuel) flags data n s e) (kept I s).
Proof.
  intros Hs Hn. apply (send_tcp_keeps stack stack_ok I seg True anywhere); try done.
  apply send_ip_keeps.
Qed.

Lemma udp_send_keeps fuel dest sport dport data n s e :
  I s -> addr_ok 4 dest -> 0 <= n <= 1480 -> n <= len data ->
  safe True (send_udp stack (send_ip stack fuel) dest sport dport data n s e) (kept I s).
Proof.
  intros Hs Hd Hn Hl. unfold send_udp. destruct (stack_ok 1500) as [L1 _]; [lia|].
  assert (H : returns (udp_datagram (stack 1500) sport dport data n) (fun p => len p = 1500)).
  { unfold udp_datagram.
    do 4 (eapply returns_bind; [apply put16_safe; lia|]; intros ? ?; cbv beta in * ).
    eapply returns_mono; [apply memcopy_safe; lia|]. cbv beta. intros. lia. }
  destruct H as (p & -> & Hp). cbn [ub mbind res_bind].
  apply send_ip_keeps; [done|unfold is_byte, IP_UDP; lia|done|done|].
  rewrite u16_id by lia. lia.
Qed.

Lemma wait_keeps fuel ms st go stop s e :
  I s -> safe True (wait stack fuel ms st go stop s e)
    (fun '(b, s', e') => kept I s (s', e') /\ (b = true -> stop s' = true)).
Proof.
  revert s e. induction fuel as [|fuel IH]; intros s e Hs; [done|]. cbn [wait].
  destruct (elapsed st ms e) as [over e1]. case_match; [by repeat split|].
  eapply safe_bind; [by apply poll_keeps|]. intros [s1 e2] [H1 C1]. cbn [fst] in *.
  destruct (stop s1) eqn:Es; [split; [by split|done]|].
  eapply safe_mono; [by apply IH|]. intros [[b s2] e3] [[H2 C2] Hb]. cbn [fst] in *.
  split; [|done]. split; [done|]. cbn [fst]. by etransitivity.
Qed.

(** ** Name lookup *)

(** The lookup also sets the identifier and the port of the query. *)
Hypothesis inv_dns_id : forall s v, I s -> I (upd_dns (set_dns_id v) s).
Hypothesis inv_dns_port : forall s v, I s -> I (upd_dns (set_dns_port v) s).

Definition looked_up (s : net) (x : Z * bytes * net * E) : Prop :=
  let '(_, out, s', e') := x in kept I s (s', e') /\ addr_ok 4 out.

Lemma dns_wait_keeps fuel q o st last out s e :
  I s -> len q = 512 -> 0 <= o <= 512 -> addr_ok 4 out ->
  safe True (dns_wait stack fuel q o st last out s e) (looked_up s).
Proof.
  revert last s e. induction fuel as [|fuel IH]; intros last s e Hs Hq Ho Hout; [done|].
  cbn [dns_wait]. destruct (elapsed st 4000 e) as [over e1].
  destruct over; [by split; [split|]|].
  destruct (now_ms e1) as [now e2].
  apply safe_bind with (P := fun '(_, s', e') => kept I s (s', e')).
  { destruct (_ || _); [|by split].
    eapply safe_bind; [apply udp_send_keeps; [done| | |]|by intros [s1 e3]].
    - by destruct (inv_ok s Hs) as ((_ & _ & _ & _ & ? & _) & _).
    - rewrite u16_id; lia.
    - rewrite u16_id; lia. }
  intros [[last1 s1] e3] [H1 C1]. cbn [fst] in *.
  eapply safe_bind; [by apply poll_keeps|]. intros [s2 e4] [H2 C2]. cbn [fst] in *.
  assert (C : same_conf s s2) by (by etransitivity).
  destruct (0 <? dns_done (ndns s2)).
  { destruct (inv_ok s2 H2) as (_ & _ & Ha). unfold memcopy. destruct Hout as [O1 O2], Ha as [A1 A2].
    rewrite copy_from_spec by lia. cbn. split; [by split|]. split.
    - rewrite blit_length; [done|lia|]. rewrite slice_length by lia. lia.
    - apply bytes_ok_blit; [done|]. auto with orion. }
  destruct (dns_done (ndns s2) <? 0); [by split; [split|]|].
  eapply safe_mono; [by apply IH|]. intros [[[ok out'] s3] e5] [[H3 C3] Ho']. cbn [fst] in *.
  split; [|done]. split; [done|]. cbn [fst]. by etransitivity.
Qed.

Lemma dns_clear_keeps s : I s -> I (dns_clear s) /\ same_conf s (dns_clear s).
Proof.
  intros Hs. split; [|by repeat split]. change (dns_clear s)
    with (upd_dns (set_dns_port 0) (upd_dns (set_dns_id 0) s)). auto.
Qed.

Lemma dns_lookup_keeps fuel host t out s e :
  I s -> cstr host 0 t -> addr_ok 4 out ->
  safe True (dns_lookup stack fuel host out s e) (looked_up s).
Proof.
  intros Hs Hh Hout. unfold dns_lookup.
  destruct (parse_ipv4_safe host t out Hh Hout) as ([ok out1] & -> & Ho1).
  cbn [ub mbind res_bind]. destruct (negb (ok =? 0)); [by split; [split|]|].
  rewrite (cstr_rd _ _ _ Hh). cbn [ub mbind res_bind].
  destruct (head0 t =? 0); [by split; [split|]|].
  destruct (timer_ticks e) as [t0 e1]. set (s1 := upd_dns (set_dns_id _) s).
  assert (H1 : I s1 /\ same_conf s s1) by (split; [by apply inv_dns_id|by repeat split]).
  destruct H1 as [H1 C1]. destruct (stack_ok 512) as [Hq _]; [lia|].
  pose proof (dns_query_spec (stack 512) host t (dns_id (ndns s1)) Hq Hh) as Hd.
  destruct (encode_name t) as [name|] eqn:En.
  2: { destruct Hd as [c ->]. cbn [ub mbind res_bind].
       assert (H2 : kept I s (if c then upd_dns (set_dns_id 0) s1 else s1, e1)).
       { destruct c; [|by split]. split; [by apply inv_dns_id|by repeat split]. }
       by split. }
  rewrite Hd. cbn [ub mbind res_bind].
  set (s2 := upd_dns (set_dns_done 0) s1). destruct (timer_ticks e1) as [t1 e2].
  set (s3 := upd_dns (set_dns_port _) s2). destruct (now_ms e2) as [st e3].
  assert (H3 : I s3) by (apply inv_dns_port; by apply inv_dns_done).
  assert (C3 : same_conf s s3) by (by repeat split).
  pose proof (encode_name_bound _ _ En).
  eapply safe_bind.
  { apply dns_wait_keeps; [done|by apply (query_length _ t)|lia|done]. }
  intros [[[ok2 out2] s4] e4] [[H4 C4] Ho2]. cbn [fst] in *.
  destruct (dns_clear_keeps s4 H4) as [H5 C5].
  split; [|done]. split; [done|]. cbn [fst]. etransitivity; [exact C3|]. by etransitivity.
Qed.
End calls.

(** ** Connecting

    The invariant changes when the variables of the connection are set. *)
Section connect.
Context {E : Type} `{!NetEnv E, !NetDevice E}.
Context (stack : Z -> bytes).
Hypothesis stack_ok : forall n, 0 <= n -> addr_ok n (stack n).
Context (I1 : net -> Prop) (seg1 : segment -> Prop) `{!RxInvariant I1 seg1}.
Context (I2 : net -> Prop) (seg2 : segment -> Prop) `{!RxInvariant I2 seg2}.
Hypothesis frames1 : traffic (E := E) I1 seg1.
Hypothesis frames2 : traffic (E := E) I2 seg2.
Hypothesis inv_id : forall s v, I1 s -> I1 (upd_dns (set_dns_id v) s).
Hypothesis inv_port : forall s v, I1 s -> I1 (upd_dns (set_dns_port v) s).
Context (port : Z).
Hypothesis opens : forall dest ticks s s',
  I1 s -> addr_ok 4 dest -> tcp_open dest port ticks s = Some s' -> I2 s'.

Definition connect_ok (status : ptr bytes) (x : Z * ptr bytes * net * E) : Prop :=
  let '(ok, st', s', e') := x in
  same_object status st' /\ net_ok s' /\ (ok = 0 \/ ok = 1 /\ tcp_event (ntcp s') = 2 /\ I2 s').

Lemma tcp_fail_ok why t status cap s (e : E) :
  cstr why 0 t -> status_ok cap status -> net_ok s ->
  safe True (tcp_fail why status cap s e) (connect_ok status).
Proof.
  intros Hw Hs Hok. unfold tcp_fail. destruct (scopy_status cap status why t Hw Hs) as (st & -> & Hst).
  cbn. split; [done|]. split; [done|by left].
Qed.

Lemma tcp_open_ok dest ticks s :
  net_ok s -> addr_ok 4 dest -> is_Some (tcp_open dest port ticks s).
Proof.
  intros (_ & ([Hpl _] & _) & _) [Hd _]. unfold tcp_open, memcopy.
  rewrite copy_from_spec by lia. by eexists.
Qed.

Lemma connect_keeps fuel host t status cap s (e : E) :
  I1 s -> cstr host 0 t -> status_ok cap status ->
  safe True (net_tcp_connect stack fuel (Ptr host) port status cap s e) (connect_ok status).
Proof.
  intros Hs Hh Hst. unfold net_tcp_connect. destruct (_ || _).
  { by apply (tcp_fail_ok _ _ _ _ _ _ (cstr_text (chars "TCP unavailable") eq_refl)), (inv_ok s Hs). }
  eapply safe_bind; [apply (dns_lookup_keeps stack stack_ok _ _ frames1) with (t := t);
    [done|done|done|done|apply stack_ok; lia]|].
  intros [[[ok dest] s1] e1] [[Hs1 _] Hd]. cbn [fst] in *.
  destruct (ok =? 0).
  { by apply (tcp_fail_ok _ _ _ _ _ _ (cstr_text (chars "DNS failed") eq_refl)), (inv_ok s1 Hs1). }
  eapply safe_bind; [by apply (resolve_next_hop_keeps stack stack_ok I1 seg1);
    [apply (due_frames _ _ frames1)|..]|].
  intros [[nh s2] e2] [[Hs2 _] _]. cbn [fst] in *. pose proof (inv_ok s2 Hs2) as Hok2.
  destruct nh as [nh|].
  2: { by apply (tcp_fail_ok _ _ _ _ _ _ (cstr_text (chars "ARP failed") eq_refl)). }
  destruct (timer_ticks e2) as [ticks e3].
  destruct (tcp_open_ok dest ticks s2 Hok2 Hd) as [s3 Eo]. rewrite Eo. cbn [ub mbind res_bind].
  pose proof (opens dest ticks s2 s3 Hs2 Hd Eo) as H3.
  eapply safe_bind; [apply (tcp_send_keeps stack stack_ok _ _ frames2); [done|split; [lia|done]]|].
  intros [s4 e4] [H4 _]. cbn [fst] in *. destruct (now_ms e4) as [st e5].
  eapply safe_bind; [by apply (wait_keeps stack stack_ok _ _ frames2)|].
  intros [[b s5] e6] [[H5 _] _]. cbn [fst] in *. pose proof (inv_ok s5 H5) as Hok5.
  destruct (Z.eqb_spec (tcp_event (ntcp s5)) 2) as [Hev|]; cbn [negb].
  - cbn. split; [apply same_object_refl|]. split; [done|by right].
  - by apply (tcp_fail_ok _ _ _ _ _ _ (cstr_text (chars "TCP connect failed") eq_refl)).
Qed.
End connect.

(** ** Writing and closing *)
Section write.
Context {E : Type} `{!NetEnv E, !NetDevice E}.
Context (stack : Z -> bytes).
Hypothesis stack_ok : forall n, 0 <= n -> addr_ok n (stack n).
Context (I : net -> Prop) (seg : segment -> Prop) `{!RxInvariant I seg}.
Hypothesis frames : traffic (E := E) I seg.

Lemma write_wait_keeps fuel want ms st s e :
  I s -> safe True (write_wait stack fuel want ms st s e) (kept I s).
Proof.
  revert s e. induction fuel as [|fuel IH]; intros s e Hs; [done|]. cbn [write_wait].
  destruct (_ <? want); [|by split]. destruct (elapsed st ms e) as [over e1].
  destruct (_ || _); [by split|].
  eapply safe_bind; [by apply (poll_keeps stack stack_ok _ _ frames)|].
  intros [s1 e2] [H1 C1]. cbn [fst] in *. eapply kept_trans; [exact C1|]. by apply IH.
Qed.

Lemma write_loop_keeps k fuel data n off ms s e :
  I s -> 0 <= off -> n <= len data ->
  safe True (tcp_write_loop stack k fuel data n off ms s e) (fun '(_, s', e') => kept I s (s', e')).
Proof.
  intros Hs Ho Hn. revert off s e Hs Ho. induction k as [|k IH]; intros off s e Hs Ho; [done|].
  cbn [tcp_write_loop]. destruct (Z.ltb_spec off n); [|by split]. cbv zeta.
  set (m := if _ <? _ then _ else _).
  assert (Hm : 0 < m <= 1200 /\ off + m <= n) by (unfold m; case_if; lia).
  rewrite u16_id by lia.
  eapply safe_bind; [apply (tcp_send_keeps stack stack_ok _ _ frames); [done|]|].
  { split; [lia|]. rewrite length_drop. lia. }
  intros [s1 e1] [H1 C1]. cbn [fst] in *. destruct (now_ms e1) as [st e2].
  eapply safe_bind; [by apply write_wait_keeps|]. intros [s2 e3] [H2 C2]. cbn [fst] in *.
  assert (C : same_conf s s2) by (by etransitivity).
  destruct (tcp_snd_una _ <? _); [exact (conj H2 C)|]. eapply safe_mono; [apply IH; [done|lia]|].
  intros [[ok s3] e4] [H3 C3]. split; [done|]. cbn [fst] in *. by etransitivity.
Qed.

Lemma net_tcp_write_keeps fuel data n ms s e :
  I s -> match data with Ptr d => n <= len d | Null => True end ->
  safe True (net_tcp_write stack fuel data n ms s e) (fun '(_, s', e') => kept I s (s', e')).
Proof.
  intros Hs Hd. unfold net_tcp_write. destruct data as [|d]; [destruct (negb _); by apply kept_refl|].
  apply write_loop_keeps; (done || lia).
Qed.

(** The connection's variables are reset at the end. *)
Lemma net_tcp_close_ok fuel s e :
  I s -> safe True (net_tcp_close stack fuel s e)
    (fun '(s', _) => exists s1, s' = upd_tcp tcp_reset s1 /\ I s1).
Proof.
  intros Hs. unfold net_tcp_close.
  apply safe_bind with (P := fun '(s', _) => I s'); [|by intros [s1 e1] H1; exists s1].
  destruct (_ && _); [|done].
  eapply safe_bind; [apply (tcp_send_keeps stack stack_ok _ _ frames); [done|split; [lia|done]]|].
  intros [s1 e1] [H1 _]. cbn [fst] in *. destruct (now_ms e1) as [st e2].
  eapply safe_bind; [by apply (wait_keeps stack stack_ok _ _ frames)|].
  by intros [[b s2] e3] [[H2 _] _].
Qed.
End write.

(** ** The state of a session

    [str] is what the peer sends after its initial sequence number [irs]; the
    caller has read the first [r] bytes of it. *)

(** [k] bytes, and the FIN when [fin] is 1, have been received; the buffer holds
    those not yet read. *)
Definition received (str : bytes) (irs r : Z) (t : tcp_state) : Prop :=
  exists k fin,
    0 <= r <= k /\ k <= len str /\ (fin = 0 \/ fin = 1 /\ k = len str) /\
    tcp_rcv_nxt t = u32 (irs + 1 + k + fin) /\
    tcp_out_len t = k - r /\ take (Z.to_nat (k - r)) (tcp_stream_buf t) = slice str r (k - r).

(** Before the peer's SYN, and after it. *)
Definition unanswered (r : Z) (t : tcp_state) : Prop :=
  r = 0 /\ tcp_rcv_nxt t = 0 /\ tcp_out_len t = 0 /\ tcp_event t <> 2.

Definition session (str : bytes) (irs r : Z) (s : net) : Prop :=
  net_ok s /\ len str <= tcp_out_cap (ntcp s) /\
  (unanswered r (ntcp s) \/ tcp_event (ntcp s) <> 1 /\ received str irs r (ntcp s)).

(** The sequence numbers of the stream do not wrap.  A connection that has not
    been answered expects sequence number 0, so data there would be taken. *)
Definition unwrapped (str : bytes) (irs : Z) : Prop := 0 <= irs /\ irs + 2 + len str < 4294967296.

Lemma accept_received str irs r t q i :
  tcp_ok t -> unwrapped str irs -> len str <= tcp_out_cap t ->
  0 <= i -> i + len (seg_data q) <= len str -> seg_data q = slice str i (len (seg_data q)) ->
  seg_data q <> [] -> seg_seq q = u32 (irs + 1 + i) -> seg_seq q = tcp_rcv_nxt t ->
  received str irs r t -> received str irs r (accept (seg_data q) t).
Proof.
  intros (_ & [Hbl _] & Hout & Hcap & _) [Hirs Hlen] Hc Hi Hil Hd Hne Hseq Hrcv
    (k & fin & Hr & Hk & Hfin & Hnxt & Hol & Htk).
  assert (Hdl : 0 < len (seg_data q)) by (destruct (seg_data q); [done|cbn; lia]).
  assert (Hik : i = k + fin).
  { rewrite Hnxt, Hseq in Hrcv. apply u32_eq in Hrcv; lia. }
  assert (fin = 0) as -> by lia. rewrite Z.add_0_r in *. subst i.
  exists (k + len (seg_data q)), 0. unfold accept.
  cbn [set_rcv_nxt set_stream tcp_rcv_nxt tcp_stream_buf tcp_out_len tcp_out_cap].
  set (n := len (seg_data q)) in *.
  replace (Z.min n (tcp_out_cap t - tcp_out_len t)) with n by lia.
  split; [lia|]. split; [lia|]. split; [by left|]. split.
  { rewrite Hnxt. unfold u32. rewrite Z.add_mod_idemp_l by lia. f_equal. lia. }
  split; [lia|]. rewrite Hol, (take_ge (seg_data q)) by (unfold n; lia).
  unfold blit. rewrite Htk, app_assoc, take_app_length'.
  2: { rewrite length_app. pose proof (slice_length str r (k - r) ltac:(lia) ltac:(lia) ltac:(lia)).
       unfold n. lia. }
  replace (k + n - r) with (k - r + n) by lia. rewrite slice_split by lia.
  replace (r + (k - r)) with k by lia. by rewrite Hd.
Qed.

(** A segment of the connection. *)
Definition from_peer (str : bytes) (irs : Z) (q : segment) : Prop :=
  bytes_ok (seg_data q) /\ genuine str irs q.

Section invariant.
Context (str : bytes) (irs r : Z) (H : unwrapped str irs).

Lemma session_ignores s s' :
  net_ok s' -> tcp_out_cap (ntcp s') = tcp_out_cap (ntcp s) ->
  tcp_rcv_nxt (ntcp s') = tcp_rcv_nxt (ntcp s) -> tcp_out_len (ntcp s') = tcp_out_len (ntcp s) ->
  tcp_stream_buf (ntcp s') = tcp_stream_buf (ntcp s) ->
  (tcp_event (ntcp s') = tcp_event (ntcp s) \/
   tcp_event (ntcp s') <> 1 /\ tcp_event (ntcp s') <> 2) ->
  session str irs r s -> session str irs r s'.
Proof.
  intros Hok E1 E2 E3 E4 Hev (_ & Hc & Hs). unfold session, unanswered, received in *.
  rewrite E1, E2, E3, E4. split; [done|]. split; [done|].
  destruct Hs as [(H1 & H2 & H3 & H4)|[H1 H2]]; [left|right]; try (split; [|done]).
  - repeat split; try done. destruct Hev as [->|[_ ?]]; done.
  - destruct Hev as [->|[? _]]; done.
Qed.

#[export] Instance session_invariant : RxInvariant (session str irs r) (from_peer str irs).
Proof.
  pose proof net_ok_invariant as N. destruct H as [Hirs Hlen].
  split.
  - by intros s [Hok _].
  - intros s m Hs Hm. apply (session_ignores s); try done; [apply (inv_gateway s m (proj1 Hs) Hm)|by left].
  - intros s a b Hs. apply (session_ignores s); try done; [apply (inv_counts s a b (proj1 Hs))|by left].
  - intros s v Hs. apply (session_ignores s); try done; [apply (inv_ip_id s v (proj1 Hs))|by left].
  - intros s v Hs. apply (session_ignores s); try done; [apply (inv_icmp s v (proj1 Hs))|by left].
  - intros s v Hs. apply (session_ignores s); try done; [apply (inv_dns_done s v (proj1 Hs))|by left].
  - intros s a Hs Ha. apply (session_ignores s); try done;
      [apply (inv_dns_answer s a (proj1 Hs) Ha)|by left].
  - intros s a b Hs. apply (session_ignores s); try done; [apply (inv_snd s a b (proj1 Hs))|by left].
  - intros s v Hs H1 H2. apply (session_ignores s); try done;
      [apply (inv_event s v (proj1 Hs) H1 H2)|by right].
  - intros s q (Hok & Hc & Hs) Hev [Hb Hg] Hsyn.
    split; [exact (inv_syn (I := net_ok) s q Hok Hev Hb Hsyn)|]. split; [done|]. right.
    split; [done|]. destruct Hs as [(-> & _ & H0 & _)|[? _]]; [|done].
    destruct Hg as [(_ & Hseq & _)|[? _]]; [|congruence].
    exists 0, 0. cbn. rewrite Hseq, H0, !Z.add_0_r. repeat split; try lia.
  - intros s q (Hok & Hc & Hs) [Hb Hg] Hne Hseq.
    split; [by apply (inv_data (I := net_ok))|]. split; [done|].
    destruct Hg as [(_ & _ & ? & _)|(_ & i & H0 & H1 & H2 & H3 & _)]; [done|].
    destruct Hs as [(_ & Hz & _)|[Hev Hr]].
    + assert (0 < len (seg_data q)) by (destruct (seg_data q); [done|cbn; lia]).
      rewrite Hz, H2, u32_id in Hseq by lia. lia.
    + right. split; [done|]. by apply (accept_received str irs r (ntcp s) q i); [apply Hok|..].
  - intros s q (Hok & Hc & Hs) [Hb Hg] Hf Heq.
    split; [exact (inv_fin (I := net_ok) s q Hok Hb Hf Heq)|]. split; [done|].
    destruct Hg as [(_ & _ & _ & ?)|(_ & i & H0 & H1 & H2 & H3 & H4)]; [congruence|].
    specialize (H4 Hf). rewrite H2, u32_id, u64_id in Heq by lia.
    destruct Hs as [(_ & Hz & _)|[Hev (k & fin & Hr & Hk & Hfin & Hnxt & Hol & Htk)]]; [lia|].
    right. split; [done|]. exists k, 1. cbn [upd_tcp ntcp set_rcv_nxt tcp_rcv_nxt tcp_out_len tcp_stream_buf].
    rewrite Hnxt, u32_id in Heq by lia. assert (fin = 0) as -> by lia.
    split; [done|]. split; [done|]. split; [right; lia|]. split; [|done].
    rewrite Hnxt. rewrite (u32_id (irs + 1 + k + 0)) by lia. f_equal. lia.
Qed.
End invariant.

(** ** Taking bytes out of the buffer *)

Lemma shift_loop_spec k b n i :
  0 < n <= i -> i + Z.of_nat k <= len b ->
  exists b', shift_loop k b n i = Some b' /\ length b' = length b /\
    (bytes_ok b -> bytes_ok b') /\
    take (Z.to_nat (i - n) + k) b' = take (Z.to_nat (i - n)) b ++ slice b i (Z.of_nat k).
Proof.
  revert b i. induction k as [|k IH]; intros b i Hi Hk; cbn [shift_loop].
  { exists b. rewrite Nat.add_0_r, slice_0, app_nil_r. done. }
  rewrite rd_byte_at by lia. cbn [mbind option_bind]. rewrite wr_Some by lia. cbn [mbind option_bind].
  set (b1 := <[_:=_]> b). assert (Hl : length b1 = length b) by apply length_insert.
  destruct (IH b1 (i + 1)) as (b' & -> & H1 & H2 & H3); [lia|lia|].
  exists b'. split; [done|]. split; [by rewrite H1|]. split.
  { intros Hb. apply H2. apply Forall_insert; [done|]. by apply byte_at_range. }
  replace (Z.to_nat (i - n) + S k)%nat with (Z.to_nat (i + 1 - n) + k)%nat by lia. rewrite H3.
  replace (Z.of_nat (S k)) with (1 + Z.of_nat k) by lia. rewrite slice_split by lia.
  rewrite app_assoc. f_equal.
  - replace (Z.to_nat (i + 1 - n)) with (S (Z.to_nat (i - n))) by lia.
    unfold b1. rewrite (take_S_r _ _ (byte_at b i)) by (apply list_lookup_insert_eq; lia).
    rewrite take_insert_ge by lia. f_equal.
    rewrite (slice_cons _ _ _ (byte_at b i)), slice_nil; [done|lia|lia|lia|].
    apply rd_inv, rd_byte_at. lia.
  - unfold slice, b1. by rewrite drop_insert_lt by lia.
Qed.

(** What one read takes: the first bytes, the rest moved to the front. *)
Lemma tcp_take_run t data cap :
  tcp_ok t -> tcp_out_len t <> 0 -> 0 < cap <= len data ->
  let n := Z.min (tcp_out_len t) cap in
  exists b, tcp_take data cap t
            = Some (n, blit data 0 (slice (tcp_stream_buf t) 0 n), set_stream b (tcp_out_len t - n) t) /\
    tcp_ok (set_stream b (tcp_out_len t - n) t) /\
    take (Z.to_nat (tcp_out_len t - n)) b = slice (tcp_stream_buf t) n (tcp_out_len t - n).
Proof.
  intros (Hp & [Hbl Hbb] & Hout & Hcap & Hnull) Hne Hd n. unfold tcp_take.
  replace (if tcp_out_len t <? cap then tcp_out_len t else cap) with n by (unfold n; case_if; lia).
  assert (Hn : n = Z.min (tcp_out_len t) cap) by done. clearbody n.
  destruct (tcp_out t) eqn:Eo; [specialize (Hnull eq_refl); lia|].
  rewrite copy_from_spec by lia. rewrite Z2Nat.id by lia. cbn [mbind option_bind].
  destruct (shift_loop_spec (Z.to_nat (tcp_out_len t - n)) (tcp_stream_buf t) n n)
    as (b & -> & Hbl' & Hbb' & Htk); [lia|lia|]. cbn [mbind option_bind].
  exists b. split; [done|]. split.
  - split; [done|]. split; [split; [cbn; lia|by apply Hbb']|]. cbn. split; [lia|]. by rewrite Eo.
  - rewrite Z.sub_diag, Z2Nat.id in Htk by lia. change (Z.to_nat 0) with 0%nat in Htk.
    rewrite firstn_O in Htk. exact Htk.
Qed.

Lemma tcp_take_spec str irs r s data cap :
  session str irs r s -> tcp_out_len (ntcp s) <> 0 -> 0 < cap <= len data ->
  exists n t, tcp_take data cap (ntcp s) = Some (n, blit data 0 (slice str r n), t) /\
    0 < n <= cap /\ r + n <= len str /\
    session str irs (r + n) (upd_tcp (fun _ => t) s) /\ same_conf s (upd_tcp (fun _ => t) s).
Proof.
  intros ((Hi & Ht & Ha) & Hc & Hs) Hne Hd.
  destruct Hs as [(_ & _ & ? & _)|[Hev (k & fin & Hr & Hk & Hfin & Hnxt & Hol & Htk)]]; [lia|].
  destruct (tcp_take_run (ntcp s) data cap Ht Hne Hd) as (b & -> & Hok & Hb).
  set (n := Z.min _ cap) in *. assert (Hn : n = Z.min (k - r) cap) by (unfold n; lia). clearbody n.
  assert (Hpre : slice (tcp_stream_buf (ntcp s)) 0 n = slice str r n).
  { transitivity (take (Z.to_nat n) (take (Z.to_nat (k - r)) (tcp_stream_buf (ntcp s)))).
    - unfold slice. rewrite drop_0, take_take. f_equal. lia.
    - rewrite Htk. by rewrite take_slice by lia. }
  rewrite Hpre. do 2 eexists. split; [reflexivity|]. split; [lia|]. split; [lia|].
  split; [|by repeat split]. split; [done|]. split; [done|]. right. split; [done|].
  exists k, fin. cbn. split; [lia|]. do 3 (split; [done|]). split; [lia|].
  replace (k - (r + n)) with (tcp_out_len (ntcp s) - n) by lia. rewrite Hb.
  transitivity (drop (Z.to_nat n) (take (Z.to_nat (k - r)) (tcp_stream_buf (ntcp s)))).
  - unfold slice. rewrite take_drop_commute. f_equal. f_equal. lia.
  - rewrite Htk. rewrite drop_slice by lia. f_equal; lia.
Qed.

(** ** Connecting and reading *)
Section fetch.
Context {E : Type} `{!NetEnv E, !NetDevice E}.
Context (stack : Z -> bytes).
Hypothesis stack_ok : forall n, 0 <= n -> addr_ok n (stack n).
Context (str : bytes) (irs : Z) (Hstr : unwrapped str irs).

(** Every delivered frame is well formed, and the TCP segments to the port [p]
    from the port [port] are the peer's. *)
Definition peer_traffic (ip : bytes) (port p : Z) : Prop := forall e : E,
  Forall (fun f => frame_ok f /\
            let q := segment_of f in
            (be16_at f 12 = ETH_IP -> byte_at f 23 = IP_TCP -> slice f 30 4 = ip ->
             seg_sport q = port -> seg_dport q = p -> genuine str irs q))
    (fst (netdev_poll e)).

(** The connection has the ports of the traffic. *)
Definition bound (ip : bytes) (port p : Z) (s : net) : Prop :=
  ip_addr (nif s) = ip /\ tcp_peer_port (ntcp s) = port /\ tcp_local_port (ntcp s) = p.

Lemma bound_conf ip port p s s' : same_conf s s' -> bound ip port p s -> bound ip port p s'.
Proof. unfold bound. intros (_ & -> & _ & _ & _ & _ & _ & -> & -> & _). done. Qed.

Definition live (ip : bytes) (port p r : Z) (s : net) : Prop :=
  session str irs r s /\ bound ip port p s.

#[local] Instance live_invariant ip port p r : RxInvariant (live ip port p r) (from_peer str irs).
Proof.
  pose proof (session_invariant str irs r Hstr) as N. unfold live. split.
  - intros s [[Hok _] _]. done.
  - intros s m [Hs ?] Hm. split; [by apply inv_gateway|done].
  - intros s a b [Hs ?]. split; [by apply inv_counts|done].
  - intros s v [Hs ?]. split; [by apply inv_ip_id|done].
  - intros s v [Hs ?]. split; [by apply inv_icmp|done].
  - intros s v [Hs ?]. split; [by apply inv_dns_done|done].
  - intros s a [Hs ?] Ha. split; [by apply inv_dns_answer|done].
  - intros s a b [Hs ?]. split; [by apply inv_snd|done].
  - intros s v [Hs ?] H1 H2. split; [by apply inv_event|done].
  - intros s q [Hs ?] H1 H2 H3. split; [by apply inv_syn|done].
  - intros s q [Hs ?] H1 H2 H3. split; [by apply inv_data|done].
  - intros s q [Hs ?] H1 H2 H3. split; [by eapply inv_fin|done].
Qed.

Lemma live_traffic ip port p r :
  peer_traffic ip port p -> traffic (E := E) (live ip port p r) (from_peer str irs).
Proof.
  intros Ht e s [_ (Hip & Hport & Hp)]. eapply List.Forall_impl; [|apply Ht].
  intros f [Hf Hq]. split; [done|]. unfold seg_ok. rewrite Hip, Hport, Hp.
  intros H1 H2 H3 _ H4 H5. destruct Hf as [Hb _]. split; [cbn; auto with orion|by apply Hq].
Qed.

(** What one read may do. *)
Definition read_ok (ip : bytes) (port p r cap : Z) (data : bytes) (s : net) (x : Z * bytes * net * E) : Prop :=
  let '(n, data', s', e') := x in
  same_conf s s' /\
  ((n = -1 /\ data' = data /\ live ip port p r s') \/
   (0 < n <= cap /\ r + n <= len str /\ data' = blit data 0 (slice str r n) /\
    live ip port p (r + n) s')).

Lemma read_loop_ok ip port p fuel r data cap ms st s e :
  peer_traffic ip port p -> live ip port p r s -> 0 < cap <= len data ->
  safe True (tcp_read_loop stack fuel data cap ms st s e) (read_ok ip port p r cap data s).
Proof.
  intros Ht. revert s e. induction fuel as [|fuel IH]; intros s e [Hs Hb] Hd; [done|].
  cbn [tcp_read_loop]. destruct (Z.eqb_spec (tcp_out_len (ntcp s)) 0) as [H0|H0]; cbn [negb].
  - destruct (_ || _); [by repeat split; left|].
    destruct (elapsed st ms e) as [over e1]. destruct over; [by repeat split; left|].
    eapply safe_bind; [by apply (poll_keeps stack stack_ok _ _ (live_traffic ip port p r Ht))|].
    intros [s1 e2] [H1 C1]. cbn [fst] in *.
    eapply safe_mono; [by apply IH|]. intros [[[n d] s2] e3] [C2 H2].
    split; [by etransitivity|done].
  - destruct (tcp_take_spec str irs r s data cap) as (n & t & -> & Hn & Hrn & Hs' & C); [done|done|done|].
    cbn. split; [done|]. right. split; [done|]. split; [done|]. split; [done|].
    split; [done|by eapply bound_conf].
Qed.

(** [net_tcp_connect] opens a session from the first byte. *)
Lemma open_session dest port ticks s s' :
  net_ok s -> addr_ok 4 dest -> len str <= 32768 -> tcp_open dest port ticks s = Some s' ->
  live (ip_addr (nif s)) port (next_src_port (nif s)) 0 s' /\ tcp_event (ntcp s') = 1.
Proof.
  intros (Hi & (Hp & Hb & _) & Ha) [Hd1 Hd2] Hlen. unfold tcp_open, memcopy.
  destruct Hp as [Hp1 Hp2]. rewrite copy_from_spec by lia. cbn [mbind option_bind]. intros [= <-].
  split; [|done]. split; [|done]. split; [split; [done|split; [|done]]|].
  - split; [|split; [done|cbn; split; [lia|split; [lia|done]]]]. split.
    + cbn [upd_tcp ntcp tcp_peer_ip]. rewrite blit_length; [done|lia|]. rewrite slice_length by lia. lia.
    + apply bytes_ok_blit; [done|]. auto with orion.
  - split; [done|]. by left.
Qed.
(** Before the connection. *)
Definition idle (ip : bytes) (p : Z) (s : net) : Prop :=
  net_ok s /\ ip_addr (nif s) = ip /\ next_src_port (nif s) = p.

#[local] Instance idle_invariant ip p : RxInvariant (idle ip p) (fun q => bytes_ok (seg_data q)).
Proof.
  pose proof net_ok_invariant as N. unfold idle. split.
  - intros s [Hok _]. done.
  - intros s m [Hs ?] Hm. split; [by apply inv_gateway|done].
  - intros s a b [Hs ?]. split; [by apply inv_counts|done].
  - intros s v [Hs ?]. split; [by apply inv_ip_id|done].
  - intros s v [Hs ?]. split; [by apply inv_icmp|done].
  - intros s v [Hs ?]. split; [by apply inv_dns_done|done].
  - intros s a [Hs ?] Ha. split; [by apply inv_dns_answer|done].
  - intros s a b [Hs ?]. split; [by apply inv_snd|done].
  - intros s v [Hs ?] H1 H2. split; [by apply inv_event|done].
  - intros s q [Hs ?] H1 H2 H3. split; [by apply (inv_syn (I := net_ok) s q)|done].
  - intros s q [Hs ?] H1 H2 H3. split; [by apply (inv_data (I := net_ok) s q)|done].
  - intros s q [Hs ?] H1 H2 H3. split; [by apply (inv_fin (I := net_ok) s q)|done].
Qed.

Lemma idle_traffic ip port p : peer_traffic ip port p ->
  traffic (E := E) (idle ip p) (fun q => bytes_ok (seg_data q)).
Proof.
  intros Ht e s _. eapply List.Forall_impl; [|apply Ht]. intros f [[Hb Hf] _].
  split; [by split|]. unfold seg_ok. intros. cbn. auto with orion.
Qed.

Lemma net_tcp_connect_ok fuel host t port status cap s (e : E) :
  net_ok s -> cstr host 0 t -> status_ok cap status -> len str <= 32768 ->
  peer_traffic (ip_addr (nif s)) port (next_src_port (nif s)) ->
  safe True (net_tcp_connect stack fuel (Ptr host) port status cap s e)
    (connect_ok (live (ip_addr (nif s)) port (next_src_port (nif s)) 0) status).
Proof.
  intros Hok Hh Hst Hlen Ht. remember (ip_addr (nif s)) as ip eqn:Eip.
  remember (next_src_port (nif s)) as p eqn:Ep.
  apply (connect_keeps stack stack_ok (idle ip p) (fun q => bytes_ok (seg_data q))
    (live ip port p 0) (from_peer str irs)) with (t := t); try done.
  - by eapply idle_traffic.
  - by apply live_traffic.
  - intros dest ticks s1 s2 (H1 & H2 & H3) Hd Eo.
    destruct (open_session dest port ticks s1 s2 H1 Hd Hlen Eo) as [H4 _]. by rewrite H2, H3 in H4.
Qed.
End fetch.

(** ** Whole sessions *)

Section whole.
Context {E : Type} `{!NetEnv E, !NetDevice E}.
Context (stack : Z -> bytes).

(** Reads into the given buffers, one after the other: the bytes delivered. *)
Fixpoint read_all (fuel : nat) (reqs : list (bytes * Z * Z)) (s : net) (e : E) : res (bytes * net * E) :=
  match reqs with
  | [] => Ok ([], s, e)
  | (data, cap, ms) :: reqs =>
      '(n, data, s, e) ← net_tcp_read stack fuel data cap ms s e;
      '(rest, s, e) ← read_all fuel reqs s e;
      Ok (take (Z.to_nat n) data ++ rest, s, e)
  end.

(** A connection, then reads if it was established. *)
Definition fetch (fuel : nat) (host : bytes) (port : Z) (status : ptr bytes) (cap : Z)
    (reqs : list (bytes * Z * Z)) (s : net) (e : E) : res (bytes * net * E) :=
  '(ok, _, s, e) ← net_tcp_connect stack fuel (Ptr host) port status cap s e;
  if ok =? 0 then Ok ([], s, e) else read_all fuel reqs s e.

Lemma read_all_ok str irs ip port p fuel reqs r s e :
  (forall n, 0 <= n -> addr_ok n (stack n)) -> unwrapped str irs -> peer_traffic str irs ip port p ->
  Forall (fun '(data, cap, _) => 0 <= cap <= len data) reqs -> live str irs ip port p r s ->
  0 <= r <= len str ->
  safe True (read_all fuel reqs s e)
    (fun '(bs, s', _) => exists k, bs = slice str r k /\ 0 <= k /\ r + k <= len str /\ net_ok s').
Proof.
  intros Hst Hstr Ht. revert r s e. induction reqs as [|[[data cap] ms] reqs IH]; intros r s e Hr Hs Hrl.
  { exists 0. split; [done|]. split; [lia|]. split; [lia|apply Hs]. }
  inversion Hr as [|? ? Hcap Hr']; subst. cbn [read_all].
  apply safe_bind with (P := read_ok str irs ip port p r cap data s).
  { unfold net_tcp_read. destruct (Z.eqb_spec cap 0); [by repeat split; left|].
    destruct (now_ms e) as [st e1]. apply read_loop_ok; try done. lia. }
  intros [[[n d] s1] e1] [_ [(-> & -> & H1)|(Hn & Hrn & -> & H1)]].
  - eapply safe_bind; [by apply IH|]. intros [[bs s2] e2] H2. exact H2.
  - eapply safe_bind; [apply (IH (r + n)); [done|done|lia]|].
    intros [[bs s2] e2] (k & -> & Hk & Hl & Hok). exists (n + k).
    rewrite slice_split by lia. split; [|split; [lia|split; [lia|done]]].
    f_equal. rewrite blit_0. apply take_app_length'.
    pose proof (slice_length str r n ltac:(lia) ltac:(lia) ltac:(lia)). lia.
Qed.
End whole.

(** C23. A TCP session delivers a prefix of the peer's stream, when that stream is at
    most 32768 bytes long, which the receive buffer holds, and its sequence numbers do
    not wrap ([unwrapped]).  Connect to any host, the lookup, the next hop and the
    handshake included, then read with buffers and time limits at will: as long as the
    segments between the two ports are the peer's - lost, repeated, reordered, or mixed
    with any other traffic - and IPv4 frames have a total length that covers their
    header ([frame_ok], part of [peer_traffic]), no call faults, and the bytes the reads
    return are, in sequence, exactly the first bytes of what the peer sent.  Of a longer
    stream this does not hold: bytes that find the buffer full are acknowledged and
    dropped, and what follows them is delivered (net.c:104,
    [NetRx.Traffic.acknowledged_but_dropped]). *)
Theorem tcp_session_prefix {E} `{!NetEnv E, !NetDevice E} stack fuel host t port status cap reqs
    str irs s (e : E) :
  (forall n, 0 <= n -> addr_ok n (stack n)) -> net_ok s -> cstr host 0 t -> status_ok cap status ->
  Forall (fun '(data, cap, _) => 0 <= cap <= len data) reqs ->
  unwrapped str irs -> len str <= 32768 ->
  peer_traffic str irs (ip_addr (nif s)) port (next_src_port (nif s)) ->
  safe True (fetch stack fuel host port status cap reqs s e)
    (fun '(bs, s', _) => net_ok s' /\ exists k, bs = take k str).
Proof.
  intros Hst Hok Hh Hs Hr Hstr Hlen Ht. unfold fetch.
  eapply safe_bind; [by apply (net_tcp_connect_ok stack Hst str irs Hstr fuel host t)|].
  intros [[[ok st] s1] e1] (_ & Hok1 & Hc). destruct (Z.eqb_spec ok 0) as [|Hne].
  { split; [done|]. by exists 0%nat. }
  destruct Hc as [|(_ & _ & Hl)]; [done|].
  eapply safe_mono; [apply (read_all_ok stack str irs (ip_addr (nif s)) port (next_src_port (nif s))
    fuel reqs 0); try done; lia|].
  intros [[bs s2] e2] (k & -> & _ & _ & H2). split; [done|]. by exists (Z.to_nat k).
Qed.

(** *** A session *)
Module Session.

#[export] Instance no_device : NetDevice nat := {|
  netdev_init := fun m n => (1, m, n);
  netdev_name := fun _ => lit "e1000";
  serial_write := fun _ n => n
|}.

Definition start : net :=
  mk_net Traffic.interface (mk_icmp 0 0x4f52 0) (mk_dns 0 0 0 [0; 0; 0; 0])
    (mk_tcp 0 [0; 0; 0; 0] 0 0 0 0 0 0 (Traffic.zeros 32768) Null 0 0).

Definition from_peer (seq flags : Z) (data : bytes) : bytes :=
  Traffic.ip_frame Traffic.server IP_TCP
    (tcp_message Traffic.server Traffic.me 80 49153 seq 0x13570001 flags data).

Lemma start_ok : net_ok start.
Proof.
  split; [apply (Traffic.connected_ok 0 0); lia|].
  split; [|apply (Traffic.connected_ok 0 0); lia].
  split; [apply (Traffic.zeros_ok 4); lia|]. split; [apply Traffic.zeros_ok; lia|].
  cbn; split; [lia|split; [lia|done]].
Qed.

(** The handshake first; then "Hi!" out of order, and the FIN. *)
Definition script (n : nat) : list bytes :=
  if (n <? 6)%nat then [from_peer 99 0x12 []]
  else [from_peer 102 0x18 [33]; from_peer 100 0x18 [72; 105]; from_peer 102 0x18 [33]; from_peer 103 0x11 []].

Definition run : res (bytes * net * nat) :=
  fetch (NetEnv0 := Traffic.scripted script) Traffic.zeros 40 (lit "93.184.216.34") 80 Null 0
    [(Traffic.zeros 2, 2, 100); (Traffic.zeros 8, 8, 100); (Traffic.zeros 8, 8, 100)] start 0%nat.

Example run_result :
  (match run with Ok (bs, s, n) => Some (bs, tcp_event (ntcp s), n) | _ => None end)
  = Some ([72; 105; 33], 4, 10%nat).
Proof. vm_compute. reflexivity. Qed.

Lemma script_peer :
  peer_traffic (NetEnv0 := Traffic.scripted script) Traffic.text 99 Traffic.me 80 49153.
Proof.
  assert (Hsyn : genuine Traffic.text 99 (segment_of (from_peer 99 0x12 []))).
  { left. vm_compute. repeat split; congruence. }
  assert (Hd : forall i fl d, In (i, fl, d) [(2, 0x18, [33]); (0, 0x18, [72; 105]); (3, 0x11, [])] ->
    frame_ok (from_peer (100 + i) fl d) /\ genuine Traffic.text 99 (segment_of (from_peer (100 + i) fl d))).
  { intros i fl d [[= <- <- <-]|[[= <- <- <-]|[[= <- <- <-]|[]]]];
      (split; [apply Traffic.frame_okb; vm_compute; reflexivity|right; split; [reflexivity|]]).
    - exists 2. vm_compute. repeat split; congruence.
    - exists 0. vm_compute. repeat split; congruence.
    - exists 3. vm_compute. repeat split; congruence. }
  intros n. cbn [netdev_poll Traffic.scripted fst]. unfold script. destruct (n <? 6)%nat.
  - constructor; [|constructor]. split; [apply Traffic.frame_okb; vm_compute; reflexivity|by intros].
  - destruct (Hd 2 0x18 [33]) as [A1 A2]; [cbn; auto|].
    destruct (Hd 0 0x18 [72; 105]) as [B1 B2]; [cbn; auto|].
    destruct (Hd 3 0x11 []) as [C1 C2]; [cbn; auto|].
    repeat (constructor; [split; [assumption|by intros]|]). constructor.
Qed.
End Session.

Lemma tcp_session_prefix_witness :
  exists bs s n, Session.run = Ok (bs, s, n) /\ bs = [72; 105; 33] /\ exists k, bs = take k Traffic.text.
Proof.
  assert (H : safe True Session.run
    (fun '(bs, s', _) => net_ok s' /\ exists k, bs = take k Traffic.text)).
  { unfold Session.run. apply (tcp_session_prefix (NetEnv0 := Traffic.scripted Session.script)
      (NetDevice0 := Session.no_device) Traffic.zeros 40 (lit "93.184.216.34") (chars "93.184.216.34")
      80 Null 0 _ Traffic.text 99 Session.start 0%nat).
    - exact Traffic.zeros_ok.
    - exact Session.start_ok.
    - by apply (cstr_text (chars "93.184.216.34")).
    - by split.
    - repeat constructor; vm_compute; discriminate.
    - split; vm_compute; [discriminate|reflexivity].
    - vm_compute; discriminate.
    - exact Session.script_peer. }
  pose proof Session.run_result as R.
  destruct Session.run as [[[bs s] n]| |]; [|discriminate R|discriminate R].
  exists bs, s, n. split; [reflexivity|]. injection R as -> _ _. split; [reflexivity|]. apply H.
Defined.

(** *** Two limits of the client *)
Module Limits.

Definition with_tcp (event nxt una : Z) : net :=
  mk_net Traffic.interface (mk_icmp 0 0x4f52 0) (mk_dns 0 0 0 [0; 0; 0; 0])
    (mk_tcp event Traffic.server 49153 80 0x13570000 nxt una 0 (Traffic.zeros 32768) (Ptr tt) 32768 0).

(** Before the handshake [tcp_rcv_nxt] is 0, and data at sequence number 0 are
    taken: the event is 3 without a SYN. *)
Example data_before_handshake :
  (match net_poll (NetEnv0 := Traffic.scripted (fun _ => [Session.from_peer 0 0x18 [66; 65; 68]]))
           Traffic.zeros 0 (with_tcp 1 0x13570001 0x13570000) 0%nat with
   | Ok (s, _) => Some (tcp_event (ntcp s), tcp_out_len (ntcp s)) | _ => None end) = Some (3, 3).
Proof. vm_compute. reflexivity. Qed.

(** [tcp_snd_una<want] compares sequence numbers as integers: when they wrap, the
    write reports success without an acknowledgement. *)
Example write_wraps :
  (match net_tcp_write (NetEnv0 := Traffic.scripted (fun _ => [])) Traffic.zeros 40
           (Ptr [1; 2; 3]) 3 1000 (with_tcp 2 0xffffffff 0xffffffff) 0%nat with
   | Ok (ok, s, _) => Some (ok, tcp_snd_nxt (ntcp s), tcp_snd_una (ntcp s)) | _ => None end)
  = Some (1, 2, 0xffffffff).
Proof. vm_compute. reflexivity. Qed.

(** Elsewhere the silence of the peer is reported. *)
Example write_unanswered :
  (match net_tcp_write (NetEnv0 := Traffic.scripted (fun _ => [])) Traffic.zeros 40
           (Ptr [1; 2; 3]) 3 20 (with_tcp 2 5000 5000) 0%nat with
   | Ok (ok, s, _) => Some (ok, tcp_snd_nxt (ntcp s), tcp_snd_una (ntcp s)) | _ => None end)
  = Some (0, 5003, 5000).
Proof. vm_compute. reflexivity. Qed.
End Limits.
