(* ===== verification/HttpTcp.v ===== *)
(** * kernel/net.c: the HTTP client over the TCP client

    The transports of HttpGet, plain HTTP ones, are the TCP calls of NetClient:
    the instance below discharges the interface the client was verified against.
    The TLS exchange is an argument; Tls gives it the one of kernel/tls.c. *)

From S2P Require Import Prelude NetEnv Cstr Http HttpChunked HttpGet HttpSafe Wire Net NetRx NetClient NetSession.

(** The arguments and results of [tls_https_exchange]. *)
Definition exchange (X : Type) : Type :=
  bytes -> Z -> bytes -> Z -> bytes -> Z -> ptr bytes -> Z -> X -> res (Z * bytes * Z * ptr bytes * X).

Section transports.
Context {E : Type} `{!NetEnv E, !NetDevice E}.
Context (stack : Z -> bytes) (fuel : nat) (tls : exchange (net * E)).

Definition http_over_tcp : HttpNet (net * E) := {|
  HttpGet.serial_write t x := (x.1, NetClient.serial_write t x.2);
  HttpGet.net_tcp_connect h port st cap x :=
    '(ok, st, s, e) ← NetClient.net_tcp_connect stack fuel (Ptr h) port st cap x.1 x.2; Ok (ok, st, (s, e));
  HttpGet.net_tcp_write d n ms x :=
    '(ok, s, e) ← NetClient.net_tcp_write stack fuel (Ptr d) n ms x.1 x.2; Ok (ok, (s, e));
  HttpGet.net_tcp_read cap ms x :=
    '(n, d, s, e) ← NetClient.net_tcp_read stack fuel (stack cap) cap ms x.1 x.2;
    Ok (n, take (Z.to_nat n) d, (s, e));
  HttpGet.net_tcp_close x := NetClient.net_tcp_close stack fuel x.1 x.2;
  HttpGet.tls_https_exchange := tls
|}.

Hypothesis stack_ok : forall n, 0 <= n -> addr_ok n (stack n).
Hypothesis frames : forall e : E, Forall frame_ok (fst (netdev_poll e)).

Definition any_segment (q : segment) : Prop := bytes_ok (seg_data q).

Lemma any_traffic : traffic (E := E) net_ok any_segment.
Proof.
  intros e s _. eapply List.Forall_impl; [|apply frames]. intros f [Hb Hf]. split; [by split|].
  unfold seg_ok, any_segment. intros. cbn. auto with orion.
Qed.

Lemma any_read_loop k data cap ms st s e :
  net_ok s -> 0 < cap <= len data ->
  safe True (tcp_read_loop stack k data cap ms st s e) (fun '(n, d, s', _) =>
    (n < 0 \/ 0 < n <= cap /\ len d = len data) /\ net_ok s').
Proof.
  revert s e. induction k as [|k IH]; intros s e Hs Hd; [done|]. cbn [tcp_read_loop].
  destruct (Z.eqb_spec (tcp_out_len (ntcp s)) 0) as [H0|H0]; cbn [negb].
  - destruct (_ || _); [split; [by left|done]|].
    destruct (elapsed st ms e) as [over e1]. destruct over; [split; [by left|done]|].
    eapply safe_bind; [by apply (poll_keeps stack stack_ok _ _ any_traffic)|].
    intros [s1 e2] [H1 _]. by apply IH.
  - destruct Hs as (Hi & Ht & Ha).
    destruct (tcp_take_run (ntcp s) data cap Ht H0 Hd) as (b & -> & Hok & _). cbn.
    destruct Ht as (_ & [Hbl _] & Hout & Hcap & _). split; [|by split].
    right. split; [lia|]. rewrite blit_length; [done|lia|]. rewrite slice_length by lia. lia.
Qed.

(** The calls keep the state well formed. *)
Lemma any_connect h t port st cap s e :
  net_ok s -> cstr h 0 t -> status_ok cap st ->
  safe True (NetClient.net_tcp_connect stack fuel (Ptr h) port st cap s e)
    (fun '(_, st', s', _) => same_object st st' /\ net_ok s').
Proof.
  intros Hs Hh Hst.
  eapply safe_mono; [apply (connect_keeps stack stack_ok net_ok any_segment net_ok any_segment
    any_traffic any_traffic) with (t := t); try done; [by intros ? ? (? & ? & ?)..|]|].
  { intros dest ticks s1 s2 (Hi & (Hp & Hb & _) & Ha) [Hd1 Hd2] Eo. unfold tcp_open, memcopy in Eo.
    destruct Hp as [Hp1 Hp2]. rewrite copy_from_spec in Eo by lia. cbn in Eo. injection Eo as <-.
    split; [done|]. split; [|done]. split; [|split; [done|cbn; split; [lia|split; [lia|done]]]].
    split; [cbn; rewrite blit_length; [done|lia|]; rewrite slice_length by lia; lia|].
    apply bytes_ok_blit; [done|]. auto with orion. }
  by intros [[[ok st'] s1] e1] (H1 & H2 & _).
Qed.

Lemma any_write d n ms s e :
  net_ok s -> n <= len d ->
  safe True (NetClient.net_tcp_write stack fuel (Ptr d) n ms s e) (fun '(_, s', _) => net_ok s').
Proof.
  intros Hs Hn. eapply safe_mono; [by apply (net_tcp_write_keeps stack stack_ok _ _ any_traffic)|].
  by intros [[ok s1] e1] [H1 _].
Qed.

Lemma any_read data cap ms s e :
  net_ok s -> 0 < cap <= len data ->
  safe True (NetClient.net_tcp_read stack fuel data cap ms s e) (fun '(n, d, s', _) =>
    (n < 0 \/ 0 < n <= cap /\ len d = len data) /\ net_ok s').
Proof.
  intros Hs Hc. unfold NetClient.net_tcp_read. destruct (Z.eqb_spec cap 0); [lia|].
  destruct (now_ms e) as [st e1]. by apply any_read_loop.
Qed.

Lemma any_close s e :
  net_ok s -> safe True (NetClient.net_tcp_close stack fuel s e) (fun '(s', _) => net_ok s').
Proof.
  intros Hs. eapply safe_mono; [by apply (net_tcp_close_ok stack stack_ok _ _ any_traffic)|].
  intros [s1 e1] (s2 & -> & Hi & (Hp & Hb & _) & Ha).
  split; [done|]. split; [|done]. split; [done|]. split; [done|]. cbn. repeat split; lia.
Qed.

(** What the exchange promises. *)
Definition exchange_ok : Prop := forall h t p r n raw st sc s e,
  net_ok s -> cstr h 0 t -> 0 <= n <= len r -> status_ok sc st ->
  safe True (tls h p r n raw (len raw) st sc (s, e)) (fun '(ok, raw', m, st', x) =>
    len raw' = len raw /\ same_object st st' /\ (ok <> 0 -> 0 <= m < len raw) /\ net_ok x.1).
Hypothesis tls_ok : exchange_ok.

(** The TCP client is a transport of the HTTP client. *)
Lemma http_over_tcp_laws :
  HttpNetLaws (HttpNet0 := http_over_tcp) True (fun x => net_ok x.1) (fun _ => True).
Proof.
  split.
  - intros t [s e] Hs. done.
  - intros h t port st cap [s e] Hs Hh Hst. cbn [HttpGet.net_tcp_connect http_over_tcp fst snd] in *.
    eapply safe_bind; [by apply (any_connect _ t)|]. by intros [[[ok st'] s1] e1] [H1 H2].
  - intros d n t [s e] Hs Hn. cbn [HttpGet.net_tcp_write http_over_tcp fst snd] in *.
    eapply safe_bind; [apply any_write; [done|lia]|]. by intros [[ok s1] e1] H1.
  - intros cap t [s e] Hs Hc. cbn [HttpGet.net_tcp_read http_over_tcp fst snd] in *.
    destruct (stack_ok cap) as [Hl _]; [lia|]. eapply safe_bind; [apply any_read; [done|lia]|].
    intros [[[n d] s1] e2] [Hn H1]. cbn. split; [|done].
    destruct Hn as [|[Hn Hd]]; [by left|right]. split; [done|]. rewrite length_take. lia.
  - intros [s e] Hs. cbn [HttpGet.net_tcp_close http_over_tcp fst snd] in *.
    eapply safe_mono; [by apply any_close|]. by intros [s1 e1].
  - intros h t p r n raw st sc [s e] Hs Hh Hn Hst. cbn [HttpGet.tls_https_exchange http_over_tcp fst snd] in *.
    eapply safe_mono; [by apply (tls_ok _ t)|]. intros [[[[ok raw'] m] st'] x] (H1 & H2 & H3 & H4). done.
Qed.
End transports.

(** The network stack is memory safe from the wire to the page: whatever
    frames the adapter delivers (byte strings whose IPv4 total length covers the
    header), whenever they come, a page fetched with [net_http_get] over
    [net_tcp_connect], [net_tcp_write], [net_tcp_read] and [net_tcp_close] never
    makes the parsers, the handlers of Ethernet, ARP, IPv4, ICMP, UDP, DNS and
    TCP, or the client touch memory outside their buffers; the state of the
    network stays well formed and a body reported is terminated inside its
    capacity. *)
Theorem http_over_network_safe {E} `{!NetEnv E, !NetDevice E} stack fuel (tls : exchange (net * E))
    url t body cap status status_cap raw s e :
  (forall n, 0 <= n -> addr_ok n (stack n)) ->
  (forall e : E, Forall frame_ok (fst (netdev_poll e))) -> exchange_ok tls -> net_ok s ->
  match url with Null => t = [] | Ptr u => cstr u 0 t end ->
  cap <= len body -> status_ok status_cap status -> len raw = 32768 ->
  safe True (net_http_get (HttpNet0 := http_over_tcp stack fuel tls) stack (net_ready s) url (Ptr body)
               cap status status_cap raw (s, e))
    (fun '(r, h) => net_ok (fst (h_env h)) /\ len (h_body h) = len body /\
       same_object status (h_status h) /\
       (r = 0 \/ (r = 1 /\ exists k, 0 <= k < cap /\ rd (h_body h) k = Some 0))).
Proof.
  intros Hst Hf Htls Hs Hu Hc Hsc Hr.
  pose proof (http_over_tcp_laws stack fuel tls Hst Hf Htls) as Hlaws.
  eapply safe_mono; [apply (http_get_post (HttpNet0 := http_over_tcp stack fuel tls) stack True
    (fun x => net_ok (fst x)) (fun _ => True) (net_ready s) url t); try done; intros; by apply Hst|].
  intros [r h] ((H1 & H2 & _ & H4) & _ & H3). done.
Qed.

(** ** A page over the network *)
Module Page.

Definition no_tls : exchange (net * nat) := fun _ _ _ _ raw _ st _ x => Ok (0, raw, 0, st, x).

Lemma no_tls_ok : exchange_ok no_tls.
Proof.
  intros h t p r n raw st sc s e Hs _ _ _. cbn. split; [done|]. split; [apply same_object_refl|].
  by split; [intros []|].
Qed.

Definition answer : bytes :=
  chars "HTTP/1.0 200 OK" ++ CRLF ++ chars "Content-Length: 2" ++ CRLF ++ CRLF ++ chars "Hi".

(** The server acknowledges [k] bytes. *)
Definition from_server (k seq flags : Z) (data : bytes) : bytes :=
  Traffic.ip_frame Traffic.server IP_TCP
    (tcp_message Traffic.server Traffic.me 80 49153 seq (0x13570001 + k) flags data).

(** The handshake, then the answer and the FIN. *)
Definition script (n : nat) : list bytes :=
  if (n <? 6)%nat then [from_server 0 99 0x12 []]
  else [from_server 185 100 0x18 answer; from_server 185 (100 + len answer) 0x11 []].

Definition page : res (Z * http) :=
  net_http_get (HttpNet0 := http_over_tcp (NetEnv0 := Traffic.scripted script)
      (NetDevice0 := Session.no_device) Traffic.zeros 40 no_tls)
    Traffic.zeros (net_ready Session.start) (Ptr (lit "http://93.184.216.34/"))
    (Ptr (Traffic.zeros 64)) 64 (Ptr (Traffic.zeros 32)) 32 (Traffic.zeros 32768) (Session.start, 0%nat).

Example page_result :
  (match page with
   | Ok (r, h) => Some (r, string_at 64 (h_body h) 0, snd (h_env h))
   | _ => None
   end) = Some (1, Some (chars "Hi"), 10%nat).
Proof. vm_compute. reflexivity. Qed.

Lemma script_ok n : Forall frame_ok (script n).
Proof.
  unfold script. destruct (n <? 6)%nat;
    repeat (apply List.Forall_cons; [apply Traffic.frame_okb; vm_compute; reflexivity|]);
    apply List.Forall_nil.
Qed.
End Page.

Lemma http_over_network_safe_witness :
  exists r h, Page.page = Ok (r, h) /\ r = 1 /\ net_ok (fst (h_env h)) /\ len (h_body h) = 64.
Proof.
  assert (H : safe True Page.page (fun '(r, h) => net_ok (fst (h_env h)) /\
    len (h_body h) = len (Traffic.zeros 64) /\ same_object (Ptr (Traffic.zeros 32)) (h_status h) /\
    (r = 0 \/ (r = 1 /\ exists k, 0 <= k < 64 /\ rd (h_body h) k = Some 0)))).
  { unfold Page.page. apply (http_over_network_safe (NetEnv0 := Traffic.scripted Page.script)
      (NetDevice0 := Session.no_device) Traffic.zeros 40 Page.no_tls
      (Ptr (lit "http://93.184.216.34/")) (chars "http://93.184.216.34/")).
    - exact Traffic.zeros_ok.
    - exact Page.script_ok.
    - exact Page.no_tls_ok.
    - exact Session.start_ok.
    - by apply (cstr_text (chars "http://93.184.216.34/")).
    - discriminate.
    - split; discriminate.
    - apply (Traffic.zeros_ok 32768). discriminate. }
  pose proof Page.page_result as R. destruct Page.page as [[r h]| |]; [|discriminate R|discriminate R].
  exists r, h. split; [reflexivity|]. injection R as -> _ _. split; [reflexivity|].
  destruct H as (H1 & H2 & _). split; [exact H1|exact H2].
Defined.
