(* ===== verification/Rtc.v ===== *)
(** * kernel/tls.c: entropy and the clock

    Lines 30-36: random bytes from RDRAND, the registers of the CMOS clock and
    the date given to the certificate check.  The instructions are the class
    [Platform]; the loop that waits for the end of a clock update takes its fuel. *)

From S2P Require Import Prelude NetEnv.

(** include/io.h and the two instructions of tls.c: [cpuid] gives eax, ebx, ecx
    and edx of a leaf, [rdrand] the register and the carry. *)
Class Platform (E : Type) := {
  outb : Z -> Z -> E -> E;
  inb : Z -> E -> Z * E;
  cpuid : Z -> E -> Z * Z * Z * Z;
  rdrand : E -> Z * bool * E
}.

(** ** Entropy *)

Section entropy.
Context {E : Type} `{!Platform E}.

Definition cpuid1 (e : E) : Z := let '(_, _, c, _) := cpuid 1 e in c.

(** [for(int tries=0;tries<16&&!ok;tries++)] *)
Fixpoint draw (tries : nat) (e : E) : option Z * E :=
  match tries with
  | O => (None, e)
  | S k => let '(v, ok, e) := rdrand e in if (ok : bool) then (Some v, e) else draw k e
  end.

(** [for(size_t i=0;i<sizeof(v)&&o<len;i++,o++)] *)
Fixpoint put_word (k : nat) (out : bytes) (n v i o : Z) : option (bytes * Z) :=
  match k with
  | O => Some (out, o)
  | S k' =>
      if o <? n then
        out ← wr out o (u8 (Z.shiftr v (i * 8))); put_word k' out n v (i + 1) (o + 1)
      else Some (out, o)
  end.

(** [while(o<len)] *)
Fixpoint entropy_loop (fuel : nat) (out : bytes) (n o : Z) (e : E) : res (Z * bytes * E) :=
  match fuel with
  | O => NoFuel
  | S f =>
      if o <? n then
        let '(v, e) := draw 16 e in
        match v with
        | None => Ok (0, out, e)
        | Some v => '(out, o) ← ub (put_word 8 out n v 0 o); entropy_loop f out n o e
        end
      else Ok (1, out, e)
  end.

Definition entropy_bytes (out : bytes) (n : Z) (e : E) : res (Z * bytes * E) :=
  if Z.land (cpuid1 e) (Z.shiftl 1 30) =? 0 then Ok (0, out, e)
  else entropy_loop (S (Z.to_nat n)) out n 0 e.
End entropy.

(** ** The clock *)

(** The registers of the date, and register B. *)
Record rtc := mk_rtc { sec : Z; min : Z; hour : Z; day : Z; mon : Z; year : Z; cent : Z; regb : Z }.

#[export] Instance rtc_eq_dec : EqDecision rtc.
Proof. solve_decision. Defined.

Section clock.
Context {E : Type} `{!Platform E}.

Definition io_wait (e : E) : E := outb 0x80 0 e.

Definition cmos (reg : Z) (e : E) : Z * E := inb 0x71 (io_wait (outb 0x70 (u8 (Z.lor 0x80 reg)) e)).

(** [while(cmos(0x0A)&0x80u){}] *)
Fixpoint update_wait (fuel : nat) (e : E) : res E :=
  match fuel with
  | O => NoFuel
  | S f => let '(v, e) := cmos 0x0a e in if Z.land v 0x80 =? 0 then Ok e else update_wait f e
  end.

Definition read_regs (e : E) : rtc * E :=
  let '(s, e) := cmos 0 e in
  let '(m, e) := cmos 2 e in
  let '(h, e) := cmos 4 e in
  let '(d, e) := cmos 7 e in
  let '(mo, e) := cmos 8 e in
  let '(y, e) := cmos 9 e in
  let '(c, e) := cmos 0x32 e in
  let '(b, e) := cmos 0x0b e in
  (mk_rtc s m h d mo y c b, e).

(** [for(int retry=0;retry<8;retry++)]; [None] when the call returns 0. *)
Fixpoint snapshot_loop (retries fuel : nat) (e : E) : res (option rtc * E) :=
  match retries with
  | O => Ok (None, e)
  | S k =>
      e ← update_wait fuel e;
      let '(r1, e) := read_regs e in
      e ← update_wait fuel e;
      let '(r2, e) := read_regs e in
      if decide (r1 = r2) then Ok (Some r2, e) else snapshot_loop k fuel e
  end.

Definition rtc_snapshot (fuel : nat) (e : E) : res (option rtc * E) := snapshot_loop 8 fuel e.
End clock.

Definition bcd (x : Z) : Z := Z.land x 15 + 10 * Z.land (Z.shiftr x 4) 15.

Definition leap (y : Z) : bool :=
  (Z.rem y 4 =? 0) && negb (Z.rem y 100 =? 0) || (Z.rem y 400 =? 0).

Definition md : bytes := [31; 28; 31; 30; 31; 30; 31; 31; 30; 31; 30; 31].

(** [for(int z=1970;z<yy;z++)] *)
Fixpoint year_loop (fuel : nat) (z yy days : Z) : option Z :=
  match fuel with
  | O => None
  | S f => if z <? yy then year_loop f (z + 1) yy (u32 (days + (if leap z then 366 else 365))) else Some days
  end.

(** [for(int z=1;z<(int)mo;z++)] *)
Fixpoint month_loop (fuel : nat) (z mo yy days : Z) : option Z :=
  match fuel with
  | O => None
  | S f =>
      if z <? mo then
        l ← rd md (z - 1);
        month_loop f (z + 1) mo yy (u32 (days + (l + (if (z =? 2) && leap yy then 1 else 0))))
      else Some days
  end.

(** The fields as numbers, the hour on 24. *)
Definition normalise (r : rtc) : rtc :=
  let pm := negb (Z.land (hour r) 0x80 =? 0) in
  let h := Z.land (hour r) 0x7f in
  let f := if Z.land (regb r) 4 =? 0 then fun x => u8 (bcd x) else fun x => x in
  let h := f h in
  let h :=
    if Z.land (regb r) 2 =? 0 then
      let h := if pm && (h <? 12) then u8 (h + 12) else h in
      if negb pm && (h =? 12) then 0 else h
    else h in
  mk_rtc (f (sec r)) (f (min r)) h (f (day r)) (f (mon r)) (f (year r)) (f (cent r)) (regb r).

(** [int yy;if(c>=19&&c<=99)yy=...;else yy=...;] *)
Definition full_year (r : rtc) : Z :=
  if (19 <=? cent r) && (cent r <=? 99) then cent r * 100 + year r
  else if year r <? 70 then 2000 + year r else 1900 + year r.

(** The rest of [tls_time]; [None] inside when the call returns 0. *)
Definition date_number (r : rtc) : option (option (Z * Z)) :=
  let yy := full_year r in
  let mo := mon r in let d := day r in
  if (yy <? 2020) || (2199 <? yy) || (mo <? 1) || (12 <? mo) || (d <? 1) || (31 <? d) ||
     (23 <? hour r) || (59 <? min r) || (60 <? sec r) then Some None
  else
    n ← year_loop (Z.to_nat 2200) 1970 yy 0;
    n ← month_loop 13 1 mo yy n;
    l ← rd md (mo - 1);
    if l + (if (mo =? 2) && leap yy then 1 else 0) <? d then Some None
    else
      let n := u32 (n + (d - 1)) in
      Some (Some (u32 (719528 + n), u32 (u32 (hour r * 3600) + u32 (min r * 60) + sec r))).

Definition tls_time {E} `{!Platform E} (fuel : nat) (e : E) : res (option (Z * Z) * E) :=
  '(r, e) ← rtc_snapshot fuel e;
  match r with
  | None => Ok (None, e)
  | Some r => t ← ub (date_number (normalise r)); Ok (t, e)
  end.

(** ** The calendar *)

(** Year, month, day of the Gregorian calendar; the year 0 is a leap year. *)
Definition date : Type := Z * Z * Z.

Definition leap_year (y : Z) : bool := (y mod 4 =? 0) && (negb (y mod 100 =? 0) || (y mod 400 =? 0)).

Definition month_length (y m : Z) : Z :=
  if m =? 2 then if leap_year y then 29 else 28
  else if (m =? 4) || (m =? 6) || (m =? 9) || (m =? 11) then 30 else 31.

Definition next_day (x : date) : date :=
  let '(y, m, d) := x in
  if d <? month_length y m then (y, m, d + 1) else if m <? 12 then (y, m + 1, 1) else (y + 1, 1, 1).

(** [days_later x n y]: the day [y] comes [n] days after the day [x]. *)
Inductive days_later : date -> Z -> date -> Prop :=
| same_day x : days_later x 0 x
| a_day_later x n y : days_later x n y -> days_later x (n + 1) (next_day y).

Lemma days_later_trans x n y m z : days_later x n y -> days_later y m z -> days_later x (n + m) z.
Proof.
  intros H1. induction 1 as [|y m z _ IH]; [by rewrite Z.add_0_r|].
  replace (n + (m + 1)) with (n + m + 1) by lia. constructor. by apply IH.
Qed.

Lemma month_length_bounds y m : 28 <= month_length y m <= 31.
Proof. unfold month_length. repeat case_match; lia. Qed.

Lemma days_in_month y m d : 1 <= d <= month_length y m -> days_later (y, m, 1) (d - 1) (y, m, d).
Proof.
  intros [H1 H2]. replace d with (1 + Z.of_nat (Z.to_nat (d - 1))) in * by lia.
  revert H2. clear H1. induction (Z.to_nat (d - 1)) as [|k IH]; intros Hk; [constructor|].
  pose proof (a_day_later _ _ _ (IH ltac:(lia))) as H. cbn [next_day] in H.
  destruct (Z.ltb_spec (1 + Z.of_nat k) (month_length y m)); [|lia].
  replace (1 + Z.of_nat (S k) - 1) with (1 + Z.of_nat k - 1 + 1) by lia.
  by replace (1 + Z.of_nat (S k)) with (1 + Z.of_nat k + 1) by lia.
Qed.

Lemma next_month y m : 1 <= m < 12 -> days_later (y, m, 1) (month_length y m) (y, m + 1, 1).
Proof.
  intros Hm. pose proof (month_length_bounds y m).
  pose proof (a_day_later _ _ _ (days_in_month y m (month_length y m) ltac:(lia))) as G.
  cbn [next_day] in G. rewrite Z.ltb_irrefl in G. destruct (Z.ltb_spec m 12); [|lia].
  by replace (month_length y m) with (month_length y m - 1 + 1) by lia.
Qed.

(** The days of a year before the first of the month [m]. *)
Fixpoint days_before (k : nat) (y : Z) : Z :=
  match k with O => 0 | S k' => days_before k' y + month_length y (Z.of_nat k) end.

Lemma months_later y k : (k < 12)%nat ->
  days_later (y, 1, 1) (days_before k y) (y, 1 + Z.of_nat k, 1).
Proof.
  induction k as [|k IH]; intros Hk; [constructor|]. cbn [days_before].
  eapply days_later_trans; [apply IH; lia|].
  replace (Z.of_nat (S k)) with (1 + Z.of_nat k) by lia.
  rewrite (Z.add_comm 1 (1 + Z.of_nat k)). apply next_month. lia.
Qed.

Definition year_length (y : Z) : Z := if leap_year y then 366 else 365.

Lemma next_year y : days_later (y, 1, 1) (year_length y) (y + 1, 1, 1).
Proof.
  pose proof (months_later y 11 ltac:(lia)) as H1.
  pose proof (a_day_later _ _ _ (days_in_month y 12 31 ltac:(cbn; lia))) as H2. cbn [next_day] in H2.
  cbn in H2. pose proof (days_later_trans _ _ _ _ _ H1 H2) as H.
  assert (days_before 11 y + (31 - 1 + 1) = year_length y) as <-; [|done].
  unfold year_length, days_before, month_length. by destruct (leap_year y).
Qed.

(** The days of [k] years from the year [y]. *)
Fixpoint days_of_years (k : nat) (y : Z) : Z :=
  match k with O => 0 | S k' => year_length y + days_of_years k' (y + 1) end.

Lemma years_later k y : days_later (y, 1, 1) (days_of_years k y) (y + Z.of_nat k, 1, 1).
Proof.
  revert y. induction k as [|k IH]; intros y; [rewrite Z.add_0_r; constructor|].
  cbn [days_of_years]. eapply days_later_trans; [apply next_year|].
  replace (y + Z.of_nat (S k)) with (y + 1 + Z.of_nat k) by lia. apply IH.
Qed.

Lemma epoch : days_later (0, 1, 1) 719528 (1970, 1, 1).
Proof. exact (years_later 1970 0). Qed.

(** ** The conversion *)

Lemma leap_spec y : 0 <= y -> leap y = leap_year y.
Proof.
  intros Hy. unfold leap, leap_year. rewrite !Z.rem_mod_nonneg by lia.
  destruct (Z.eqb_spec (y mod 4) 0), (y mod 100 =? 0), (Z.eqb_spec (y mod 400) 0); try done; zlia.
Qed.

Lemma days_of_years_bound k y : 0 <= days_of_years k y <= 366 * Z.of_nat k.
Proof.
  revert y. induction k as [|k IH]; intros y; cbn [days_of_years]; [lia|].
  specialize (IH (y + 1)). unfold year_length. destruct (leap_year y); lia.
Qed.

Lemma year_loop_spec fuel z yy n :
  0 <= z <= yy -> yy - z < Z.of_nat fuel -> 0 <= n -> n + 366 * (yy - z) < 4294967296 ->
  year_loop fuel z yy n = Some (n + days_of_years (Z.to_nat (yy - z)) z).
Proof.
  revert z n. induction fuel as [|f IH]; intros z n Hz Hf Hn Hb; [lia|]. cbn [year_loop].
  destruct (Z.ltb_spec z yy) as [Hl|Hl].
  - rewrite leap_spec by lia. replace (Z.to_nat (yy - z)) with (S (Z.to_nat (yy - (z + 1)))) by lia.
    cbn [days_of_years]. fold (year_length z).
    assert (365 <= year_length z <= 366) by (unfold year_length; destruct (leap_year z); lia).
    rewrite u32_id, IH by lia. f_equal. lia.
  - replace (Z.to_nat (yy - z)) with 0%nat by lia. cbn. f_equal. lia.
Qed.

Lemma md_spec yy z : 1 <= z <= 12 -> 0 <= yy ->
  exists l, rd md (z - 1) = Some l /\ l + (if (z =? 2) && leap yy then 1 else 0) = month_length yy z.
Proof.
  intros Hz Hy. rewrite leap_spec by done.
  assert (z = 1 \/ z = 2 \/ z = 3 \/ z = 4 \/ z = 5 \/ z = 6 \/ z = 7 \/ z = 8 \/ z = 9 \/ z = 10 \/ z = 11 \/ z = 12)
    as H by lia.
  by decompose [or] H; subst z; eexists; (split; [reflexivity|]); unfold month_length; cbn;
    destruct (leap_year yy).
Qed.

Lemma days_before_bound k y : 0 <= days_before k y <= 31 * Z.of_nat k.
Proof.
  induction k as [|k IH]; cbn [days_before]; [lia|]. pose proof (month_length_bounds y (Z.of_nat (S k))). lia.
Qed.

Lemma month_loop_spec fuel z mo yy n :
  1 <= z <= mo -> mo <= 12 -> 0 <= yy -> mo - z < Z.of_nat fuel -> 0 <= n < 1000000 ->
  month_loop fuel z mo yy (n + days_before (Z.to_nat (z - 1)) yy)
  = Some (n + days_before (Z.to_nat (mo - 1)) yy).
Proof.
  revert z. induction fuel as [|f IH]; intros z Hz Hm Hy Hf Hn; [lia|]. cbn [month_loop].
  destruct (Z.ltb_spec z mo) as [Hl|Hl]; [|by replace z with mo by lia].
  destruct (md_spec yy z) as (l & Hl1 & Hl2); [lia|lia|].
  rewrite Hl1. cbn [mbind option_bind]. rewrite Hl2.
  rewrite <- (IH (z + 1)) by lia. f_equal.
  replace (Z.to_nat (z + 1 - 1)) with (S (Z.to_nat (z - 1))) by lia. cbn [days_before].
  replace (Z.of_nat (S (Z.to_nat (z - 1)))) with z by lia.
  pose proof (days_before_bound (Z.to_nat (z - 1)) yy). pose proof (month_length_bounds yy z).
  rewrite u32_id; lia.
Qed.

(** ** Dates *)

(** A moment, in coordinated universal time. *)
Record moment := mk_moment { m_date : date; m_hour : Z; m_min : Z; m_sec : Z }.

Definition date_ok (x : date) : Prop :=
  let '(y, m, d) := x in 2020 <= y <= 2199 /\ 1 <= m <= 12 /\ 1 <= d <= month_length y m.

Definition moment_ok (t : moment) : Prop :=
  date_ok (m_date t) /\ 0 <= m_hour t <= 23 /\ 0 <= m_min t <= 59 /\ 0 <= m_sec t <= 60.

Definition second_of_day (t : moment) : Z := m_hour t * 3600 + m_min t * 60 + m_sec t.

(** The numbers the code computes for a date and a time that pass its tests. *)
Lemma date_number_spec r y m d :
  full_year r = y -> mon r = m -> day r = d -> date_ok (y, m, d) ->
  0 <= hour r <= 23 -> 0 <= min r <= 59 -> 0 <= sec r <= 60 ->
  exists n, date_number r = Some (Some (n, hour r * 3600 + min r * 60 + sec r)) /\
            days_later (0, 1, 1) n (y, m, d).
Proof.
  intros Hy Hm Hd (Hy1 & Hm1 & Hd1) Hh Hmi Hs. unfold date_number. rewrite Hy, Hm, Hd. pose proof (month_length_bounds y m).
  repeat match goal with |- context [?a <? ?b] => destruct (Z.ltb_spec a b); [lia|] end. cbn [orb].
  pose proof (days_of_years_bound (Z.to_nat (y - 1970)) 1970).
  rewrite year_loop_spec by lia. cbn [mbind option_bind]. rewrite Z.add_0_l.
  pose proof (month_loop_spec 13 1 m y (days_of_years (Z.to_nat (y - 1970)) 1970)) as Hml.
  change (Z.to_nat (1 - 1)) with 0%nat in Hml. cbn [days_before] in Hml. rewrite Z.add_0_r in Hml.
  rewrite Hml by lia. cbn [mbind option_bind].
  destruct (md_spec y m) as (l & Hl1 & Hl2); [lia|lia|]. rewrite Hl1. cbn [mbind option_bind]. rewrite Hl2.
  destruct (Z.ltb_spec (month_length y m) d); [lia|].
  pose proof (days_before_bound (Z.to_nat (m - 1)) y).
  rewrite (u32_id (hour r * 3600)), (u32_id (min r * 60)), (u32_id (hour r * 3600 + _ + _)) by lia.
  rewrite (u32_id (days_of_years _ _ + _ + _)) by lia. rewrite u32_id by lia.
  eexists. split; [reflexivity|]. eapply days_later_trans; [apply epoch|].
  eapply days_later_trans; [|by apply days_in_month].
  pose proof (years_later (Z.to_nat (y - 1970)) 1970) as Hyl.
  pose proof (months_later y (Z.to_nat (m - 1)) ltac:(lia)) as Hml2.
  replace (1970 + Z.of_nat (Z.to_nat (y - 1970))) with y in Hyl by lia.
  replace (1 + Z.of_nat (Z.to_nat (m - 1))) with m in Hml2 by lia.
  by eapply days_later_trans.
Qed.

(** ** The registers of a clock *)

(** Register B: binary or decimal, 24 or 12 hours. *)
Definition binary (b : Z) : bool := Z.testbit b 2.
Definition hours24 (b : Z) : bool := Z.testbit b 1.

Definition digits (b x : Z) : Z := if binary b then x else x / 10 * 16 + x mod 10.

(** Hours on 12 go from 12 to 11, with bit 7 in the afternoon. *)
Definition hour_reg (b h : Z) : Z :=
  if hours24 b then digits b h
  else digits b ((h + 11) mod 12 + 1) + (if 12 <=? h then 0x80 else 0).

Definition registers (b : Z) (t : moment) : rtc :=
  let '(y, m, d) := m_date t in
  mk_rtc (digits b (m_sec t)) (digits b (m_min t)) (hour_reg b (m_hour t)) (digits b d) (digits b m)
    (digits b (y mod 100)) (digits b (y / 100)) b.

Lemma land_bit_clear b k : 0 <= k -> (Z.land b (2 ^ k) =? 0) = negb (Z.testbit b k).
Proof.
  intros Hk. destruct (Z.testbit b k) eqn:E; cbn [negb].
  - apply Z.eqb_neq. intros H. assert (Z.testbit (Z.land b (2 ^ k)) k = true) as Ht.
    { by rewrite Z.land_spec, E, Z.pow2_bits_true. }
    by rewrite H, Z.bits_0 in Ht.
  - apply Z.eqb_eq. apply Z.bits_inj'. intros i Hi. rewrite Z.land_spec, Z.bits_0, Z.pow2_bits_eqb by done.
    destruct (Z.eqb_spec k i) as [<-|]; [by rewrite E|apply andb_false_r].
Qed.

Lemma bcd_digits x : 0 <= x < 100 -> u8 (bcd (x / 10 * 16 + x mod 10)) = x.
Proof.
  intros Hx. apply Z.eqb_eq. refine (below_spec 100 (fun x => _ =? x) _ x Hx). vm_compute. reflexivity.
Qed.

Lemma hour_digits b h : 0 <= h < 24 ->
  let x := hour_reg b h in
  let f := if Z.land b 4 =? 0 then fun x => u8 (bcd x) else fun x => x in
  let pm := negb (Z.land x 0x80 =? 0) in
  let y := f (Z.land x 0x7f) in
  (if Z.land b 2 =? 0 then
     let y := if pm && (y <? 12) then u8 (y + 12) else y in
     if negb pm && (y =? 12) then 0 else y
   else y) = h.
Proof.
  intros Hh. cbv zeta. unfold hour_reg, digits, hours24, binary.
  pose proof (land_bit_clear b 2 ltac:(lia)) as E4. pose proof (land_bit_clear b 1 ltac:(lia)) as E2.
  change (2 ^ 2) with 4 in E4. change (2 ^ 1) with 2 in E2. rewrite E4, E2. clear E4 E2.
  apply Z.eqb_eq. destruct (Z.testbit b 2), (Z.testbit b 1); cbn [negb];
    refine (below_spec 24 (fun h => _ =? h) _ h Hh); vm_compute; reflexivity.
Qed.

Lemma digits_read b x : 0 <= x < 100 ->
  (if Z.land b 4 =? 0 then fun x => u8 (bcd x) else fun x => x) (digits b x) = x.
Proof.
  intros Hx. pose proof (land_bit_clear b 2 ltac:(lia)) as E4. change (2 ^ 2) with 4 in E4. rewrite E4.
  unfold digits, binary. destruct (Z.testbit b 2); [done|]. cbn [negb]. by apply bcd_digits.
Qed.

Lemma normalise_registers b t : moment_ok t ->
  let '(y, m, d) := m_date t in
  normalise (registers b t) = mk_rtc (m_sec t) (m_min t) (m_hour t) d m (y mod 100) (y / 100) b.
Proof.
  destruct t as [[[y m] d] h mi s]. intros ((Hy & Hm & Hd) & Hh & Hmi & Hs).
  unfold registers, normalise. cbn [m_date m_hour m_min m_sec sec min hour day mon year cent regb] in *.
  pose proof (month_length_bounds y m). cbv zeta. rewrite !digits_read by zlia. f_equal.
  pose proof (hour_digits b h ltac:(lia)) as Hd'. cbv zeta in Hd'. exact Hd'.
Qed.

Section time.
Context {E : Type} `{!Platform E}.

(** Two consecutive readings agree on the registers returned. *)
Lemma rtc_snapshot_stable fuel (e e' : E) r :
  rtc_snapshot fuel e = Ok (Some r, e') ->
  exists e1 e2 e3, read_regs e1 = (r, e2) /\ update_wait fuel e2 = Ok e3 /\ read_regs e3 = (r, e').
Proof.
  unfold rtc_snapshot. revert e. generalize 8%nat as k. induction k as [|k IH]; intros e; [done|].
  cbn [snapshot_loop]. destruct (update_wait fuel e) as [e1| |]; cbn [mbind res_bind]; [|done|done].
  destruct (read_regs e1) as [r1 e2] eqn:E1.
  destruct (update_wait fuel e2) as [e3| |] eqn:E2; cbn [mbind res_bind]; [|done|done].
  destruct (read_regs e3) as [r2 e4] eqn:E3. case_decide as H; [|by apply IH].
  intros [= -> ->]. subst r1. by exists e1, e2, e3.
Qed.
End time.

(** C22. Whatever format the clock chip is in, decimal or binary, on 12 or on 24
    hours, a date from 2020 to 2199 in its registers becomes the number of days
    since January 1st of the year 0 of the Gregorian calendar, counted from one
    day to the next, and the second of the day. *)
Theorem tls_time_correct {E} `{!Platform E} fuel (e e' : E) b t :
  rtc_snapshot fuel e = Ok (Some (registers b t), e') -> moment_ok t ->
  exists n, tls_time fuel e = Ok (Some (n, second_of_day t), e') /\ days_later (0, 1, 1) n (m_date t).
Proof.
  intros Hs Ht. unfold tls_time. rewrite Hs. cbn [mbind res_bind].
  pose proof (normalise_registers b t Ht) as Hn. destruct t as [[[y m] d] h mi s].
  cbn [m_date] in *. rewrite Hn. destruct Ht as (Hd & Hh & Hmi & Hsec). cbn [m_date m_hour m_min m_sec] in *.
  destruct (date_number_spec (mk_rtc s mi h d m (y mod 100) (y / 100) b) y m d) as (n & Hn1 & Hn2);
    cbn [sec min hour day mon]; try done.
  { destruct Hd as [Hy _]. unfold full_year. cbn [cent year].
    destruct (Z.leb_spec 19 (y / 100)); [|zlia]. destruct (Z.leb_spec (y / 100) 99); cbn [andb]; zlia. }
  exists n. rewrite Hn1. done.
Qed.

(** A number given is a day of the calendar, whatever the registers hold. *)
Lemma date_number_valid r n s :
  0 <= hour r -> 0 <= min r -> 0 <= sec r -> date_number r = Some (Some (n, s)) ->
  exists t, moment_ok t /\ days_later (0, 1, 1) n (m_date t) /\ s = second_of_day t.
Proof.
  intros Hh Hm Hs E. pose proof E as Hg. unfold date_number in Hg. cbv zeta in Hg.
  destruct (_ || (60 <? sec r)) eqn:G; [done|]. repeat (apply orb_false_iff in G as [G ?%Z.ltb_ge]).
  apply Z.ltb_ge in G. rewrite year_loop_spec in Hg by lia. cbn [mbind option_bind] in Hg.
  destruct (month_loop _ _ _ _ _) as [k|]; [|done]. cbn [mbind option_bind] in Hg.
  destruct (md_spec (full_year r) (mon r)) as (l & Hl1 & Hl2); [lia|lia|].
  rewrite Hl1 in Hg. cbn [mbind option_bind] in Hg. rewrite Hl2 in Hg.
  destruct (Z.ltb_spec (month_length (full_year r) (mon r)) (day r)); [done|]. clear Hg.
  set (t := mk_moment (full_year r, mon r, day r) (hour r) (min r) (sec r)).
  assert (Ht : moment_ok t) by (repeat split; cbn; lia).
  destruct (date_number_spec r (full_year r) (mon r) (day r)) as (n' & E' & Hd); try done; try lia.
  rewrite E in E'. injection E' as -> ->. by exists t.
Qed.

Lemma normalise_nonneg r :
  0 <= hour r -> 0 <= min r -> 0 <= sec r ->
  0 <= hour (normalise r) /\ 0 <= min (normalise r) /\ 0 <= sec (normalise r).
Proof.
  intros Hh Hm Hs. unfold normalise. cbn [hour min sec].
  assert (0 <= Z.land (hour r) 127) by (apply Z.land_nonneg; lia).
  destruct (Z.land (regb r) 4 =? 0); cbv zeta;
    (split; [destruct (Z.land (regb r) 2 =? 0); repeat case_match; lia || apply u8_range|]);
    try (split; apply u8_range); done.
Qed.

(** A clock reports a day of the calendar or nothing. *)
Theorem tls_time_valid {E} `{!Platform E} fuel (e e' : E) n s :
  (forall p e, 0 <= fst (inb p e)) -> tls_time fuel e = Ok (Some (n, s), e') ->
  exists t, moment_ok t /\ days_later (0, 1, 1) n (m_date t) /\ s = second_of_day t.
Proof.
  intros Hin. unfold tls_time. destruct (rtc_snapshot fuel e) as [[[r|] e1]| |] eqn:Hr; cbn [mbind res_bind]; try done.
  destruct (date_number (normalise r)) as [[[k d]|]|] eqn:Hk; cbn; try done. intros [= -> -> ->].
  apply rtc_snapshot_stable in Hr as (e2 & e3 & e4 & Hr & _).
  assert (0 <= hour r /\ 0 <= min r /\ 0 <= sec r) as (H1 & H2 & H3).
  { unfold read_regs, cmos in Hr.
    repeat match type of Hr with
      | context [inb ?p ?x] => pose proof (Hin p x); destruct (inb p x) as [? ?]
      end. injection Hr as <- _. cbn in *. lia. }
  destruct (normalise_nonneg r H1 H2 H3) as (? & ? & ?). by apply (date_number_valid (normalise r)).
Qed.

(** The conversion stays inside its table. *)
Lemma date_number_safe r : is_Some (date_number r).
Proof.
  unfold date_number. cbv zeta. destruct (_ || (60 <? sec r)) eqn:G; [by eexists|].
  repeat (apply orb_false_iff in G as [G ?%Z.ltb_ge]). apply Z.ltb_ge in G.
  rewrite year_loop_spec by lia. cbn [mbind option_bind]. rewrite Z.add_0_l.
  pose proof (days_of_years_bound (Z.to_nat (full_year r - 1970)) 1970).
  pose proof (month_loop_spec 13 1 (mon r) (full_year r)
    (days_of_years (Z.to_nat (full_year r - 1970)) 1970)) as Hml.
  change (Z.to_nat (1 - 1)) with 0%nat in Hml. cbn [days_before] in Hml. rewrite Z.add_0_r in Hml.
  rewrite Hml by lia. cbn [mbind option_bind].
  destruct (md_spec (full_year r) (mon r)) as (l & -> & _); [lia|lia|]. cbn [mbind option_bind].
  destruct (_ <? day r); by eexists.
Qed.

Lemma tls_time_safe {E} `{!Platform E} fuel (e : E) : safe True (tls_time fuel e) (fun _ => True).
Proof.
  unfold tls_time. apply (safe_bind _ _ _ (fun _ => True)).
  - unfold rtc_snapshot. revert e. generalize 8%nat. intros k.
    assert (W : forall k (e : E), safe True (update_wait k e) (fun _ => True)).
    { clear. induction k as [|k IH]; intros e; [done|]. cbn [update_wait]. destruct (cmos 10 e) as [v e1].
      by destruct (_ =? 0). }
    induction k as [|k IH]; intros e; [done|]. cbn [snapshot_loop].
    apply (safe_bind _ _ _ (fun _ => True)); [apply W|]. intros e1 _. destruct (read_regs e1) as [r1 e2].
    apply (safe_bind _ _ _ (fun _ => True)); [apply W|]. intros e3 _. destruct (read_regs e3) as [r2 e4].
    by case_decide.
  - intros [[r|] e1] _; [|done]. by destruct (date_number_safe (normalise r)) as [t ->].
Qed.

(** ** Random bytes *)

Definition word_bytes (v : Z) : bytes := map (fun i => u8 (Z.shiftr v (Z.of_nat i * 8))) (seq 0 8).

Section random.
Context {E : Type} `{!Platform E}.

(** Words the instruction gave with its carry set; refusals in between. *)
Inductive drawn : E -> list Z -> E -> Prop :=
| drawn_none e : drawn e [] e
| drawn_refused e v e' ws e'' : rdrand e = (v, false, e') -> drawn e' ws e'' -> drawn e ws e''
| drawn_word e v e' ws e'' : rdrand e = (v, true, e') -> drawn e' ws e'' -> drawn e (v :: ws) e''.

Lemma draw_drawn k e v e' : draw k e = (Some v, e') ->
  forall ws e'', drawn e' ws e'' -> drawn e (v :: ws) e''.
Proof.
  revert e. induction k as [|k IH]; intros e; cbn [draw]; [done|].
  destruct (rdrand e) as [[w ok] e1] eqn:Hr. destruct ok.
  - intros [= -> ->] ws e'' H. by eapply drawn_word.
  - intros H ws e'' Hd. eapply drawn_refused; [done|]. by eapply IH.
Qed.

Lemma put_word_spec k pre rest n v i :
  n <= len pre + len rest -> 0 <= i ->
  let ws := map (fun j => u8 (Z.shiftr v (Z.of_nat j * 8))) (seq (Z.to_nat i) k) in
  let m := Nat.min k (Z.to_nat (n - len pre)) in
  put_word k (pre ++ rest) n v i (len pre)
  = Some (pre ++ take m ws ++ drop m rest, len pre + Z.of_nat m).
Proof.
  revert pre rest i. induction k as [|k IH]; intros pre rest i Hn Hi; cbn [put_word].
  { cbn. by rewrite Z.add_0_r. }
  destruct (Z.ltb_spec (len pre) n).
  - destruct rest as [|x rest]; [cbn [length] in *; lia|].
    rewrite wr_Some by (rewrite length_app; cbn [length]; lia). cbn [mbind option_bind].
    rewrite Nat2Z.id, insert_app_r_alt, Nat.sub_diag by lia. cbn [insert list_insert].
    change (?a :: rest) with ([a] ++ rest).
    set (b := u8 (Z.shiftr v (i * 8))). rewrite (app_assoc pre [b] rest).
    replace (len pre + 1) with (len (pre ++ [b])) by (rewrite length_app; cbn; lia).
    rewrite IH by (rewrite ?length_app; cbn [length] in *; lia).
    rewrite length_app. cbn [length].
    replace (Nat.min (S k) (Z.to_nat (n - len pre)))
      with (S (Nat.min k (Z.to_nat (n - Z.of_nat (length pre + 1))))) by lia.
    set (m := Nat.min k _). cbn [seq map take drop]. f_equal. f_equal; [|lia].
    rewrite <- app_assoc. cbn [app]. do 2 f_equal; [unfold b; do 3 f_equal; lia|].
    by replace (S (Z.to_nat i)) with (Z.to_nat (i + 1)) by lia.
  - replace (Nat.min (S k) (Z.to_nat (n - len pre))) with 0%nat by lia. cbn [take drop app].
    by rewrite Z.add_0_r.
Qed.

(** The first [n] bytes of [out] are those of the words drawn. *)
Definition random_bytes (e : E) (pre out : bytes) (n : Z) (e' : E) : Prop :=
  exists ws, drawn e ws e' /\ n <= len (pre ++ concat (word_bytes <$> ws)) /\
    take (Z.to_nat n) out = take (Z.to_nat n) (pre ++ concat (word_bytes <$> ws)).

Lemma entropy_loop_spec fuel pre rest n e :
  len pre <= n <= len pre + len rest -> n - len pre < Z.of_nat fuel ->
  exists r out e', entropy_loop fuel (pre ++ rest) n (len pre) e = Ok (r, out, e') /\
    length out = (length pre + length rest)%nat /\ (r = 0 \/ r = 1 /\ random_bytes e pre out n e').
Proof.
  revert pre rest e. induction fuel as [|f IH]; intros pre rest e Hn Hf; [lia|]. cbn [entropy_loop].
  destruct (Z.ltb_spec (len pre) n).
  2: { do 3 eexists. split; [reflexivity|]. rewrite length_app. split; [done|right]. split; [done|].
       exists []. split; [constructor|]. cbn. rewrite app_nil_r. split; [lia|].
       by rewrite take_app_le, take_ge by lia. }
  destruct (draw 16 e) as [v e1] eqn:Hd. destruct v as [v|].
  2: { do 3 eexists. split; [reflexivity|]. rewrite length_app. split; [done|by left]. }
  rewrite (put_word_spec 8 pre rest n v 0) by lia. cbn [ub mbind res_bind].
  change (map _ (seq (Z.to_nat 0) 8)) with (word_bytes v).
  set (m := Nat.min 8 (Z.to_nat (n - len pre))). assert (Hm : (length (take m (word_bytes v)) = m)%nat).
  { rewrite length_take. change (length (word_bytes v)) with 8%nat. lia. }
  rewrite app_assoc. replace (len pre + Z.of_nat m) with (len (pre ++ take m (word_bytes v)))
    by (rewrite length_app; lia).
  destruct (IH (pre ++ take m (word_bytes v)) (drop m rest) e1) as (r & out & e' & -> & Hl & Hr).
  { rewrite length_app, length_drop. lia. }
  { rewrite length_app. lia. }
  do 3 eexists. split; [reflexivity|]. rewrite length_app, length_drop in Hl. split; [lia|].
  destruct Hr as [|[-> (ws & Hws & Hlen & Hout)]]; [by left|right]. split; [done|].
  exists (v :: ws). split; [by eapply draw_drawn|]. cbn [fmap list_fmap concat].
  destruct (decide (m = 8%nat)) as [E8|].
  - assert (take m (word_bytes v) = word_bytes v) as Ht by (by rewrite E8).
    rewrite Ht, <- app_assoc in Hlen, Hout. by split.
  - rewrite !length_app in *. change (length (word_bytes v)) with 8%nat. split; [lia|].
    rewrite Hout. rewrite take_app_le by (rewrite length_app; lia).
    rewrite take_ge by (rewrite length_app; lia). rewrite app_assoc.
    rewrite take_app_le by (rewrite length_app; change (length (word_bytes v)) with 8%nat; lia).
    rewrite take_app_ge by lia. f_equal. f_equal. lia.
Qed.
End random.

(** [entropy_bytes] returns with random bytes only: it says 1 when the
    processor has RDRAND and the whole buffer holds the bytes, least significant
    first, of words the instruction gave with its carry flag set; sixteen
    refusals in a row, or no RDRAND, are a failure. *)
Theorem entropy_bytes_correct {E} `{!Platform E} out n (e : E) :
  0 <= n <= len out ->
  exists r out' e', entropy_bytes out n e = Ok (r, out', e') /\ length out' = length out /\
    (r = 0 \/ r = 1 /\ Z.testbit (cpuid1 e) 30 = true /\ random_bytes e [] out' n e').
Proof.
  intros Hn. unfold entropy_bytes.
  pose proof (land_bit_clear (cpuid1 e) 30 ltac:(lia)) as Hb. change (Z.shiftl 1 30) with (2 ^ 30). rewrite Hb.
  destruct (Z.testbit (cpuid1 e) 30); cbn [negb].
  - destruct (entropy_loop_spec (S (Z.to_nat n)) [] out n e) as (r & out' & e' & H & Hl & Hr); [cbn [length]; lia..|].
    cbn [app length] in H. change (Z.of_nat 0) with 0 in H. rewrite H. do 3 eexists.
    split; [reflexivity|]. split; [done|]. destruct Hr as [|[-> Hr]]; [by left|by right].
  - do 3 eexists. split; [reflexivity|]. split; [done|by left].
Qed.

(** ** A clock chip *)
Module Chip.

(** The index register, and a generator; a word in three is refused. *)
Record chip := mk_chip { index : Z; next_word : Z }.

Definition cell (b : Z) (t : moment) (reg : Z) : Z :=
  let r := registers b t in
  if reg =? 0 then sec r else if reg =? 2 then min r else if reg =? 4 then hour r
  else if reg =? 7 then day r else if reg =? 8 then mon r else if reg =? 9 then year r
  else if reg =? 0x32 then cent r else if reg =? 0x0b then regb r else 0.

Definition chip_platform (b : Z) (t : moment) : Platform chip := {|
  outb p v e := if p =? 0x70 then mk_chip (Z.land v 0x7f) (next_word e) else e;
  inb p e := (if p =? 0x71 then cell b t (index e) else 0xff, e);
  cpuid leaf e := (0, 0, 0x40000000, 0);
  rdrand e := (next_word e * 0x0123456789abcdef mod 2 ^ 64, negb (next_word e mod 3 =? 0),
               mk_chip (index e) (next_word e + 1))
|}.

(** New Year's Eve of a leap year, at twelve past midnight, on 12 hours, in decimal. *)
Definition eve : moment := mk_moment (2024, 12, 31) 0 12 59.

Lemma tls_time_correct_witness :
  exists n, tls_time (Platform0 := chip_platform 0 eve) 3 (mk_chip 0 1) = Ok (Some (n, 779), mk_chip 0x0b 1) /\
            days_later (0, 1, 1) n (2024, 12, 31).
Proof.
  apply (tls_time_correct (Platform0 := chip_platform 0 eve) 3 (mk_chip 0 1) (mk_chip 0x0b 1) 0 eve).
  - vm_compute. reflexivity.
  - repeat split; cbn; lia.
Defined.

Example eve_number :
  tls_time (Platform0 := chip_platform 0 eve) 3 (mk_chip 0 1) = Ok (Some (739616, 779), mk_chip 0x0b 1).
Proof. vm_compute. reflexivity. Qed.

(** February 30th is no date. *)
Example no_such_day :
  date_number (mk_rtc 0 0 0 30 2 24 20 2) = Some None.
Proof. vm_compute. reflexivity. Qed.

Lemma tls_time_valid_witness :
  exists t, moment_ok t /\ days_later (0, 1, 1) 739616 (m_date t) /\ 779 = second_of_day t.
Proof.
  apply (tls_time_valid (Platform0 := chip_platform 0 eve) 3 (mk_chip 0 1) (mk_chip 0x0b 1)).
  - intros p e. cbn. destruct (p =? 0x71); [|done]. unfold cell. repeat case_match; vm_compute; discriminate.
  - vm_compute. reflexivity.
Defined.

Lemma entropy_bytes_correct_witness :
  exists r out e', entropy_bytes (Platform0 := chip_platform 0 eve) (replicate 12 0) 12 (mk_chip 0 1)
    = Ok (r, out, e') /\ length out = 12%nat /\
    (r = 0 \/ r = 1 /\ Z.testbit (cpuid1 (Platform0 := chip_platform 0 eve) (mk_chip 0 1)) 30 = true /\
       random_bytes (Platform0 := chip_platform 0 eve) (mk_chip 0 1) [] out 12 e').
Proof.
  apply (entropy_bytes_correct (Platform0 := chip_platform 0 eve) (replicate 12 0) 12 (mk_chip 0 1)).
  split; [discriminate|vm_compute; discriminate].
Defined.

Example twelve_bytes :
  entropy_bytes (Platform0 := chip_platform 0 eve) (replicate 12 0) 12 (mk_chip 0 1)
  = Ok (1, [0xef; 0xcd; 0xab; 0x89; 0x67; 0x45; 0x23; 0x01; 0xde; 0x9b; 0x57; 0x13], mk_chip 0 3).
Proof. vm_compute. reflexivity. Qed.
End Chip.
