(* ===== verification/TlsFrame.v ===== *)
(** * kernel/tls.c: the boundary of an HTTP message

    Lines 15-28: whether the bytes received so far are a complete message.  The
    exchange stops reading at that point.  The scanning loops
    [while(p<n&&f(b[p]))p++] are [Http.skip], the ones that move an end
    backwards over blanks are [Http.trim_end].  A result [None] is an access
    outside the buffer. *)

From S2P Require Import Prelude NetEnv Cstr Http HttpChunked HttpUrl HttpGet HttpSafe.

Definition SIZE_MAX : Z := 18446744073709551615.
Definition COMMA : Z := 44.

(** [while(i<n&&lit[i])] and the test behind it. *)
Fixpoint span_eq_loop (fuel : nat) (b : bytes) (o n : Z) (l : bytes) (i : Z) : option bool :=
  match fuel with
  | O => None
  | S f =>
      c ← rd l i;
      if i <? n then
        if c =? 0 then Some false
        else
          x ← rd b (o + i);
          if negb (lower_ascii x =? lower_ascii c) then Some false else span_eq_loop f b o n l (i + 1)
      else Some (c =? 0)
  end.

(** The span is [b+o], [n] bytes; [l] a literal with its terminator. *)
Definition span_eq_ci (b : bytes) (o n : Z) (l : bytes) : option bool :=
  span_eq_loop (S (length l)) b o n l 0.

(** [head_end] and [body_off]. *)
Definition header_boundary (b : bytes) (n : Z) : option (option (Z * Z)) :=
  r ← find_bytes b n [CR; LF; CR; LF];
  match r with
  | Some i => Some (Some (i, i + 4))
  | None =>
      r ← find_bytes b n [LF; LF];
      match r with Some i => Some (Some (i, i + 2)) | None => Some None end
  end.

(** [while(p<n)]; [n] is the offset of the end of the value. *)
Fixpoint has_chunked_loop (fuel : nat) (b : bytes) (n p : Z) : option bool :=
  match fuel with
  | O => None
  | S f =>
      if p <? n then
        a ← skip b n (fun c => (c =? SP) || (c =? HT) || (c =? COMMA)) p;
        p ← skip b n (fun c => negb (c =? COMMA) && negb (c =? SEMICOLON) && negb (c =? SP) && negb (c =? HT)) a;
        hit ← span_eq_ci b a (p - a) (lit "chunked");
        if (hit : bool) then Some true
        else p ← skip b n (fun c => negb (c =? COMMA)) p; has_chunked_loop f b n p
      else Some false
  end.

Definition value_has_chunked (b : bytes) (o n : Z) : option bool :=
  has_chunked_loop (S (Z.to_nat n)) b (o + n) o.

(** [while(p<n&&s[p]>='0'&&s[p]<='9')]; [None] inside on overflow. *)
Fixpoint dec_loop (fuel : nat) (b : bytes) (n p v digits : Z) : option (option (Z * Z * Z)) :=
  match fuel with
  | O => None
  | S f =>
      if p <? n then
        c ← rd b p;
        if is_digit c then
          let d := c - 48 in
          if (SIZE_MAX - d) / 10 <? v then Some None
          else dec_loop f b n (p + 1) (v * 10 + d) (digits + 1)
        else Some (Some (p, v, digits))
      else Some (Some (p, v, digits))
  end.

Definition parse_dec (b : bytes) (o n : Z) : option (option Z) :=
  p ← skip b (o + n) blank o;
  r ← dec_loop (S (Z.to_nat n)) b (o + n) p 0 0;
  match r with
  | None => Some None
  | Some (p, v, digits) =>
      p ← skip b (o + n) blank p;
      Some (if (digits =? 0) || negb (p =? o + n) then None else Some v)
  end.

Definition parse_status (b : bytes) (n : Z) : option Z :=
  p ← skip b n (fun c => negb (c =? SP) && negb (c =? CR) && negb (c =? LF)) 0;
  p ← skip b n (fun c => c =? SP) p;
  if n <=? p + 2 then Some (-1)
  else
    c0 ← rd b p; c1 ← rd b (p + 1); c2 ← rd b (p + 2);
    if is_digit c0 && is_digit c1 && is_digit c2
    then Some ((c0 - 48) * 100 + (c1 - 48) * 10 + (c2 - 48)) else Some (-1).

(** ** Chunked bodies *)

(** [while(q<end)]: the digits of a size; [None] inside on overflow. *)
Fixpoint hex_loop (fuel : nat) (b : bytes) (e q size digits : Z) : option (option (Z * Z * Z)) :=
  match fuel with
  | O => None
  | S f =>
      if q <? e then
        c ← rd b q;
        let v := hexval c in
        if v <? 0 then Some (Some (q, size, digits))
        else if (SIZE_MAX - v) / 16 <? size then Some None
        else hex_loop f b e (q + 1) (size * 16 + v) (digits + 1)
      else Some (Some (q, size, digits))
  end.

(** [if(end>p&&b[end-1]=='\r')end--;] *)
Definition drop_cr (b : bytes) (p e : Z) : option Z :=
  if p <? e then c ← rd b (e - 1); Some (if c =? CR then e - 1 else e) else Some e.

(** [while(le<n&&b[le]!='\n')le++;] *)
Definition line_end (b : bytes) (n p : Z) : option Z := skip b n (fun c => negb (c =? LF)) p.

(** The trailer: the result of the call. *)
Fixpoint trailer_loop (fuel : nat) (b : bytes) (n p : Z) : option Z :=
  match fuel with
  | O => None
  | S f =>
      if n <=? p then Some 0
      else
        te ← line_end b n p;
        if n <=? te then Some 0
        else
          e ← drop_cr b p te;
          if e - p =? 0 then Some 1 else trailer_loop f b n (te + 1)
  end.

(** A size line from [p] to [le]; [None] inside when it is malformed. *)
Definition chunk_size (b : bytes) (p le : Z) : option (option Z) :=
  e ← drop_cr b p le;
  q ← skip b e blank p;
  r ← hex_loop (S (Z.to_nat e)) b e q 0 0;
  match r with
  | None => Some None
  | Some (q, size, digits) =>
      if digits =? 0 then Some None
      else
        q ← skip b e blank q;
        if q <? e then c ← rd b q; Some (if negb (c =? SEMICOLON) then None else Some size)
        else Some (Some size)
  end.

(** The line end behind the data: [inl] is the result of the call. *)
Definition chunk_end (b : bytes) (n p : Z) : option (Z + Z) :=
  if n <=? p then Some (inl 0)
  else
    c ← rd b p;
    if c =? CR then
      if n <=? p + 1 then Some (inl 0)
      else c ← rd b (p + 1); Some (if negb (c =? LF) then inl (-1) else inr (p + 2))
    else if c =? LF then Some (inr (p + 1)) else Some (inl (-1)).

(** [for(;;)] *)
Fixpoint chunked_loop (fuel : nat) (b : bytes) (n p : Z) : option Z :=
  match fuel with
  | O => None
  | S f =>
      le ← line_end b n p;
      if n <=? le then Some 0
      else
        r ← chunk_size b p le;
        match r with
        | None => Some (-1)
        | Some size =>
            let p := le + 1 in
            if size =? 0 then trailer_loop (S (Z.to_nat n)) b n p
            else if n - p <? size then Some 0
            else
              r ← chunk_end b n (p + size);
              match r with inl v => Some v | inr p => chunked_loop f b n p end
        end
  end.

Definition chunked_complete (b : bytes) (n p : Z) : option Z := chunked_loop (S (Z.to_nat n)) b n p.

(** ** The header *)

(** What the fields have said so far. *)
Record framing := mk_framing { chunked : bool; content_len : option Z }.

(** The field between [p] and [le]; [None] inside when the call returns -1. *)
Definition field (b : bytes) (p le : Z) (fr : framing) : option (option framing) :=
  e ← drop_cr b p le;
  colon ← skip b e (fun c => negb (c =? COLON)) p;
  if colon <? e then
    ne ← trim_end (S (Z.to_nat colon)) b p colon;
    vs ← skip b e blank (colon + 1);
    ve ← trim_end (S (Z.to_nat e)) b vs e;
    te ← span_eq_ci b p (ne - p) (lit "Transfer-Encoding");
    if (te : bool) then
      hit ← value_has_chunked b vs (ve - vs);
      Some (Some (if (hit : bool) then mk_framing true (content_len fr) else fr))
    else
      cl ← span_eq_ci b p (ne - p) (lit "Content-Length");
      if (cl : bool) then
        v ← parse_dec b vs (ve - vs);
        match v with
        | None => Some None
        | Some v =>
            match content_len fr with
            | Some w => Some (if negb (v =? w) then None else Some (mk_framing (chunked fr) (Some v)))
            | None => Some (Some (mk_framing (chunked fr) (Some v)))
            end
        end
      else Some (Some fr)
  else Some (Some fr).

(** [while(p<he)] *)
Fixpoint fields_loop (fuel : nat) (b : bytes) (he p : Z) (fr : framing) : option (option framing) :=
  match fuel with
  | O => None
  | S f =>
      if p <? he then
        le ← line_end b he p;
        r ← field b p le fr;
        match r with
        | None => Some None
        | Some fr => fields_loop f b he (if le <? he then le + 1 else he) fr
        end
      else Some (Some fr)
  end.

(** 1 complete, 0 more to come, -1 malformed. *)
Definition http_frame_complete (b : bytes) (n : Z) : option Z :=
  r ← header_boundary b n;
  match r with
  | None => Some 0
  | Some (he, bo) =>
      code ← parse_status b he;
      if code <? 0 then Some (-1)
      else if (code =? 204) || (code =? 304) then Some 1
      else
        p ← line_end b he 0;
        r ← fields_loop (S (Z.to_nat he)) b he (if p <? he then p + 1 else p) (mk_framing false None);
        match r with
        | None => Some (-1)
        | Some fr =>
            if chunked fr then chunked_complete b n bo
            else
              match content_len fr with
              | Some v => Some (if SIZE_MAX - bo <? v then -1 else if bo + v <=? n then 1 else 0)
              | None => Some 0
              end
        end
  end.

(** ** The scan stays inside the bytes received *)

Section safety.
Context (b : bytes).

(** The three outcomes. *)
Definition verdict (r : Z) : Prop := r = -1 \/ r = 0 \/ r = 1.

Ltac ends := eexists; split; [reflexivity|unfold verdict; cbn; lia].

Lemma span_eq_ci_safe o n t l :
  cstr l 0 t -> 0 <= o -> 0 <= n -> o + n <= len b -> returns (span_eq_ci b o n l) (fun _ => True).
Proof.
  intros Hl Ho Hn Hb. unfold span_eq_ci. pose proof (cstr_bounds _ _ _ Hl).
  assert (G : forall fuel i t, cstr l i t -> 0 <= i <= n -> (length t < fuel)%nat ->
    returns (span_eq_loop fuel b o n l i) (fun _ => True)); [|apply (G _ 0 t); (done || lia)].
  clear t Hl H. induction fuel as [|f IH]; intros i t Ht Hi Hf; [lia|].
  cbn [span_eq_loop]. rewrite (cstr_rd _ _ _ Ht). cbn [mbind option_bind].
  destruct (Z.ltb_spec i n); [|by eexists].
  destruct t as [|c t]; cbn [head0]; [by eexists|].
  apply cstr_char_inv in Ht as (_ & Hc & Ht). destruct (c =? 0); [by eexists|]. next_rd x Hx.
  destruct (negb _); [by eexists|]. cbn [length] in Hf. apply (IH _ t); [done|lia|lia].
Qed.

Lemma has_chunked_safe fuel n p :
  0 <= p -> n <= len b -> Z.max 0 (n - p) < Z.of_nat fuel ->
  returns (has_chunked_loop fuel b n p) (fun _ => True).
Proof.
  intros Hp Hn. revert p Hp. induction fuel as [|f IH]; intros p Hp Hf; [lia|].
  cbn [has_chunked_loop]. destruct (Z.ltb_spec p n) as [Hl|]; [|by eexists].
  eapply returns_bind; [by apply skip_safe|]. intros a (Ha & Ha' & Hsa).
  eapply returns_bind; [apply skip_safe; lia|]. intros q (Hq & Hq' & Hsq).
  eapply returns_bind.
  { apply (span_eq_ci_safe _ _ (chars "chunked")); [by apply cstr_text|lia..]. }
  intros hit _. destruct hit; [by eexists|].
  eapply returns_bind; [apply skip_safe; lia|]. intros r (Hr & Hr' & Hsr).
  apply IH; [lia|]. destruct (Z.eq_dec p r) as [->|]; [|lia]. assert (a = r) as -> by lia.
  destruct (Hsa Hl) as (c & Hc1 & Hc2), (Hsr Hl) as (c' & Hc1' & Hc2').
  rewrite Hc1 in Hc1'. injection Hc1' as <-. rewrite (negb_false_iff (c =? COMMA)) in Hc2'.
  by rewrite Hc2', orb_true_r in Hc2.
Qed.

Lemma value_has_chunked_safe o n :
  0 <= o -> 0 <= n -> o + n <= len b -> returns (value_has_chunked b o n) (fun _ => True).
Proof. intros. apply has_chunked_safe; lia. Qed.

Lemma trim_end_bounds n fuel v z :
  0 <= v <= z -> z <= n -> n <= len b -> z - v < Z.of_nat fuel ->
  returns (trim_end fuel b v z) (fun r => v <= r <= z).
Proof.
  revert z. induction fuel as [|f IH]; intros z Hv Hz Hn Hf; [lia|]. cbn [trim_end].
  destruct (Z.ltb_spec v z); [|ends]. next_rd c Hc. destruct (blank c); [|ends].
  eapply returns_mono; [apply IH; lia|]. cbn. lia.
Qed.

Lemma dec_loop_safe fuel n p v d :
  0 <= p -> n <= len b -> Z.max 0 (n - p) < Z.of_nat fuel ->
  returns (dec_loop fuel b n p v d) (fun r =>
    match r with Some (q, _, _) => p <= q <= Z.max p n | None => True end).
Proof.
  intros Hp Hn. revert p v d Hp. induction fuel as [|f IH]; intros p v d Hp Hf; [lia|].
  cbn [dec_loop]. destruct (Z.ltb_spec p n); [|eexists; split; [done|cbn; lia]].
  next_rd c Hc. destruct (is_digit c); [|eexists; split; [done|cbn; lia]].
  destruct (_ <? v); [by eexists|]. eapply returns_mono; [apply IH; lia|].
  intros [[[q w] k]|]; [lia|done].
Qed.

Lemma parse_dec_safe o n :
  0 <= o -> 0 <= n -> o + n <= len b -> returns (parse_dec b o n) (fun _ => True).
Proof.
  intros Ho Hn Hb. unfold parse_dec. eapply returns_bind; [apply skip_safe; lia|].
  intros p (Hp & Hp' & _). eapply returns_bind; [apply dec_loop_safe; lia|].
  intros [[[q v] d]|] Hq; [|by eexists]. eapply returns_bind; [apply skip_safe; lia|].
  intros r _. by eexists.
Qed.

Lemma parse_status_safe n :
  n <= len b -> returns (parse_status b n) (fun _ => True).
Proof.
  intros Hn. unfold parse_status. eapply returns_bind; [apply skip_safe; lia|].
  intros p (Hp & Hp' & _). eapply returns_bind; [apply skip_safe; lia|]. intros q (Hq & Hq' & _).
  destruct (Z.leb_spec n (q + 2)); [by eexists|]. next_rd c0 H0. next_rd c1 H1. next_rd c2 H2.
  case_match; by eexists.
Qed.

Lemma drop_cr_safe p e : 0 <= p -> e <= len b ->
  returns (drop_cr b p e) (fun e' => e' <= e /\ (p <= e -> p <= e')).
Proof.
  intros Hp He. unfold drop_cr. destruct (Z.ltb_spec p e); [|eexists; split; [done|lia]].
  next_rd c Hc. case_match; eexists; (split; [done|lia]).
Qed.

Lemma hex_loop_safe fuel e q v d :
  0 <= q -> 0 <= v -> e <= len b -> Z.max 0 (e - q) < Z.of_nat fuel ->
  returns (hex_loop fuel b e q v d) (fun r =>
    match r with Some (q', v', _) => q <= q' <= Z.max q e /\ 0 <= v' | None => True end).
Proof.
  intros Hq Hv He. revert q v d Hq Hv. induction fuel as [|f IH]; intros q v d Hq Hv Hf; [lia|].
  cbn [hex_loop]. destruct (Z.ltb_spec q e); [|eexists; split; [done|cbn; lia]].
  next_rd c Hc. cbv zeta. destruct (Z.ltb_spec (hexval c) 0); [eexists; split; [done|cbn; lia]|].
  destruct (_ <? v); [by eexists|]. eapply returns_mono; [apply IH; lia|].
  intros [[[q' w] k]|]; [lia|done].
Qed.

Lemma chunk_size_safe p le :
  0 <= p -> le <= len b ->
  returns (chunk_size b p le) (fun r => match r with Some v => 0 <= v | None => True end).
Proof.
  intros Hp Hle. unfold chunk_size. eapply returns_bind; [by apply drop_cr_safe|].
  intros e [He _]. eapply returns_bind; [apply skip_safe; lia|]. intros q (Hq & Hq' & _).
  eapply returns_bind; [apply hex_loop_safe; lia|]. intros [[[q1 v] d]|] Hq1; [|by eexists].
  destruct (d =? 0); [by eexists|]. eapply returns_bind; [apply skip_safe; lia|].
  intros q2 (H2 & H2' & _). destruct (Z.ltb_spec q2 e); [|eexists; split; [done|cbn; lia]].
  next_rd c Hc. eexists. split; [done|]. destruct (negb _); [done|lia].
Qed.

Lemma trailer_safe fuel n p :
  0 <= p -> n <= len b -> Z.max 0 (n - p) < Z.of_nat fuel ->
  returns (trailer_loop fuel b n p) verdict.
Proof.
  intros Hp Hn. revert p Hp. induction fuel as [|f IH]; intros p Hp Hf; [lia|].
  cbn [trailer_loop]. destruct (Z.leb_spec n p); [ends|].
  eapply returns_bind; [apply skip_safe; lia|]. intros te (Ht & Ht' & _).
  destruct (Z.leb_spec n te); [ends|].
  eapply returns_bind; [apply drop_cr_safe; lia|]. intros e _.
  destruct (e - p =? 0); [ends|]. apply IH; lia.
Qed.

Lemma chunk_end_safe n p :
  0 <= p -> n <= len b ->
  returns (chunk_end b n p) (fun r => match r with inl v => verdict v | inr q => p < q <= n end).
Proof.
  intros Hp Hn. unfold chunk_end. destruct (Z.leb_spec n p); [ends|].
  next_rd c Hc. destruct (c =? CR).
  - destruct (Z.leb_spec n (p + 1)); [ends|]. next_rd d Hd.
    destruct (negb _); ends.
  - destruct (c =? LF); ends.
Qed.

Lemma chunked_loop_safe fuel n p :
  0 <= p <= n -> n <= len b -> n - p < Z.of_nat fuel -> returns (chunked_loop fuel b n p) verdict.
Proof.
  intros Hp Hn. revert p Hp. induction fuel as [|f IH]; intros p Hp Hf; [lia|].
  cbn [chunked_loop]. eapply returns_bind; [apply skip_safe; lia|]. intros le (Hl & Hl' & _).
  destruct (Z.leb_spec n le); [ends|].
  eapply returns_bind; [apply chunk_size_safe; lia|]. intros [size|] Hsize; [|ends].
  cbv zeta. destruct (size =? 0); [apply trailer_safe; lia|].
  destruct (Z.ltb_spec (n - (le + 1)) size); [ends|].
  eapply returns_bind; [apply chunk_end_safe; lia|]. intros [v|q] Hq; [by eexists|]. apply IH; lia.
Qed.

Lemma field_safe p le fr :
  0 <= p <= le -> le <= len b -> returns (field b p le fr) (fun _ => True).
Proof.
  intros Hp Hle. unfold field. eapply returns_bind; [apply drop_cr_safe; lia|]. intros e [He He'].
  eapply returns_bind; [apply skip_safe; lia|]. intros colon (Hc & Hc' & _).
  destruct (Z.ltb_spec colon e); [|by eexists].
  eapply returns_bind; [apply (trim_end_bounds e); lia|]. intros ne Hne; cbv beta in Hne.
  eapply returns_bind; [apply skip_safe; lia|]. intros vs (Hvs & Hvs' & _).
  eapply returns_bind; [apply (trim_end_bounds e); lia|]. intros ve Hve; cbv beta in Hve.
  eapply returns_bind.
  { apply (span_eq_ci_safe _ _ (chars "Transfer-Encoding")); [by apply cstr_text|lia..]. }
  intros te _. destruct te.
  { eapply returns_bind; [apply value_has_chunked_safe; lia|]. intros hit _. by eexists. }
  eapply returns_bind.
  { apply (span_eq_ci_safe _ _ (chars "Content-Length")); [by apply cstr_text|lia..]. }
  intros cl _. destruct cl; [|by eexists].
  eapply returns_bind; [apply parse_dec_safe; lia|]. intros [v|] _; [|by eexists].
  destruct (content_len fr); by eexists.
Qed.

Lemma fields_safe fuel he p fr :
  0 <= p <= he -> he <= len b -> he - p < Z.of_nat fuel ->
  returns (fields_loop fuel b he p fr) (fun _ => True).
Proof.
  intros Hp Hhe. revert p fr Hp. induction fuel as [|f IH]; intros p fr Hp Hf; [lia|].
  cbn [fields_loop]. destruct (Z.ltb_spec p he); [|by eexists].
  eapply returns_bind; [apply skip_safe; lia|]. intros le (Hl & Hl' & _).
  eapply returns_bind; [apply field_safe; lia|]. intros [fr'|] _; [|by eexists].
  apply IH; destruct (Z.ltb_spec le he); lia.
Qed.

Lemma http_frame_complete_safe n :
  0 <= n <= len b -> returns (http_frame_complete b n) verdict.
Proof.
  intros Hn. unfold http_frame_complete.
  apply (returns_bind _ _ (fun r => match r with Some (he, bo) => 0 <= he <= bo /\ bo <= n | None => True end)).
  { unfold header_boundary. eapply returns_bind; [by apply find_bytes_safe|].
    intros [i|] Hi; [eexists; split; [done|cbn in *; lia]|].
    eapply returns_bind; [by apply find_bytes_safe|].
    intros [j|] Hj; eexists; (split; [done|cbn in *; lia]). }
  intros [[he bo]|] Hb; [|ends].
  eapply returns_bind; [apply parse_status_safe; lia|]. intros code _.
  destruct (code <? 0); [ends|]. destruct (_ || _); [ends|].
  eapply returns_bind; [apply skip_safe; lia|]. intros p (Hp & Hp' & _).
  eapply returns_bind; [apply fields_safe; destruct (Z.ltb_spec p he); lia|].
  intros [fr|] _; [|ends]. destruct (chunked fr); [apply chunked_loop_safe; lia|].
  destruct (content_len fr) as [v|]; [|ends]. destruct (_ <? v); [ends|]. destruct (_ <=? n); ends.
Qed.
End safety.
