(* ===== verification/TlsExact.v ===== *)
(** * kernel/tls.c: the boundary is exact

    [http_frame_complete] on the beginning of a well-formed response: 1 when the
    message is there, 0 while bytes are missing. *)

From S2P Require Import Prelude NetEnv Cstr Http HttpChunked HttpUrl HttpGet HttpSafe TlsFrame.

(** ** Text in a buffer *)

Section text.
Context (b : bytes).

(** The bytes [l] stand at [p]. *)
Fixpoint text (p : Z) (l : bytes) : Prop :=
  match l with [] => True | c :: l' => rd b p = Some c /\ text (p + 1) l' end.

Lemma text_app p l1 l2 : text p (l1 ++ l2) <-> text p l1 /\ text (p + len l1) l2.
Proof.
  revert p. induction l1 as [|c l1 IH]; intros p; cbn [text app length].
  { rewrite Z.add_0_r. tauto. }
  rewrite IH. replace (p + 1 + len l1) with (p + Z.of_nat (S (length l1))) by lia. tauto.
Qed.

Lemma text_bound p l : l <> [] -> text p l -> 0 <= p /\ p + len l <= len b.
Proof.
  revert p. induction l as [|c l IH]; intros p Hl; [done|]. cbn [text length]. intros [Hc H].
  apply rd_inv in Hc as [Hc _]. destruct l as [|d l]; [cbn; lia|].
  apply IH in H; [|done]. cbn [length] in *. lia.
Qed.

Lemma text_rd p l i : text p l -> 0 <= i < len l -> rd b (p + i) = l !! Z.to_nat i.
Proof.
  revert p i. induction l as [|c l IH]; intros p i; cbn [text length]; [lia|]. intros [Hc H] Hi.
  destruct (Z.eq_dec i 0) as [->|Hi0]; [by rewrite Z.add_0_r|].
  replace (p + i) with (p + 1 + (i - 1)) by lia. rewrite IH by (done || lia).
  by replace (Z.to_nat i) with (S (Z.to_nat (i - 1))) by lia.
Qed.

(** A scan over characters that satisfy [f], cut off by the end [n]. *)
Lemma skip_run n f p l c :
  text p (l ++ [c]) -> Forall (fun x => f x = true) l -> f c = false -> p <= n ->
  skip b n f p = Some (Z.min n (p + len l)).
Proof.
  intros Ht Hl Hc Hp. unfold skip.
  assert (G : forall fuel p l, text p (l ++ [c]) -> Forall (fun x => f x = true) l -> p <= n ->
    n - p < Z.of_nat fuel -> skip_while fuel b n f p = Some (Z.min n (p + len l))).
  2: { apply G; try done. destruct (text_bound p (l ++ [c])); [by destruct l|done|]. lia. }
  clear p l Ht Hl Hp. induction fuel as [|k IH]; intros p l Ht Hl Hp Hf; [lia|]. cbn [skip_while].
  destruct (Z.ltb_spec p n); [|f_equal; lia].
  destruct Hl as [|x l Hx Hl]; cbn [app text length] in *; destruct Ht as [-> Ht];
    cbn [mbind option_bind].
  - rewrite Hc. f_equal. lia.
  - rewrite Hx, (IH (p + 1) l) by (done || lia). f_equal. lia.
Qed.
End text.

Lemma text_intro (a l r : bytes) : text (a ++ l ++ r) (len a) l.
Proof.
  revert a. induction l as [|c l IH]; intros a; [done|]. cbn [text app]. split.
  - rewrite rd_app_r by lia. by rewrite Z.sub_diag.
  - specialize (IH (a ++ [c])). rewrite length_app in IH. cbn [length] in IH.
    rewrite <- app_assoc in IH. cbn [app] in IH. by replace (len a + 1) with (Z.of_nat (length a + 1)) by lia.
Qed.

(** ** Chunked bodies *)

Definition no_lf (l : bytes) : Prop := Forall (fun c => c <> LF) l.
Definition no_eol (l : bytes) : Prop := Forall (fun c => eol c = false) l.

Lemma no_eol_lf l : no_eol l -> no_lf l.
Proof.
  intros H. eapply List.Forall_impl; [|exact H]. intros c. unfold eol. intros E ->.
  by rewrite orb_true_r in E.
Qed.

Section chunked.
Context (b : bytes) (n : Z).

(** A line [l], CR and LF from [p]. *)
Lemma line_end_run p l :
  text b p (l ++ CRLF) -> no_lf l -> p <= n -> line_end b n p = Some (Z.min n (p + len l + 1)).
Proof.
  intros Ht Hl Hp. unfold line_end. rewrite (skip_run b n _ p (l ++ [CR]) LF).
  - f_equal. rewrite length_app. cbn [length]. lia.
  - by rewrite <- app_assoc.
  - apply Forall_app. split; [|by repeat constructor]. eapply List.Forall_impl; [|exact Hl].
    intros c Hc. apply negb_true_iff. by apply Z.eqb_neq.
  - reflexivity.
  - done.
Qed.

Lemma drop_cr_run p l :
  text b p (l ++ CRLF) -> drop_cr b p (p + len l + 1) = Some (p + len l).
Proof.
  intros Ht. apply text_app in Ht as [Hl [Hc _]]. unfold drop_cr.
  destruct (Z.ltb_spec p (p + len l + 1)); [|lia].
  replace (p + len l + 1 - 1) with (p + len l) by lia. rewrite Hc. reflexivity.
Qed.

Lemma hex_loop_run fuel p ds e v k :
  text b p ds -> p + len ds <= e -> Forall (fun c => 0 <= hexval c) ds -> 0 <= v ->
  hex_num v ds <= 0x100000 -> (length ds < fuel)%nat ->
  (p + len ds = e \/ exists c, rd b (p + len ds) = Some c /\ hexval c < 0) ->
  hex_loop fuel b e p v k = Some (Some (p + len ds, hex_num v ds, k + len ds)).
Proof.
  intros Ht He Hds. revert fuel p v k Ht He.
  induction Hds as [|c ds Hc Hds IH]; intros fuel p v k Ht He Hv Hmax Hf Hend;
    (destruct fuel as [|f]; [cbn in Hf; lia|]); cbn [hex_loop length] in *.
  - rewrite !Z.add_0_r in *. destruct Hend as [->|(c & Hc & Hx)].
    + by rewrite Z.ltb_irrefl.
    + destruct (p <? e); [|done]. rewrite Hc. cbn [mbind option_bind]. cbv zeta.
      by destruct (Z.ltb_spec (hexval c) 0); [|lia].
  - destruct Ht as [Hr Ht]. destruct (Z.ltb_spec p e); [|lia]. rewrite Hr. cbn [mbind option_bind].
    cbv zeta. destruct (Z.ltb_spec (hexval c) 0); [lia|]. pose proof (hexval_lt c).
    change (hex_num v (c :: ds)) with (hex_num (v * 16 + hexval c) ds) in *.
    pose proof (hex_num_ge (v * 16 + hexval c) ds ltac:(lia) Hds).
    destruct (Z.ltb_spec ((SIZE_MAX - hexval c) / 16) v) as [Hbad|_].
    { exfalso. assert (v <= (SIZE_MAX - hexval c) / 16); [|lia].
      apply Z.div_le_lower_bound; unfold SIZE_MAX; lia. }
    rewrite IH; try done; try lia.
    + do 2 f_equal. f_equal; [f_equal|]; lia.
    + replace (p + 1 + len ds) with (p + Z.of_nat (S (length ds))) by lia. done.
Qed.

Lemma chunk_size_run p ds ext :
  text b p ((ds ++ ext) ++ CRLF) -> size_line ds ext -> hex_num 0 ds <= 0x100000 ->
  chunk_size b p (p + len (ds ++ ext) + 1) = Some (Some (hex_num 0 ds)).
Proof.
  intros Ht (Hne & Hds & Hext & He) Hmax. unfold chunk_size. rewrite drop_cr_run by done.
  cbn [mbind option_bind]. set (e := p + len (ds ++ ext)).
  pose proof (text_bound b p ((ds ++ ext) ++ CRLF) ltac:(by destruct ds) Ht) as [Hp0 _].
  rewrite <- app_assoc in Ht. apply text_app in Ht as [Hd Hrest].
  assert (Hel : e = p + len ds + len ext) by (unfold e; rewrite length_app; lia).
  destruct ds as [|d ds]; [done|]. inversion Hds as [|? ? Hd0 Hds']; subst.
  assert (Hblank : blank d = false).
  { unfold blank. destruct (Z.eqb_spec d SP) as [->|]; [by cbn in Hd0|].
    by destruct (Z.eqb_spec d HT) as [->|]; [cbn in Hd0|]. }
  rewrite (skip_run b e blank p [] d); [|by destruct Hd; split|by constructor|done|lia].
  cbn [mbind option_bind length]. rewrite Z.add_0_r, Z.min_r by lia.
  set (dd := d :: ds) in *.
  assert (Hsemi : hexval SEMICOLON < 0) by reflexivity.
  rewrite (hex_loop_run _ p dd e 0 0); try done; try lia.
  2: { destruct Hext as [->|[x ->]]; [left; cbn [length] in *; lia|right].
       destruct Hrest as [Hs _]. by eexists. }
  cbn [mbind option_bind]. destruct (Z.eqb_spec (0 + len dd) 0); [unfold dd in *; cbn [length] in *; lia|].
  destruct Hext as [->|[x ->]].
  - replace (p + len dd) with e by (cbn [length] in *; lia).
    unfold skip. cbn [skip_while]. rewrite Z.ltb_irrefl. cbn [mbind option_bind]. by rewrite Z.ltb_irrefl.
  - destruct Hrest as [Hs _].
    rewrite (skip_run b e blank (p + len dd) [] SEMICOLON);
      [|by split|by constructor|done|cbn [length] in *; lia].
    cbn [mbind option_bind length] in *. rewrite Z.add_0_r, Z.min_r by lia.
    destruct (Z.ltb_spec (p + len dd) e); [|lia]. rewrite Hs. reflexivity.
Qed.

(** Trailer fields, then the empty line. *)
Definition trailer_wire (ts : list bytes) : bytes := concat ((fun t => t ++ CRLF) <$> ts) ++ CRLF.

Definition chunked_wire (cs : list chunk) (zeros ext : bytes) (ts : list bytes) : bytes :=
  encode_message cs zeros ext ++ trailer_wire ts.

Definition full (e : Z) : Z := if e <=? n then 1 else 0.

Lemma full_0 e : n < e -> full e = 0.
Proof. intros. unfold full. by destruct (Z.leb_spec e n); [lia|]. Qed.
Lemma full_1 e : e <= n -> full e = 1.
Proof. intros. unfold full. by destruct (Z.leb_spec e n); [|lia]. Qed.

Lemma trailer_run fuel p ts :
  text b p (trailer_wire ts) -> Forall (fun t => t <> [] /\ no_lf t) ts -> p <= n ->
  n - p < Z.of_nat fuel -> trailer_loop fuel b n p = Some (full (p + len (trailer_wire ts))).
Proof.
  intros Ht Hts. revert fuel p Ht.
  assert (Hone : forall l rest fuel p, text b p ((l ++ CRLF) ++ rest) -> no_lf l -> p <= n ->
    trailer_loop (S fuel) b n p
    = if n <=? p + len l + 1 then Some 0
      else if len l =? 0 then Some 1 else trailer_loop fuel b n (p + len l + 2)).
  { intros l rest fuel p Ht Hl Hp. apply text_app in Ht as [Ht _]. cbn [trailer_loop].
    destruct (Z.leb_spec n p); [by destruct (Z.leb_spec n (p + len l + 1)); [|lia]|].
    rewrite (line_end_run p l) by done. cbn [mbind option_bind].
    destruct (Z.leb_spec n (p + len l + 1)).
    { by rewrite Z.min_l, (proj2 (Z.leb_le n n)) by lia. }
    rewrite Z.min_r by lia. destruct (Z.leb_spec n (p + len l + 1)); [lia|].
    rewrite drop_cr_run by done. cbn [mbind option_bind].
    replace (p + len l - p) with (len l) by lia. destruct (len l =? 0); [done|]. f_equal. lia. }
  induction Hts as [|t ts [Hne Hlf] Hts IH]; intros fuel p Ht Hp Hf;
    (destruct fuel as [|fuel]; [lia|]).
  - rewrite (Hone [] [] fuel p) by (done || by constructor). cbn [length].
    change (len (trailer_wire [])) with 2. change (Z.of_nat 0) with 0. rewrite Z.add_0_r.
    destruct (Z.leb_spec n (p + 1)); [rewrite full_0 by lia|rewrite full_1 by lia]; done.
  - unfold trailer_wire in *. cbn [fmap list_fmap concat] in *. rewrite <- app_assoc in *.
    rewrite (Hone t _ fuel p Ht Hlf Hp). rewrite length_app, (length_app t). change (length CRLF) with 2%nat.
    assert (0 < len t) by (destruct t; [done|cbn; lia]).
    set (w := concat _ ++ CRLF) in *. assert (2 <= len w) by (unfold w; rewrite length_app; cbn; lia).
    destruct (Z.leb_spec n (p + len t + 1)); [rewrite full_0 by lia; done|].
    destruct (Z.eqb_spec (len t) 0); [lia|].
    apply text_app in Ht as [_ Ht]. rewrite length_app in Ht. change (length CRLF) with 2%nat in Ht.
    replace (p + Z.of_nat (length t + 2)) with (p + len t + 2) in Ht by lia.
    destruct (Z.leb_spec (p + len t + 2) n).
    + rewrite IH by (done || lia). do 2 f_equal. lia.
    + lia.
Qed.

(** One chunk. *)
Lemma chunk_run fuel p c rest :
  text b p (encode_chunk c ++ rest) -> chunk_ok c -> p <= n ->
  chunked_loop (S fuel) b n p
  = if n <? p + len (encode_chunk c) then Some 0 else chunked_loop fuel b n (p + len (encode_chunk c)).
Proof.
  intros Ht (Hsl & Hnum & Hpay) Hp. apply text_app in Ht as [Ht _]. unfold encode_chunk in Ht |- *.
  destruct c as [ds ext pay]. cbn [size_digits extension payload] in *.
  set (line := ds ++ ext).
  assert (E : ds ++ ext ++ CRLF ++ pay ++ CRLF = (line ++ CRLF) ++ pay ++ CRLF)
    by (unfold line; by rewrite <- !app_assoc).
  rewrite E in *. clear E. apply text_app in Ht as [Hline Hrest].
  rewrite !length_app in Hrest. change (length CRLF) with 2%nat in Hrest.
  assert (Hlf : no_lf line).
  { destruct Hsl as (_ & Hds & _ & He). apply no_eol_lf. apply Forall_app. split; [|done].
    eapply List.Forall_impl; [|exact Hds]. intros c Hc. by apply hexval_digit. }
  cbn [chunked_loop]. rewrite (line_end_run p line) by done. cbn [mbind option_bind].
  rewrite !length_app. change (length CRLF) with 2%nat.
  set (tot := p + Z.of_nat (length line + 2 + (length pay + 2))).
  destruct (Z.leb_spec n (p + len line + 1)).
  { rewrite Z.min_l, (proj2 (Z.leb_le n n)) by lia. by destruct (Z.ltb_spec n tot); [|lia]. }
  rewrite Z.min_r by lia. destruct (Z.leb_spec n (p + len line + 1)); [lia|].
  pose proof (chunk_size_run p ds ext Hline Hsl ltac:(lia)) as Hsize. fold line in Hsize.
  rewrite Hsize. cbn [mbind option_bind]. cbv zeta.
  rewrite Hnum. destruct (Z.eqb_spec (len pay) 0); [lia|].
  destruct (Z.ltb_spec (n - (p + len line + 1 + 1)) (len pay)).
  { by destruct (Z.ltb_spec n tot); [|lia]. }
  apply text_app in Hrest as [_ [Hcr [Hlfc _]]].
  replace (p + Z.of_nat (length line + 2) + len pay) with (p + len line + 1 + 1 + len pay) in * by lia.
  set (q := p + len line + 1 + 1 + len pay) in *. unfold chunk_end.
  destruct (Z.leb_spec n q); [by destruct (Z.ltb_spec n tot); [|lia]|].
  rewrite Hcr. cbn [mbind option_bind]. change (CR =? CR) with true. cbn match.
  destruct (Z.leb_spec n (q + 1)); [by destruct (Z.ltb_spec n tot); [|lia]|].
  rewrite Hlfc. cbn [mbind option_bind]. change (negb (LF =? LF)) with false. cbn match.
  destruct (Z.ltb_spec n tot); [lia|]. f_equal. lia.
Qed.

Lemma chunked_run cs zeros ext ts fuel p :
  text b p (chunked_wire cs zeros ext ts) -> Forall chunk_ok cs -> size_line zeros ext ->
  hex_num 0 zeros = 0 -> Forall (fun t => t <> [] /\ no_lf t) ts -> 0 <= p <= n ->
  n - p < Z.of_nat fuel ->
  chunked_loop fuel b n p = Some (full (p + len (chunked_wire cs zeros ext ts))).
Proof.
  intros Ht Hcs Hz Hnum Hts. revert fuel p Ht. unfold chunked_wire, encode_message.
  induction Hcs as [|c cs Hc Hcs IH]; intros fuel p Ht Hp Hf; (destruct fuel as [|fuel]; [lia|]).
  - cbn [fmap list_fmap concat app] in *. set (line := zeros ++ ext).
    assert (E : (zeros ++ ext ++ CRLF) ++ trailer_wire ts = (line ++ CRLF) ++ trailer_wire ts)
      by (unfold line; by rewrite <- !app_assoc).
    rewrite E in *. clear E. apply text_app in Ht as [Hline Hrest].
    rewrite length_app in Hrest. change (length CRLF) with 2%nat in Hrest. rewrite !length_app. change (length CRLF) with 2%nat.
    assert (Hlf : no_lf line).
    { destruct Hz as (_ & Hds & _ & He). apply no_eol_lf. apply Forall_app. split; [|done].
      eapply List.Forall_impl; [|exact Hds]. intros c Hc. by apply hexval_digit. }
    cbn [chunked_loop]. rewrite (line_end_run p line) by (done || lia). cbn [mbind option_bind].
    destruct (Z.leb_spec n (p + len line + 1)).
    { rewrite Z.min_l, (proj2 (Z.leb_le n n)), full_0 by lia. done. }
    rewrite Z.min_r by lia. destruct (Z.leb_spec n (p + len line + 1)); [lia|].
    pose proof (chunk_size_run p zeros ext Hline Hz ltac:(lia)) as Hsize. fold line in Hsize.
    rewrite Hsize. cbn [mbind option_bind]. cbv zeta.
    rewrite Hnum. cbn [Z.eqb].
    replace (p + Z.of_nat (length line + 2)) with (p + len line + 1 + 1) in Hrest by lia.
    rewrite (trailer_run _ _ ts) by (done || lia). do 2 f_equal. lia.
  - cbn [fmap list_fmap concat] in *. rewrite <- !app_assoc in *.
    rewrite (chunk_run fuel p c _ Ht Hc) by lia. rewrite length_app.
    destruct (Z.ltb_spec n (p + len (encode_chunk c))); [rewrite full_0 by lia; done|].
    apply text_app in Ht as [_ Ht].
    assert (0 < len (encode_chunk c)) by (unfold encode_chunk; rewrite !length_app; change (length CRLF) with 2%nat; lia).
    rewrite IH by (done || lia). do 2 f_equal. lia.
Qed.
End chunked.

(** ** Header fields *)

Definition same_ci (s t : bytes) : Prop := map lower_ascii s = map lower_ascii t.

#[export] Instance same_ci_dec s t : Decision (same_ci s t) := decide_rel eq _ _.

(** A field by what it says about the length of the message. *)
Inductive hfield :=
| Other (name value : bytes)
| Coding (name value : bytes)
| Size (name ds : bytes).

Definition field_wire (f : hfield) : bytes :=
  match f with Other name v | Coding name v | Size name v => name ++ COLON :: SP :: v end.

Definition token (name : bytes) : Prop :=
  Forall (fun c => eol c = false /\ blank c = false /\ c <> COLON) name.

Definition dec_num (v : Z) (ds : bytes) : Z := fold_left (fun v c => v * 10 + (c - 48)) ds v.

Definition field_ok (f : hfield) : Prop :=
  match f with
  | Other name v =>
      token name /\ no_eol v /\ ~ same_ci name (chars "Transfer-Encoding") /\
      ~ same_ci name (chars "Content-Length")
  | Coding name v => token name /\ same_ci name (chars "Transfer-Encoding") /\ same_ci v (chars "chunked")
  | Size name ds =>
      token name /\ same_ci name (chars "Content-Length") /\ ds <> [] /\
      Forall (fun c => is_digit c = true) ds /\ dec_num 0 ds <= SIZE_MAX
  end.

Definition field_value (f : hfield) : bytes :=
  match f with Other _ v | Coding _ v | Size _ v => v end.

(** What the fields say together; two lengths have to agree. *)
Definition field_says_len (v : Z) (fr : framing) : option framing :=
  match content_len fr with
  | Some w => if negb (v =? w) then None else Some (mk_framing (chunked fr) (Some v))
  | None => Some (mk_framing (chunked fr) (Some v))
  end.

Definition field_says (f : hfield) (fr : framing) : option framing :=
  match f with
  | Other _ _ => Some fr
  | Coding _ _ => Some (mk_framing true (content_len fr))
  | Size _ ds => field_says_len (dec_num 0 ds) fr
  end.

Fixpoint fields_say (fs : list hfield) (fr : framing) : option framing :=
  match fs with [] => Some fr | f :: fs => fr ← field_says f fr; fields_say fs fr end.

Section fields.
Context (b : bytes).

Lemma span_eq_run o s l t :
  text b o s -> cstr l 0 t -> span_eq_ci b o (len s) l = Some (bool_decide (same_ci s t)).
Proof.
  intros Hs Hl. unfold span_eq_ci. pose proof (cstr_bounds _ _ _ Hl).
  assert (G : forall fuel i s t, text b (o + i) s -> cstr l i t -> 0 <= i -> (length t < fuel)%nat ->
    span_eq_loop fuel b o (i + len s) l i = Some (bool_decide (same_ci s t))).
  2: { apply (G _ 0); (rewrite ?Z.add_0_r; done || lia). }
  clear s t Hs Hl H. induction fuel as [|f IH]; intros i s t Hs Hl Hi Hf; [lia|].
  cbn [span_eq_loop]. rewrite (cstr_rd _ _ _ Hl). cbn [mbind option_bind].
  destruct s as [|x s]; cbn [length text] in *.
  - change (Z.of_nat 0) with 0. rewrite Z.add_0_r, Z.ltb_irrefl.
    destruct t as [|c t]; cbn [head0]; [by rewrite bool_decide_true|].
    apply cstr_char_inv in Hl as (_ & Hc & _). apply Z.eqb_neq in Hc. rewrite Hc.
    by rewrite bool_decide_false.
  - destruct (Z.ltb_spec i (i + Z.of_nat (S (length s)))); [|lia].
    destruct t as [|c t]; cbn [head0 length] in *; [by rewrite bool_decide_false|].
    apply cstr_char_inv in Hl as (_ & Hc & Hl). apply Z.eqb_neq in Hc. rewrite Hc.
    destruct Hs as [-> Hs]. cbn [mbind option_bind].
    destruct (Z.eqb_spec (lower_ascii x) (lower_ascii c)) as [Ex|Ex]; cbn [negb].
    + replace (i + Z.of_nat (S (length s))) with (i + 1 + len s) by lia.
      rewrite (IH _ s t) by (done || lia || by replace (o + (i + 1)) with (o + i + 1) by lia).
      f_equal. apply bool_decide_ext. unfold same_ci. cbn [map]. rewrite Ex. split; congruence.
    + rewrite bool_decide_false; [done|]. unfold same_ci. cbn [map]. congruence.
Qed.

(** A run of characters that do not satisfy [f], up to the end [e]. *)
Lemma skip_to_end e f p l :
  text b p l -> Forall (fun x => f x = true) l -> e = p + len l -> 0 <= p -> skip b e f p = Some e.
Proof.
  intros Ht Hl He Hp. unfold skip.
  assert (G : forall fuel p l, text b p l -> Forall (fun x => f x = true) l -> e = p + len l ->
    e - p < Z.of_nat fuel -> skip_while fuel b e f p = Some e); [|apply (G _ p l); (done || lia)].
  clear p l Ht Hl He Hp. induction fuel as [|k IH]; intros p l Ht Hl He Hf; [lia|]. cbn [skip_while].
  destruct (Z.ltb_spec p e); [|f_equal; lia].
  destruct Hl as [|x l Hx Hl]; cbn [text length] in *; [lia|]. destruct Ht as [-> Ht].
  cbn [mbind option_bind]. rewrite Hx. apply (IH _ l); (done || lia).
Qed.

(** The last character of a token is not blank. *)
Lemma trim_end_token fuel v l :
  text b v l -> Forall (fun c => blank c = false) l -> 0 <= v -> (0 < fuel)%nat ->
  trim_end fuel b v (v + len l) = Some (v + len l).
Proof.
  intros Ht Hl Hv Hf. destruct fuel as [|f]; [lia|]. cbn [trim_end].
  destruct (Z.ltb_spec v (v + len l)); [|done].
  destruct l as [|x l' _] using rev_ind; [cbn [length] in *; lia|].
  rewrite length_app in *. cbn [length] in *. apply text_app in Ht as [_ [Hx _]].
  replace (v + Z.of_nat (length l' + 1) - 1) with (v + len l') by lia. rewrite Hx.
  cbn [mbind option_bind]. apply Forall_app in Hl as [_ Hl]. inversion Hl as [|? ? Hb _]; subst.
  by rewrite Hb.
Qed.

Lemma dec_loop_run fuel p ds v k :
  text b p ds -> Forall (fun c => is_digit c = true) ds -> 0 <= v -> dec_num v ds <= SIZE_MAX ->
  (length ds < fuel)%nat ->
  dec_loop fuel b (p + len ds) p v k = Some (Some (p + len ds, dec_num v ds, k + len ds)).
Proof.
  intros Ht Hds. revert fuel p v k Ht.
  induction Hds as [|c ds Hc Hds IH]; intros fuel p v k Ht Hv Hmax Hf;
    (destruct fuel as [|f]; [cbn in Hf; lia|]); cbn [dec_loop length] in *.
  - change (Z.of_nat 0) with 0. by rewrite !Z.add_0_r, Z.ltb_irrefl.
  - destruct Ht as [Hr Ht]. destruct (Z.ltb_spec p (p + Z.of_nat (S (length ds)))); [|lia].
    rewrite Hr. cbn [mbind option_bind]. rewrite Hc. cbv zeta.
    apply andb_prop in Hc as [H1%Z.leb_le H2%Z.leb_le].
    change (dec_num v (c :: ds)) with (dec_num (v * 10 + (c - 48)) ds) in *.
    assert (Hge : forall w, 0 <= w -> w <= dec_num w ds).
    { clear - Hds. induction Hds as [|d ds Hd _ IH]; intros w Hw; [done|].
      apply andb_prop in Hd as [?%Z.leb_le ?%Z.leb_le].
      change (dec_num w (d :: ds)) with (dec_num (w * 10 + (d - 48)) ds).
      etrans; [|apply IH]; lia. }
    specialize (Hge (v * 10 + (c - 48)) ltac:(lia)).
    destruct (Z.ltb_spec ((SIZE_MAX - (c - 48)) / 10) v) as [Hbad|_].
    { exfalso. assert (v <= (SIZE_MAX - (c - 48)) / 10); [|lia]. apply Z.div_le_lower_bound; lia. }
    replace (p + Z.of_nat (S (length ds))) with (p + 1 + len ds) by lia.
    rewrite IH by (done || lia). do 3 f_equal. lia.
Qed.

Lemma letters_of v w :
  same_ci v w -> Forall (fun c => 97 <= lower_ascii c <= 122) w ->
  Forall (fun c => eol c = false /\ blank c = false /\ c <> COMMA /\ c <> SEMICOLON) v.
Proof.
  unfold same_ci. revert w. induction v as [|x v IH]; intros [|c w]; [done|done|done|].
  cbn [map]. intros [= Hx Hv] Hw. inversion Hw as [|? ? Hc Hw']; subst. constructor; [|by eapply IH].
  rewrite <- Hx in Hc. unfold eol, blank.
  destruct (Z.eqb_spec x CR) as [->|]; [by destruct Hc|]. destruct (Z.eqb_spec x LF) as [->|]; [by destruct Hc|].
  destruct (Z.eqb_spec x SP) as [->|]; [by destruct Hc|]. destruct (Z.eqb_spec x HT) as [->|]; [by destruct Hc|].
  repeat split; intros ->; by destruct Hc.
Qed.

Lemma same_ci_length s t : same_ci s t -> length s = length t.
Proof. intros H. by rewrite <- (length_map lower_ascii s), H, length_map. Qed.

Lemma chunked_letters v : same_ci v (chars "chunked") ->
  Forall (fun c => eol c = false /\ blank c = false /\ c <> COMMA /\ c <> SEMICOLON) v.
Proof.
  intros Hv. apply (letters_of v _ Hv).
  repeat (apply List.Forall_cons; [vm_compute; split; discriminate|]); apply List.Forall_nil.
Qed.

Lemma has_chunked_run p v :
  text b p v -> 0 <= p -> same_ci v (chars "chunked") -> value_has_chunked b p (len v) = Some true.
Proof.
  intros Ht Hp Hv. pose proof (same_ci_length _ _ Hv) as Hl.
  pose proof (chunked_letters v Hv) as Hok.
  unfold value_has_chunked. cbn [has_chunked_loop]. destruct (Z.ltb_spec p (p + len v)); [|cbn in Hl; lia].
  assert (Hs : skip b (p + len v) (fun c => (c =? SP) || (c =? HT) || (c =? COMMA)) p = Some p).
  { destruct v as [|x v]; [done|]. inversion Hok as [|? ? (_ & Hb & Hc & _) _]; subst.
    rewrite (skip_run b _ _ p [] x); [f_equal; cbn [length] in *; lia| |constructor| |cbn [length]; lia].
    - by destruct Ht.
    - unfold blank in Hb. rewrite Hb. by apply Z.eqb_neq. }
  rewrite Hs. cbn [mbind option_bind].
  rewrite (skip_to_end _ _ p v); [|done| |done|done].
  2: { eapply List.Forall_impl; [|exact Hok]. intros c (_ & Hb & Hc & Hs1). unfold blank in Hb.
       apply orb_false_iff in Hb as [-> ->]. apply Z.eqb_neq in Hc, Hs1. by rewrite Hc, Hs1. }
  cbn [mbind option_bind]. replace (p + len v - p) with (len v) by lia.
  rewrite (span_eq_run p v _ (chars "chunked")) by (done || by apply cstr_text).
  cbn [mbind option_bind]. by rewrite bool_decide_true.
Qed.

Lemma parse_dec_run p ds :
  text b p ds -> 0 <= p -> ds <> [] -> Forall (fun c => is_digit c = true) ds -> dec_num 0 ds <= SIZE_MAX ->
  parse_dec b p (len ds) = Some (Some (dec_num 0 ds)).
Proof.
  intros Ht Hp Hne Hds Hmax. unfold parse_dec.
  assert (Hs : skip b (p + len ds) blank p = Some p).
  { destruct ds as [|x ds]; [done|]. inversion Hds as [|? ? Hd _]; subst.
    rewrite (skip_run b _ _ p [] x); [f_equal; cbn [length] in *; lia|by destruct Ht|constructor| |cbn [length]; lia].
    apply andb_prop in Hd as [?%Z.leb_le ?%Z.leb_le]. unfold blank.
    destruct (Z.eqb_spec x SP); [lia|]. by destruct (Z.eqb_spec x HT); [lia|]. }
  rewrite Hs. cbn [mbind option_bind]. rewrite dec_loop_run by (done || lia). cbn [mbind option_bind].
  rewrite (skip_to_end _ _ (p + len ds) []) by (done || cbn; lia). cbn [mbind option_bind].
  destruct (Z.eqb_spec (0 + len ds) 0); [destruct ds; [done|cbn [length] in *; lia]|].
  by rewrite Z.eqb_refl.
Qed.

(** The name and the value of a field are found. *)
Lemma field_parts p e name v :
  text b p (name ++ COLON :: SP :: v) -> token name -> e = p + len (name ++ COLON :: SP :: v) ->
  0 <= p ->
  skip b e (fun c => negb (c =? COLON)) p = Some (p + len name) /\
  trim_end (S (Z.to_nat (p + len name))) b p (p + len name) = Some (p + len name) /\
  text b (p + len name + 2) v /\ e = p + len name + 2 + len v /\
  (v <> [] -> Forall (fun c => blank c = false) v ->
   skip b e blank (p + len name + 1) = Some (p + len name + 2) /\
   trim_end (S (Z.to_nat e)) b (p + len name + 2) e = Some e).
Proof.
  intros Ht Hn He Hp. rewrite length_app in He. cbn [length] in He.
  apply text_app in Ht as [Hname [Hc [Hs Hv]]].
  replace (p + len name + 1 + 1) with (p + len name + 2) in * by lia.
  split.
  { rewrite (skip_run b e _ p name COLON); [f_equal; lia| | |done|lia].
    - apply text_app. by repeat split.
    - eapply List.Forall_impl; [|exact Hn]. intros c (_ & _ & H). apply negb_true_iff. by apply Z.eqb_neq. }
  split.
  { apply trim_end_token; [done| |done|lia]. eapply List.Forall_impl; [|exact Hn]. by intros c (_ & H & _). }
  split; [done|]. split; [lia|]. intros Hne Hb. split.
  - destruct v as [|x v]; [done|]. inversion Hb; subst. destruct Hv as [Hx _].
    rewrite (skip_run b _ _ (p + len name + 1) [SP] x); [f_equal; cbn [length] in *; lia| |by repeat constructor|done|cbn [length]; lia].
    cbn [text app]. by replace (p + len name + 1 + 1) with (p + len name + 2) by lia.
  - replace e with (p + len name + 2 + len v) by lia. apply trim_end_token; (done || lia).
Qed.

(** The end of a line, at its LF or at the end of the header. *)
Lemma line_drop p l le :
  text b p (l ++ [CR]) -> no_eol l -> l <> [] -> le = p + len l \/ le = p + len l + 1 ->
  drop_cr b p le = Some (p + len l).
Proof.
  intros Ht Hl Hne Hle. apply text_app in Ht as [Ht [Hcr _]]. unfold drop_cr.
  assert (0 < len l) by (destruct l; [done|cbn; lia]).
  destruct (Z.ltb_spec p le); [|lia]. destruct Hle as [->| ->].
  - destruct l as [|x l' _] using rev_ind; [done|]. rewrite length_app in *. cbn [length] in *.
    apply text_app in Ht as [_ [Hx _]].
    replace (p + Z.of_nat (length l' + 1) - 1) with (p + len l') by lia. rewrite Hx.
    cbn [mbind option_bind]. apply Forall_app in Hl as [_ Hl]. inversion Hl as [|? ? He _]; subst.
    unfold eol in He. apply orb_false_iff in He as [-> _]. done.
  - replace (p + len l + 1 - 1) with (p + len l) by lia. rewrite Hcr. reflexivity.
Qed.

Lemma digit_plain c : is_digit c = true -> blank c = false /\ eol c = false.
Proof.
  intros [?%Z.leb_le ?%Z.leb_le]%andb_prop. unfold blank, eol.
  destruct (Z.eqb_spec c SP); [lia|]. destruct (Z.eqb_spec c HT); [lia|].
  destruct (Z.eqb_spec c CR); [lia|]. by destruct (Z.eqb_spec c LF); [lia|].
Qed.

Lemma line_no_eol name v : token name -> no_eol v -> no_eol (name ++ COLON :: SP :: v).
Proof.
  intros Hn Hv. apply Forall_app. split; [|by repeat constructor].
  eapply List.Forall_impl; [|exact Hn]. by intros c [H _].
Qed.

Lemma field_value_no_eol f : field_ok f -> no_eol (field_value f).
Proof.
  destruct f as [name v|name v|name ds]; cbn [field_value field_ok]; [by intros (_ & H & _)| |].
  - intros (_ & _ & Hv). eapply List.Forall_impl; [|apply (chunked_letters v Hv)]. by intros c [H _].
  - intros (_ & _ & _ & Hd & _). eapply List.Forall_impl; [|exact Hd]. intros c Hc. by apply digit_plain.
Qed.

Lemma field_wire_ok f : field_ok f -> no_eol (field_wire f) /\ field_wire f <> [].
Proof.
  intros Hok. pose proof (field_value_no_eol f Hok). split; [|destruct f as [[]|[]|[]]; done].
  destruct f; cbn [field_wire field_value] in *; apply line_no_eol; try done; apply Hok.
Qed.

(** The name decides; the value is between [vs] and [ve]. *)
Lemma field_open p le name v fr :
  let w := name ++ COLON :: SP :: v in
  text b p (w ++ [CR]) -> token name -> no_eol v -> 0 <= p -> le = p + len w \/ le = p + len w + 1 ->
  exists vs ve,
    (v <> [] -> Forall (fun c => blank c = false) v ->
     0 <= vs /\ text b vs v /\ ve - vs = len v) /\
    field b p le fr
    = if bool_decide (same_ci name (chars "Transfer-Encoding")) then
        hit ← value_has_chunked b vs (ve - vs);
        Some (Some (if (hit : bool) then mk_framing true (content_len fr) else fr))
      else if bool_decide (same_ci name (chars "Content-Length")) then
        v ← parse_dec b vs (ve - vs);
        match v with None => Some None | Some v => Some (field_says_len v fr) end
      else Some (Some fr).
Proof.
  intros w Ht Hn Hv Hp Hle.
  assert (Hw : no_eol w /\ w <> []) by (split; [by apply line_no_eol|by destruct name]).
  destruct (text_bound b p (w ++ [CR])) as [_ Hb]; [by destruct name|done|].
  rewrite length_app in Hb. cbn [length] in Hb.
  unfold field. rewrite (line_drop p w le Ht) by (by apply Hw || done). cbn [mbind option_bind].
  apply text_app in Ht as [Ht _]. set (e := p + len w) in *.
  destruct (field_parts p e name v Ht Hn eq_refl Hp) as (-> & Htr & Hvt & He & Hval).
  apply text_app in Ht as [Hname _]. cbn [mbind option_bind].
  destruct (Z.ltb_spec (p + len name) e); [|lia]. rewrite Htr. cbn [mbind option_bind].
  destruct (skip_safe b e blank (p + len name + 1)) as (vs & Hsk & Hvs & Hvs' & _); [lia|lia|].
  rewrite Hsk. cbn [mbind option_bind].
  destruct (trim_end_bounds b e (S (Z.to_nat e)) vs e) as (ve & Hte & _); [lia..|].
  rewrite Hte. cbn [mbind option_bind]. exists vs, ve. split.
  { intros H1 H2. destruct (Hval H1 H2) as [E1 E2]. rewrite Hsk in E1. injection E1 as ->.
    rewrite Hte in E2. injection E2 as ->. split; [lia|]. split; [done|lia]. }
  replace (p + len name - p) with (len name) by lia.
  rewrite (span_eq_run p name (lit "Transfer-Encoding") (chars "Transfer-Encoding"))
    by (done || by apply cstr_text).
  cbn [mbind option_bind]. destruct (bool_decide _); [done|].
  rewrite (span_eq_run p name (lit "Content-Length") (chars "Content-Length"))
    by (done || by apply cstr_text).
  cbn [mbind option_bind]. destruct (bool_decide _); [|done].
  destruct (parse_dec b vs (ve - vs)) as [[x|]|]; [|done|done]. cbn [mbind option_bind].
  unfold field_says_len. by destruct (content_len fr).
Qed.

Lemma field_run p le f fr :
  text b p (field_wire f ++ [CR]) -> field_ok f -> 0 <= p ->
  le = p + len (field_wire f) \/ le = p + len (field_wire f) + 1 ->
  field b p le fr = Some (field_says f fr).
Proof.
  intros Ht Hok Hp Hle. pose proof (field_value_no_eol f Hok) as Hv.
  destruct f as [name v|name v|name ds]; cbn [field_wire field_ok field_says field_value] in *.
  - destruct Hok as (Hn & _ & H1 & H2).
    destruct (field_open p le name v fr Ht Hn Hv Hp Hle) as (vs & ve & _ & ->).
    by rewrite !bool_decide_false.
  - destruct Hok as (Hn & H1 & Hc). destruct (field_open p le name v fr Ht Hn Hv Hp Hle) as (vs & ve & H & ->).
    destruct H as (Hvs & Hvt & ->); [by intros ->; apply same_ci_length in Hc| |].
    { eapply List.Forall_impl; [|apply (chunked_letters v Hc)]. by intros c (_ & H' & _). }
    rewrite bool_decide_true by done. by rewrite has_chunked_run.
  - destruct Hok as (Hn & H1 & Hne & Hd & Hmax).
    destruct (field_open p le name ds fr Ht Hn Hv Hp Hle) as (vs & ve & H & ->).
    destruct H as (Hvs & Hvt & ->); [done| |].
    { eapply List.Forall_impl; [|exact Hd]. intros c Hc. by apply digit_plain. }
    rewrite bool_decide_false, bool_decide_true, parse_dec_run; try done.
    intros H2. apply same_ci_length in H1, H2. rewrite H1 in H2. done.
Qed.
End fields.

(** ** Whole responses *)

Record response := mk_response {
  version : bytes;
  d1 : Z; d2 : Z; d3 : Z;
  reason : bytes;
  fields : list hfield
}.

Definition status_wire (r : response) : bytes :=
  version r ++ SP :: d1 r :: d2 r :: d3 r :: reason r.
Definition fields_wire (fs : list hfield) : bytes := concat ((fun f => CRLF ++ field_wire f) <$> fs).
Definition head_wire (r : response) : bytes := status_wire r ++ fields_wire (fields r).

Definition status_number (r : response) : Z := (d1 r - 48) * 100 + (d2 r - 48) * 10 + (d3 r - 48).

Definition response_ok (r : response) : Prop :=
  Forall (fun c => eol c = false /\ c <> SP) (version r) /\
  is_digit (d1 r) = true /\ is_digit (d2 r) = true /\ is_digit (d3 r) = true /\
  no_eol (reason r) /\ Forall field_ok (fields r).

(** A line feed is followed by a character of the next line. *)
Definition gap_free (l : bytes) : Prop :=
  forall i, l !! i = Some LF -> exists c, l !! S i = Some c /\ eol c = false.

Lemma gap_free_fields pre fs : no_eol pre -> Forall field_ok fs -> gap_free (pre ++ fields_wire fs).
Proof.
  intros Hpre Hfs. revert pre Hpre.
  assert (Hno : forall pre i, no_eol pre -> pre !! i <> Some LF).
  { intros pre i H Hi. unfold no_eol in H; rewrite Forall_lookup in H. by apply H in Hi. }
  induction Hfs as [|f fs Hf Hfs IH]; intros pre Hpre i Hi.
  - unfold fields_wire in Hi. cbn in Hi. rewrite app_nil_r in Hi. by apply Hno in Hi.
  - destruct (field_wire_ok f Hf) as [Hw Hne]. specialize (IH _ Hw).
    change (fields_wire (f :: fs)) with ((CRLF ++ field_wire f) ++ fields_wire fs) in *.
    rewrite <- app_assoc in *. cbn [app CRLF] in *. set (w := field_wire f ++ fields_wire fs) in *.
    destruct (decide (i < length pre)%nat) as [Hlt|Hge].
    { rewrite lookup_app_l in Hi by done. by apply Hno in Hi. }
    rewrite lookup_app_r in Hi by lia. rewrite lookup_app_r by lia.
    replace (S i - length pre)%nat with (S (i - length pre)) by lia.
    destruct (i - length pre)%nat as [|[|k]]; [done| |by apply IH].
    destruct (field_wire f) as [|x l] eqn:Ef; [done|]. exists x. split; [done|]. by inversion Hw.
Qed.

Section head.
Context (b : bytes) (n : Z) (r : response).
Context (Hr : response_ok r).
Hypothesis Hb : text b 0 (head_wire r ++ CRLF ++ CRLF).
Let h := len (head_wire r).

Lemma status_no_eol : no_eol (status_wire r).
Proof.
  destruct Hr as (Hv & H1 & H2 & H3 & Hre & _). unfold status_wire, no_eol.
  assert (Hd : forall c, is_digit c = true -> eol c = false) by (intros; by apply digit_plain).
  apply Forall_app. split; [eapply List.Forall_impl; [|exact Hv]; by intros c [H _]|].
  repeat constructor; auto.
Qed.

Lemma head_gap_free : gap_free (head_wire r).
Proof. apply gap_free_fields; [apply status_no_eol|apply Hr]. Qed.

Lemma head_rd i : 0 <= i < h + 4 -> rd b i = (head_wire r ++ CRLF ++ CRLF) !! Z.to_nat i.
Proof.
  intros Hi. apply (text_rd b 0 _ i Hb). rewrite length_app. change (length (CRLF ++ CRLF)) with 4%nat. lia.
Qed.

Lemma head_bound : h + 4 <= len b.
Proof.
  destruct (text_bound b 0 (head_wire r ++ CRLF ++ CRLF)) as [_ H]; [|exact Hb|].
  { intros E. by apply app_eq_nil in E as [_ E]. }
  rewrite length_app in H. change (length (CRLF ++ CRLF)) with 4%nat in H. unfold h. lia.
Qed.

(** A line feed of the header, and what follows it. *)
Lemma lf_next i : 0 <= i < h -> rd b i = Some LF -> exists c, rd b (i + 1) = Some c /\ eol c = false.
Proof.
  intros Hi Hlf. rewrite head_rd in Hlf by lia. rewrite lookup_app_l in Hlf by (unfold h in *; lia).
  destruct (head_gap_free _ Hlf) as (c & Hc & He). exists c. split; [|done].
  rewrite head_rd by lia. replace (Z.to_nat (i + 1)) with (S (Z.to_nat i)) by lia.
  by apply lookup_app_l_Some.
Qed.

Lemma at_end k c : (CRLF ++ CRLF) !! k = Some c -> rd b (h + Z.of_nat k) = Some c.
Proof.
  intros Hk. apply lookup_lt_Some in Hk as Hlt. change (length (CRLF ++ CRLF)) with 4%nat in Hlt.
  rewrite head_rd by lia. rewrite lookup_app_r by (unfold h; lia).
  by replace (Z.to_nat (h + Z.of_nat k) - length (head_wire r))%nat with k by (unfold h; lia).
Qed.

Lemma no_crlfcrlf j : 0 <= j < h -> ~ text b j [CR; LF; CR; LF].
Proof.
  intros Hj (_ & H1 & H2 & _). destruct (Z.eq_dec (j + 1) h) as [E|].
  - pose proof (at_end 0 CR eq_refl) as H0. rewrite Z.add_0_r, <- E, H1 in H0. done.
  - destruct (lf_next (j + 1) ltac:(lia) H1) as (c & Hc & He). rewrite H2 in Hc. by injection Hc as <-.
Qed.

Lemma no_lflf j : 0 <= j <= h + 1 -> ~ text b j [LF; LF].
Proof.
  intros Hj (H1 & H2 & _). destruct (Z.ltb_spec j h).
  - destruct (lf_next j ltac:(lia) H1) as (c & Hc & He). rewrite H2 in Hc. by injection Hc as <-.
  - destruct (Z.eq_dec j h) as [->|].
    + pose proof (at_end 0 CR eq_refl) as H0. rewrite Z.add_0_r, H1 in H0. done.
    + pose proof (at_end 2 CR eq_refl) as H0. replace (h + Z.of_nat 2) with (j + 1) in H0 by lia.
      by rewrite H2 in H0.
Qed.
End head.

(** The first place where [l] stands. *)
Lemma starts_text b o l : 0 <= o -> o + len l <= len b ->
  exists hit, starts b o l = Some hit /\ (hit = true <-> text b o l).
Proof.
  revert o. induction l as [|x l IH]; intros o Ho Hb; [by exists true|]. cbn [starts text length] in *.
  destruct (rd_is_Some b o) as [c Hc]; [lia|]. rewrite Hc. cbn [mbind option_bind].
  destruct (Z.eqb_spec c x) as [->|Hne].
  - destruct (IH (o + 1)) as (hit & -> & Hh); [lia|lia|]. exists hit. split; [done|]. tauto.
  - exists false. split; [done|]. split; [done|]. intros [[= ->] _]. done.
Qed.

Lemma find_none b n l : n <= len b ->
  (forall j, 0 <= j -> j + len l <= n -> ~ text b j l) -> find_bytes b n l = Some None.
Proof.
  intros Hn H. unfold find_bytes.
  assert (G : forall k i, 0 <= i -> i + Z.of_nat k + len l <= n + 1 \/ k = 0%nat ->
    find_loop k b l i = Some None); [|apply G; lia].
  induction k as [|k IH]; intros i Hi Hk; [done|]. cbn [find_loop].
  destruct (starts_text b i l) as (hit & -> & Hh); [lia|lia|]. cbn [mbind option_bind].
  destruct hit; [destruct (H i); [lia|lia|by apply Hh]|]. apply IH; lia.
Qed.

Lemma find_first b n l h : n <= len b -> 0 <= h -> h + len l <= n -> text b h l ->
  (forall j, 0 <= j < h -> ~ text b j l) -> find_bytes b n l = Some (Some h).
Proof.
  intros Hn Hh Hl Ht H. unfold find_bytes.
  assert (G : forall k i, 0 <= i <= h -> i + Z.of_nat k + len l = n + 1 ->
    find_loop k b l i = Some (Some h)); [|apply G; lia].
  induction k as [|k IH]; intros i Hi Hk; [lia|]. cbn [find_loop].
  destruct (starts_text b i l) as (hit & -> & Hhit); [lia|lia|]. cbn [mbind option_bind].
  destruct (Z.eq_dec i h) as [->|].
  - by rewrite (proj2 Hhit Ht).
  - destruct hit; [destruct (H i); [lia|by apply Hhit]|]. apply IH; lia.
Qed.

Section whole.
Context (b : bytes) (n : Z) (r : response) (body : bytes).
Context (Hr : response_ok r).
Hypothesis Hb : text b 0 (head_wire r ++ CRLF ++ CRLF ++ body).
Hypothesis Hn : 0 <= n <= len b.
Let h := len (head_wire r).

Lemma head_text : text b 0 (head_wire r ++ CRLF ++ CRLF) /\ text b (h + 4) body.
Proof.
  replace (head_wire r ++ CRLF ++ CRLF ++ body) with ((head_wire r ++ CRLF ++ CRLF) ++ body) in Hb
    by (by rewrite <- !app_assoc).
  apply text_app in Hb as [H1 H2]. split; [done|]. rewrite length_app in H2.
  change (length (CRLF ++ CRLF)) with 4%nat in H2.
  by replace (0 + Z.of_nat (length (head_wire r) + 4)) with (h + 4) in H2 by (unfold h; lia).
Qed.

Lemma header_boundary_run :
  header_boundary b n = Some (if h + 4 <=? n then Some (h, h + 4) else None).
Proof.
  destruct head_text as [Ht _]. unfold header_boundary.
  assert (H4 : text b h [CR; LF; CR; LF]) by (apply text_app in Ht as [_ Ht]; exact Ht).
  destruct (Z.leb_spec (h + 4) n).
  - rewrite (find_first b n [CR; LF; CR; LF] h); [done|lia|unfold h; lia|cbn [length]; lia|done|].
    intros j Hj. by apply (no_crlfcrlf b r Hr Ht).
  - rewrite (find_none b n [CR; LF; CR; LF]); [cbn [mbind option_bind]|lia|].
    + rewrite find_none; [done|lia|]. intros j H0 Hj. apply (no_lflf b r Hr Ht). cbn [length] in Hj.
      unfold h in *. lia.
    + intros j H0 Hj. apply (no_crlfcrlf b r Hr Ht). cbn [length] in Hj. unfold h in *. lia.
Qed.

Lemma status_text : text b 0 (status_wire r ++ CRLF) /\ text b (len (status_wire r)) (fields_wire (fields r) ++ CRLF).
Proof.
  destruct head_text as [Ht _]. unfold head_wire in Ht. rewrite <- app_assoc in Ht.
  apply text_app in Ht as [H1 H2]. rewrite Z.add_0_l in H2.
  split; [|by rewrite app_assoc in H2; apply text_app in H2 as [H2 _]].
  apply text_app. split; [done|]. rewrite Z.add_0_l.
  destruct (fields r) as [|f fs].
  { change (fields_wire [] ++ CRLF ++ CRLF) with (CRLF ++ CRLF) in H2. by apply text_app in H2 as [H2 _]. }
  change (fields_wire (f :: fs)) with (CRLF ++ field_wire f ++ fields_wire fs) in H2.
  rewrite <- app_assoc in H2. by apply text_app in H2 as [H2 _].
Qed.

Lemma parse_status_run : parse_status b h = Some (status_number r).
Proof.
  destruct status_text as [Ht _]. destruct Hr as (Hv & H1 & H2 & H3 & _ & _).
  assert (Hlen : len (status_wire r) <= h) by (unfold h, head_wire; rewrite length_app; lia).
  unfold status_wire in Ht, Hlen. rewrite length_app in Hlen. cbn [length] in Hlen.
  rewrite <- app_assoc in Ht. cbn [app] in Ht.
  apply text_app in Ht as Ht'. destruct Ht' as [Hver (Hsp & Hd1 & Hd2 & Hd3 & _)].
  rewrite !Z.add_0_l in *. unfold parse_status.
  assert (Hdig : forall c, is_digit c = true -> (c =? SP) = false).
  { intros c [?%Z.leb_le ?%Z.leb_le]%andb_prop. by destruct (Z.eqb_spec c SP); [lia|]. }
  rewrite (skip_run b h _ 0 (version r) SP); [|apply text_app; split; [done|by split]| |done|lia].
  2: { eapply List.Forall_impl; [|exact Hv]. intros c [He Hs]. unfold eol in He.
       apply orb_false_iff in He as [-> ->]. apply Z.eqb_neq in Hs. by rewrite Hs. }
  cbn [mbind option_bind]. rewrite Z.add_0_l, Z.min_r by lia.
  rewrite (skip_run b h _ (len (version r)) [SP] (d1 r));
    [|by split; [|split]|by repeat constructor|by apply Hdig|lia].
  cbn [mbind option_bind length]. rewrite Z.min_r by lia. change (Z.of_nat 1) with 1.
  destruct (Z.leb_spec h (len (version r) + 1 + 2)); [lia|].
  rewrite Hd1, Hd2. cbn [mbind option_bind].
  replace (len (version r) + 1 + 1 + 1) with (len (version r) + 1 + 2) in Hd3 by lia.
  rewrite Hd3. cbn [mbind option_bind]. by rewrite H1, H2, H3.
Qed.

Lemma fields_run fs fuel p fr :
  text b p (fields_wire fs ++ CRLF) -> Forall field_ok fs -> h = p + len (fields_wire fs) ->
  0 <= p -> h - p < Z.of_nat fuel ->
  fields_loop fuel b h (if p <? h then p + 2 else p) fr = Some (fields_say fs fr).
Proof.
  intros Ht Hfs. revert fuel p fr Ht. induction Hfs as [|f fs Hf Hfs IH]; intros fuel p fr Ht Hh Hp Hfu;
    (destruct fuel as [|k]; [lia|]); cbn [fields_loop fields_say].
  - cbn in Hh. rewrite Hh, Z.add_0_r, Z.ltb_irrefl. by rewrite Z.ltb_irrefl.
  - change (fields_wire (f :: fs)) with (CRLF ++ field_wire f ++ fields_wire fs) in *.
    rewrite !length_app in Hh. change (length CRLF) with 2%nat in Hh.
    destruct (field_wire_ok f Hf) as [Hw Hne]. set (w := field_wire f) in *.
    assert (0 < len w) by (destruct w; [done|cbn [length]; lia]).
    destruct (Z.ltb_spec p h); [|lia]. destruct (Z.ltb_spec (p + 2) h); [|lia].
    rewrite <- !app_assoc in Ht. apply text_app in Ht as [_ Ht]. change (len CRLF) with 2 in Ht.
    assert (Hline : text b (p + 2) (w ++ CRLF)).
    { apply text_app in Ht as [T1 T2]. apply text_app. split; [done|].
      destruct fs as [|g fs]; [exact T2|].
      change (fields_wire (g :: fs)) with (CRLF ++ field_wire g ++ fields_wire fs) in T2.
      rewrite <- !app_assoc in T2. by apply text_app in T2 as [T2 _]. }
    rewrite (line_end_run b h (p + 2) w Hline) by (by apply no_eol_lf || lia). cbn [mbind option_bind].
    apply text_app in Ht as [_ Htail].
    rewrite (field_run b (p + 2) _ f fr); [|fold w|done|lia|fold w].
    2: { apply text_app in Hline as [T1 [T2 _]]. apply text_app. split; [done|by split]. }
    2: { destruct fs; [left|right]; cbn in Hh |- *; lia. }
    cbn [mbind option_bind]. destruct (field_says f fr) as [fr'|]; [|done]. cbn [mbind option_bind].
    rewrite <- (IH k (p + 2 + len w) fr'); [|done|lia|lia|lia]. f_equal.
    destruct (Z.ltb_spec (p + 2 + len w) h).
    + rewrite Z.min_r by lia. destruct (Z.ltb_spec (p + 2 + len w + 1) h); [lia|].
      destruct fs as [|g fs]; [cbn in Hh; lia|]. 
      change (fields_wire (g :: fs)) with (CRLF ++ field_wire g ++ fields_wire fs) in Hh.
      rewrite !length_app in Hh. change (length CRLF) with 2%nat in Hh. lia.
    + rewrite Z.min_l by lia. rewrite Z.ltb_irrefl. lia.
Qed.
End whole.

(** ** The bytes behind the end do not matter

    A read that succeeds on a prefix succeeds on the buffer. *)

Definition extends {A} (x y : option A) : Prop := forall v, x = Some v -> y = Some v.

Lemma extends_refl {A} (x : option A) : extends x x.
Proof. by intros v. Qed.

Lemma extends_bind {A B} (x y : option A) (f g : A -> option B) :
  extends x y -> (forall a, extends (f a) (g a)) -> extends (x ≫= f) (y ≫= g).
Proof.
  intros H Hf v Hv. destruct x as [a|]; [|done]. rewrite (H a eq_refl). by apply (Hf a).
Qed.

Create HintDb extends discriminated.
#[export] Hint Constants Opaque : extends.

(** Binds, case analyses, and the lemmas on the calls. *)
Ltac extends :=
  repeat match goal with
    | |- extends ?x ?y => constr_eq x y; apply extends_refl
    | |- extends (_ ≫= _) (_ ≫= _) => apply extends_bind; [|intros ?]
    | |- extends (match ?x with _ => _ end) _ => destruct x
    | |- extends _ _ => progress cbv zeta
    | IH : _ |- _ => apply IH
    | |- _ => solve [auto 1 with extends nocore]
    end.

Section prefix.
Context (b rest : bytes).
Let b' := b ++ rest.

Lemma rd_extends i : extends (rd b i) (rd b' i).
Proof. intros v Hv. apply rd_inv in Hv as Hi. unfold b'. rewrite rd_app_l by lia. done. Qed.
#[local] Hint Resolve rd_extends : extends.

Lemma skip_while_extends fuel n f p : extends (skip_while fuel b n f p) (skip_while fuel b' n f p).
Proof. revert p. induction fuel as [|k IH]; intros p; cbn [skip_while]; extends. Qed.
Lemma skip_extends n f p : extends (skip b n f p) (skip b' n f p).
Proof. apply skip_while_extends. Qed.
#[local] Hint Resolve skip_extends : extends.

Lemma starts_extends o l : extends (starts b o l) (starts b' o l).
Proof. revert o. induction l as [|x l IH]; intros o; cbn [starts]; extends. Qed.
#[local] Hint Resolve starts_extends : extends.

Lemma find_bytes_extends n l : extends (find_bytes b n l) (find_bytes b' n l).
Proof.
  unfold find_bytes. generalize (Z.to_nat (n - len l + 1)) 0. intros k.
  induction k as [|k IH]; intros i; cbn [find_loop]; extends.
Qed.
#[local] Hint Resolve find_bytes_extends : extends.

Lemma trim_end_extends fuel v z : extends (trim_end fuel b v z) (trim_end fuel b' v z).
Proof. revert z. induction fuel as [|k IH]; intros z; cbn [trim_end]; extends. Qed.

Lemma span_eq_extends o n l : extends (span_eq_ci b o n l) (span_eq_ci b' o n l).
Proof.
  unfold span_eq_ci. generalize (S (length l)) 0. intros k.
  induction k as [|k IH]; intros i; cbn [span_eq_loop]; extends.
Qed.

Lemma drop_cr_extends p e : extends (drop_cr b p e) (drop_cr b' p e).
Proof. unfold drop_cr. extends. Qed.

Lemma line_end_extends n p : extends (line_end b n p) (line_end b' n p).
Proof. apply skip_extends. Qed.
#[local] Hint Resolve trim_end_extends span_eq_extends drop_cr_extends line_end_extends : extends.

Lemma has_chunked_extends o n : extends (value_has_chunked b o n) (value_has_chunked b' o n).
Proof.
  unfold value_has_chunked. generalize (o + n). generalize o. generalize (S (Z.to_nat n)). intros k.
  induction k as [|k IH]; intros p e; cbn [has_chunked_loop]; extends.
Qed.

Lemma dec_loop_extends fuel n p v d : extends (dec_loop fuel b n p v d) (dec_loop fuel b' n p v d).
Proof. revert p v d. induction fuel as [|k IH]; intros p v d; cbn [dec_loop]; extends. Qed.

Lemma hex_loop_extends fuel e q v d : extends (hex_loop fuel b e q v d) (hex_loop fuel b' e q v d).
Proof. revert q v d. induction fuel as [|k IH]; intros q v d; cbn [hex_loop]; extends. Qed.
#[local] Hint Resolve has_chunked_extends dec_loop_extends hex_loop_extends : extends.

Lemma parse_dec_extends o n : extends (parse_dec b o n) (parse_dec b' o n).
Proof. unfold parse_dec. extends. Qed.
Lemma parse_status_extends n : extends (parse_status b n) (parse_status b' n).
Proof. unfold parse_status. extends. Qed.
Lemma chunk_size_extends p le : extends (chunk_size b p le) (chunk_size b' p le).
Proof. unfold chunk_size. extends. Qed.
Lemma chunk_end_extends n p : extends (chunk_end b n p) (chunk_end b' n p).
Proof. unfold chunk_end. extends. Qed.
Lemma trailer_extends fuel n p : extends (trailer_loop fuel b n p) (trailer_loop fuel b' n p).
Proof. revert p. induction fuel as [|k IH]; intros p; cbn [trailer_loop]; extends. Qed.
#[local] Hint Resolve parse_dec_extends parse_status_extends chunk_size_extends chunk_end_extends
  trailer_extends : extends.

Lemma chunked_extends fuel n p : extends (chunked_loop fuel b n p) (chunked_loop fuel b' n p).
Proof. revert p. induction fuel as [|k IH]; intros p; cbn [chunked_loop]; extends. Qed.
Lemma field_extends p le fr : extends (field b p le fr) (field b' p le fr).
Proof. unfold field. extends. Qed.
#[local] Hint Resolve chunked_extends field_extends : extends.

Lemma fields_extends fuel he p fr : extends (fields_loop fuel b he p fr) (fields_loop fuel b' he p fr).
Proof. revert p fr. induction fuel as [|k IH]; intros p fr; cbn [fields_loop]; extends. Qed.
#[local] Hint Resolve fields_extends : extends.

Lemma http_frame_complete_extends n : extends (http_frame_complete b n) (http_frame_complete b' n).
Proof.
  unfold http_frame_complete. apply extends_bind. { unfold header_boundary. extends. }
  intros r. destruct r as [[he bo]|]; [|extends]. apply extends_bind. { extends. } intros code.
  destruct (code <? 0); [extends|]. destruct (_ || _); [extends|].
  apply extends_bind. { extends. } intros p. apply extends_bind; [apply fields_extends|].
  intros a. destruct a as [fr|]; [|extends].
  destruct (chunked fr); [unfold chunked_complete; apply chunked_extends|].
  destruct (content_len fr); extends.
Qed.
End prefix.

Lemma http_frame_complete_local b m n :
  0 <= n <= len b -> n <= len m -> take (Z.to_nat n) b = take (Z.to_nat n) m ->
  http_frame_complete b n = http_frame_complete m n.
Proof.
  intros Hb Hm E.
  destruct (http_frame_complete_safe (take (Z.to_nat n) m) n) as (v & Hv & _).
  { rewrite length_take. lia. }
  assert (G : forall x, take (Z.to_nat n) x = take (Z.to_nat n) m -> http_frame_complete x n = Some v).
  { intros x Ex. pose proof (http_frame_complete_extends (take (Z.to_nat n) x) (drop (Z.to_nat n) x) n v) as H.
    rewrite take_drop, Ex in H. by apply H. }
  by rewrite !G.
Qed.

(** ** The verdict *)

Definition message (r : response) (body : bytes) : bytes := head_wire r ++ CRLF ++ CRLF ++ body.

Definition no_framing : framing := mk_framing false None.
Definition bodiless (r : response) : bool := (status_number r =? 204) || (status_number r =? 304).

(** The body as the fields announce it. *)
Definition framed (fr : framing) (body : bytes) : Prop :=
  if chunked fr then
    exists cs zeros ext ts,
      body = chunked_wire cs zeros ext ts /\ Forall chunk_ok cs /\ size_line zeros ext /\
      hex_num 0 zeros = 0 /\ Forall (fun t => t <> [] /\ no_lf t) ts
  else content_len fr = Some (len body).

Lemma length_message r body : len (message r body) = len (head_wire r) + 4 + len body.
Proof. unfold message. rewrite !length_app. change (length CRLF) with 2%nat. lia. Qed.

Lemma status_number_nonneg r : response_ok r -> (status_number r <? 0) = false.
Proof.
  intros (_ & H1 & H2 & H3 & _). apply Z.ltb_ge. unfold status_number.
  apply andb_prop in H1 as [?%Z.leb_le ?%Z.leb_le], H2 as [?%Z.leb_le ?%Z.leb_le], H3 as [?%Z.leb_le ?%Z.leb_le].
  lia.
Qed.

(** The status line and the fields; what is left is the body. *)
Lemma frame_head b n r body :
  response_ok r -> text b 0 (message r body) -> 0 <= n <= len b ->
  http_frame_complete b n
  = let bo := len (head_wire r) + 4 in
    if bo <=? n then
      if bodiless r then Some 1
      else match fields_say (fields r) no_framing with
           | None => Some (-1)
           | Some fr =>
               if chunked fr then chunked_complete b n bo
               else match content_len fr with
                    | Some v => Some (if SIZE_MAX - bo <? v then -1 else if bo + v <=? n then 1 else 0)
                    | None => Some 0
                    end
           end
    else Some 0.
Proof.
  intros Hr Hb Hn. cbv zeta. unfold http_frame_complete. rewrite (header_boundary_run b n r body) by done.
  cbn [mbind option_bind]. destruct (_ <=? n); [|done].
  rewrite (parse_status_run b r body) by done. cbn [mbind option_bind]. rewrite status_number_nonneg by done.
  fold (bodiless r). destruct (bodiless r); [done|].
  destruct (status_text b r body Hb) as [Hst Hft].
  assert (Hh : len (head_wire r) = len (status_wire r) + len (fields_wire (fields r)))
    by (unfold head_wire; rewrite length_app; lia).
  rewrite (line_end_run b _ 0 (status_wire r)); [|done|by apply no_eol_lf, status_no_eol|lia].
  cbn [mbind option_bind]. rewrite Z.add_0_l. unfold no_framing.
  assert (E : forall k, fields_wire (fields r) = [] \/ 2 <= len (fields_wire (fields r)) ->
    fields_loop k b (len (head_wire r))
      (if Z.min (len (head_wire r)) (len (status_wire r) + 1) <? len (head_wire r)
       then Z.min (len (head_wire r)) (len (status_wire r) + 1) + 1
       else Z.min (len (head_wire r)) (len (status_wire r) + 1)) (mk_framing false None)
    = fields_loop k b (len (head_wire r))
      (if len (status_wire r) <? len (head_wire r) then len (status_wire r) + 2 else len (status_wire r))
      (mk_framing false None)).
  { intros k [E|E]; f_equal.
    - rewrite E in Hh. cbn in Hh. rewrite Z.min_l, Z.ltb_irrefl by lia.
      destruct (Z.ltb_spec (len (status_wire r)) (len (head_wire r))); lia.
    - rewrite Z.min_r by lia. destruct (Z.ltb_spec (len (status_wire r) + 1) (len (head_wire r))); [|lia].
      destruct (Z.ltb_spec (len (status_wire r)) (len (head_wire r))); lia. }
  rewrite E, (fields_run b r (fields r)); [done|done|apply Hr|done|lia|lia|]. clear - r.
  destruct (fields r) as [|f fs]; [by left|right].
  change (fields_wire (f :: fs)) with (CRLF ++ field_wire f ++ fields_wire fs).
  rewrite length_app. change (length CRLF) with 2%nat. lia.
Qed.

(** The beginning of a message in a buffer that may hold anything behind it. *)
Definition received (b m : bytes) (n : Z) : Prop :=
  0 <= n <= len m /\ n <= len b /\ take (Z.to_nat n) b = take (Z.to_nat n) m.

Lemma received_complete b m n :
  received b m n -> http_frame_complete b n = http_frame_complete m n.
Proof. intros (Hn & Hb & E). apply http_frame_complete_local; (done || lia). Qed.

(** C21. After [n] bytes of a well-formed response, whatever the rest of the
    buffer holds, [http_frame_complete] says 1 when [n] is the length of the
    whole message and 0 before: the message ends where its [Content-Length] or
    its last chunk says, trailer included, and there only. *)
Theorem http_frame_exact r fr body b n :
  response_ok r -> bodiless r = false -> fields_say (fields r) no_framing = Some fr ->
  framed fr body -> len (message r body) <= SIZE_MAX -> received b (message r body) n ->
  http_frame_complete b n = Some (if n =? len (message r body) then 1 else 0).
Proof.
  intros Hr Hc Hf Hbody Hmax Hrec. rewrite (received_complete _ _ _ Hrec). destruct Hrec as (Hn & _).
  assert (Ht : text (message r body) 0 (message r body)).
  { pose proof (text_intro [] (message r body) []) as H. by rewrite app_nil_r in H. }
  rewrite (frame_head _ n r body Hr Ht Hn), Hc, Hf. rewrite length_message in *. cbv zeta.
  destruct (head_text _ r body Ht) as [_ Hbt].
  destruct (Z.leb_spec (len (head_wire r) + 4) n).
  2: { by destruct (Z.eqb_spec n (len (head_wire r) + 4 + len body)); [lia|]. }
  unfold framed in Hbody. destruct (chunked fr).
  - destruct Hbody as (cs & zeros & ext & ts & -> & Hcs & Hz & Hz0 & Hts).
    unfold chunked_complete. rewrite (chunked_run _ n cs zeros ext ts) by (done || lia).
    unfold full. f_equal. by destruct (Z.leb_spec (len (head_wire r) + 4 + len (chunked_wire cs zeros ext ts)) n),
      (Z.eqb_spec n (len (head_wire r) + 4 + len (chunked_wire cs zeros ext ts))); lia.
  - rewrite Hbody. destruct (Z.ltb_spec (SIZE_MAX - (len (head_wire r) + 4)) (len body)); [lia|]. f_equal.
    destruct (Z.leb_spec (len (head_wire r) + 4 + len body) n), (Z.eqb_spec n (len (head_wire r) + 4 + len body)); lia.
Qed.

(** Two [Content-Length] fields that disagree: malformed as soon as the
    header is there, unless the status says there is no body; then the message
    is complete. *)
Theorem http_frame_conflict r body b n :
  response_ok r -> fields_say (fields r) no_framing = None -> received b (message r body) n ->
  http_frame_complete b n
  = Some (if n <? len (head_wire r) + 4 then 0 else if bodiless r then 1 else -1).
Proof.
  intros Hr Hf Hrec. rewrite (received_complete _ _ _ Hrec). destruct Hrec as (Hn & _).
  assert (Ht : text (message r body) 0 (message r body)).
  { pose proof (text_intro [] (message r body) []) as H. by rewrite app_nil_r in H. }
  rewrite (frame_head _ n r body Hr Ht Hn), Hf. cbv zeta.
  destruct (Z.leb_spec (len (head_wire r) + 4) n), (Z.ltb_spec n (len (head_wire r) + 4)); try lia; [|done].
  by destruct (bodiless r).
Qed.

(** ** A response and its prefixes *)

Module Frames.

Definition page : response :=
  mk_response (chars "HTTP/1.1") 50 48 48 (chars " OK")
    [Other (chars "Server") (chars "x"); Coding (chars "TRANSFER-encoding") (chars "Chunked")].
Definition body : bytes :=
  chunked_wire [mk_chunk (chars "5") [] (chars "hello"); mk_chunk (chars "0a") (chars ";q=1") (chars "0123456789")]
    (chars "00") [] [chars "Expires: never"].
Definition wire : bytes := message page body.

Definition plain : response :=
  mk_response (chars "HTTP/1.0") 52 48 52 []
    [Size (chars "content-length") (chars "004"); Size (chars "Content-Length") (chars "4")].
Definition split : response :=
  mk_response (chars "HTTP/1.0") 50 48 48 []
    [Size (chars "content-length") (chars "3"); Size (chars "Content-Length") (chars "4")].

(** The verdicts on every prefix. *)
Definition verdicts (m : bytes) : list (option Z) :=
  (fun k => http_frame_complete m (Z.of_nat k)) <$> seq 0 (S (length m)).

Example verdicts_page : verdicts wire = replicate (length wire) (Some 0) ++ [Some 1].
Proof. vm_compute. reflexivity. Qed.
Example verdicts_plain :
  verdicts (message plain (chars "gone")) = replicate (length (message plain (chars "gone"))) (Some 0) ++ [Some 1].
Proof. vm_compute. reflexivity. Qed.
Example verdict_overflow :
  http_frame_complete (message split [] ++ chars "x") (len (message split [])) = Some (-1).
Proof. vm_compute. reflexivity. Qed.

Ltac concrete :=
  repeat match goal with
    | |- _ /\ _ => split
    | |- Forall _ _ => apply List.Forall_cons || apply List.Forall_nil
    | |- ~ _ => vm_compute; discriminate
    | |- _ <> _ => discriminate
    | |- _ <= _ => vm_compute; discriminate
    | |- _ < _ => reflexivity
    | |- _ = _ => reflexivity
    | |- same_ci _ _ => reflexivity
    | |- _ => progress cbn [field_ok token no_eol no_lf]
    | |- _ => progress unfold token, no_eol, no_lf
    end.

Lemma page_ok : response_ok page.
Proof. unfold response_ok; cbn [version reason fields page]; concrete. Qed.
Lemma split_ok : response_ok split.
Proof. unfold response_ok; cbn [version reason fields split]; concrete. Qed.

Lemma body_framed : framed (mk_framing true None) body.
Proof.
  cbn [framed chunked]. do 4 eexists. split; [reflexivity|].
  unfold chunk_ok, size_line, no_lf. concrete; cbn; concrete; first [by left|by right; eexists].
Qed.

Lemma received_prefix k b m : k = length m -> take k b = m -> forall n, 0 <= n <= len m -> received b m n.
Proof.
  intros -> E n Hn. assert (length m <= length b)%nat by (rewrite <- E at 1; rewrite length_take; lia).
  split; [done|]. split; [lia|].
  transitivity (take (Z.to_nat n) (take (length m) b)); [|by rewrite E].
  rewrite take_take. f_equal. lia.
Qed.

(** The prefixes of a page, with more bytes behind it. *)
Lemma http_frame_exact_witness :
  http_frame_complete (wire ++ chars "HTTP/1.1") (len wire) = Some 1 /\
  http_frame_complete (wire ++ chars "HTTP/1.1") (len wire - 1) = Some 0.
Proof.
  assert (H : forall n, 0 <= n <= len wire ->
    http_frame_complete (wire ++ chars "HTTP/1.1") n = Some (if n =? len wire then 1 else 0)).
  { intros n Hn. apply (http_frame_exact page (mk_framing true None) body).
    - apply page_ok.
    - reflexivity.
    - reflexivity.
    - apply body_framed.
    - vm_compute. discriminate.
    - apply (received_prefix (length wire)); [reflexivity|reflexivity|exact Hn]. }
  split; [apply (H (len wire))|apply (H (len wire - 1))]; by apply (bool_decide_unpack _); vm_compute.
Defined.

Lemma http_frame_conflict_witness :
  http_frame_complete (message split [] ++ chars "x") (len (message split [])) = Some (-1).
Proof.
  rewrite (http_frame_conflict split []).
  - reflexivity.
  - apply split_ok.
  - reflexivity.
  - apply (received_prefix (length (message split []))); [reflexivity|reflexivity|].
    split; [vm_compute; discriminate|apply Z.le_refl].
Defined.

End Frames.
