(* ===== verification/Tls.v ===== *)
(** * kernel/tls.c: the HTTPS exchange

    Lines 37-42: the callbacks given to the TLS library, the readiness test and
    [tls_https_exchange], over the TCP client of NetClient, the entropy and the
    clock of Rtc and the message boundary of TlsFrame.  The library itself is
    the class [Bearssl]: its constants, the calls that set up a client, and the
    three I/O calls, which act on the network through the callbacks only. *)

From S2P Require Import Prelude NetEnv Cstr Http HttpChunked HttpGet HttpSafe Wire Net NetRx NetClient.
From S2P Require Import NetSession HttpTcp Rtc TlsFrame TlsExact.

(** ** The library *)

(** [low_read(ctx,data,len)] and [low_write(ctx,data,len)]; a read returns the
    buffer too. *)
Record callbacks (X : Type) := mk_callbacks {
  cb_read : bytes -> Z -> X -> res (Z * bytes * X);
  cb_write : bytes -> Z -> X -> res (Z * X)
}.
Arguments cb_read {X}.
Arguments cb_write {X}.

(** [C]: the client and certificate contexts.  A read returns the bytes stored. *)
Class Bearssl (C : Type) := {
  BR_TLS12 : Z;
  BR_OPT_NO_RENEGOTIATION : Z;
  BR_SSL_BUFSIZE_MONO : Z;
  BR_ERR_OK : Z;
  br_ssl_client_init_full : C;
  br_ssl_engine_set_versions : Z -> Z -> C -> C;
  br_ssl_engine_set_buffer : Z -> Z -> C -> C;
  br_ssl_engine_inject_entropy : bytes -> Z -> C -> C;
  br_x509_minimal_set_time : Z -> Z -> C -> C;
  br_x509_minimal_set_minrsa : Z -> C -> C;
  br_ssl_engine_add_flags : Z -> C -> C;
  br_ssl_client_reset : bytes -> Z -> C -> Z * C;
  br_ssl_engine_last_error : C -> Z;
  br_sslio_write_all {X} : callbacks X -> bytes -> Z -> C -> X -> res (Z * C * X);
  br_sslio_flush {X} : callbacks X -> C -> X -> res (Z * C * X);
  br_sslio_read {X} : callbacks X -> Z -> C -> X -> res (Z * bytes * C * X)
}.

Class SerialHex (E : Type) := { serial_write_hex64 : Z -> E -> E }.

(** ** The exchange *)

Section exchange.
Context {E : Type} `{!NetEnv E, !NetDevice E, !Platform E, !SerialHex E}.
Context {C : Type} `{!Bearssl C}.
Context (stack : Z -> bytes) (fuel : nat).

Definition slog (text : bytes) (x : net * E) : net * E := (x.1, NetClient.serial_write text x.2).

Definition tls_log_error (stage : bytes) (err : Z) (x : net * E) : net * E :=
  let x := slog stage (slog (lit "TLS: ") x) in
  let x := slog (lit " error=") x in
  slog [CR; LF; 0] (x.1, serial_write_hex64 err x.2).

Definition low_read (data : bytes) (n : Z) (x : net * E) : res (Z * bytes * (net * E)) :=
  '(n, data, s, e) ← net_tcp_read stack fuel data n 10000 x.1 x.2;
  Ok (if 0 <? n then n else -1, data, (s, e)).

Definition low_write (data : bytes) (n : Z) (x : net * E) : res (Z * (net * E)) :=
  let n := if 1200 <? n then 1200 else n in
  '(ok, s, e) ← net_tcp_write stack fuel (Ptr data) n 6000 x.1 x.2;
  Ok (if negb (ok =? 0) then n else -1, (s, e)).

Definition io : callbacks (net * E) := mk_callbacks _ low_read low_write.

(** [scopy(status,status_cap,why);return 0;] *)
Definition refuse (why : bytes) (raw : bytes) (st : ptr bytes) (cap : Z) (x : net * E)
  : res (Z * bytes * Z * ptr bytes * (net * E)) :=
  st ← ub (scopy st cap (Ptr why)); Ok (0, raw, 0, st, x).

(** The same after [net_tcp_close()]. *)
Definition hang_up (why : bytes) (raw : bytes) (st : ptr bytes) (cap : Z) (x : net * E)
  : res (Z * bytes * Z * ptr bytes * (net * E)) :=
  x ← net_tcp_close stack fuel x.1 x.2; refuse why raw st cap x.

(** From [br_ssl_client_init_full] to [br_ssl_engine_add_flags]. *)
Definition client (seed : bytes) (days seconds : Z) : C :=
  let c := br_ssl_engine_set_versions BR_TLS12 BR_TLS12 br_ssl_client_init_full in
  let c := br_ssl_engine_set_buffer BR_SSL_BUFSIZE_MONO 0 c in
  let c := br_ssl_engine_inject_entropy seed 48 c in
  let c := br_x509_minimal_set_time days seconds c in
  let c := br_x509_minimal_set_minrsa 256 c in
  br_ssl_engine_add_flags BR_OPT_NO_RENEGOTIATION c.

(** How the loop on [br_sslio_read] ends. *)
Inductive reading :=
| TooLarge
| Malformed
| Closed
| Framed.

(** [for(;;)] *)
Fixpoint tls_read_loop (k : nat) (raw : bytes) (cap used : Z) (c : C) (x : net * E)
  : res (reading * bytes * Z * C * (net * E)) :=
  match k with
  | O => NoFuel
  | S k' =>
      if cap <=? used + 1 then Ok (TooLarge, raw, used, c, x)
      else
        '(n, d, c, x) ← br_sslio_read io (cap - 1 - used) c x;
        if n <? 0 then Ok (Closed, raw, used, c, x)
        else
          raw ← ub (copy_from (length d) raw used d 0);
          let used := used + n in
          fs ← ub (http_frame_complete raw used);
          if fs <? 0 then Ok (Malformed, raw, used, c, x)
          else if 0 <? fs then
            Ok (Framed, raw, used, c, slog (chars "TLS: complete authenticated HTTP frame" ++ [CR; LF; 0]) x)
          else tls_read_loop k' raw cap used c x
  end.

(** The end of [tls_https_exchange], when it returns 1. *)
Definition accept (raw : bytes) (used : Z) (st : ptr bytes) (st_cap : Z) (x : net * E)
  : res (Z * bytes * Z * ptr bytes * (net * E)) :=
  x ← net_tcp_close stack fuel x.1 x.2;
  raw ← ub (wr raw used 0);
  st ← ub (scopy st st_cap (Ptr (lit "TLS 1.2 verified")));
  Ok (1, raw, used, st, slog (chars "TLS: verified HTTPS session" ++ [CR; LF; 0]) x).

(** The two returns inside the loop, and what follows it. *)
Definition conclude (how : reading) (raw : bytes) (used : Z) (c : C) (st : ptr bytes) (st_cap : Z)
    (x : net * E) : res (Z * bytes * Z * ptr bytes * (net * E)) :=
  let err := br_ssl_engine_last_error c in
  match how with
  | TooLarge => hang_up (lit "HTTPS response too large") raw st st_cap x
  | Malformed => hang_up (lit "Malformed HTTPS response framing") raw st st_cap x
  | _ =>
      let framed := match how with Framed => true | _ => false end in
      if negb framed && negb (err =? BR_ERR_OK) then
        hang_up (lit "TLS validation or transport failed") raw st st_cap
          (tls_log_error (lit "validation/transport") err x)
      else if negb framed && (used =? 0) then hang_up (lit "Empty HTTPS response") raw st st_cap x
      else if framed && negb (err =? BR_ERR_OK) then
        hang_up (lit "TLS failed before framed response completion") raw st st_cap
          (tls_log_error (lit "post-frame") err x)
      else accept raw used st st_cap x
  end.

(** From [br_sslio_write_all] on. *)
Definition converse (request : bytes) (request_len : Z) (raw : bytes) (cap : Z) (st : ptr bytes)
    (st_cap : Z) (c : C) (x : net * E) : res (Z * bytes * Z * ptr bytes * (net * E)) :=
  '(w, c, x) ← br_sslio_write_all io request request_len c x;
  '(w, c, x) ← (if w <? 0 then Ok (w, c, x) else br_sslio_flush io c x);
  if w <? 0 then
    hang_up (lit "TLS handshake/write failed") raw st st_cap
      (tls_log_error (lit "handshake/write") (br_ssl_engine_last_error c) x)
  else
    let x := slog (chars "TLS: request encrypted and sent" ++ [CR; LF; 0]) x in
    '(how, raw, used, c, x) ← tls_read_loop (Z.to_nat cap) raw cap 0 c x;
    conclude how raw used c st st_cap x.

(** [host], [request] and [response] are not null. *)
Definition tls_https_exchange (host : bytes) (port : Z) (request : bytes) (request_len : Z)
    (response : bytes) (response_cap : Z) (st : ptr bytes) (st_cap : Z) (x : net * E)
  : res (Z * bytes * Z * ptr bytes * (net * E)) :=
  h ← ub (rd host 0);
  if (h =? 0) || (response_cap <? 2) then Ok (0, response, 0, st, x)
  else
    '(ok, seed, e) ← entropy_bytes (stack 48) 48 x.2;
    let x := (x.1, e) in
    if ok =? 0 then
      refuse (lit "TLS entropy unavailable") response st st_cap
        (slog (chars "TLS: RDRAND entropy unavailable" ++ [CR; LF; 0]) x)
    else
      '(t, e) ← tls_time fuel x.2;
      let x := (x.1, e) in
      match t with
      | None =>
          refuse (lit "TLS clock unavailable") response st st_cap
            (slog (chars "TLS: RTC clock unavailable" ++ [CR; LF; 0]) x)
      | Some (days, seconds) =>
          let x := slog (chars "TLS: TCP connect" ++ [CR; LF; 0]) x in
          '(ok, st, s, e) ← net_tcp_connect stack fuel (Ptr host) port st st_cap x.1 x.2;
          let x := (s, e) in
          if ok =? 0 then
            Ok (0, response, 0, st, slog (chars "TLS: TCP connect failed" ++ [CR; LF; 0]) x)
          else
            let x := slog (chars "TLS: starting verified TLS 1.2 handshake" ++ [CR; LF; 0]) x in
            let '(r, c) := br_ssl_client_reset host 0 (client seed days seconds) in
            if r =? 0 then
              hang_up (lit "TLS client reset failed") response st st_cap
                (tls_log_error (lit "client reset") (br_ssl_engine_last_error c) x)
            else converse request request_len response response_cap st st_cap c x
      end.

Definition tls_platform_ready (st : ptr bytes) (st_cap : Z) (e : E) : res (Z * ptr bytes * E) :=
  '(ok, _, e) ← entropy_bytes (stack 8) 8 e;
  if ok =? 0 then
    st ← ub (scopy st st_cap (Ptr (lit "TLS needs x86 RDRAND entropy"))); Ok (0, st, e)
  else
    '(t, e) ← tls_time fuel e;
    match t with
    | None => st ← ub (scopy st st_cap (Ptr (lit "TLS needs a valid RTC clock"))); Ok (0, st, e)
    | Some _ => Ok (1, st, e)
    end.
End exchange.

(** ** What the library promises

    The documentation of the three calls: they reach the outside through the
    callbacks, given buffers of the length announced; a read delivers at least
    one byte and at most what was asked, or a negative number. *)

Definition callbacks_ok {X} (J : X -> Prop) (cb : callbacks X) : Prop :=
  (forall data n x, J x -> 0 < n <= len data ->
     safe True (cb_read cb data n x) (fun '(k, data', x') =>
       (k < 0 \/ 0 < k <= n /\ len data' = len data) /\ J x')) /\
  (forall data n x, J x -> 0 < n <= len data ->
     safe True (cb_write cb data n x) (fun '(k, x') => (k < 0 \/ 0 < k <= n) /\ J x')).

Class BearsslLaws (C : Type) `{!Bearssl C} : Prop := {
  write_all_law X (cb : callbacks X) J d n c x :
    callbacks_ok J cb -> J x -> 0 <= n <= len d ->
    safe True (br_sslio_write_all cb d n c x) (fun '(_, _, x') => J x');
  flush_law X (cb : callbacks X) J c x :
    callbacks_ok J cb -> J x -> safe True (br_sslio_flush cb c x) (fun '(_, _, x') => J x');
  read_law X (cb : callbacks X) J n c x :
    callbacks_ok J cb -> J x -> 0 < n ->
    safe True (br_sslio_read cb n c x) (fun '(k, d, _, x') =>
      (k < 0 \/ 0 < k <= n /\ len d = k) /\ J x')
}.

Section safety.
Context {E : Type} `{!NetEnv E, !NetDevice E, !Platform E, !SerialHex E}.
Context {C : Type} `{!Bearssl C, !BearsslLaws C}.
Context (stack : Z -> bytes) (fuel : nat).
Hypothesis stack_ok : forall n, 0 <= n -> addr_ok n (stack n).
Hypothesis frames : forall e : E, Forall frame_ok (fst (netdev_poll e)).

Let J (x : net * E) : Prop := net_ok x.1.

Lemma io_ok : callbacks_ok J (io stack fuel).
Proof.
  split.
  - intros data n [s e] Hs Hn. cbn [cb_read io]. unfold low_read. cbn [fst snd].
    eapply safe_bind; [by apply (any_read stack fuel stack_ok frames)|].
    intros [[[k d] s1] e1] [Hk Hs1]. cbn. split; [|done].
    destruct (Z.ltb_spec 0 k); [|left; lia]. destruct Hk as [|Hk]; [lia|by right].
  - intros data n [s e] Hs Hn. cbn [cb_write io]. unfold low_write. cbn [fst snd]. cbv zeta.
    set (m := if _ <? _ then _ else _). assert (0 < m <= n) by (unfold m; case_if; lia).
    eapply safe_bind; [apply (any_write stack fuel stack_ok frames); [done|lia]|].
    intros [[ok s1] e1] Hs1. cbn. split; [|done]. destruct (negb _); lia.
Qed.

(** The outcome of an exchange over the buffer [raw] and the status [st]. *)
Definition exchanged (raw : bytes) (st : ptr bytes) (y : Z * bytes * Z * ptr bytes * (net * E)) : Prop :=
  let '(ok, raw', m, st', x) := y in
  len raw' = len raw /\ same_object st st' /\ (ok <> 0 -> 0 <= m < len raw) /\ J x.

Lemma refuse_ok why t raw raw' st st' cap x :
  cstr why 0 t -> len raw' = len raw -> same_object st st' -> status_ok cap st -> J x ->
  safe True (refuse why raw' st' cap x) (exchanged raw st).
Proof.
  intros Hw Hr Hs Hst Hx. unfold refuse.
  eapply safe_bind; [by apply safe_ub, (scopy_status _ _ _ t); [|by apply (status_ok_same _ st)]|].
  intros st2 H2. cbn. split; [done|]. split; [by eapply same_object_trans|]. by split.
Qed.

Lemma hang_up_ok why t raw raw' st st' cap x :
  cstr why 0 t -> len raw' = len raw -> same_object st st' -> status_ok cap st -> J x ->
  safe True (hang_up stack fuel why raw' st' cap x) (exchanged raw st).
Proof.
  intros Hw Hr Hs Hst Hx. unfold hang_up.
  eapply safe_bind; [by apply (any_close stack fuel stack_ok frames)|].
  intros [s e] H1. by apply (refuse_ok _ t).
Qed.

Lemma tls_read_loop_ok k raw cap used c x :
  J x -> cap <= len raw -> 0 <= used < cap ->
  safe True (tls_read_loop stack fuel k raw cap used c x) (fun '(_, raw', used', _, x') =>
    length raw' = length raw /\ 0 <= used' < cap /\ J x').
Proof.
  revert raw used c x. induction k as [|k IH]; intros raw used c x Hx Hc Hu; [done|].
  cbn [tls_read_loop]. destruct (Z.leb_spec cap (used + 1)); [by cbn|].
  eapply safe_bind; [apply (read_law _ (io stack fuel) J); [apply io_ok|done|lia]|].
  intros [[[n d] c'] x'] [Hn Hx']. destruct (Z.ltb_spec n 0); [by cbn|].
  destruct Hn as [|[Hn Hd]]; [lia|].
  apply (safe_bind _ _ _ (fun raw' => length raw' = length raw)).
  { apply safe_ub. rewrite copy_from_spec by lia. eexists. split; [done|].
    apply blit_length; [lia|]. rewrite slice_length by lia. lia. }
  intros raw' Hr. cbv zeta. eapply safe_bind; [apply safe_ub, http_frame_complete_safe; lia|].
  intros fs _. destruct (fs <? 0); [cbn; split; [done|split; [lia|done]]|].
  destruct (0 <? fs); [cbn; split; [done|split; [lia|done]]|].
  eapply safe_mono; [apply IH; (done || lia)|]. intros [[[[how r2] u2] c2] x2] (H1 & H2 & H3).
  split; [congruence|done].
Qed.

Ltac hangs_up t := eapply (hang_up_ok _ t); try done; by apply cstr_text.

Lemma tls_accept_ok raw raw' used st st' cap x :
  len raw' = len raw -> same_object st st' -> status_ok cap st -> J x -> 0 <= used < len raw ->
  safe True (accept stack fuel raw' used st' cap x) (exchanged raw st).
Proof.
  intros Hr Hs Hst Hx Hu. unfold accept.
  eapply safe_bind; [by apply (any_close stack fuel stack_ok frames)|]. intros [s4 e4] H4.
  rewrite wr_Some by lia. cbn [ub mbind res_bind].
  eapply safe_bind; [apply safe_ub, (scopy_status _ _ _ (chars "TLS 1.2 verified"));
    [by apply cstr_text|by eapply status_ok_same]|].
  intros st2 H2. cbn. rewrite length_insert. split; [lia|]. split; [by eapply same_object_trans|]. by split.
Qed.

Lemma conclude_ok how raw raw' used c st st' cap x :
  len raw' = len raw -> same_object st st' -> status_ok cap st -> J x -> 0 <= used < len raw ->
  safe True (conclude stack fuel how raw' used c st' cap x) (exchanged raw st).
Proof.
  intros Hr Hs Hst Hx Hu. unfold conclude. cbv zeta.
  destruct how; cbn [negb andb]; [hangs_up (chars "HTTPS response too large")
    |hangs_up (chars "Malformed HTTPS response framing")| |];
    (destruct (br_ssl_engine_last_error c =? BR_ERR_OK); cbn [negb andb]).
  - destruct (used =? 0); [hangs_up (chars "Empty HTTPS response")|by apply tls_accept_ok].
  - hangs_up (chars "TLS validation or transport failed").
  - by apply tls_accept_ok.
  - hangs_up (chars "TLS failed before framed response completion").
Qed.

Lemma converse_ok req n raw st st' cap c x :
  0 <= n <= len req -> 2 <= len raw -> same_object st st' -> status_ok cap st -> J x ->
  safe True (converse stack fuel req n raw (len raw) st' cap c x) (exchanged raw st).
Proof.
  intros Hn Hr Hs Hst Hx. unfold converse.
  eapply safe_bind; [apply (write_all_law _ (io stack fuel) J); [apply io_ok|done|done]|].
  intros [[w c1] x1] Hx1. eapply (safe_bind _ _ _ (fun '(_, _, x) => J x)).
  { destruct (w <? 0); [done|]. apply (flush_law _ (io stack fuel) J); [apply io_ok|done]. }
  intros [[w2 c2] x2] Hx2. destruct (w2 <? 0); [hangs_up (chars "TLS handshake/write failed")|].
  eapply safe_bind; [apply tls_read_loop_ok; [done|lia|lia]|].
  intros [[[[how raw'] used] c3] x3] (Hl & Hu & Hx3). apply conclude_ok; (done || lia).
Qed.

Lemma tls_exchange_safe : exchange_ok (tls_https_exchange stack fuel).
Proof.
  intros h t p r n raw st sc s e Hs Hh Hn Hst.
  enough (safe True (tls_https_exchange stack fuel h p r n raw (len raw) st sc (s, e)) (exchanged raw st)) as H.
  { eapply safe_mono; [exact H|]. by intros [[[[ok raw'] m] st'] x]. }
  unfold tls_https_exchange. rewrite (cstr_rd _ _ _ Hh). cbn [ub mbind res_bind].
  destruct (_ || _) eqn:Hg; [cbn; split; [done|]; split; [apply same_object_refl|by split]|].
  apply orb_false_iff in Hg as [_ Hg%Z.ltb_ge]. cbn [fst snd].
  destruct (stack_ok 48) as [H48 _]; [lia|].
  destruct (entropy_bytes_correct (stack 48) 48 e) as (ok & seed & e1 & -> & _); [lia|].
  cbn [mbind res_bind]. destruct (ok =? 0).
  { eapply (refuse_ok _ (chars "TLS entropy unavailable")); try done; [by apply cstr_text|apply same_object_refl]. }
  apply (safe_bind _ _ _ (fun _ => True)); [apply tls_time_safe|]. intros [[[days secs]|] e2] _.
  2: { eapply (refuse_ok _ (chars "TLS clock unavailable")); try done; [by apply cstr_text|apply same_object_refl]. }
  eapply safe_bind; [by apply (any_connect stack fuel stack_ok frames _ t)|].
  intros [[[ok2 st2] s3] e3] [Hst2 Hs3]. destruct (ok2 =? 0); [cbn; split; [done|by split]|].
  destruct (br_ssl_client_reset h 0 _) as [rr c]. destruct (rr =? 0).
  - hangs_up (chars "TLS client reset failed").
  - by apply converse_ok.
Qed.
End safety.

(** ** What a success means *)

Section success.
Context {E : Type} `{!NetEnv E, !NetDevice E, !Platform E, !SerialHex E}.
Context {C : Type} `{!Bearssl C, !BearsslLaws C}.
Context (stack : Z -> bytes) (fuel : nat).
Hypothesis stack_ok : forall n, 0 <= n -> addr_ok n (stack n).
Hypothesis frames : forall e : E, Forall frame_ok (fst (netdev_poll e)).

(** Bytes the library authenticated, one read after the other; the log in between. *)
Inductive delivered (c : C) (x : net * E) : bytes -> C -> net * E -> Prop :=
| delivered_none : delivered c x [] c x
| delivered_log d c1 x1 t : delivered c x d c1 x1 -> delivered c x d c1 (slog t x1)
| delivered_read d c1 x1 n k l c2 x2 :
    delivered c x d c1 x1 -> br_sslio_read (io stack fuel) n c1 x1 = Ok (k, l, c2, x2) ->
    0 < k -> len l = k -> delivered c x (d ++ l) c2 x2.

(** A client of [host] with fresh entropy and the date of the clock, whose
    request the library sent after its handshake. *)
Definition connected (host request : bytes) (n : Z) (e : E) (c : C) (x : net * E) : Prop :=
  exists seed e1 days seconds e2 c0 x0 r c1 w x1 w',
    entropy_bytes (stack 48) 48 e = Ok (1, seed, e1) /\
    tls_time fuel e1 = Ok (Some (days, seconds), e2) /\
    br_ssl_client_reset host 0 (client seed days seconds) = (r, c0) /\ r <> 0 /\
    br_sslio_write_all (io stack fuel) request n c0 x0 = Ok (w, c1, x1) /\ 0 <= w /\
    br_sslio_flush (io stack fuel) c1 x1 = Ok (w', c, x) /\ 0 <= w'.

(** How the bytes end: with a whole message, or before the end of one when the
    session closes without an error. *)
Definition ended (data : bytes) (c : C) (x : net * E) (c' : C) : Prop :=
  c' = c /\ http_frame_complete data (len data) = Some 1 \/
  data <> [] /\ http_frame_complete data (len data) = Some 0 /\
  exists n k d x', br_sslio_read (io stack fuel) n c x = Ok (k, d, c', x') /\ k < 0.

Let J (x : net * E) : Prop := net_ok x.1.

Lemma delivered_trans c x d c1 x1 l c2 x2 :
  delivered c x d c1 x1 -> delivered c1 x1 l c2 x2 -> delivered c x (d ++ l) c2 x2.
Proof.
  intros H. induction 1 as [|l c2 x2 t _ IH|l c2 x2 n k l' c3 x3 _ IH Hr Hk Hl].
  - by rewrite app_nil_r.
  - by constructor.
  - rewrite app_assoc. by eapply delivered_read.
Qed.

Lemma take_blit {A} (m v : list A) (o : Z) :
  0 <= o -> o + len v <= len m ->
  take (Z.to_nat (o + len v)) (blit m o v) = take (Z.to_nat o) m ++ v.
Proof.
  intros Ho Hb. unfold blit. rewrite app_assoc.
  rewrite take_app_le by (rewrite length_app, length_take; lia).
  rewrite take_ge; [done|]. rewrite length_app, length_take. lia.
Qed.

(** The bytes in the buffer are those delivered. *)
Lemma tls_read_loop_delivers k raw cap used c x how raw' used' c' x' :
  tls_read_loop stack fuel k raw cap used c x = Ok (how, raw', used', c', x') ->
  J x -> cap <= len raw -> 0 <= used < cap ->
  exists l c1 x1, delivered c x l c1 x1 /\ used' = used + len l /\ used' < cap /\
    length raw' = length raw /\ take (Z.to_nat used') raw' = take (Z.to_nat used) raw ++ l /\
    match how with
    | Framed => c' = c1 /\ http_frame_complete raw' used' = Some 1
    | Closed =>
        (l = [] \/ http_frame_complete raw' used' = Some 0) /\
        exists n k d x', br_sslio_read (io stack fuel) n c1 x1 = Ok (k, d, c', x') /\ k < 0
    | _ => True
    end.
Proof.
  intros E0 Hx Hc Hu.
  revert raw used c x E0 Hx Hc Hu. induction k as [|k IH]; intros raw used c x E0 Hx Hc Hu; [done|].
  assert (H0 : take (Z.to_nat used) raw = take (Z.to_nat used) raw ++ []) by by rewrite app_nil_r.
  cbn [tls_read_loop] in E0. destruct (Z.leb_spec cap (used + 1)).
  { injection E0 as <- <- <- <- <-. exists [], c, x. split; [constructor|]. cbn [length].
    repeat split; (done || lia). }
  pose proof (read_law _ (io stack fuel) J (cap - 1 - used) c x (io_ok stack fuel stack_ok frames) Hx ltac:(lia)) as Hlaw.
  destruct (br_sslio_read (io stack fuel) (cap - 1 - used) c x) as [[[[n d] c1] x1]| |] eqn:Hr; [|done|done].
  destruct Hlaw as [Hn Hx1]. cbn [mbind res_bind] in E0. destruct (Z.ltb_spec n 0).
  { injection E0 as <- <- <- <- <-. exists [], c, x. split; [constructor|]. cbn [length]. split; [lia|].
    split; [lia|]. split; [done|]. split; [done|]. split; [by left|]. by exists (cap - 1 - used), n, d, x1. }
  destruct Hn as [|[Hn Hd]]; [lia|].
  rewrite copy_from_spec in E0 by lia. cbn [ub mbind res_bind] in E0. rewrite slice_all in E0 by lia.
  set (raw1 := blit raw used d) in *.
  assert (L1 : length raw1 = length raw) by (apply blit_length; lia).
  assert (T1 : take (Z.to_nat (used + n)) raw1 = take (Z.to_nat used) raw ++ d)
    by (rewrite <- Hd; apply take_blit; lia).
  assert (D1 : delivered c x d c1 x1).
  { apply (delivered_read c x [] c x (cap - 1 - used) n); (done || constructor || lia). }
  cbv zeta in E0. destruct (http_frame_complete_safe raw1 (used + n)) as (fs & Hfs & Hv); [lia|].
  rewrite Hfs in E0. cbn [ub mbind res_bind] in E0. destruct (Z.ltb_spec fs 0).
  { injection E0 as <- <- <- <- <-. exists d, c1, x1. split; [done|].
    repeat split; (done || lia). }
  destruct (Z.ltb_spec 0 fs).
  { injection E0 as <- <- <- <- <-. exists d, c1, (slog (chars "TLS: complete authenticated HTTP frame" ++ [CR; LF; 0]) x1).
    split; [by constructor|]. split; [lia|]. split; [lia|]. split; [done|]. split; [done|]. split; [done|].
    rewrite Hfs. f_equal. unfold verdict in Hv. lia. }
  apply IH in E0 as (l & c2 & x2 & D2 & -> & U2 & L2 & T2 & Hhow); [|done|lia|lia].
  exists (d ++ l), c2, x2. split; [by eapply delivered_trans|]. rewrite length_app. split; [lia|].
  split; [done|]. split; [congruence|]. split; [by rewrite T2, T1, app_assoc|].
  destruct how; try done. destruct Hhow as [Hl He]. split; [|done]. right. destruct Hl as [->|Hl]; [|done].
  cbn [length] in T2 |- *. rewrite Z.add_0_r, app_nil_r in *.
  rewrite (http_frame_complete_local raw' raw1) by (done || lia). rewrite Hfs. f_equal. unfold verdict in Hv. lia.
Qed.

Lemma refuse_fails why raw st cap x ok raw' m st' x' :
  refuse (E := E) why raw st cap x = Ok (ok, raw', m, st', x') -> ok = 0.
Proof. unfold refuse. destruct (scopy _ _ _); cbn; [by intros [= <- <- <- <- <-]|done]. Qed.

Lemma hang_up_fails why raw st cap x ok raw' m st' x' :
  hang_up stack fuel why raw st cap x = Ok (ok, raw', m, st', x') -> ok = 0.
Proof.
  unfold hang_up. destruct (net_tcp_close _ _ _ _) as [y| |]; cbn [mbind res_bind]; [|done|done].
  apply refuse_fails.
Qed.

(** The bytes returned, terminated, and what the library says of them. *)
Definition verified (raw' : bytes) (m : Z) (c : C) (x : net * E) : Prop :=
  exists data c1 x1 c2, delivered c x data c1 x1 /\ ended data c1 x1 c2 /\
    br_ssl_engine_last_error c2 = BR_ERR_OK /\
    0 < m /\ len data = m /\ take (Z.to_nat m) raw' = data /\ rd raw' m = Some 0.

Lemma conclude_verified how raw used c st cap x ok raw' m st' x' c0 x0 data c1 x1 :
  conclude stack fuel how raw used c st cap x = Ok (ok, raw', m, st', x') -> ok <> 0 ->
  delivered c0 x0 data c1 x1 -> used = len data -> used < len raw -> take (Z.to_nat used) raw = data ->
  match how with
  | Framed => c = c1 /\ http_frame_complete raw used = Some 1
  | Closed =>
      (data = [] \/ http_frame_complete raw used = Some 0) /\
      exists n k d x', br_sslio_read (io stack fuel) n c1 x1 = Ok (k, d, c, x') /\ k < 0
  | _ => True
  end -> verified raw' m c0 x0.
Proof.
  intros E0 Hok Hd Hu Hlt Ht Hhow.
  assert (Hframe : http_frame_complete raw used = http_frame_complete data (len data)).
  { rewrite <- Hu. apply http_frame_complete_local; [lia|lia|]. by rewrite <- Ht, take_take, Nat.min_id. }
  assert (G : accept stack fuel raw used st cap x = Ok (ok, raw', m, st', x') ->
    br_ssl_engine_last_error c = BR_ERR_OK -> ended data c1 x1 c -> data <> [] -> verified raw' m c0 x0).
  { unfold accept. destruct (net_tcp_close _ _ _ _) as [y| |]; cbn [mbind res_bind]; [|done|done].
    rewrite wr_Some by lia. cbn [ub mbind res_bind]. destruct (scopy _ _ _); cbn [ub mbind res_bind]; [|done].
    intros [= <- <- <- <- <-] Herr Hend Hne. exists data, c1, x1, c. do 3 (split; [done|]).
    assert (0 < len data) by (destruct data; [done|cbn; lia]). split; [lia|]. split; [done|]. split.
    - by rewrite take_insert_ge by lia.
    - rewrite Hu, rd_nat, Nat2Z.id. apply list_lookup_insert_eq. lia. }
  unfold conclude in E0. cbv zeta in E0.
  destruct how; cbn [negb andb] in E0; try by apply hang_up_fails in E0.
  all: destruct (Z.eqb_spec (br_ssl_engine_last_error c) BR_ERR_OK); cbn [negb andb] in E0;
    try by apply hang_up_fails in E0.
  - destruct (Z.eqb_spec used 0); [by apply hang_up_fails in E0|]. destruct Hhow as [[->|Hf] He]; [by cbn in Hu|].
    assert (data <> []) by (intros ->; by cbn in Hu).
    apply G; try done. right. rewrite <- Hframe. by split.
  - destruct Hhow as [-> Hf]. apply G; try done; [left; by rewrite <- Hframe|].
    intros ->. rewrite Hframe in Hf. by vm_compute in Hf.
Qed.

Lemma converse_verified req n raw st cap c x ok raw' m st' x' :
  converse stack fuel req n raw (len raw) st cap c x = Ok (ok, raw', m, st', x') ->
  0 <= n <= len req -> 2 <= len raw -> J x -> ok <> 0 ->
  exists w c1 x1 w' c2 x2,
    br_sslio_write_all (io stack fuel) req n c x = Ok (w, c1, x1) /\ 0 <= w /\
    br_sslio_flush (io stack fuel) c1 x1 = Ok (w', c2, x2) /\ 0 <= w' /\ verified raw' m c2 x2.
Proof.
  intros E0 Hn Hr Hx Hok. unfold converse in E0.
  pose proof (write_all_law _ (io stack fuel) J req n c x (io_ok stack fuel stack_ok frames) Hx Hn) as Hw.
  destruct (br_sslio_write_all _ _ _ _ _) as [[[w c1] x1]| |]; [|done|done]. cbn [mbind res_bind] in E0.
  destruct (Z.ltb_spec w 0).
  { cbn [mbind res_bind] in E0. destruct (Z.ltb_spec w 0); [|lia]. by apply hang_up_fails in E0. }
  pose proof (flush_law _ (io stack fuel) J c1 x1 (io_ok stack fuel stack_ok frames) Hw) as Hf.
  destruct (br_sslio_flush _ _ _) as [[[w' c2] x2]| |] eqn:Ef; [|done|done]. cbn [mbind res_bind] in E0.
  destruct (Z.ltb_spec w' 0); [by apply hang_up_fails in E0|].
  exists w, c1, x1, w', c2, x2. do 4 (split; [done|]).
  set (x2' := slog _ x2) in E0.
  destruct (tls_read_loop _ _ _ _ _ _ _ _) as [[[[[how raw1] used] c3] x3]| |] eqn:El; [|done|done].
  cbn [mbind res_bind] in E0.
  apply tls_read_loop_delivers in El as (data & c4 & x4 & Hd & Hu & Hu' & Hl & Ht & Hhow); [|done|lia|lia].
  rewrite Z.add_0_l in Hu. eapply (conclude_verified how raw1 used c3); try done; [|lia].
  apply (delivered_trans c2 x2 [] c2 x2' data c4 x4); [|done]. constructor. constructor.
Qed.
End success.

(** C10. An HTTPS page is a verified page: when [tls_https_exchange] says success,
    the bytes returned are exactly those that the library read for a client of
    this host, set up with fresh entropy, the date of the clock, TLS 1.2 only and
    keys of 2048 bits at least; they are a whole message by its own framing, or
    the session was closed in order; no error was pending; and they are
    terminated inside the buffer. *)
Theorem tls_exchange_verified {E} `{!NetEnv E, !NetDevice E, !Platform E, !SerialHex E}
    {C} `{!Bearssl C, !BearsslLaws C} stack fuel host t port req n raw st cap (x : net * E)
    ok raw' m st' x' :
  (forall n, 0 <= n -> addr_ok n (stack n)) -> (forall e : E, Forall frame_ok (fst (netdev_poll e))) ->
  net_ok (fst x) -> cstr host 0 t -> 0 <= n <= len req -> status_ok cap st ->
  tls_https_exchange stack fuel host port req n raw (len raw) st cap x = Ok (ok, raw', m, st', x') ->
  ok <> 0 ->
  exists c y, connected stack fuel host req n (snd x) c y /\ verified stack fuel raw' m c y.
Proof.
  intros Hstk Hfr Hx Hh Hn Hst E0 Hok. unfold tls_https_exchange in E0.
  rewrite (cstr_rd _ _ _ Hh) in E0. cbn [ub mbind res_bind] in E0.
  destruct (_ || _) eqn:Hg; [by injection E0 as <-|]. apply orb_false_iff in Hg as [_ Hg%Z.ltb_ge].
  destruct (entropy_bytes (stack 48) 48 (snd x)) as [[[r seed] e1]| |] eqn:Hs; [|done|done].
  cbn [mbind res_bind] in E0. destruct (Z.eqb_spec r 0); [by apply refuse_fails in E0|].
  assert (r = 1) as ->.
  { destruct (Hstk 48) as [H48 _]; [lia|].
    destruct (entropy_bytes_correct (stack 48) 48 (snd x)) as (r' & seed' & e1' & Hs' & _ & Hr); [lia|].
    rewrite Hs in Hs'. injection Hs' as -> _ _. by destruct Hr as [|[-> _]]. }
  cbn [fst snd] in E0. destruct (tls_time fuel e1) as [[[[days secs]|] e2]| |] eqn:Ht; try done;
    cbn [mbind res_bind] in E0; [|by apply refuse_fails in E0].
  pose proof (any_connect stack fuel Hstk Hfr host t port st cap (fst x)
    (snd (slog (chars "TLS: TCP connect" ++ [CR; LF; 0]) (fst x, e2))) Hx Hh Hst) as Hc.
  cbn [slog fst snd] in E0, Hc.
  destruct (net_tcp_connect _ _ _ _ _ _ _ _) as [[[[ok2 st2] s3] e3]| |]; [|done|done].
  destruct Hc as [Hst2 Hs3]. cbn [mbind res_bind] in E0. destruct (ok2 =? 0); [by injection E0 as <-|].
  destruct (br_ssl_client_reset host 0 (client seed days secs)) as [rr c0] eqn:Hrr.
  destruct (Z.eqb_spec rr 0); [by apply hang_up_fails in E0|].
  apply (converse_verified stack fuel Hstk Hfr) in E0 as (w & c1 & x1 & w' & c2 & x2 & H1 & H2 & H3 & H4 & Hv);
    try done.
  exists c2, x2. split; [|done]. do 12 eexists.
  repeat (split; [eassumption|]). done.
Qed.

(** C9. The whole client is memory safe over plain and over encrypted
    transports, as long as the IPv4 frames the adapter delivers have a total
    length that covers their header ([frame_ok]; an echo request without it
    makes the reception of frames read past the frame, see
    [NetRx.net_poll_safe]).  With such frames, in any order and with any other
    contents, and with a TLS library kept to its documented interface,
    [net_http_get] over the TCP client and over [tls_https_exchange] on the same
    TCP client never leaves an array, from the frame handlers to the HTTP
    parsers, for every URL and every redirect the servers answer; and if it
    returns, the state is well formed, the buffers have their size and a
    success has left a terminated body.  That it returns is not claimed: a wait
    for the address of a neighbour need not end. *)
Theorem https_over_network_safe {E} `{!NetEnv E, !NetDevice E, !Platform E, !SerialHex E}
    {C} `{!Bearssl C, !BearsslLaws C} stack fuel url t body cap status status_cap raw s (e : E) :
  (forall n, 0 <= n -> addr_ok n (stack n)) ->
  (forall e : E, Forall frame_ok (fst (netdev_poll e))) -> net_ok s ->
  match url with Null => t = [] | Ptr u => cstr u 0 t end ->
  cap <= len body -> status_ok status_cap status -> len raw = 32768 ->
  safe True (net_http_get (HttpNet0 := http_over_tcp stack fuel (tls_https_exchange stack fuel))
               stack (net_ready s) url (Ptr body) cap status status_cap raw (s, e))
    (fun '(r, h) => net_ok (fst (h_env h)) /\ len (h_body h) = len body /\
       same_object status (h_status h) /\
       (r = 0 \/ (r = 1 /\ exists k, 0 <= k < cap /\ rd (h_body h) k = Some 0))).
Proof.
  intros Hst Hf Hs Hu Hc Hsc Hr.
  pose proof (tls_exchange_safe stack fuel Hst Hf) as Htls.
  pose proof (http_over_tcp_laws stack fuel (tls_https_exchange stack fuel) Hst Hf Htls) as Hlaws.
  eapply safe_mono; [apply (http_get_post (HttpNet0 := http_over_tcp stack fuel (tls_https_exchange stack fuel))
    stack True (fun x => net_ok (fst x)) (fun _ => True) (net_ready s) url t); try done; intros; by apply Hst|].
  intros [r h] ((H1 & H2 & _ & H4) & _ & H3). done.
Qed.

(** ** An exchange

    A library that does not encrypt, over the scripted network. *)
Module Clear.

(** A context is the last error. *)
Fixpoint clear_write {X} (k : nat) (cb : callbacks X) (d : bytes) (n : Z) (x : X) : res (Z * Z * X) :=
  match k with
  | O => NoFuel
  | S f =>
      if 0 <? n then
        '(w, x) ← cb_write cb d n x;
        if w <? 0 then Ok (-1, 31, x) else clear_write f cb (drop (Z.to_nat w) d) (n - w) x
      else Ok (0, 0, x)
  end.

#[global] Instance clear_text : Bearssl Z := {|
  BR_TLS12 := 0x0303; BR_OPT_NO_RENEGOTIATION := 2; BR_SSL_BUFSIZE_MONO := 16709; BR_ERR_OK := 0;
  br_ssl_client_init_full := 0;
  br_ssl_engine_set_versions _ _ c := c;
  br_ssl_engine_set_buffer _ _ c := c;
  br_ssl_engine_inject_entropy _ _ c := c;
  br_x509_minimal_set_time _ _ c := c;
  br_x509_minimal_set_minrsa _ c := c;
  br_ssl_engine_add_flags _ c := c;
  br_ssl_client_reset _ _ c := (1, c);
  br_ssl_engine_last_error c := c;
  br_sslio_write_all X cb d n c x := clear_write (S (Z.to_nat n)) cb d n x;
  br_sslio_flush X cb c x := Ok (0, c, x);
  br_sslio_read X cb n c x :=
    '(k, d, x) ← cb_read cb (replicate (Z.to_nat n) 0) n x;
    Ok (k, take (Z.to_nat k) d, if k <? 0 then 31 else c, x)
|}.

#[global] Instance clear_laws : BearsslLaws Z.
Proof.
  split.
  - intros X cb J d n c x [_ Hw] Hx Hn. cbn [br_sslio_write_all clear_text].
    revert d n x Hx Hn. intros d n. generalize (S (Z.to_nat n)) as k. intros k. revert d n.
    induction k as [|k IH]; intros d m x Hx Hm; [done|].
    cbn [clear_write]. destruct (Z.ltb_spec 0 m); [|done].
    eapply safe_bind; [apply Hw; [done|lia]|]. intros [w x1] [Hk Hx1]. destruct (Z.ltb_spec w 0); [done|].
    apply IH; [done|]. rewrite length_drop. lia.
  - done.
  - intros X cb J n c x [Hr _] Hx Hn. cbn [br_sslio_read clear_text].
    eapply safe_bind; [apply Hr; [done|rewrite length_replicate; lia]|].
    intros [[k d] x1] [Hk Hx1]. cbn. split; [|done]. rewrite length_replicate in Hk.
    destruct Hk as [|[Hk Hd]]; [by left|right]. split; [done|]. rewrite length_take. lia.
Qed.

(** The turn of the network and the clock chip. *)
Definition world : Type := nat * Chip.chip.

Definition request : bytes := chars "GET / HTTP/1.0" ++ CRLF ++ CRLF.
Definition answer : bytes :=
  chars "HTTP/1.1 200 OK" ++ CRLF ++ chars "content-length: 2" ++ CRLF ++ CRLF ++ chars "Hi".

Definition from_server (k seq flags : Z) (data : bytes) : bytes :=
  Traffic.ip_frame Traffic.server IP_TCP
    (tcp_message Traffic.server Traffic.me 443 49153 seq (0x13570001 + k) flags data).

(** The answer comes in two segments; the server closes. *)
Definition script (n : nat) : list bytes :=
  if (n <? 6)%nat then [from_server 0 99 0x12 []]
  else [from_server (len request) 100 0x18 (take 20 answer);
        from_server (len request) 120 0x18 (drop 20 answer);
        from_server (len request) (100 + len answer) 0x11 []].

#[global] Instance world_net : NetEnv world := {|
  timer_ticks e := (Z.of_nat e.1, (S e.1, e.2));
  timer_frequency _ := 1000;
  netdev_tx _ e := (1, e);
  netdev_poll e := (script e.1, (S e.1, e.2))
|}.
#[global] Instance world_device : NetDevice world := {|
  netdev_init m e := (1, m, e);
  netdev_name _ := lit "e1000";
  NetClient.serial_write _ e := e
|}.
#[global] Instance world_hex : SerialHex world := {| serial_write_hex64 _ e := e |}.
#[global] Instance world_platform : Platform world :=
  let P := Chip.chip_platform 2 (mk_moment (2026, 2, 28) 23 59 60) in
  {|
    outb p v e := (e.1, outb p v e.2);
    inb p e := let '(v, c) := inb p e.2 in (v, (e.1, c));
    cpuid l e := cpuid l e.2;
    rdrand e := let '(v, ok, c) := rdrand e.2 in (v, ok, (e.1, c))
  |}.

Definition begin : net * world := (Session.start, (0%nat, Chip.mk_chip 0 1)).

Abbreviation exchange_run :=
  (tls_https_exchange (C := Z) Traffic.zeros 40 (lit "93.184.216.34") 443 request (len request)
    (Traffic.zeros 64) (len (Traffic.zeros 64)) (Ptr (Traffic.zeros 32)) 32 begin).

Example exchange_result :
  (match exchange_run with
   | Ok (ok, raw, m, Ptr st, x) => Some (ok, take (Z.to_nat m) raw, string_at 32 st 0, fst (snd x))
   | _ => None
   end) = Some (1, answer, Some (chars "TLS 1.2 verified"), 9%nat).
Proof. vm_compute. reflexivity. Qed.

Lemma clear_script_ok (e : world) : Forall frame_ok (fst (netdev_poll e)).
Proof.
  cbn [netdev_poll world_net fst]. unfold script. destruct (fst e <? 6)%nat;
    repeat (apply List.Forall_cons; [apply Traffic.frame_okb; vm_compute; reflexivity|]);
    apply List.Forall_nil.
Qed.

Definition page : res (Z * http) :=
  net_http_get (HttpNet0 := http_over_tcp Traffic.zeros 40 (tls_https_exchange Traffic.zeros 40))
    Traffic.zeros (net_ready Session.start) (Ptr (lit "https://93.184.216.34/"))
    (Ptr (Traffic.zeros 64)) 64 (Ptr (Traffic.zeros 32)) 32 (Traffic.zeros 32768) begin.
End Clear.

Lemma tls_exchange_verified_witness :
  exists raw' m st' x' c y,
    Clear.exchange_run = Ok (1, raw', m, st', x') /\ take (Z.to_nat m) raw' = Clear.answer /\
    connected (C := Z) Traffic.zeros 40 (lit "93.184.216.34") Clear.request (len Clear.request) (snd Clear.begin) c y /\
    verified (C := Z) Traffic.zeros 40 raw' m c y.
Proof.
  pose proof Clear.exchange_result as R.
  destruct Clear.exchange_run as [[[[[ok raw'] m] st'] x']| |] eqn:E0; [|discriminate R|discriminate R].
  destruct st' as [|st']; [discriminate R|]. injection R as -> Ha _ _.
  exists raw', m, (Ptr st'), x'.
  destruct (tls_exchange_verified Traffic.zeros 40 (lit "93.184.216.34") (chars "93.184.216.34") 443
    Clear.request (len Clear.request) (Traffic.zeros 64) (Ptr (Traffic.zeros 32)) 32 Clear.begin
    1 raw' m (Ptr st') x') as (c & y & H1 & H2).
  - exact Traffic.zeros_ok.
  - exact Clear.clear_script_ok.
  - exact Session.start_ok.
  - by apply (cstr_text (chars "93.184.216.34")).
  - split; [vm_compute; discriminate|apply Z.le_refl].
  - split; [discriminate|vm_compute; discriminate].
  - exact E0.
  - discriminate.
  - exists c, y. split; [reflexivity|]. split; [exact Ha|]. split; [exact H1|exact H2].
Defined.

Lemma https_over_network_safe_witness :
  safe True Clear.page (fun '(r, h) => net_ok (fst (h_env h)) /\ len (h_body h) = 64 /\
    same_object (Ptr (Traffic.zeros 32)) (h_status h) /\
    (r = 0 \/ (r = 1 /\ exists k, 0 <= k < 64 /\ rd (h_body h) k = Some 0))).
Proof.
  apply (https_over_network_safe Traffic.zeros 40 (Ptr (lit "https://93.184.216.34/"))
    (chars "https://93.184.216.34/")).
  - exact Traffic.zeros_ok.
  - exact Clear.clear_script_ok.
  - exact Session.start_ok.
  - by apply (cstr_text (chars "https://93.184.216.34/")).
  - discriminate.
  - split; discriminate.
  - apply (Traffic.zeros_ok 32768). discriminate.
Defined.
