(* ===== verification/Image.v ===== *)
(** * kernel/vela_image.c: pictures from the network

    The BMP and PPM decoders.  A result [None] is an access outside a buffer; a
    call that returns 0 is [None] inside. *)

From S2P Require Import Prelude NetEnv Cstr Http HttpChunked HttpGet HttpSafe.

(** ** Fields *)

Definition le16 (p : bytes) (o : Z) : option Z :=
  a ← rd p o; b ← rd p (o + 1); Some (Z.lor a (u16 (Z.shiftl b 8))).

Definition le32 (p : bytes) (o : Z) : option Z :=
  a ← rd p o; b ← rd p (o + 1); c ← rd p (o + 2); d ← rd p (o + 3);
  Some (Z.lor (Z.lor (Z.lor a (u32 (Z.shiftl b 8))) (u32 (Z.shiftl c 16))) (u32 (Z.shiftl d 24))).

(** [(int32_t)] *)
Definition s32 (v : Z) : Z := if v <? 2147483648 then v else v - 4294967296.

Definition les32 (p : bytes) (o : Z) : option Z := v ← le32 p o; Some (s32 v).

Definition sp (c : Z) : bool := (c =? SP) || (c =? HT) || (c =? CR) || (c =? LF).
Definition dg (c : Z) : bool := is_digit c.

(** [while( *p<n&&dg(d[ *p]))]; [None] inside above 8192. *)
Fixpoint num_loop (fuel : nat) (d : bytes) (n p v : Z) : option (option (Z * Z)) :=
  match fuel with
  | O => None
  | S f =>
      if p <? n then
        c ← rd d p;
        if dg c then
          let v := u32 (u32 (v * 10) + (c - 48)) in
          if 8192 <? v then Some None else num_loop f d n (p + 1) v
        else Some (Some (p, v))
      else Some (Some (p, v))
  end.

(** The new position and the number. *)
Definition num (d : bytes) (n p : Z) : option (option (Z * Z)) :=
  p ← skip d n sp p;
  if n <=? p then Some None
  else
    c ← rd d p;
    if negb (dg c) then Some None else num_loop (S (Z.to_nat n)) d n p 0.

Record VelaImageInfo := mk_info { width : Z; height : Z; channels : Z }.

(** ** vela_image.c *)

(** [(uint32_t)(h<0?-h:h)]; the negation of the least [int32_t] overflows. *)
Definition abs32 (h : Z) : option Z :=
  if h =? -2147483648 then None else Some (u32 (if h <? 0 then - h else h)).

Definition pb (d : bytes) (n : Z) : option (option VelaImageInfo) :=
  if n <? 54 then Some None
  else
    b0 ← rd d 0;
    if negb (b0 =? 66) then Some None
    else
      b1 ← rd d 1;
      if negb (b1 =? 77) then Some None
      else
        hs ← le32 d 14;
        if hs <? 40 then Some None
        else
          w ← les32 d 18; h ← les32 d 22; b ← le16 d 28;
          planes ← le16 d 26; comp ← le32 d 30;
          if (w <=? 0) || (h =? 0) || negb (planes =? 1) || (negb (b =? 24) && negb (b =? 32)) ||
             negb (comp =? 0)
          then Some None
          else
            ah ← abs32 h;
            if (320 <? u32 w) || (240 <? ah) then Some None else Some (Some (mk_info (u32 w) ah 3)).

(** [if(d[p]=='\r'&&p+1<n&&d[p+1]=='\n')p+=2;else p++;] *)
Definition after_space (d : bytes) (n p : Z) : option Z :=
  c ← rd d p;
  if (c =? CR) && (p + 1 <? n) then c ← rd d (p + 1); Some (if c =? LF then p + 2 else p + 1)
  else Some (p + 1).

(** Width, height and maximum from offset 2 on, and the separator behind them. *)
Definition ppm_header (d : bytes) (n : Z) : option (option (Z * Z * Z * Z)) :=
  r ← num d n 2;
  match r with
  | None => Some None
  | Some (p, w) =>
      r ← num d n p;
      match r with
      | None => Some None
      | Some (p, h) =>
          r ← num d n p;
          match r with
          | None => Some None
          | Some (p, m) => Some (Some (p, w, h, m))
          end
      end
  end.

(** The header and the offset of the pixels. *)
Definition pp (d : bytes) (n : Z) : option (option (VelaImageInfo * Z)) :=
  if n <? 3 then Some None
  else
    b0 ← rd d 0;
    if negb (b0 =? 80) then Some None
    else
      b1 ← rd d 1; b2 ← rd d 2;
      if negb (b1 =? 54) || negb (sp b2) then Some None
      else
        r ← ppm_header d n;
        match r with
        | None => Some None
        | Some (p, w, h, m) =>
            if (w =? 0) || (h =? 0) || (320 <? w) || (240 <? h) || negb (m =? 255) || (n <=? p) then Some None
            else
              c ← rd d p;
              if negb (sp c) then Some None
              else
                p ← after_space d n p;
                if (n <? p) || (n - p <? w * h * 3) then Some None
                else Some (Some (mk_info w h 3, p))
        end.

Definition vela_image_probe (d : bytes) (n : Z) : option (option VelaImageInfo) :=
  r ← pb d n;
  match r with
  | Some i => Some (Some i)
  | None => r ← pp d n; Some (match r with Some (i, _) => Some i | None => None end)
  end.

(** [for(uint32_t x=0;x<z.width;x++)] *)
Fixpoint bmp_row (fuel : nat) (d : bytes) (s sb : Z) (rgb : bytes) (o x w : Z) : option bytes :=
  match fuel with
  | O => None
  | S f =>
      if x <? w then
        v ← rd d (s + (x * sb + 2)); rgb ← wr rgb (o + x * 3) v;
        v ← rd d (s + (x * sb + 1)); rgb ← wr rgb (o + (x * 3 + 1)) v;
        v ← rd d (s + x * sb); rgb ← wr rgb (o + (x * 3 + 2)) v;
        bmp_row f d s sb rgb o (x + 1) w
      else Some rgb
  end.

(** [for(uint32_t y=0;y<z.height;y++)] *)
Fixpoint bmp_rows (fuel : nat) (d : bytes) (off row sb sh : Z) (rgb : bytes) (y w h : Z) : option bytes :=
  match fuel with
  | O => None
  | S f =>
      if y <? h then
        let sy := if 0 <? sh then h - 1 - y else y in
        rgb ← bmp_row (S (Z.to_nat w)) d (off + sy * row) sb rgb (y * w * 3) 0 w;
        bmp_rows f d off row sb sh rgb (y + 1) w h
      else Some rgb
  end.

Definition decode_bmp (d : bytes) (n : Z) (rgb : bytes) (cap : Z) (z : VelaImageInfo)
  : option (bytes * option VelaImageInfo) :=
  if cap <? width z * height z * 3 then Some (rgb, None)
  else
    off ← le32 d 10;
    bits ← le16 d 28;
    let sb := bits / 8 in
    let row := Z.land (width z * sb + 3) (u64 (Z.lnot 3)) in
    sh ← les32 d 22;
    if (n <? off) || ((n - off) / height z <? row) then Some (rgb, None)
    else
      rgb ← bmp_rows (S (Z.to_nat (height z))) d off row sb sh rgb 0 (width z) (height z);
      Some (rgb, Some z).

Definition vela_image_decode_rgb24 (d : bytes) (n : Z) (rgb : bytes) (cap : Z)
  : option (bytes * option VelaImageInfo) :=
  r ← pb d n;
  match r with
  | Some z => decode_bmp d n rgb cap z
  | None =>
      r ← pp d n;
      match r with
      | None => Some (rgb, None)
      | Some (z, p) =>
          let need := width z * height z * 3 in
          if cap <? need then Some (rgb, None)
          else rgb ← copy_from (Z.to_nat need) rgb 0 d p; Some (rgb, Some z)
      end
  end.

(** ** Little-endian values *)

Lemma le16_value d o : bytes_ok d -> 0 <= o -> o + 2 <= len d ->
  le16 d o = Some (byte_at d o + 256 * byte_at d (o + 1)).
Proof.
  intros Hb Ho Hl. unfold le16. rewrite !rd_byte_at by lia. cbn [mbind option_bind]. f_equal.
  pose proof (byte_at_range d o Hb). pose proof (byte_at_range d (o + 1) Hb).
  rewrite Z.lor_comm. rewrite u16_id by (rewrite Z.shiftl_mul_pow2; lia).
  rewrite (lor_shiftl_add _ _ 8) by lia. lia.
Qed.

Lemma le32_value d o : bytes_ok d -> 0 <= o -> o + 4 <= len d ->
  le32 d o = Some (byte_at d o + 256 * byte_at d (o + 1) + 65536 * byte_at d (o + 2) + 16777216 * byte_at d (o + 3)).
Proof.
  intros Hb Ho Hl. unfold le32. rewrite !rd_byte_at by lia. cbn [mbind option_bind]. f_equal.
  pose proof (byte_at_range d o Hb). pose proof (byte_at_range d (o + 1) Hb).
  pose proof (byte_at_range d (o + 2) Hb). pose proof (byte_at_range d (o + 3) Hb).
  rewrite !u32_id by (rewrite Z.shiftl_mul_pow2; lia).
  rewrite (Z.lor_comm (byte_at d o)), (lor_shiftl_add _ _ 8) by lia.
  rewrite (Z.lor_comm (_ * 2 ^ 8 + _)), (lor_shiftl_add _ _ 16) by lia.
  rewrite (Z.lor_comm (_ * 2 ^ 16 + _)), (lor_shiftl_add _ _ 24) by lia. lia.
Qed.

Lemma le32_bound d o v : bytes_ok d -> 0 <= o -> o + 4 <= len d -> le32 d o = Some v -> 0 <= v < 4294967296.
Proof.
  intros Hb Ho Hl. rewrite le32_value by done. intros [= <-].
  pose proof (byte_at_range d o Hb). pose proof (byte_at_range d (o + 1) Hb).
  pose proof (byte_at_range d (o + 2) Hb). pose proof (byte_at_range d (o + 3) Hb). lia.
Qed.

(** ** The pixels of a BMP file *)

(** Blue, green and red in the file, red, green and blue out of it. *)
Definition bmp_pixel (d : bytes) (s : Z) : bytes := [byte_at d (s + 2); byte_at d (s + 1); byte_at d s].

Definition bmp_line (d : bytes) (s sb : Z) (x k : nat) : bytes :=
  concat (map (fun i => bmp_pixel d (s + Z.of_nat i * sb)) (seq x k)).

Definition bmp_image (d : bytes) (off row sb sh w h : Z) (y k : nat) : bytes :=
  concat (map (fun i => bmp_line d (off + (if 0 <? sh then h - 1 - Z.of_nat i else Z.of_nat i) * row) sb 0 (Z.to_nat w))
    (seq y k)).

Lemma bmp_line_length d s sb x k : length (bmp_line d s sb x k) = (3 * k)%nat.
Proof.
  unfold bmp_line. revert x. induction k as [|k IH]; intros x; [done|].
  cbn [seq map concat]. rewrite length_app, IH. cbn. lia.
Qed.

Lemma bmp_image_length d off row sb sh w h y k :
  0 <= w -> length (bmp_image d off row sb sh w h y k) = (3 * Z.to_nat w * k)%nat.
Proof.
  intros Hw. unfold bmp_image. revert y. induction k as [|k IH]; intros y; [cbn; lia|].
  cbn [seq map concat]. rewrite length_app, IH, bmp_line_length. lia.
Qed.

Lemma bmp_row_spec fuel d s sb rgb o x w :
  0 <= s -> 3 <= sb -> s + w * sb <= len d -> 0 <= o -> o + 3 * w <= len rgb -> 0 <= x <= w ->
  w - x < Z.of_nat fuel ->
  bmp_row fuel d s sb rgb o x w
  = Some (blit rgb (o + 3 * x) (bmp_line d s sb (Z.to_nat x) (Z.to_nat (w - x)))).
Proof.
  intros Hs Hsb Hd Ho Hr. revert rgb x Hr. induction fuel as [|f IH]; intros rgb x Hr Hx Hf; [lia|].
  cbn [bmp_row]. destruct (Z.ltb_spec x w).
  - assert (0 <= x * sb) by lia. assert (x * sb + sb <= w * sb) by nia.
    rewrite (rd_byte_at d (s + (x * sb + 2))) by lia. cbn [mbind option_bind]. rewrite wr_Some by lia.
    cbn [mbind option_bind]. rewrite (rd_byte_at d (s + (x * sb + 1))) by lia. cbn [mbind option_bind].
    rewrite wr_Some by (rewrite ?length_insert; lia). cbn [mbind option_bind].
    rewrite (rd_byte_at d (s + x * sb)) by lia. cbn [mbind option_bind].
    rewrite wr_Some by (rewrite ?length_insert; lia). cbn [mbind option_bind].
    rewrite IH by (rewrite ?length_insert; lia).
    replace (Z.to_nat (w - x)) with (S (Z.to_nat (w - (x + 1)))) by lia.
    unfold bmp_line. cbn [seq map concat bmp_pixel app].
    replace (S (Z.to_nat x)) with (Z.to_nat (x + 1)) by lia.
    rewrite !blit_cons by (rewrite ?length_insert; lia). rewrite !Z2Nat.id by lia.
    f_equal. f_equal; [|lia].
    replace (o + x * 3) with (o + 3 * x) by lia.
    replace (o + (x * 3 + 1)) with (o + 3 * x + 1) by lia.
    replace (o + (x * 3 + 2)) with (o + 3 * x + 1 + 1) by lia.
    replace (s + (x * sb + 2)) with (s + x * sb + 2) by lia.
    by replace (s + (x * sb + 1)) with (s + x * sb + 1) by lia.
  - replace (Z.to_nat (w - x)) with 0%nat by lia. unfold bmp_line. cbn [seq map concat]. by rewrite blit_nil.
Qed.

Lemma bmp_rows_spec fuel d off row sb sh rgb y w h :
  0 <= off -> 3 <= sb -> 0 <= w -> w * sb <= row -> off + h * row <= len d ->
  w * h * 3 <= len rgb -> 0 <= y <= h -> h - y < Z.of_nat fuel ->
  bmp_rows fuel d off row sb sh rgb y w h
  = Some (blit rgb (y * w * 3) (bmp_image d off row sb sh w h (Z.to_nat y) (Z.to_nat (h - y)))).
Proof.
  intros Hoff Hsb Hw Hrow Hd. revert rgb y. induction fuel as [|f IH]; intros rgb y Hr Hy Hf; [lia|].
  cbn [bmp_rows]. destruct (Z.ltb_spec y h).
  - cbv zeta. set (sy := if 0 <? sh then h - 1 - y else y).
    assert (0 <= sy < h) by (unfold sy; destruct (0 <? sh); lia).
    assert (sy * row + row <= h * row) by nia. assert (0 <= sy * row) by nia.
    assert (y * w + w <= w * h) by nia. assert (0 <= y * w) by nia.
    rewrite bmp_row_spec by lia. cbn [mbind option_bind]. rewrite Z.sub_0_r, Z.add_0_r.
    set (line := bmp_line _ _ _ _ _).
    assert (Hlen : len line = 3 * w) by (unfold line; rewrite bmp_line_length; lia).
    assert (Hlb : length (blit rgb (y * w * 3) line) = length rgb) by (apply blit_length; lia).
    rewrite IH by lia. f_equal.
    replace (Z.to_nat (h - y)) with (S (Z.to_nat (h - (y + 1)))) by lia.
    unfold bmp_image at 2. cbn [seq map concat]. rewrite Z2Nat.id by lia. fold sy.
    change (bmp_line d (off + sy * row) sb 0 (Z.to_nat w)) with line.
    replace (S (Z.to_nat y)) with (Z.to_nat (y + 1)) by lia.
    fold (bmp_image d off row sb sh w h (Z.to_nat (y + 1)) (Z.to_nat (h - (y + 1)))).
    replace ((y + 1) * w * 3) with (y * w * 3 + len line) by lia.
    apply blit_blit; [lia|]. rewrite bmp_image_length by lia.
    rewrite !Nat2Z.inj_mul, (Z2Nat.id w), (Z2Nat.id (h - (y + 1))) by lia.
    change (Z.of_nat 3) with 3. rewrite Hlen. transitivity (w * h * 3); [|done]. apply Z.eq_le_incl. ring.
  - replace (Z.to_nat (h - y)) with 0%nat by lia. unfold bmp_image. cbn [seq map concat]. by rewrite blit_nil.
Qed.

(** ** The decoder stays inside its buffers *)

Lemma returns_some {A} (o : option A) (Q : A -> Prop) a : o = Some a -> Q a -> returns o Q.
Proof. intros -> H. by exists a. Qed.

(** A row is the pixels rounded up to four bytes. *)
Lemma stride_value x : 0 <= x <= 1280 -> Z.land (x + 3) (u64 (Z.lnot 3)) = x + (- x) mod 4.
Proof.
  intros Hx. apply Z.eqb_eq.
  refine (below_spec 1281 (fun x => Z.land (x + 3) (u64 (Z.lnot 3)) =? x + (- x) mod 4) _ x _); [|lia].
  vm_compute. reflexivity.
Qed.

Lemma bmp_stride x : 0 <= x <= 1280 -> x <= Z.land (x + 3) (u64 (Z.lnot 3)) <= x + 3.
Proof. intros Hx. rewrite stride_value by done. zlia. Qed.

Lemma abs32_spec h : -2147483648 < h < 2147483648 -> abs32 h = Some (Z.abs h).
Proof.
  intros Hh. unfold abs32. destruct (Z.eqb_spec h (-2147483648)); [lia|]. f_equal.
  destruct (Z.ltb_spec h 0); rewrite u32_id; lia.
Qed.

Section safety.
Context (d : bytes) (n : Z).
Context (Hd : bytes_ok d) (Hn : 0 <= n <= len d).

(** The read at [o] of the goal. *)
Ltac read_at o c :=
  destruct (rd_is_Some d o) as [c ?]; [lia|];
  match goal with H : rd d o = Some c |- _ => rewrite H; cbn [mbind option_bind] end.

(** A header accepted: the picture has at most 320 by 240 pixels. *)
Definition info_ok (i : VelaImageInfo) : Prop := 0 < width i <= 320 /\ 0 < height i <= 240 /\ channels i = 3.

(** The height that [pb] cannot negate. *)
Definition negatable : Prop := le32 d 22 <> Some 2147483648.
Context (Hneg : negatable).

(** What an accepted BMP header says. *)
Record bmp_header (i : VelaImageInfo) : Prop := {
  bh_magic : rd d 0 = Some 66 /\ rd d 1 = Some 77 /\ 54 <= n;
  bh_width : le32 d 18 = Some (width i);
  bh_height : exists h, le32 d 22 = Some h /\ 0 <= h < 4294967296 /\ height i = Z.abs (s32 h);
  bh_bits : le16 d 28 = Some 24 \/ le16 d 28 = Some 32
}.

Lemma pb_safe : returns (pb d n) (fun r => match r with None => True | Some i => info_ok i /\ bmp_header i end).
Proof.
  unfold pb. destruct (Z.ltb_spec n 54); [by eexists|].
  read_at 0 b0. destruct (Z.eqb_spec b0 66) as [->|]; cbn [negb]; [|by eexists].
  read_at 1 b1. destruct (Z.eqb_spec b1 77) as [->|]; cbn [negb]; [|by eexists].
  rewrite (le32_value d 14) by (done || lia). cbn [mbind option_bind]. destruct (_ <? 40); [by eexists|].
  unfold les32. destruct (le32 d 18) as [w|] eqn:Ew; [|by rewrite le32_value in Ew by (done || lia)].
  destruct (le32 d 22) as [h|] eqn:Eh; [|by rewrite le32_value in Eh by (done || lia)].
  pose proof (le32_bound d 18 w Hd ltac:(lia) ltac:(lia) Ew) as Hw.
  pose proof (le32_bound d 22 h Hd ltac:(lia) ltac:(lia) Eh) as Hh.
  cbn [mbind option_bind]. destruct (le16 d 28) as [b|] eqn:Eb; [|by rewrite le16_value in Eb by (done || lia)].
  rewrite (le16_value d 26) by (done || lia). cbn [mbind option_bind].
  rewrite (le32_value d 30) by (done || lia). cbn [mbind option_bind].
  destruct (_ || _) eqn:Hg; [by eexists|].
  apply orb_false_iff in Hg as [Hg _]. apply orb_false_iff in Hg as [Hg Hb].
  apply orb_false_iff in Hg as [Hg _]. apply orb_false_iff in Hg as [Hw0%Z.leb_gt Hh0%Z.eqb_neq].
  assert (Hs : -2147483648 < s32 h < 2147483648).
  { assert (h <> 2147483648) by (intros ->; by apply Hneg). unfold s32. destruct (Z.ltb_spec h 2147483648); lia. }
  rewrite abs32_spec by done. cbn [mbind option_bind].
  destruct (Z.ltb_spec 320 (u32 (s32 w))); [by eexists|].
  destruct (Z.ltb_spec 240 (Z.abs (s32 h))); [by eexists|]. cbn [orb].
  assert (Hws : 0 < w < 2147483648 /\ u32 (s32 w) = w).
  { unfold s32 in *. destruct (Z.ltb_spec w 2147483648); [|lia]. by rewrite u32_id by lia. }
  destruct Hws as [Hws1 Hws2]. rewrite Hws2 in *.
  eexists. split; [reflexivity|]. split; [unfold info_ok; cbn; lia|]. split.
  - done.
  - done.
  - by exists h.
  - apply andb_false_iff in Hb as [Hb|Hb]; apply negb_false_iff, Z.eqb_eq in Hb; subst b; [by left|by right].
Qed.

(** *** The text of a PPM header *)

(** What is left of the file at [p]. *)
Definition from (p : Z) : bytes := drop (Z.to_nat p) (take (Z.to_nat n) d).

Lemma from_cons p c : 0 <= p < n -> rd d p = Some c -> from p = c :: from (p + 1).
Proof.
  intros Hp H. unfold from. replace (Z.to_nat (p + 1)) with (S (Z.to_nat p)) by lia. apply drop_S.
  rewrite lookup_take_lt by lia. unfold rd in H. by rewrite (proj2 (Z.leb_le 0 p)) in H by lia.
Qed.

(** A number: blanks and decimal digits. *)
Definition number (v : Z) (t : bytes) : Prop :=
  exists s a, t = s ++ a /\ Forall (fun c => sp c = true) s /\ Forall (fun c => dg c = true) a /\ a <> [] /\
    fold_left (fun v c => v * 10 + (c - 48)) a 0 = v.

Lemma skip_blanks_loop fuel p : 0 <= p <= n -> n - p < Z.of_nat fuel ->
  returns (skip_while fuel d n sp p) (fun q => p <= q <= n /\
    exists s, Forall (fun c => sp c = true) s /\ from p = s ++ from q).
Proof.
  revert p. induction fuel as [|f IH]; intros p Hp Hf; [lia|]. cbn [skip_while].
  assert (Hstop : p <= p <= n /\ exists s, Forall (fun c => sp c = true) s /\ from p = s ++ from p).
  { split; [lia|]. by exists []. }
  destruct (Z.ltb_spec p n); [|by eexists]. read_at p c. destruct (sp c) eqn:Hc; [|by eexists].
  eapply returns_mono; [apply IH; lia|]. intros q (Hq & s & Hs & E). split; [lia|]. exists (c :: s).
  split; [by constructor|]. by rewrite (from_cons p c), E by (done || lia).
Qed.

Lemma skip_blanks p : 0 <= p <= n ->
  returns (skip d n sp p) (fun q => p <= q <= n /\ exists s, Forall (fun c => sp c = true) s /\ from p = s ++ from q).
Proof. intros Hp. apply skip_blanks_loop; lia. Qed.

Lemma num_loop_safe fuel p v :
  0 <= p <= n -> 0 <= v <= 8192 -> n - p < Z.of_nat fuel ->
  returns (num_loop fuel d n p v) (fun r =>
    match r with
    | None => True
    | Some (q, w) => p <= q <= n /\ 0 <= w <= 8192 /\
        exists a, Forall (fun c => dg c = true) a /\ from p = a ++ from q /\ len a = q - p /\
          fold_left (fun v c => v * 10 + (c - 48)) a v = w
    end).
Proof.
  revert p v. induction fuel as [|f IH]; intros p v Hp Hv Hf; [lia|]. cbn [num_loop].
  destruct (Z.ltb_spec p n).
  2: { eexists. split; [done|]. cbn. split; [lia|]. split; [lia|]. exists []. repeat split; [constructor|cbn; lia]. }
  read_at p c. destruct (dg c) eqn:Hc.
  2: { eexists. split; [done|]. cbn. split; [lia|]. split; [lia|]. exists []. repeat split; [constructor|cbn; lia]. }
  pose proof Hc as Hc'. apply andb_prop in Hc as [?%Z.leb_le ?%Z.leb_le].
  rewrite (u32_id (v * 10)), u32_id by lia. cbv zeta.
  destruct (Z.ltb_spec 8192 (v * 10 + (c - 48))); [by eexists|].
  eapply returns_mono; [apply IH; lia|]. intros [[q w]|]; [|done].
  intros (HA & HB & a & Ha & E & Hl & Hv'). split; [lia|]. split; [done|]. exists (c :: a).
  split; [by constructor|]. split; [by rewrite (from_cons p c), E by (done || lia)|]. split; [cbn [length]; lia|done].
Qed.

Lemma num_safe p :
  0 <= p <= n -> returns (num d n p) (fun r =>
    match r with
    | None => True
    | Some (q, w) => p < q <= n /\ 0 <= w <= 8192 /\ exists t, number w t /\ from p = t ++ from q
    end).
Proof.
  intros Hp. unfold num. eapply returns_bind; [apply skip_blanks; lia|]. intros q (Hq & s & Hs & Es).
  destruct (Z.leb_spec n q); [by eexists|]. read_at q c. destruct (dg c) eqn:Hc; cbn [negb]; [|by eexists].
  pose proof Hc as Hc'. apply andb_prop in Hc as [?%Z.leb_le ?%Z.leb_le].
  cbn [num_loop]. destruct (Z.ltb_spec q n); [|lia].
  match goal with H : rd d q = Some c |- _ => rewrite H; pose proof H as Hrq end. cbn [mbind option_bind]. rewrite Hc'.
  rewrite (u32_id (0 * 10)), u32_id by lia. cbv zeta. destruct (Z.ltb_spec 8192 (0 * 10 + (c - 48))); [lia|].
  eapply returns_mono; [apply num_loop_safe; lia|]. intros [[r w]|]; [|done].
  intros (HA & HB & a & Ha & E & Hl & Hv). split; [lia|]. split; [done|]. exists (s ++ c :: a). split.
  - exists s, (c :: a). split; [done|]. split; [done|]. split; [by constructor|]. by split.
  - by rewrite Es, (from_cons q c), E, <- app_assoc by (done || lia).
Qed.

Lemma ppm_header_safe : 2 <= n ->
  returns (ppm_header d n) (fun r =>
    match r with
    | None => True
    | Some (p, w, h, m) => 2 < p <= n /\ 0 <= w /\ 0 <= h /\
        exists t1 t2 t3, number w t1 /\ number h t2 /\ number m t3 /\ from 2 = t1 ++ t2 ++ t3 ++ from p
    end).
Proof.
  intros Hn2. unfold ppm_header. eapply returns_bind; [apply num_safe; lia|]. intros [[p w]|] H1; [|by eexists].
  destruct H1 as (P1 & W1 & t1 & N1 & E1).
  eapply returns_bind; [apply num_safe; lia|]. intros [[q h]|] H2; [|by eexists].
  destruct H2 as (P2 & W2 & t2 & N2 & E2).
  eapply returns_bind; [apply num_safe; lia|]. intros [[r m]|] H3; [|by eexists].
  destruct H3 as (P3 & W3 & t3 & N3 & E3).
  eexists. split; [reflexivity|]. cbn. split; [lia|]. split; [lia|]. split; [lia|].
  exists t1, t2, t3. by rewrite E1, E2, E3.
Qed.

(** The end of a line, or one blank. *)
Definition separator (t rest : bytes) : Prop :=
  t = [CR; LF] \/ exists c, t = [c] /\ sp c = true /\ ~ (c = CR /\ head rest = Some LF).

Lemma after_space_safe p c : 0 <= p < n -> rd d p = Some c -> sp c = true ->
  returns (after_space d n p) (fun q => p < q /\ (q <= n -> exists t, separator t (from q) /\ from p = t ++ from q)).
Proof.
  intros Hp Hc Hs. unfold after_space. rewrite Hc. cbn [mbind option_bind].
  assert (Hone : (c = CR -> p + 1 < n -> head (from (p + 1)) <> Some LF) ->
    p < p + 1 /\ (p + 1 <= n -> exists t, separator t (from (p + 1)) /\ from p = t ++ from (p + 1))).
  { intros Hne. split; [lia|]. intros _. exists [c]. split; [|by apply from_cons].
    right. exists c. split; [done|]. split; [done|]. intros [-> Hh].
    destruct (Z.ltb_spec (p + 1) n); [by apply Hne|].
    unfold from in Hh. rewrite drop_ge in Hh by (rewrite length_take; lia). done. }
  destruct (Z.eqb_spec c CR) as [->|Hcr]; cbn [andb]; [|by eexists; split; [done|apply Hone]].
  destruct (Z.ltb_spec (p + 1) n) as [Hlt|]; [|by eexists; split; [done|apply Hone; lia]].
  read_at (p + 1) c'. match goal with H : rd d (p + 1) = Some c' |- _ => pose proof (from_cons (p + 1) c' ltac:(lia) H) as E' end.
  eexists. split; [done|]. destruct (Z.eqb_spec c' LF) as [->|Hlf].
  - split; [lia|]. intros _. exists [CR; LF]. split; [by left|].
    rewrite (from_cons p CR), E' by (done || lia). by replace (p + 1 + 1) with (p + 2) by lia.
  - apply Hone. intros _ _. rewrite E'. intros [=]. by apply Hlf.
Qed.

(** A portable pixmap: the header in its parts, and the pixels behind it. *)
Definition ppm (w h : Z) (pixels : bytes) : Prop :=
  exists s t1 t2 t3 sep rest, sp s = true /\ number w (s :: t1) /\ number h t2 /\ number 255 t3 /\
    separator sep (pixels ++ rest) /\ len pixels = w * h * 3 /\
    take (Z.to_nat n) d = [80; 54] ++ (s :: t1) ++ t2 ++ t3 ++ sep ++ pixels ++ rest.

Lemma pp_safe : returns (pp d n) (fun r =>
  match r with
  | None => True
  | Some (i, p) => info_ok i /\ 2 < p /\ p + width i * height i * 3 <= n /\
      ppm (width i) (height i) (slice d p (width i * height i * 3))
  end).
Proof.
  unfold pp. destruct (Z.ltb_spec n 3); [by eexists|].
  read_at 0 b0. destruct (Z.eqb_spec b0 80) as [->|]; cbn [negb]; [|by eexists].
  read_at 1 b1. read_at 2 b2. destruct (Z.eqb_spec b1 54) as [->|]; cbn [negb orb]; [|by eexists].
  destruct (sp b2) eqn:Hsp2; cbn [negb]; [|by eexists].
  eapply returns_bind; [apply ppm_header_safe; lia|].
  intros [[[[p w] h] m]|] Hhdr; [|by eexists]. destruct Hhdr as (Hp & Hw & Hh & t1 & t2 & t3 & N1 & N2 & N3 & E).
  destruct (_ || (n <=? p)) eqn:Hg; [by eexists|].
  repeat (apply orb_false_iff in Hg as [Hg ?]). bool_prop.
  read_at p c. destruct (sp c) eqn:Hsp; cbn [negb]; [|by eexists].
  eapply returns_bind; [by apply (after_space_safe p c); [lia| |]|]. intros q (Hq & Hsep). cbv beta in Hq.
  destruct (Z.ltb_spec n q); cbn [orb]; [by eexists|].
  destruct (Z.ltb_spec (n - q) (w * h * 3)); [by eexists|].
  eexists. split; [reflexivity|]. cbn [width height]. split; [unfold info_ok; cbn; lia|]. split; [lia|]. split; [lia|].
  destruct (Hsep ltac:(lia)) as (sep & Hs & Es). assert (0 <= w * h * 3) by nia.
  assert (Hpix : from q = slice d q (w * h * 3) ++ from (q + w * h * 3)).
  { unfold from, slice. rewrite <- (take_drop (Z.to_nat (w * h * 3)) (drop _ _)) at 1. rewrite drop_drop.
    rewrite skipn_firstn_comm, take_take. f_equal; [f_equal; lia|f_equal; lia]. }
  assert (E0 : take (Z.to_nat n) d = [80; 54] ++ from 2).
  { change (take (Z.to_nat n) d) with (from 0). rewrite (from_cons 0 80) by (done || lia). change (0 + 1) with 1. by rewrite (from_cons 1 54) by (done || lia). }
  destruct t1 as [|s t1].
  { destruct N1 as (? & ? & Hnil & _ & _ & Hne & _). symmetry in Hnil. apply app_eq_nil in Hnil as [_ ?]. done. }
  assert (s = b2) as ->.
  { rewrite (from_cons 2 b2) in E by (done || lia). cbn [app] in E. by injection E. }
  exists b2, t1, t2, t3, sep, (from (q + w * h * 3)). split; [done|]. split; [done|]. split; [done|].
  match goal with H : m = 255 |- _ => subst m end. split; [done|].
  split; [by rewrite <- Hpix|]. split; [rewrite slice_length by lia; lia|].
  by rewrite E0, E, Es, Hpix.
Qed.

End safety.

(** The picture in the first [n] bytes of a file, by its header: a bitmap, whose
    lines are rows of pixels from the offset the header gives on, or a pixmap. *)
Definition file_pixels (d : bytes) (n : Z) (pixels : bytes) (i : VelaImageInfo) : Prop :=
  (bmp_header d n i /\ exists off bits h, le32 d 10 = Some off /\ le16 d 28 = Some bits /\ le32 d 22 = Some h /\
     let row := width i * (bits / 8) + (- (width i * (bits / 8))) mod 4 in
     off + height i * row <= n /\
     pixels = bmp_image d off row (bits / 8) (s32 h) (width i) (height i) 0 (Z.to_nat (height i))) \/
  ppm d n (width i) (height i) pixels.

(** Every way through the decoder. *)
Lemma picture_decode_ok d n rgb cap :
  bytes_ok d -> 0 <= n <= len d -> cap <= len rgb -> negatable d ->
  exists rgb' r, vela_image_decode_rgb24 d n rgb cap = Some (rgb', r) /\
    match r with
    | None => rgb' = rgb
    | Some i => info_ok i /\ exists pixels, file_pixels d n pixels i /\
        len pixels = width i * height i * 3 /\ len pixels <= cap /\ rgb' = blit rgb 0 pixels
    end.
Proof.
  intros Hd Hn Hcap Hneg. unfold vela_image_decode_rgb24.
  destruct (pb_safe d n Hd Hn Hneg) as (r & -> & Hr). cbn [mbind option_bind]. destruct r as [i|].
  - destruct Hr as (Hi & Hhdr). pose proof Hhdr as [(_ & _ & Hn54) Ew (h & Eh & Hhr & Hh) Hb].
    assert (Hbit : exists b, le16 d 28 = Some b /\ (b = 24 \/ b = 32)) by (destruct Hb; eauto).
    destruct Hbit as (b & Eb & Hb'). unfold decode_bmp.
    destruct (Z.ltb_spec cap (width i * height i * 3)); [by do 2 eexists|].
    destruct (le32 d 10) as [off|] eqn:Eo; [|by rewrite le32_value in Eo by (done || lia)].
    pose proof (le32_bound d 10 off Hd ltac:(lia) ltac:(lia) Eo) as Hor.
    unfold les32. rewrite Eb, Eh. cbn [mbind option_bind]. cbv zeta.
    set (sb := b / 8). assert (Hsb : 3 <= sb <= 4) by (unfold sb; destruct Hb' as [-> | ->]; vm_compute; split; discriminate).
    destruct Hi as (Hiw & Hih & Hic).
    rewrite stride_value by nia. set (row := width i * sb + _). assert (width i * sb <= row) by (unfold row; zlia).
    destruct (Z.ltb_spec n off); cbn [orb]; [by do 2 eexists|].
    destruct (Z.ltb_spec ((n - off) / height i) row) as [|Hrow]; [by do 2 eexists|].
    assert (height i * row <= n - off).
    { pose proof (Z.mul_div_le (n - off) (height i) ltac:(lia)). nia. }
    rewrite bmp_rows_spec by (cbn; lia). cbn [mbind option_bind]. do 2 eexists. split; [reflexivity|].
    split; [done|]. rewrite Z.sub_0_r. eexists. split.
    { left. split; [done|]. exists off, b, h. repeat (split; [done|]). cbv zeta. fold sb row. split; [lia|done]. }
    rewrite bmp_image_length by lia. rewrite !Nat2Z.inj_mul, !Z2Nat.id by lia. change (Z.of_nat 3) with 3.
    split; [ring|]. split; [nia|done].
  - destruct (pp_safe d n Hn) as (r & -> & Hp). cbn [mbind option_bind].
    destruct r as [[i p]|]; [|by do 2 eexists]. destruct Hp as (Hi & Hp & Hpn & Hppm). destruct Hi as (Hiw & Hih & Hic).
    cbv zeta. assert (0 <= width i * height i) by nia.
    destruct (Z.ltb_spec cap (width i * height i * 3)); [by do 2 eexists|].
    rewrite copy_from_spec by lia. cbn [mbind option_bind]. do 2 eexists. split; [reflexivity|].
    split; [done|]. rewrite Z2Nat.id by lia. eexists. split; [by right|].
    rewrite slice_length by lia. by repeat split.
Qed.

(** C27. The decoder of pictures is memory safe on every input but those whose bytes
    22 to 25 hold 0x80000000, which [pb] would have to negate as the height of a
    bitmap: it reads inside the [n] bytes received and writes inside the [cap] bytes of
    the result.  A failure leaves the result alone; a success fills it with the pixels
    of the picture, of at most 320 by 240, that the header describes: the rows of a
    bitmap of that width and height from the offset it gives on, or what follows the
    numbers of a pixmap and the blank or end of line behind them. *)
Theorem vela_image_decode_safe d n rgb cap :
  bytes_ok d -> 0 <= n <= len d -> cap <= len rgb -> negatable d ->
  exists rgb' r, vela_image_decode_rgb24 d n rgb cap = Some (rgb', r) /\
    match r with
    | None => rgb' = rgb
    | Some i => info_ok i /\ exists pixels, file_pixels d n pixels i /\
        len pixels = width i * height i * 3 /\ len pixels <= cap /\ rgb' = blit rgb 0 pixels
    end.
Proof. apply picture_decode_ok. Qed.

(** ** Files *)

(** A pixel: red, green and blue. *)
Definition pixel : Type := Z * Z * Z.
Definition rgb_of (p : pixel) : bytes := let '(r, g, b) := p in [r; g; b].

(** Little-endian, on [k] bytes. *)
Fixpoint le_bytes (k : nat) (v : Z) : bytes :=
  match k with O => [] | S k' => v mod 256 :: le_bytes k' (v / 256) end.

(** A pixel of a file, with its fourth byte on 32 bits, and a row with its padding. *)
Definition bmp_cell (sb : Z) (p : pixel) : bytes :=
  let '(r, g, b) := p in [b; g; r] ++ (if sb =? 4 then [0] else []).
Definition bmp_wire_row (sb : Z) (ps : list pixel) : bytes :=
  concat (map (bmp_cell sb) ps) ++ replicate (Z.to_nat (- (len ps * sb) mod 4)) 0.

(** [bits] a pixel, the rows from the top when [topdown]; [gap] before the pixels. *)
Definition bmp_file (bits : Z) (topdown : bool) (gap : bytes) (rows : list (list pixel)) : bytes :=
  let w := len (default [] (head rows)) in let h := len rows in
  [66; 77] ++ replicate 8 0 ++ le_bytes 4 (54 + len gap) ++ le_bytes 4 40 ++ le_bytes 4 w ++
  le_bytes 4 (if topdown then 4294967296 - h else h) ++ le_bytes 2 1 ++ le_bytes 2 bits ++
  le_bytes 4 0 ++ replicate 20 0 ++ gap ++
  concat (map (bmp_wire_row (bits / 8)) (if topdown then rows else rev rows)).

Lemma bmp_line_cells sb ps pre post :
  3 <= sb <= 4 ->
  bmp_line (pre ++ concat (map (bmp_cell sb) ps) ++ post) (len pre) sb 0 (length ps) = concat (map rgb_of ps).
Proof.
  intros Hsb.
  assert (G : forall ps k pre, bmp_line (pre ++ concat (map (bmp_cell sb) ps) ++ post) (len pre - Z.of_nat k * sb) sb k (length ps)
    = concat (map rgb_of ps)).
  { clear ps pre. induction ps as [|[[r g] b] ps IH]; intros k pre; [done|]. unfold bmp_line.
    cbn [length seq map concat]. f_equal.
    - unfold bmp_pixel. replace (len pre - Z.of_nat k * sb + Z.of_nat k * sb) with (len pre) by lia.
      cbn [bmp_cell app rgb_of]. unfold byte_at. rewrite !rd_app_r by lia.
      replace (len pre + 2 - len pre) with 2 by lia. replace (len pre + 1 - len pre) with 1 by lia.
      by rewrite Z.sub_diag.
    - specialize (IH (S k) (pre ++ bmp_cell sb (r, g, b))).
      rewrite <- app_assoc in *. rewrite <- IH. unfold bmp_line.
      assert (len (pre ++ bmp_cell sb (r, g, b)) = len pre + sb) as ->.
      { cbn [bmp_cell]. rewrite !length_app. destruct (Z.eqb_spec sb 4); cbn [length]; lia. }
      by replace (len pre + sb - Z.of_nat (S k) * sb) with (len pre - Z.of_nat k * sb) by lia. }
  specialize (G ps 0%nat pre). by rewrite Z.sub_0_r in G.
Qed.



Lemma bmp_wire_row_length sb ps :
  3 <= sb <= 4 -> len (bmp_wire_row sb ps) = len ps * sb + (- (len ps * sb)) mod 4.
Proof.
  intros Hsb. unfold bmp_wire_row. rewrite length_app, length_replicate.
  assert (Z.of_nat (length (concat (map (bmp_cell sb) ps))) = len ps * sb).
  { induction ps as [|[[r g] b] ps IH]; [done|]. cbn [map concat]. rewrite length_app, Nat2Z.inj_add, IH.
    cbn [bmp_cell length]. rewrite length_app. destruct (Z.eqb_spec sb 4); cbn [length]; lia. }
  pose proof (Z.mod_pos_bound (- (len ps * sb)) 4). lia.
Qed.

Lemma bmp_wire_rows_length sb w l :
  3 <= sb <= 4 -> Forall (fun r => len r = w) l ->
  len (concat (map (bmp_wire_row sb) l)) = len l * (w * sb + (- (w * sb)) mod 4).
Proof.
  intros Hsb. induction 1 as [|r l Hr _ IH]; [done|]. cbn [map concat length].
  rewrite length_app, Nat2Z.inj_add, IH, (bmp_wire_row_length sb r Hsb), Hr. lia.
Qed.

Lemma le_bytes_ok k v : bytes_ok (le_bytes k v).
Proof.
  revert v. induction k as [|k IH]; intros v; [constructor|]. cbn [le_bytes]. constructor; [|apply IH].
  unfold is_byte. zlia.
Qed.

Lemma le_bytes_length k v : length (le_bytes k v) = k.
Proof. revert v. induction k as [|k IH]; intros v; [done|]. cbn [le_bytes length]. by rewrite IH. Qed.

Lemma byte_at_app pre l post i : 0 <= i < len l -> byte_at (pre ++ l ++ post) (len pre + i) = byte_at l i.
Proof.
  intros Hi. unfold byte_at. rewrite rd_app_r by lia. replace (len pre + i - len pre) with i by lia.
  by rewrite rd_app_l by lia.
Qed.

Lemma le32_at pre v post :
  bytes_ok (pre ++ le_bytes 4 v ++ post) -> 0 <= v < 4294967296 ->
  le32 (pre ++ le_bytes 4 v ++ post) (len pre) = Some v.
Proof.
  intros Hb Hv. rewrite le32_value; [|done|lia|rewrite !length_app, le_bytes_length; lia].
  rewrite <- (Z.add_0_r (len pre)) at 1.
  rewrite !byte_at_app by (rewrite le_bytes_length; lia). f_equal. unfold byte_at, rd. cbn [le_bytes Z.leb Z.compare].
  cbv [Z.to_nat Pos.to_nat Pos.iter_op Nat.add lookup list_lookup default from_option id]. zlia.
Qed.

Lemma le16_at pre v post :
  bytes_ok (pre ++ le_bytes 2 v ++ post) -> 0 <= v < 65536 ->
  le16 (pre ++ le_bytes 2 v ++ post) (len pre) = Some v.
Proof.
  intros Hb Hv. rewrite le16_value; [|done|lia|rewrite !length_app, le_bytes_length; lia].
  rewrite <- (Z.add_0_r (len pre)) at 1.
  rewrite !byte_at_app by (rewrite le_bytes_length; lia). f_equal. unfold byte_at, rd. cbn [le_bytes Z.leb Z.compare].
  cbv [Z.to_nat Pos.to_nat Pos.iter_op Nat.add lookup list_lookup default from_option id]. zlia.
Qed.

Definition pixel_ok (p : pixel) : Prop := let '(r, g, b) := p in is_byte r /\ is_byte g /\ is_byte b.

Section roundtrip.
Context (bits : Z) (topdown : bool) (gap rest : bytes) (rows : list (list pixel)) (w : Z).
Context (Hbits : bits = 24 \/ bits = 32) (Hw : 0 < w <= 320) (Hh : 0 < len rows <= 240).
Context (Hrows : Forall (fun r => len r = w) rows) (Hpx : Forall (Forall pixel_ok) rows).
Context (Hgap : bytes_ok gap) (Hoff : 54 + len gap < 4294967296) (Hrest : bytes_ok rest).
Let d : bytes := bmp_file bits topdown gap rows ++ rest.
Let h : Z := len rows.
Let sb : Z := bits / 8.
Let ws : list (list pixel) := if topdown then rows else rev rows.

Lemma sb_range : 3 <= sb <= 4.
Proof. unfold sb. destruct Hbits as [-> | ->]; vm_compute; split; discriminate. Qed.

Lemma wire_row_ok r : Forall pixel_ok r -> bytes_ok (bmp_wire_row sb r).
Proof.
  intros Hr. unfold bmp_wire_row. apply Forall_app. split; [|by apply bytes_ok_replicate].
  induction Hr as [|[[r0 g] b] r (H1 & H2 & H3) _ IH]; [constructor|]. cbn [map concat bmp_cell].
  rewrite <- app_assoc. cbn [app]. repeat (constructor; [done|]). apply Forall_app. split; [|done].
  destruct (sb =? 4); [constructor; [unfold is_byte; lia|constructor]|constructor].
Qed.

Lemma first_row : len (default [] (head rows)) = w.
Proof. destruct Hrows as [|r rs Hr _]; [cbn in Hh; lia|done]. Qed.

Lemma ws_rows : Forall (fun r => len r = w) ws /\ Forall (Forall pixel_ok) ws /\ length ws = length rows.
Proof.
  unfold ws. destruct topdown; [done|]. rewrite length_rev. split; [by apply List.Forall_rev|].
  split; [by apply List.Forall_rev|done].
Qed.

Lemma d_ok : bytes_ok d.
Proof.
  unfold d, bmp_file. fold sb ws. destruct ws_rows as (_ & Hws & _).
  assert (Hb : bytes_ok (concat (map (bmp_wire_row sb) ws))).
  { induction Hws as [|r rs Hr _ IH]; [constructor|]. cbn [map concat]. apply Forall_app. split; [|done].
    by apply wire_row_ok. }
  repeat (apply Forall_app; split); try apply le_bytes_ok; try by apply bytes_ok_replicate.
  all: try done. bytes_lit.
Qed.

(** The fields of the header. *)
Lemma d_fields :
  rd d 0 = Some 66 /\ rd d 1 = Some 77 /\ le32 d 10 = Some (54 + len gap) /\ le32 d 14 = Some 40 /\
  le32 d 18 = Some w /\ le32 d 22 = Some (if topdown then 4294967296 - h else h) /\
  le16 d 26 = Some 1 /\ le16 d 28 = Some bits /\ le32 d 30 = Some 0.
Proof.
  pose proof d_ok as Hd. unfold d, bmp_file in Hd |- *. cbv zeta in Hd |- *. rewrite first_row in Hd |- *.
  fold h in Hd |- *. set (body := concat _) in *. set (hv := if topdown then 4294967296 - h else h) in *.
  assert (Hhv : 0 <= hv < 4294967296) by (unfold hv; destruct topdown; unfold h; lia).
  set (off := 54 + len gap) in *. rewrite <- !app_assoc in *.
  set (a14 := [66; 77] ++ replicate 8 0 ++ le_bytes 4 off).
  set (a18 := a14 ++ le_bytes 4 40). set (a22 := a18 ++ le_bytes 4 w). set (a26 := a22 ++ le_bytes 4 hv).
  set (a28 := a26 ++ le_bytes 2 1). set (a30 := a28 ++ le_bytes 2 bits).
  split; [reflexivity|]. split; [reflexivity|].
  split; [by apply (le32_at ([66; 77] ++ replicate 8 0)); [|lia]|].
  split; [by apply (le32_at a14)|]. split; [by apply (le32_at a18); [|lia]|].
  split; [by apply (le32_at a22)|]. split; [by apply (le16_at a26)|].
  split; [apply (le16_at a28); [done|destruct Hbits; lia]|]. by apply (le32_at a30).
Qed.

Let hv : Z := if topdown then 4294967296 - h else h.
Let body : bytes := concat (map (bmp_wire_row sb) ws).
Let row : Z := w * sb + (- (w * sb)) mod 4.

Lemma d_split : exists pre, d = pre ++ body ++ rest /\ len pre = 54 + len gap.
Proof.
  exists ([66; 77] ++ replicate 8 0 ++ le_bytes 4 (54 + len gap) ++ le_bytes 4 40 ++
    le_bytes 4 (len (default [] (head rows))) ++ le_bytes 4 hv ++ le_bytes 2 1 ++ le_bytes 2 bits ++
    le_bytes 4 0 ++ replicate 20 0 ++ gap). split.
  - unfold d, bmp_file. by rewrite <- !app_assoc.
  - rewrite !length_app, !length_replicate, !le_bytes_length. cbn [length]. lia.
Qed.

Lemma body_length : len body = h * row.
Proof.
  destruct ws_rows as (Hws & _ & Hl). unfold h. rewrite <- Hl.
  apply bmp_wire_rows_length; [apply sb_range|done].
Qed.

Lemma d_length : len d = 54 + len gap + h * row + len rest.
Proof.
  destruct d_split as (pre & E & Hp). rewrite E, !length_app. pose proof body_length. lia.
Qed.

Lemma s32_hv : s32 hv = if topdown then - h else h.
Proof.
  unfold s32, hv. assert (0 < h <= 240) by done.
  destruct topdown; [destruct (Z.ltb_spec (4294967296 - h) 2147483648)|destruct (Z.ltb_spec h 2147483648)]; lia.
Qed.

Lemma pb_run : pb d (len d) = Some (Some (mk_info w h 3)).
Proof.
  destruct d_fields as (E0 & E1 & _ & E14 & E18 & E22 & E26 & E28 & E30).
  pose proof d_length. assert (0 <= row) by (unfold row; pose proof sb_range; zlia). assert (0 <= h * row) by nia.
  assert (Hlen : (len d <? 54) = false) by (apply Z.ltb_ge; lia).
  unfold pb. rewrite Hlen, E0. cbn [mbind option_bind]. rewrite E1. cbn [mbind option_bind].
  change (negb (66 =? 66)) with false. change (negb (77 =? 77)) with false. cbv iota.
  rewrite E14. cbn [mbind option_bind]. change (40 <? 40) with false. cbv iota.
  unfold les32. rewrite E18, E22. fold hv. cbn [mbind option_bind]. rewrite E28, E26, E30. cbn [mbind option_bind].
  assert (Hs : s32 w = w) by (unfold s32; destruct (Z.ltb_spec w 2147483648); lia).
  assert (Ha : abs32 (s32 hv) = Some h).
  { assert (0 < h <= 240) by done. assert (Hc : s32 hv = h \/ s32 hv = - h) by (rewrite s32_hv; destruct topdown; auto).
    destruct Hc as [-> | ->]; rewrite abs32_spec by lia; f_equal; lia. }
  rewrite Hs, Ha. rewrite (u32_id w) by lia.
  assert (Hz : s32 hv <> 0) by (rewrite s32_hv; destruct topdown; unfold h; lia).
  destruct (Z.leb_spec w 0); [lia|]. destruct (Z.eqb_spec (s32 hv) 0); [done|].
  assert (Hbb : negb (bits =? 24) && negb (bits =? 32) = false) by (destruct Hbits as [-> | ->]; reflexivity).
  rewrite Hbb. cbn [orb negb Z.eqb Pos.eqb mbind option_bind].
  destruct (Z.ltb_spec 320 w); [lia|]. destruct (Z.ltb_spec 240 h); [unfold h in *; lia|]. reflexivity.
Qed.

(** One row of the result. *)
Lemma line_run j r : ws !! j = Some r ->
  bmp_line d (54 + len gap + Z.of_nat j * row) sb 0 (Z.to_nat w) = concat (map rgb_of r).
Proof.
  intros Hj. destruct ws_rows as (Hws & _ & _). rewrite Forall_lookup in Hws.
  pose proof (Hws j r Hj) as Hr. destruct d_split as (pre & E & Hp). rewrite E, <- Hp. clear E Hp.
  unfold body. rewrite <- (take_drop_middle ws j r Hj), map_app, concat_app. cbn [map concat].
  assert (Hlen : len (concat (map (bmp_wire_row sb) (take j ws))) = Z.of_nat j * row).
  { assert (Hj' : (j <= length ws)%nat) by (apply lookup_lt_Some in Hj; lia).
    assert (Ht : Forall (fun r => len r = w) (take j ws)).
    { apply Forall_take. by apply Forall_lookup. }
    rewrite (bmp_wire_rows_length sb w _ sb_range Ht), length_take. unfold row. f_equal. lia. }
  rewrite <- Hlen. set (before := concat (map _ (take j ws))).
  unfold bmp_wire_row at 1. rewrite <- !app_assoc.
  replace (len pre + len before) with (len (pre ++ before)) by (rewrite length_app; lia).
  rewrite (app_assoc pre before). replace (Z.to_nat w) with (length r) by lia.
  apply bmp_line_cells, sb_range.
Qed.

(** Where the row [i] of the picture is in the file. *)
Lemma ws_lookup i r : rows !! i = Some r ->
  let j := if 0 <? s32 hv then h - 1 - Z.of_nat i else Z.of_nat i in
  0 <= j /\ ws !! Z.to_nat j = Some r.
Proof.
  intros Hr. assert (Hi : (i < length rows)%nat) by (by eapply lookup_lt_Some). rewrite s32_hv.
  cbv zeta. unfold ws, h in *. destruct topdown.
  - destruct (Z.ltb_spec 0 (- len rows)); [lia|]. rewrite Nat2Z.id. split; [lia|done].
  - destruct (Z.ltb_spec 0 (len rows)); [|lia]. split; [lia|].
    replace (Z.to_nat (len rows - 1 - Z.of_nat i)) with (length rows - S i)%nat by lia.
    rewrite rev_alt. change (rev_append rows []) with (reverse rows).
    apply (reverse_lookup_Some rows). split; [|lia]. rewrite <- Hr. f_equal. lia.
Qed.

Lemma image_run :
  bmp_image d (54 + len gap) row sb (s32 hv) w h 0 (Z.to_nat h)
  = concat (map (fun r => concat (map rgb_of r)) rows).
Proof.
  unfold bmp_image. f_equal. destruct ws_rows as (_ & _ & Hl).
  change (map ?f ?l) with (f <$> l). apply list_eq. intros i. rewrite !list_lookup_fmap.
  destruct (decide (i < length rows)%nat) as [Hi|Hi].
  - rewrite lookup_seq_lt by (unfold h; lia). destruct (lookup_lt_is_Some_2 rows i Hi) as [r Hr].
    rewrite Hr. cbn [fmap option_fmap option_map]. f_equal.
    destruct (ws_lookup i r Hr) as [H1 H2]. cbn [Nat.add].
    pose proof (line_run _ r H2) as Hl'. by rewrite Z2Nat.id in Hl' by done.
  - rewrite !lookup_ge_None_2; [done|lia|rewrite length_seq; unfold h; lia].
Qed.

Lemma decode_run rgb cap :
  w * h * 3 <= cap -> cap <= len rgb ->
  vela_image_decode_rgb24 d (len d) rgb cap
  = Some (blit rgb 0 (concat (map (fun r => concat (map rgb_of r)) rows)), Some (mk_info w h 3)).
Proof.
  intros H1 H2. destruct d_fields as (_ & _ & E10 & _ & _ & E22 & _ & E28 & _).
  unfold vela_image_decode_rgb24. rewrite pb_run. cbn [mbind option_bind].
  unfold decode_bmp, les32. cbn [width height]. destruct (Z.ltb_spec cap (w * h * 3)); [lia|].
  rewrite E10, E28, E22. cbn [mbind option_bind]. cbv zeta. fold sb hv.
  pose proof sb_range. rewrite stride_value by nia. fold row.
  assert (0 <= row) by (unfold row; zlia). assert (w * sb <= row) by (unfold row; zlia).
  pose proof d_length. assert (0 <= h * row) by nia.
  destruct (Z.ltb_spec (len d) (54 + len gap)); [lia|].
  destruct (Z.ltb_spec ((len d - (54 + len gap)) / h) row) as [Hbad|].
  { exfalso. assert (row <= (len d - (54 + len gap)) / h); [|lia].
    apply Z.div_le_lower_bound; unfold h in *; lia. }
  cbn [orb]. rewrite bmp_rows_spec by (unfold h in *; lia). cbn [mbind option_bind].
  change (0 * w * 3) with 0. change (Z.to_nat 0) with 0%nat. rewrite Z.sub_0_r. by rewrite image_run.
Qed.
End roundtrip.

(** C28. A BMP file with 24 or 32 bits a pixel, stored from the top or from the
    bottom, with anything between the header and the pixels and behind them,
    decodes to its rows of red, green and blue from the top. *)
Theorem bmp_roundtrip bits topdown gap rest rows w rgb cap :
  bits = 24 \/ bits = 32 -> 0 < w <= 320 -> 0 < len rows <= 240 ->
  Forall (fun r => len r = w) rows -> Forall (Forall pixel_ok) rows ->
  bytes_ok gap -> 54 + len gap < 4294967296 -> bytes_ok rest ->
  w * len rows * 3 <= cap -> cap <= len rgb ->
  vela_image_decode_rgb24 (bmp_file bits topdown gap rows ++ rest) (len (bmp_file bits topdown gap rows ++ rest)) rgb cap
  = Some (blit rgb 0 (concat (map (fun r => concat (map rgb_of r)) rows)), Some (mk_info w (len rows) 3)).
Proof. intros. by apply decode_run. Qed.

(** ** A file on the wire *)

Module Sample.
Definition picture : list (list pixel) := [[(1, 2, 3); (4, 5, 6); (7, 8, 9)]; [(10, 20, 30); (40, 50, 60); (70, 80, 90)]].

Example bottom_up_24 :
  vela_image_decode_rgb24 (bmp_file 24 false [] picture) 78 (replicate 20 7) 20
  = Some ([1; 2; 3; 4; 5; 6; 7; 8; 9; 10; 20; 30; 40; 50; 60; 70; 80; 90; 7; 7], Some (mk_info 3 2 3)).
Proof. vm_compute. reflexivity. Qed.

(** A portable pixmap with its separator. *)
Example pixmap :
  vela_image_decode_rgb24 (chars "P6 1 1 255" ++ [CR; LF; 9; 8; 7]) 15 [0; 0; 0] 3
  = Some ([9; 8; 7], Some (mk_info 1 1 3)).
Proof. vm_compute. reflexivity. Qed.

(** A row less than the header says is refused. *)
Example cut_short :
  vela_image_decode_rgb24 (bmp_file 24 false [] picture) 77 (replicate 20 7) 20 = Some (replicate 20 7, None).
Proof. vm_compute. reflexivity. Qed.

Lemma vela_image_decode_safe_witness :
  exists rgb' r, vela_image_decode_rgb24 (bmp_file 24 false [] picture) 78 (replicate 20 7) 20 = Some (rgb', r) /\
    match r with
    | None => rgb' = replicate 20 7
    | Some i => info_ok i /\ exists pixels, file_pixels (bmp_file 24 false [] picture) 78 pixels i /\
        len pixels = width i * height i * 3 /\ len pixels <= 20 /\ rgb' = blit (replicate 20 7) 0 pixels
    end.
Proof.
  apply (vela_image_decode_safe (bmp_file 24 false [] picture) 78 (replicate 20 7) 20).
  - by apply bytes_okb_spec.
  - split; discriminate.
  - discriminate.
  - discriminate.
Defined.

(** The height whose negation is undefined. *)
Example least_height : pb (blit (bmp_file 24 false [] picture) 22 [0; 0; 0; 128]) 78 = None.
Proof. vm_compute. reflexivity. Qed.

Lemma bmp_roundtrip_witness :
  vela_image_decode_rgb24 (bmp_file 32 true [0] picture ++ [1]) (len (bmp_file 32 true [0] picture ++ [1])) (replicate 20 7) 20
  = Some (blit (replicate 20 7) 0 (concat (map (fun r => concat (map rgb_of r)) picture)), Some (mk_info 3 (len picture) 3)).
Proof.
  apply (bmp_roundtrip 32 true [0] [1] picture 3 (replicate 20 7) 20).
  - by right.
  - by split.
  - by split.
  - by repeat constructor.
  - by repeat (constructor; [repeat (constructor; [repeat split; discriminate|]); constructor|]).
  - by apply bytes_okb_spec.
  - reflexivity.
  - by apply bytes_okb_spec.
  - discriminate.
  - discriminate.
Defined.
End Sample.
