(* ===== verification/Resource.v ===== *)
(** * kernel/net_resource.c: binary resources

    [net_http_get_bytes] fetches a picture through [net_http_get] and finds its
    length in the picture's own header.  [None] inside a result is a return of 0. *)

From S2P Require Import Prelude NetEnv Cstr Http HttpChunked HttpGet HttpSafe Image.

(** The static helpers, copies of those of vela_image.c. *)
Definition space (c : Z) : bool := sp c.
Definition ppm_num (d : bytes) (cap p : Z) : option (option (Z * Z)) := num d cap p.

(** The lengths that the headers announce, below [cap]. *)
Definition bmp_length (data : bytes) (cap : Z) : option (option Z) :=
  n ← le32 data 2;
  Some (if (54 <=? n) && (n <? cap) then Some n else None).

Definition ppm_length (data : bytes) (cap : Z) : option (option Z) :=
  r ← ppm_num data cap 2;
  match r with
  | None => Some None
  | Some (p, w) =>
      r ← ppm_num data cap p;
      match r with
      | None => Some None
      | Some (p, h) =>
          r ← ppm_num data cap p;
          match r with
          | None => Some None
          | Some (p, max) =>
              if negb (max =? 255) || (cap <=? p) then Some None
              else
                c ← rd data p;
                if negb (space c) then Some None
                else
                  p ← after_space data cap p;
                  let pixels := w * h in
                  if negb (w =? 0) && negb (pixels / w =? h) then Some None
                  else
                    let total := p + pixels * 3 in
                    Some (if total <? cap then Some total else None)
          end
      end
  end.

(** Lines 11-13. *)
Definition resource_length (data : bytes) (cap : Z) : option (option Z) :=
  b0 ← rd data 0; b1 ← rd data 1;
  if (b0 =? 66) && (b1 =? 77) then bmp_length data cap
  else if (b0 =? 80) && (b1 =? 54) then
    b2 ← rd data 2;
    if space b2 then ppm_length data cap else Some None
  else Some None.

Section bytes.
Context {E : Type} `{!HttpNet E} (stack : Z -> bytes).

(** The result, [ *len] and the state of the client. *)
Definition net_http_get_bytes (ready : Z) (url data : ptr bytes) (cap : Z) (status : ptr bytes)
    (status_cap : Z) (raw : bytes) (e : E) : res (Z * Z * http) :=
  match data with
  | Null => Ok (0, 0, mk_http [] status raw e)
  | Ptr d =>
      if cap <? 64 then Ok (0, 0, mk_http d status raw e)
      else
        '(ok, h) ← net_http_get stack ready url data cap status status_cap raw e;
        if ok =? 0 then Ok (0, 0, h)
        else
          n ← ub (resource_length (h_body h) cap);
          Ok (match n with Some n => (1, n, h) | None => (0, 0, h) end)
  end.
End bytes.

(** ** The length stays inside the buffer *)

Lemma ppm_num_safe d n p :
  0 <= n <= len d -> 0 <= p <= n ->
  returns (ppm_num d n p) (fun r =>
    match r with None => True | Some (q, w) => p <= q <= n /\ 0 <= w <= 8192 end).
Proof.
  intros Hn Hp. destruct (num_safe d n Hn p Hp) as (r & E & H). exists r. split; [exact E|].
  destruct r as [[q w]|]; [|done]. destruct H as (? & ? & _). lia.
Qed.

Lemma resource_length_safe data cap :
  64 <= cap <= len data ->
  returns (resource_length data cap) (fun r => match r with None => True | Some n => 0 < n < cap end).
Proof.
  intros Hc. assert (Hn : 0 <= cap <= len data) by lia. unfold resource_length.
  rewrite !rd_byte_at by lia. cbn [mbind option_bind]. case_if.
  { unfold bmp_length, le32. rewrite !rd_byte_at by lia. cbn [mbind option_bind].
    eexists. split; [reflexivity|]. case_if; [|done]. lia. }
  case_if; [|by eexists]. case_if; [|by eexists]. unfold ppm_length.
  eapply returns_bind; [by apply ppm_num_safe; lia|]. intros [[p w]|] H1; [cbn in H1|by eexists].
  eapply returns_bind; [apply (ppm_num_safe data cap); (done || lia)|].
  intros [[q h]|] H2; [cbn in H2|by eexists].
  eapply returns_bind; [apply (ppm_num_safe data cap); (done || lia)|].
  intros [[r m]|] H3; [cbn in H3|by eexists].
  case_if; [by eexists|]. rewrite rd_byte_at by lia. cbn [mbind option_bind]. case_if; [by eexists|].
  assert (Er : rd data r = Some (byte_at data r)) by (apply rd_byte_at; lia).
  eapply returns_bind; [eapply (after_space_safe data cap Hn r); [lia|exact Er|exact E1]|]. intros s [Hs _]. cbv zeta.
  assert (0 <= w * h) by nia.
  case_if; [by eexists|]. eexists. split; [reflexivity|]. case_if; [|done]. lia.
Qed.

(** The product of two numbers the parser accepts fits any [size_t], so the
    test for its overflow never fails. *)
Lemma pixels_fit w h : 0 < w <= 8192 -> 0 <= h <= 8192 -> w * h * 3 < 4294967296 /\ w * h / w = h.
Proof. intros. split; [nia|]. rewrite Z.mul_comm. apply Z.div_mul. lia. Qed.

(** ** The fetch *)

(** A resource fetched is a picture whose length, by its own header, lies inside
    the caller's buffer, against any server: the fetch itself stays inside its
    buffers, and the length is 0 when it fails. *)
Theorem net_http_get_bytes_safe {E} `{!HttpNet E} stack T (J : E -> Prop) `{!HttpNetLaws T J (fun _ => True)}
    ready url t data cap status status_cap raw e :
  (forall n, 0 <= n -> len (stack n) = n) ->
  match url with Null => t = [] | Ptr s => cstr s 0 t end ->
  cap <= len data -> status_ok status_cap status -> len raw = 32768 -> J e ->
  safe T (net_http_get_bytes stack ready url (Ptr data) cap status status_cap raw e) (fun '(r, n, h) =>
    J (h_env h) /\ len (h_body h) = len data /\ same_object status (h_status h) /\
    ((r = 0 /\ n = 0) \/ (r = 1 /\ 0 < n < cap /\ resource_length (h_body h) cap = Some (Some n)))).
Proof.
  intros Hst Hu Hc Hs Hr Hj. unfold net_http_get_bytes.
  assert (Href : same_object status status) by (by destruct status).
  case_if; [cbn; split; [done|]; split; [done|]; split; [done|by left]|].
  eapply safe_bind; [by apply (http_get_post stack T J (fun _ => True) ready url t)|].
  intros [ok h] ((H1 & H2 & _ & H4) & _ & _). cbn [h_body h_status h_env] in *.
  case_if; [cbn; split; [done|]; split; [done|]; split; [done|by left]|].
  destruct (resource_length_safe (h_body h) cap ltac:(lia)) as (r & Er & Hn).
  rewrite Er. cbn [ub mbind res_bind].
  destruct r as [n|]; cbn; (split; [done|]; split; [done|]; split; [done|]); [by right|by left].
Qed.
