(* ===== verification/Pmm.v ===== *)
(** * kernel/pmm.c, include/bootinfo.h

    The physical page allocator: it scans the conventional regions of the
    firmware's memory map page by page and keeps the freed pages in a bounded
    LIFO stack.  Addresses are 64-bit integers with their wrap-around; the
    memory map is the byte buffer the boot loader left. *)

From stdpp Require Import relations.
From S2P Require Import Prelude.

Definition PAGE_SIZE : Z := 4096.
Definition PMM_MIN_ADDR : Z := 0x01000000.
Definition PMM_RECYCLE_CAP : Z := 1024.

(** sizeof(EfiMemDesc) and sizeof(OrionBootInfo) on x86-64. *)
Definition sizeof_EfiMemDesc : Z := 40.
Definition sizeof_OrionBootInfo : Z := 64.

Record EfiMemDesc := mk_desc {
  type : Z;
  pad : Z;
  physical_start : Z;
  virtual_start : Z;
  pages : Z;
  attr : Z
}.

Record OrionBootInfo := mk_bootinfo {
  framebuffer_base : Z;
  framebuffer_size : Z;
  width : Z;
  height : Z;
  pixels_per_scanline : Z;
  pixel_format : Z;
  memory_map : Z;
  memory_map_size : Z;
  memory_descriptor_size : Z;
  memory_descriptor_version : Z
}.

(** The static variables of the file. *)
Record pmm := mk_pmm {
  g_bi : ptr OrionBootInfo;
  total_pages_count : Z;
  used_pages_count : Z;
  scan_off : Z;
  scan_addr : Z;
  scan_end : Z;
  recycled : list Z;
  recycled_count : Z
}.

Definition set_used (st : pmm) (v : Z) : pmm :=
  mk_pmm (g_bi st) (total_pages_count st) v (scan_off st) (scan_addr st) (scan_end st)
    (recycled st) (recycled_count st).
Definition set_scan_off (st : pmm) (v : Z) : pmm :=
  mk_pmm (g_bi st) (total_pages_count st) (used_pages_count st) v (scan_addr st)
    (scan_end st) (recycled st) (recycled_count st).
Definition set_scan (st : pmm) (a e : Z) : pmm :=
  mk_pmm (g_bi st) (total_pages_count st) (used_pages_count st) (scan_off st) a e
    (recycled st) (recycled_count st).
Definition set_recycled (st : pmm) (r : list Z) (n : Z) : pmm :=
  mk_pmm (g_bi st) (total_pages_count st) (used_pages_count st) (scan_off st)
    (scan_addr st) (scan_end st) r n.

(** [*(const EfiMemDesc * )(map + off)] *)
Definition read_desc (mm : bytes) (off : Z) : option EfiMemDesc :=
  t ← load_le 4 mm off;
  pd ← load_le 4 mm (off + 4);
  ps ← load_le 8 mm (off + 8);
  vs ← load_le 8 mm (off + 16);
  pg ← load_le 8 mm (off + 24);
  a ← load_le 8 mm (off + 32);
  Some (mk_desc t pd ps vs pg a).

Definition align_up (v a : Z) : Z := Z.land (u64 (v + a - 1)) (u64 (Z.lnot (a - 1))).

Definition overlap (a0 a1 b0 b1 : Z) : bool := (a0 <? b1) && (b0 <? a1).

(** ** The code

    [mm] is the memory at [g_bi->memory_map]; [kernel_start] and [kernel_end]
    are the linker's symbols and [bi_addr] the address of the boot
    information, all fixed while the kernel runs. *)

Section code.
Context (mm : bytes) (kernel_start kernel_end bi_addr : Z).

Definition reserved (st : pmm) (p : Z) : bool :=
  let e := u64 (p + PAGE_SIZE) in
  if overlap p e kernel_start kernel_end then true else
  match g_bi st with
  | Null => false
  | Ptr b =>
      if overlap p e bi_addr (u64 (bi_addr + sizeof_OrionBootInfo)) then true else
      if overlap p e (memory_map b) (u64 (memory_map b + memory_map_size b)) then true else
      overlap p e (framebuffer_base b) (u64 (framebuffer_base b + framebuffer_size b))
  end.

(** [for(off=0; off+sizeof(EfiMemDesc)<=size; off+=stride) { d=...; body }];
    [inr] is a [return] inside the body. *)
Fixpoint for_descriptors {S R : Type} (fuel : nat) (b : OrionBootInfo) (off : Z)
    (body : EfiMemDesc -> S -> S + R) (s : S) : option (S + R) :=
  match fuel with
  | O => None
  | Datatypes.S fuel' =>
      if u64 (off + sizeof_EfiMemDesc) <=? memory_map_size b then
        d ← read_desc mm off;
        match body d s with
        | inl s' => for_descriptors fuel' b (u64 (off + memory_descriptor_size b)) body s'
        | inr r => Some (inr r)
        end
      else Some (inl s)
  end.

(** Turns the loop can take: one per descriptor, and the failing test. *)
Definition desc_fuel (b : OrionBootInfo) : nat :=
  Z.to_nat (memory_map_size b / memory_descriptor_size b + 2).

Definition conventional_body (p : Z) (d : EfiMemDesc) (_ : unit) : unit + Z :=
  if negb (type d =? 7) || (pages d =? 0) then inl tt else
  let start := physical_start d in
  let end_ := u64 (start + u64 (pages d * PAGE_SIZE)) in
  if end_ <? start then inl tt else
  let start := if start <? PMM_MIN_ADDR then align_up PMM_MIN_ADDR PAGE_SIZE else start in
  if (start <=? p) && (p <? u64 (p + PAGE_SIZE)) && (u64 (p + PAGE_SIZE) <=? end_)
  then inr 1 else inl tt.

Definition conventional_page (st : pmm) (p : Z) : option Z :=
  match g_bi st with
  | Null => Some 0
  | Ptr b =>
      if (memory_descriptor_size b =? 0) || (p <? PMM_MIN_ADDR)
         || negb (Z.land p (PAGE_SIZE - 1) =? 0) then Some 0 else
      r ← for_descriptors (desc_fuel b) b 0 (conventional_body p) tt;
      match r with inr v => Some v | inl _ => Some 0 end
  end.

Definition init_body (d : EfiMemDesc) (total : Z) : Z + unit :=
  if negb (type d =? 7) || (pages d =? 0) then inl total else
  let start := physical_start d in
  let end_ := u64 (start + u64 (pages d * PAGE_SIZE)) in
  if (end_ <? start) || (end_ <=? PMM_MIN_ADDR) then inl total else
  let start := if start <? PMM_MIN_ADDR then align_up PMM_MIN_ADDR PAGE_SIZE else start in
  inl (if start <? end_ then u64 (total + (end_ - start) / PAGE_SIZE) else total).

(** The array [recycled] is not cleared. *)
Definition pmm_init (st : pmm) (bi : ptr OrionBootInfo) : option pmm :=
  let st := mk_pmm bi 0 0 0 0 0 (recycled st) 0 in
  match bi with
  | Null => Some st
  | Ptr b =>
      if memory_descriptor_size b =? 0 then Some st else
      r ← for_descriptors (desc_fuel b) b 0 init_body 0;
      match r with
      | inl total => Some (mk_pmm bi total 0 0 0 0 (recycled st) 0)
      | inr _ => Some st
      end
  end.

(** [while(scan_addr && scan_addr+PAGE_SIZE<=scan_end) {...}]: [Some p] when
    the page [p] is returned. *)
Fixpoint scan_pages (fuel : nat) (st : pmm) : option (option Z * pmm) :=
  match fuel with
  | O => None
  | S fuel' =>
      if negb (scan_addr st =? 0) && (u64 (scan_addr st + PAGE_SIZE) <=? scan_end st) then
        let p := scan_addr st in
        let st := set_scan st (u64 (scan_addr st + PAGE_SIZE)) (scan_end st) in
        if reserved st p then scan_pages fuel' st
        else Some (Some p, set_used st (u64 (used_pages_count st + 1)))
      else Some (None, st)
  end.

Definition scan_fuel (st : pmm) : nat :=
  Z.to_nat ((scan_end st - scan_addr st) / PAGE_SIZE + 2).

(** [for(;;) {...}] of [pmm_alloc_page]. *)
Fixpoint alloc_loop (fuel : nat) (b : OrionBootInfo) (st : pmm) : option (Z * pmm) :=
  match fuel with
  | O => None
  | S fuel' =>
      '(r, st) ← scan_pages (scan_fuel st) st;
      match r with
      | Some p => Some (p, st)
      | None =>
          let st := set_scan st 0 0 in
          if memory_map_size b <? u64 (scan_off st + sizeof_EfiMemDesc) then Some (0, st) else
          d ← read_desc mm (scan_off st);
          let st := set_scan_off st (u64 (scan_off st + memory_descriptor_size b)) in
          if negb (type d =? 7) || (pages d =? 0) then alloc_loop fuel' b st else
          let start := physical_start d in
          let end_ := u64 (start + u64 (pages d * PAGE_SIZE)) in
          if (end_ <? start) || (end_ <=? PMM_MIN_ADDR) then alloc_loop fuel' b st else
          let start := if start <? PMM_MIN_ADDR then align_up PMM_MIN_ADDR PAGE_SIZE
                       else start in
          if end_ <=? start then alloc_loop fuel' b st else
          alloc_loop fuel' b (set_scan st start end_)
      end
  end.

Definition pmm_alloc_page (st : pmm) : option (Z * pmm) :=
  if negb (recycled_count st =? 0) then
    let n := recycled_count st - 1 in
    p ← rd (recycled st) n;
    let st := set_recycled st (recycled st) n in
    Some (p, set_used st (u64 (used_pages_count st + 1)))
  else
  match g_bi st with
  | Null => Some (0, st)
  | Ptr b =>
      if memory_descriptor_size b =? 0 then Some (0, st)
      else alloc_loop (desc_fuel b) b st
  end.

(** [for(i=0;i<recycled_count;i++) if(recycled[i]==page) return 0;] *)
Fixpoint in_recycled (k : nat) (r : list Z) (i page : Z) : option bool :=
  match k with
  | O => Some false
  | S k' => v ← rd r i; if v =? page then Some true else in_recycled k' r (i + 1) page
  end.

Definition pmm_free_page (st : pmm) (page : Z) : option (Z * pmm) :=
  if (page =? 0) || (used_pages_count st =? 0) then Some (0, st) else
  c ← conventional_page st page;
  if (c =? 0) || reserved st page || (PMM_RECYCLE_CAP <=? recycled_count st)
  then Some (0, st) else
  dup ← in_recycled (Z.to_nat (recycled_count st)) (recycled st) 0 page;
  if (dup : bool) then Some (0, st) else
  r ← wr (recycled st) (recycled_count st) page;
  let st := set_recycled st r (recycled_count st + 1) in
  Some (1, set_used st (u64 (used_pages_count st - 1))).

Definition pmm_total_pages (st : pmm) : Z := total_pages_count st.
Definition pmm_used_pages (st : pmm) : Z := used_pages_count st.
Definition pmm_free_pages (st : pmm) : Z :=
  if used_pages_count st <? total_pages_count st
  then u64 (total_pages_count st - used_pages_count st) else 0.
End code.

(** ** Specification

    The map as the list of its descriptors, the usable region of each, the
    pages of a region, and the abstract free list of a state: the freed pages,
    last one first, then the pages not yet reached by the scan. *)

Section spec.
Context (mm : bytes) (kernel_start kernel_end bi_addr : Z) (b : OrionBootInfo).

Definition desc_count : Z :=
  if memory_map_size b <? 40 then 0
  else (memory_map_size b - 40) / memory_descriptor_size b + 1.

Definition desc_at (k : Z) : EfiMemDesc :=
  default (mk_desc 0 0 0 0 0 0) (read_desc mm (k * memory_descriptor_size b)).

Definition descs : list EfiMemDesc := desc_at <$> seqZ 0 desc_count.

(** Conventional memory (type 7) above 16 MB; a descriptor whose end wraps is
    dropped. *)
Definition region (d : EfiMemDesc) : option (Z * Z) :=
  let start := physical_start d in
  let end_ := u64 (start + u64 (pages d * 4096)) in
  if (type d =? 7) && negb (pages d =? 0) && (start <=? end_)
     && (Z.max start 0x01000000 <? end_)
  then Some (Z.max start 0x01000000, end_) else None.

Definition pages_in (r : Z * Z) : list Z :=
  (fun i => fst r + i * 4096) <$> seqZ 0 ((snd r - fst r) / 4096).

Definition region_pages (d : EfiMemDesc) : list Z :=
  match region d with Some r => pages_in r | None => [] end.

Definition all_pages : list Z := concat (region_pages <$> descs).

(** [reserved] depends on the boot information only. *)
Definition is_reserved (p : Z) : bool :=
  reserved kernel_start kernel_end bi_addr (mk_pmm (Ptr b) 0 0 0 0 0 [] 0) p.

Definition unreserved (l : list Z) : list Z := List.filter (fun p => negb (is_reserved p)) l.

Definition available : list Z := unreserved all_pages.

(** The pages the scan has still to visit. *)
Definition todo (st : pmm) : list Z :=
  pages_in (scan_addr st, scan_end st)
  ++ concat (region_pages <$> drop (Z.to_nat (scan_off st / memory_descriptor_size b)) descs).

Definition free_list (st : pmm) : list Z :=
  rev (take (Z.to_nat (recycled_count st)) (recycled st)) ++ unreserved (todo st).

(** The firmware's promise: the map has the size announced and no region
    reaches the last page of the address space. *)
Definition map_ok : Prop :=
  0 < memory_descriptor_size b /\ 0 <= memory_map_size b /\ memory_map_size b = len mm /\
  memory_map_size b + memory_descriptor_size b + 40 < 18446744073709551616 /\
  (forall d s e, In d descs -> region d = Some (s, e) -> e + 4096 < 18446744073709551616).

Definition pmm_ok (st : pmm) : Prop :=
  g_bi st = Ptr b /\
  len (recycled st) = PMM_RECYCLE_CAP /\ 0 <= recycled_count st <= PMM_RECYCLE_CAP /\
  (exists k, 0 <= k <= desc_count /\ scan_off st = k * memory_descriptor_size b) /\
  (scan_addr st = 0 /\ scan_end st = 0 \/
   0 < scan_addr st <= scan_end st /\ scan_end st + 4096 < 18446744073709551616) /\
  0 <= used_pages_count st < 18446744073709551616.

(** ** Descriptors *)

Lemma read_desc_is_Some off :
  0 <= off -> off + 40 <= len mm -> is_Some (read_desc mm off).
Proof.
  intros Ho Hl. unfold read_desc.
  destruct (load_le_is_Some 4 mm off) as [? ->]; [lia..|].
  destruct (load_le_is_Some 4 mm (off + 4)) as [? ->]; [lia..|].
  destruct (load_le_is_Some 8 mm (off + 8)) as [? ->]; [lia..|].
  destruct (load_le_is_Some 8 mm (off + 16)) as [? ->]; [lia..|].
  destruct (load_le_is_Some 8 mm (off + 24)) as [? ->]; [lia..|].
  destruct (load_le_is_Some 8 mm (off + 32)) as [? ->]; [lia..|].
  by eexists.
Qed.

Hypothesis Hmap : map_ok.

Lemma desc_count_nonneg : 0 <= desc_count.
Proof.
  destruct Hmap as (? & ? & _). unfold desc_count.
  destruct (Z.ltb_spec (memory_map_size b) 40); [lia|].
  pose proof (Z.div_pos (memory_map_size b - 40) (memory_descriptor_size b)). lia.
Qed.

(** The loop test is the comparison of the index with the count. *)
Lemma desc_test k :
  0 <= k -> k * memory_descriptor_size b + 40 <= memory_map_size b <-> 0 <= k < desc_count.
Proof.
  intros Hk. destruct Hmap as (Hs & Hz & _). unfold desc_count.
  destruct (Z.ltb_spec (memory_map_size b) 40) as [Hl|Hl]; [nia|].
  pose proof (Z.div_mod (memory_map_size b - 40) (memory_descriptor_size b)).
  pose proof (Z.mod_pos_bound (memory_map_size b - 40) (memory_descriptor_size b)). nia.
Qed.

Lemma desc_offset_bound k :
  0 <= k <= desc_count ->
  0 <= k * memory_descriptor_size b <= memory_map_size b + memory_descriptor_size b.
Proof.
  intros Hk. destruct Hmap as (Hs & Hz & _).
  destruct (Z.eq_dec k 0) as [->|Hne]; [lia|].
  pose proof (proj2 (desc_test (k - 1) ltac:(lia)) ltac:(lia)). nia.
Qed.

Lemma read_desc_at k :
  0 <= k < desc_count ->
  read_desc mm (k * memory_descriptor_size b) = Some (desc_at k).
Proof.
  intros Hk. destruct Hmap as (Hs & Hz & Hl & _).
  pose proof (proj2 (desc_test k ltac:(lia)) Hk).
  unfold desc_at. destruct (read_desc_is_Some (k * memory_descriptor_size b)) as [d ->];
    [nia|lia|done].
Qed.

Lemma length_descs : length descs = Z.to_nat desc_count.
Proof. unfold descs. by rewrite length_fmap, length_seqZ. Qed.

Lemma drop_descs k :
  0 <= k < desc_count -> drop (Z.to_nat k) descs = desc_at k :: drop (Z.to_nat (k + 1)) descs.
Proof.
  intros Hk. replace (Z.to_nat (k + 1)) with (S (Z.to_nat k)) by lia.
  apply drop_S. unfold descs. rewrite list_lookup_fmap, lookup_seqZ_lt by lia.
  by rewrite Z2Nat.id, Z.add_0_l by lia.
Qed.

Lemma drop_descs_end k : desc_count <= k -> drop (Z.to_nat k) descs = [].
Proof. intros. apply drop_ge. rewrite length_descs. lia. Qed.

Lemma desc_fuel_enough : (Z.to_nat desc_count < desc_fuel b)%nat.
Proof.
  pose proof desc_count_nonneg. unfold desc_fuel.
  assert (desc_count <= memory_map_size b / memory_descriptor_size b + 1); [|].
  2: { destruct Hmap as (? & ? & _).
       pose proof (Z.div_pos (memory_map_size b) (memory_descriptor_size b)). lia. }
  destruct Hmap as (? & ? & _). unfold desc_count.
  destruct (Z.ltb_spec (memory_map_size b) 40).
  { pose proof (Z.div_pos (memory_map_size b) (memory_descriptor_size b)). lia. }
  pose proof (Z.div_le_mono (memory_map_size b - 40) (memory_map_size b)
    (memory_descriptor_size b)). lia.
Qed.

(** [for_descriptors] is a fold with early exit over the descriptors. *)
Fixpoint fold_descs {S R : Type} (body : EfiMemDesc -> S -> S + R) (l : list EfiMemDesc) (s : S)
  : S + R :=
  match l with
  | [] => inl s
  | d :: l' => match body d s with inl s' => fold_descs body l' s' | inr r => inr r end
  end.

Lemma for_descriptors_spec {S R : Type} (body : EfiMemDesc -> S -> S + R) fuel k s :
  0 <= k <= desc_count -> (Z.to_nat (desc_count - k) < fuel)%nat ->
  for_descriptors mm fuel b (k * memory_descriptor_size b) body s
  = Some (fold_descs body (drop (Z.to_nat k) descs) s).
Proof.
  revert k s. induction fuel as [|fuel IH]; intros k s Hk Hf; [lia|].
  pose proof (desc_offset_bound k Hk). destruct Hmap as (Hs & Hz & Hl & Hw & _).
  cbn [for_descriptors]. rewrite u64_id by (unfold sizeof_EfiMemDesc; lia).
  unfold sizeof_EfiMemDesc. destruct (Z.leb_spec (k * memory_descriptor_size b + 40)
    (memory_map_size b)) as [Hle|Hgt].
  - assert (Hk' : 0 <= k < desc_count) by (apply desc_test; lia).
    rewrite read_desc_at by done. cbn [mbind option_bind].
    rewrite (drop_descs k) by done. cbn [fold_descs].
    destruct (body (desc_at k) s) as [s'|r]; [|done].
    rewrite u64_id by nia.
    replace (k * memory_descriptor_size b + memory_descriptor_size b)
      with ((k + 1) * memory_descriptor_size b) by lia.
    apply IH; lia.
  - rewrite drop_descs_end; [done|].
    destruct (Z.le_gt_cases desc_count k); [done|].
    pose proof (proj2 (desc_test k ltac:(lia)) ltac:(lia)). lia.
Qed.

Lemma for_all_descriptors {S R : Type} (body : EfiMemDesc -> S -> S + R) s :
  for_descriptors mm (desc_fuel b) b 0 body s = Some (fold_descs body descs s).
Proof.
  pose proof desc_count_nonneg. pose proof desc_fuel_enough.
  change 0 with (0 * memory_descriptor_size b) at 1.
  rewrite for_descriptors_spec by lia. done.
Qed.

(** ** Regions and pages *)

Lemma pages_in_cons s e :
  s + 4096 <= e -> pages_in (s, e) = s :: pages_in (s + 4096, e).
Proof.
  intros H. unfold pages_in. cbn [fst snd].
  replace ((e - s) / 4096) with (Z.succ ((e - (s + 4096)) / 4096)) by zlia.
  rewrite seqZ_cons by zlia. rewrite Z.pred_succ. cbn [fmap list_fmap].
  f_equal; [lia|]. change (Z.succ 0) with (1 + 0).
  rewrite <- fmap_add_seqZ, <- list_fmap_compose.
  apply list_fmap_ext. intros i x _. cbn. lia.
Qed.

Lemma pages_in_nil s e : e < s + 4096 -> pages_in (s, e) = [].
Proof.
  intros H. unfold pages_in. cbn [fst snd]. rewrite seqZ_nil; [done|zlia].
Qed.

Lemma length_pages_in s e : s <= e -> len (pages_in (s, e)) = (e - s) / 4096.
Proof. intros. unfold pages_in. rewrite length_fmap, length_seqZ. cbn. zlia. Qed.

Lemma elem_of_pages_in p s e :
  In p (pages_in (s, e)) <-> s <= p /\ p + 4096 <= e /\ (p - s) mod 4096 = 0.
Proof.
  unfold pages_in. rewrite in_fmap. cbn [fst snd]. split.
  - intros (i & <- & [? ?]%list_elem_of_In%elem_of_seqZ).
    replace (s + i * 4096 - s) with (i * 4096) by lia.
    rewrite Z.mod_mul by lia. zlia.
  - intros (? & ? & ?). exists ((p - s) / 4096). rewrite <- list_elem_of_In, elem_of_seqZ.
    split; zlia.
Qed.

(** The page range test of the three loops. *)
Lemma region_inv d s e :
  region d = Some (s, e) ->
  type d = 7 /\ pages d <> 0 /\ s = Z.max (physical_start d) 0x01000000 /\
  e = u64 (physical_start d + u64 (pages d * 4096)) /\ 0x01000000 <= s < e.
Proof.
  unfold region. case_if; [|discriminate]. intros [= <- <-].
  repeat match goal with |- _ /\ _ => split end; lia.
Qed.

Lemma align_min : align_up PMM_MIN_ADDR PAGE_SIZE = 0x01000000.
Proof. reflexivity. Qed.

Lemma clamp_start v :
  (if v <? PMM_MIN_ADDR then align_up PMM_MIN_ADDR PAGE_SIZE else v) = Z.max v 0x01000000.
Proof.
  rewrite align_min. unfold PMM_MIN_ADDR. destruct (Z.ltb_spec v 0x01000000); lia.
Qed.

Lemma region_pages_bounds p :
  In p all_pages -> 0x01000000 <= p /\ p + 8192 < 18446744073709551616.
Proof.
  destruct Hmap as (_ & _ & _ & _ & Hr).
  unfold all_pages. intros (l & (d & <- & Hd)%in_fmap & Hp)%in_concat.
  unfold region_pages in Hp. destruct (region d) as [[s e]|] eqn:E; [|destruct Hp].
  apply elem_of_pages_in in Hp. pose proof (Hr _ _ _ Hd E).
  apply region_inv in E. lia.
Qed.

(** ** The scan *)

Lemma is_reserved_eq st p :
  g_bi st = Ptr b ->
  reserved kernel_start kernel_end bi_addr st p = is_reserved p.
Proof. intros H. unfold is_reserved, reserved. rewrite H. reflexivity. Qed.

Lemma scan_pages_spec fuel st :
  g_bi st = Ptr b ->
  (scan_addr st = 0 /\ scan_end st = 0 \/
   0 < scan_addr st <= scan_end st /\ scan_end st + 4096 < 18446744073709551616) ->
  ((scan_end st - scan_addr st) / 4096 < Z.of_nat fuel) ->
  exists r a,
    scan_pages kernel_start kernel_end bi_addr fuel st
      = Some (r, match r with
                 | Some _ => set_used (set_scan st a (scan_end st)) (u64 (used_pages_count st + 1))
                 | None => set_scan st a (scan_end st) end) /\
    match unreserved (pages_in (scan_addr st, scan_end st)) with
    | [] => r = None
    | p :: l => r = Some p /\ unreserved (pages_in (a, scan_end st)) = l /\
                0 < a <= scan_end st /\ scan_end st + 4096 < 18446744073709551616
    end.
Proof.
  revert st. induction fuel as [|fuel IH]; intros st Hbi Hs Hf; [zlia|].
  cbn [scan_pages]. unfold PAGE_SIZE.
  destruct (Z.eqb_spec (scan_addr st) 0) as [H0|H0]; cbn [negb andb].
  { exists None, (scan_addr st). rewrite pages_in_nil by lia. by destruct st. }
  destruct Hs as [|[Hs He]]; [lia|]. rewrite u64_id by lia.
  destruct (Z.leb_spec (scan_addr st + 4096) (scan_end st)) as [Hle|Hgt].
  2: { exists None, (scan_addr st). rewrite pages_in_nil by lia. by destruct st. }
  rewrite (is_reserved_eq (set_scan st _ _)) by done.
  rewrite pages_in_cons by lia. cbn [unreserved List.filter].
  destruct (is_reserved (scan_addr st)); cbn [negb].
  - destruct (IH (set_scan st (scan_addr st + 4096) (scan_end st))) as (r & a & E & H);
      cbn [g_bi scan_addr scan_end set_scan] in *; [done|lia|zlia|].
    exists r, a. split; [exact E|exact H].
  - exists (Some (scan_addr st)), (scan_addr st + 4096). split; [done|]. split; [done|].
    split; [done|]. lia.
Qed.

Lemma unreserved_app l1 l2 : unreserved (l1 ++ l2) = unreserved l1 ++ unreserved l2.
Proof. apply List.filter_app. Qed.

Lemma todo_at st k a e :
  scan_off st = k * memory_descriptor_size b -> scan_addr st = a -> scan_end st = e ->
  todo st = pages_in (a, e) ++ concat (region_pages <$> drop (Z.to_nat k) descs).
Proof.
  intros Hk <- <-. unfold todo. rewrite Hk, Z.div_mul; [done|].
  destruct Hmap. lia.
Qed.

(** What a turn that skips a descriptor does to the pages to come. *)
Lemma region_skip d l :
  region d = None -> concat (region_pages <$> d :: l) = concat (region_pages <$> l).
Proof. intros H. cbn. unfold region_pages at 1. by rewrite H. Qed.

Lemma region_scan d l s e :
  region d = Some (s, e) ->
  concat (region_pages <$> d :: l) = pages_in (s, e) ++ concat (region_pages <$> l).
Proof. intros H. cbn. unfold region_pages at 1. by rewrite H. Qed.

(** The four exits of the loop body are the region of the descriptor. *)
Lemma region_body (A : Type) d (skip : A) (k : Z -> Z -> A) :
  (if negb (type d =? 7) || (pages d =? 0) then skip else
   let start := physical_start d in
   let end_ := u64 (start + u64 (pages d * PAGE_SIZE)) in
   if (end_ <? start) || (end_ <=? PMM_MIN_ADDR) then skip else
   let start := if start <? PMM_MIN_ADDR then align_up PMM_MIN_ADDR PAGE_SIZE else start in
   if end_ <=? start then skip else k start end_)
  = match region d with Some (s, e) => k s e | None => skip end.
Proof.
  cbv zeta. rewrite clamp_start. unfold region, PAGE_SIZE, PMM_MIN_ADDR.
  set (e := u64 _). set (s := physical_start d).
  destruct (type d =? 7); cbn [negb orb andb]; [|done].
  destruct (pages d =? 0); cbn [negb orb andb]; [done|].
  destruct (Z.ltb_spec e s), (Z.leb_spec s e); cbn [orb andb]; try lia; [done|].
  destruct (Z.leb_spec e 0x01000000), (Z.leb_spec e (Z.max s 0x01000000)),
    (Z.ltb_spec (Z.max s 0x01000000) e); try lia; done.
Qed.

(** What one allocation does, seen from the pages still to hand out. *)
Definition alloc_post (st st' : pmm) (l : list Z) (p : Z) : Prop :=
  match l with
  | [] => p = 0 /\ unreserved (todo st') = [] /\
          used_pages_count st' = used_pages_count st
  | x :: l' => p = x /\ unreserved (todo st') = l' /\
               used_pages_count st' = u64 (used_pages_count st + 1)
  end.

Definition same_stack (st st' : pmm) : Prop :=
  recycled st' = recycled st /\ recycled_count st' = recycled_count st /\
  total_pages_count st' = total_pages_count st.

Lemma alloc_loop_spec fuel st k :
  pmm_ok st -> 0 <= k <= desc_count -> scan_off st = k * memory_descriptor_size b ->
  (Z.to_nat (desc_count - k) < fuel)%nat ->
  exists p st',
    alloc_loop mm kernel_start kernel_end bi_addr fuel b st = Some (p, st') /\
    pmm_ok st' /\ same_stack st st' /\ alloc_post st st' (unreserved (todo st)) p.
Proof.
  revert st k. induction fuel as [|fuel IH]; intros st k Hok Hk Hoff Hf; [lia|].
  pose proof (desc_offset_bound k Hk) as Hbound.
  pose proof Hok as (Hbi & Hlen & Hcnt & _ & Hscan & Hused).
  pose proof Hmap as (Hs & Hz & Hl & Hw & Hr).
  cbn [alloc_loop].
  destruct (scan_pages_spec (scan_fuel st) st) as (r & a & -> & H); [done|done| |].
  { unfold scan_fuel, PAGE_SIZE. zlia. }
  rewrite (todo_at st k (scan_addr st) (scan_end st)) by done.
  rewrite unreserved_app. cbn [mbind option_bind].
  destruct (unreserved (pages_in _)) as [|x l]; cbn [app].
  2: { destruct H as (-> & <- & Ha & He). eexists _, _. split; [reflexivity|].
       split; [|split].
       - pose proof (u64_range (used_pages_count st + 1)).
         repeat split; try done; cbn -[u64]; try lia. by exists k.
       - done.
       - split; [done|]. split; [|done].
         rewrite (todo_at _ k a (scan_end st)) by done. apply unreserved_app. }
  subst r. change (set_scan (set_scan st a (scan_end st)) 0 0) with (set_scan st 0 0).
  cbn [scan_off set_scan]. rewrite Hoff, u64_id by (unfold sizeof_EfiMemDesc; lia).
  unfold sizeof_EfiMemDesc.
  destruct (Z.ltb_spec (memory_map_size b) (k * memory_descriptor_size b + 40)) as [Hend|Hmore].
  { assert (Hk' : desc_count <= k).
    { destruct (Z.le_gt_cases desc_count k); [done|].
      pose proof (proj2 (desc_test k ltac:(lia)) ltac:(lia)). lia. }
    eexists 0, _. split; [reflexivity|]. split; [|split; [done|]].
    - repeat split; try done; cbn; try lia. by exists k.
    - rewrite drop_descs_end by done. cbn. split; [done|]. split; [|done].
      rewrite (todo_at _ k 0 0) by done. by rewrite drop_descs_end by done. }
  assert (Hk' : 0 <= k < desc_count) by (apply desc_test; lia).
  rewrite (read_desc_at) by done. cbn [mbind option_bind].
  rewrite (drop_descs k) by done. rewrite u64_id by lia.
  replace (k * memory_descriptor_size b + memory_descriptor_size b)
    with ((k + 1) * memory_descriptor_size b) by lia.
  rewrite (region_body _ (desc_at k) _ (fun s e => alloc_loop mm _ _ _ fuel b
    (set_scan (set_scan_off (set_scan st 0 0) ((k + 1) * memory_descriptor_size b)) s e))).
  destruct (region (desc_at k)) as [[s e]|] eqn:Hreg.
  - rewrite (region_scan _ _ s e Hreg).
    edestruct (IH (set_scan (set_scan_off (set_scan st 0 0) ((k + 1) * memory_descriptor_size b)) s e) (k + 1))
      as (p & st' & E & Hok' & Hst & Hp); [|lia|reflexivity|lia|].
    + assert (e + 4096 < 18446744073709551616).
      { apply (Hr (desc_at k) s e); [|done]. unfold descs. apply in_fmap. exists k.
        split; [done|]. apply list_elem_of_In, elem_of_seqZ. lia. }
      apply region_inv in Hreg.
      repeat split; try done; cbn; try lia. exists (k + 1). split; [lia|reflexivity].
    + rewrite E. exists p, st'. split; [done|]. split; [done|]. split; [done|].
      rewrite (todo_at _ (k + 1) s e) in Hp by done. exact Hp.
  - rewrite region_skip by done.
    edestruct (IH (set_scan_off (set_scan st 0 0) ((k + 1) * memory_descriptor_size b)) (k + 1))
      as (p & st' & E & Hok' & Hst & Hp); [|lia|reflexivity|lia|].
    + repeat split; try done; cbn; try lia. exists (k + 1). split; [lia|reflexivity].
    + rewrite E. exists p, st'. split; [done|]. split; [done|]. split; [done|].
      rewrite (todo_at _ (k + 1) 0 0) in Hp by done. exact Hp.
Qed.

(** ** Whole operations *)

Definition stack (st : pmm) : list Z := take (Z.to_nat (recycled_count st)) (recycled st).

Lemma stack_pop st p :
  len (recycled st) = PMM_RECYCLE_CAP -> 0 < recycled_count st <= PMM_RECYCLE_CAP ->
  rd (recycled st) (recycled_count st - 1) = Some p ->
  rev (stack st) = p :: rev (take (Z.to_nat (recycled_count st - 1)) (recycled st)).
Proof.
  intros Hl Hc [_ Hp]%rd_inv. unfold stack.
  replace (Z.to_nat (recycled_count st)) with (S (Z.to_nat (recycled_count st - 1))) by lia.
  rewrite (take_S_r _ _ p) by done. by rewrite rev_app_distr.
Qed.

Lemma pmm_alloc_page_spec st :
  pmm_ok st ->
  exists p st',
    pmm_alloc_page mm kernel_start kernel_end bi_addr st = Some (p, st') /\ pmm_ok st' /\
    total_pages_count st' = total_pages_count st /\
    match free_list st with
    | [] => p = 0 /\ free_list st' = [] /\ used_pages_count st' = used_pages_count st
    | x :: l => p = x /\ free_list st' = l /\
                used_pages_count st' = u64 (used_pages_count st + 1)
    end.
Proof.
  intros Hok. pose proof Hok as (Hbi & Hlen & Hcnt & (k & Hk & Hoff) & Hscan & Hused).
  unfold pmm_alloc_page, free_list. fold (stack st).
  destruct (Z.eqb_spec (recycled_count st) 0) as [H0|H0]; cbn [negb].
  - rewrite Hbi. destruct (Z.eqb_spec (memory_descriptor_size b) 0) as [E|_].
    { destruct Hmap. lia. }
    destruct (alloc_loop_spec (desc_fuel b) st k) as (p & st' & -> & Hok' & (E1 & E2 & E3) & H);
      [done|done|done|pose proof desc_fuel_enough; lia|].
    exists p, st'. split; [done|]. split; [done|]. split; [done|].
    unfold stack. rewrite E1, E2, H0. exact H.
  - destruct (rd_is_Some (recycled st) (recycled_count st - 1)) as [p Hp]; [lia|].
    rewrite (stack_pop st p), Hp by (done || lia). cbn [mbind option_bind app].
    pose proof (u64_range (used_pages_count st + 1)).
    eexists p, _. split; [reflexivity|]. split; [|done].
    repeat split; try done; cbn -[u64]; try lia. by exists k.
Qed.

(** [covers d p]: the page at [p] lies in the usable part of [d]. *)
Definition covers (p : Z) (d : EfiMemDesc) : bool :=
  match region d with Some (s, e) => (s <=? p) && (p + 4096 <=? e) | None => false end.

Lemma conventional_body_spec p d :
  0x01000000 <= p < 18446744073709551616 ->
  conventional_body p d tt = if covers p d then inr 1 else inl tt.
Proof.
  intros Hp. unfold conventional_body, covers, region. rewrite clamp_start.
  unfold PAGE_SIZE. cbv zeta. set (s := physical_start d).
  pose proof (u64_range (s + u64 (pages d * 4096))) as He.
  generalize dependent (u64 (s + u64 (pages d * 4096))). intros e He.
  assert (Hw : p + 4096 < 18446744073709551616 /\ u64 (p + 4096) = p + 4096 \/
    u64 (p + 4096) < p /\ e < p + 4096) by (unfold u64; zlia).
  destruct (type d =? 7), (pages d =? 0); cbn [negb orb andb]; try done.
  destruct (Z.ltb_spec e s), (Z.leb_spec s e); cbn [andb]; try lia; [done|].
  destruct (Z.ltb_spec (Z.max s 16777216) e), (Z.leb_spec (Z.max s 16777216) p),
    (Z.ltb_spec p (u64 (p + 4096))), (Z.leb_spec (u64 (p + 4096)) e),
    (Z.leb_spec (p + 4096) e); cbn [andb]; (done || lia).
Qed.

Lemma conventional_fold p l :
  0x01000000 <= p < 18446744073709551616 ->
  fold_descs (conventional_body p) l tt = if existsb (covers p) l then inr 1 else inl tt.
Proof.
  intros Hp. induction l as [|d l IH]; [done|]. cbn [fold_descs existsb].
  rewrite conventional_body_spec by done. destruct (covers p d); [done|exact IH].
Qed.

(** Pages the client may give back: page aligned, inside a usable region. *)
Definition conventional (p : Z) : bool :=
  (0x01000000 <=? p) && (p mod 4096 =? 0) && existsb (covers p) descs.

Lemma conventional_page_spec st p :
  g_bi st = Ptr b -> 0 <= p < 18446744073709551616 ->
  conventional_page mm st p = Some (if conventional p then 1 else 0).
Proof.
  intros Hbi Hp. unfold conventional_page, conventional. rewrite Hbi.
  destruct (Z.eqb_spec (memory_descriptor_size b) 0); [destruct Hmap; lia|].
  unfold PMM_MIN_ADDR, PAGE_SIZE. change (4096 - 1) with (Z.ones 12).
  rewrite Z.land_ones by lia. change (2 ^ 12) with 4096.
  destruct (Z.ltb_spec p 0x01000000), (Z.leb_spec 0x01000000 p); try lia; [done|].
  destruct (p mod 4096 =? 0); cbn [negb orb andb]; [|done].
  rewrite for_all_descriptors. cbn [mbind option_bind].
  rewrite conventional_fold by lia. by destruct (existsb _ _).
Qed.

Lemma in_recycled_spec n r i page :
  0 <= i -> i + Z.of_nat n <= len r ->
  in_recycled n r i page = Some (existsb (fun v => v =? page) (slice r i (Z.of_nat n))).
Proof.
  revert i. induction n as [|n IH]; intros i Hi Hl; [done|].
  cbn [in_recycled]. destruct (rd_is_Some r i) as [v Hv]; [lia|]. rewrite Hv.
  cbn [mbind option_bind]. apply rd_inv in Hv as [_ Hv].
  rewrite (slice_cons _ _ _ v) by (done || lia). cbn [existsb].
  replace (Z.of_nat (S n) - 1) with (Z.of_nat n) by lia.
  rewrite IH by lia. by destruct (v =? page).
Qed.

(** When [pmm_free_page] takes the page back. *)
Definition accepts (st : pmm) (page : Z) : bool :=
  negb (page =? 0) && negb (used_pages_count st =? 0) && conventional page
  && negb (is_reserved page) && (recycled_count st <? PMM_RECYCLE_CAP)
  && negb (existsb (fun v => v =? page) (stack st)).

Lemma pmm_free_page_spec st page :
  pmm_ok st -> 0 <= page < 18446744073709551616 ->
  exists st',
    pmm_free_page mm kernel_start kernel_end bi_addr st page
      = Some (if accepts st page then 1 else 0, st') /\ pmm_ok st' /\
    if accepts st page
    then free_list st' = page :: free_list st /\
         used_pages_count st' = used_pages_count st - 1 /\
         total_pages_count st' = total_pages_count st
    else st' = st.
Proof.
  intros Hok Hp. pose proof Hok as (Hbi & Hlen & Hcnt & Hoff & Hscan & Hused).
  unfold pmm_free_page, accepts.
  destruct (page =? 0), (Z.eqb_spec (used_pages_count st) 0); cbn [orb andb negb];
    try (exists st; by split).
  rewrite conventional_page_spec by done. cbn [mbind option_bind].
  rewrite is_reserved_eq by done.
  destruct (conventional page); cbn [orb andb negb Z.eqb]; [|exists st; by split].
  destruct (is_reserved page); cbn [orb andb negb]; [exists st; by split|].
  destruct (Z.leb_spec PMM_RECYCLE_CAP (recycled_count st)) as [Hc|Hc],
    (Z.ltb_spec (recycled_count st) PMM_RECYCLE_CAP); try lia; cbn [orb andb];
    [exists st; by split|].
  rewrite in_recycled_spec by lia. cbn [mbind option_bind].
  replace (slice (recycled st) 0 _) with (stack st)
    by (unfold stack, slice; rewrite Nat2Z.id, drop_0; done).
  destruct (existsb _ (stack st)); cbn [negb]; [exists st; by split|].
  rewrite wr_Some by lia. cbn [mbind option_bind].
  pose proof (u64_range (used_pages_count st - 1)).
  eexists. split; [reflexivity|]. split; [|split; [|split; [apply u64_id; lia|done]]].
  - repeat split; try done; cbn -[u64]; rewrite ?length_insert; (done || lia).
  - unfold free_list. cbn [recycled recycled_count set_used set_recycled].
    replace (Z.to_nat (recycled_count st + 1)) with (S (Z.to_nat (recycled_count st))) by lia.
    rewrite (take_S_r _ _ page) by (apply list_lookup_insert_eq; lia).
    rewrite take_insert_ge by lia. rewrite rev_app_distr. reflexivity.
Qed.

Lemma init_body_spec d total :
  init_body d total = inl (u64 (total + len (region_pages d))) \/
  init_body d total = inl total /\ region_pages d = [].
Proof.
  unfold init_body, region_pages. cbv zeta. rewrite clamp_start. unfold region, PAGE_SIZE.
  cbv zeta. set (s := physical_start d).
  generalize (u64 (s + u64 (pages d * 4096))). intros e. unfold PMM_MIN_ADDR.
  destruct (type d =? 7), (pages d =? 0); cbn [negb orb andb]; try by right.
  destruct (Z.ltb_spec e s), (Z.leb_spec s e); cbn [orb andb]; try lia; [by right|].
  destruct (Z.leb_spec e 0x01000000), (Z.ltb_spec (Z.max s 0x01000000) e);
    try lia; try by right.
  left. rewrite length_pages_in by lia. done.
Qed.

Lemma u64_add_l x y : u64 (u64 x + y) = u64 (x + y).
Proof. unfold u64. apply Zplus_mod_idemp_l. Qed.

Lemma init_fold l total :
  fold_descs init_body l (u64 total)
  = inl (u64 (total + len (concat (region_pages <$> l)))).
Proof.
  revert total. induction l as [|d l IH]; intros total.
  { cbn [fold_descs fmap list_fmap concat length]. by rewrite Z.add_0_r. }
  cbn [fold_descs fmap list_fmap concat]. rewrite length_app.
  destruct (init_body_spec d (u64 total)) as [->|[-> ->]].
  - rewrite u64_add_l, IH. f_equal. f_equal. lia.
  - rewrite IH. done.
Qed.

Lemma pmm_init_spec st0 :
  len (recycled st0) = PMM_RECYCLE_CAP ->
  exists st, pmm_init mm st0 (Ptr b) = Some st /\ pmm_ok st /\
    total_pages_count st = u64 (len all_pages) /\ used_pages_count st = 0 /\
    free_list st = available.
Proof.
  intros Hr. unfold pmm_init.
  destruct (Z.eqb_spec (memory_descriptor_size b) 0); [destruct Hmap; lia|].
  rewrite for_all_descriptors. rewrite (init_fold descs 0 : fold_descs _ _ 0 = _).
  rewrite Z.add_0_l. cbn [mbind option_bind].
  eexists. split; [reflexivity|]. pose proof desc_count_nonneg.
  split; [|split; [done|split; [done|]]].
  - repeat split; try done; cbn; try lia. exists 0. lia.
  - unfold free_list. rewrite (todo_at _ 0 0 0) by done. done.
Qed.

(** ** Ownership: a client that frees only what it was given *)

Definition regions_disjoint (d d' : EfiMemDesc) : Prop :=
  forall s e s' e', region d = Some (s, e) -> region d' = Some (s', e') -> e <= s' \/ e' <= s.

(** The firmware's map: no two usable descriptors overlap, and every usable
    region starts on a page boundary. *)
Definition map_partition : Prop :=
  ForallOrdPairs regions_disjoint descs /\
  (forall d s e, In d descs -> region d = Some (s, e) -> s mod 4096 = 0).

Inductive pmm_step : pmm * list Z -> pmm * list Z -> Prop :=
| step_alloc st held p st' :
    pmm_alloc_page mm kernel_start kernel_end bi_addr st = Some (p, st') -> p <> 0 ->
    pmm_step (st, held) (st', p :: held)
| step_alloc_none st held st' :
    pmm_alloc_page mm kernel_start kernel_end bi_addr st = Some (0, st') ->
    pmm_step (st, held) (st', held)
| step_free st held page held' st' :
    Permutation held (page :: held') ->
    pmm_free_page mm kernel_start kernel_end bi_addr st page = Some (1, st') ->
    pmm_step (st, held) (st', held')
| step_free_refused st held page st' :
    In page held ->
    pmm_free_page mm kernel_start kernel_end bi_addr st page = Some (0, st') ->
    pmm_step (st, held) (st', held).

(** States reached from the initial one by any such sequence of calls. *)
Definition pmm_reachable (x : pmm * list Z) : Prop :=
  exists st0 st, len (recycled st0) = PMM_RECYCLE_CAP /\ pmm_init mm st0 (Ptr b) = Some st /\
    rtc pmm_step (st, []) x.

Hypothesis Hpart : map_partition.

Lemma NoDup_pages_in r : NoDup (pages_in r).
Proof.
  unfold pages_in. apply NoDup_fmap_2; [|apply NoDup_seqZ].
  intros x y H. lia.
Qed.

Lemma NoDup_region_pages l :
  ForallOrdPairs regions_disjoint l -> NoDup (concat (region_pages <$> l)).
Proof.
  induction 1 as [|d l Hd Hl IH]; [constructor|].
  cbn [fmap list_fmap concat]. apply list.NoDup_app. split; [|split; [|exact IH]].
  { unfold region_pages. destruct (region d); [apply NoDup_pages_in|constructor]. }
  intros p Hp%list_elem_of_In (ps & (d' & <- & Hd')%in_fmap & Hp')%list_elem_of_In%in_concat.
  rewrite List.Forall_forall in Hd. specialize (Hd _ Hd'). unfold region_pages in *.
  destruct (region d) as [[s e]|] eqn:E; [|done].
  destruct (region d') as [[s' e']|] eqn:E'; [|done].
  apply elem_of_pages_in in Hp, Hp'. destruct (Hd _ _ _ _ E E'); lia.
Qed.

Lemma NoDup_all_pages : NoDup all_pages.
Proof. apply NoDup_region_pages, Hpart. Qed.

Lemma NoDup_bounded (l : list Z) n :
  0 <= n -> NoDup l -> (forall p, In p l -> 0 <= p < n) -> len l <= n.
Proof.
  intros Hn Hl Hp. rewrite <- (Z2Nat.id n) by done. apply Nat2Z.inj_le.
  rewrite <- (length_seqZ 0 n). apply NoDup_incl_length.
  { by apply NoDup_ListNoDup. }
  intros p H. apply list_elem_of_In, elem_of_seqZ. pose proof (Hp p H). lia.
Qed.

Lemma all_pages_count : len all_pages <= 18446744073709551615.
Proof.
  apply NoDup_bounded; [done|apply NoDup_all_pages|].
  intros p Hp%region_pages_bounds. lia.
Qed.

Lemma available_all p : In p available -> In p all_pages /\ is_reserved p = false.
Proof.
  unfold available, unreserved. rewrite filter_In. intros [? H]. bool_prop. done.
Qed.

Lemma NoDup_available : NoDup available.
Proof.
  unfold available, unreserved. apply NoDup_ListNoDup, List.NoDup_filter, NoDup_ListNoDup.
  apply NoDup_all_pages.
Qed.

Lemma available_count : len available <= len all_pages.
Proof. apply Nat2Z.inj_le, List.filter_length_le. Qed.

(** The invariant: what the client holds and what is free make up exactly the
    available pages. *)
Definition owns (st : pmm) (held : list Z) : Prop :=
  pmm_ok st /\ Permutation (held ++ free_list st) available /\
  used_pages_count st = len held /\ total_pages_count st = len all_pages.

Lemma owns_held st held :
  owns st held -> len held + len (free_list st) <= 18446744073709551615.
Proof.
  intros (_ & HP & _). apply Permutation_length in HP. rewrite length_app in HP.
  pose proof available_count. pose proof all_pages_count. lia.
Qed.

Lemma owns_page st held p :
  owns st held -> In p held -> In p available /\ ~ In p (free_list st).
Proof.
  intros (_ & HP & _) Hp. split.
  - apply (Permutation_in p HP), in_app_iff. by left.
  - intros Hf. pose proof NoDup_available as Hnd. rewrite <- HP in Hnd.
    apply list.NoDup_app in Hnd as (_ & Hd & _).
    apply (Hd p); by apply list_elem_of_In.
Qed.

Lemma owns_alloc st held p st' :
  owns st held -> pmm_alloc_page mm kernel_start kernel_end bi_addr st = Some (p, st') ->
  if p =? 0 then free_list st = [] /\ owns st' held
  else In p (free_list st) /\ owns st' (p :: held).
Proof.
  intros Ho E. pose proof (owns_held _ _ Ho) as Hcount.
  pose proof Ho as (Hok & HP & Hu & Ht).
  destruct (pmm_alloc_page_spec st Hok) as (p' & st'' & E' & Hok' & Ht' & H).
  rewrite E in E'. injection E' as <- <-.
  destruct (free_list st) as [|x l] eqn:Hfree.
  - destruct H as (-> & Hf & Hu'). cbn [Z.eqb]. split; [done|].
    split; [done|]. rewrite Hf, Hu', Ht'. done.
  - destruct H as (-> & Hf & Hu').
    assert (Hx : In x available).
    { apply (Permutation_in x HP), in_app_iff. right. by left. }
    apply available_all in Hx as [Hx%region_pages_bounds _].
    destruct (Z.eqb_spec x 0); [lia|]. split; [by left|]. split; [done|].
    rewrite Hf, Hu', Ht', Hu. cbn [length] in Hcount |- *. split; [|split; [|done]].
    + rewrite <- HP. apply Permutation_middle.
    + rewrite u64_id by lia. lia.
Qed.

Lemma owns_free st held page held' st' r :
  owns st held -> Permutation held (page :: held') ->
  pmm_free_page mm kernel_start kernel_end bi_addr st page = Some (r, st') ->
  if r =? 1 then free_list st' = page :: free_list st /\ owns st' held' else owns st' held.
Proof.
  intros Ho Hperm E. pose proof Ho as (Hok & HP & Hu & Ht).
  assert (Hp : In page all_pages).
  { apply available_all, (owns_page st held page Ho).
    rewrite Hperm. by left. }
  apply region_pages_bounds in Hp.
  destruct (pmm_free_page_spec st page Hok) as (st'' & E' & Hok' & H); [lia|].
  rewrite E in E'. injection E' as -> <-.
  destruct (accepts st page); cbn [Z.eqb].
  - destruct H as (Hf & Hu' & Ht'). split; [done|]. split; [done|].
    rewrite Hf, Hu', Ht', Hu, Hperm. cbn [length]. split; [|split; [lia|done]].
    rewrite <- Permutation_middle, app_comm_cons, <- Hperm. done.
  - by subst st'.
Qed.

Lemma reachable_owns st held : pmm_reachable (st, held) -> owns st held.
Proof.
  intros (st0 & st1 & Hr & Hi & Hsteps).
  assert (H1 : owns st1 []).
  { destruct (pmm_init_spec st0 Hr) as (st' & E & Hok & Ht & Hu & Hf).
    rewrite E in Hi. injection Hi as ->.
    split; [done|]. rewrite Ht, Hu, Hf. split; [done|]. split; [done|].
    pose proof all_pages_count. apply u64_id. lia. }
  clear Hi. remember (st1, @nil Z) as x eqn:Hx. remember (st, held) as y eqn:Hy.
  revert st1 H1 Hx Hy. set (h := @nil Z). generalize h. clear h.
  induction Hsteps as [x|x z y Hstep Hsteps IH]; intros h st1 H1 Hx Hy.
  { rewrite Hx in Hy. by injection Hy as <- <-. }
  subst x. inversion Hstep as [s h' p st' E Hne|s h' st' E|s h' page held' st' Hperm E
                              |s h' page st' Hin E]; subst.
  - apply (IH (p :: h) st'); try done.
    pose proof (owns_alloc _ _ _ _ H1 E) as Ho. destruct (Z.eqb_spec p 0); [done|]. apply Ho.
  - apply (IH h st'); try done. apply (owns_alloc _ _ _ _ H1 E).
  - apply (IH held' st'); try done. apply (owns_free _ _ _ _ _ _ H1 Hperm E).
  - destruct (in_split _ _ Hin) as (h1 & h2 & ->).
    apply (IH (h1 ++ page :: h2) st'); try done.
    apply (owns_free _ _ page (h1 ++ h2) _ 0 H1); [|done].
    symmetry. apply Permutation_middle.
Qed.
End spec.

(** ** Properties *)

(** [n] calls of [pmm_alloc_page] in a row, and their results. *)
Fixpoint alloc_n (mm : bytes) (kernel_start kernel_end bi_addr : Z) (n : nat) (st : pmm)
  : option (list Z * pmm) :=
  match n with
  | O => Some ([], st)
  | S n' =>
      '(p, st) ← pmm_alloc_page mm kernel_start kernel_end bi_addr st;
      '(l, st) ← alloc_n mm kernel_start kernel_end bi_addr n' st;
      Some (p :: l, st)
  end.

Lemma alloc_n_spec mm ks ke ba b n st :
  map_ok mm b -> pmm_ok b st ->
  exists st', alloc_n mm ks ke ba n st
    = Some (take n (free_list mm ks ke ba b st)
            ++ replicate (n - length (free_list mm ks ke ba b st)) 0, st') /\
    total_pages_count st' = total_pages_count st.
Proof.
  intros Hmap. revert st. induction n as [|n IH]; intros st Hok.
  { exists st. by rewrite take_0. }
  cbn [alloc_n].
  destruct (pmm_alloc_page_spec mm ks ke ba b Hmap st Hok)
    as (p & st1 & -> & Hok1 & Ht & H). cbn [mbind option_bind].
  destruct (IH st1 Hok1) as (st2 & -> & Ht2). cbn [mbind option_bind].
  exists st2. split; [|congruence].
  destruct (free_list mm ks ke ba b st) as [|x l]; destruct H as (-> & -> & _).
  - rewrite !take_nil. by rewrite Nat.sub_0_r.
  - done.
Qed.

(** C5. The allocator initialised from any firmware map that fits its
    announced size terminates and is safe on every call, and a sequence of
    allocations hands out exactly the usable pages that are not reserved, in
    the order of the map, each in its turn, and 0 from the moment they are
    exhausted; the total it reports is the number of usable pages (modulo
    2^64). *)
Theorem pmm_alloc_sequence mm ks ke ba b st0 :
  map_ok mm b -> len (recycled st0) = PMM_RECYCLE_CAP ->
  exists st, pmm_init mm st0 (Ptr b) = Some st /\
    pmm_total_pages st = u64 (len (all_pages mm b)) /\ pmm_used_pages st = 0 /\
    forall n, exists st', alloc_n mm ks ke ba n st
      = Some (take n (available mm ks ke ba b)
              ++ replicate (n - length (available mm ks ke ba b)) 0, st').
Proof.
  intros Hmap Hr.
  destruct (pmm_init_spec mm ks ke ba b Hmap st0 Hr) as (st & E & Hok & Ht & Hu & Hf).
  exists st. split; [exact E|]. split; [exact Ht|]. split; [exact Hu|]. intros n.
  destruct (alloc_n_spec mm ks ke ba b n st Hmap Hok) as (st' & H & _).
  rewrite Hf in H. by exists st'.
Qed.

(** C2. Conservation, in every state a client reaches that only gives back
    pages it holds: the pages it holds and the free pages are together
    exactly the usable unreserved pages, each once (so no page is ever owned
    twice, lost or invented); [pmm_used_pages] counts the pages it holds, and
    [pmm_free_pages] the free pages plus the reserved ones. *)
Theorem pmm_conservation mm ks ke ba b st held :
  map_ok mm b -> map_partition mm b -> pmm_reachable mm ks ke ba b (st, held) ->
  Permutation (held ++ free_list mm ks ke ba b st) (available mm ks ke ba b) /\
  NoDup (held ++ free_list mm ks ke ba b st) /\
  pmm_used_pages st = len held /\
  pmm_total_pages st = len (all_pages mm b) /\
  pmm_free_pages st = len (all_pages mm b) - len held.
Proof.
  intros Hmap Hpart Hreach.
  pose proof (reachable_owns mm ks ke ba b Hmap Hpart st held Hreach) as (Hok & HP & Hu & Ht).
  split; [exact HP|]. split; [rewrite HP; by apply NoDup_available|].
  split; [exact Hu|]. split; [exact Ht|].
  pose proof (all_pages_count mm b Hmap Hpart).
  pose proof (available_count mm ks ke ba b).
  apply Permutation_length in HP. rewrite length_app in HP.
  unfold pmm_free_pages. rewrite Hu, Ht.
  destruct (Z.ltb_spec (len held) (len (all_pages mm b))); [apply u64_id; lia|lia].
Qed.

(** A page the client holds is always taken back while the recycle stack
    has room (and refused, with nothing changed, when it is full), and the
    next allocation returns that very page. *)
Theorem pmm_free_then_alloc mm ks ke ba b st held page :
  map_ok mm b -> map_partition mm b -> pmm_reachable mm ks ke ba b (st, held) ->
  In page held ->
  if recycled_count st <? PMM_RECYCLE_CAP then
    exists st' st'', pmm_free_page mm ks ke ba st page = Some (1, st') /\
      pmm_used_pages st' = pmm_used_pages st - 1 /\
      pmm_alloc_page mm ks ke ba st' = Some (page, st'') /\
      free_list mm ks ke ba b st'' = free_list mm ks ke ba b st
  else pmm_free_page mm ks ke ba st page = Some (0, st).
Proof.
  intros Hmap Hpart Hreach Hin.
  pose proof (reachable_owns mm ks ke ba b Hmap Hpart st held Hreach) as Ho.
  destruct (owns_page mm ks ke ba b Hpart st held page Ho Hin) as [Hav Hnf].
  destruct Ho as (Hok & HP & Hu & Ht).
  apply available_all in Hav as [Hall Hres].
  pose proof (region_pages_bounds mm b Hmap page Hall) as Hb.
  assert (Hacc : accepts mm ks ke ba b st page = (recycled_count st <? PMM_RECYCLE_CAP)).
  { unfold accepts, conventional. rewrite Hres, Hu.
    replace (page =? 0) with false by (symmetry; apply Z.eqb_neq; lia).
    replace (len held =? 0) with false
      by (symmetry; apply Z.eqb_neq; destruct held; [destruct Hin|cbn; lia]).
    replace (0x01000000 <=? page) with true by (symmetry; apply Z.leb_le; lia).
    unfold all_pages in Hall.
    apply in_concat in Hall as (ps & (d & <- & Hd)%in_fmap & Hp).
    unfold region_pages in Hp. destruct (region d) as [[s e]|] eqn:E; [|destruct Hp].
    apply elem_of_pages_in in Hp as (H1 & H2 & H3).
    pose proof (proj2 Hpart d s e Hd E) as Hs.
    replace (page mod 4096 =? 0) with true by (symmetry; apply Z.eqb_eq; zlia).
    replace (existsb (covers page) (descs mm b)) with true.
    2: { symmetry. apply existsb_exists. exists d. split; [done|]. unfold covers. rewrite E.
         apply andb_true_intro. split; apply Z.leb_le; lia. }
    replace (existsb _ (stack st)) with false; [by rewrite andb_true_r|].
    symmetry. apply not_true_is_false. intros (v & Hv & ->%Z.eqb_eq)%existsb_exists.
    apply Hnf, in_app_iff. left. by apply in_rev in Hv. }
  destruct (pmm_free_page_spec mm ks ke ba b Hmap st page Hok) as (st' & E & Hok' & H); [lia|].
  rewrite Hacc in E, H. destruct (recycled_count st <? PMM_RECYCLE_CAP); [|by subst st'].
  destruct H as (Hf & Hu' & _).
  destruct (pmm_alloc_page_spec mm ks ke ba b Hmap st' Hok') as (p & st'' & E' & _ & _ & H).
  rewrite Hf in H. destruct H as (-> & Hf' & _).
  exists st', st''. by repeat split.
Qed.

(** [p, p + 4096) does not meet [a0, a1). *)
Definition apart (p a0 a1 : Z) : Prop := p + 4096 <= a0 \/ a1 <= p.

Lemma overlap_apart p a0 a1 :
  0 <= p -> p + 4096 < 18446744073709551616 ->
  overlap p (u64 (p + PAGE_SIZE)) a0 a1 = false -> apart p a0 a1.
Proof.
  intros H0 H1. unfold overlap, apart, PAGE_SIZE. rewrite u64_id by lia.
  intros [H|H]%andb_false_iff; bool_prop; lia.
Qed.

Lemma is_reserved_apart ks ke ba b p :
  0 <= p -> p + 4096 < 18446744073709551616 ->
  is_reserved ks ke ba b p = false ->
  apart p ks ke /\ apart p ba (u64 (ba + 64)) /\
  apart p (memory_map b) (u64 (memory_map b + memory_map_size b)) /\
  apart p (framebuffer_base b) (u64 (framebuffer_base b + framebuffer_size b)).
Proof.
  intros H0 H1. unfold is_reserved, reserved. cbn [g_bi].
  case_if; [done|]. case_if; [done|]. case_if; [done|]. intros E2.
  repeat split; by apply overlap_apart.
Qed.

Lemma desc_fields mm b d :
  bytes_ok mm -> In d (descs mm b) -> 0 <= physical_start d /\ 0 <= pages d.
Proof.
  intros Hb (k & <- & _)%in_fmap. unfold desc_at.
  destruct (read_desc mm (k * memory_descriptor_size b)) as [d|] eqn:E; cbn [default id];
    [|cbn; lia].
  unfold read_desc in E.
  repeat match type of E with
  | mbind _ ?x = Some _ =>
      let F := fresh "F" in destruct x eqn:F; [|discriminate E];
      apply (load_le_range _ _ _ _ Hb) in F; cbn [mbind option_bind] in E
  end.
  injection E as <-. cbn [physical_start pages]. lia.
Qed.

(** Every page a client can hold is safe to use: page aligned, at 16 MB or
    above, inside the extent of a descriptor of type 7 (conventional memory),
    and disjoint from the kernel image, the boot information, the memory map
    itself and the framebuffer. *)
Theorem pmm_pages_usable mm ks ke ba b st held p :
  bytes_ok mm -> map_ok mm b -> map_partition mm b ->
  pmm_reachable mm ks ke ba b (st, held) -> In p held ->
  p mod 4096 = 0 /\ 0x01000000 <= p /\
  (exists d, In d (descs mm b) /\ type d = 7 /\
     physical_start d <= p /\ p + 4096 <= physical_start d + pages d * 4096) /\
  apart p ks ke /\ apart p ba (u64 (ba + 64)) /\
  apart p (memory_map b) (u64 (memory_map b + memory_map_size b)) /\
  apart p (framebuffer_base b) (u64 (framebuffer_base b + framebuffer_size b)).
Proof.
  intros Hb Hmap Hpart Hreach Hin.
  pose proof (reachable_owns mm ks ke ba b Hmap Hpart st held Hreach) as Ho.
  destruct (owns_page mm ks ke ba b Hpart st held p Ho Hin) as [Hav _].
  apply available_all in Hav as [Hall Hres].
  pose proof (region_pages_bounds mm b Hmap p Hall) as Hp.
  unfold all_pages in Hall. apply in_concat in Hall as (ps & (d & <- & Hd)%in_fmap & Hp').
  unfold region_pages in Hp'. destruct (region d) as [[s e]|] eqn:E; [|destruct Hp'].
  apply elem_of_pages_in in Hp' as (H1 & H2 & H3).
  pose proof (proj2 Hpart d s e Hd E) as Hs.
  destruct (desc_fields mm b d Hb Hd) as [F1 F2].
  apply region_inv in E as (R1 & R2 & R3 & R4 & R5).
  split; [zlia|]. split; [lia|]. split; [|apply is_reserved_apart; (done || lia)].
  exists d. repeat split; try done; [lia|].
  assert (e <= physical_start d + pages d * 4096); [|lia].
  subst e. unfold u64. zlia.
Qed.

(** ** A concrete machine: 8 pages at 16 MB, the third under the framebuffer,
    one descriptor of another type, and 2 pages that straddle nothing. *)

Module Smoke.

Fixpoint le (n : nat) (v : Z) : bytes :=
  match n with O => [] | S n' => v mod 256 :: le n' (v / 256) end.

Definition descriptor (t start n : Z) : bytes :=
  le 4 t ++ le 4 0 ++ le 8 start ++ le 8 0 ++ le 8 n ++ le 8 0.

Definition mm : bytes :=
  descriptor 7 0x01000000 8 ++ descriptor 11 0x02000000 8 ++ descriptor 7 0x03000000 2.

Definition bi : OrionBootInfo :=
  mk_bootinfo 0x01002000 4096 32 32 32 1 0x9000 120 40 1.

Definition ks : Z := 0x100000.
Definition ke : Z := 0x180000.
Definition ba : Z := 0x8000.

Definition boot : pmm := mk_pmm Null 0 0 0 0 0 (replicate 1024 0) 0.

Definition st0 : pmm := mk_pmm (Ptr bi) 10 0 0 0 0 (replicate 1024 0) 0.

Definition st2 : pmm :=
  mk_pmm (Ptr bi) 10 2 40 0x01002000 0x01008000 (replicate 1024 0) 0.

Definition held : list Z := [0x01001000; 0x01000000].

Lemma map_is_ok : map_ok mm bi.
Proof.
  split; [reflexivity|]. split; [discriminate|]. split; [reflexivity|].
  split; [reflexivity|]. intros d s e Hd.
  replace (descs mm bi) with [mk_desc 7 0 0x01000000 0 8 0; mk_desc 11 0 0x02000000 0 8 0;
    mk_desc 7 0 0x03000000 0 2 0] in Hd by (vm_compute; reflexivity).
  destruct Hd as [<-|[<-|[<-|[]]]]; intros E; vm_compute in E;
    (discriminate E || (injection E as <- <-; lia)).
Qed.

Lemma map_is_partition : map_partition mm bi.
Proof.
  assert (E : descs mm bi = [mk_desc 7 0 0x01000000 0 8 0; mk_desc 11 0 0x02000000 0 8 0;
    mk_desc 7 0 0x03000000 0 2 0]) by (vm_compute; reflexivity).
  split.
  - rewrite E. repeat first [apply FOP_cons | apply FOP_nil | apply Forall_cons_2
                             | apply Forall_nil_2].
    all: intros x e x' e' H H'; vm_compute in H; vm_compute in H'.
    all: try discriminate H; try discriminate H'.
    injection H as <- <-. injection H' as <- <-. lia.
  - intros d s e Hd. rewrite E in Hd.
    destruct Hd as [<-|[<-|[<-|[]]]]; intros H; vm_compute in H;
      (discriminate H || (injection H as <- <-; reflexivity)).
Qed.

Lemma reached : pmm_reachable mm ks ke ba bi (st2, held).
Proof.
  exists boot, st0. split; [reflexivity|]. split; [vm_compute; reflexivity|].
  eapply rtc_l.
  { apply (step_alloc _ _ _ _ st0 [] 0x01000000
      (mk_pmm (Ptr bi) 10 1 40 0x01001000 0x01008000 (replicate 1024 0) 0));
      [vm_compute; reflexivity|discriminate]. }
  apply rtc_once.
  apply (step_alloc _ _ _ _ _ _ 0x01001000); [vm_compute; reflexivity|discriminate].
Qed.

Lemma pmm_alloc_sequence_witness :
  exists st, pmm_init mm boot (Ptr bi) = Some st /\
    exists st', alloc_n mm ks ke ba 11 st
      = Some ([0x01000000; 0x01001000; 0x01003000; 0x01004000; 0x01005000; 0x01006000;
               0x01007000; 0x03000000; 0x03001000; 0; 0], st').
Proof.
  destruct (pmm_alloc_sequence mm ks ke ba bi boot map_is_ok) as (st & E & _ & _ & H).
  { reflexivity. }
  exists st. split; [exact E|]. destruct (H 11%nat) as (st' & E').
  exists st'. rewrite E'. vm_compute. reflexivity.
Defined.

Lemma pmm_conservation_witness :
  pmm_used_pages st2 = 2 /\ pmm_free_pages st2 = 8 /\
  NoDup (held ++ free_list mm ks ke ba bi st2).
Proof.
  destruct (pmm_conservation mm ks ke ba bi st2 held map_is_ok map_is_partition reached)
    as (_ & H & Hu & _ & Hf).
  split; [exact Hu|]. split; [exact Hf|exact H].
Defined.

Lemma pmm_free_then_alloc_witness :
  exists st' st'', pmm_free_page mm ks ke ba st2 0x01000000 = Some (1, st') /\
    pmm_alloc_page mm ks ke ba st' = Some (0x01000000, st'').
Proof.
  pose proof (pmm_free_then_alloc mm ks ke ba bi st2 held 0x01000000
    map_is_ok map_is_partition reached (or_intror (or_introl eq_refl))) as H.
  change (recycled_count st2 <? PMM_RECYCLE_CAP) with true in H. cbv iota in H.
  destruct H as (st' & st'' & E & _ & E' & _). exists st', st''. split; [exact E|exact E'].
Defined.

Lemma pmm_pages_usable_witness :
  apart 0x01001000 (framebuffer_base bi) (u64 (framebuffer_base bi + framebuffer_size bi)) /\
  0x01001000 mod 4096 = 0.
Proof.
  destruct (pmm_pages_usable mm ks ke ba bi st2 held 0x01001000)
    as (H & _ & _ & _ & _ & _ & Hf).
  { apply bytes_okb_spec. vm_compute. reflexivity. }
  { exact map_is_ok. }
  { exact map_is_partition. }
  { exact reached. }
  { left. reflexivity. }
  split; [exact Hf|exact H].
Defined.

(** Outside the discipline of [pmm_step]: a page that was never handed out,
    ahead of the scan, is accepted by [pmm_free_page] as soon as one page is in
    use, and then handed out twice. *)
Definition free_then_two (page : Z) : option (list Z) :=
  '(r, st) ← pmm_free_page mm ks ke ba st2 page;
  '(l, _) ← alloc_n mm ks ke ba 3 st;
  Some (r :: l).

Example unallocated_free_accepted :
  free_then_two 0x01004000 = Some [1; 0x01004000; 0x01003000; 0x01004000].
Proof. vm_compute. reflexivity. Qed.

End Smoke.
