(* ===== verification/Uefi.v ===== *)
(** * The firmware interface of boot/main.c

    The boot loader runs on UEFI services and the efilib routines, which are
    not part of the repository: they are the fields of [firmware], functions on
    an abstract state of the machine.  The loader itself is written in a state
    monad over that state; [None] is undefined behaviour or a loop out of fuel.

    Status codes and the page arithmetic are those of the UEFI specification. *)

From S2P Require Import Prelude Pmm.

(** ** The monad *)

Definition st (W A : Type) : Type := W -> option (A * W).

#[global] Instance st_ret W : MRet (st W) := fun A a w => Some (a, w).
#[global] Instance st_bind W : MBind (st W) := fun A B f m w =>
  match m w with Some (a, w') => f a w' | None => None end.

(** A firmware call, and a checked memory access. *)
Definition call {W A} (f : W -> A * W) : st W A := fun w => Some (f w).
Definition lift {W A} (o : option A) : st W A := fun w => a ← o; Some (a, w).

Lemma st_bind_eq {W A B} (m : st W A) (f : A -> st W B) w :
  (m ≫= f) w = match m w with Some (a, w') => f a w' | None => None end.
Proof. reflexivity. Qed.

Lemma call_bind {W A B} (g : W -> A * W) (f : A -> st W B) w :
  (call g ≫= f) w = f (fst (g w)) (snd (g w)).
Proof. rewrite st_bind_eq. unfold call. by destruct (g w). Qed.

Lemma lift_bind {W A B} (a : A) (f : A -> st W B) w : (lift (Some a) ≫= f) w = f a w.
Proof. reflexivity. Qed.

Lemma st_bind_inv {W A B} (m : st W A) (f : A -> st W B) w r :
  (m ≫= f) w = Some r -> exists a w', m w = Some (a, w') /\ f a w' = Some r.
Proof. rewrite st_bind_eq. destruct (m w) as [[a w']|]; [eauto|done]. Qed.

Lemma mret_inv {W A} (a b : A) (w w' : W) :
  (mret a : st W A) w = Some (b, w') -> b = a /\ w' = w.
Proof. by intros [= <- <-]. Qed.

(** ** Types of the UEFI specification *)

Definition EFI_STATUS : Type := Z.
Definition EFI_HANDLE : Type := Z.

Definition EFI_SUCCESS : EFI_STATUS := 0.
Definition EFIERR (n : Z) : EFI_STATUS := 9223372036854775808 + n.
Definition EFI_LOAD_ERROR : EFI_STATUS := EFIERR 1.
Definition EFI_INVALID_PARAMETER : EFI_STATUS := EFIERR 2.
Definition EFI_UNSUPPORTED : EFI_STATUS := EFIERR 3.
Definition EFI_BUFFER_TOO_SMALL : EFI_STATUS := EFIERR 5.
Definition EFI_NOT_FOUND : EFI_STATUS := EFIERR 14.

Definition EFI_ERROR (s : EFI_STATUS) : bool := 9223372036854775808 <=? s.

Definition EFI_SIZE_TO_PAGES (n : Z) : Z :=
  Z.shiftr n 12 + (if Z.land n 4095 =? 0 then 0 else 1).

Record EFI_BLOCK_IO_MEDIA := mk_media {
  MediaId : Z;
  MediaPresent : bool;
  LogicalPartition : bool;
  ReadOnly : bool;
  BlockSize : Z;
  LastBlock : Z
}.

(** A protocol instance: which device it drives, and its media. *)
Record EFI_BLOCK_IO_PROTOCOL := mk_bio {
  bio_device : Z;
  Media : ptr EFI_BLOCK_IO_MEDIA
}.

Record EFI_LOADED_IMAGE := mk_image { DeviceHandle : EFI_HANDLE }.

Record EFI_GRAPHICS_MODE_INFO := mk_gop_info {
  HorizontalResolution : Z;
  VerticalResolution : Z;
  PixelsPerScanLine : Z;
  PixelFormat : Z
}.

Definition PixelBltOnly : Z := 3.

Record EFI_GRAPHICS_MODE := mk_gop_mode {
  Info : ptr EFI_GRAPHICS_MODE_INFO;
  FrameBufferBase : Z;
  FrameBufferSize : Z
}.

(** What [GetMemoryMap] reports: size of the map, key, size and version of a
    descriptor. *)
Record memory_map_info := mk_map_info {
  map_size : Z;
  map_key : Z;
  desc_size : Z;
  desc_version : Z
}.

(** The services the loader calls; [W] is the state of the machine. *)
Record firmware (W : Type) := {
  HandleProtocol_LoadedImage : EFI_HANDLE -> W -> (EFI_STATUS * ptr EFI_LOADED_IMAGE) * W;
  HandleProtocol_BlockIo : EFI_HANDLE -> W -> (EFI_STATUS * ptr EFI_BLOCK_IO_PROTOCOL) * W;
  HandleProtocol_FileSystem : EFI_HANDLE -> W -> (EFI_STATUS * ptr Z) * W;
  LocateHandleBuffer_BlockIo : W -> (EFI_STATUS * Z * list EFI_HANDLE) * W;
  LocateProtocol_Gop : W -> (EFI_STATUS * ptr (ptr EFI_GRAPHICS_MODE)) * W;
  AllocatePool : Z -> W -> (EFI_STATUS * Z) * W;
  FreePool : Z -> W -> unit * W;
  AllocatePages : Z -> Z -> W -> EFI_STATUS * W;
  CreateEvent : W -> (EFI_STATUS * Z) * W;
  SetTimer : Z -> Z -> W -> EFI_STATUS * W;
  CloseEvent : Z -> W -> unit * W;
  WaitForEvent : Z -> W -> (EFI_STATUS * Z) * W;
  ReadKeyStroke : W -> (EFI_STATUS * Z) * W;
  ReadBlocks : EFI_BLOCK_IO_PROTOCOL -> Z -> Z -> Z -> W -> (EFI_STATUS * bytes) * W;
  WriteBlocks : EFI_BLOCK_IO_PROTOCOL -> Z -> Z -> Z -> bytes -> W -> EFI_STATUS * W;
  FlushBlocks : EFI_BLOCK_IO_PROTOCOL -> W -> EFI_STATUS * W;
  OpenVolume : ptr Z -> W -> (EFI_STATUS * Z) * W;
  Open_kernel_elf : Z -> W -> (EFI_STATUS * Z) * W;
  GetInfo_size : Z -> W -> (EFI_STATUS * Z) * W;
  GetInfo : Z -> Z -> W -> (EFI_STATUS * Z) * W;
  Read_file : Z -> Z -> W -> (EFI_STATUS * Z * bytes) * W;
  GetMemoryMap : Z -> W -> (EFI_STATUS * memory_map_info) * W;
  ExitBootServices : EFI_HANDLE -> Z -> W -> EFI_STATUS * W;
  CopyMem : Z -> bytes -> W -> unit * W;
  SetMem : Z -> Z -> Z -> W -> unit * W;
  Print : W -> unit * W
}.
Arguments HandleProtocol_LoadedImage {W}.
Arguments HandleProtocol_BlockIo {W}.
Arguments HandleProtocol_FileSystem {W}.
Arguments LocateHandleBuffer_BlockIo {W}.
Arguments LocateProtocol_Gop {W}.
Arguments AllocatePool {W}.
Arguments FreePool {W}.
Arguments AllocatePages {W}.
Arguments CreateEvent {W}.
Arguments SetTimer {W}.
Arguments CloseEvent {W}.
Arguments WaitForEvent {W}.
Arguments ReadKeyStroke {W}.
Arguments ReadBlocks {W}.
Arguments WriteBlocks {W}.
Arguments FlushBlocks {W}.
Arguments OpenVolume {W}.
Arguments Open_kernel_elf {W}.
Arguments GetInfo_size {W}.
Arguments GetInfo {W}.
Arguments Read_file {W}.
Arguments GetMemoryMap {W}.
Arguments ExitBootServices {W}.
Arguments CopyMem {W}.
Arguments SetMem {W}.
Arguments Print {W}.

(** ** Page arithmetic *)

Lemma size_to_pages n :
  0 <= n -> EFI_SIZE_TO_PAGES n * 4096 - 4096 < n <= EFI_SIZE_TO_PAGES n * 4096.
Proof.
  intros Hn. unfold EFI_SIZE_TO_PAGES. change 4095 with (Z.ones 12).
  rewrite Z.shiftr_div_pow2, Z.land_ones by lia. change (2 ^ 12) with 4096.
  destruct (Z.eqb_spec (n mod 4096) 0); zlia.
Qed.

(** ** What the installer relies on

    [disk w d] is the contents of the device [d], [keys w] the keystrokes
    delivered so far, [bio_at h] the block device behind a handle.  The laws
    are those the specification states: a read returns the contents at the
    block address, a write replaces them, and no other service touches a disk
    or consumes a keystroke. *)

Definition media_wf (m : EFI_BLOCK_IO_MEDIA) : Prop :=
  0 <= BlockSize m < 4294967296 /\ 0 <= LastBlock m < 18446744073709551616.

Definition bio_wf (p : ptr EFI_BLOCK_IO_PROTOCOL) : Prop :=
  forall b m, p = Ptr b -> Media b = Ptr m -> media_wf m.

Class UefiMachine {W : Type} (F : firmware W) := {
  disk : W -> Z -> bytes;
  keys : W -> list Z;
  bio_at : EFI_HANDLE -> EFI_STATUS * ptr EFI_BLOCK_IO_PROTOCOL;
  (** nothing observable changes *)
  quiet : W -> W -> Prop := fun w w' => (forall d, disk w' d = disk w d) /\ keys w' = keys w;
  law_image h w : quiet w (snd (HandleProtocol_LoadedImage F h w));
  law_bio h w : fst (HandleProtocol_BlockIo F h w) = bio_at h /\
                quiet w (snd (HandleProtocol_BlockIo F h w));
  law_bio_wf h : bio_wf (snd (bio_at h));
  law_handles w : quiet w (snd (LocateHandleBuffer_BlockIo F w));
  law_alloc n w : quiet w (snd (AllocatePool F n w));
  law_free p w : quiet w (snd (FreePool F p w));
  law_event w : quiet w (snd (CreateEvent F w));
  law_timer e n w : quiet w (snd (SetTimer F e n w));
  law_close e w : quiet w (snd (CloseEvent F e w));
  law_wait e w : quiet w (snd (WaitForEvent F e w));
  law_print w : quiet w (snd (Print F w));
  law_flush b w : quiet w (snd (FlushBlocks F b w));
  law_key w :
    let r := ReadKeyStroke F w in
    (forall d, disk (snd r) d = disk w d) /\
    keys (snd r) = keys w ++ (if EFI_ERROR (fst (fst r)) then [] else [snd (fst r)]);
  law_read b m i lba n w :
    Media b = Ptr m ->
    let r := ReadBlocks F b i lba n w in
    quiet w (snd r) /\
    (EFI_ERROR (fst (fst r)) = false -> 0 <= lba -> 0 <= n ->
     n mod BlockSize m = 0 -> lba * BlockSize m + n <= len (disk w (bio_device b)) ->
     snd (fst r) = slice (disk w (bio_device b)) (lba * BlockSize m) n);
  law_write b m i lba n data w :
    Media b = Ptr m ->
    let r := WriteBlocks F b i lba n data w in
    keys (snd r) = keys w /\
    (forall d, d <> bio_device b -> disk (snd r) d = disk w d) /\
    (EFI_ERROR (fst r) = false -> 0 <= lba -> n = len data ->
     n mod BlockSize m = 0 -> lba * BlockSize m + n <= len (disk w (bio_device b)) ->
     disk (snd r) (bio_device b) = blit (disk w (bio_device b)) (lba * BlockSize m) data)
}.

Section machine.
Context {W : Type} (F : firmware W) `{!UefiMachine F}.

#[export] Instance quiet_preorder : PreOrder quiet.
Proof.
  split; [by intros w|].
  intros w1 w2 w3 [H1 K1] [H2 K2]. split; [intros d; by rewrite H2|congruence].
Qed.
End machine.
