(* ===== verification/BootInstall.v ===== *)
(** * boot/main.c: the installer

    The choice of the target disk, the copy of the medium, the keyboard prompt
    and the installation dialogue, over the firmware interface of Uefi. *)

From S2P Require Import Prelude Uefi.

Definition ORION_INSTALL_CHUNK : Z := 64 * 1024.

Section install.
Context {W : Type} (F : firmware W).

Definition get_loaded_image (image : EFI_HANDLE) : st W (EFI_STATUS * ptr EFI_LOADED_IMAGE) :=
  call (HandleProtocol_LoadedImage F image).

Definition read_key_with_timeout (seconds : Z) : st W Z :=
  '(status, timer) ← call (CreateEvent F);
  if EFI_ERROR status then mret 0 else
  status ← call (SetTimer F timer (u64 (seconds * 10000000)));
  if EFI_ERROR status then
    _ ← call (CloseEvent F timer); mret 0
  else
  '(status, index) ← call (WaitForEvent F timer);
  result ← (if negb (EFI_ERROR status) && (index =? 0) then
              '(status, key) ← call (ReadKeyStroke F);
              mret (if negb (EFI_ERROR status) then key else 0)
            else mret 0);
  _ ← call (CloseEvent F timer);
  mret result.

(** The loop over the handles: the last eligible device and their number. *)
Fixpoint target_loop (handles : list EFI_HANDLE) (source_handle source_bytes : Z)
    (chosen : ptr EFI_BLOCK_IO_PROTOCOL) (candidates : Z)
  : st W (ptr EFI_BLOCK_IO_PROTOCOL * Z) :=
  match handles with
  | [] => mret (chosen, candidates)
  | h :: hs =>
      let continue := target_loop hs source_handle source_bytes chosen candidates in
      if h =? source_handle then continue else
      '(status, bio) ← call (HandleProtocol_BlockIo F h);
      if EFI_ERROR status then continue else
      match bio with
      | Null => continue
      | Ptr b =>
          match Media b with
          | Null => continue
          | Ptr m =>
              if negb (MediaPresent m) || ReadOnly m || LogicalPartition m
                 || (BlockSize m =? 0) then continue else
              let blocks := u64 (LastBlock m + 1) in
              let capacity := u64 (blocks * BlockSize m) in
              if capacity <? source_bytes then continue else
              if negb (source_bytes mod BlockSize m =? 0) then continue else
              target_loop hs source_handle source_bytes bio (u64 (candidates + 1))
          end
      end
  end.

(** Status and the value of [*target_out] (initially [target_out]). *)
Definition find_single_install_target (source_handle source_bytes : Z)
    (target_out : ptr EFI_BLOCK_IO_PROTOCOL)
  : st W (EFI_STATUS * ptr EFI_BLOCK_IO_PROTOCOL) :=
  '(status, buffer, handles) ← call (LocateHandleBuffer_BlockIo F);
  if EFI_ERROR status then mret (status, target_out) else
  '(chosen, candidates) ← target_loop handles source_handle source_bytes Null 0;
  _ ← call (FreePool F buffer);
  if negb (candidates =? 1) || is_null chosen then mret (EFI_NOT_FOUND, target_out)
  else mret (EFI_SUCCESS, chosen).

(** [while ((chunk % source_block) != 0 || (chunk % target_block) != 0)]:
    [inr] is the early return. *)
Fixpoint chunk_loop (fuel : nat) (source_block target_block chunk : Z)
  : option (Z + EFI_STATUS) :=
  match fuel with
  | O => None
  | S fuel' =>
      if negb (chunk mod source_block =? 0) || negb (chunk mod target_block =? 0) then
        let chunk := chunk + source_block in
        if 1024 * 1024 <? chunk then Some (inr EFI_UNSUPPORTED)
        else chunk_loop fuel' source_block target_block chunk
      else Some (inl chunk)
  end.

Definition chunk_fuel (source_block : Z) : nat :=
  Z.to_nat ((1024 * 1024 - ORION_INSTALL_CHUNK) / source_block + 2).

(** [while (remaining)]: the last status. *)
Fixpoint copy_loop (fuel : nat) (source target : EFI_BLOCK_IO_PROTOCOL)
    (sm tm : EFI_BLOCK_IO_MEDIA) (source_block target_block chunk : Z)
    (source_lba target_lba remaining : Z) (status : EFI_STATUS) : st W EFI_STATUS :=
  match fuel with
  | O => lift None
  | S fuel' =>
      if remaining =? 0 then mret status else
      let n := if chunk <? remaining then chunk else remaining in
      '(status, data) ← call (ReadBlocks F source (MediaId sm) source_lba n);
      if EFI_ERROR status then mret status else
      status ← call (WriteBlocks F target (MediaId tm) target_lba n data);
      if EFI_ERROR status then mret status else
      copy_loop fuel' source target sm tm source_block target_block chunk
        (u64 (source_lba + n / source_block)) (u64 (target_lba + n / target_block))
        (u64 (remaining - n)) status
  end.

Definition copy_install_media (source target : ptr EFI_BLOCK_IO_PROTOCOL) : st W EFI_STATUS :=
  match source, target with
  | Ptr s, Ptr t =>
      match Media s, Media t with
      | Ptr sm, Ptr tm =>
          let source_block := BlockSize sm in
          let target_block := BlockSize tm in
          if (source_block =? 0) || (target_block =? 0) then mret EFI_UNSUPPORTED else
          let source_bytes := u64 (u64 (LastBlock sm + 1) * source_block) in
          if negb (source_bytes mod target_block =? 0) then mret EFI_UNSUPPORTED else
          c ← lift (chunk_loop (chunk_fuel source_block) source_block target_block
                      ORION_INSTALL_CHUNK);
          match c with
          | inr status => mret status
          | inl chunk =>
              '(status, buffer) ← call (AllocatePool F chunk);
              if EFI_ERROR status then mret status else
              status ← copy_loop (S (S (Z.to_nat (source_bytes / chunk)))) s t sm tm
                         source_block target_block chunk 0 0 source_bytes status;
              status ← (if negb (EFI_ERROR status) then call (FlushBlocks F t)
                        else mret status);
              _ ← call (FreePool F buffer);
              mret status
          end
      | _, _ => mret EFI_INVALID_PARAMETER
      end
  | _, _ => mret EFI_INVALID_PARAMETER
  end.

Definition offer_optical_install (image : EFI_HANDLE) : st W unit :=
  '(status, loaded) ← get_loaded_image image;
  match loaded with
  | Null => mret tt
  | Ptr li =>
      if EFI_ERROR status then mret tt else
      '(status, source) ← call (HandleProtocol_BlockIo F (DeviceHandle li));
      match source with
      | Null => mret tt
      | Ptr s =>
          match Media s with
          | Null => mret tt
          | Ptr sm =>
              if EFI_ERROR status || negb (ReadOnly sm) || negb (MediaPresent sm)
              then mret tt else
              _ ← call (Print F);
              _ ← call (Print F);
              key ← read_key_with_timeout 5;
              if negb (key =? 105) && negb (key =? 73) then _ ← call (Print F); mret tt else
              let source_bytes := u64 (u64 (LastBlock sm + 1) * BlockSize sm) in
              '(status, target) ← find_single_install_target (DeviceHandle li) source_bytes Null;
              if EFI_ERROR status || is_null target then
                _ ← call (Print F); _ ← call (Print F); mret tt
              else
              _ ← call (Print F);
              _ ← call (Print F);
              key ← read_key_with_timeout 10;
              if negb (key =? 121) && negb (key =? 89) then _ ← call (Print F); mret tt else
              _ ← call (Print F);
              status ← copy_install_media source target;
              if EFI_ERROR status then
                _ ← call (Print F); _ ← call (Print F); mret tt
              else _ ← call (Print F); mret tt
          end
      end
  end.
End install.

(** ** Which devices qualify *)

(** A present, writable, whole-disk medium that holds the source exactly. *)
Definition media_eligible (source_bytes : Z) (m : EFI_BLOCK_IO_MEDIA) : bool :=
  MediaPresent m && negb (ReadOnly m) && negb (LogicalPartition m)
  && negb (BlockSize m =? 0)
  && (source_bytes <=? u64 (u64 (LastBlock m + 1) * BlockSize m))
  && (source_bytes mod BlockSize m =? 0).

Definition bio_eligible (source_bytes : Z) (r : EFI_STATUS * ptr EFI_BLOCK_IO_PROTOCOL) : bool :=
  negb (EFI_ERROR (fst r)) &&
  match snd r with
  | Ptr b => match Media b with Ptr m => media_eligible source_bytes m | Null => false end
  | Null => false
  end.

Section laws.
Context {W : Type} (F : firmware W) `{!UefiMachine F}.

(** The handles, other than the source, whose device qualifies. *)
Definition candidates (source_handle source_bytes : Z) (handles : list EFI_HANDLE)
  : list EFI_HANDLE :=
  List.filter (fun h => negb (h =? source_handle) && bio_eligible source_bytes (bio_at h)) handles.

Definition last_bio (hs : list EFI_HANDLE) (d : ptr EFI_BLOCK_IO_PROTOCOL)
  : ptr EFI_BLOCK_IO_PROTOCOL :=
  fold_left (fun _ h => snd (bio_at h)) hs d.

(** The tests of the loop body, as one. *)
Lemma eligible_body (A : Type) source_bytes m (continue take : A) :
  (if negb (MediaPresent m) || ReadOnly m || LogicalPartition m || (BlockSize m =? 0)
   then continue else
   let blocks := u64 (LastBlock m + 1) in
   let capacity := u64 (blocks * BlockSize m) in
   if capacity <? source_bytes then continue else
   if negb (source_bytes mod BlockSize m =? 0) then continue else take)
  = if media_eligible source_bytes m then take else continue.
Proof.
  unfold media_eligible. cbv zeta.
  destruct (MediaPresent m), (ReadOnly m), (LogicalPartition m), (BlockSize m =? 0);
    cbn [negb orb andb]; try done.
  rewrite Z.ltb_antisym. destruct (source_bytes <=? _); cbn [negb andb]; [|done].
  by destruct (_ =? 0).
Qed.

(** A statement of a straight-line block: run one call, keep what it leaves
    unchanged. *)
Ltac run law :=
  rewrite call_bind;
  let L := fresh "L" in pose proof law as L;
  match type of L with
  | quiet ?w (snd ?c) => destruct c as [? ?]; cbn [fst snd] in L |- *
  end.

Lemma target_loop_spec hs sh sb chosen n w :
  0 <= n -> n + len hs < 18446744073709551616 ->
  exists w', target_loop F hs sh sb chosen n w
    = Some (last_bio (candidates sh sb hs) chosen, n + len (candidates sh sb hs), w') /\
    quiet w w'.
Proof.
  revert chosen n w. induction hs as [|h hs IH]; intros chosen n w Hn Hlen.
  { exists w. cbn. split; [|by split]. rewrite Z.add_0_r. done. }
  cbn [target_loop candidates List.filter length] in *.
  fold (candidates sh sb hs). destruct (h =? sh); cbn [negb andb]; [apply IH; lia|].
  rewrite call_bind. destruct (law_bio h w) as [Hb Hq].
  destruct (HandleProtocol_BlockIo F h w) as [[status bio] w1]; cbn [fst snd] in *.
  rewrite <- Hb. unfold bio_eligible. cbn [fst snd].
  assert (Hskip : exists w', target_loop F hs sh sb chosen n w1
    = Some (last_bio (candidates sh sb hs) chosen, n + len (candidates sh sb hs), w') /\
    quiet w w').
  { destruct (IH chosen n w1) as (w' & E & Hq'); [lia..|].
    exists w'. split; [exact E|by etransitivity]. }
  destruct (EFI_ERROR status); cbn [negb andb]; [exact Hskip|].
  destruct bio as [|b]; [exact Hskip|].
  destruct (Media b) as [|m]; [exact Hskip|].
  rewrite eligible_body. destruct (media_eligible sb m); [|exact Hskip].
  rewrite u64_id by lia.
  destruct (IH (Ptr b) (n + 1) w1) as (w' & E & Hq'); [lia..|].
  exists w'. split; [|by etransitivity]. rewrite E.
  cbn [last_bio fold_left length]. rewrite <- Hb. cbn [snd].
  unfold last_bio. do 3 f_equal. lia.
Qed.

Lemma find_target_spec sh sb out w :
  let '((status, _, handles), w1) := LocateHandleBuffer_BlockIo F w in
  len handles < 18446744073709551616 ->
  exists w', quiet w w' /\
    find_single_install_target F sh sb out w
    = Some (if EFI_ERROR status then (status, out) else
            match candidates sh sb handles with
            | [h] => (EFI_SUCCESS, snd (bio_at h))
            | _ => (EFI_NOT_FOUND, out)
            end, w').
Proof.
  unfold find_single_install_target. rewrite call_bind.
  pose proof (law_handles w) as Hq.
  destruct (LocateHandleBuffer_BlockIo F w) as [[[status buffer] handles] w1].
  cbn [fst snd] in *. intros Hlen.
  destruct (EFI_ERROR status); [by exists w1|].
  rewrite st_bind_eq.
  destruct (target_loop_spec handles sh sb Null 0 w1) as (w2 & -> & Hq2); [lia..|].
  rewrite Z.add_0_l, call_bind. pose proof (law_free buffer w2) as Hq3.
  destruct (FreePool F buffer w2) as [u w3]; cbn [fst snd] in *.
  exists w3. split; [by do 2 (etransitivity; [eassumption|])|].
  destruct (candidates sh sb handles) as [|h [|h' l]] eqn:Hc; cbn [length last_bio fold_left].
  - reflexivity.
  - change (negb (Z.of_nat 1 =? 1)) with false. cbn [orb].
    assert (Hh : In h (candidates sh sb handles)) by (rewrite Hc; by left).
    unfold candidates in Hh. apply filter_In in Hh as [_ Hh]. bool_prop.
    unfold bio_eligible in *. destruct (snd (bio_at h)); [|done].
    by rewrite andb_false_r in *.
  - replace (Z.of_nat (S (S (length l))) =? 1) with false
      by (symmetry; apply Z.eqb_neq; lia). reflexivity.
Qed.

(** ** The copy *)

Lemma chunk_loop_spec fuel sb tb chunk :
  0 < sb -> 0 < tb -> 0 < chunk <= 1048576 -> (1048576 - chunk) / sb + 1 < Z.of_nat fuel ->
  exists r, chunk_loop fuel sb tb chunk = Some r /\
    match r with
    | inl c => 0 < c <= 1048576 /\ c mod sb = 0 /\ c mod tb = 0
    | inr s => s = EFI_UNSUPPORTED
    end.
Proof.
  intros Hs Ht. revert chunk. induction fuel as [|fuel IH]; intros chunk Hc Hf.
  { pose proof (Z.div_pos (1048576 - chunk) sb). lia. }
  cbn [chunk_loop].
  destruct (Z.eqb_spec (chunk mod sb) 0), (Z.eqb_spec (chunk mod tb) 0); cbn [negb orb];
    [by eexists| |..].
  all: change (1024 * 1024) with 1048576;
    destruct (Z.ltb_spec 1048576 (chunk + sb)); [by eexists|];
    apply IH; [lia|].
  all: replace (1048576 - (chunk + sb)) with (1048576 - chunk + (-1) * sb) by lia;
    rewrite Z.div_add by lia; lia.
Qed.

Lemma take_slice_app (m : bytes) o n :
  0 <= o -> 0 <= n -> take (Z.to_nat o) m ++ slice m o n = take (Z.to_nat (o + n)) m.
Proof.
  intros. unfold slice. replace (Z.to_nat (o + n)) with (Z.to_nat o + Z.to_nat n)%nat by lia.
  by rewrite take_take_drop.
Qed.

(** The disk in the middle of the copy: the first [off] bytes are written. *)
Lemma blit_progress (src old : bytes) off n :
  0 <= off -> 0 <= n -> off + n <= len src -> off + n <= len old ->
  blit (take (Z.to_nat off) src ++ drop (Z.to_nat off) old) off (slice src off n)
  = take (Z.to_nat (off + n)) src ++ drop (Z.to_nat (off + n)) old.
Proof.
  intros. unfold blit.
  assert (Hl : length (take (Z.to_nat off) src) = Z.to_nat off) by (rewrite length_take; lia).
  assert (Hs : length (slice src off n) = Z.to_nat n)
    by (apply Nat2Z.inj; rewrite slice_length by lia; lia).
  rewrite take_app_le, take_ge by lia. rewrite app_assoc, take_slice_app by lia. f_equal.
  rewrite drop_app_ge by lia. rewrite drop_drop. f_equal. lia.
Qed.

Section copy.
Context (s t : EFI_BLOCK_IO_PROTOCOL) (sm tm : EFI_BLOCK_IO_MEDIA).
Context (src old : bytes) (chunk total : Z).
Hypothesis Hsm : Media s = Ptr sm.
Hypothesis Htm : Media t = Ptr tm.
Hypothesis Hdev : bio_device s <> bio_device t.
Hypothesis Hsb : 0 < BlockSize sm.
Hypothesis Htb : 0 < BlockSize tm.
Hypothesis Hchunk : 0 < chunk /\ chunk mod BlockSize sm = 0 /\ chunk mod BlockSize tm = 0.
Hypothesis Htotal :
  0 <= total < 18446744073709551616 /\ total mod BlockSize sm = 0 /\ total mod BlockSize tm = 0.
Hypothesis Hsrc : len src = total.
Hypothesis Hold : total <= len old.

Lemma copy_loop_spec fuel slba tlba off status w :
  0 <= off <= total -> slba * BlockSize sm = off -> tlba * BlockSize tm = off ->
  total - off <= (Z.of_nat fuel - 1) * chunk -> (0 < fuel)%nat ->
  disk w (bio_device s) = src ->
  disk w (bio_device t) = take (Z.to_nat off) src ++ drop (Z.to_nat off) old ->
  exists st' w',
    copy_loop F fuel s t sm tm (BlockSize sm) (BlockSize tm) chunk slba tlba (total - off)
      status w = Some (st', w') /\
    keys w' = keys w /\ (forall d, d <> bio_device t -> disk w' d = disk w d) /\
    (EFI_ERROR st' = false ->
     disk w' (bio_device t) = src ++ drop (Z.to_nat total) old).
Proof.
  revert slba tlba off status w. induction fuel as [|fuel IH];
    intros slba tlba off status w Hoff Hsl Htl Hfuel Hpos Hs Ht; [lia|].
  cbn [copy_loop]. destruct (Z.eqb_spec (total - off) 0) as [H0|H0].
  { exists status, w. split; [done|]. split; [done|]. split; [done|]. intros _.
    rewrite Ht. replace off with total by lia. by rewrite take_ge by lia. }
  assert (Hfuel' : (0 < fuel)%nat) by (destruct fuel; [nia|lia]).
  set (n := if chunk <? total - off then chunk else total - off).
  assert (Hn : 0 < n <= total - off /\ (n = chunk \/ n = total - off)).
  { subst n. destruct (Z.ltb_spec chunk (total - off)); lia. }
  assert (Hmod : forall a, 0 < a -> chunk mod a = 0 -> total mod a = 0 -> off mod a = 0 ->
                 n mod a = 0 /\ n / a * a = n).
  { intros a Ha H1 H2 H3. assert (n mod a = 0); [|zlia].
    destruct Hn as (_ & [->| ->]); [done|].
    rewrite Zminus_mod, H2, H3. by apply Z.mod_0_l; lia. }
  destruct (Hmod (BlockSize sm)) as [Hn1 Hd1]; try tauto;
    [rewrite <- Hsl; apply Z.mod_mul; lia|].
  destruct (Hmod (BlockSize tm)) as [Hn2 Hd2]; try tauto;
    [rewrite <- Htl; apply Z.mod_mul; lia|].
  rewrite call_bind.
  pose proof (law_read s sm (MediaId sm) slba n w Hsm) as [Hq Hdata]; cbv zeta in Hdata.
  destruct (ReadBlocks F s (MediaId sm) slba n w) as [[status1 data] w1]; cbn [fst snd] in *.
  destruct (EFI_ERROR status1) eqn:E1.
  { exists status1, w1. destruct Hq as [Hq1 Hq2]. split; [done|]. split; [done|].
    split; [by intros; apply Hq1|congruence]. }
  assert (data = slice src off n) as ->.
  { rewrite Hdata; [by rewrite Hs, Hsl|done|nia|lia|exact Hn1|rewrite Hs, Hsl; lia]. }
  clear Hdata. rewrite call_bind.
  pose proof (law_write t tm (MediaId tm) tlba n (slice src off n) w1 Htm) as (Hk & Ho & Hw).
  destruct (WriteBlocks F t (MediaId tm) tlba n (slice src off n) w1) as [status2 w2].
  cbn [fst snd] in *. destruct Hq as [Hq Hqk].
  destruct (EFI_ERROR status2) eqn:E2.
  { exists status2, w2. split; [done|]. split; [congruence|].
    split; [intros; rewrite Ho, Hq; done|congruence]. }
  assert (Hlen : len (disk w1 (bio_device t)) = len old).
  { rewrite Hq, Ht, length_app, length_take, length_drop. lia. }
  specialize (Hw eq_refl ltac:(nia) ltac:(by rewrite slice_length by lia) Hn2 ltac:(lia)).
  rewrite Htl, Hq, Ht, blit_progress in Hw by lia.
  assert (Hb : slba + n / BlockSize sm < 18446744073709551616 /\ 0 <= slba /\
               tlba + n / BlockSize tm < 18446744073709551616 /\ 0 <= tlba) by nia.
  rewrite !u64_id by (try pose proof (Z.div_pos n (BlockSize sm));
                      try pose proof (Z.div_pos n (BlockSize tm)); lia).
  replace (total - off - n) with (total - (off + n)) by lia.
  destruct (IH (slba + n / BlockSize sm) (tlba + n / BlockSize tm) (off + n) status2 w2)
    as (st' & w' & E & Hk' & Ho' & Hd').
  { lia. }
  { rewrite Z.mul_add_distr_r. lia. }
  { rewrite Z.mul_add_distr_r. lia. }
  { subst n. destruct (Z.ltb_spec chunk (total - off)); nia. }
  { exact Hfuel'. }
  { by rewrite Ho, Hq by done. }
  { exact Hw. }
  exists st', w'. split; [exact E|]. split; [congruence|]. split; [|exact Hd'].
  intros d Hd. rewrite Ho', Ho, Hq; done.
Qed.
End copy.

(** Whatever the devices do, the loop ends and touches only the target. *)
Lemma copy_loop_frame s t sm tm sb tb chunk fuel slba tlba rem status w :
  Media s = Ptr sm -> Media t = Ptr tm -> 0 < chunk ->
  0 <= rem < 18446744073709551616 -> rem <= (Z.of_nat fuel - 1) * chunk -> (0 < fuel)%nat ->
  exists st' w',
    copy_loop F fuel s t sm tm sb tb chunk slba tlba rem status w = Some (st', w') /\
    keys w' = keys w /\ (forall d, d <> bio_device t -> disk w' d = disk w d).
Proof.
  intros Hsm Htm Hc. revert slba tlba rem status w. induction fuel as [|fuel IH];
    intros slba tlba rem status w Hr Hf Hpos; [lia|].
  cbn [copy_loop]. destruct (Z.eqb_spec rem 0) as [H0|H0]; [by exists status, w|].
  assert (Hfuel' : (0 < fuel)%nat) by (destruct fuel; [nia|lia]).
  set (n := if chunk <? rem then chunk else rem).
  assert (Hn : 0 < n <= rem /\ (n = chunk \/ n = rem)).
  { subst n. destruct (Z.ltb_spec chunk rem); lia. }
  rewrite call_bind.
  pose proof (law_read s sm (MediaId sm) slba n w Hsm) as [[Hq Hqk] _].
  destruct (ReadBlocks F s (MediaId sm) slba n w) as [[status1 data] w1]; cbn [fst snd] in *.
  destruct (EFI_ERROR status1); [by exists status1, w1|].
  rewrite call_bind.
  pose proof (law_write t tm (MediaId tm) tlba n data w1 Htm) as (Hk & Ho & _).
  destruct (WriteBlocks F t (MediaId tm) tlba n data w1) as [status2 w2]; cbn [fst snd] in *.
  assert (Ho' : forall d, d <> bio_device t -> disk w2 d = disk w d)
    by (intros; by rewrite Ho, Hq).
  destruct (EFI_ERROR status2).
  { exists status2, w2. split; [done|]. split; [congruence|done]. }
  rewrite (u64_id (rem - n)) by lia.
  destruct (IH (u64 (slba + n / sb)) (u64 (tlba + n / tb)) (rem - n) status2 w2)
    as (st' & w' & E & Hk' & Hd'); [lia| |done|].
  { destruct Hn as (? & [?|?]); nia. }
  exists st', w'. split; [exact E|]. split; [congruence|].
  intros d Hd. by rewrite Hd', Ho' by done.
Qed.

(** The fuel of the copy: one turn per chunk. *)
Lemma copy_fuel total chunk :
  0 <= total -> 0 < chunk ->
  total <= (Z.of_nat (S (S (Z.to_nat (total / chunk)))) - 1) * chunk.
Proof. intros. pose proof (Z.div_pos total chunk). zlia. Qed.

(** The whole routine around the loop: it ends, and either refuses with an
    error having changed nothing, or leaves what the loop left ([P1] always,
    [P2] when the status is a success). *)
Lemma copy_install_run s t sm tm w (P1 P2 : W -> Prop) :
  Media s = Ptr sm -> Media t = Ptr tm -> media_wf sm -> media_wf tm ->
  (forall w1 w2, quiet w1 w2 -> P1 w1 -> P1 w2) ->
  (forall w1 w2, quiet w1 w2 -> P2 w1 -> P2 w2) ->
  let total := u64 (u64 (LastBlock sm + 1) * BlockSize sm) in
  (forall chunk status w1, quiet w w1 -> BlockSize sm <> 0 -> BlockSize tm <> 0 ->
     total mod BlockSize tm = 0 ->
     0 < chunk /\ chunk mod BlockSize sm = 0 /\ chunk mod BlockSize tm = 0 ->
     exists st2 w2, copy_loop F (S (S (Z.to_nat (total / chunk)))) s t sm tm (BlockSize sm)
         (BlockSize tm) chunk 0 0 total status w1 = Some (st2, w2) /\
       P1 w2 /\ (EFI_ERROR st2 = false -> P2 w2)) ->
  exists st' w', copy_install_media F (Ptr s) (Ptr t) w = Some (st', w') /\
    (EFI_ERROR st' = true /\ quiet w w' \/ P1 w' /\ (EFI_ERROR st' = false -> P2 w')).
Proof.
  intros Hsm Htm [Hsb _] [Htb _] Hp1 Hp2 total Hloop. unfold copy_install_media.
  assert (Hrefl : quiet w w) by by split.
  rewrite Hsm, Htm. fold total.
  destruct (Z.eqb_spec (BlockSize sm) 0), (Z.eqb_spec (BlockSize tm) 0); cbn [orb];
    try (eexists _, w; split; [reflexivity|by left]).
  destruct (Z.eqb_spec (total mod BlockSize tm) 0); cbn [negb];
    [|eexists _, w; split; [reflexivity|by left]].
  destruct (chunk_loop_spec (chunk_fuel (BlockSize sm)) (BlockSize sm) (BlockSize tm)
    ORION_INSTALL_CHUNK) as (r & -> & Hr); [lia|lia|done| |].
  { unfold chunk_fuel. change (1024 * 1024) with 1048576.
    pose proof (Z.div_pos (1048576 - ORION_INSTALL_CHUNK) (BlockSize sm)
      ltac:(done) ltac:(lia)). lia. }
  rewrite lift_bind. destruct r as [chunk|status].
  2: { subst status. eexists _, w. split; [reflexivity|by left]. }
  rewrite call_bind. pose proof (law_alloc chunk w) as Hq1.
  destruct (AllocatePool F chunk w) as [[status buffer] w1]; cbn [fst snd] in *.
  destruct (EFI_ERROR status) eqn:Es; [eexists _, w1; split; [reflexivity|by left]|].
  rewrite st_bind_eq.
  destruct (Hloop chunk status w1) as (st2 & w2 & -> & H1 & H2); [done|done|done|done|tauto|].
  assert (Hflush : exists st3 w3, (if negb (EFI_ERROR st2) then call (FlushBlocks F t)
            else mret st2) w2 = Some (st3, w3) /\ quiet w2 w3 /\
            (EFI_ERROR st3 = false -> EFI_ERROR st2 = false)).
  { pose proof (law_flush t w2). destruct (EFI_ERROR st2) eqn:E2; cbn [negb].
    - exists st2, w2. split; [done|]. split; [by split|congruence].
    - unfold call. destruct (FlushBlocks F t w2) as [st3 w3]. by exists st3, w3. }
  rewrite st_bind_eq. destruct Hflush as (st3 & w3 & -> & Hq3 & He3).
  rewrite call_bind. pose proof (law_free buffer w3) as Hq4.
  destruct (FreePool F buffer w3) as [u w4]; cbn [fst snd] in *.
  exists st3, w4. split; [done|]. right. split; [eauto|]. intros E3. eauto.
Qed.

Lemma copy_install_frame s t w :
  bio_wf s -> bio_wf t ->
  exists st' w', copy_install_media F s t w = Some (st', w') /\ keys w' = keys w /\
    (forall d, (forall tb, t = Ptr tb -> d <> bio_device tb) -> disk w' d = disk w d).
Proof.
  intros Hws Hwt.
  destruct s as [|s], t as [|t]; try by eexists _, w.
  destruct (Media s) as [|sm] eqn:Hsm; [unfold copy_install_media; rewrite Hsm; by eexists _, w|].
  destruct (Media t) as [|tm] eqn:Htm;
    [unfold copy_install_media; rewrite Hsm, Htm; by eexists _, w|].
  pose proof (Hws s sm eq_refl Hsm) as Hms. pose proof (Hwt t tm eq_refl Htm) as Hmt.
  destruct (copy_install_run s t sm tm w
    (fun w' => keys w' = keys w /\ forall d, d <> bio_device t -> disk w' d = disk w d)
    (fun _ => True)) as (st' & w' & E & H); [done|done|done|done| |done| |].
  { intros w1 w2 [Hd Hk] [Hk1 Hd1]. split; [congruence|]. intros d Hne. by rewrite Hd, Hd1. }
  { intros chunk status w1 [Hd Hk] _ _ _ Hc.
    pose proof (u64_range (u64 (LastBlock sm + 1) * BlockSize sm)).
    destruct (copy_loop_frame s t sm tm (BlockSize sm) (BlockSize tm) chunk
      (S (S (Z.to_nat (u64 (u64 (LastBlock sm + 1) * BlockSize sm) / chunk)))) 0 0
      (u64 (u64 (LastBlock sm + 1) * BlockSize sm)) status w1) as (st2 & w2 & E & Hk2 & Hd2);
      [done|done|lia|lia|apply copy_fuel; lia|lia|].
    exists st2, w2. split; [exact E|]. split; [|done]. split; [congruence|].
    intros d Hne. by rewrite Hd2, Hd. }
  exists st', w'. split; [exact E|].
  destruct H as [[_ [Hd Hk]]|[[Hk Hd] _]]; (split; [done|]).
  - intros d _. apply Hd.
  - intros d Hne. by apply Hd, Hne.
Qed.

(** ** The dialogue *)

(** A keystroke is consumed only when it is reported. *)
Lemma read_key_spec seconds w :
  exists k w', read_key_with_timeout F seconds w = Some (k, w') /\
    (forall d, disk w' d = disk w d) /\
    (keys w' = keys w /\ k = 0 \/ keys w' = keys w ++ [k]).
Proof.
  unfold read_key_with_timeout. rewrite call_bind. pose proof (law_event w) as [Hd1 Hk1].
  destruct (CreateEvent F w) as [[status timer] w1]; cbn [fst snd] in *.
  destruct (EFI_ERROR status); [exists 0, w1; auto|].
  rewrite call_bind. pose proof (law_timer timer (u64 (seconds * 10000000)) w1) as [Hd2 Hk2].
  destruct (SetTimer F timer _ w1) as [status2 w2]; cbn [fst snd] in *.
  destruct (EFI_ERROR status2).
  { rewrite call_bind. pose proof (law_close timer w2) as [Hd3 Hk3].
    destruct (CloseEvent F timer w2) as [u w3]; cbn [fst snd] in *.
    exists 0, w3. split; [done|]. split; [intros d; by rewrite Hd3, Hd2|].
    left. split; [congruence|done]. }
  rewrite call_bind. pose proof (law_wait timer w2) as [Hd3 Hk3].
  destruct (WaitForEvent F timer w2) as [[status3 index] w3]; cbn [fst snd] in *.
  assert (Hread : exists k w4,
    (if negb (EFI_ERROR status3) && (index =? 0) then
       '(status, key) ← call (ReadKeyStroke F);
       mret (if negb (EFI_ERROR status) then key else 0)
     else mret 0) w3 = Some (k, w4) /\ (forall d, disk w4 d = disk w3 d) /\
    (keys w4 = keys w3 /\ k = 0 \/ keys w4 = keys w3 ++ [k])).
  { destruct (negb (EFI_ERROR status3) && (index =? 0)); [|exists 0, w3; auto].
    rewrite call_bind. pose proof (law_key w3) as [Hd4 Hk4].
    destruct (ReadKeyStroke F w3) as [[status4 key] w4]; cbn [fst snd] in *.
    exists (if negb (EFI_ERROR status4) then key else 0), w4.
    split; [done|]. split; [done|]. rewrite Hk4.
    destruct (EFI_ERROR status4); cbn [negb]; [left; by rewrite app_nil_r|by right]. }
  destruct Hread as (k & w4 & E & Hd4 & Hk4). rewrite st_bind_eq, E, call_bind.
  pose proof (law_close timer w4) as [Hd5 Hk5].
  destruct (CloseEvent F timer w4) as [u w5]; cbn [fst snd] in *.
  exists k, w5. split; [done|]. split; [intros d; by rewrite Hd5, Hd4, Hd3, Hd2|].
  rewrite Hk5. replace (keys w) with (keys w3) by congruence. exact Hk4.
Qed.

Lemma print_run {A} (k : st W A) w (P : A -> W -> Prop) :
  (forall w1, quiet w w1 -> exists a w', k w1 = Some (a, w') /\ P a w') ->
  exists a w', (_ ← call (Print F); k) w = Some (a, w') /\ P a w'.
Proof.
  intros H. rewrite call_bind. pose proof (law_print w) as Hq.
  destruct (Print F w) as [u w1]; cbn [fst snd] in *. by apply H.
Qed.

(** [n] messages and the end of the dialogue. *)
Lemma mret_run {A} (a : A) w (P : A -> W -> Prop) :
  P a w -> exists a' w', (mret a : st W A) w = Some (a', w') /\ P a' w'.
Proof. intros H. by exists a, w. Qed.

(** The calls up to the first answer, on an image loaded from the device of [li]. *)
Definition first_question (image : EFI_HANDLE) (li : EFI_LOADED_IMAGE) : st W Z :=
  _ ← get_loaded_image F image;
  _ ← call (HandleProtocol_BlockIo F (DeviceHandle li));
  _ ← call (Print F);
  _ ← call (Print F);
  read_key_with_timeout F 5.

(** The bytes of a medium, as the source computes them. *)
Definition source_size (sm : EFI_BLOCK_IO_MEDIA) : Z := u64 (u64 (LastBlock sm + 1) * BlockSize sm).

(** The image was loaded from a present, read-only medium. *)
Definition optical (image : EFI_HANDLE) (w : W) (li : EFI_LOADED_IMAGE) (sm : EFI_BLOCK_IO_MEDIA) : Prop :=
  EFI_ERROR (fst (fst (HandleProtocol_LoadedImage F image w))) = false /\
  snd (fst (HandleProtocol_LoadedImage F image w)) = Ptr li /\
  EFI_ERROR (fst (bio_at (DeviceHandle li))) = false /\
  exists s, snd (bio_at (DeviceHandle li)) = Ptr s /\ Media s = Ptr sm /\ ReadOnly sm = true /\ MediaPresent sm = true.

(** What must have happened between [w] and [w'] for a disk to change: the two
    keystrokes, and a single device that qualified for the medium that was booted
    among the handles the firmware gave after the first answer. *)
Definition consent (image : EFI_HANDLE) (w w' : W) : Prop :=
  exists li sm k1 w1 k2 h b,
    optical image w li sm /\
    first_question image li w = Some (k1, w1) /\
    keys w' = keys w ++ [k1; k2] /\ (k1 = 105 \/ k1 = 73) /\ (k2 = 121 \/ k2 = 89) /\
    EFI_ERROR (fst (fst (fst (LocateHandleBuffer_BlockIo F w1)))) = false /\
    candidates (DeviceHandle li) (source_size sm) (snd (fst (LocateHandleBuffer_BlockIo F w1))) = [h] /\
    snd (bio_at h) = Ptr b /\
    forall d, d <> bio_device b -> disk w' d = disk w d.

Lemma candidate_bio sh sb hs h : candidates sh sb hs = [h] -> exists b, snd (bio_at h) = Ptr b.
Proof.
  intros H. assert (Hh : In h (candidates sh sb hs)) by (rewrite H; by left).
  unfold candidates in Hh. apply filter_In in Hh as [_ Hh]. bool_prop.
  unfold bio_eligible in *. destruct (snd (bio_at h)) as [|b]; bool_prop; [done|by exists b].
Qed.

Lemma key_test k a b :
  (if negb (k =? a) && negb (k =? b) then true else false) = false -> k = a \/ k = b.
Proof. destruct (Z.eqb_spec k a), (Z.eqb_spec k b); cbn; (discriminate || auto). Qed.

(** The dialogue from the second question on. *)
Lemma confirm_run image s sm li w w5 (k1 : Z) :
  optical image w li sm -> first_question image li w = Some (k1, w5) ->
  (forall w1, len (snd (fst (LocateHandleBuffer_BlockIo F w1))) < 18446744073709551616) ->
  Media s = Ptr sm -> bio_wf (Ptr s) ->
  (forall d, disk w5 d = disk w d) -> keys w5 = keys w ++ [k1] -> (k1 = 105 \/ k1 = 73) ->
  exists a w',
    ('(status, target) ← find_single_install_target F (DeviceHandle li)
                           (u64 (u64 (LastBlock sm + 1) * BlockSize sm)) Null;
     if EFI_ERROR status || is_null target then
       _ ← call (Print F); _ ← call (Print F); mret tt
     else
     _ ← call (Print F);
     _ ← call (Print F);
     key ← read_key_with_timeout F 10;
     if negb (key =? 121) && negb (key =? 89) then _ ← call (Print F); mret tt else
     _ ← call (Print F);
     status ← copy_install_media F (Ptr s) target;
     if EFI_ERROR status then _ ← call (Print F); _ ← call (Print F); mret tt
     else _ ← call (Print F); mret tt) w5 = Some (a, w') /\
    ((forall d, disk w' d = disk w d) \/ consent image w w').
Proof.
  intros Hopt Hq1 Hlen Hsm Hwf H5 Hk5 Hkey1. fold (source_size sm). set (sb := source_size sm). rewrite st_bind_eq.
  pose proof (find_target_spec (DeviceHandle li) sb Null w5) as Hfind.
  pose proof (Hlen w5) as Hlen5.
  destruct (LocateHandleBuffer_BlockIo F w5) as [[[status6 buffer] handles] w5'] eqn:Ehs.
  cbn [fst snd] in Hlen5. destruct (Hfind Hlen5) as (w6 & [Hd6 Hk6] & ->). clear Hfind.
  assert (Hstop : exists a w', (_ ← call (Print F); _ ← call (Print F); mret tt) w6
    = Some (a, w') /\ ((forall d, disk w' d = disk w d) \/ consent image w w')).
  { apply print_run; intros w7 [Hd7 _]. apply print_run; intros w8 [Hd8 _].
    apply mret_run. left. intros d. by rewrite Hd8, Hd7, Hd6. }
  destruct (EFI_ERROR status6) eqn:E6; [rewrite E6; exact Hstop|].
  destruct (candidates (DeviceHandle li) sb handles) as [|h [|h' l]] eqn:Hc;
    [exact Hstop| |exact Hstop].
  destruct (candidate_bio _ _ _ _ Hc) as [b Hb].
  rewrite Hb. cbn [EFI_ERROR EFI_SUCCESS is_null orb]. change (EFI_ERROR EFI_SUCCESS) with false.
  cbn [orb].
  apply print_run; intros w7 [Hd7 Hk7]. apply print_run; intros w8 [Hd8 Hk8].
  rewrite st_bind_eq. destruct (read_key_spec 10 w8) as (k2 & w9 & -> & Hd9 & Hk9).
  assert (H9 : forall d, disk w9 d = disk w d) by (intros; by rewrite Hd9, Hd8, Hd7, Hd6).
  destruct (negb (k2 =? 121) && negb (k2 =? 89)) eqn:Ek2.
  { apply print_run; intros w10 [Hd10 _]. apply mret_run. left. intros. by rewrite Hd10. }
  assert (Hkey2 : k2 = 121 \/ k2 = 89) by (apply key_test; by rewrite Ek2).
  destruct Hk9 as [[_ ?]|Hk9]; [lia|].
  apply print_run; intros w10 [Hd10 Hk10]. rewrite st_bind_eq.
  pose proof (law_bio_wf h) as Hwft. rewrite Hb in Hwft.
  destruct (copy_install_frame (Ptr s) (Ptr b) w10 Hwf Hwft) as (status11 & w11 & -> & Hk11 & Hd11).
  assert (Hend : forall w12, (forall d, disk w12 d = disk w11 d) -> keys w12 = keys w11 ->
                 consent image w w12).
  { intros w12 Hd12 Hk12. exists li, sm, k1, w5, k2, h, b.
    rewrite Ehs. cbn [fst snd]. split; [exact Hopt|]. split; [exact Hq1|].
    split; [rewrite Hk12, Hk11, Hk10, Hk9, Hk8, Hk7, Hk6, Hk5, <- app_assoc; done|].
    repeat (split; [done|]).
    intros d Hd. rewrite Hd12, Hd11, Hd10, H9; [done|]. by intros tb [= <-]. }
  destruct (EFI_ERROR status11).
  - apply print_run; intros w12 [Hd12 Hk12]. apply print_run; intros w13 [Hd13 Hk13].
    apply mret_run. right. apply Hend; [intros; by rewrite Hd13, Hd12|congruence].
  - apply print_run; intros w12 [Hd12 Hk12]. apply mret_run. right. by apply Hend.
Qed.

(** ** Properties *)

(** [find_single_install_target] chooses a disk only when the choice is
    forced: it succeeds exactly when one and only one handle other than the
    source drives a present, writable, unpartitioned block device that can
    hold the source in whole blocks, and returns that device; otherwise it
    reports an error and leaves [*target_out] as it was.  No disk is touched
    and the handle buffer is always given back. *)
Theorem find_single_install_target_unique sh sb out w status buffer handles w1 :
  LocateHandleBuffer_BlockIo F w = ((status, buffer, handles), w1) ->
  len handles < 18446744073709551616 ->
  exists r w', find_single_install_target F sh sb out w = Some (r, w') /\ quiet w w' /\
    (forall h, EFI_ERROR status = false -> candidates sh sb handles = [h] ->
       r = (EFI_SUCCESS, snd (bio_at h))) /\
    ((forall h, candidates sh sb handles <> [h]) ->
       EFI_ERROR (fst r) = true /\ snd r = out).
Proof.
  intros E Hlen. pose proof (find_target_spec sh sb out w) as H. rewrite E in H.
  destruct (H Hlen) as (w' & Hq & ->). clear H.
  eexists _, w'. split; [reflexivity|]. split; [exact Hq|]. split.
  - intros h -> ->. reflexivity.
  - intros Hne. destruct (EFI_ERROR status) eqn:Es; [by split|].
    destruct (candidates sh sb handles) as [|h [|h' l]]; [by split| |by split].
    by destruct (Hne h).
Qed.

(** C14. Copying the medium always ends.  When it reports success the target
    starts with the whole contents of the source and is unchanged beyond it;
    in every case no other device changes.  (Source and target are different
    devices, the source size does not overflow 64 bits and is what the medium
    reports, and the target is at least as large.) *)
Theorem copy_install_media_correct s t sm tm w :
  Media s = Ptr sm -> Media t = Ptr tm -> media_wf sm -> media_wf tm ->
  bio_device s <> bio_device t ->
  (LastBlock sm + 1) * BlockSize sm < 18446744073709551616 ->
  len (disk w (bio_device s)) = (LastBlock sm + 1) * BlockSize sm ->
  len (disk w (bio_device s)) <= len (disk w (bio_device t)) ->
  exists status w', copy_install_media F (Ptr s) (Ptr t) w = Some (status, w') /\
    (forall d, d <> bio_device t -> disk w' d = disk w d) /\
    (EFI_ERROR status = false ->
     disk w' (bio_device t)
     = disk w (bio_device s)
       ++ drop (length (disk w (bio_device s))) (disk w (bio_device t))).
Proof.
  intros Hsm Htm Hms Hmt Hne Hover Hsrc Hold.
  set (P1 := fun w' => forall d, d <> bio_device t -> disk w' d = disk w d).
  set (P2 := fun w' => disk w' (bio_device t) = disk w (bio_device s)
       ++ drop (length (disk w (bio_device s))) (disk w (bio_device t))).
  destruct (copy_install_run s t sm tm w P1 P2) as (status & w' & E & H); try done.
  - intros w1 w2 [Hd _] H1 d Hd'. rewrite Hd. by apply H1.
  - intros w1 w2 [Hd _] H2. unfold P2. by rewrite Hd.
  - intros chunk status w1 [Hd Hk] Hs0 Ht0 Hmod Hc. destruct Hms as [Hm1 Hm2].
    assert (Ht : u64 (u64 (LastBlock sm + 1) * BlockSize sm)
                 = (LastBlock sm + 1) * BlockSize sm).
    { rewrite (u64_id (LastBlock sm + 1)) by nia. apply u64_id. nia. }
    rewrite Ht in *. destruct Hmt as [Hmt _]. unfold P1, P2.
    destruct (copy_loop_spec s t sm tm (disk w (bio_device s)) (disk w (bio_device t)) chunk
      ((LastBlock sm + 1) * BlockSize sm) Hsm Htm Hne ltac:(lia) ltac:(lia) Hc) with
      (fuel := S (S (Z.to_nat ((LastBlock sm + 1) * BlockSize sm / chunk))))
      (slba := 0) (tlba := 0) (off := 0) (status := status) (w := w1)
      as (st2 & w2 & E2 & _ & Ho & Hc2);
      [split; [nia|split; [by apply Z.mod_mul|done]]|done|lia|nia|lia|lia
      |rewrite Z.sub_0_r; apply copy_fuel; nia|lia|by rewrite Hd
      |rewrite Hd, Z2Nat.inj_0, take_0, drop_0; done|].
    rewrite Z.sub_0_r in E2. exists st2, w2. split; [exact E2|].
    split; [intros d Hd'; by rewrite Ho, Hd|].
    intros He. rewrite Hc2 by done. f_equal. f_equal. lia.
  - exists status, w'. split; [exact E|].
    destruct H as [[He [Hd _]]|[H1 H2]]; [|by split].
    split; [by intros|congruence].
Qed.

(** C35. Nothing is erased without consent: the installation dialogue always
    ends, and unless it ends with every disk exactly as before, the image was
    loaded from a present read-only medium, the user typed I (or i) and then Y
    (or y), these were the only keystrokes consumed, and the only disk that
    changed is the one device that qualified as a target among the handles the
    firmware listed after the first answer: another handle than the one the image
    came from, present, writable, not a partition, and large enough for the whole
    of that medium in blocks of its own.  (The firmware lists fewer handles than
    64 bits can count.) *)
Theorem offer_optical_install_confirmed image w :
  (forall w1, len (snd (fst (LocateHandleBuffer_BlockIo F w1))) < 18446744073709551616) ->
  exists a w', offer_optical_install F image w = Some (a, w') /\
    ((forall d, disk w' d = disk w d) \/ consent image w w').
Proof.
  intros Hlen. unfold offer_optical_install, get_loaded_image.
  rewrite call_bind. pose proof (law_image image w) as [Hd1 Hk1].
  destruct (HandleProtocol_LoadedImage F image w) as [[status [|li]] w1] eqn:E1; cbn [fst snd] in *;
    [apply mret_run; by left|].
  destruct (EFI_ERROR status) eqn:Es1; [apply mret_run; by left|].
  rewrite call_bind. destruct (law_bio (DeviceHandle li) w1) as [Hb2 [Hd2 Hk2]].
  pose proof (law_bio_wf (DeviceHandle li)) as Hwf. rewrite <- Hb2 in Hwf.
  destruct (HandleProtocol_BlockIo F (DeviceHandle li) w1) as [[status2 s] w2] eqn:E2;
    cbn [fst snd] in *.
  assert (H2 : forall d, disk w2 d = disk w d) by (intros; by rewrite Hd2).
  destruct s as [|s]; [apply mret_run; by left|].
  destruct (Media s) as [|sm] eqn:Hsm; [apply mret_run; by left|].
  destruct (EFI_ERROR status2 || negb (ReadOnly sm) || negb (MediaPresent sm)) eqn:Eopt;
    [apply mret_run; by left|]. bool_prop.
  assert (Hopt : optical image w li sm).
  { unfold optical. rewrite E1, <- Hb2. cbn [fst snd]. repeat (split; [done|]). by exists s. }
  rewrite call_bind. pose proof (law_print w2) as [Hd3 Hk3]. destruct (Print F w2) as [u3 w3] eqn:E3. cbn [fst snd] in *.
  rewrite call_bind. pose proof (law_print w3) as [Hd4 Hk4]. destruct (Print F w3) as [u4 w4] eqn:E4. cbn [fst snd] in *.
  rewrite st_bind_eq. destruct (read_key_spec 5 w4) as (k1 & w5 & Ek & Hd5 & Hk5).
  rewrite Ek.
  assert (Hq : first_question image li w = Some (k1, w5)).
  { unfold first_question, get_loaded_image. rewrite call_bind, E1. cbn [fst snd].
    rewrite call_bind, E2. cbn [fst snd]. rewrite call_bind, E3. cbn [fst snd]. by rewrite call_bind, E4. }
  assert (H5 : forall d, disk w5 d = disk w d) by (intros; by rewrite Hd5, Hd4, Hd3).
  destruct (negb (k1 =? 105) && negb (k1 =? 73)) eqn:Ek1.
  { apply print_run; intros w6 [Hd6 _]. apply mret_run. left. intros. by rewrite Hd6. }
  assert (Hkey1 : k1 = 105 \/ k1 = 73) by (apply key_test; by rewrite Ek1).
  destruct Hk5 as [[_ ?]|Hk5]; [lia|].
  apply (confirm_run image s sm li w w5 k1); [done|done|done|done|exact Hwf|done| |done].
  rewrite Hk5, Hk4, Hk3, Hk2, Hk1. done.
Qed.
End laws.
