(* ===== verification/BootLoad.v ===== *)
(** * boot/main.c: loading the kernel and leaving boot services

    The ELF checks, the segment loader over physical memory, the loop around
    ExitBootServices and the entry point, over the firmware interface of Uefi.
    The file image is a byte list read through checked loads at the offsets of
    the 64-bit ELF structures. *)

From S2P Require Import Prelude Pmm Uefi BootInstall.

(** Constants of the ELF specification. *)
Definition sizeof_Elf64_Ehdr : Z := 64.
Definition sizeof_Elf64_Phdr : Z := 56.
Definition EM_X86_64 : Z := 62.
Definition PT_LOAD : Z := 1.

(** The fields the loader reads. *)
Definition e_machine (eh : bytes) : option Z := load_le 2 eh 18.
Definition e_entry (eh : bytes) : option Z := load_le 8 eh 24.
Definition e_phoff (eh : bytes) : option Z := load_le 8 eh 32.
Definition e_phentsize (eh : bytes) : option Z := load_le 2 eh 54.
Definition e_phnum (eh : bytes) : option Z := load_le 2 eh 56.

Record Elf64_Phdr := mk_phdr {
  p_type : Z;
  p_offset : Z;
  p_paddr : Z;
  p_filesz : Z;
  p_memsz : Z
}.

Definition read_phdr (b : bytes) (o : Z) : option Elf64_Phdr :=
  t ← load_le 4 b o;
  off ← load_le 8 b (o + 8);
  pa ← load_le 8 b (o + 24);
  fs ← load_le 8 b (o + 32);
  ms ← load_le 8 b (o + 40);
  Some (mk_phdr t off pa fs ms).

Definition valid_kernel_elf (eh : bytes) (file_size : Z) : option bool :=
  if file_size <? sizeof_Elf64_Ehdr then Some false else
  m0 ← rd eh 0; m1 ← rd eh 1; m2 ← rd eh 2; m3 ← rd eh 3;
  cls ← rd eh 4; dat ← rd eh 5;
  machine ← e_machine eh;
  entsize ← e_phentsize eh;
  if negb (m0 =? 0x7f) || negb (m1 =? 69) || negb (m2 =? 76) || negb (m3 =? 70)
     || negb (cls =? 2) || negb (dat =? 1) || negb (machine =? EM_X86_64)
     || negb (entsize =? sizeof_Elf64_Phdr) then Some false else
  phoff ← e_phoff eh;
  if file_size <? phoff then Some false else
  phnum ← e_phnum eh;
  let ph_bytes := u64 (phnum * sizeof_Elf64_Phdr) in
  if file_size - phoff <? ph_bytes then Some false else Some true.

Section load.
Context {W : Type} (F : firmware W).

(** [for (i = 0; i < e_phnum; ++i)] from index [i], [k] headers to go; [None]
    in the result is the normal end of the loop. *)
Fixpoint load_segments (k : nat) (i phoff : Z) (buffer : bytes) (file_size : Z)
  : st W (option EFI_STATUS) :=
  match k with
  | O => mret None
  | S k' =>
      ph ← lift (read_phdr buffer (phoff + i * sizeof_Elf64_Phdr));
      if negb (p_type ph =? PT_LOAD) || (p_memsz ph =? 0) then
        load_segments k' (i + 1) phoff buffer file_size else
      if p_memsz ph <? p_filesz ph then mret (Some EFI_LOAD_ERROR) else
      if (file_size <? p_offset ph) || (file_size - p_offset ph <? p_filesz ph)
      then mret (Some EFI_LOAD_ERROR) else
      let pages := EFI_SIZE_TO_PAGES (p_memsz ph) in
      status ← call (AllocatePages F pages (p_paddr ph));
      if EFI_ERROR status then mret (Some status) else
      data ← lift (rd_bytes buffer (p_offset ph) (p_filesz ph));
      _ ← call (CopyMem F (p_paddr ph) data);
      _ ← (if p_filesz ph <? p_memsz ph then
             call (SetMem F (u64 (p_paddr ph + p_filesz ph)) (p_memsz ph - p_filesz ph) 0)
           else mret tt);
      load_segments k' (i + 1) phoff buffer file_size
  end.

(** Status, and the entry point when it is a success. *)
Definition load_kernel (image : EFI_HANDLE) (entry_out : Z) : st W (EFI_STATUS * Z) :=
  '(status, loaded) ← get_loaded_image F image;
  if EFI_ERROR status then mret (status, entry_out) else
  match loaded with
  | Null => lift None
  | Ptr li =>
      '(status, fs) ← call (HandleProtocol_FileSystem F (DeviceHandle li));
      if EFI_ERROR status then mret (status, entry_out) else
      '(status, root) ← call (OpenVolume F fs);
      if EFI_ERROR status then mret (status, entry_out) else
      '(status, file) ← call (Open_kernel_elf F root);
      if EFI_ERROR status then mret (status, entry_out) else
      '(status, info_size) ← call (GetInfo_size F file);
      if negb (status =? EFI_BUFFER_TOO_SMALL) then mret (status, entry_out) else
      '(status, info) ← call (AllocatePool F info_size);
      if EFI_ERROR status then mret (status, entry_out) else
      '(status, file_size) ← call (GetInfo F file info_size);
      if EFI_ERROR status then mret (status, entry_out) else
      '(status, _) ← call (AllocatePool F file_size);
      if EFI_ERROR status then mret (status, entry_out) else
      '(status, bytes_read, buffer) ← call (Read_file F file file_size);
      if EFI_ERROR status || negb (bytes_read =? file_size)
      then mret (EFI_LOAD_ERROR, entry_out) else
      ok ← lift (valid_kernel_elf buffer file_size);
      if negb ok then mret (EFI_LOAD_ERROR, entry_out) else
      phoff ← lift (e_phoff buffer);
      phnum ← lift (e_phnum buffer);
      r ← load_segments (Z.to_nat phnum) 0 phoff buffer file_size;
      match r with
      | Some status => mret (status, entry_out)
      | None => entry ← lift (e_entry buffer); mret (EFI_SUCCESS, entry)
      end
  end.

(** ** Leaving boot services *)

Definition set_memory_map (bi : OrionBootInfo) (map size dsize dversion : Z) : OrionBootInfo :=
  mk_bootinfo (framebuffer_base bi) (framebuffer_size bi) (width bi) (height bi)
    (pixels_per_scanline bi) (pixel_format bi) map size dsize dversion.

(** [for (;;)] of [exit_boot_services]; the firmware decides how often it
    turns, so the fuel is an argument. *)
Fixpoint exit_loop (fuel : nat) (image : EFI_HANDLE) (map map_capacity : Z) (bi : OrionBootInfo)
  : st W (EFI_STATUS * OrionBootInfo) :=
  match fuel with
  | O => lift None
  | S fuel' =>
      '(status, mi) ← call (GetMemoryMap F map_capacity);
      if status =? EFI_BUFFER_TOO_SMALL then
        let map_capacity := u64 (map_size mi + u64 (desc_size mi * 8)) in
        '(status, larger) ← call (AllocatePool F map_capacity);
        if EFI_ERROR status then mret (status, bi) else
        _ ← call (FreePool F map);
        exit_loop fuel' image larger map_capacity bi
      else if EFI_ERROR status then mret (status, bi) else
      let bi := set_memory_map bi map (map_size mi) (desc_size mi) (desc_version mi) in
      status ← call (ExitBootServices F image (map_key mi));
      if status =? EFI_SUCCESS then mret (EFI_SUCCESS, bi) else
      if negb (status =? EFI_INVALID_PARAMETER) then mret (status, bi) else
      exit_loop fuel' image map map_capacity bi
  end.

Definition exit_boot_services (fuel : nat) (image : EFI_HANDLE) (bi : OrionBootInfo)
  : st W (EFI_STATUS * OrionBootInfo) :=
  '(status, mi) ← call (GetMemoryMap F 0);
  if negb (status =? EFI_BUFFER_TOO_SMALL) || (desc_size mi =? 0) then mret (status, bi) else
  let map_capacity := u64 (map_size mi + u64 (desc_size mi * 8)) in
  '(status, map) ← call (AllocatePool F map_capacity);
  if EFI_ERROR status then mret (status, bi) else
  exit_loop fuel image map map_capacity bi.

(** ** Entry point *)

(** Either the loader returns a status, or the kernel is entered at an address
    with a boot information structure. *)
Inductive boot_outcome :=
| Returned (status : EFI_STATUS)
| KernelEntered (kernel_entry bi_addr : Z) (bi : OrionBootInfo).

Definition efi_main (fuel : nat) (image : EFI_HANDLE) : st W boot_outcome :=
  _ ← call (Print F);
  _ ← offer_optical_install F image;
  '(status, gop) ← call (LocateProtocol_Gop F);
  if EFI_ERROR status then _ ← call (Print F); mret (Returned status) else
  match gop with
  | Null => lift None
  | Ptr Null => _ ← call (Print F); mret (Returned EFI_UNSUPPORTED)
  | Ptr (Ptr mode) =>
      match Info mode with
      | Null => _ ← call (Print F); mret (Returned EFI_UNSUPPORTED)
      | Ptr info =>
          if (PixelFormat info =? PixelBltOnly) || (FrameBufferBase mode =? 0) then
            _ ← call (Print F); mret (Returned EFI_UNSUPPORTED)
          else
          '(status, kernel_entry) ← load_kernel image 0;
          if EFI_ERROR status then _ ← call (Print F); mret (Returned status) else
          '(status, bi_addr) ← call (AllocatePool F sizeof_OrionBootInfo);
          if EFI_ERROR status then mret (Returned status) else
          let bi := mk_bootinfo (FrameBufferBase mode) (FrameBufferSize mode)
                      (HorizontalResolution info) (VerticalResolution info)
                      (PixelsPerScanLine info) (PixelFormat info) 0 0 0 0 in
          '(status, bi) ← exit_boot_services fuel image bi;
          if EFI_ERROR status then mret (Returned status)
          else mret (KernelEntered kernel_entry bi_addr bi)
      end
  end.
End load.

(** ** What the loader relies on

    [mem] is physical memory, [owned] the page ranges granted so far.  Pages
    granted at an address lie in the address space; efilib's [CopyMem] and
    [SetMem] do what they say; nothing else writes memory.  A size query fails
    (its buffer is too small by definition), a read fills a buffer of the size
    asked, and a protocol that is found is not null. *)

Definition range : Type := Z * Z.
Definition in_range (a : Z) (r : range) : Prop := fst r <= a < fst r + snd r * 4096.

Class LoaderMachine {W : Type} (F : firmware W) := {
  mem : W -> Z -> Z;
  owned : W -> list range;
  still : W -> W -> Prop := fun w w' => (forall a, mem w' a = mem w a) /\ owned w' = owned w;
  still_image h w : let r := HandleProtocol_LoadedImage F h w in
    still w (snd r) /\ (EFI_ERROR (fst (fst r)) = false -> snd (fst r) <> Null);
  still_fs h w : still w (snd (HandleProtocol_FileSystem F h w));
  still_volume f w : still w (snd (OpenVolume F f w));
  still_open f w : still w (snd (Open_kernel_elf F f w));
  still_info_size f w : let r := GetInfo_size F f w in
    still w (snd r) /\ EFI_ERROR (fst (fst r)) = true;
  still_info f n w : still w (snd (GetInfo F f n w)) /\
    0 <= snd (fst (GetInfo F f n w)) < 18446744073709551616;
  still_pool n w : still w (snd (AllocatePool F n w));
  still_read f n w : let r := Read_file F f n w in
    still w (snd r) /\ (0 <= n -> len (snd (fst r)) = n /\ bytes_ok (snd (fst r)));
  law_pages n d w : let r := AllocatePages F n d w in
    (forall a, mem (snd r) a = mem w a) /\
    (if EFI_ERROR (fst r) then owned (snd r) = owned w
     else owned (snd r) = (d, n) :: owned w /\ d + n * 4096 <= 18446744073709551616);
  law_copymem d v w : let w' := snd (CopyMem F d v w) in
    owned w' = owned w /\
    forall a, mem w' a = if (d <=? a) && (a <? d + len v) then byte_at v (a - d) else mem w a;
  law_setmem d n v w : let w' := snd (SetMem F d n v w) in
    owned w' = owned w /\
    forall a, mem w' a = if (d <=? a) && (a <? d + n) then v else mem w a
}.

(** ** Specification of the load *)

Definition loadable (ph : Elf64_Phdr) : bool := (p_type ph =? PT_LOAD) && negb (p_memsz ph =? 0).

(** A segment whose file part fits the segment and the file. *)
Definition seg_ok (file_size : Z) (ph : Elf64_Phdr) : bool :=
  (p_filesz ph <=? p_memsz ph) && (p_offset ph <=? file_size)
  && (p_filesz ph <=? file_size - p_offset ph).

(** The segment laid over memory: its bytes of the file, then zeros. *)
Definition seg_image (file : bytes) (m : Z -> Z) (ph : Elf64_Phdr) : Z -> Z := fun a =>
  if loadable ph && (p_paddr ph <=? a) && (a <? p_paddr ph + p_memsz ph) then
    if a <? p_paddr ph + p_filesz ph then byte_at file (p_offset ph + (a - p_paddr ph)) else 0
  else m a.

Definition phdr_at (file : bytes) (phoff i : Z) : Elf64_Phdr :=
  default (mk_phdr 0 0 0 0 0) (read_phdr file (phoff + i * 56)).

Definition phdrs (file : bytes) (phoff i : Z) (k : nat) : list Elf64_Phdr :=
  phdr_at file phoff <$> seqZ i (Z.of_nat k).

Definition image_of (file : bytes) (l : list Elf64_Phdr) (m : Z -> Z) : Z -> Z :=
  fold_left (seg_image file) l m.

(** ** Headers *)

Lemma read_phdr_spec file o :
  bytes_ok file -> 0 <= o -> o + 56 <= len file ->
  exists ph, read_phdr file o = Some ph /\
    0 <= p_type ph < 4294967296 /\ 0 <= p_offset ph < 18446744073709551616 /\
    0 <= p_paddr ph < 18446744073709551616 /\ 0 <= p_filesz ph < 18446744073709551616 /\
    0 <= p_memsz ph < 18446744073709551616.
Proof.
  intros Hb Ho Hl. unfold read_phdr.
  destruct (load_le_is_Some 4 file o) as [t Ht]; [lia..|].
  destruct (load_le_is_Some 8 file (o + 8)) as [off Hoff]; [lia..|].
  destruct (load_le_is_Some 8 file (o + 24)) as [pa Hpa]; [lia..|].
  destruct (load_le_is_Some 8 file (o + 32)) as [fs Hfs]; [lia..|].
  destruct (load_le_is_Some 8 file (o + 40)) as [ms Hms]; [lia..|].
  rewrite Ht, Hoff, Hpa, Hfs, Hms. eexists. split; [reflexivity|].
  apply (load_le_range _ _ _ _ Hb) in Ht, Hoff, Hpa, Hfs, Hms.
  cbn [p_type p_offset p_paddr p_filesz p_memsz]. repeat split; lia.
Qed.

Lemma phdrs_cons file phoff i k :
  phdrs file phoff i (S k) = phdr_at file phoff i :: phdrs file phoff (i + 1) k.
Proof.
  unfold phdrs. rewrite seqZ_cons by lia. cbn [fmap list_fmap]. f_equal.
  replace (Z.pred (Z.of_nat (S k))) with (Z.of_nat k) by lia. done.
Qed.

(** The header check, for every file: never reads outside it, and what an
    accepted file guarantees. *)
Lemma valid_kernel_elf_spec file :
  bytes_ok file ->
  exists ok, valid_kernel_elf file (len file) = Some ok /\
    (ok = true -> 64 <= len file /\
       exists phoff phnum entry, e_phoff file = Some phoff /\ e_phnum file = Some phnum /\
         e_entry file = Some entry /\ 0 <= phoff /\ 0 <= phnum < 65536 /\
         phoff + phnum * 56 <= len file).
Proof.
  intros Hb. unfold valid_kernel_elf, sizeof_Elf64_Ehdr.
  destruct (Z.ltb_spec (len file) 64) as [Hs|Hs]; [by exists false|].
  rewrite !rd_byte_at by lia. cbn [mbind option_bind].
  unfold e_machine, e_phentsize, e_phoff, e_phnum, e_entry, sizeof_Elf64_Phdr.
  destruct (load_le_is_Some 2 file 18) as [mach ->]; [lia..|].
  destruct (load_le_is_Some 2 file 54) as [ents ->]; [lia..|].
  destruct (load_le_is_Some 8 file 32) as [phoff Hoff]; [lia..|].
  destruct (load_le_is_Some 2 file 56) as [phnum Hnum]; [lia..|].
  destruct (load_le_is_Some 8 file 24) as [entry Hentry]; [lia..|].
  rewrite Hoff, Hnum. cbn [mbind option_bind].
  destruct (_ || _); [by exists false|].
  pose proof (load_le_range _ _ _ _ Hb Hoff) as Ro. change (256 ^ Z.of_nat 8) with 18446744073709551616 in Ro.
  pose proof (load_le_range _ _ _ _ Hb Hnum) as Rn. change (256 ^ Z.of_nat 2) with 65536 in Rn.
  destruct (Z.ltb_spec (len file) phoff); [by exists false|].
  rewrite u64_id by lia.
  destruct (Z.ltb_spec (len file - phoff) (phnum * 56)); [by exists false|].
  exists true. split; [done|]. intros _. split; [done|].
  exists phoff, phnum, entry. rewrite Hentry. repeat split; lia.
Qed.

Section segments.
Context {W : Type} (F : firmware W) `{!LoaderMachine F}.
Context (file : bytes).
Hypothesis Hfile : bytes_ok file.

Lemma image_of_ext l m m' :
  (forall a, m a = m' a) -> forall a, image_of file l m a = image_of file l m' a.
Proof.
  revert m m'. induction l as [|ph l IH]; intros m m' H a; [apply H|].
  cbn [image_of fold_left]. apply IH. intros b. unfold seg_image. by rewrite H.
Qed.

(** Copy of the file part and clearing of the rest, at granted pages. *)
Lemma segment_stores ph w :
  loadable ph = true -> seg_ok (len file) ph = true ->
  0 <= p_paddr ph -> 0 <= p_offset ph -> 0 <= p_filesz ph ->
  p_paddr ph + EFI_SIZE_TO_PAGES (p_memsz ph) * 4096 <= 18446744073709551616 ->
  0 <= p_memsz ph ->
  exists data w1 w2, rd_bytes file (p_offset ph) (p_filesz ph) = Some data /\
    CopyMem F (p_paddr ph) data w = (tt, w1) /\
    (if p_filesz ph <? p_memsz ph then
       call (SetMem F (u64 (p_paddr ph + p_filesz ph)) (p_memsz ph - p_filesz ph) 0)
     else mret tt) w1 = Some (tt, w2) /\
    owned w2 = owned w /\ forall a, mem w2 a = seg_image file (mem w) ph a.
Proof.
  intros Hload Hok Hpa Hoff Hfs Hpages Hms. unfold seg_ok in Hok. bool_prop.
  pose proof (size_to_pages (p_memsz ph) Hms).
  rewrite rd_bytes_Some by lia.
  pose proof (law_copymem (p_paddr ph) (slice file (p_offset ph) (p_filesz ph)) w) as [Ho1 Hm1].
  destruct (CopyMem F _ _ w) as [[] w1] eqn:E1. cbn [snd] in *.
  rewrite slice_length in Hm1 by lia.
  unfold call, seg_image. rewrite Hload. cbn [andb].
  destruct (Z.ltb_spec (p_filesz ph) (p_memsz ph)) as [Hlt|Hge].
  - rewrite u64_id by lia.
    pose proof (law_setmem (p_paddr ph + p_filesz ph) (p_memsz ph - p_filesz ph) 0 w1)
      as [Ho2 Hm2].
    destruct (SetMem F _ _ _ w1) as [[] w2] eqn:E2. cbn [snd] in *.
    eexists _, w1, w2. split; [reflexivity|]. split; [exact E1|]. split; [by rewrite E2|].
    split; [congruence|].
    intros a. rewrite Hm2, Hm1.
    destruct (Z.leb_spec (p_paddr ph) a), (Z.ltb_spec a (p_paddr ph + p_filesz ph)),
      (Z.leb_spec (p_paddr ph + p_filesz ph) a),
      (Z.ltb_spec a (p_paddr ph + p_filesz ph + (p_memsz ph - p_filesz ph))),
      (Z.ltb_spec a (p_paddr ph + p_memsz ph)); cbn [andb]; try lia; try reflexivity.
    rewrite byte_at_slice by lia. reflexivity.
  - eexists _, w1, w1. split; [reflexivity|]. split; [exact E1|]. split; [reflexivity|].
    split; [congruence|].
    intros a. rewrite Hm1.
    destruct (Z.leb_spec (p_paddr ph) a), (Z.ltb_spec a (p_paddr ph + p_filesz ph)),
      (Z.ltb_spec a (p_paddr ph + p_memsz ph)); cbn [andb]; try lia; try reflexivity.
    rewrite byte_at_slice by lia. reflexivity.
Qed.

(** A segment is laid inside the pages granted for it. *)
Lemma seg_image_range m ph a :
  0 <= p_memsz ph -> seg_image file m ph a <> m a ->
  in_range a (p_paddr ph, EFI_SIZE_TO_PAGES (p_memsz ph)).
Proof.
  intros Hms. unfold seg_image, in_range. cbn [fst snd].
  pose proof (size_to_pages (p_memsz ph) Hms).
  destruct (loadable ph), (Z.leb_spec (p_paddr ph) a),
    (Z.ltb_spec a (p_paddr ph + p_memsz ph)); cbn [andb]; try done. lia.
Qed.

(** What a run of the loop leaves: pages granted, and only they written. *)
Definition confined (w w' : W) : Prop :=
  exists new, owned w' = new ++ owned w /\
    forall a, mem w' a <> mem w a -> Exists (in_range a) new.

Lemma load_segments_spec phoff k i w :
  0 <= phoff -> 0 <= i -> phoff + (i + Z.of_nat k) * 56 <= len file ->
  exists r w', load_segments F k i phoff file (len file) w = Some (r, w') /\ confined w w' /\
    match r with
    | None =>
        (forall a, mem w' a = image_of file (phdrs file phoff i k) (mem w) a) /\
        Forall (fun ph => loadable ph = true -> seg_ok (len file) ph = true)
          (phdrs file phoff i k)
    | Some s => EFI_ERROR s = true
    end.
Proof.
  intros Hp. revert i w. induction k as [|k IH]; intros i w Hi Hl.
  { exists None, w. split; [done|]. split; [by exists []|]. split; [done|constructor]. }
  cbn [load_segments]. unfold sizeof_Elf64_Phdr.
  destruct (read_phdr_spec file (phoff + i * 56) Hfile) as (ph & Eph & Ht & Ho & Ha & Hf & Hm);
    [lia..|].
  rewrite Eph, lift_bind, phdrs_cons.
  assert (Hat : phdr_at file phoff i = ph) by (unfold phdr_at; by rewrite Eph). rewrite Hat.
  cbn [image_of fold_left]. fold (image_of file (phdrs file phoff (i + 1) k)).
  assert (Hstop : forall s, EFI_ERROR s = true -> forall w0, confined w w0 ->
    exists r w', (mret (Some s) : st W (option EFI_STATUS)) w0 = Some (r, w') /\ confined w w' /\
    match r with
    | None => (forall a, mem w' a = image_of file (phdrs file phoff (i + 1) k)
                 (seg_image file (mem w) ph) a) /\
        Forall (fun ph => loadable ph = true -> seg_ok (len file) ph = true)
          (ph :: phdrs file phoff (i + 1) k)
    | Some s => EFI_ERROR s = true
    end) by (intros s Hs w0 H0; by exists (Some s), w0).
  assert (Hid : confined w w) by by exists [].
  destruct (negb (p_type ph =? PT_LOAD) || (p_memsz ph =? 0)) eqn:Hskip.
  { assert (Hno : loadable ph = false).
    { unfold loadable. by destruct (p_type ph =? PT_LOAD), (p_memsz ph =? 0). }
    destruct (IH (i + 1) w) as (r & w' & E & Hc & H); [lia..|].
    exists r, w'. split; [exact E|]. split; [exact Hc|].
    destruct r; [exact H|]. destruct H as [H1 H2]. split; [|constructor; [congruence|done]].
    intros a. rewrite H1. apply image_of_ext. intros b. unfold seg_image. by rewrite Hno. }
  assert (Hload : loadable ph = true).
  { unfold loadable. by destruct (p_type ph =? PT_LOAD), (p_memsz ph =? 0). }
  destruct (Z.ltb_spec (p_memsz ph) (p_filesz ph)); [by apply Hstop|].
  destruct (Z.ltb_spec (len file) (p_offset ph)),
    (Z.ltb_spec (len file - p_offset ph) (p_filesz ph)); cbn [orb]; try by apply Hstop.
  assert (Hok : seg_ok (len file) ph = true).
  { unfold seg_ok. rewrite !andb_true_iff, !Z.leb_le. lia. }
  rewrite call_bind.
  pose proof (law_pages (EFI_SIZE_TO_PAGES (p_memsz ph)) (p_paddr ph) w) as [Hm1 Ho1].
  destruct (AllocatePages F _ _ w) as [status w1]; cbn [fst snd] in *.
  destruct (EFI_ERROR status) eqn:Es.
  { apply Hstop; [done|]. exists []. split; [done|]. intros a Hne. by rewrite Hm1 in Hne. }
  destruct Ho1 as [Ho1 Hend].
  destruct (segment_stores ph w1) as (data & w2 & w3 & Ed & E2 & E3 & Ho3 & Hm3);
    [done|done|lia|lia|lia|lia|lia|].
  rewrite Ed, lift_bind, call_bind, E2. cbn [fst snd]. rewrite st_bind_eq, E3.
  assert (Hm3' : forall a, mem w3 a = seg_image file (mem w) ph a).
  { intros a. rewrite Hm3. unfold seg_image. by rewrite Hm1. }
  destruct (IH (i + 1) w3) as (r & w' & E & (new & Hnew & Hconf) & Hr); [lia..|].
  exists r, w'. split; [exact E|]. split.
  - exists (new ++ [(p_paddr ph, EFI_SIZE_TO_PAGES (p_memsz ph))]).
    rewrite Hnew, Ho3, Ho1, <- app_assoc. split; [done|].
    intros a Hne. apply Exists_app.
    destruct (decide (mem w' a = mem w3 a)) as [Heq|Hne3]; [right|left; by apply Hconf].
    constructor. apply (seg_image_range (mem w)); [lia|]. congruence.
  - destruct r; [exact Hr|]. destruct Hr as [Hr1 Hr2]. split; [|by constructor].
    intros a. rewrite Hr1. by apply image_of_ext.
Qed.
End segments.

Section properties.
Context {W : Type} (F : firmware W) `{!LoaderMachine F}.

Lemma confined_still (w w1 w2 : W) : still w w1 -> confined F w1 w2 -> confined F w w2.
Proof.
  intros [Hm Ho] (new & Hn & Hc). exists new. split; [by rewrite Hn, Ho|].
  intros a Ha. apply Hc. by rewrite Hm.
Qed.

Lemma still_trans (w1 w2 w3 : W) : still w1 w2 -> still w2 w3 -> still w1 w3.
Proof. intros [H1 O1] [H2 O2]. split; [intros a; by rewrite H2|congruence]. Qed.

Lemma still_confined (w w' : W) : still w w' -> confined F w w'.
Proof. intros [Hm Ho]. exists []. split; [done|]. intros a Ha. by rewrite Hm in Ha. Qed.

(** A successful load: the file that was read passes the header check, memory
    is its image, and the entry point is the one it names. *)
Definition loaded_image (file : bytes) (entry : Z) (w w' : W) : Prop :=
  exists phoff phnum,
    valid_kernel_elf file (len file) = Some true /\
    e_phoff file = Some phoff /\ e_phnum file = Some phnum /\ e_entry file = Some entry /\
    (forall a, mem w' a = image_of file (phdrs file phoff 0 (Z.to_nat phnum)) (mem w) a) /\
    Forall (fun ph => loadable ph = true -> seg_ok (len file) ph = true)
      (phdrs file phoff 0 (Z.to_nat phnum)).

(** The part of [load_kernel] that follows the read of the file. *)
Lemma load_file_spec file entry_out w :
  bytes_ok file ->
  exists s e w',
    (ok ← lift (valid_kernel_elf file (len file));
     if negb ok then mret (EFI_LOAD_ERROR, entry_out) else
     phoff ← lift (e_phoff file);
     phnum ← lift (e_phnum file);
     r ← load_segments F (Z.to_nat phnum) 0 phoff file (len file);
     match r with
     | Some status => mret (status, entry_out)
     | None => entry ← lift (e_entry file); mret (EFI_SUCCESS, entry)
     end) w = Some (s, e, w') /\
    confined F w w' /\ (EFI_ERROR s = false -> loaded_image file e w w').
Proof.
  intros Hb. destruct (valid_kernel_elf_spec file Hb) as (ok & Hok & H).
  rewrite Hok, lift_bind. destruct ok; cbn [negb].
  2: { exists EFI_LOAD_ERROR, entry_out, w. split; [done|]. split; [by exists []|done]. }
  destruct (H eq_refl) as (_ & phoff & phnum & entry & E1 & E2 & E3 & H1 & H2 & H3).
  rewrite E1, lift_bind, E2, lift_bind, st_bind_eq.
  destruct (load_segments_spec F file Hb phoff (Z.to_nat phnum) 0 w) as (r & w' & -> & Hc & Hr);
    [lia..|].
  destruct r as [status|].
  - exists status, entry_out, w'. split; [done|]. split; [done|congruence].
  - rewrite E3, lift_bind. exists EFI_SUCCESS, entry, w'. split; [done|]. split; [done|].
    intros _. by exists phoff, phnum.
Qed.

Lemma negb_neq a b : negb (a =? b) = false -> a = b.
Proof. intros H. by bool_prop. Qed.

(** C34. [load_kernel] is safe and complete for every file a disk can hold: it
    never reads outside the file whatever its headers claim, it writes
    physical memory only inside pages the firmware granted to it, and it
    always returns; when it reports success the file passed the ELF check,
    memory is exactly the image of its loadable segments (file bytes, then
    zeros) and the entry point is the one of the header. *)
Theorem load_kernel_correct image entry_out w :
  exists s e w', load_kernel F image entry_out w = Some (s, e, w') /\ confined F w w' /\
    (EFI_ERROR s = false ->
     exists f n w1 w2, still w w2 /\ snd (Read_file F f n w1) = w2 /\
       loaded_image (snd (fst (Read_file F f n w1))) e w2 w').
Proof.
  unfold load_kernel, get_loaded_image.
  assert (Hfail : forall s w1, EFI_ERROR s = true -> still w w1 ->
    exists s' e w', (mret (s, entry_out) : st W (EFI_STATUS * Z)) w1 = Some (s', e, w') /\
      confined F w w' /\ (EFI_ERROR s' = false ->
     exists f n w1 w2, still w w2 /\ snd (Read_file F f n w1) = w2 /\
       loaded_image (snd (fst (Read_file F f n w1))) e w2 w')).
  { intros s w1 Hs Hw. exists s, entry_out, w1. split; [done|].
    split; [by apply still_confined|congruence]. }
  rewrite call_bind. destruct (still_image image w) as [Hw1 Hnn].
  destruct (HandleProtocol_LoadedImage F image w) as [[s1 loaded] w1]; cbn [fst snd] in *.
  destruct (EFI_ERROR s1) eqn:E1; [by apply Hfail|].
  destruct loaded as [|li]; [by destruct (Hnn eq_refl)|].
  rewrite call_bind. pose proof (still_fs (DeviceHandle li) w1) as Hw2.
  destruct (HandleProtocol_FileSystem F _ w1) as [[s2 fs] w2]; cbn [fst snd] in *.
  apply (still_trans _ _ _ Hw1) in Hw2. destruct (EFI_ERROR s2) eqn:E2; [by apply Hfail|].
  rewrite call_bind. pose proof (still_volume fs w2) as Hw3.
  destruct (OpenVolume F fs w2) as [[s3 root] w3]; cbn [fst snd] in *.
  apply (still_trans _ _ _ Hw2) in Hw3. destruct (EFI_ERROR s3) eqn:E3; [by apply Hfail|].
  rewrite call_bind. pose proof (still_open root w3) as Hw4.
  destruct (Open_kernel_elf F root w3) as [[s4 f] w4]; cbn [fst snd] in *.
  apply (still_trans _ _ _ Hw3) in Hw4. destruct (EFI_ERROR s4) eqn:E4; [by apply Hfail|].
  rewrite call_bind. destruct (still_info_size f w4) as [Hw5 E5].
  destruct (GetInfo_size F f w4) as [[s5 isz] w5]; cbn [fst snd] in *.
  apply (still_trans _ _ _ Hw4) in Hw5.
  destruct (negb (s5 =? EFI_BUFFER_TOO_SMALL)); [by apply Hfail|].
  rewrite call_bind. pose proof (still_pool isz w5) as Hw6.
  destruct (AllocatePool F isz w5) as [[s6 info] w6]; cbn [fst snd] in *.
  apply (still_trans _ _ _ Hw5) in Hw6. destruct (EFI_ERROR s6) eqn:E6; [by apply Hfail|].
  rewrite call_bind. destruct (still_info f isz w6) as [Hw7 Hsize].
  destruct (GetInfo F f isz w6) as [[s7 fsize] w7]; cbn [fst snd] in *.
  apply (still_trans _ _ _ Hw6) in Hw7. destruct (EFI_ERROR s7) eqn:E7; [by apply Hfail|].
  rewrite call_bind. pose proof (still_pool fsize w7) as Hw8.
  destruct (AllocatePool F fsize w7) as [[s8 buf] w8]; cbn [fst snd] in *.
  apply (still_trans _ _ _ Hw7) in Hw8. destruct (EFI_ERROR s8) eqn:E8; [by apply Hfail|].
  rewrite call_bind. destruct (still_read f fsize w8) as [Hw9 Hdata].
  destruct (Read_file F f fsize w8) as [[[s9 got] file] w9] eqn:Eread; cbn [fst snd] in *.
  apply (still_trans _ _ _ Hw8) in Hw9.
  destruct (EFI_ERROR s9 || negb (got =? fsize)); [by apply Hfail|].
  destruct Hdata as [Hlen Hb]; [lia|]. rewrite <- Hlen.
  destruct (load_file_spec file entry_out w9 Hb) as (s & e & w' & E & Hc & Hl).
  exists s, e, w'. split; [exact E|]. split; [by apply (confined_still w w9)|].
  intros Hs. exists f, fsize, w8, w9. rewrite Eread. cbn [fst snd]. auto.
Qed.
End properties.

Section leaving.
Context {W : Type} (F : firmware W).

(** The result of a run that ended well: the fields of [bi] are those of a
    memory map the firmware returned in the very state in which it accepted to
    leave boot services, with the key of that map. *)
Definition left_with_map (image : EFI_HANDLE) (bi bi' : OrionBootInfo) (s : EFI_STATUS) (w' : W)
  : Prop :=
  exists map cap mi s1 w1 w2,
    GetMemoryMap F cap w1 = (s1, mi, w2) /\ EFI_ERROR s1 = false /\
    ExitBootServices F image (map_key mi) w2 = (s, w') /\
    bi' = set_memory_map bi map (map_size mi) (desc_size mi) (desc_version mi).

Lemma set_memory_map_twice bi m s d v m' s' d' v' :
  set_memory_map (set_memory_map bi m s d v) m' s' d' v' = set_memory_map bi m' s' d' v'.
Proof. reflexivity. Qed.

Lemma exit_loop_inv fuel image map cap bi w s bi' w' :
  exit_loop F fuel image map cap bi w = Some (s, bi', w') -> EFI_ERROR s = false ->
  left_with_map image bi bi' s w'.
Proof.
  revert map cap bi w. induction fuel as [|fuel IH]; intros map cap bi w; [done|].
  cbn [exit_loop]. rewrite call_bind.
  destruct (GetMemoryMap F cap w) as [[s1 mi] w1] eqn:E1; cbn [fst snd].
  destruct (s1 =? EFI_BUFFER_TOO_SMALL).
  { rewrite call_bind. destruct (AllocatePool F _ w1) as [[s2 larger] w2]; cbn [fst snd].
    destruct (EFI_ERROR s2) eqn:Es2; [intros [= <- <- <-]; congruence|].
    rewrite call_bind. apply IH. }
  destruct (EFI_ERROR s1) eqn:Es1; [intros [= <- <- <-]; congruence|].
  rewrite call_bind. destruct (ExitBootServices F image (map_key mi) w1) as [s3 w3] eqn:E3.
  cbn [fst snd]. set (bi1 := set_memory_map bi _ _ _ _).
  assert (Hnow : forall s4, s4 = s3 -> left_with_map image bi bi1 s4 w3).
  { intros s4 ->. by exists map, cap, mi, s1, w, w1. }
  destruct (Z.eqb_spec s3 EFI_SUCCESS) as [Hs3|_].
  { intros [= <- <- <-] _. by apply Hnow. }
  destruct (negb (s3 =? EFI_INVALID_PARAMETER)).
  { intros [= <- <- <-] _. by apply Hnow. }
  intros H Hs. destruct (IH _ _ _ _ H Hs) as (m & c & mi' & s5 & w5 & w6 & A & B & C & D).
  exists m, c, mi', s5, w5, w6. by rewrite D.
Qed.

(** The answer to the size query is an error, so a success comes from the loop. *)
Lemma exit_boot_services_inv fuel image bi w s bi' w' :
  EFI_ERROR (fst (fst (GetMemoryMap F 0 w))) = true ->
  exit_boot_services F fuel image bi w = Some (s, bi', w') -> EFI_ERROR s = false ->
  left_with_map image bi bi' s w'.
Proof.
  intros Hq. unfold exit_boot_services. rewrite call_bind.
  destruct (GetMemoryMap F 0 w) as [[s1 mi] w1]; cbn [fst snd] in *.
  destruct (negb _ || _); [intros [= <- <- <-]; congruence|].
  rewrite call_bind. destruct (AllocatePool F _ w1) as [[s2 map] w2]; cbn [fst snd].
  destruct (EFI_ERROR s2) eqn:Es2; [intros [= <- <- <-]; congruence|]. apply exit_loop_inv.
Qed.
End leaving.

(** What the specification says of the memory map.  [need w] is its size in the state
    [w]: a buffer is too small exactly when it is smaller, and then the size needed is
    reported.  The map grows by itself, or by more than the eight descriptors an
    allocation is given, only [changes w] more times, and the key of a map is refused
    only after such a change. *)
Class MapFirmware {W : Type} (F : firmware W) := {
  need : W -> Z;
  descriptor : Z;
  changes : W -> nat;
  law_need w : 0 < need w /\ 0 < descriptor /\ need w + descriptor * 8 < 18446744073709551616;
  law_map cap w : let r := GetMemoryMap F cap w in
    need (snd r) = need w /\ (changes (snd r) <= changes w)%nat /\
    (fst (fst r) = EFI_BUFFER_TOO_SMALL <-> cap < need w) /\
    (cap < need w -> map_size (snd (fst r)) = need w /\ desc_size (snd (fst r)) = descriptor);
  law_pool n w : let w' := snd (AllocatePool F n w) in
    (changes w' < changes w)%nat \/ changes w' = changes w /\ need w' <= need w + descriptor * 8;
  law_release p w : let w' := snd (FreePool F p w) in
    (changes w' < changes w)%nat \/ changes w' = changes w /\ need w' <= need w;
  law_refused image key w : let r := ExitBootServices F image key w in
    fst r = EFI_INVALID_PARAMETER -> (changes (snd r) < changes w)%nat
}.

Section ending.
Context {W : Type} (F : firmware W) `{!MapFirmware F}.

(** The turns of the loop that can still come: two for a change, one to get a buffer. *)
Definition turns (cap : Z) (w : W) : nat := 2 * changes w + (if cap <? need w then 1 else 0).

Lemma larger_turns n w :
  (turns (need w + descriptor * 8) (snd (AllocatePool F n w)) <= 2 * changes w)%nat.
Proof.
  unfold turns. destruct (law_pool n w) as [H|[H1 H2]]; destruct (Z.ltb_spec (need w + descriptor * 8)
    (need (snd (AllocatePool F n w)))); lia.
Qed.

Lemma release_turns cap p w : (turns cap (snd (FreePool F p w)) <= turns cap w)%nat.
Proof.
  unfold turns. destruct (law_release p w) as [H|[H1 H2]];
    destruct (Z.ltb_spec cap (need (snd (FreePool F p w)))), (Z.ltb_spec cap (need w)); lia.
Qed.

(** The capacity the loop asks for after a refusal. *)
Lemma capacity cap w : cap < need w ->
  let mi := snd (fst (GetMemoryMap F cap w)) in
  u64 (map_size mi + u64 (desc_size mi * 8)) = need w + descriptor * 8.
Proof.
  cbv zeta. intros H. destruct (law_map cap w) as (_ & _ & _ & Hm). destruct (Hm H) as [-> ->].
  pose proof (law_need w). rewrite (u64_id (descriptor * 8)), u64_id; lia.
Qed.

Lemma exit_loop_terminates fuel image map cap bi w :
  (turns cap w < fuel)%nat -> is_Some (exit_loop F fuel image map cap bi w).
Proof.
  revert map cap bi w. induction fuel as [|fuel IH]; intros map cap bi w Hf; [lia|].
  cbn [exit_loop]. rewrite call_bind. destruct (law_map cap w) as (Hn & Hc & Hsmall & _).
  pose proof (capacity cap w) as Hcap. cbv zeta in Hcap.
  destruct (GetMemoryMap F cap w) as [[s1 mi] w1]; cbn [fst snd] in *.
  destruct (Z.eqb_spec s1 EFI_BUFFER_TOO_SMALL) as [Hs|_].
  { apply Hsmall in Hs. rewrite Hcap, <- Hn by done. rewrite call_bind.
    pose proof (larger_turns (need w1 + descriptor * 8) w1) as Ht.
    destruct (AllocatePool F _ w1) as [[s2 larger] w2]; cbn [fst snd] in *.
    destruct (EFI_ERROR s2); [by eexists|].
    rewrite call_bind. apply IH. pose proof (release_turns (need w1 + descriptor * 8) map w2) as Hr.
    unfold turns in Hf. destruct (Z.ltb_spec cap (need w)); lia. }
  destruct (EFI_ERROR s1); [by eexists|].
  rewrite call_bind. pose proof (law_refused image (map_key mi) w1) as H3.
  destruct (ExitBootServices F image (map_key mi) w1) as [s3 w3]; cbn [fst snd] in *.
  destruct (s3 =? EFI_SUCCESS); [by eexists|].
  destruct (Z.eqb_spec s3 EFI_INVALID_PARAMETER) as [Hs3|_]; cbn [negb]; [|by eexists].
  apply IH. specialize (H3 Hs3). unfold turns in *. destruct (_ <? _), (_ <? _); lia.
Qed.

End ending.

Section entry.
Context {W : Type} (F : firmware W).

(** The boot information before the memory map is filled in. *)
Definition describes (mode : EFI_GRAPHICS_MODE) (info : EFI_GRAPHICS_MODE_INFO) : OrionBootInfo :=
  mk_bootinfo (FrameBufferBase mode) (FrameBufferSize mode) (HorizontalResolution info)
    (VerticalResolution info) (PixelsPerScanLine info) (PixelFormat info) 0 0 0 0.

(** A boot in which every step succeeded, from [w] to the entry of the kernel in
    [w']: the greeting, the installation dialogue, a framebuffer mode that can be
    used, the kernel, the pool for the boot information, the exit. *)
Definition booted (fuel : nat) (image : EFI_HANDLE) (w : W) (entry bi_addr : Z) (bi : OrionBootInfo)
    (w' : W) : Prop :=
  exists w1 s2 mode info w2 s3 w3 s4 w4 s5,
    offer_optical_install F image (snd (Print F w)) = Some (tt, w1) /\
    LocateProtocol_Gop F w1 = (s2, Ptr (Ptr mode), w2) /\ EFI_ERROR s2 = false /\
    Info mode = Ptr info /\ PixelFormat info <> PixelBltOnly /\ FrameBufferBase mode <> 0 /\
    load_kernel F image 0 w2 = Some (s3, entry, w3) /\ EFI_ERROR s3 = false /\
    AllocatePool F sizeof_OrionBootInfo w3 = (s4, bi_addr, w4) /\ EFI_ERROR s4 = false /\
    exit_boot_services F fuel image (describes mode info) w4 = Some (s5, bi, w') /\
    EFI_ERROR s5 = false /\ left_with_map F image (describes mode info) bi s5 w'.

(** C38. The kernel is entered exactly at the end of a boot in which every step
    succeeded: the installation dialogue ended, a framebuffer mode with a base
    address and a direct pixel format was found, [load_kernel] succeeded and gave the
    entry point, the pool for the boot information was granted and is the address
    handed over, and boot services were left with the memory map handed over; the
    boot information describes that very mode and map.  (The firmware answers a size
    query for the memory map with an error, as the specification says.) *)
Theorem efi_main_enters_kernel fuel image w entry bi_addr bi w' :
  (forall w0, EFI_ERROR (fst (fst (GetMemoryMap F 0 w0))) = true) ->
  efi_main F fuel image w = Some (KernelEntered entry bi_addr bi, w') <->
  booted fuel image w entry bi_addr bi w'.
Proof.
  intros Hquery. unfold efi_main, booted. rewrite call_bind. split.
  - intros ([] & w1 & Eo & H)%st_bind_inv. rewrite call_bind in H.
    destruct (LocateProtocol_Gop F w1) as [[s2 gop] w2] eqn:Eg; cbn [fst snd] in H.
    destruct (EFI_ERROR s2) eqn:Es2; [by rewrite call_bind in H|].
    destruct gop as [|[|mode]]; [done|by rewrite call_bind in H|].
    destruct (Info mode) as [|info] eqn:Ei; [by rewrite call_bind in H|].
    destruct ((PixelFormat info =? PixelBltOnly) || (FrameBufferBase mode =? 0)) eqn:Ef;
      [by rewrite call_bind in H|]. bool_prop.
    apply st_bind_inv in H as ([s3 e] & w3 & El & H).
    destruct (EFI_ERROR s3) eqn:Es3; [by rewrite call_bind in H|].
    rewrite call_bind in H. destruct (AllocatePool F _ w3) as [[s4 ba] w4] eqn:Ea; cbn [fst snd] in H.
    destruct (EFI_ERROR s4) eqn:Es4; [done|].
    apply st_bind_inv in H as ([s5 bi5] & w5 & Ex & H).
    destruct (EFI_ERROR s5) eqn:Es5; [done|]. injection H as -> -> -> ->.
    exists w1, s2, mode, info, w2, s3, w3, s4, w4, s5.
    repeat (split; [done|]). apply (exit_boot_services_inv F fuel image _ w4); done.
  - intros (w1 & s2 & mode & info & w2 & s3 & w3 & s4 & w4 & s5 & Eo & Eg & Es2 & Ei & Hp & Hb & El & Es3 & Ea & Es4 & Ex & Es5 & _).
    rewrite st_bind_eq, Eo, call_bind, Eg. cbn [fst snd]. rewrite Es2, Ei.
    destruct (Z.eqb_spec (PixelFormat info) PixelBltOnly), (Z.eqb_spec (FrameBufferBase mode) 0); try done.
    cbn [orb]. rewrite st_bind_eq, El, Es3, call_bind, Ea. cbn [fst snd]. rewrite Es4.
    fold (describes mode info). by rewrite st_bind_eq, Ex, Es5.
Qed.
End entry.
