(* ===== verification/BootSim.v ===== *)
(** * A concrete machine for the boot loader

    An executable firmware: an optical medium (handle 1), a writable disk
    (handle 2) and one of its partitions (handle 3), scripted keystrokes, byte
    addressed memory and a bounded number of refusals to leave boot services.
    It satisfies the laws of the installer and of the loader, so the theorems
    of BootInstall and BootLoad apply to it. *)

From S2P Require Import Prelude Pmm Uefi BootInstall BootLoad.

Record machine := mk_machine {
  m_disk : Z -> bytes;
  m_keys : list Z;
  m_pending : list Z;
  m_mem : Z -> Z;
  m_owned : list range;
  m_refusals : nat
}.

Definition set_disk (w : machine) (d : Z) (v : bytes) : machine :=
  mk_machine (fun x => if x =? d then v else m_disk w x) (m_keys w) (m_pending w) (m_mem w)
    (m_owned w) (m_refusals w).
Definition set_keys (w : machine) (k p : list Z) : machine :=
  mk_machine (m_disk w) k p (m_mem w) (m_owned w) (m_refusals w).
Definition set_mem (w : machine) (f : Z -> Z) : machine :=
  mk_machine (m_disk w) (m_keys w) (m_pending w) f (m_owned w) (m_refusals w).
Definition set_owned (w : machine) (o : list range) : machine :=
  mk_machine (m_disk w) (m_keys w) (m_pending w) (m_mem w) o (m_refusals w).
Definition set_refusals (w : machine) (r : nat) : machine :=
  mk_machine (m_disk w) (m_keys w) (m_pending w) (m_mem w) (m_owned w) r.

Definition cd : EFI_BLOCK_IO_MEDIA := mk_media 1 true false true 4 2.
Definition hd : EFI_BLOCK_IO_MEDIA := mk_media 2 true false false 2 7.
Definition part : EFI_BLOCK_IO_MEDIA := mk_media 3 true true false 2 7.

Definition sim_bio (h : EFI_HANDLE) : EFI_STATUS * ptr EFI_BLOCK_IO_PROTOCOL :=
  if h =? 1 then (EFI_SUCCESS, Ptr (mk_bio 1 (Ptr cd))) else
  if h =? 2 then (EFI_SUCCESS, Ptr (mk_bio 2 (Ptr hd))) else
  if h =? 3 then (EFI_SUCCESS, Ptr (mk_bio 3 (Ptr part))) else (EFI_NOT_FOUND, Null).

(** A kernel file: one loadable segment of 4 bytes of file and 6 of memory at
    16 MB, and a header of another type. *)
Definition put (o : nat) (vs : bytes) (m : bytes) : bytes := blit m (Z.of_nat o) vs.
Definition kernel : bytes :=
  put 0 [0x7f; 69; 76; 70; 2; 1] (put 18 [62] (put 24 [0; 0; 0; 1] (put 32 [64]
  (put 54 [56; 0; 2] (put 64 [1] (put 72 [176] (put 88 [0; 0; 0; 1] (put 96 [4] (put 104 [6]
  (put 120 [4] (put 176 [1; 2; 3; 4] (replicate 180 0)))))))))))).

Definition gop_mode : EFI_GRAPHICS_MODE :=
  mk_gop_mode (Ptr (mk_gop_info 640 480 640 1)) 0xE0000000 0x12C000.

Definition sim : firmware machine := {|
  HandleProtocol_LoadedImage := fun h w => ((EFI_SUCCESS, Ptr (mk_image 1)), w);
  HandleProtocol_BlockIo := fun h w => (sim_bio h, w);
  HandleProtocol_FileSystem := fun h w => ((EFI_SUCCESS, Ptr 7), w);
  LocateHandleBuffer_BlockIo := fun w => ((EFI_SUCCESS, 256, [1; 2; 3]), w);
  LocateProtocol_Gop := fun w => ((EFI_SUCCESS, Ptr (Ptr gop_mode)), w);
  AllocatePool := fun n w => ((EFI_SUCCESS, 512), w);
  FreePool := fun p w => (tt, w);
  AllocatePages := fun n d w =>
    if d + n * 4096 <=? 18446744073709551616
    then (EFI_SUCCESS, set_owned w ((d, n) :: m_owned w)) else (EFI_NOT_FOUND, w);
  CreateEvent := fun w => ((EFI_SUCCESS, 5), w);
  SetTimer := fun e n w => (EFI_SUCCESS, w);
  CloseEvent := fun e w => (tt, w);
  WaitForEvent := fun e w => ((EFI_SUCCESS, 0), w);
  ReadKeyStroke := fun w =>
    match m_pending w with
    | [] => ((EFIERR 6, 0), w)
    | k :: ks => ((EFI_SUCCESS, k), set_keys w (m_keys w ++ [k]) ks)
    end;
  ReadBlocks := fun b i lba n w =>
    match Media b with
    | Ptr m => ((EFI_SUCCESS, slice (m_disk w (bio_device b)) (lba * BlockSize m) n), w)
    | Null => ((EFI_NOT_FOUND, []), w)
    end;
  WriteBlocks := fun b i lba n data w =>
    match Media b with
    | Ptr m => (EFI_SUCCESS,
        set_disk w (bio_device b) (blit (m_disk w (bio_device b)) (lba * BlockSize m) data))
    | Null => (EFI_NOT_FOUND, w)
    end;
  FlushBlocks := fun b w => (EFI_SUCCESS, w);
  OpenVolume := fun f w => ((EFI_SUCCESS, 8), w);
  Open_kernel_elf := fun f w => ((EFI_SUCCESS, 9), w);
  GetInfo_size := fun f w => ((EFI_BUFFER_TOO_SMALL, 80), w);
  GetInfo := fun f n w => ((EFI_SUCCESS, 180), w);
  Read_file := fun f n w =>
    ((EFI_SUCCESS, n, if n =? 180 then kernel else replicate (Z.to_nat n) 0), w);
  GetMemoryMap := fun cap w =>
    let size := 120 + 400 * Z.of_nat (3 - m_refusals w) in
    if cap <? size then ((EFI_BUFFER_TOO_SMALL, mk_map_info size 0 40 1), w)
    else ((EFI_SUCCESS, mk_map_info size 77 40 1), w);
  ExitBootServices := fun image key w =>
    match m_refusals w with
    | S r => (EFI_INVALID_PARAMETER, set_refusals w r)
    | O => (EFI_SUCCESS, w)
    end;
  CopyMem := fun d v w =>
    (tt, set_mem w (fun a => if (d <=? a) && (a <? d + len v) then byte_at v (a - d)
                             else m_mem w a));
  SetMem := fun d n v w =>
    (tt, set_mem w (fun a => if (d <=? a) && (a <? d + n) then v else m_mem w a));
  Print := fun w => (tt, w)
|}.

#[export] Instance sim_machine : UefiMachine sim.
Proof.
  refine {| disk := m_disk; keys := m_keys; bio_at := sim_bio |};
    try (intros; split; reflexivity).
  - intros h w. split; [reflexivity|split; reflexivity].
  - intros h b m Hb Hm. unfold sim_bio in Hb.
    destruct (h =? 1); [|destruct (h =? 2); [|destruct (h =? 3)]]; cbn [snd] in Hb;
      [injection Hb as <-..|discriminate]; injection Hm as <-; split; cbn; lia.
  - intros w. cbn. destruct (m_pending w); cbn; [by rewrite app_nil_r|done].
  - intros b m i lba n w Hm. cbn. rewrite Hm. cbn. split; [by split|done].
  - intros b m i lba n data w Hm. cbn. rewrite Hm. cbn [fst snd set_disk m_disk m_keys].
    split; [done|]. split.
    + intros d Hd. by destruct (Z.eqb_spec d (bio_device b)).
    + by rewrite Z.eqb_refl.
Defined.

#[export] Instance sim_loader : LoaderMachine sim.
Proof.
  refine {| mem := m_mem; owned := m_owned |}; try (intros; split; reflexivity).
  - intros h w. split; [split; reflexivity|discriminate].
  - intros f w. split; [split; reflexivity|reflexivity].
  - intros f n w. split; [split; reflexivity|cbn; lia].
  - intros f n w. split; [split; reflexivity|]. intros Hn. cbn [sim Read_file fst snd].
    destruct (Z.eqb_spec n 180) as [->|_].
    + split; [reflexivity|]. apply bytes_okb_spec. reflexivity.
    + split; [rewrite length_replicate; lia|]. apply bytes_ok_replicate. unfold is_byte. lia.
  - intros n d w. cbn [sim AllocatePages].
    destruct (Z.leb_spec (d + n * 4096) 18446744073709551616) as [H|H].
    + split; [reflexivity|]. split; [reflexivity|exact H].
    + split; reflexivity.
Defined.

(** Every refusal to leave comes with a map that is ten descriptors longer. *)
#[export] Instance sim_map : MapFirmware sim.
Proof.
  refine {| need := fun w => 120 + 400 * Z.of_nat (3 - m_refusals w); descriptor := 40; changes := m_refusals |}.
  - intros w. lia.
  - intros cap w. cbn [sim GetMemoryMap]. cbv zeta.
    destruct (Z.ltb_spec cap (120 + 400 * Z.of_nat (3 - m_refusals w))); cbn; repeat split; (done || lia).
  - intros n w. right. cbn. lia.
  - intros p w. right. cbn. lia.
  - intros image key w. cbn [sim ExitBootServices]. destruct (m_refusals w) eqn:E; cbn; [discriminate|lia].
Defined.

(** ** The theorems at work *)

Definition start (pending : list Z) : machine :=
  mk_machine (fun d => if d =? 1 then [1; 2; 3; 4; 5; 6; 7; 8; 9; 10; 11; 12]
                       else replicate 16 (100 + d)) [] pending (fun _ => 0) [] 3.

Definition cd_bio : EFI_BLOCK_IO_PROTOCOL := mk_bio 1 (Ptr cd).
Definition hd_bio : EFI_BLOCK_IO_PROTOCOL := mk_bio 2 (Ptr hd).

Lemma find_single_install_target_unique_witness :
  exists w', find_single_install_target sim 1 12 Null (start [])
    = Some ((EFI_SUCCESS, Ptr hd_bio), w').
Proof.
  destruct (find_single_install_target_unique sim 1 12 Null (start []) EFI_SUCCESS 256 [1; 2; 3]
    (start [])) as (r & w' & E & _ & H & _).
  { reflexivity. }
  { reflexivity. }
  exists w'. rewrite E. rewrite (H 2); [reflexivity|reflexivity|vm_compute; reflexivity].
Defined.

Lemma copy_install_media_correct_witness :
  exists status w', copy_install_media sim (Ptr cd_bio) (Ptr hd_bio) (start [])
    = Some (status, w') /\ forall d, d <> 2 -> m_disk w' d = m_disk (start []) d.
Proof.
  destruct (copy_install_media_correct sim cd_bio hd_bio cd hd (start []))
    as (status & w' & E & Ho & _).
  { reflexivity. }
  { reflexivity. }
  { split; cbn; lia. }
  { split; cbn; lia. }
  { discriminate. }
  { reflexivity. }
  { reflexivity. }
  { discriminate. }
  exists status, w'. split; [exact E|exact Ho].
Defined.

Example copy_result :
  (fun '(s, w) => (s, m_disk w 2)) <$>
    copy_install_media sim (Ptr cd_bio) (Ptr hd_bio) (start [])
  = Some (EFI_SUCCESS, [1; 2; 3; 4; 5; 6; 7; 8; 9; 10; 11; 12; 102; 102; 102; 102]).
Proof. vm_compute. reflexivity. Qed.

Lemma offer_optical_install_confirmed_witness :
  exists a w', offer_optical_install sim 0 (start [105; 89]) = Some (a, w') /\
    ((forall d, m_disk w' d = m_disk (start [105; 89]) d)
     \/ consent sim 0 (start [105; 89]) w').
Proof.
  destruct (offer_optical_install_confirmed sim 0 (start [105; 89])) as (a & w' & E & H).
  { intros w1. reflexivity. }
  exists a, w'. split; [exact E|exact H].
Defined.

(** I and then Y installs; I and then anything else does not. *)
Example offer_results :
  ((fun '(_, w) => m_disk w 2) <$> offer_optical_install sim 0 (start [105; 89]),
   (fun '(_, w) => m_disk w 2) <$> offer_optical_install sim 0 (start [105; 110]))
  = (Some [1; 2; 3; 4; 5; 6; 7; 8; 9; 10; 11; 12; 102; 102; 102; 102],
     Some (replicate 16 102)).
Proof. vm_compute. reflexivity. Qed.

Example load_kernel_result :
  (fun '(s, e, w) => (s, e, m_mem w <$> [0x1000000; 0x1000003; 0x1000004], m_owned w)) <$>
    load_kernel sim 0 0 (start [])
  = Some (EFI_SUCCESS, 0x1000000, [1; 4; 0], [(0x1000000, 1)]).
Proof. vm_compute. reflexivity. Qed.


(** The map outgrows the buffer after each refusal; the loop gets a larger one. *)
Example exit_turns :
  (fun '(s, bi', w) => (s, memory_map_size bi', m_refusals w)) <$>
    exit_boot_services sim 7 0 (mk_bootinfo 1 2 3 4 5 6 0 0 0 0) (start [])
  = Some (EFI_SUCCESS, 1320, O).
Proof. vm_compute. reflexivity. Qed.

Definition boot_end : machine :=
  match efi_main sim 8 0 (start [110]) with Some (_, w) => w | None => start [] end.

Lemma boot_ends :
  match efi_main sim 8 0 (start [110]) with
  | Some (KernelEntered e a b, _) =>
      (e, a, b) = (0x1000000, 512, mk_bootinfo 0xE0000000 0x12C000 640 480 640 1 512 1320 40 1)
  | _ => False
  end.
Proof. vm_compute. reflexivity. Qed.

Lemma efi_main_enters_kernel_witness :
  booted sim 8 0 (start [110]) 0x1000000 512
    (mk_bootinfo 0xE0000000 0x12C000 640 480 640 1 512 1320 40 1) boot_end.
Proof.
  apply (efi_main_enters_kernel sim 8 0 (start [110])).
  - intros w0. cbn [sim GetMemoryMap]. cbv zeta.
    destruct (Z.ltb_spec 0 (120 + 400 * Z.of_nat (3 - m_refusals w0))); [reflexivity|lia].
  - unfold boot_end. pose proof boot_ends as H.
    destruct (efi_main sim 8 0 (start [110])) as [[[s|e a b] w]|]; [destruct H| |destruct H].
    injection H as -> -> ->. reflexivity.
Defined.

Lemma load_kernel_correct_witness :
  exists s e w', load_kernel sim 0 0 (start []) = Some (s, e, w') /\
    confined sim (start []) w' /\ (s, e) = (EFI_SUCCESS, 0x1000000).
Proof.
  destruct (load_kernel_correct sim 0 0 (start [])) as (s & e & w' & E & Hc & _).
  exists s, e, w'. split; [exact E|]. split; [exact Hc|].
  pose proof load_kernel_result as H. rewrite E in H. injection H as -> -> _ _. reflexivity.
Defined.
