(* ===== verification/Interrupts.v ===== *)
(** * kernel/interrupts.c

    The input rings filled by the keyboard and mouse interrupts and drained by
    the main loop, the programmable timer, the PS/2 mouse start-up, the
    interrupt gates and the hexadecimal output of the panic screen.  Port I/O
    is an environment [W]: [inb] reads a port, [outb] writes one. *)

From stdpp Require Import relations.
From S2P Require Import Prelude.

Definition PIC1 : Z := 0x20.
Definition PIC2 : Z := 0xA0.
Definition PIT_CH0 : Z := 0x40.
Definition PIT_CMD : Z := 0x43.
Definition PIT_BASE_HZ : Z := 1193182.

(** ** The rings *)

(** An array with the index where the interrupt writes and the index where the
    main loop reads. *)
Record ring := mk_ring { queue : bytes; head : Z; tail : Z }.

(** [next=(uint8_t)(head+1)&mask; if(next!=tail){queue[head]=s;head=next;}] *)
Definition ring_put (mask : Z) (r : ring) (s : Z) : option ring :=
  let next := Z.land (u8 (head r + 1)) mask in
  if negb (next =? tail r) then
    q ← wr (queue r) (head r) s; Some (mk_ring q next (tail r))
  else Some r.

(** The three accesses of a pop, in order: the test, the read of the byte, the
    update of the index. *)
Definition ring_empty (r : ring) : bool := tail r =? head r.
Definition ring_peek (r : ring) : option Z := rd (queue r) (tail r).
Definition ring_advance (mask : Z) (r : ring) : ring :=
  mk_ring (queue r) (head r) (Z.land (u8 (tail r + 1)) mask).

(** Return value and [*out] ([None] when nothing is stored). *)
Definition ring_pop (mask : Z) (r : ring) : option (Z * option Z * ring) :=
  if ring_empty r then Some (0, None, r) else
  v ← ring_peek r; Some (1, Some v, ring_advance mask r).

(** ** The state of the driver *)

Record intr := mk_intr {
  g_ticks : Z;
  g_pit_hz : Z;
  keys : ring;
  mouse : ring;
  g_mouse_available : Z;
  g_mouse_packet_size : Z
}.

Definition set_ticks (s : intr) (v : Z) : intr :=
  mk_intr v (g_pit_hz s) (keys s) (mouse s) (g_mouse_available s) (g_mouse_packet_size s).
Definition set_pit_hz (s : intr) (v : Z) : intr :=
  mk_intr (g_ticks s) v (keys s) (mouse s) (g_mouse_available s) (g_mouse_packet_size s).
Definition set_keys (s : intr) (r : ring) : intr :=
  mk_intr (g_ticks s) (g_pit_hz s) r (mouse s) (g_mouse_available s) (g_mouse_packet_size s).
Definition set_mouse (s : intr) (r : ring) : intr :=
  mk_intr (g_ticks s) (g_pit_hz s) (keys s) r (g_mouse_available s) (g_mouse_packet_size s).
Definition set_available (s : intr) (v : Z) : intr :=
  mk_intr (g_ticks s) (g_pit_hz s) (keys s) (mouse s) v (g_mouse_packet_size s).
Definition set_packet_size (s : intr) (v : Z) : intr :=
  mk_intr (g_ticks s) (g_pit_hz s) (keys s) (mouse s) (g_mouse_available s) v.

Section ports.
Context {W : Type} (inb : Z -> W -> Z * W) (outb : Z -> Z -> W -> W).

Definition pit_program (s : intr) (hz : Z) (w : W) : intr * W :=
  let hz := if hz <? 19 then 19 else hz in
  let hz := if 1000 <? hz then 1000 else hz in
  let divisor := PIT_BASE_HZ / hz in
  let divisor := if divisor =? 0 then 1 else divisor in
  let divisor := if 65535 <? divisor then 65535 else divisor in
  let s := set_pit_hz s (PIT_BASE_HZ / divisor) in
  let w := outb PIT_CMD 0x36 w in
  let w := outb PIT_CH0 (u8 (Z.land divisor 0xff)) w in
  let w := outb PIT_CH0 (u8 (Z.shiftr divisor 8)) w in
  (s, w).

Definition pit_isr (s : intr) (w : W) : intr * W :=
  (set_ticks s (u64 (g_ticks s + 1)), outb PIC1 0x20 w).

Definition keyboard_isr (s : intr) (w : W) : option (intr * W) :=
  let '(b, w) := inb 0x60 w in
  r ← ring_put 63 (keys s) b;
  Some (set_keys s r, outb PIC1 0x20 w).

Definition mouse_isr (s : intr) (w : W) : option (intr * W) :=
  let '(b, w) := inb 0x60 w in
  r ← ring_put 127 (mouse s) b;
  Some (set_mouse s r, outb PIC1 0x20 (outb PIC2 0x20 w)).

(** [for (i=0;i<100000;i++) if((inb(0x64)&2)==0) return 1; return 0;] *)
Fixpoint wait_write_loop (n : nat) (w : W) : Z * W :=
  match n with
  | O => (0, w)
  | S n' => let '(v, w) := inb 0x64 w in
            if Z.land v 2 =? 0 then (1, w) else wait_write_loop n' w
  end.
Definition ps2_wait_write (w : W) : Z * W := wait_write_loop (Z.to_nat 100000) w.

Fixpoint wait_read_loop (n : nat) (w : W) : Z * W :=
  match n with
  | O => (0, w)
  | S n' => let '(v, w) := inb 0x64 w in
            if negb (Z.land v 1 =? 0) then (1, w) else wait_read_loop n' w
  end.
Definition ps2_wait_read (w : W) : Z * W := wait_read_loop (Z.to_nat 100000) w.

Definition mouse_send (v : Z) (w : W) : Z * W :=
  let '(ok, w) := ps2_wait_write w in
  if ok =? 0 then (0, w) else
  let w := outb 0x64 0xD4 w in
  let '(ok, w) := ps2_wait_write w in
  if ok =? 0 then (0, w) else (1, outb 0x60 v w).

Definition mouse_write (v : Z) (w : W) : Z * W :=
  let '(ok, w) := mouse_send v w in
  if ok =? 0 then (0, w) else
  let '(ok, w) := ps2_wait_read w in
  if ok =? 0 then (0, w) else
  let '(b, w) := inb 0x60 w in
  ((if b =? 0xFA then 1 else 0), w).

(** The result and the byte read. *)
Definition mouse_command_read (cmd out : Z) (w : W) : Z * Z * W :=
  let '(ok, w) := mouse_send cmd w in
  if ok =? 0 then (0, out, w) else
  let '(ok, w) := ps2_wait_read w in
  if ok =? 0 then (0, out, w) else
  let '(b, w) := inb 0x60 w in
  if negb (b =? 0xFA) then (0, out, w) else
  let '(ok, w) := ps2_wait_read w in
  if ok =? 0 then (0, out, w) else
  let '(b, w) := inb 0x60 w in
  (1, b, w).

(** [mouse_write(v0)&&mouse_write(v1)&&...] *)
Fixpoint mouse_writes (vs : list Z) (w : W) : Z * W :=
  match vs with
  | [] => (1, w)
  | v :: vs' => let '(ok, w) := mouse_write v w in
                if ok =? 0 then (0, w) else mouse_writes vs' w
  end.

Definition mouse_init (s : intr) (w : W) : intr * W :=
  let '(ok, w) := ps2_wait_write w in
  if ok =? 0 then (s, w) else
  let w := outb 0x64 0xA8 w in
  let '(ok, w) := ps2_wait_write w in
  if ok =? 0 then (s, w) else
  let w := outb 0x64 0x20 w in
  let '(ok, w) := ps2_wait_read w in
  if ok =? 0 then (s, w) else
  let '(cmd, w) := inb 0x60 w in
  let cmd := u8 (Z.lor cmd 0x02) in
  let cmd := Z.land cmd (u8 (Z.lnot 0x20)) in
  let '(ok, w) := ps2_wait_write w in
  if ok =? 0 then (s, w) else
  let w := outb 0x64 0x60 w in
  let '(ok, w) := ps2_wait_write w in
  if ok =? 0 then (s, w) else
  let w := outb 0x60 cmd w in
  let '(ok, w) := mouse_write 0xF6 w in
  if ok =? 0 then (s, w) else
  let '(ok, w) := mouse_writes [0xF3; 200; 0xF3; 100; 0xF3; 80] w in
  let '(s, w) :=
    (if negb (ok =? 0) then
       let '(ok, id, w) := mouse_command_read 0xF2 0 w in
       if negb (ok =? 0) && ((id =? 3) || (id =? 4)) then (set_packet_size s 4, w) else (s, w)
     else (s, w)) in
  let '(ok, w) := mouse_write 0xF4 w in
  if ok =? 0 then (s, w) else (set_available s 1, w).
End ports.

Definition timer_ticks (s : intr) : Z := g_ticks s.
Definition timer_frequency (s : intr) : Z := g_pit_hz s.

Definition keyboard_pop_scancode (s : intr) : option (Z * option Z * intr) :=
  '(r, v, k) ← ring_pop 63 (keys s); Some (r, v, set_keys s k).
Definition mouse_pop_byte (s : intr) : option (Z * option Z * intr) :=
  '(r, v, k) ← ring_pop 127 (mouse s); Some (r, v, set_mouse s k).

(** ** Gates and panic output *)

Record IdtGate := mk_gate {
  off0 : Z; sel : Z; ist : Z; attr : Z; off1 : Z; off2 : Z; zero : Z
}.

Definition idt_gate (a : Z) : IdtGate :=
  mk_gate (u16 (Z.land a 0xffff)) 0x08 0 0x8e (u16 (Z.land (Z.shiftr a 16) 0xffff))
    (u32 (Z.shiftr a 32)) 0.

Definition hex_digits : bytes :=
  [48; 49; 50; 51; 52; 53; 54; 55; 56; 57; 65; 66; 67; 68; 69; 70].

(** [for(i=0;i<16;i++) out[2+i]=h[(v>>(60-i*4))&15];] from [i], [k] to go. *)
Fixpoint hex_loop (k : nat) (v i : Z) (out : bytes) : option bytes :=
  match k with
  | O => Some out
  | S k' =>
      d ← rd hex_digits (Z.land (Z.shiftr v (60 - i * 4)) 15);
      out ← wr out (2 + i) d;
      hex_loop k' v (i + 1) out
  end.

Definition hexstr (v : Z) (out : bytes) : option bytes :=
  out ← wr out 0 48;
  out ← wr out 1 120;
  out ← hex_loop 16 v 0 out;
  wr out 18 0.

(** ** The ring as a bounded queue *)

Section ring.
Context (N : Z).
Hypothesis HN : N = 64 \/ N = 128.

Definition ring_ok (r : ring) : Prop :=
  len (queue r) = N /\ 0 <= head r < N /\ 0 <= tail r < N.

Definition count (r : ring) : Z := (head r - tail r) mod N.

(** Oldest byte first. *)
Definition contents (r : ring) : bytes :=
  (fun i => byte_at (queue r) ((tail r + i) mod N)) <$> seqZ 0 (count r).

Lemma next_index x : Z.land (u8 x) (N - 1) = x mod N.
Proof.
  destruct HN as [->| ->]; [change (64 - 1) with (Z.ones 6)|change (128 - 1) with (Z.ones 7)];
    rewrite Z.land_ones by lia; unfold u8;
    [change (2 ^ 6) with 64|change (2 ^ 7) with 128]; zlia.
Qed.

Lemma count_range r : 0 <= count r < N.
Proof. unfold count. apply Z.mod_pos_bound. lia. Qed.

Lemma contents_length r : len (contents r) = count r.
Proof.
  unfold contents. rewrite length_fmap, length_seqZ. pose proof (count_range r). lia.
Qed.

Lemma contents_empty r : ring_ok r -> ring_empty r = bool_decide (contents r = []).
Proof.
  intros (_ & Hh & Ht). unfold ring_empty.
  pose proof (contents_length r) as Hl. unfold count in Hl.
  destruct (Z.eqb_spec (tail r) (head r)) as [E|E]; symmetry.
  - apply bool_decide_eq_true_2. apply length_zero_iff_nil.
    rewrite E, Z.sub_diag, Z.mod_0_l in Hl by lia. lia.
  - apply bool_decide_eq_false_2. intros H0. rewrite H0 in Hl. cbn in Hl.
    destruct HN as [->| ->]; zlia.
Qed.

(** A byte is taken exactly while the ring holds fewer than [N - 1]. *)
Lemma ring_put_spec r b :
  ring_ok r ->
  exists r', ring_put (N - 1) r b = Some r' /\ ring_ok r' /\ tail r' = tail r /\
    contents r' = (if count r <? N - 1 then contents r ++ [b] else contents r).
Proof.
  intros Hok. pose proof Hok as (Hq & Hh & Ht). unfold ring_put. rewrite next_index.
  assert (Hfull : negb ((head r + 1) mod N =? tail r) = (count r <? N - 1)).
  { unfold count. destruct (Z.eqb_spec ((head r + 1) mod N) (tail r)),
      (Z.ltb_spec ((head r - tail r) mod N) (N - 1)); cbn; try done;
      destruct HN as [->| ->]; zlia. }
  rewrite Hfull. destruct (Z.ltb_spec (count r) (N - 1)) as [Hc|Hc].
  2: { by exists r. }
  rewrite wr_Some by lia. cbn [mbind option_bind].
  eexists. split; [reflexivity|].
  assert (Hm : 0 <= (head r + 1) mod N < N) by (apply Z.mod_pos_bound; lia).
  split; [split; [cbn [queue]; by rewrite length_insert|done]|]. split; [done|].
  pose proof (count_range r) as Hcr.
  set (r' := mk_ring _ _ _).
  assert (Hc' : count r' = count r + 1).
  { unfold r', count in *. cbn [head tail]. destruct HN as [->| ->]; zlia. }
  unfold contents. rewrite Hc', seqZ_app by lia. rewrite fmap_app, Z.add_0_l, seqZ_one.
  cbn [fmap list_fmap]. unfold r'. cbn [queue tail].
  assert (Hhead : (tail r + count r) mod N = head r).
  { unfold count. destruct HN as [->| ->]; zlia. }
  f_equal.
  - apply list_fmap_ext. intros k i Hi. apply lookup_seqZ in Hi as [-> Hi].
    unfold byte_at. f_equal. unfold rd.
    assert (Hj : 0 <= (tail r + (0 + Z.of_nat k)) mod N < N) by (apply Z.mod_pos_bound; lia).
    assert (Hne : (tail r + (0 + Z.of_nat k)) mod N <> head r).
    { rewrite <- Hhead. intros E. destruct HN as [->| ->]; zlia. }
    case_if; [|done]. apply list_lookup_insert_ne. lia.
  - rewrite Hhead. unfold byte_at, rd. if_true. by rewrite list_lookup_insert_eq by lia.
Qed.

Lemma ring_pop_spec r :
  ring_ok r ->
  match contents r with
  | [] => ring_empty r = true
  | v :: l => ring_empty r = false /\ ring_peek r = Some v /\
              ring_ok (ring_advance (N - 1) r) /\ contents (ring_advance (N - 1) r) = l
  end.
Proof.
  intros Hok. pose proof (contents_empty r Hok) as He.
  pose proof Hok as (Hq & Hh & Ht). pose proof (count_range r) as Hc.
  unfold contents in *. destruct (Z.eq_dec (count r) 0) as [H0|H0].
  { rewrite H0 in *. rewrite seqZ_nil in * by lia. exact He. }
  rewrite seqZ_cons in * by lia. cbn [fmap list_fmap] in *.
  split; [rewrite He; by apply bool_decide_eq_false_2|].
  assert (Hmod : (tail r + 0) mod N = tail r) by (rewrite Z.mod_small; lia).
  split; [unfold ring_peek; rewrite Hmod; apply rd_byte_at; lia|].
  unfold ring_advance. rewrite next_index.
  assert (Hm : 0 <= (tail r + 1) mod N < N) by (apply Z.mod_pos_bound; lia).
  split; [done|]. set (r' := mk_ring _ _ _).
  assert (Hc' : count r' = Z.pred (count r)).
  { unfold r', count in *. cbn [head tail]. destruct HN as [->| ->]; zlia. }
  rewrite Hc'. change (Z.succ 0) with (1 + 0). rewrite <- fmap_add_seqZ, <- list_fmap_compose.
  apply list_fmap_ext. intros k i _. cbn. f_equal.
  rewrite Zplus_mod_idemp_l. f_equal. lia.
Qed.
End ring.

(** ** Interleaving of the interrupt with the pop

    The main loop is somewhere inside a pop while interrupts arrive at any
    moment; the histories record what was accepted and what was delivered. *)

Inductive pop_pc :=
| Idle
| Checked
| Holding (v : Z).

Record system := mk_sys {
  sring : ring;
  pc : pop_pc;
  accepted : list Z;
  popped : list Z
}.

Inductive ring_step (N : Z) : system -> system -> Prop :=
| step_isr r p acc out b r' :
    ring_put (N - 1) r b = Some r' ->
    ring_step N (mk_sys r p acc out)
      (mk_sys r' p (if head r' =? head r then acc else acc ++ [b]) out)
| step_test_empty r acc out :
    ring_empty r = true -> ring_step N (mk_sys r Idle acc out) (mk_sys r Idle acc out)
| step_test r acc out :
    ring_empty r = false -> ring_step N (mk_sys r Idle acc out) (mk_sys r Checked acc out)
| step_read r acc out v :
    ring_peek r = Some v ->
    ring_step N (mk_sys r Checked acc out) (mk_sys r (Holding v) acc out)
| step_advance r acc out v :
    ring_step N (mk_sys r (Holding v) acc out)
      (mk_sys (ring_advance (N - 1) r) Idle acc (out ++ [v])).

Definition started (N : Z) (s : system) : Prop :=
  ring_ok N (sring s) /\ contents N (sring s) = [] /\ pc s = Idle /\
  accepted s = [] /\ popped s = [].

Definition ring_inv (N : Z) (s : system) : Prop :=
  ring_ok N (sring s) /\ accepted s = popped s ++ contents N (sring s) /\
  match pc s with
  | Idle => True
  | Checked => contents N (sring s) <> []
  | Holding v => exists l, contents N (sring s) = v :: l
  end.

Lemma ring_put_head N r b r' :
  N = 64 \/ N = 128 -> ring_ok N r -> ring_put (N - 1) r b = Some r' ->
  (head r' =? head r) = negb (count N r <? N - 1).
Proof.
  intros HN Hok E. destruct (ring_put_spec N HN r b Hok) as (r2 & E2 & Hok2 & Ht & Hc).
  rewrite E in E2. injection E2 as <-.
  apply (f_equal (fun l => len l)) in Hc. rewrite contents_length in Hc by done.
  destruct Hok as (_ & Hh & Htl), Hok2 as (_ & Hh2 & _).
  destruct (count N r <? N - 1) eqn:Hlt; cbn [negb];
    rewrite ?length_app, ?contents_length in Hc by done; cbn [length] in Hc;
    unfold count in *; rewrite Ht in Hc.
  - rewrite Nat2Z.inj_add, contents_length in Hc by done. unfold count in Hc.
    apply Z.eqb_neq. intros E3. rewrite E3 in Hc. lia.
  - apply Z.eqb_eq. destruct HN as [->| ->]; zlia.
Qed.

Lemma ring_inv_step N s s' :
  N = 64 \/ N = 128 -> ring_inv N s -> ring_step N s s' -> ring_inv N s'.
Proof.
  intros HN (Hok & Hacc & Hpc) Hstep.
  inversion Hstep as [r p acc out b r' E|r acc out E|r acc out E|r acc out v E|r acc out v];
    subst; cbn [sring pc accepted popped] in *; unfold ring_inv; cbn [sring pc accepted popped].
  - destruct (ring_put_spec N HN r b Hok) as (r2 & E2 & Hok2 & _ & Hc).
    rewrite E in E2. injection E2 as <-. rewrite (ring_put_head N r b r' HN Hok E), Hc.
    split; [done|]. destruct (count N r <? N - 1); cbn [negb].
    + split; [by rewrite Hacc, <- app_assoc|]. destruct p as [| |v]; [done| |].
      * intros H. by apply app_eq_nil in H as [_ H].
      * destruct Hpc as (l & ->). by exists (l ++ [b]).
    + by split.
  - by split.
  - split; [done|]. split; [done|]. rewrite (contents_empty N HN r Hok) in E.
    by apply bool_decide_eq_false_1 in E.
  - split; [done|]. split; [done|]. pose proof (ring_pop_spec N HN r Hok) as Hp.
    destruct (contents N r) as [|x l]; [done|]. destruct Hp as (_ & Hx & _).
    rewrite Hx in E. injection E as ->. by exists l.
  - pose proof (ring_pop_spec N HN r Hok) as Hp. destruct Hpc as (l & Hl).
    rewrite Hl in *. destruct Hp as (_ & _ & Hok2 & ->).
    split; [done|]. split; [|done]. by rewrite <- app_assoc.
Qed.

Lemma ring_inv_reachable N s0 s :
  N = 64 \/ N = 128 -> started N s0 -> rtc (ring_step N) s0 s -> ring_inv N s.
Proof.
  intros HN (Hok & Hc & Hpc & Ha & Hp) Hsteps.
  assert (H0 : ring_inv N s0).
  { unfold ring_inv. rewrite Hc, Hpc, Ha, Hp. done. }
  clear Hok Hc Hpc Ha Hp. induction Hsteps as [s|s1 s2 s3 H12 _ IH]; [done|].
  apply IH. by eapply ring_inv_step.
Qed.

(** ** Properties *)

(** C40. The input rings lose nothing and reorder nothing, however interrupts
    interleave with the pops of the main loop: in every reachable state the
    bytes accepted so far are the bytes delivered so far followed by the bytes
    in the ring, of which there are at most [N - 1]; neither side ever indexes
    outside the array; and a byte is refused only when the ring is full.  This
    holds for the keyboard ring (64) and the mouse ring (128). *)
Theorem ring_fifo N s0 s b :
  N = 64 \/ N = 128 -> started N s0 -> rtc (ring_step N) s0 s ->
  accepted s = popped s ++ contents N (sring s) /\
  len (contents N (sring s)) <= N - 1 /\
  (exists r', ring_put (N - 1) (sring s) b = Some r' /\
  (head r' = head (sring s) <-> len (contents N (sring s)) = N - 1)) /\
  (pc s = Checked -> exists v, ring_peek (sring s) = Some v /\
  exists l, contents N (sring s) = v :: l).
Proof.
  intros HN H0 Hsteps.
  destruct (ring_inv_reachable N s0 s HN H0 Hsteps) as (Hok & Hacc & Hpc).
  pose proof (count_range N HN (sring s)) as Hcr. rewrite contents_length by done.
  split; [done|]. split; [lia|]. split.
  - destruct (ring_put_spec N HN (sring s) b Hok) as (r' & E & _). exists r'. split; [done|].
    pose proof (ring_put_head N _ _ _ HN Hok E) as Hh.
    destruct (Z.eqb_spec (head r') (head (sring s))), (Z.ltb_spec (count N (sring s)) (N - 1));
      cbn [negb] in Hh; try discriminate; split; (lia || done).
  - intros E. rewrite E in Hpc. pose proof (ring_pop_spec N HN (sring s) Hok) as Hp.
    destruct (contents N (sring s)) as [|v l]; [done|].
    exists v. split; [apply Hp|by exists l].
Qed.

(** [pit_program] programs the channel for every requested rate: the
    divisor it sends (low byte, then high byte, after mode 0x36) fits 16 bits
    and is at least 1193, and the rate it records is exactly the requested one
    clamped to 19..1000 Hz, so it is never zero. *)
Theorem pit_program_correct {W} (outb : Z -> Z -> W -> W) s hz w :
  0 <= hz < 4294967296 ->
  exists divisor, 1193 <= divisor <= 62799 /\
  pit_program outb s hz w
    = (set_pit_hz s (Z.max 19 (Z.min hz 1000)),
       outb PIT_CH0 (divisor / 256) (outb PIT_CH0 (divisor mod 256) (outb PIT_CMD 0x36 w))) /\
  timer_frequency (fst (pit_program outb s hz w)) = Z.max 19 (Z.min hz 1000).
Proof.
  intros Hhz. unfold pit_program, timer_frequency.
  set (h := Z.max 19 (Z.min hz 1000)).
  assert (Eh : (if 1000 <? (if hz <? 19 then 19 else hz) then 1000
                else if hz <? 19 then 19 else hz) = h).
  { subst h. destruct (Z.ltb_spec hz 19); [cbn; lia|]. destruct (Z.ltb_spec 1000 hz); lia. }
  rewrite Eh. assert (Hh : 19 <= h <= 1000) by lia. clearbody h.
  set (d := PIT_BASE_HZ / h).
  assert (Hd : 1193 <= d <= 62799).
  { subst d. unfold PIT_BASE_HZ. split.
    - apply Z.div_le_lower_bound; lia.
    - apply Z.lt_succ_r, Z.div_lt_upper_bound; lia. }
  replace (d =? 0) with false by (symmetry; apply Z.eqb_neq; lia).
  replace (65535 <? d) with false by (symmetry; apply Z.ltb_ge; lia).
  assert (Hf : PIT_BASE_HZ / d = h).
  { pose proof (Z.mul_div_le PIT_BASE_HZ h ltac:(lia)) as H1.
    pose proof (Z.mul_succ_div_gt PIT_BASE_HZ h ltac:(lia)) as H2. fold d in H1, H2.
    symmetry. apply (Z.div_unique PIT_BASE_HZ d h (PIT_BASE_HZ - h * d)); nia. }
  rewrite Hf. exists d. split; [done|].
  change 0xff with (Z.ones 8). rewrite Z.land_ones, Z.shiftr_div_pow2 by lia.
  change (2 ^ 8) with 256. rewrite !u8_id by zlia. done.
Qed.

(** *** Hexadecimal output *)

Definition hex_value (c : Z) : Z := if c <=? 57 then c - 48 else c - 55.

(** The number a string of digits denotes. *)
Definition parse_hex (l : bytes) (acc : Z) : Z :=
  fold_left (fun a c => a * 16 + hex_value c) l acc.

Fixpoint digits (k : nat) (v : Z) : bytes :=
  match k with
  | O => []
  | S k' => byte_at hex_digits ((v / 16 ^ Z.of_nat k') mod 16) :: digits k' v
  end.

Lemma hex_value_digit d : 0 <= d < 16 -> hex_value (byte_at hex_digits d) = d.
Proof.
  intros H. assert (E : d = 0 \/ d = 1 \/ d = 2 \/ d = 3 \/ d = 4 \/ d = 5 \/ d = 6 \/ d = 7 \/
    d = 8 \/ d = 9 \/ d = 10 \/ d = 11 \/ d = 12 \/ d = 13 \/ d = 14 \/ d = 15) by lia.
  repeat (destruct E as [->|E]; [reflexivity|]). by subst d.
Qed.

Lemma length_digits k v : length (digits k v) = k.
Proof. induction k as [|k IH]; cbn [digits length]; [done|by rewrite IH]. Qed.

Lemma parse_digits k v acc :
  0 <= v -> parse_hex (digits k v) acc = acc * 16 ^ Z.of_nat k + v mod 16 ^ Z.of_nat k.
Proof.
  intros Hv. revert acc. induction k as [|k IH]; intros acc.
  { cbn. rewrite Z.mod_1_r. lia. }
  cbn [digits parse_hex fold_left]. fold (parse_hex (digits k v)). rewrite IH.
  rewrite hex_value_digit by (apply Z.mod_pos_bound; lia).
  rewrite Nat2Z.inj_succ, Z.pow_succ_r by lia.
  set (p := 16 ^ Z.of_nat k). assert (0 < p) by (apply Z.pow_pos_nonneg; lia).
  rewrite (Z.mul_comm 16 p), Z.rem_mul_r by lia. lia.
Qed.

Lemma hex_loop_spec k v i out :
  0 <= v -> 0 <= i -> i + Z.of_nat k = 16 -> len out = 19 ->
  hex_loop k v i out = Some (blit out (2 + i) (digits k v)).
Proof.
  intros Hv. revert i out. induction k as [|k IH]; intros i out Hi Hk Hl.
  { cbn [hex_loop digits]. by rewrite blit_nil. }
  cbn [hex_loop digits]. change 15 with (Z.ones 4).
  rewrite Z.land_ones, Z.shiftr_div_pow2 by lia.
  replace (2 ^ (60 - i * 4)) with (16 ^ Z.of_nat k)
    by (change 16 with (2 ^ 4); rewrite <- Z.pow_mul_r by lia; f_equal; lia).
  change (2 ^ 4) with 16. set (d := (v / 16 ^ Z.of_nat k) mod 16).
  assert (0 <= d < 16) by (apply Z.mod_pos_bound; lia).
  rewrite rd_byte_at by (cbn; lia). cbn [mbind option_bind].
  rewrite wr_Some by lia. cbn [mbind option_bind].
  rewrite IH by (rewrite ?length_insert; lia).
  rewrite blit_cons by lia. do 2 f_equal. lia.
Qed.

(** [hexstr] writes the 64-bit number in full: the 19-byte buffer becomes
    "0x", sixteen digits that read back as the number, and a terminator. *)
Theorem hexstr_roundtrip v out :
  0 <= v < 18446744073709551616 -> len out = 19 ->
  exists d, hexstr v out = Some ([48; 120] ++ d ++ [0]) /\ length d = 16%nat /\
  parse_hex d 0 = v.
Proof.
  intros Hv Hl. exists (digits 16 v).
  split; [|split; [apply length_digits|]].
  2: { rewrite parse_digits by lia. change (16 ^ Z.of_nat 16) with 18446744073709551616.
       rewrite Z.mod_small by lia. lia. }
  unfold hexstr. rewrite wr_Some by lia. cbn [mbind option_bind].
  rewrite wr_Some by (rewrite ?length_insert; lia). cbn [mbind option_bind].
  rewrite hex_loop_spec by (rewrite ?length_insert; lia). cbn [mbind option_bind].
  rewrite wr_Some by (rewrite blit_length; rewrite ?length_insert, ?length_digits; lia).
  f_equal. remember (digits 16 v) as d eqn:Ed.
  assert (Hd : length d = 16%nat) by (subst d; apply length_digits). clear Ed.
  do 19 (destruct out as [|? out]; [cbn in Hl; lia|]). destruct out; [|cbn in Hl; lia].
  do 16 (destruct d as [|? d]; [cbn in Hd; lia|]). destruct d; [|cbn in Hd; lia].
  reflexivity.
Qed.

(** An interrupt gate keeps the whole address of its handler: the three
    fields are in range and put together give the address back. *)
Theorem idt_gate_address a :
  0 <= a < 18446744073709551616 ->
  let g := idt_gate a in
  0 <= off0 g < 65536 /\ 0 <= off1 g < 65536 /\ 0 <= off2 g < 4294967296 /\
  off0 g + off1 g * 2 ^ 16 + off2 g * 2 ^ 32 = a.
Proof.
  intros Ha. cbn [idt_gate off0 off1 off2]. change 0xffff with (Z.ones 16).
  rewrite !Z.land_ones, !Z.shiftr_div_pow2 by lia.
  change (2 ^ 16) with 65536. change (2 ^ 32) with 4294967296.
  unfold u16, u32. repeat split; zlia.
Qed.

(** ** Concrete runs *)

Module Smoke.

Definition empty : ring := mk_ring (replicate 64 0) 62 62.
Definition s0 : system := mk_sys empty Idle [] [].

(** Two bytes arrive, the second in the middle of a pop, and the index wraps. *)
Definition s1 : system :=
  mk_sys (mk_ring (<[63%nat := 8]> (<[62%nat := 7]> (replicate 64 0))) 0 63) Idle [7; 8] [7].

Lemma ring_reached : rtc (ring_step 64) s0 s1.
Proof.
  eapply rtc_l; [apply (step_isr 64 _ _ _ _ 7); vm_compute; reflexivity|].
  eapply rtc_l; [apply step_test; reflexivity|].
  eapply rtc_l; [apply (step_isr 64 _ _ _ _ 8); vm_compute; reflexivity|].
  eapply rtc_l; [apply (step_read 64 _ _ _ 7); vm_compute; reflexivity|].
  eapply rtc_l; [apply step_advance|]. apply rtc_refl.
Qed.

Lemma ring_fifo_witness : [7; 8] = [7] ++ contents 64 (sring s1).
Proof.
  destruct (ring_fifo 64 s0 s1 0) as [H _].
  { left. reflexivity. }
  { split; [split; [reflexivity|cbn; lia]|]. split; [reflexivity|done]. }
  { exact ring_reached. }
  exact H.
Defined.

Lemma pit_program_correct_witness :
  timer_frequency (fst (pit_program (fun p v w => (p, v) :: w)
    (mk_intr 0 100 empty empty 0 3) 100 [])) = 100.
Proof.
  destruct (pit_program_correct (fun p v w => (p, v) :: w) (mk_intr 0 100 empty empty 0 3) 100 [])
    as (d & _ & _ & H); [lia|]. exact H.
Defined.

Lemma hexstr_roundtrip_witness :
  exists d, hexstr 0xdeadbeef (replicate 19 1) = Some ([48; 120] ++ d ++ [0]) /\
  parse_hex d 0 = 0xdeadbeef.
Proof.
  destruct (hexstr_roundtrip 0xdeadbeef (replicate 19 1)) as (d & E & _ & H);
    [lia|reflexivity|]. exists d. split; [exact E|exact H].
Defined.

Lemma idt_gate_address_witness :
  off0 (idt_gate 0x123456789abcdef0) = 0xdef0 /\
  0 <= off1 (idt_gate 0x123456789abcdef0) < 65536.
Proof.
  destruct (idt_gate_address 0x123456789abcdef0) as (_ & H & _); [lia|].
  split; [reflexivity|exact H].
Defined.

End Smoke.
