(* ===== verification/Pci.v ===== *)
(** * kernel/pci.c: configuration space

    Addresses of the configuration mechanism, 16-bit access by read-modify-write,
    the search for a device and its base addresses.  The port instructions of
    include/io.h are the class [PortIO]; what the host bridge answers on the two
    configuration ports is the class [PciHost]. *)

From S2P Require Import Prelude.

Class PortIO (E : Type) := {
  outl : Z -> Z -> E -> E;
  inl : Z -> E -> Z * E
}.

(** include/pci.h *)
Record PciDevice := mk_pci {
  bus : Z; dev : Z; fn : Z;
  vendor : Z; device : Z;
  revision : Z; prog_if : Z; subclass : Z; class_code : Z
}.

(** [0x80000000u|((uint32_t)b<<16)|((uint32_t)d<<11)|((uint32_t)f<<8)|(o&0xfcu)] *)
Definition addr (b d f o : Z) : Z :=
  Z.lor (Z.lor (Z.lor (Z.lor 0x80000000 (u32 (Z.shiftl b 16))) (u32 (Z.shiftl d 11)))
               (u32 (Z.shiftl f 8)))
        (Z.land o 0xfc).

Section access.
Context {E : Type} `{!PortIO E}.

Definition pci_read32 (b d f o : Z) (e : E) : Z * E := inl 0xcfc (outl 0xcf8 (addr b d f o) e).
Definition pci_write32 (b d f o v : Z) (e : E) : E := outl 0xcfc v (outl 0xcf8 (addr b d f o) e).

Definition pci_read16 (b d f o : Z) (e : E) : Z * E :=
  let '(v, e) := pci_read32 b d f o e in
  (u16 (Z.shiftr v (Z.land o 2 * 8)), e).

(** [x=(x&~(0xffffu<<s))|((uint32_t)v<<s);] *)
Definition merge16 (x s v : Z) : Z :=
  Z.lor (Z.land x (u32 (Z.lnot (u32 (Z.shiftl 0xffff s))))) (u32 (Z.shiftl v s)).

Definition pci_write16 (b d f o v : Z) (e : E) : E :=
  let a := u8 (Z.land o 0xfc) in
  let '(x, e) := pci_read32 b d f a e in
  pci_write32 b d f a (merge16 x (Z.land o 2 * 8) v) e.

(** What one turn of the innermost loop decides. *)
Inductive turn :=
| Next
| Break
| Found (p : PciDevice).

Definition probe (vendor device b d f : Z) (e : E) : turn * E :=
  let '(id, e) := pci_read32 (u8 b) (u8 d) (u8 f) 0 e in
  if Z.land id 0xffff =? 0xffff then (if f =? 0 then Break else Next, e)
  else if (u16 id =? vendor) && (u16 (Z.shiftr id 16) =? device) then
    let '(cc, e) := pci_read32 (u8 b) (u8 d) (u8 f) 8 e in
    (Found (mk_pci (u8 b) (u8 d) (u8 f) vendor device (u8 cc) (u8 (Z.shiftr cc 8))
              (u8 (Z.shiftr cc 16)) (u8 (Z.shiftr cc 24))), e)
  else if f =? 0 then
    let '(h, e) := pci_read32 (u8 b) (u8 d) 0 0x0c e in
    (if Z.land (Z.shiftr h 16) 0x80 =? 0 then Break else Next, e)
  else (Next, e).

(** [for(unsigned f=0;f<8;f++)]; [k] turns remain. *)
Fixpoint fn_loop (k : nat) (vendor device b d f : Z) (e : E) : option PciDevice * E :=
  match k with
  | O => (None, e)
  | S k' =>
      let '(t, e) := probe vendor device b d f e in
      match t with
      | Next => fn_loop k' vendor device b d (f + 1) e
      | Break => (None, e)
      | Found p => (Some p, e)
      end
  end.

(** [for(unsigned d=0;d<32;d++)] *)
Fixpoint dev_loop (k : nat) (vendor device b d : Z) (e : E) : option PciDevice * E :=
  match k with
  | O => (None, e)
  | S k' =>
      let '(r, e) := fn_loop 8 vendor device b d 0 e in
      match r with
      | Some p => (Some p, e)
      | None => dev_loop k' vendor device b (d + 1) e
      end
  end.

(** [for(unsigned b=0;b<256;b++)] *)
Fixpoint bus_loop (k : nat) (vendor device b : Z) (e : E) : option PciDevice * E :=
  match k with
  | O => (None, e)
  | S k' =>
      let '(r, e) := dev_loop 32 vendor device b 0 e in
      match r with
      | Some p => (Some p, e)
      | None => bus_loop k' vendor device (b + 1) e
      end
  end.

(** The result, the structure behind [out], the environment. *)
Definition pci_find (vendor device : Z) (out : ptr PciDevice) (e : E) : Z * ptr PciDevice * E :=
  let '(r, e) := bus_loop 256 vendor device 0 e in
  match r with
  | Some p => (1, match out with Ptr _ => Ptr p | Null => Null end, e)
  | None => (0, out, e)
  end.

Definition pci_bar32 (d : ptr PciDevice) (bar : Z) (e : E) : Z * E :=
  match d with
  | Null => (0, e)
  | Ptr d => if 5 <? bar then (0, e) else pci_read32 (bus d) (dev d) (fn d) (u8 (0x10 + bar * 4)) e
  end.

Definition pci_bar64 (d : ptr PciDevice) (bar : Z) (e : E) : Z * E :=
  let '(lo, e) := pci_bar32 d bar e in
  let base := Z.land lo (u64 (Z.lnot 0xf)) in
  if (Z.land (Z.shiftr lo 1) 3 =? 2) && (bar <? 5) then
    let '(hi, e) := pci_bar32 d (bar + 1) e in
    (Z.lor base (u64 (Z.shiftl hi 32)), e)
  else (base, e).

Definition pci_enable (d : ptr PciDevice) (bits : Z) (e : E) : E :=
  match d with
  | Null => e
  | Ptr d =>
      let '(c, e) := pci_read16 (bus d) (dev d) (fn d) 0x04 e in
      pci_write16 (bus d) (dev d) (fn d) 0x04 (u16 (Z.lor c bits)) e
  end.
End access.

(** ** The host bridge

    [config e b d f o] is the register at [o] of function [(b, d, f)].  A write of
    the address port followed by a read of the data port yields the register and
    changes none; a write of the data port changes at most the register. *)
Class PciHost (E : Type) `{!PortIO E} := {
  config : E -> Z -> Z -> Z -> Z -> Z;
  config_range e b d f o : 0 <= config e b d f o < 4294967296;
  config_read e b d f o :
    0 <= b < 256 -> 0 <= d < 32 -> 0 <= f < 8 -> 0 <= o < 256 -> o mod 4 = 0 ->
    exists e', inl 0xcfc (outl 0xcf8 (addr b d f o) e) = (config e b d f o, e') /\
               config e' = config e
}.

Lemma lor_add a b n : 0 <= n -> a mod 2 ^ n = 0 -> 0 <= b < 2 ^ n -> Z.lor a b = a + b.
Proof.
  intros Hn Ha Hb. pose proof (Z.div_mod a (2 ^ n) ltac:(lia)) as Hd. rewrite Ha in Hd.
  replace a with (Z.shiftl (a / 2 ^ n) n) at 1 by (rewrite Z.shiftl_mul_pow2; lia).
  rewrite lor_shiftl_add by lia. lia.
Qed.

Lemma land_fc o : 0 <= o < 256 -> Z.land o 0xfc = o / 4 * 4.
Proof.
  intros Ho. set (q := o / 4). set (r := o mod 4).
  assert (Hq : 0 <= q < 64) by (unfold q; zlia).
  assert (Hr : r = 0 \/ r = 1 \/ r = 2 \/ r = 3) by (unfold r; zlia).
  assert (Ho' : o = Z.lor (Z.shiftl q 2) r).
  { rewrite lor_shiftl_add by (cbn; lia). unfold q, r. change (2 ^ 2) with 4. zlia. }
  rewrite Ho', Z.land_lor_distr_l. change 0xfc with (Z.shiftl (Z.ones 6) 2) at 1.
  rewrite <- Z.shiftl_land, Z.land_ones by lia. change (2 ^ 6) with 64.
  rewrite Z.mod_small, Z.shiftl_mul_pow2 by lia.
  destruct Hr as [->|[->|[->| ->]]]; cbn [Z.land Pos.land]; rewrite Z.lor_0_r; lia.
Qed.

(** The address fields are packed apart. *)
Lemma addr_fields b d f o :
  0 <= b < 256 -> 0 <= d < 32 -> 0 <= f < 8 -> 0 <= o < 256 ->
  addr b d f o = 0x80000000 + b * 65536 + d * 2048 + f * 256 + o / 4 * 4.
Proof.
  intros Hb Hd Hf Ho. unfold addr. rewrite !Z.shiftl_mul_pow2 by lia.
  change (2 ^ 16) with 65536. change (2 ^ 11) with 2048. change (2 ^ 8) with 256.
  rewrite !u32_id, land_fc by lia.
  rewrite (lor_add _ (b * 65536) 24) by (change (2 ^ 24) with 16777216; zlia).
  rewrite (lor_add _ (d * 2048) 16) by (change (2 ^ 16) with 65536; zlia).
  rewrite (lor_add _ (f * 256) 11) by (change (2 ^ 11) with 2048; zlia).
  rewrite (lor_add _ (o / 4 * 4) 8) by (change (2 ^ 8) with 256; zlia). done.
Qed.

(** ** The search *)

Section search.
Context {E : Type} `{!PortIO E} `{!PciHost E}.

Lemma pci_read32_spec b d f o e :
  0 <= b < 256 -> 0 <= d < 32 -> 0 <= f < 8 -> 0 <= o < 256 -> o mod 4 = 0 ->
  exists e', pci_read32 b d f o e = (config e b d f o, e') /\ config e' = config e.
Proof. apply config_read. Qed.

(** A function answers when its vendor is not 0xffff. *)
Definition present (c : Z -> Z -> Z -> Z -> Z) (b d f : Z) : bool :=
  negb (c b d f 0 mod 65536 =? 65535).
(** Bit 7 of the header type of function 0. *)
Definition multi_function (c : Z -> Z -> Z -> Z -> Z) (b d : Z) : bool :=
  Z.testbit (c b d 0 0x0c) 23.

(** The functions of a device, as the PCI specification enumerates them. *)
Definition functions (c : Z -> Z -> Z -> Z -> Z) (b d : Z) : list (Z * Z * Z) :=
  if present c b d 0 then
    (b, d, 0) :: (if multi_function c b d
                  then List.filter (fun '(b, d, f) => present c b d f)
                         ((fun f => (b, d, f)) <$> seqZ 1 7)
                  else [])
  else [].

Definition all_functions (c : Z -> Z -> Z -> Z -> Z) : list (Z * Z * Z) :=
  concat ((fun b => concat (functions c b <$> seqZ 0 32)) <$> seqZ 0 256).

Definition matches (c : Z -> Z -> Z -> Z -> Z) (vendor device : Z) (p : Z * Z * Z) : bool :=
  let '(b, d, f) := p in
  (c b d f 0 mod 65536 =? vendor) && (c b d f 0 / 65536 =? device).

(** What the search stores for a function. *)
Definition describe (c : Z -> Z -> Z -> Z -> Z) (vendor device : Z) (p : Z * Z * Z) : PciDevice :=
  let '(b, d, f) := p in
  let cc := c b d f 8 in
  mk_pci b d f vendor device (cc mod 256) (cc / 256 mod 256) (cc / 65536 mod 256) (cc / 16777216).

Definition search (c : Z -> Z -> Z -> Z -> Z) (vendor device : Z) (l : list (Z * Z * Z))
  : option PciDevice :=
  describe c vendor device <$> find (matches c vendor device) l.

Lemma search_app c v dv l1 l2 :
  search c v dv (l1 ++ l2) = match search c v dv l1 with Some p => Some p | None => search c v dv l2 end.
Proof.
  unfold search. induction l1 as [|p l1 IH]; cbn; [done|]. by destruct (matches c v dv p).
Qed.

Lemma land_bit x : (Z.land x 0x80 =? 0) = negb (Z.testbit x 7).
Proof.
  destruct (Z.testbit x 7) eqn:Et; cbn [negb].
  - apply Z.eqb_neq. intros E0. apply (f_equal (fun z => Z.testbit z 7)) in E0.
    rewrite Z.land_spec, Et in E0. done.
  - apply Z.eqb_eq, Z.bits_inj'. intros n Hn. rewrite Z.land_spec, Z.bits_0.
    change 0x80 with (2 ^ 7). rewrite Z.pow2_bits_eqb by lia.
    destruct (Z.eqb_spec 7 n) as [<-|]; [by rewrite Et|by rewrite andb_false_r].
Qed.

(** One turn of the innermost loop. *)
Lemma probe_spec v dv b d f e :
  0 <= b < 256 -> 0 <= d < 32 -> 0 <= f < 8 ->
  let c := config e in
  exists e', config e' = c /\
    probe v dv b d f e =
      (if present c b d f then
         if matches c v dv (b, d, f) then Found (describe c v dv (b, d, f))
         else if (f =? 0) && negb (multi_function c b d) then Break else Next
       else if f =? 0 then Break else Next, e').
Proof.
  intros Hb Hd Hf c. unfold probe. rewrite (u8_id b), (u8_id d), (u8_id f) by lia.
  destruct (pci_read32_spec b d f 0 e) as (e1 & -> & H1); [done..|lia|done|].
  fold c. pose proof (config_range e b d f 0) as Hid. fold c in Hid.
  change 0xffff with (Z.ones 16) at 1. rewrite Z.land_ones by lia. change (2 ^ 16) with 65536.
  unfold present. destruct (Z.eqb_spec (c b d f 0 mod 65536) 65535) as [Ha|Ha]; cbn [negb].
  { by exists e1. }
  rewrite Z.shiftr_div_pow2 by lia. change (2 ^ 16) with 65536.
  assert (Hm : (u16 (c b d f 0) =? v) && (u16 (c b d f 0 / 65536) =? dv) = matches c v dv (b, d, f)).
  { unfold matches. rewrite (u16_id (c b d f 0 / 65536)) by zlia. done. }
  rewrite Hm. destruct (matches c v dv (b, d, f)) eqn:Em.
  { destruct (pci_read32_spec b d f 8 e1) as (e2 & -> & H2); [done..|lia|done|].
    exists e2. split; [by rewrite H2, H1|]. rewrite H1. fold c. unfold describe.
    pose proof (config_range e b d f 8) as Hcc. fold c in Hcc.
    rewrite !Z.shiftr_div_pow2 by lia. change (2 ^ 8) with 256. change (2 ^ 16) with 65536.
    change (2 ^ 24) with 16777216. rewrite (u8_id (c b d f 8 / 16777216)) by zlia. done. }
  destruct (Z.eqb_spec f 0) as [->|Hf0]; cbn [andb]; [|by exists e1].
  destruct (pci_read32_spec b d 0 12 e1) as (e2 & -> & H2); [done..|lia|lia|done|].
  exists e2. split; [by rewrite H2, H1|]. rewrite land_bit, H1. fold c. unfold multi_function.
  by rewrite Z.shiftr_spec by lia.
Qed.

Lemma fn_loop_spec k v dv b d f e :
  0 <= b < 256 -> 0 <= d < 32 -> 1 <= f -> f + Z.of_nat k <= 8 ->
  let c := config e in
  exists e', config e' = c /\
    fn_loop k v dv b d f e =
      (search c v dv (List.filter (fun '(b, d, f) => present c b d f)
                        ((fun f => (b, d, f)) <$> seqZ f (Z.of_nat k))), e').
Proof.
  intros Hb Hd Hf Hk c. unfold c. clear c. revert f e Hf Hk.
  induction k as [|k IH]; intros f e Hf Hk; [by exists e|].
  cbn [fn_loop]. destruct (probe_spec v dv b d f e) as (e1 & H1 & ->); [done..|lia|].
  rewrite seqZ_cons by lia. cbn [fmap list_fmap List.filter].
  replace (Z.succ f) with (f + 1) by lia. replace (Z.pred (Z.of_nat (S k))) with (Z.of_nat k) by lia.
  replace (f =? 0) with false by (symmetry; apply Z.eqb_neq; lia). cbn [andb].
  destruct (IH (f + 1) e1) as (e2 & H2 & Hrun); [lia|lia|]. rewrite H1 in H2, Hrun.
  destruct (present (config e) b d f).
  - unfold search. cbn [find].
    destruct (matches (config e) v dv (b, d, f)); [by exists e1|]. by exists e2.
  - by exists e2.
Qed.

Lemma fn_loop_functions v dv b d e :
  0 <= b < 256 -> 0 <= d < 32 ->
  exists e', config e' = config e /\
    fn_loop 8 v dv b d 0 e = (search (config e) v dv (functions (config e) b d), e').
Proof.
  intros Hb Hd. cbn [fn_loop]. change (0 + 1) with 1. fold (@fn_loop E _).
  destruct (probe_spec v dv b d 0 e) as (e1 & H1 & ->); [done..|lia|].
  pose proof (fn_loop_spec 7 v dv b d 1 e1 Hb Hd ltac:(lia) ltac:(lia)) as (e2 & H2 & Hrun).
  rewrite H1 in H2, Hrun. unfold functions.
  destruct (present (config e) b d 0); [|by exists e1].
  unfold search at 1. cbn [find].
  destruct (matches (config e) v dv (b, d, 0)); [by exists e1|].
  cbn [Z.eqb andb]. destruct (multi_function (config e) b d); cbn [negb]; [|by exists e1].
  exists e2. split; [done|]. exact Hrun.
Qed.

Lemma dev_loop_spec k v dv b d e :
  0 <= b < 256 -> 0 <= d -> d + Z.of_nat k <= 32 ->
  exists e', config e' = config e /\
    dev_loop k v dv b d e
    = (search (config e) v dv (concat (functions (config e) b <$> seqZ d (Z.of_nat k))), e').
Proof.
  intros Hb. revert d e. induction k as [|k IH]; intros d e Hd Hk; [by exists e|].
  cbn [dev_loop]. destruct (fn_loop_functions v dv b d e) as (e1 & H1 & ->); [done|lia|].
  rewrite seqZ_cons by lia. cbn [fmap list_fmap concat]. rewrite search_app.
  destruct (search (config e) v dv (functions (config e) b d)); [by exists e1|].
  destruct (IH (d + 1) e1) as (e2 & H2 & ->); [lia..|]. exists e2. rewrite H2, H1. split; [done|].
  do 5 f_equal; lia.
Qed.

Lemma bus_loop_spec k v dv b e :
  0 <= b -> b + Z.of_nat k <= 256 ->
  exists e', config e' = config e /\
    bus_loop k v dv b e
    = (search (config e) v dv
         (concat ((fun b => concat (functions (config e) b <$> seqZ 0 32)) <$> seqZ b (Z.of_nat k))), e').
Proof.
  revert b e. induction k as [|k IH]; intros b e Hb Hk; [by exists e|].
  cbn [bus_loop]. destruct (dev_loop_spec 32 v dv b 0 e) as (e1 & H1 & ->); [lia..|].
  rewrite (seqZ_cons b (Z.of_nat (S k))) by lia. cbn [fmap list_fmap concat]. rewrite search_app.
  change (Z.of_nat 32) with 32 in *.
  destruct (search (config e) v dv (concat (functions (config e) b <$> seqZ 0 32))); [by exists e1|].
  destruct (IH (b + 1) e1) as (e2 & H2 & ->); [lia..|]. exists e2. rewrite H2, H1. split; [done|].
  do 5 f_equal; lia.
Qed.

(** [pci_find] returns the first function, in bus, device, function order,
    whose identifiers match, among exactly the functions that the configuration
    space contains: function 0 of every device that answers, and the others of
    those that say they have several.  It stores its location and class, returns 0
    and leaves the structure alone when there is none, and changes no register. *)
Theorem pci_find_first v dv out e :
  exists e', config e' = config e /\
    pci_find v dv out e =
      match search (config e) v dv (all_functions (config e)) with
      | Some p => (1, match out with Ptr _ => Ptr p | Null => Null end, e')
      | None => (0, out, e')
      end.
Proof.
  unfold pci_find, all_functions.
  destruct (bus_loop_spec 256 v dv 0 e) as (e1 & H1 & Hrun); [lia..|].
  exists e1. split; [done|]. rewrite Hrun. change (Z.of_nat 256) with 256.
  by destruct (search _ _ _ _).
Qed.
End search.

(** 16-bit writes keep the other half of the register. *)
Lemma merge16_low x v : 0 <= x < 4294967296 -> 0 <= v < 65536 -> merge16 x 0 v = x / 65536 * 65536 + v.
Proof.
  intros Hx Hv. unfold merge16. rewrite Z.shiftl_0_r, (Z.shiftl_0_r v), (u32_id v) by lia.
  change (u32 (Z.lnot (u32 0xffff))) with (Z.shiftl (Z.ones 16) 16).
  assert (Hland : Z.land x (Z.shiftl (Z.ones 16) 16) = Z.shiftl (x / 65536) 16).
  { change 65536 with (2 ^ 16). rewrite <- Z.shiftr_div_pow2 by lia.
    apply Z.bits_inj'. intros n Hn. rewrite Z.land_spec, !Z.shiftl_spec by lia.
    destruct (Z.ltb_spec n 16).
    { rewrite !(Z.testbit_neg_r _ (n - 16)) by lia. by rewrite andb_false_r. }
    rewrite Z.shiftr_spec by lia. replace (n - 16 + 16) with n by lia.
    destruct (Z.ltb_spec n 32).
    { rewrite Z.ones_spec_low by lia. by rewrite andb_true_r. }
    rewrite Z.ones_spec_high by lia. rewrite andb_false_r. symmetry.
    rewrite <- (Z.mod_small x (2 ^ 32)) by lia. apply Z.mod_pow2_bits_high. lia. }
  rewrite Hland, lor_shiftl_add by lia. done.
Qed.

(** ** A host with one adapter *)

Module Host.
(** The address register; the bus is read only. *)
Definition regs (b d f o : Z) : Z :=
  if (b =? 0) && (d =? 3) && (f =? 0) then
    if o =? 0 then 0x813910ec else if o =? 8 then 0x02000010 else if o =? 0x0c then 0 else 0xc001
  else if (b =? 0) && (d =? 0) && (f =? 0) then
    if o =? 0 then 0x12378086 else if o =? 0x0c then 0x800000 else 0
  else if (b =? 0) && (d =? 0) && (f =? 2) then
    if o =? 0 then 0x813910ec else 1
  else 0xffffffff.

#[local] Instance ports : PortIO Z := {|
  outl p v e := if p =? 0xcf8 then v else e;
  inl p e := (if p =? 0xcfc then
                regs (e / 65536 mod 256) (e / 2048 mod 32) (e / 256 mod 8) (e mod 256) else 0, e)
|}.

Lemma regs_range b d f o : 0 <= regs b d f o < 4294967296.
Proof. unfold regs. repeat case_if; lia. Qed.

#[local] Instance host : PciHost Z.
Proof.
  refine {| config _ := regs |}.
  - intros. apply regs_range.
  - intros e b d f o Hb Hd Hf Ho H4. exists (addr b d f o). split; [|done].
    unfold inl, outl, ports. rewrite !Z.eqb_refl. do 2 f_equal; rewrite addr_fields by lia; zlia.
Defined.

(** The multi-function device 0 is searched to its function 2 first. *)
Example first_match : (pci_find 0x10ec 0x8139 (Ptr (mk_pci 0 0 0 0 0 0 0 0 0)) 0).1
  = (1, Ptr (mk_pci 0 0 2 0x10ec 0x8139 1 0 0 0)).
Proof. reflexivity. Qed.
Lemma pci_find_first_witness :
  exists e', pci_find 0x10ec 0x8139 (Ptr (mk_pci 0 0 0 0 0 0 0 0 0)) 0
    = (1, Ptr (mk_pci 0 0 2 0x10ec 0x8139 1 0 0 0), e').
Proof.
  destruct (pci_find_first 0x10ec 0x8139 (Ptr (mk_pci 0 0 0 0 0 0 0 0 0)) 0) as (e' & _ & H).
  exists e'. rewrite H.
  change (search (config 0) 0x10ec 0x8139 (all_functions (config 0)))
    with (Some (mk_pci 0 0 2 0x10ec 0x8139 1 0 0 0)).
  reflexivity.
Defined.
End Host.
