(* ===== verification/Graphics.v ===== *)
(** * kernel/graphics.c: the framebuffer

    Pixels, rectangles and text.  The framebuffer is the object at
    [framebuffer_base], a list of pixels of the width the mode has (16 or 32
    bits); [None] is an access outside it.  The glyph tables are generated at
    build time and are parameters. *)

From S2P Require Import Prelude Cstr Pmm.

Definition ORION_PIXEL_FORMAT_RGB565 : Z := 0x100.

(** ** Definitions *)

(** The static pointer of the file. *)
Definition gfx_init (bi : ptr OrionBootInfo) : ptr OrionBootInfo := bi.

Definition rgb565_mode (g : ptr OrionBootInfo) : bool :=
  match g with Null => false | Ptr b => pixel_format b =? ORION_PIXEL_FORMAT_RGB565 end.

Definition pack_pixel (g : ptr OrionBootInfo) (rgb : Z) : option Z :=
  let r := Z.land (Z.shiftr rgb 16) 255 in
  let gr := Z.land (Z.shiftr rgb 8) 255 in
  let bl := Z.land rgb 255 in
  if rgb565_mode g then
    Some (Z.lor (Z.lor (Z.shiftl (Z.shiftr r 3) 11) (Z.shiftl (Z.shiftr gr 2) 5)) (Z.shiftr bl 3))
  else
    match g with
    | Null => None
    | Ptr b =>
        Some (if pixel_format b =? 0 then Z.lor (Z.lor (Z.shiftl bl 16) (Z.shiftl gr 8)) r
              else Z.lor (Z.lor (Z.shiftl r 16) (Z.shiftl gr 8)) bl)
    end.

Definition gfx_ready (g : ptr OrionBootInfo) : bool :=
  match g with Null => false | Ptr b => negb (framebuffer_base b =? 0) end.
Definition gfx_width (g : ptr OrionBootInfo) : Z := match g with Null => 0 | Ptr b => width b end.
Definition gfx_height (g : ptr OrionBootInfo) : Z := match g with Null => 0 | Ptr b => height b end.

(** [!gfx_ready()||x>=g_bi->width||y>=g_bi->height] *)
Definition off_screen (g : ptr OrionBootInfo) (x y : Z) : bool :=
  negb (gfx_ready g) || (gfx_width g <=? x) || (gfx_height g <=? y).

(** [(uint64_t)y*g_bi->pixels_per_scanline+x] *)
Definition pixel_offset (g : ptr OrionBootInfo) (x y : Z) : Z :=
  match g with Null => 0 | Ptr b => u64 (u64 (y * pixels_per_scanline b) + x) end.

(** The conversion of a store to [uint16_t] or [uint32_t]. *)
Definition pixel_cast (g : ptr OrionBootInfo) (v : Z) : Z := if rgb565_mode g then u16 v else u32 v.

Definition gfx_pixel (g : ptr OrionBootInfo) (fb : list Z) (x y c : Z) : option (list Z) :=
  if off_screen g x y then Some fb
  else p ← pack_pixel g c; wr fb (pixel_offset g x y) (pixel_cast g p).

Definition gfx_get_raw (g : ptr OrionBootInfo) (fb : list Z) (x y : Z) : option Z :=
  if off_screen g x y then Some 0 else rd fb (pixel_offset g x y).

Definition gfx_put_raw (g : ptr OrionBootInfo) (fb : list Z) (x y raw : Z) : option (list Z) :=
  if off_screen g x y then Some fb
  else wr fb (pixel_offset g x y) (pixel_cast g raw).

(** [for(uint32_t yy=0;yy<h;yy++)]; [k] rows remain. *)
Fixpoint rect_rows (k : nat) (g : ptr OrionBootInfo) (fb : list Z) (x y yy w pc : Z) : option (list Z) :=
  match k with
  | O => Some fb
  | S k' =>
      fb ← fill (Z.to_nat w) fb (pixel_offset g x (u32 (y + yy))) (pixel_cast g pc);
      rect_rows k' g fb x y (yy + 1) w pc
  end.

Definition gfx_rect (g : ptr OrionBootInfo) (fb : list Z) (x y w h c : Z) : option (list Z) :=
  if off_screen g x y then Some fb
  else
    let w := if gfx_width g <? u32 (x + w) then u32 (gfx_width g - x) else w in
    let h := if gfx_height g <? u32 (y + h) then u32 (gfx_height g - y) else h in
    pc ← pack_pixel g c;
    rect_rows (Z.to_nat h) g fb x y 0 w pc.

Definition gfx_line_h (g : ptr OrionBootInfo) (fb : list Z) (x y w c : Z) : option (list Z) :=
  gfx_rect g fb x y w 1 c.

(** A [char] is signed. *)
Definition s8 (c : Z) : Z := if c <? 128 then c else c - 256.

(** The dimensions that tools/fontgen.py writes into the two headers. *)
Definition TRAF_FIRST : Z := 32.
Definition TRAF_LAST : Z := 126.
Definition TRAF_W : Z := 24.
Definition TRAF_H : Z := 30.
Definition TRAF_D_W : Z := 48.
Definition TRAF_D_H : Z := 58.

Section text.
(** The generated tables: the rows of a glyph and its advance. *)
Context (traf_rows traf_d_rows : Z -> Z -> option Z) (traf_advance traf_d_advance : Z -> option Z).
Context (g : ptr OrionBootInfo).

(** [for(uint32_t xx=0;xx<TRAF_W;xx++)if(bits&(1u<<(TRAF_W-1-xx)))gfx_rect(...)] *)
Fixpoint glyph_row (k : nat) (fb : list Z) (W bits x y xx scale color : Z) : option (list Z) :=
  match k with
  | O => Some fb
  | S k' =>
      fb ← if Z.testbit bits (W - 1 - xx)
           then gfx_rect g fb (u32 (x + u32 (xx * scale))) y scale scale color
           else Some fb;
      glyph_row k' fb W bits x y (xx + 1) scale color
  end.

Fixpoint glyph_rows (k : nat) (rows : Z -> option Z) (fb : list Z) (W x y yy scale color : Z)
  : option (list Z) :=
  match k with
  | O => Some fb
  | S k' =>
      bits ← rows yy;
      fb ← glyph_row (Z.to_nat W) fb W bits x (u32 (y + u32 (yy * scale))) 0 scale color;
      glyph_rows k' rows fb W x y (yy + 1) scale color
  end.

Definition draw_char (fb : list Z) (x y ch color scale : Z) : option (list Z * Z) :=
  let ch := if (s8 ch <? TRAF_FIRST) || (TRAF_LAST <? s8 ch) then 63 else s8 ch in
  let gi := u32 (ch - TRAF_FIRST) in
  fb ← glyph_rows (Z.to_nat TRAF_H) (traf_rows gi) fb TRAF_W x y 0 scale color;
  a ← traf_advance gi;
  Some (fb, u32 ((a + 1) * scale)).

Definition display_char (fb : list Z) (x y ch color : Z) : option (list Z * Z) :=
  if (s8 ch <? 65) || (90 <? s8 ch) then draw_char fb x y ch color 1
  else
    let gi := s8 ch - 65 in
    fb ← glyph_rows (Z.to_nat TRAF_D_H) (traf_d_rows gi) fb TRAF_D_W x y 0 1 color;
    a ← traf_d_advance gi;
    Some (fb, u32 (a + 2)).

(** [while(s&&*s)x+=draw(x,y,*s++,...)] *)
Fixpoint text_loop (fuel : nat) (draw : list Z -> Z -> Z -> option (list Z * Z)) (fb : list Z)
    (x : Z) (s : bytes) (i : Z) : option (list Z * Z) :=
  match fuel with
  | O => None
  | S f =>
      c ← rd s i;
      if c =? 0 then Some (fb, x)
      else '(fb, a) ← draw fb x c; text_loop f draw fb (u32 (x + a)) s (i + 1)
  end.

Definition text (draw : list Z -> Z -> Z -> option (list Z * Z)) (fb : list Z) (x : Z) (s : ptr bytes)
  : option (list Z * Z) :=
  match s with
  | Null => Some (fb, 0)
  | Ptr s => '(fb, x') ← text_loop (S (length s)) draw fb x s 0; Some (fb, u32 (x' - x))
  end.

Definition gfx_text (fb : list Z) (x y : Z) (s : ptr bytes) (c scale : Z) : option (list Z * Z) :=
  text (fun fb x ch => draw_char fb x y ch c scale) fb x s.
Definition gfx_display_text (fb : list Z) (x y : Z) (s : ptr bytes) (c : Z) : option (list Z * Z) :=
  text (fun fb x ch => display_char fb x y ch c) fb x s.

(** [for(const char*p=s;*p;p++)] *)
Fixpoint width_loop (fuel : nat) (s : bytes) (i w : Z) : option Z :=
  match fuel with
  | O => None
  | S f =>
      c ← rd s i;
      if c =? 0 then Some w
      else
        let ch := if (s8 c <? 32) || (126 <? s8 c) then 63 else s8 c in
        a ← traf_advance (ch - 32);
        width_loop f s (i + 1) (u32 (w + (a + 1)))
  end.

Definition gfx_text_right (fb : list Z) (right y : Z) (s : bytes) (c : Z) : option (list Z) :=
  w ← width_loop (S (length s)) s 0 0;
  '(fb, _) ← gfx_text fb (if w <? right then right - w else 0) y (Ptr s) c 1;
  Some fb.
End text.

(** ** Rectangles *)

Section screen.
Context (b : OrionBootInfo).

(** A mode as the boot loader reports it, and a framebuffer that holds it. *)
Definition mode_ok : Prop :=
  framebuffer_base b <> 0 /\ 0 < width b <= pixels_per_scanline b /\ 0 < height b /\
  pixels_per_scanline b < 4294967296 /\ height b < 4294967296.
Definition fb_ok (fb : list Z) : Prop := height b * pixels_per_scanline b <= len fb.

(** Whether the element [i] of the framebuffer is a pixel of the rectangle. *)
Definition in_rect (x y w h i : Z) : bool :=
  let row := i / pixels_per_scanline b in
  let col := i mod pixels_per_scanline b in
  (y <=? row) && (row <? Z.min (y + h) (height b)) &&
  (x <=? col) && (col <? Z.min (x + w) (width b)).

Context (Hmode : mode_ok).

Lemma pixel_offset_spec x y :
  0 <= x <= width b -> 0 <= y < height b ->
  pixel_offset (Ptr b) x y = y * pixels_per_scanline b + x /\
  (y + 1) * pixels_per_scanline b <= height b * pixels_per_scanline b.
Proof.
  destruct Hmode as (_ & Hw & Hh & Hs & Hh32). intros Hx Hy. unfold pixel_offset.
  assert (Hy1 : (y + 1) * pixels_per_scanline b <= height b * pixels_per_scanline b)
    by (apply Z.mul_le_mono_nonneg_r; lia).
  assert (y * pixels_per_scanline b <= 4294967294 * 4294967295)
    by (apply Z.mul_le_mono_nonneg; lia).
  assert (0 <= y * pixels_per_scanline b) by (apply Z.mul_nonneg_nonneg; lia).
  by rewrite (u64_id (y * pixels_per_scanline b)), u64_id by lia.
Qed.

Lemma div_row row col : 0 <= col < pixels_per_scanline b -> 0 <= row ->
  (row * pixels_per_scanline b + col) / pixels_per_scanline b = row /\
  (row * pixels_per_scanline b + col) mod pixels_per_scanline b = col.
Proof.
  intros Hc Hr. rewrite Z.add_comm, Z.div_add, Z.mod_add by lia.
  by rewrite Z.div_small, Z.mod_small by lia.
Qed.

Lemma rd_blit_replicate (fb : list Z) o k (v : Z) i :
  0 <= o -> 0 <= k -> o + k <= len fb -> 0 <= i < len fb ->
  rd (blit fb o (replicate (Z.to_nat k) v)) i = if (o <=? i) && (i <? o + k) then Some v else rd fb i.
Proof.
  intros Ho Hk Hl Hi. unfold rd. if_true. unfold blit. rewrite length_replicate.
  destruct (Z.leb_spec o i); cbn [andb].
  2: { rewrite lookup_app_l by (rewrite length_take; lia). apply lookup_take_lt. lia. }
  rewrite lookup_app_r by (rewrite length_take; lia). rewrite length_take.
  destruct (Z.ltb_spec i (o + k)).
  - rewrite lookup_app_l by (rewrite length_replicate; lia). apply lookup_replicate_2. lia.
  - rewrite lookup_app_r by (rewrite length_replicate; lia). rewrite length_replicate, lookup_drop.
    f_equal. lia.
Qed.

(** The rows from [yy] on of a clipped rectangle. *)
Lemma rect_rows_spec k fb x y yy w pc :
  fb_ok fb -> 0 <= x -> 0 <= w -> x + w <= width b ->
  0 <= y -> 0 <= yy -> y + yy + Z.of_nat k <= height b ->
  exists fb', rect_rows k (Ptr b) fb x y yy w pc = Some fb' /\ length fb' = length fb /\
    forall i, 0 <= i < len fb ->
      rd fb' i = if in_rect x (y + yy) w (Z.of_nat k) i then Some (pixel_cast (Ptr b) pc) else rd fb i.
Proof.
  destruct Hmode as (_ & Hw & Hh & Hs & Hh32). intros Hfb Hx Hw0 Hxw. revert fb yy Hfb.
  induction k as [|k IH]; intros fb yy Hfb Hy Hyy Hk; cbn [rect_rows].
  { exists fb. split; [done|]. split; [done|]. intros i Hi.
    replace (in_rect _ _ _ _ i) with false; [done|]. symmetry. unfold in_rect.
    destruct (Z.leb_spec (y + yy) (i / pixels_per_scanline b)); [|done].
    replace (i / pixels_per_scanline b <? _) with false; [done|]. symmetry. apply Z.ltb_ge. lia. }
  rewrite u32_id by lia. unfold fb_ok in Hfb.
  assert (Hoff : pixel_offset (Ptr b) x (y + yy) = (y + yy) * pixels_per_scanline b + x).
  { apply pixel_offset_spec; lia. }
  assert (Hend : (y + yy + 1) * pixels_per_scanline b <= height b * pixels_per_scanline b)
    by (apply Z.mul_le_mono_nonneg_r; lia).
  rewrite Hoff, fill_spec by nia. cbn [mbind option_bind].
  set (fb1 := blit _ _ _).
  assert (Hl1 : length fb1 = length fb) by (apply blit_length; rewrite ?length_replicate; nia).
  destruct (IH fb1 (yy + 1)) as (fb2 & Hr & Hl2 & Hpix); [unfold fb_ok; lia|lia..|].
  exists fb2. split; [exact Hr|]. split; [lia|]. intros i Hi.
  rewrite Hpix by lia. unfold fb1. rewrite rd_blit_replicate by nia.
  pose proof (Z.div_mod i (pixels_per_scanline b) ltac:(lia)) as Hd.
  pose proof (Z.mod_pos_bound i (pixels_per_scanline b) ltac:(lia)) as Hm.
  unfold in_rect. set (row := i / _) in *. set (col := i mod _) in *.
  assert (Hin : ((y + yy) * pixels_per_scanline b + x <=? i)
      && (i <? (y + yy) * pixels_per_scanline b + x + w)
      = (row =? y + yy) && (x <=? col) && (col <? x + w)).
  { apply eq_true_iff_eq. rewrite !andb_true_iff, !Z.leb_le, !Z.ltb_lt, Z.eqb_eq.
    split; [intros [H1 H2]|intros [[H1 H2] H3]; nia].
    assert (row = y + yy) by nia. split; [split|]; nia. }
  rewrite Hin. rewrite !Z.min_l by lia.
  destruct (Z.eqb_spec row (y + yy)), (Z.leb_spec x col), (Z.ltb_spec col (x + w)),
    (Z.leb_spec (y + (yy + 1)) row), (Z.ltb_spec row (y + (yy + 1) + Z.of_nat k)),
    (Z.leb_spec (y + yy) row), (Z.ltb_spec row (y + yy + Z.of_nat (S k))); cbn; done || lia.
Qed.

(** C37. [gfx_rect] paints exactly the visible part of the rectangle: every
    element of the framebuffer whose row and column lie in it and on the screen gets
    the packed colour, every other keeps its value (the padding of the scanlines
    included), and nothing outside the framebuffer is touched; provided that
    neither corner coordinate wraps around 32 bits. *)
Theorem gfx_rect_correct fb x y w h c :
  fb_ok fb -> 0 <= x -> 0 <= y -> 0 <= w -> 0 <= h -> x + w < 4294967296 -> y + h < 4294967296 ->
  exists fb' pc, pack_pixel (Ptr b) c = Some pc /\
    gfx_rect (Ptr b) fb x y w h c = Some fb' /\ length fb' = length fb /\
    forall i, 0 <= i < len fb ->
      rd fb' i = if in_rect x y w h i then Some (pixel_cast (Ptr b) pc) else rd fb i.
Proof.
  pose proof Hmode as (Hb & Hw & Hh & Hs & Hh32). intros Hfb Hx Hy Hw0 Hh0 Hxw Hyh.
  assert (Hpack : exists pc, pack_pixel (Ptr b) c = Some pc)
    by (unfold pack_pixel; case_if; by eexists).
  destruct Hpack as [pc Hpc]. unfold gfx_rect, off_screen, gfx_ready, gfx_width, gfx_height.
  replace (framebuffer_base b =? 0) with false by (symmetry; by apply Z.eqb_neq). cbn [negb orb].
  destruct (Z.leb_spec (width b) x) as [Hxo|Hxi]; cbn [orb];
    [|destruct (Z.leb_spec (height b) y) as [Hyo|Hyi]].
  1, 2: (exists fb, pc; repeat split; try done; intros i Hi;
    replace (in_rect x y w h i) with false; [done|]; symmetry; unfold in_rect;
    repeat match goal with |- context [?u <=? ?v] => destruct (Z.leb_spec u v)
           | |- context [?u <? ?v] => destruct (Z.ltb_spec u v) end; cbn; done || lia).
  rewrite (u32_id (x + w)), (u32_id (y + h)) by lia. rewrite Hpc. cbn [mbind option_bind].
  rewrite (u32_id (width b - x)), (u32_id (height b - y)) by lia.
  set (w' := if width b <? x + w then width b - x else w).
  set (h' := if height b <? y + h then height b - y else h).
  assert (Hw' : x + w' = Z.min (x + w) (width b)) by (unfold w'; case_if; lia).
  assert (Hh' : y + h' = Z.min (y + h) (height b)) by (unfold h'; case_if; lia).
  destruct (rect_rows_spec (Z.to_nat h') fb x y 0 w' pc) as (fb' & Hr & Hl & Hpix); [done|lia..|].
  exists fb', pc. split; [done|]. split; [exact Hr|]. split; [done|]. intros i Hi.
  rewrite Hpix by done. rewrite Z.add_0_r. unfold in_rect.
  by rewrite Z2Nat.id, Hw', Hh', !(Z.min_l (Z.min _ _)) by lia.
Qed.

(** A raw pixel is read back as written, in the width of the mode; the others keep
    their values. *)
Lemma put_get_raw fb x y raw x' y' :
  fb_ok fb -> 0 <= x -> 0 <= y -> 0 <= x' -> 0 <= y' ->
  exists fb', gfx_put_raw (Ptr b) fb x y raw = Some fb' /\ length fb' = length fb /\
    gfx_get_raw (Ptr b) fb' x' y' =
      if (x =? x') && (y =? y') && negb (off_screen (Ptr b) x y)
      then Some (pixel_cast (Ptr b) raw) else gfx_get_raw (Ptr b) fb x' y'.
Proof.
  pose proof Hmode as (Hb & Hw & Hh & Hs & Hh32). intros Hfb Hx Hy Hx' Hy'. unfold fb_ok in Hfb.
  assert (Hon : forall x y, off_screen (Ptr b) x y = false -> x < width b /\ y < height b).
  { clear. intros x y. unfold off_screen. cbn [gfx_width gfx_height]. intros H. bool_prop. lia. }
  unfold gfx_put_raw, gfx_get_raw. destruct (off_screen (Ptr b) x y) eqn:E1; cbn [negb].
  { rewrite andb_false_r. by exists fb. }
  apply Hon in E1 as [Hx1 Hy1].
  destruct (pixel_offset_spec x y) as [Ho1 He1]; [lia..|].
  rewrite andb_true_r, Ho1, wr_Some by nia. eexists. split; [done|].
  split; [by rewrite length_insert|]. destruct (off_screen (Ptr b) x' y') eqn:E2.
  { destruct (Z.eqb_spec x x') as [->|], (Z.eqb_spec y y') as [->|]; cbn [andb]; try done.
    exfalso. revert E2. unfold off_screen. cbn [gfx_ready gfx_width gfx_height].
    rewrite !orb_true_iff, negb_true_iff, negb_false_iff, Z.eqb_eq, !Z.leb_le. lia. }
  apply Hon in E2 as [Hx2 Hy2].
  destruct (pixel_offset_spec x' y') as [Ho2 He2]; [lia..|]. rewrite Ho2.
  destruct (Z.eqb_spec x x') as [Hxx|Hxx], (Z.eqb_spec y y') as [Hyy|Hyy]; cbn [andb].
  { rewrite <- Hxx, <- Hyy. eapply rd_wr_eq. apply wr_Some. nia. }
  all: eapply rd_wr_ne; [apply wr_Some; nia|]; intros Eo;
    apply (f_equal (fun i => (i / pixels_per_scanline b, i mod pixels_per_scanline b))) in Eo;
    destruct (div_row y x) as [A1 A2]; [lia..|]; destruct (div_row y' x') as [B1 B2]; [lia..|];
    rewrite ?A1, ?A2, ?B1, ?B2 in Eo; congruence.
Qed.

(** ** Drawing stays on the screen *)

(** Whether an element is a pixel of the screen; the others are padding. *)
Definition visible (i : Z) : bool :=
  (i / pixels_per_scanline b <? height b) && (i mod pixels_per_scanline b <? width b).

(** [fb'] differs from [fb] in visible pixels only. *)
Definition drawn (fb fb' : list Z) : Prop :=
  length fb' = length fb /\ forall i, 0 <= i < len fb -> visible i = false -> rd fb' i = rd fb i.

#[global] Instance drawn_preorder : PreOrder drawn.
Proof.
  split; [by intros fb|]. intros f1 f2 f3 [L1 P1] [L2 P2]. split; [congruence|].
  intros i Hi Hv. rewrite P2, P1; (done || lia).
Qed.

Lemma drawn_fb_ok fb fb' : drawn fb fb' -> fb_ok fb -> fb_ok fb'.
Proof. unfold fb_ok. by intros [-> _]. Qed.

Context (Hw31 : width b <= 2147483648) (Hh31 : height b <= 2147483648).

Lemma gfx_rect_drawn fb x y w h c :
  fb_ok fb -> 0 <= x < 4294967296 -> 0 <= y < 4294967296 ->
  0 <= w <= 2147483647 -> 0 <= h <= 2147483647 ->
  returns (gfx_rect (Ptr b) fb x y w h c) (drawn fb).
Proof.
  intros Hfb Hx Hy Hw Hh.
  destruct (off_screen (Ptr b) x y) eqn:Eo.
  { unfold gfx_rect. rewrite Eo. by eexists. }
  unfold off_screen in Eo. cbn [gfx_width gfx_height] in Eo. bool_prop.
  destruct (gfx_rect_correct fb x y w h c) as (fb' & pc & _ & Hr & Hl & Hpix); [done|lia..|].
  exists fb'. split; [done|]. split; [done|]. intros i Hi Hv. rewrite Hpix by done.
  replace (in_rect x y w h i) with false; [done|]. symmetry. unfold in_rect, visible in *.
  apply andb_false_iff in Hv as [Hv|Hv]; bool_prop.
  - replace (i / pixels_per_scanline b <? Z.min _ _) with false; [by rewrite andb_false_r|].
    symmetry. apply Z.ltb_ge. lia.
  - replace (i mod pixels_per_scanline b <? Z.min _ _) with false; [by rewrite andb_false_r|].
    symmetry. apply Z.ltb_ge. lia.
Qed.

Lemma glyph_row_drawn k fb W bits x y xx scale color :
  fb_ok fb -> 0 <= y < 4294967296 -> 0 <= scale <= 2147483647 ->
  returns (glyph_row (Ptr b) k fb W bits x y xx scale color) (drawn fb).
Proof.
  intros Hfb Hy Hs. revert fb xx Hfb. induction k as [|k IH]; intros fb xx Hfb; cbn [glyph_row].
  { by eexists. }
  apply (returns_bind _ _ (drawn fb)).
  { case_if; [|by eexists]. apply gfx_rect_drawn; try lia; [done|]. apply u32_range. }
  intros fb1 H1. eapply returns_mono; [apply IH; by eapply drawn_fb_ok|].
  intros fb2 H2. by trans fb1.
Qed.

Lemma glyph_rows_drawn k rows fb W x y yy scale color :
  fb_ok fb -> 0 <= scale <= 2147483647 -> 0 <= yy ->
  (forall r, 0 <= r < yy + Z.of_nat k -> is_Some (rows r)) ->
  returns (glyph_rows (Ptr b) k rows fb W x y yy scale color) (drawn fb).
Proof.
  intros Hfb Hs. revert fb yy Hfb. induction k as [|k IH]; intros fb yy Hfb Hyy Hrows; cbn [glyph_rows].
  { by eexists. }
  destruct (Hrows yy) as [bits Hbits]; [lia|]. rewrite Hbits. cbn [mbind option_bind].
  eapply returns_bind; [apply glyph_row_drawn; [done|apply u32_range|done]|].
  intros fb1 H1. eapply returns_mono.
  { apply IH; [by eapply drawn_fb_ok|lia|]. intros r Hr. apply Hrows. lia. }
  intros fb2 H2. by trans fb1.
Qed.

(** The generated tables cover the characters they are built for. *)
Context (traf_rows traf_d_rows : Z -> Z -> option Z) (traf_advance traf_d_advance : Z -> option Z).
Definition tables_ok : Prop :=
  (forall gi r, 0 <= gi < 95 -> 0 <= r < TRAF_H -> is_Some (traf_rows gi r)) /\
  (forall gi, 0 <= gi < 95 -> is_Some (traf_advance gi)) /\
  (forall gi r, 0 <= gi < 26 -> 0 <= r < TRAF_D_H -> is_Some (traf_d_rows gi r)) /\
  (forall gi, 0 <= gi < 26 -> is_Some (traf_d_advance gi)).
Context (Htab : tables_ok).

Lemma draw_char_drawn fb x y ch color scale :
  fb_ok fb -> 0 <= scale <= 2147483647 ->
  returns (draw_char traf_rows traf_advance (Ptr b) fb x y ch color scale)
    (fun '(fb', _) => drawn fb fb').
Proof.
  destruct Htab as (Hrows & Hadv & _ & _). intros Hfb Hs. unfold draw_char.
  set (c := if (s8 ch <? TRAF_FIRST) || (TRAF_LAST <? s8 ch) then 63 else s8 ch).
  assert (Hc : 32 <= c <= 126).
  { unfold c, TRAF_FIRST, TRAF_LAST. destruct ((_ <? _) || _) eqn:E; [lia|]. bool_prop. unfold TRAF_FIRST, TRAF_LAST in *. lia. }
  unfold TRAF_FIRST. rewrite (u32_id (c - 32)) by lia.
  eapply returns_bind.
  { apply glyph_rows_drawn; [done|done|lia|]. intros r Hr. apply Hrows; unfold TRAF_H in *; lia. }
  intros fb1 H1. destruct (Hadv (c - 32)) as [a Ha]; [lia|]. rewrite Ha. cbn. by eexists.
Qed.

Lemma display_char_drawn fb x y ch color :
  fb_ok fb ->
  returns (display_char traf_rows traf_d_rows traf_advance traf_d_advance (Ptr b) fb x y ch color)
    (fun '(fb', _) => drawn fb fb').
Proof.
  pose proof Htab as (_ & _ & Hrows & Hadv). intros Hfb. unfold display_char.
  case_if; [apply draw_char_drawn; [done|lia]|].
  bool_prop. eapply returns_bind.
  { apply glyph_rows_drawn; [done|lia|lia|]. intros r Hr. apply Hrows; unfold TRAF_D_H in *; lia. }
  intros fb1 H1. destruct (Hadv (s8 ch - 65)) as [a Ha]; [lia|]. rewrite Ha. cbn. by eexists.
Qed.

Lemma text_drawn draw fb x s t :
  (forall fb x ch, fb_ok fb -> returns (draw fb x ch) (fun '(fb', _) => drawn fb fb')) ->
  fb_ok fb -> match s with Ptr m => cstr m 0 t | Null => True end ->
  returns (text draw fb x s) (fun '(fb', _) => drawn fb fb').
Proof.
  intros Hdraw Hfb Hs. unfold text. destruct s as [|m]; [by eexists|].
  assert (Hloop : forall fuel fb x i t, fb_ok fb -> cstr m i t -> (length t < fuel)%nat ->
    returns (text_loop fuel draw fb x m i) (fun '(fb', _) => drawn fb fb')).
  { clear -Hdraw. induction fuel as [|f IH]; intros fb x i t Hfb Ht Hf; [lia|]. cbn [text_loop].
    rewrite (cstr_rd _ _ _ Ht). cbn [mbind option_bind].
    destruct t as [|c t]; cbn [head0]; [by eexists|].
    apply cstr_char_inv in Ht as (_ & Hc & Ht). cbn [length] in Hf.
    replace (c =? 0) with false by (symmetry; by apply Z.eqb_neq).
    eapply returns_bind; [by apply Hdraw|]. intros [fb1 a] H1.
    eapply returns_mono; [apply (IH _ _ _ t); [by eapply drawn_fb_ok|done|lia]|].
    intros [fb2 x2] H2. by trans fb1. }
  pose proof (cstr_bounds _ _ _ Hs).
  eapply returns_bind; [apply (Hloop _ _ _ _ t); (done || lia)|].
  intros [fb1 x1] H1. by eexists.
Qed.

(** Text never leaves the screen: for every string, every position and every
    scale, [gfx_text] and [gfx_display_text] return, and change visible pixels
    only, also when a glyph crosses an edge or the position wraps around. *)
Theorem gfx_text_visible fb x y s t c scale :
  fb_ok fb -> 0 <= scale <= 2147483647 ->
  match s with Ptr m => cstr m 0 t | Null => True end ->
  returns (gfx_text traf_rows traf_advance (Ptr b) fb x y s c scale) (fun '(fb', _) => drawn fb fb') /\
  returns (gfx_display_text traf_rows traf_d_rows traf_advance traf_d_advance (Ptr b) fb x y s c)
    (fun '(fb', _) => drawn fb fb').
Proof.
  intros Hfb Hs Ht. split.
  - apply (text_drawn _ _ _ _ t); [|done|done]. intros. by apply draw_char_drawn.
  - apply (text_drawn _ _ _ _ t); [|done|done]. intros. by apply display_char_drawn.
Qed.
End screen.

(** ** The corner that wraps

    [x+w] is computed in 32 bits: a rectangle wide enough to wrap escapes the clip
    and runs off the framebuffer. *)
Lemma fill_beyond (n : nat) (m : list Z) o v :
  0 <= o -> (0 < n)%nat -> len m < o + Z.of_nat n -> fill n m o v = None.
Proof.
  revert m o. induction n as [|n IH]; intros m o Ho Hn Hl; [lia|]. cbn [fill].
  destruct (Z.ltb_spec o (len m)) as [Hom|Hom].
  - rewrite wr_Some by lia. cbn [mbind option_bind]. destruct n as [|n]; [lia|].
    apply IH; rewrite ?length_insert; lia.
  - unfold wr. replace (o <? len m) with false by (symmetry; apply Z.ltb_ge; lia).
    by rewrite andb_false_r.
Qed.

Definition small_mode : OrionBootInfo := mk_bootinfo 0xe0000000 0 4 3 5 1 0 0 0 0.

Example wrapped_width_faults fb c :
  len fb = 15 -> gfx_rect (Ptr small_mode) fb 1 0 0xffffffff 1 c = None.
Proof.
  intros Hl. unfold gfx_rect.
  change (gfx_width (Ptr small_mode) <? u32 (1 + 0xffffffff)) with false.
  change (off_screen (Ptr small_mode) 1 0) with false. cbn match.
  destruct (pack_pixel (Ptr small_mode) c) as [pc|]; [|done]. cbn [mbind option_bind].
  change (Z.to_nat (if _ <? _ then _ else 1)) with 1%nat. cbn [rect_rows].
  rewrite fill_beyond; [done|done|lia|].
  change (pixel_offset (Ptr small_mode) 1 (u32 (0 + 0))) with 1. lia.
Qed.

(** ** A small screen *)

Module Screen.
Lemma small_mode_ok : mode_ok small_mode.
Proof. repeat split; discriminate. Qed.

Definition fb0 : list Z := replicate 16 7.

Lemma gfx_rect_correct_witness :
  exists fb', gfx_rect (Ptr small_mode) fb0 2 1 9 1 0x123456 = Some fb' /\
    rd fb' 7 = Some 0x123456 /\ rd fb' 8 = Some 0x123456 /\ rd fb' 9 = Some 7.
Proof.
  destruct (gfx_rect_correct small_mode small_mode_ok fb0 2 1 9 1 0x123456)
    as (fb' & pc & Hpc & Hr & _ & Hpix);
    [vm_compute; discriminate|discriminate|discriminate|discriminate|discriminate|reflexivity|reflexivity|].
  injection Hpc as <-. exists fb'. split; [exact Hr|].
  rewrite !Hpix by (vm_compute; split; [discriminate|reflexivity]). done.
Defined.

Definition rows (_ _ : Z) : option Z := Some 0xaaaaaa.
Definition advance (_ : Z) : option Z := Some 2.

Lemma gfx_text_visible_witness :
  returns (gfx_text rows advance (Ptr small_mode) fb0 3 0xfffffff0 (Ptr (lit "UN_Orion")) 0xffffff 1)
    (fun '(fb', _) => drawn small_mode fb0 fb').
Proof.
  apply (gfx_text_visible small_mode small_mode_ok ltac:(discriminate) ltac:(discriminate)
    rows rows advance advance ltac:(repeat split; intros; by eexists) fb0 3 0xfffffff0
    (Ptr (lit "UN_Orion")) (chars "UN_Orion") 0xffffff 1).
  - vm_compute. discriminate.
  - split; discriminate.
  - apply (cstr_lit (chars "UN_Orion")). repeat constructor; discriminate.
Defined.
End Screen.
