(* ===== verification/NetHw.v ===== *)
(** * The hardware under the network adapters

    What the drivers kernel/netdev_*.c use of include/io.h and of the memory an
    adapter shares with them.  An adapter is bus master: it may change the
    descriptors and buffers of a driver between any two of the driver's accesses.
    [dma] is that change; the models call it before each read of shared memory. *)

From S2P Require Import Prelude NetEnv Cstr Pci.

(** The port instructions [PortIO] does not have, and the device registers in memory. *)
Class DeviceIO (E : Type) := {
  outb : Z -> Z -> E -> E;
  inb : Z -> E -> Z * E;
  outw : Z -> Z -> E -> E;
  inw : Z -> E -> Z * E;
  mmio_read : Z -> E -> Z * E;
  mmio_write : Z -> Z -> E -> E
}.

(** The adapter at work on the shared memory [M]. *)
Class Dma (M E : Type) := { dma : M -> E -> M * E }.

(** An adapter changes contents, not objects: what [ok] says of the shape of the
    memory is kept. *)
Class DmaShape (M E : Type) `{!Dma M E} (ok : M -> Prop) := {
  dma_shape m e : ok m -> ok (fst (dma m e))
}.

(** A frame a driver may hand to the network code. *)
Definition handed (lo hi : Z) (f : bytes) : Prop := bytes_ok f /\ lo <= len f <= hi.

(** ** Copies between a frame and a buffer *)

(** [cp(b,data,len)] with [data] an object of its own. *)
Definition cp (b : bytes) (o : Z) (data : bytes) (n : Z) : option bytes :=
  copy_from (Z.to_nat n) b o data 0.

Lemma cp_spec b o data n :
  0 <= o -> 0 <= n <= len data -> o + n <= len b -> cp b o data n = Some (blit b o (slice data 0 n)).
Proof. intros. unfold cp. rewrite copy_from_spec by lia. by rewrite Z2Nat.id by lia. Qed.

Lemma slice_blit (b f : bytes) : len f <= len b -> slice (blit b 0 f) 0 (len f) = f.
Proof.
  intros H. rewrite blit_0. unfold slice. rewrite Nat2Z.id, drop_0. by rewrite take_app_length.
Qed.

Lemma slice_0_length (data : bytes) n : 0 <= n <= len data -> len (slice data 0 n) = n.
Proof. intros. apply slice_length; lia. Qed.

(** ** Lists of descriptors and buffers *)

Section lists.
Context {A : Type}.
Implicit Types (l : list A) (P : A -> Prop).

Lemma Forall_rd l P i v : Forall P l -> rd l i = Some v -> P v.
Proof. intros H [_ Hi]%rd_inv. by eapply Forall_lookup_1. Qed.

Lemma Forall_wr l P i v l' : Forall P l -> P v -> wr l i v = Some l' -> Forall P l' /\ length l' = length l.
Proof.
  intros H Hv [Hi ->]%wr_inv. split; [by apply Forall_insert|by rewrite length_insert].
Qed.

Lemma Forall_rd_lt l P i : Forall P l -> 0 <= i < len l -> exists v, rd l i = Some v /\ P v.
Proof.
  intros H Hi. destruct (rd_is_Some l i Hi) as [v Hv]. exists v. split; [done|]. by eapply Forall_rd.
Qed.

Lemma Forall_wr_lt l P i v : Forall P l -> P v -> 0 <= i < len l ->
  exists l', wr l i v = Some l' /\ Forall P l' /\ length l' = length l.
Proof.
  intros H Hv Hi. rewrite wr_Some by done. eexists. split; [done|].
  split; [by apply Forall_insert|by rewrite length_insert].
Qed.
End lists.

(** A ring index after its step. *)
Lemma next_slot i n : 0 < n < 4294967296 -> 0 <= i < n -> 0 <= u32 (i + 1) mod n < n.
Proof. intros. apply Z.mod_pos_bound. lia. Qed.

(** ** Little-endian stores *)

(** A store of [n] bytes in a field of a structure laid over a byte buffer. *)
Fixpoint store_le (n : nat) (m : bytes) (o v : Z) : option bytes :=
  match n with
  | O => Some m
  | S n' => m ← wr m o (v mod 256); store_le n' m (o + 1) (v / 256)
  end.

Lemma store_le_ok n m o v : bytes_ok m -> 0 <= o -> o + Z.of_nat n <= len m ->
  exists m', store_le n m o v = Some m' /\ bytes_ok m' /\ length m' = length m.
Proof.
  revert m o v. induction n as [|n IH]; intros m o v Hm Ho Hl; cbn [store_le]; [by exists m|].
  rewrite wr_Some by lia. cbn [mbind option_bind].
  destruct (IH (<[Z.to_nat o := v mod 256]> m) (o + 1) (v / 256)) as (m' & -> & H1 & H2).
  - apply Forall_insert; [done|]. apply Z.mod_pos_bound. lia.
  - lia.
  - rewrite length_insert. lia.
  - exists m'. rewrite length_insert in H2. done.
Qed.

Lemma store_le_spec n m o v : 0 <= o -> o + Z.of_nat n <= len m ->
  exists m', store_le n m o v = Some m' /\ length m' = length m /\
    (forall i, i < o \/ o + Z.of_nat n <= i -> rd m' i = rd m i) /\
    load_le n m' o = Some (v mod 256 ^ Z.of_nat n).
Proof.
  revert m o v. induction n as [|n IH]; intros m o v Ho Hl; cbn [store_le load_le].
  { exists m. split; [done|]. split; [done|]. split; [done|]. by rewrite Z.mod_1_r. }
  rewrite wr_Some by lia. cbn [mbind option_bind]. set (m1 := <[_ := _]> m).
  assert (Hw : wr m o (v mod 256) = Some m1) by (apply wr_Some; lia).
  assert (Hl1 : length m1 = length m) by (unfold m1; apply length_insert).
  destruct (IH m1 (o + 1) (v / 256)) as (m' & -> & H1 & H2 & H3); [lia|lia|].
  exists m'. split; [done|]. split; [lia|]. split.
  - intros i Hi. rewrite H2 by lia. eapply rd_wr_ne; [exact Hw|lia].
  - rewrite H2 by lia. rewrite (rd_wr_eq _ _ _ _ Hw). cbn [mbind option_bind]. rewrite H3. cbn [mbind option_bind].
    f_equal. rewrite Nat2Z.inj_succ, Z.pow_succ_r by lia. rewrite Z.rem_mul_r by lia. done.
Qed.
