(* ===== verification/E1000.v ===== *)
(** * kernel/netdev_e1000.c: Intel gigabit adapters

    Two rings of 32 descriptors in memory shared with the adapter.  [init] finds
    and programs the card, [tx] queues one frame, [poll] hands the received frames
    to a callback.  The callback works on a state [X] of its own, and on the
    driver when it sends. *)

From S2P Require Import Prelude NetEnv Cstr HttpSafe Pci NetHw.

Definition N : Z := 32.
Definition BUF : Z := 2048.
Definition REG_ICR : Z := 0x00c0.
Definition REG_IMC : Z := 0x00d8.
Definition REG_RCTL : Z := 0x0100.
Definition REG_TCTL : Z := 0x0400.
Definition REG_TIPG : Z := 0x0410.
Definition REG_RDBAL : Z := 0x2800.
Definition REG_RDBAH : Z := 0x2804.
Definition REG_RDLEN : Z := 0x2808.
Definition REG_RDH : Z := 0x2810.
Definition REG_RDT : Z := 0x2818.
Definition REG_TDBAL : Z := 0x3800.
Definition REG_TDBAH : Z := 0x3804.
Definition REG_TDLEN : Z := 0x3808.
Definition REG_TDH : Z := 0x3810.
Definition REG_TDT : Z := 0x3818.
Definition REG_RAL : Z := 0x5400.
Definition REG_RAH : Z := 0x5404.
Definition RCTL_EN : Z := Z.shiftl 1 1.
Definition RCTL_BAM : Z := Z.shiftl 1 15.
Definition RCTL_SECRC : Z := Z.shiftl 1 26.
Definition TCTL_EN : Z := Z.shiftl 1 1.
Definition TCTL_PSP : Z := Z.shiftl 1 3.

(** ** The state *)

Record RxD := mk_rxd { rx_addr : Z; rx_len : Z; rx_csum : Z; rx_status : Z; rx_errors : Z; rx_special : Z }.
Record TxD := mk_txd { tx_addr : Z; tx_len : Z; tx_cso : Z; tx_cmd : Z; tx_status : Z; tx_css : Z; tx_special : Z }.

(** What the adapter shares. *)
Record shared := mk_shared { rx : list RxD; txd : list TxD; rxb : list bytes; txb : list bytes }.

Record e1000 := mk_e1000 { mmio : Z; mem : shared; rxi : Z; txi : Z; up : Z; model : bytes }.

Definition set_mem (m : shared) (d : e1000) : e1000 := mk_e1000 (mmio d) m (rxi d) (txi d) (up d) (model d).
Definition set_rx (l : list RxD) (d : e1000) : e1000 :=
  set_mem (mk_shared l (txd (mem d)) (rxb (mem d)) (txb (mem d))) d.
Definition set_txd (l : list TxD) (d : e1000) : e1000 :=
  set_mem (mk_shared (rx (mem d)) l (rxb (mem d)) (txb (mem d))) d.
Definition set_txb (l : list bytes) (d : e1000) : e1000 :=
  set_mem (mk_shared (rx (mem d)) (txd (mem d)) (rxb (mem d)) l) d.
Definition set_rxi (i : Z) (d : e1000) : e1000 := mk_e1000 (mmio d) (mem d) i (txi d) (up d) (model d).
Definition set_txi (i : Z) (d : e1000) : e1000 := mk_e1000 (mmio d) (mem d) (rxi d) i (up d) (model d).
Definition set_mmio (a : Z) (d : e1000) : e1000 := mk_e1000 a (mem d) (rxi d) (txi d) (up d) (model d).
Definition set_model (s : bytes) (d : e1000) : e1000 := mk_e1000 (mmio d) (mem d) (rxi d) (txi d) (up d) s.

Definition rxd_status (v : Z) (r : RxD) : RxD :=
  mk_rxd (rx_addr r) (rx_len r) (rx_csum r) v (rx_errors r) (rx_special r).
Definition rxd_addr (a : Z) (r : RxD) : RxD :=
  mk_rxd a (rx_len r) (rx_csum r) (rx_status r) (rx_errors r) (rx_special r).
Definition txd_status (v : Z) (t : TxD) : TxD :=
  mk_txd (tx_addr t) (tx_len t) (tx_cso t) (tx_cmd t) v (tx_css t) (tx_special t).

Section driver.
Context {E : Type} `{!PortIO E, !DeviceIO E, !Dma shared E}.
(** Where the linker puts the four arrays. *)
Context (rx_at txd_at rxb_at txb_at : Z).

Definition sync (d : e1000) (e : E) : e1000 * E := let '(m, e) := dma (mem d) e in (set_mem m d, e).

(** The static functions [rd] and [wr]. *)
Definition reg_rd (o : Z) (d : e1000) (e : E) : Z * E := mmio_read (mmio d + o) e.
Definition reg_wr (o v : Z) (d : e1000) (e : E) : E := mmio_write (mmio d + o) v e.

(** ** Start-up *)

Definition ids : list (Z * bytes) :=
  [(0x100e, lit "Intel PRO/1000 MT Desktop (82540EM)");
   (0x1004, lit "Intel PRO/1000 T Server (82543GC)");
   (0x100f, lit "Intel PRO/1000 MT Server (82545EM)");
   (0x150c, lit "Intel 82583V Gigabit Network Connection");
   (0x10d3, lit "Intel e1000e family (82574L test path)")].

Fixpoint find_loop (l : list (Z * bytes)) (p : ptr PciDevice) (d : e1000) (e : E) : Z * ptr PciDevice * e1000 * E :=
  match l with
  | [] => (0, p, d, e)
  | (id, n) :: l' =>
      let '(ok, p, e) := pci_find 0x8086 id p e in
      if negb (ok =? 0) then (1, p, set_model n d, e) else find_loop l' p d e
  end.

Definition find (p : ptr PciDevice) (d : e1000) (e : E) : Z * ptr PciDevice * e1000 * E := find_loop ids p d e.

(** [mac[0]=(uint8_t)ral;...] *)
Definition mac_bytes (ral rah : Z) : bytes :=
  [u8 ral; u8 (Z.shiftr ral 8); u8 (Z.shiftr ral 16); u8 (Z.shiftr ral 24); u8 rah; u8 (Z.shiftr rah 8)].

Fixpoint put_bytes (mac : bytes) (i : Z) (l : bytes) : option bytes :=
  match l with [] => Some mac | b :: l' => mac ← wr mac i b; put_bytes mac (i + 1) l' end.

Definition rxd0 : RxD := mk_rxd 0 0 0 0 0 0.
Definition txd0 : TxD := mk_txd 0 0 0 0 0 0 0.

(** [for(unsigned i=0;i<N;i++){rx[i].addr=...;rx[i].status=0;txd[i].status=1;}] *)
Fixpoint init_rings (k : nat) (i : Z) (d : e1000) : option e1000 :=
  match k with
  | O => Some d
  | S k' =>
      r ← rd (rx (mem d)) i;
      l ← wr (rx (mem d)) i (rxd_status 0 (rxd_addr (u64 (rxb_at + i * BUF)) r));
      t ← rd (txd (mem d)) i;
      lt ← wr (txd (mem d)) i (txd_status 1 t);
      init_rings k' (i + 1) (set_txd lt (set_rx l d))
  end.

(** The register writes from [REG_RDBAL] on. *)
Definition program (d : e1000) (e : E) : E :=
  let ra := u64 rx_at in let ta := u64 txd_at in
  let e := reg_wr REG_RDBAL (u32 ra) d e in
  let e := reg_wr REG_RDBAH (u32 (Z.shiftr ra 32)) d e in
  let e := reg_wr REG_RDLEN (16 * N) d e in
  let e := reg_wr REG_RDH 0 d e in
  let e := reg_wr REG_RDT (N - 1) d e in
  let e := reg_wr REG_TDBAL (u32 ta) d e in
  let e := reg_wr REG_TDBAH (u32 (Z.shiftr ta 32)) d e in
  let e := reg_wr REG_TDLEN (16 * N) d e in
  let e := reg_wr REG_TDH 0 d e in
  let e := reg_wr REG_TDT 0 d e in
  let e := reg_wr REG_TIPG 0x0060200a d e in
  let e := reg_wr REG_TCTL (Z.lor (Z.lor (Z.lor TCTL_EN TCTL_PSP) (Z.shiftl 15 4)) (Z.shiftl 64 12)) d e in
  reg_wr REG_RCTL (Z.lor (Z.lor RCTL_EN RCTL_BAM) RCTL_SECRC) d e.

(** From the test of the address registers on. *)
Definition bring_up (ral rah : Z) (mac : bytes) (d : e1000) (e : E) : option (Z * bytes * e1000 * E) :=
  if (Z.land rah 0x80000000 =? 0) && (Z.lor ral rah =? 0) then Some (0, mac, d, e)
  else
    mac ← put_bytes mac 0 (mac_bytes ral rah);
    d ← init_rings (Z.to_nat N) 0
      (set_txd (replicate (Z.to_nat N) txd0) (set_rx (replicate (Z.to_nat N) rxd0) d));
    Some (1, mac, mk_e1000 (mmio d) (mem d) 0 0 1 (model d), program d e).

(** [p] is the uninitialised local structure. *)
Definition init (p : PciDevice) (mac : bytes) (d : e1000) (e : E) : option (Z * bytes * e1000 * E) :=
  let '(ok, p, d, e) := find (Ptr p) d e in
  if ok =? 0 then Some (0, mac, d, e)
  else
    let '(bar, e) := pci_bar32 p 0 e in
    if negb (Z.land bar 1 =? 0) then Some (0, mac, d, e)
    else
      let '(m, e) := pci_bar64 p 0 e in
      if (m =? 0) || (0xffffffff <? m) then Some (0, mac, d, e)
      else
        let d := set_mmio m d in
        let e := pci_enable p 0x0006 e in
        let e := reg_wr REG_IMC 0xffffffff d e in
        let '(_, e) := reg_rd REG_ICR d e in
        let '(ral, e) := reg_rd REG_RAL d e in
        let '(rah, e) := reg_rd REG_RAH d e in
        bring_up ral rah mac d e.

(** ** Sending *)

(** [txd[s].status&1] *)
Definition tx_done (s : Z) (d : e1000) (e : E) : option (bool * e1000 * E) :=
  let '(d, e) := sync d e in
  t ← rd (txd (mem d)) s;
  Some (negb (Z.land (tx_status t) 1 =? 0), d, e).

(** [for(unsigned k=0;k<100000&&!(txd[s].status&1);k++)] *)
Fixpoint tx_wait (k : nat) (s : Z) (d : e1000) (e : E) : option (e1000 * E) :=
  match k with
  | O => Some (d, e)
  | S k' =>
      '(ok, d, e) ← tx_done s d e;
      if (ok : bool) then Some (d, e) else tx_wait k' s d e
  end.

(** The guard in front of a slot: whether it is free. *)
Definition tx_ready (s : Z) (d : e1000) (e : E) : option (bool * e1000 * E) :=
  '(ok, d, e) ← tx_done s d e;
  if (ok : bool) then Some (true, d, e)
  else '(d, e) ← tx_wait (Z.to_nat 100000) s d e; tx_done s d e.

Definition tx (data : bytes) (n : Z) (d : e1000) (e : E) : option (Z * e1000 * E) :=
  if (up d =? 0) || (n <? 14) || (1514 <? n) then Some (0, d, e)
  else
    let s := txi d in
    '(ok, d, e) ← tx_ready s d e;
    if negb ok then Some (0, d, e)
    else
      b ← rd (txb (mem d)) s;
      b ← cp b 0 data n;
      lb ← wr (txb (mem d)) s b;
      let d := set_txb lb d in
      lt ← wr (txd (mem d)) s (mk_txd (u64 (txb_at + s * BUF)) (u16 n) 0 0x0b 0 0 0);
      let d := set_txi (u32 (s + 1) mod N) (set_txd lt d) in
      Some (1, d, reg_wr REG_TDT (txi d) d e).

(** ** Receiving *)

Section poll.
Context {X : Type} (cb : bytes -> e1000 * X * E -> res (e1000 * X * E)).

(** What the adapter left in the slot [rxi]. *)
Definition slot (d : e1000) : option RxD := rd (rx (mem d)) (rxi d).

(** [rx[rxi].status=0;unsigned done=rxi;rxi=(rxi+1)%N;wr(REG_RDT,done);] *)
Definition release (d : e1000) (e : E) : option (e1000 * E) :=
  r ← slot d;
  l ← wr (rx (mem d)) (rxi d) (rxd_status 0 r);
  let done := rxi d in
  let d := set_rxi (u32 (rxi d + 1) mod N) (set_rx l d) in
  Some (d, reg_wr REG_RDT done d e).

(** [if(len>=14&&len<=BUF)cb(rxb[rxi],len);] *)
Definition hand_over (n : Z) (w : e1000 * X * E) : res (e1000 * X * E) :=
  if (14 <=? n) && (n <=? BUF) then
    let '(d, x, e) := w in
    let '(d, e) := sync d e in
    b ← ub (rd (rxb (mem d)) (rxi d));
    f ← ub (rd_bytes b 0 n);
    cb f (d, x, e)
  else Ok w.

(** [for(unsigned guard=0;guard<N&&(rx[rxi].status&1);guard++)] *)
Fixpoint poll_loop (k : nat) (w : e1000 * X * E) : res (e1000 * X * E) :=
  match k with
  | O => Ok w
  | S k' =>
      let '(d, x, e) := w in
      let '(d, e) := sync d e in
      r ← ub (slot d);
      if Z.land (rx_status r) 1 =? 0 then Ok (d, x, e)
      else
        let '(d, e) := sync d e in
        r ← ub (slot d);
        '(d, x, e) ← hand_over (rx_len r) (d, x, e);
        '(d, e) ← ub (release d e);
        poll_loop k' (d, x, e)
  end.

Definition poll (w : e1000 * X * E) : res (e1000 * X * E) :=
  let '(d, x, e) := w in
  if up d =? 0 then Ok w else poll_loop (Z.to_nat N) w.
End poll.
End driver.

(** ** The shape of the driver's memory *)

Definition buffer_ok (b : bytes) : Prop := len b = BUF /\ bytes_ok b.
Definition shared_ok (m : shared) : Prop :=
  len (rx m) = N /\ len (txd m) = N /\ len (rxb m) = N /\ Forall buffer_ok (rxb m) /\
  len (txb m) = N /\ Forall buffer_ok (txb m).
Definition driver_ok (d : e1000) : Prop := shared_ok (mem d) /\ 0 <= rxi d < N /\ 0 <= txi d < N.

(** What a step keeps besides the shape. *)
Definition same_driver (d d' : e1000) : Prop :=
  mmio d' = mmio d /\ rxi d' = rxi d /\ txi d' = txi d /\ up d' = up d /\ model d' = model d.

#[export] Instance same_driver_preorder : PreOrder same_driver.
Proof. split; [by intros d; repeat split|]. unfold same_driver. intros x y z. intuition congruence. Qed.

Section safety.
Context {E : Type} `{!PortIO E, !DeviceIO E, !Dma shared E, !DmaShape shared E shared_ok}.
Context (rx_at txd_at rxb_at txb_at : Z).

Lemma sync_ok d e : driver_ok d -> driver_ok (sync d e).1 /\ same_driver d (sync d e).1.
Proof.
  intros (Hm & Hi). unfold sync. pose proof (dma_shape (mem d) e Hm) as H.
  destruct (dma (mem d) e) as [m e']. cbn in *. by split.
Qed.

Lemma tx_done_ok s d e : driver_ok d -> 0 <= s < N ->
  returns (tx_done s d e) (fun '(b, d', e') => driver_ok d' /\ same_driver d d' /\
    exists t, rd (txd (mem d')) s = Some t /\ b = negb (Z.land (tx_status t) 1 =? 0)).
Proof.
  intros Hd Hs. unfold tx_done. destruct (sync_ok d e Hd) as [Hd1 Hs1].
  destruct (sync d e) as [d1 e1]. cbn [fst] in *.
  assert (Hl : len (txd (mem d1)) = N) by apply Hd1.
  destruct (rd_is_Some (txd (mem d1)) s) as [t Ht]; [lia|]. rewrite Ht. cbn [mbind option_bind].
  eexists. split; [done|]. split; [done|]. split; [done|]. by exists t.
Qed.

Lemma tx_wait_ok k s d e : driver_ok d -> 0 <= s < N ->
  returns (tx_wait k s d e) (fun '(d', e') => driver_ok d' /\ same_driver d d').
Proof.
  intros Hd Hs. revert d e Hd. induction k as [|k IH]; intros d e Hd; cbn [tx_wait]; [by eexists|].
  eapply returns_bind; [by apply tx_done_ok|]. intros [[b d1] e1] (H1 & H2 & _).
  destruct b; [by eexists|]. eapply returns_mono; [by apply IH|]. intros [d2 e2] [H3 H4].
  split; [done|]. by transitivity d1.
Qed.

Lemma tx_ready_ok s d e : driver_ok d -> 0 <= s < N ->
  returns (tx_ready s d e) (fun '(b, d', e') => driver_ok d' /\ same_driver d d' /\
    exists t, rd (txd (mem d')) s = Some t /\ b = negb (Z.land (tx_status t) 1 =? 0)).
Proof.
  intros Hd Hs. unfold tx_ready.
  eapply returns_bind; [by apply tx_done_ok|]. intros [[b d1] e1] (H1 & H2 & t & Ht & Hb).
  destruct b; [eexists; split; [done|]; split; [done|]; split; [done|]; by exists t|].
  eapply returns_bind; [by apply tx_wait_ok|]. intros [d2 e2] [H3 H4].
  eapply returns_mono; [by apply tx_done_ok|]. intros [[b3 d3] e3] (H5 & H6 & H7).
  split; [done|]. split; [|done]. transitivity d1; [done|]. by transitivity d2.
Qed.

(** What [tx] left for the adapter: the frame in the slot's buffer and a
    descriptor that asks for its transmission with a checksum appended. *)
Definition queued (s : Z) (f : bytes) (m : shared) : Prop :=
  rd (txd m) s = Some (mk_txd (u64 (txb_at + s * BUF)) (len f) 0 0x0b 0 0 0) /\
  exists b, rd (txb m) s = Some b /\ slice b 0 (len f) = f.

(** Sending is memory safe, refuses every length outside 14 to 1514, and when it
    succeeds the slot was free, the adapter finds the frame and a descriptor for
    it, the other slots are as they were, and the tail register is moved behind
    it last. *)
Theorem e1000_tx_correct data n d e :
  driver_ok d -> bytes_ok data -> n <= len data ->
  exists r d' e', tx txb_at data n d e = Some (r, d', e') /\ driver_ok d' /\
    mmio d' = mmio d /\ rxi d' = rxi d /\ up d' = up d /\
    if (up d =? 0) || (n <? 14) || (1514 <? n) then r = 0 /\ d' = d /\ e' = e
    else exists d1 e1 t,
      rd (txd (mem d1)) (txi d) = Some t /\ driver_ok d1 /\
      if Z.land (tx_status t) 1 =? 0 then r = 0 /\ d' = d1 /\ e' = e1
      else r = 1 /\ queued (txi d) (slice data 0 n) (mem d') /\ txi d' = (txi d + 1) mod N /\
        rx (mem d') = rx (mem d1) /\ rxb (mem d') = rxb (mem d1) /\
        (forall i, i <> txi d -> rd (txd (mem d')) i = rd (txd (mem d1)) i /\ rd (txb (mem d')) i = rd (txb (mem d1)) i) /\
        e' = mmio_write (mmio d + REG_TDT) (txi d') e1.
Proof.
  intros Hd Hb Hn. unfold tx. destruct (_ || _) eqn:Hg; [by do 3 eexists|]. bool_prop.
  pose proof Hd as (_ & Hri & Hti). unfold N, BUF in *.
  destruct (tx_ready_ok (txi d) d e Hd Hti) as ([[b d1] e1] & -> & Hd1 & Hs1 & t & Ht & Hbt).
  cbn [mbind option_bind]. pose proof Hs1 as (Hm1 & Hr1 & Ht1 & Hu1 & Hmo1).
  destruct b; cbn [negb].
  2: { exists 0, d1, e1. split; [done|]. split; [done|]. split; [done|]. split; [done|]. split; [done|].
       exists d1, e1, t. split; [done|]. split; [done|]. destruct (_ =? 0); [done|discriminate]. }
  pose proof Hd1 as ((Hl1 & Hl2 & Hl3 & Hf3 & Hl4 & Hf4) & Hri1 & Hti1). unfold N, BUF in *.
  destruct (Forall_rd_lt (txb (mem d1)) buffer_ok (txi d) Hf4 ltac:(lia)) as (b0 & -> & Hb0 & Hbb).
  unfold BUF in Hb0. cbn [mbind option_bind]. rewrite cp_spec by lia. cbn [mbind option_bind].
  set (f := slice data 0 n). assert (Hf : len f = n) by (apply slice_0_length; lia).
  assert (Hlb : length (blit b0 0 f) = length b0) by (apply blit_length; lia).
  destruct (Forall_wr_lt (txb (mem d1)) buffer_ok (txi d) (blit b0 0 f) Hf4) as (lb & Elb & Hflb & Hllb); [|lia|].
  { split; [unfold BUF; lia|]. apply bytes_ok_blit; [done|by apply bytes_ok_slice]. }
  rewrite Elb. cbn [mbind option_bind set_txb set_mem mem txd].
  rewrite (wr_Some (txd (mem d1))) by lia. cbn [mbind option_bind].
  do 3 eexists. split; [reflexivity|]. cbn [set_txi set_txd set_mem mmio mem txi rxi up rx txd rxb txb].
  assert (Hnext : u32 (txi d + 1) mod 32 = (txi d + 1) mod 32) by (by rewrite u32_id by lia).
  rewrite Hnext. split.
  { unfold driver_ok, shared_ok, N, set_txi, set_txb, set_txd, set_mem. cbn [mem rxi txi rx txd rxb txb].
    split; [|split; [lia|apply Z.mod_pos_bound; lia]]. rewrite length_insert. by repeat (split; [done || lia|]). }
  split; [done|]. split; [done|]. split; [done|]. exists d1, e1, t. split; [done|]. split; [done|].
  destruct (_ =? 0); [discriminate|]. split; [done|]. split.
  { split; cbn [txd txb mem].
    - rewrite Hf, u16_id by lia. apply (rd_wr_eq (txd (mem d1))), wr_Some. lia.
    - exists (blit b0 0 f). split; [by eapply rd_wr_eq|]. apply slice_blit. lia. }
  split; [done|]. split; [done|]. split; [done|].
  split; [|by rewrite <- Hm1]. intros i Hi. split; [|eapply rd_wr_ne; [exact Elb|done]].
  eapply rd_wr_ne; [apply wr_Some; lia|done].
Qed.

(** ** Receiving *)

(** The callback works inside its own state, and leaves the driver in order. *)
Definition callback_ok {X} (T : Prop) (J : X -> Prop) (cb : bytes -> e1000 * X * E -> res (e1000 * X * E)) : Prop :=
  forall f d x e, handed 14 BUF f -> driver_ok d -> J x ->
    safe T (cb f (d, x, e)) (fun '(d', x', _) => driver_ok d' /\ J x').

Section poll.
Context {X : Type} (T : Prop) (J : X -> Prop) (cb : bytes -> e1000 * X * E -> res (e1000 * X * E)).
Hypothesis Hcb : callback_ok T J cb.

Lemma slot_Some d : driver_ok d -> is_Some (slot d).
Proof. intros ((Hl & _) & Hi & _). apply rd_is_Some. lia. Qed.

Lemma release_ok d e : driver_ok d -> returns (release d e) (fun '(d', _) => driver_ok d').
Proof.
  intros Hd. unfold release. destruct (slot_Some d Hd) as [r Hr]. rewrite Hr. cbn [mbind option_bind].
  destruct Hd as ((Hl1 & Hrest) & Hi & Ht). rewrite wr_Some by lia. cbn [mbind option_bind].
  eexists. split; [done|]. unfold driver_ok, shared_ok, set_rxi, set_rx, set_mem.
  cbn [mem rxi txi rx txd rxb txb]. rewrite length_insert. split; [by split|].
  split; [|done]. unfold N in *. apply next_slot; lia.
Qed.

Lemma hand_over_ok n d x e : driver_ok d -> J x ->
  safe T (hand_over cb n (d, x, e)) (fun '(d', x', _) => driver_ok d' /\ J x').
Proof.
  intros Hd Hx. unfold hand_over. case_if; [|done].
  destruct (sync_ok d e Hd) as [Hd1 _]. destruct (sync d e) as [d1 e1]. cbn [fst] in Hd1.
  pose proof Hd1 as ((_ & _ & Hl & Hf & _) & Hi & _).
  destruct (Forall_rd_lt (rxb (mem d1)) buffer_ok (rxi d1) Hf ltac:(lia)) as (b & -> & Hb & Hbb).
  cbn [ub mbind res_bind]. rewrite rd_bytes_Some by lia. cbn [ub mbind res_bind].
  apply Hcb; [|done|done]. split; [by apply bytes_ok_slice|]. rewrite slice_0_length; lia.
Qed.

Lemma poll_loop_ok k d x e : driver_ok d -> J x ->
  safe T (poll_loop cb k (d, x, e)) (fun '(d', x', _) => driver_ok d' /\ J x').
Proof.
  revert d x e. induction k as [|k IH]; intros d x e Hd Hx; cbn [poll_loop]; [done|].
  destruct (sync_ok d e Hd) as [Hd1 _]. destruct (sync d e) as [d1 e1]. cbn [fst] in Hd1.
  destruct (slot_Some d1 Hd1) as [r Hr]. rewrite Hr. cbn [ub mbind res_bind]. case_if; [done|].
  destruct (sync_ok d1 e1 Hd1) as [Hd2 _]. destruct (sync d1 e1) as [d2 e2]. cbn [fst] in Hd2.
  destruct (slot_Some d2 Hd2) as [r2 Hr2]. rewrite Hr2. cbn [ub mbind res_bind].
  eapply safe_bind; [by apply hand_over_ok|]. intros [[d3 x3] e3] [H3 H3'].
  eapply safe_bind; [by apply safe_ub, release_ok|]. intros [d4 e4] H4. by apply IH.
Qed.
End poll.

(** Receiving is memory safe and ends against any adapter, one that rewrites
    lengths and buffers while they are being read included: every frame handed to
    the callback lies inside its buffer and has from 14 to 2048 bytes. *)
Theorem e1000_poll_safe {X} T (J : X -> Prop) cb d x e :
  callback_ok T J cb -> driver_ok d -> J x ->
  safe T (poll cb (d, x, e)) (fun '(d', x', _) => driver_ok d' /\ J x').
Proof.
  intros Hcb Hd Hx. unfold poll. case_if; [done|]. by apply poll_loop_ok.
Qed.

(** ** Start-up *)

Lemma init_rings_ok k i d :
  0 <= i -> i + Z.of_nat k <= N -> driver_ok d ->
  returns (init_rings rxb_at k i d) (fun d' => driver_ok d' /\ same_driver d d').
Proof.
  revert i d. induction k as [|k IH]; intros i d Hi Hk Hd; cbn [init_rings]; [by eexists|].
  pose proof Hd as ((Hl1 & Hl2 & Hrest) & Hri & Hti).
  destruct (rd_is_Some (rx (mem d)) i) as [r ->]; [lia|]. cbn [mbind option_bind].
  rewrite wr_Some by lia. cbn [mbind option_bind].
  destruct (rd_is_Some (txd (mem d)) i) as [t ->]; [lia|]. cbn [mbind option_bind].
  rewrite wr_Some by lia. cbn [mbind option_bind].
  eapply returns_mono; [apply IH; [lia|lia|]|].
  - unfold driver_ok, shared_ok, set_txd, set_rx, set_mem. cbn [mem rxi txi rx txd rxb txb].
    rewrite !length_insert. by repeat (split; [done|]).
  - intros d' [H1 H2]. split; [done|]. etransitivity; [|exact H2]. by repeat split.
Qed.

Lemma find_loop_ok l p d e : driver_ok d ->
  let '(ok, _, d', _) := find_loop l p d e in
  driver_ok d' /\ up d' = up d /\ (ok = 0 \/ In (model d') (map snd l)).
Proof.
  revert p d e. induction l as [|[id n] l IH]; intros p d e Hd; cbn [find_loop]; [by auto|].
  destruct (pci_find 0x8086 id p e) as [[ok p1] e1]. case_if; [split; [done|]; split; [done|]; right; by left|].
  specialize (IH p1 d e1 Hd). destruct (find_loop l p1 d e1) as [[[ok2 p2] d2] e2].
  destruct IH as (H1 & H2 & [H3|H3]); split; [done|split; [done|by left]|done|split; [done|right; by right]].
Qed.

Lemma find_ok p d e : driver_ok d ->
  let '(ok, _, d', _) := find p d e in
  driver_ok d' /\ up d' = up d /\ (ok = 0 \/ In (model d') (map snd ids)).
Proof. apply find_loop_ok. Qed.

Lemma put_bytes_spec mac i l : 0 <= i -> i + len l <= len mac -> put_bytes mac i l = Some (blit mac i l).
Proof.
  revert mac i. induction l as [|b l IH]; intros mac i Hi Hl; cbn [put_bytes length] in *; [by rewrite blit_nil|].
  rewrite wr_Some by lia. cbn [mbind option_bind]. rewrite IH by (rewrite ?length_insert; lia).
  by rewrite blit_cons by lia.
Qed.

Definition init_post (mac : bytes) (r : Z * bytes * e1000 * E) : Prop :=
  let '(ok, mac', d', _) := r in
  driver_ok d' /\ len mac' = 6 /\
  ((ok = 0 /\ up d' = 0 /\ mac' = mac) \/
   (ok = 1 /\ up d' = 1 /\ rxi d' = 0 /\ txi d' = 0 /\ bytes_ok mac' /\ In (model d') (map snd ids))).

Lemma bring_up_ok ral rah mac d e :
  driver_ok d -> up d = 0 -> len mac = 6 -> In (model d) (map snd ids) ->
  returns (bring_up rx_at txd_at rxb_at ral rah mac d e) (init_post mac).
Proof.
  intros Hd1 Hu1 Hm Hmod. unfold bring_up, init_post.
  case_if; [eexists; split; [done|]; split; [done|]; split; [done|]; by left|].
  assert (Hlb : len (mac_bytes ral rah) = 6) by done.
  rewrite put_bytes_spec, bind_some by lia.
  eapply returns_bind; [apply init_rings_ok; [lia|done|]|].
  { destruct Hd1 as ((_ & _ & Hrest) & Hri & Hti).
    unfold driver_ok, shared_ok, set_txd, set_rx, set_mem. cbn [mem rxi txi rx txd rxb txb].
    rewrite !length_replicate. by repeat (split; [done|]). }
  intros d2 [Hd2 (_ & _ & _ & _ & Hmod2)]. eexists. split; [reflexivity|]. cbv beta iota.
  split; [split; [apply Hd2|unfold N; cbn [rxi txi]; lia]|]. split; [rewrite blit_length; lia|].
  right. split; [done|]. split; [done|]. split; [done|]. split; [done|]. split.
  - rewrite blit_0, drop_ge by (cbn [length] in *; lia). rewrite app_nil_r.
    repeat (constructor; [apply u8_range|]). constructor.
  - cbn [model]. rewrite Hmod2. exact Hmod.
Qed.

(** Start-up stays inside its arrays on every machine; it reports success exactly
    with the driver up and its indices at 0, and the address of the card in [mac]. *)
Theorem e1000_init_safe p mac d e :
  driver_ok d -> up d = 0 -> len mac = 6 ->
  returns (init rx_at txd_at rxb_at p mac d e) (init_post mac).
Proof.
  intros Hd Hu Hm. unfold init. pose proof (find_ok (Ptr p) d e Hd) as Hfind.
  destruct (find _ _ _) as [[[ok p1] d1] e1]. destruct Hfind as (Hd1 & Hu1 & Hok). rewrite Hu in Hu1.
  assert (Hno : forall e', init_post mac (0, mac, d1, e')).
  { intros e'. split; [done|]. split; [done|]. by left. }
  case_if; [by eexists|]. destruct Hok as [Hok|Hok]; [done|].
  destruct (pci_bar32 p1 0 e1) as [bar e2]. case_if; [by eexists|].
  destruct (pci_bar64 p1 0 e2) as [m e3]. case_if; [by eexists|].
  cbv zeta. destruct (reg_rd REG_ICR _ _) as [v e4]. destruct (reg_rd REG_RAL _ _) as [ral e5].
  destruct (reg_rd REG_RAH _ _) as [rah e6]. by apply bring_up_ok.
Qed.
End safety.

(** ** A card that is idle *)

Module Bench.
(** The registers written, the last first. *)
Definition log : Type := list (Z * Z).
#[export] Instance bench_dma : Dma shared log := {| dma m e := (m, e) |}.
#[export] Instance bench_io : DeviceIO log := {|
  outb p v e := (p, v) :: e; inb _ e := (0, e); outw p v e := (p, v) :: e; inw _ e := (0, e);
  mmio_read _ e := (0x80000001, e); mmio_write o v e := (o, v) :: e
|}.
#[export] Instance bench_ports : PortIO log := {| outl p v e := (p, v) :: e; inl _ e := (0xffffffff, e) |}.
#[export] Instance bench_shape : DmaShape shared log shared_ok.
Proof. split. intros m e H. exact H. Qed.

Definition buffers : list bytes := replicate 32 (replicate (Z.to_nat BUF) 0).
Definition idle (up : Z) : e1000 :=
  mk_e1000 0 (mk_shared (replicate 32 rxd0) (replicate 32 (txd_status 1 txd0)) buffers buffers) 0 31 up [].

Lemma buffers_ok : Forall buffer_ok buffers.
Proof. apply Forall_replicate. split; [done|by apply bytes_ok_replicate]. Qed.

Lemma idle_ok u : driver_ok (idle u).
Proof. split; [|done]. pose proof buffers_ok. by repeat (split; [done|]). Qed.

Abbreviation frame := (replicate 60 7).

(** A frame leaves through the last slot; the tail register wraps to 0. *)
Example tx_wraps :
  (let r := tx 0x1000 frame 60 (idle 1) [] in
   (fun '(ok, d, e) => (ok, txi d, e)) <$> r) = Some (1, 0, [(0x3818, 0)]).
Proof. vm_compute. reflexivity. Qed.

Lemma e1000_tx_correct_witness :
  exists r d' e', tx 0x1000 frame 60 (idle 1) [] = Some (r, d', e') /\ driver_ok d' /\
    mmio d' = 0 /\ rxi d' = 0 /\ up d' = 1 /\
    if (up (idle 1) =? 0) || (60 <? 14) || (1514 <? 60) then r = 0 /\ d' = idle 1 /\ e' = []
    else exists d1 e1 t,
      rd (txd (mem d1)) 31 = Some t /\ driver_ok d1 /\
      if Z.land (tx_status t) 1 =? 0 then r = 0 /\ d' = d1 /\ e' = e1
      else r = 1 /\ queued 0x1000 31 (slice frame 0 60) (mem d') /\ txi d' = (31 + 1) mod N /\
        rx (mem d') = rx (mem d1) /\ rxb (mem d') = rxb (mem d1) /\
        (forall i, i <> 31 -> rd (txd (mem d')) i = rd (txd (mem d1)) i /\ rd (txb (mem d')) i = rd (txb (mem d1)) i) /\
        e' = mmio_write (0 + REG_TDT) (txi d') e1.
Proof.
  apply (e1000_tx_correct 0x1000 frame 60 (idle 1) ([] : log)).
  - apply idle_ok.
  - by apply bytes_ok_replicate.
  - discriminate.
Defined.

(** A callback that counts. *)
Lemma e1000_poll_safe_witness :
  safe False (poll (fun _ '(d, x, e) => Ok (d, x + 1, e)) (idle 1, 0, [] : log))
    (fun '(d', x', _) => driver_ok d' /\ 0 <= x').
Proof.
  apply (e1000_poll_safe False (fun x => 0 <= x)).
  - intros f d x e _ Hd Hx. split; [done|lia].
  - apply idle_ok.
  - done.
Defined.

Lemma e1000_init_safe_witness :
  returns (init 0 0 0 (mk_pci 0 0 0 0 0 0 0 0 0) (replicate 6 0) (idle 0) ([] : log)) (init_post (replicate 6 0)).
Proof.
  apply e1000_init_safe; [apply idle_ok|done|done].
Defined.
End Bench.
