(* ===== verification/E1000Fifo.v ===== *)
(** * kernel/netdev_e1000.c with an adapter that keeps to its data sheet

    The receive ring as a queue: the adapter fills the descriptors between its head
    and its tail register and drops a frame when there are none, at any moment
    between two accesses of the driver; the driver delivers what was accepted, in
    order and once. *)

From S2P Require Import Prelude NetEnv Cstr Pci NetHw E1000.

(** ** The adapter *)

(** Arrivals still to come, one batch for each moment, and the history. *)
Record adapter := mk_adapter {
  a_head : Z; a_tail : Z; wire : list (list bytes); accepted : list bytes; lost : list bytes
}.

(** One frame: into the buffer at the head, unless the head meets the tail. *)
Definition receive (m : shared) (a : adapter) (f : bytes) : shared * adapter :=
  if a_head a =? a_tail a then
    (m, mk_adapter (a_head a) (a_tail a) (wire a) (accepted a) (lost a ++ [f]))
  else
    let i := Z.to_nat (a_head a) in
    (mk_shared
       (alter (fun r => mk_rxd (rx_addr r) (len f) 0 3 0 0) i (rx m)) (txd m)
       (alter (fun b => blit b 0 f) i (rxb m)) (txb m),
     mk_adapter ((a_head a + 1) mod N) (a_tail a) (wire a) (accepted a ++ [f]) (lost a)).

Fixpoint receive_all (fs : list bytes) (m : shared) (a : adapter) : shared * adapter :=
  match fs with
  | [] => (m, a)
  | f :: fs' => let '(m, a) := receive m a f in receive_all fs' m a
  end.

Definition set_wire (w : list (list bytes)) (a : adapter) : adapter :=
  mk_adapter (a_head a) (a_tail a) w (accepted a) (lost a).
Definition set_tail (v : Z) (a : adapter) : adapter :=
  mk_adapter (a_head a) v (wire a) (accepted a) (lost a).

Definition set_head (v : Z) (a : adapter) : adapter :=
  mk_adapter v (a_tail a) (wire a) (accepted a) (lost a).

#[export] Instance adapter_dma : Dma shared adapter := {|
  dma m a := match wire a with [] => (m, a) | fs :: w => receive_all fs m (set_wire w a) end
|}.

(** The card is at address 0 and has no ports. *)
#[export] Instance adapter_io : DeviceIO adapter := {|
  outb _ _ a := a; inb _ a := (0, a); outw _ _ a := a; inw _ a := (0, a);
  mmio_read _ a := (0, a);
  mmio_write o v a :=
    if o =? REG_RDT then set_tail v a else if o =? REG_RDH then set_head v a else a
|}.

(** ** The ring as a queue *)

(** Frames that fit a buffer and that the driver does not skip. *)
Definition frame_fits (f : bytes) : Prop := handed 14 BUF f.

Definition filled (m : shared) (i : Z) (f : bytes) : Prop :=
  exists r b, rd (rx m) i = Some r /\ Z.land (rx_status r) 1 <> 0 /\ rx_len r = len f /\
    rd (rxb m) i = Some b /\ slice b 0 (len f) = f.
Definition vacant (m : shared) (i : Z) : Prop :=
  exists r, rd (rx m) i = Some r /\ Z.land (rx_status r) 1 = 0.

(** The frames [p] are waiting, the oldest in the slot [r] of the driver. *)
Record queue (r : Z) (m : shared) (a : adapter) (p : list bytes) : Prop := mk_queue {
  q_shape : shared_ok m;
  q_index : 0 <= r < N;
  q_room : len p <= N - 1;
  q_tail : a_tail a = (r + (N - 1)) mod N;
  q_head : a_head a = (r + len p) mod N;
  q_fits : Forall frame_fits p /\ Forall (Forall frame_fits) (wire a);
  q_filled : forall k f, p !! k = Some f -> filled m ((r + Z.of_nat k) mod N) f;
  q_vacant : forall k, len p <= k < N -> vacant m ((r + k) mod N)
}.

(** Slots of a ring of 32 are apart. *)
Lemma slots_apart r i j : 0 <= i < N -> 0 <= j < N -> i <> j -> (r + i) mod N <> (r + j) mod N.
Proof. unfold N. intros. zlia. Qed.

Lemma slot_range r i : 0 <= (r + i) mod N < N.
Proof. apply Z.mod_pos_bound. done. Qed.

Lemma rd_alter_ne {A} (l : list A) (f : A -> A) i j :
  0 <= i -> i <> j -> rd (alter f (Z.to_nat i) l) j = rd l j.
Proof. intros Hi Hj. unfold rd. case_if; [|done]. apply list_lookup_alter_ne. lia. Qed.

Lemma rd_alter_eq {A} (l : list A) (f : A -> A) i v :
  rd l i = Some v -> rd (alter f (Z.to_nat i) l) i = Some (f v).
Proof. intros [Hi Hv]%rd_inv. unfold rd. if_true. by rewrite list_lookup_alter_eq, Hv. Qed.

Lemma Forall_alter_ok {A} (P : A -> Prop) (f : A -> A) i l :
  Forall P l -> (forall x, P x -> P (f x)) -> Forall P (alter f i l).
Proof. intros H Hf. apply Forall_alter; [done|]. intros. by apply Hf. Qed.

Lemma buffer_receives b f : frame_fits f -> buffer_ok b -> buffer_ok (blit b 0 f).
Proof.
  intros [Hf Hl] [Hb Hbb]. split; [rewrite blit_length by lia; done|].
  by apply bytes_ok_blit.
Qed.

(** An arrival joins the queue or is lost; it is lost only when 31 wait. *)
Lemma receive_queue r m a p f :
  queue r m a p -> frame_fits f ->
  let '(m', a') := receive m a f in
  exists p', queue r m' a' p' /\ wire a' = wire a /\
    ((len p < N - 1 /\ p' = p ++ [f] /\ accepted a' = accepted a ++ [f] /\ lost a' = lost a) \/
     (len p = N - 1 /\ p' = p /\ accepted a' = accepted a /\ lost a' = lost a ++ [f])).
Proof.
  intros Q Hf. pose proof Q as [Hm Hr Hp Ht Hh [Hfp Hfw] Hfill Hvac]. unfold receive.
  destruct (Z.eqb_spec (a_head a) (a_tail a)) as [E|E].
  { assert (len p = N - 1).
    { rewrite Hh, Ht in E. destruct (Z.eq_dec (len p) (N - 1)) as [|Hne]; [done|].
      exfalso. revert E. apply slots_apart; unfold N in *; lia. }
    exists p. split; [by split|]. split; [done|]. right. by repeat split. }
  assert (Hlt : len p < N - 1).
  { destruct (Z.eq_dec (len p) (N - 1)) as [Hne|]; [|lia]. rewrite Hh, Ht, Hne in E. done. }
  set (i := a_head a) in *. assert (Hi : 0 <= i < N) by (rewrite Hh; apply slot_range).
  destruct (Hvac (len p) ltac:(unfold N in *; lia)) as (r0 & Hr0 & _). rewrite <- Hh in Hr0.
  pose proof Hm as (Hl1 & Hl2 & Hl3 & Hf3 & Hl4 & Hf4).
  destruct (Forall_rd_lt (rxb m) buffer_ok i Hf3 ltac:(lia)) as (b0 & Hb0 & Hb0l & _).
  exists (p ++ [f]). split; [|split; [done|left; by repeat split]].
  assert (Hk : forall k, 0 <= k < N -> k <> len p -> i <> (r + k) mod N).
  { intros k Hk1 Hk2. rewrite Hh. apply slots_apart; unfold N in *; lia. }
  split; cbn [a_tail a_head wire rx txd rxb txb].
  - unfold shared_ok. cbn [rx txd rxb txb]. rewrite !length_alter. repeat (split; [done|]).
    split; [|by split]. apply Forall_alter_ok; [done|]. intros b. by apply buffer_receives.
  - done.
  - rewrite length_app. cbn [length]. lia.
  - done.
  - rewrite length_app. cbn [length]. rewrite Hh. unfold N. zlia.
  - split; [|done]. apply Forall_app. split; [done|by constructor].
  - intros k g Hg. apply lookup_app_Some in Hg as [Hg|[Hge Hg]].
    + destruct (Hfill k g Hg) as (r1 & b1 & H1 & H2 & H3 & H4 & H5). apply lookup_lt_Some in Hg.
      exists r1, b1. cbn [rx rxb].
      rewrite !rd_alter_ne by (try lia; apply Hk; unfold N in *; lia). done.
    + assert (k = length p /\ g = f) as [-> ->].
      { destruct (k - length p)%nat eqn:Ek; [|done]. cbn in Hg. injection Hg as ->. split; [lia|done]. }
      rewrite <- Hh. eexists _, _. cbn [rx rxb]. split; [by apply rd_alter_eq|]. cbn [rx_status rx_len].
      split; [done|]. split; [done|]. split; [by apply rd_alter_eq|].
      apply slice_blit. destruct Hf as [_ Hf]. unfold BUF in *. lia.
  - intros k Hk'. rewrite length_app in Hk'. cbn [length] in Hk'.
    destruct (Hvac k ltac:(lia)) as (r1 & H1 & H2). exists r1. cbn [rx].
    rewrite rd_alter_ne by (try lia; apply Hk; lia). done.
Qed.

(** What the history says of a queue: everything accepted was delivered or waits. *)
Definition history (x p : list bytes) (a : adapter) : Prop := accepted a = x ++ p.

Lemma receive_all_queue fs r m a p x :
  queue r m a p -> Forall frame_fits fs -> history x p a ->
  let '(m', a') := receive_all fs m a in
  exists q, queue r m' a' (p ++ q) /\ wire a' = wire a /\ history x (p ++ q) a' /\ (fs = [] -> q = []).
Proof.
  revert m a p. induction fs as [|f fs IH]; intros m a p Q Hfs Hh; cbn [receive_all].
  { exists []. rewrite app_nil_r. done. }
  inversion Hfs as [|? ? Hf Hfs']; subst. pose proof (receive_queue r m a p f Q Hf) as H.
  destruct (receive m a f) as [m1 a1]. destruct H as (p1 & Q1 & Hw1 & H).
  assert (Hp1 : (exists q, p1 = p ++ q) /\ history x p1 a1).
  { unfold history in *. destruct H as [(_ & -> & -> & _)|(_ & -> & -> & _)].
    - split; [by eexists|]. by rewrite Hh, app_assoc.
    - split; [exists []; by rewrite app_nil_r|done]. }
  destruct Hp1 as [[q ->] Hh1]. specialize (IH m1 a1 (p ++ q) Q1 Hfs' Hh1).
  destruct (receive_all fs m1 a1) as [m2 a2]. destruct IH as (q2 & Q2 & Hw2 & Hh2 & _).
  rewrite <- app_assoc in *. exists (q ++ q2). split; [done|]. split; [congruence|]. split; [done|discriminate].
Qed.

(** The state of the driver, what the callback has, the adapter. *)
Definition world : Type := e1000 * list bytes * adapter.

(** The callback that collects. *)
Definition collect (f : bytes) (w : world) : res world :=
  let '(d, x, a) := w in Ok (d, x ++ [f], a).

Definition fifo (d : e1000) (x : list bytes) (a : adapter) (p : list bytes) : Prop :=
  queue (rxi d) (mem d) a p /\ history x p a /\ mmio d = 0.

Lemma sync_fifo d x a p :
  fifo d x a p ->
  let '(d', a') := sync d a in
  same_driver d d' /\ exists q, fifo d' x a' (p ++ q) /\ (wire a = [] -> q = [] /\ wire a' = []).
Proof.
  intros (Q & Hh & Hm). unfold sync. cbn [dma adapter_dma].
  destruct (wire a) as [|fs w] eqn:Ew.
  { split; [by repeat split|]. exists []. rewrite app_nil_r. split; [by split|]. by rewrite Ew. }
  assert (Q' : queue (rxi d) (mem d) (set_wire w a) p).
  { destruct Q as [H1 H2 H3 H4 H5 [H6 H7] H8 H9]. rewrite Ew in H7. inversion H7; subst. by split. }
  pose proof (q_fits _ _ _ _ Q) as [_ Hw]. rewrite Ew in Hw. inversion Hw as [|? ? Hfs _]; subst.
  pose proof (receive_all_queue fs _ _ _ p x Q' Hfs Hh) as H.
  destruct (receive_all fs (mem d) (set_wire w a)) as [m' a'].
  destruct H as (q & Q2 & _ & Hh2 & _). split; [by repeat split|]. exists q. split; [split; [done|by split]|discriminate].
Qed.

(** The oldest frame leaves. *)
Lemma release_fifo d x a f p :
  fifo d x a (f :: p) ->
  exists d' a', release d a = Some (d', a') /\ fifo d' (x ++ [f]) a' p /\ wire a' = wire a /\ up d' = up d.
Proof.
  intros ([Hm Hr Hp Ht Hh [Hfp Hfw] Hfill Hvac] & Hhist & Hmm). unfold release, slot.
  destruct (Hfill 0%nat f eq_refl) as (r1 & b1 & Hr1 & _). rewrite Z.add_0_r, Z.mod_small in Hr1 by done.
  rewrite Hr1. cbn [mbind option_bind]. pose proof Hm as (Hl1 & Hl2 & Hl3 & Hf3 & Hl4 & Hf4).
  rewrite wr_Some by lia. cbn [mbind option_bind]. do 2 eexists. split; [reflexivity|].
  unfold reg_wr, set_rxi, set_rx, set_mem. cbn [mmio mmio_write adapter_io]. rewrite Hmm.
  change (0 + REG_RDT =? REG_RDT) with true. cbv iota.
  assert (Hnext : u32 (rxi d + 1) mod N = (rxi d + 1) mod N) by (unfold N in *; by rewrite u32_id by lia).
  rewrite Hnext. set (l := <[_ := _]> _).
  assert (Hne : forall k, 0 < k < N -> rd l ((rxi d + k) mod N) = rd (rx (mem d)) ((rxi d + k) mod N)).
  { intros k Hk. eapply (rd_wr_ne _ (rxi d)); [apply wr_Some; lia|].
    rewrite <- (Z.mod_small (rxi d) N) at 1 by done. rewrite <- (Z.add_0_r (rxi d)) at 1.
    apply slots_apart; unfold N in *; lia. }
  assert (Hshift : forall k, ((rxi d + 1) mod N + k) mod N = (rxi d + (k + 1)) mod N).
  { intros k. rewrite Zplus_mod_idemp_l. f_equal. lia. }
  split; [|done]. split; [|split; [unfold history in *; cbn; by rewrite Hhist, <- app_assoc|done]].
  cbn [rxi mem]. split; cbn [a_tail a_head wire set_tail rx txd rxb txb].
  - unfold shared_ok. cbn [rx txd rxb txb]. unfold l. rewrite length_insert. by repeat (split; [done|]).
  - apply Z.mod_pos_bound. done.
  - cbn [length] in Hp. lia.
  - rewrite Hshift. replace (N - 1 + 1) with N by lia. unfold N in *. zlia.
  - rewrite Hshift, Hh. cbn [length]. f_equal. lia.
  - by inversion Hfp.
  - intros k g Hg. pose proof (lookup_lt_Some _ _ _ Hg) as Hk. cbn [length] in Hp.
    destruct (Hfill (S k) g Hg) as (r2 & b2 & H1 & H2 & H3 & H4 & H5).
    rewrite Hshift. replace (Z.of_nat k + 1) with (Z.of_nat (S k)) by lia.
    exists r2, b2. cbn [rx rxb]. rewrite Hne by lia. done.
  - intros k Hk. rewrite Hshift. destruct (Z.eq_dec k (N - 1)) as [->|Hk2].
    + replace ((rxi d + (N - 1 + 1)) mod N) with (rxi d) by (unfold N in *; zlia).
      eexists. split; [eapply rd_wr_eq, wr_Some; lia|done].
    + destruct (Hvac (k + 1)) as (r2 & H1 & H2); [cbn [length]; lia|]. exists r2. cbn [rx].
      rewrite Hne by lia. done.
Qed.

Lemma hand_over_fifo d x a f p r :
  fifo d x a (f :: p) -> slot d = Some r ->
  exists d' a' q, hand_over collect (rx_len r) (d, x, a) = Ok (d', x ++ [f], a') /\
    fifo d' x a' (f :: p ++ q) /\ up d' = up d /\ (wire a = [] -> q = [] /\ wire a' = []).
Proof.
  intros Hf Hr. pose proof Hf as (Q & _). pose proof (sync_fifo d x a (f :: p) Hf) as Hs.
  destruct (q_fits _ _ _ _ Q) as [Hfits _]. inversion Hfits as [|? ? Hff _]; subst.
  destruct (q_filled _ _ _ _ Q 0%nat f eq_refl) as (r1 & _ & Hr1 & _ & Hlen & _).
  pose proof (q_index _ _ _ _ Q) as Hi. rewrite Z.add_0_r, Z.mod_small in Hr1 by done.
  unfold slot in Hr. rewrite Hr1 in Hr. injection Hr as <-. rewrite Hlen.
  destruct Hff as [Hfb Hfl]. unfold hand_over.
  replace ((14 <=? len f) && (len f <=? BUF)) with true
    by (symmetry; apply andb_true_intro; split; apply Z.leb_le; lia).
  destruct (sync d a) as [d1 a1]. destruct Hs as ((_ & Hri & _ & Hup & _) & q & Hf1 & Hq).
  pose proof Hf1 as (Q1 & _). destruct (q_filled _ _ _ _ Q1 0%nat f eq_refl) as (r2 & b & _ & _ & _ & Hb & Hsl).
  rewrite Hri, Z.add_0_r, Z.mod_small in Hb by done. rewrite Hri, Hb. cbn [ub mbind res_bind].
  pose proof (q_shape _ _ _ _ Q1) as (_ & _ & _ & Hf3 & _).
  destruct (Forall_rd _ _ _ _ Hf3 Hb) as [Hbl _].
  rewrite rd_bytes_Some, Hsl by lia. cbn [ub mbind res_bind collect].
  exists d1, a1, q. by repeat (split; [done|]).
Qed.

(** A poll delivers from the front of the queue; without arrivals, all of it. *)
Lemma poll_loop_fifo k d x a p :
  fifo d x a p ->
  exists d' x' a' p', poll_loop collect k (d, x, a) = Ok (d', x', a') /\ fifo d' x' a' p' /\
    up d' = up d /\ (exists fs, x' = x ++ fs) /\
    (wire a = [] -> (length p <= k)%nat -> p' = [] /\ x' = x ++ p).
Proof.
  revert d x a p. induction k as [|k IH]; intros d x a p Hf; cbn [poll_loop].
  { exists d, x, a, p. split; [done|]. split; [done|]. split; [done|].
    split; [exists []; by rewrite app_nil_r|]. intros _ Hk. destruct p; [|cbn in Hk; lia].
    by rewrite app_nil_r. }
  pose proof (sync_fifo d x a p Hf) as Hs. destruct (sync d a) as [d1 a1].
  destruct Hs as ((_ & _ & _ & Hu1 & _) & q1 & Hf1 & Hq1). pose proof Hf1 as (Q1 & _).
  pose proof (q_index _ _ _ _ Q1) as Hi1.
  destruct (p ++ q1) as [|f p1] eqn:Ep.
  - destruct (q_vacant _ _ _ _ Q1 0 ltac:(done)) as (r & Hr & Hr0).
    rewrite Z.add_0_r, Z.mod_small in Hr by done. change (slot d1) with (rd (rx (mem d1)) (rxi d1)).
    rewrite Hr. cbn [ub mbind res_bind]. rewrite Hr0. cbn [Z.eqb]. exists d1, x, a1, []. split; [done|]. split; [done|]. split; [done|].
    split; [exists []; by rewrite app_nil_r|]. apply app_eq_nil in Ep as [-> ->]. by rewrite app_nil_r.
  - destruct (q_filled _ _ _ _ Q1 0%nat f eq_refl) as (r & b & Hr & Hr1 & _).
    rewrite Z.add_0_r, Z.mod_small in Hr by done. change (slot d1) with (rd (rx (mem d1)) (rxi d1)).
    rewrite Hr. cbn [ub mbind res_bind].
    replace (Z.land (rx_status r) 1 =? 0) with false by (symmetry; by apply Z.eqb_neq).
    pose proof (sync_fifo d1 x a1 _ Hf1) as Hs. destruct (sync d1 a1) as [d2 a2].
    destruct Hs as ((_ & Hri & _ & Hu2 & _) & q2 & Hf2 & Hq2). pose proof Hf2 as (Q2 & _).
    destruct (q_filled _ _ _ _ Q2 0%nat f eq_refl) as (r2 & b2 & Hr2 & _).
    rewrite Hri, Z.add_0_r, Z.mod_small in Hr2 by done. change (slot d2) with (rd (rx (mem d2)) (rxi d2)).
    rewrite Hri, Hr2. cbn [ub mbind res_bind].
    destruct (hand_over_fifo d2 x a2 f (p1 ++ q2) r2) as (d3 & a3 & q3 & -> & Hf3 & Hu3 & Hq3);
      [done|unfold slot; by rewrite Hri|]. cbn [ub mbind res_bind].
    destruct (release_fifo d3 x a3 f _ Hf3) as (d4 & a4 & -> & Hf4 & Hw4 & Hu4). cbn [ub mbind res_bind].
    destruct (IH d4 (x ++ [f]) a4 _ Hf4) as (d5 & x5 & a5 & p5 & -> & Hf5 & Hu5 & [fs ->] & Hend).
    exists d5, ((x ++ [f]) ++ fs), a5, p5. split; [done|]. split; [done|]. split; [congruence|].
    split; [exists (f :: fs); by rewrite <- app_assoc|]. intros Hw Hk.
    destruct (Hq1 Hw) as [-> Hw1]. destruct (Hq2 Hw1) as [-> Hw2]. destruct (Hq3 Hw2) as [-> Hw3].
    rewrite !app_nil_r in *. subst p. destruct Hend as [-> Hx]; [congruence|cbn in Hk; lia|].
    split; [done|]. by rewrite Hx, <- app_assoc.
Qed.

(** ** The life of the driver *)

Fixpoint polls (n : nat) (w : world) : res world :=
  match n with O => Ok w | S n' => w ← poll collect w; polls n' w end.

Lemma polls_fifo n d x a p :
  fifo d x a p -> up d <> 0 ->
  exists d' x' a' p', polls n (d, x, a) = Ok (d', x', a') /\ fifo d' x' a' p' /\ up d' = up d.
Proof.
  revert d x a p. induction n as [|n IH]; intros d x a p Hf Hu; cbn [polls]; [by exists d, x, a, p|].
  unfold poll. replace (up d =? 0) with false by (symmetry; by apply Z.eqb_neq).
  destruct (poll_loop_fifo (Z.to_nat N) d x a p Hf) as (d1 & x1 & a1 & p1 & -> & Hf1 & Hu1 & _).
  cbn [mbind res_bind]. destruct (IH d1 x1 a1 p1 Hf1 ltac:(congruence)) as (d2 & x2 & a2 & p2 & H1 & H2 & H3).
  exists d2, x2, a2, p2. split; [done|]. split; [done|congruence].
Qed.

Lemma init_rings_status rxb_at k i d d' :
  init_rings rxb_at k i d = Some d' -> Forall (fun r => rx_status r = 0) (rx (mem d)) ->
  Forall (fun r => rx_status r = 0) (rx (mem d')).
Proof.
  revert i d. induction k as [|k IH]; intros i d; cbn [init_rings]; [by intros [= ->]|].
  destruct (rd (rx (mem d)) i) as [r|]; cbn [mbind option_bind]; [|done].
  destruct (wr (rx (mem d)) i _) as [l|] eqn:El; cbn [mbind option_bind]; [|done].
  destruct (rd (txd (mem d)) i) as [t|]; cbn [mbind option_bind]; [|done].
  destruct (wr (txd (mem d)) i _) as [lt|]; cbn [mbind option_bind]; [|done].
  intros H Hd. apply IH in H; [done|]. cbn [set_txd set_rx set_mem mem rx].
  eapply Forall_wr in El; [by destruct El|done|done].
Qed.

(** The ring is empty when the driver has programmed the card. *)
Lemma program_adapter rx_at txd_at d a :
  mmio d = 0 -> program rx_at txd_at d a = set_tail (N - 1) (set_head 0 a).
Proof. intros Hm. unfold program, reg_wr. by rewrite Hm. Qed.

Lemma started_fifo d a :
  driver_ok d -> mmio d = 0 -> rxi d = 0 -> Forall (fun r => rx_status r = 0) (rx (mem d)) ->
  Forall (Forall frame_fits) (wire a) -> accepted a = [] ->
  fifo d [] (set_tail (N - 1) (set_head 0 a)) [].
Proof.
  intros (Hsh & _) Hmm Hi Hst Hw Ha. split; [|by split]. rewrite Hi.
  split; cbn [a_tail a_head wire set_tail set_head]; try done.
  intros k Hk. destruct (Forall_rd_lt _ _ ((0 + k) mod N) Hst) as (r & Hr & Hr0).
  { destruct Hsh as (-> & _). apply slot_range. }
  exists r. by rewrite Hr0.
Qed.

Lemma bring_up_fifo rx_at txd_at rxb_at ral rah mac d a :
  driver_ok d -> len mac = 6 -> mmio d = 0 -> Z.land rah 0x80000000 <> 0 ->
  Forall (Forall frame_fits) (wire a) -> accepted a = [] ->
  exists mac' d' a', bring_up rx_at txd_at rxb_at ral rah mac d a = Some (1, mac', d', a') /\
    fifo d' [] a' [] /\ wire a' = wire a /\ up d' <> 0.
Proof.
  intros Hd Hm Hmm Hrah Hw Ha. unfold bring_up.
  replace (Z.land rah 0x80000000 =? 0) with false by (symmetry; by apply Z.eqb_neq). cbn [andb].
  rewrite put_bytes_spec, bind_some by (try lia; by cbn; lia).
  destruct (init_rings_ok rxb_at (Z.to_nat N) 0 (set_txd (replicate (Z.to_nat N) txd0)
    (set_rx (replicate (Z.to_nat N) rxd0) d))) as (d1 & E1 & Hd1 & Hs1); [lia|done| |].
  { destruct Hd as ((_ & _ & Hrest) & Hri & Hti).
    unfold driver_ok, shared_ok, set_txd, set_rx, set_mem. cbn [mem rxi txi rx txd rxb txb].
    rewrite !length_replicate. by repeat (split; [done|]). }
  assert (Hst : Forall (fun r => rx_status r = 0) (rx (mem d1))).
  { eapply init_rings_status in E1; [exact E1|].
    change (Forall (fun r => rx_status r = 0) (replicate (Z.to_nat N) rxd0)). by apply Forall_replicate. }
  rewrite E1, bind_some. clear E1. destruct Hs1 as (Hm1 & _). change (mmio d1 = mmio d) in Hm1. rewrite Hmm in Hm1.
  do 3 eexists. split; [reflexivity|]. rewrite program_adapter by done.
  split; [|done]. apply started_fifo; [|done|done|done|done|done]. split; [apply Hd1|done].
Qed.

(** C24. The receive ring is a first-in first-out queue of at most 31 frames: from the
    moment the card is programmed, whatever arrives and whenever, any number of
    polls delivers, in order and once each, exactly the frames the card accepted,
    less those that still wait in the ring. *)
Theorem e1000_rx_fifo rx_at txd_at rxb_at ral rah mac d a n :
  driver_ok d -> len mac = 6 -> mmio d = 0 -> Z.land rah 0x80000000 <> 0 ->
  Forall (Forall frame_fits) (wire a) -> accepted a = [] ->
  exists mac' d1 a1 d' x a' p,
    bring_up rx_at txd_at rxb_at ral rah mac d a = Some (1, mac', d1, a1) /\
    polls n (d1, [], a1) = Ok (d', x, a') /\
    accepted a' = x ++ p /\ len p <= N - 1.
Proof.
  intros Hd Hm Hmm Hrah Hw Ha.
  destruct (bring_up_fifo rx_at txd_at rxb_at ral rah mac d a Hd Hm Hmm Hrah Hw Ha) as (mac' & d1 & a1 & E1 & Hf & _ & Hu).
  destruct (polls_fifo n d1 [] a1 [] Hf Hu) as (d' & x & a' & p & E2 & (Q & Hh & _) & _).
  exists mac', d1, a1, d', x, a', p. split; [done|]. split; [done|]. split; [done|]. apply Q.
Qed.

(** C25. Nothing is left behind: after any history of arrivals and polls, one poll during
    which nothing arrives delivers every frame that waits, so all that the card
    ever accepted has been delivered. *)
Theorem e1000_rx_drains n d x a p d1 x1 a1 :
  fifo d x a p -> up d <> 0 -> polls n (d, x, a) = Ok (d1, x1, a1) -> wire a1 = [] ->
  exists d2 a2, poll collect (d1, x1, a1) = Ok (d2, accepted a1, a2) /\ accepted a2 = accepted a1.
Proof.
  intros Hf Hu En Hw. destruct (polls_fifo n d x a p Hf Hu) as (d' & x' & a' & p' & E & Hf' & Hu').
  rewrite En in E. injection E as <- <- <-. unfold poll.
  replace (up d1 =? 0) with false by (symmetry; apply Z.eqb_neq; congruence).
  destruct (poll_loop_fifo (Z.to_nat N) d1 x1 a1 p' Hf') as (d2 & x2 & a2 & p2 & -> & (_ & Hh2 & _) & _ & _ & Hend).
  destruct Hf' as (Q & Hh & _). pose proof (q_room _ _ _ _ Q).
  destruct (Hend Hw) as [-> ->]; [unfold N in *; lia|]. unfold history in *. rewrite app_nil_r in Hh2.
  exists d2, a2. rewrite Hh2, Hh. done.
Qed.

(** ** Three frames *)

Module Bench.
Abbreviation f1 := (replicate 60 1).
Abbreviation f2 := (replicate 61 2).
Abbreviation f3 := (replicate 62 3).

(** The second and third frames arrive while the driver reads the first. *)
Definition start : adapter := mk_adapter 0 0 [[f1]; []; [f2; f3]] [] [].

Lemma start_fits : Forall (Forall frame_fits) (wire start).
Proof.
  assert (H : forall n b, 14 <= Z.of_nat n <= BUF -> is_byte b -> frame_fits (replicate n b)).
  { intros n b Hn Hb. split; [by apply bytes_ok_replicate|by rewrite length_replicate]. }
  cbn [wire start]. repeat first [apply List.Forall_nil | apply List.Forall_cons]; apply H; done.
Qed.

Lemma e1000_rx_fifo_witness :
  exists mac' d1 a1 d' x a' p,
    bring_up 0 0 0 1 0x80000000 (replicate 6 0) (E1000.Bench.idle 0) start = Some (1, mac', d1, a1) /\
    polls 2 (d1, [], a1) = Ok (d', x, a') /\ accepted a' = x ++ p /\ len p <= N - 1.
Proof.
  apply (e1000_rx_fifo 0 0 0 1 0x80000000 (replicate 6 0) (E1000.Bench.idle 0) start 2).
  - apply E1000.Bench.idle_ok.
  - done.
  - done.
  - discriminate.
  - apply start_fits.
  - done.
Defined.

(** The driver as [bring_up] leaves it, and the card programmed. *)
Abbreviation running := (E1000.Bench.idle 1).
Abbreviation ready := (mk_adapter 0 31 [[f1]; []; [f2; f3]] [] []).

Example delivered_in_order :
  match polls 2 (running, [], ready) with Ok (_, x, _) => Some x | _ => None end = Some [f1; f2; f3].
Proof. vm_compute. reflexivity. Qed.

Lemma running_fifo : fifo running [] ready [].
Proof.
  apply (started_fifo running start); try done; [apply E1000.Bench.idle_ok|by apply (Forall_replicate _ 32 rxd0)|apply start_fits].
Qed.

Lemma e1000_rx_drains_witness :
  exists d1 x1 a1, polls 1 (running, [], ready) = Ok (d1, x1, a1) /\
  exists d2 a2, poll collect (d1, x1, a1) = Ok (d2, accepted a1, a2) /\ accepted a2 = accepted a1.
Proof.
  destruct (polls_fifo 1 running [] ready [] running_fifo) as (d1 & x1 & a1 & p1 & E & _); [done|].
  exists d1, x1, a1. split; [exact E|]. apply (e1000_rx_drains 1 running [] ready []); [apply running_fifo|done|exact E|].
  assert (Hw : match polls 1 (running, [], ready) with Ok w => Some (wire w.2) | _ => None end = Some [])
    by (vm_compute; reflexivity).
  rewrite E in Hw. by injection Hw.
Defined.
End Bench.
