(* ===== verification/Pcnet.v ===== *)
(** * kernel/netdev_pcnet.c: AMD PCnet adapters

    Two rings of 8 descriptors whose top status bit says who owns the slot, an
    initialisation block read by the card, and control registers behind an
    address port. *)

From S2P Require Import Prelude NetEnv Cstr HttpSafe Pci NetHw.

Definition N : Z := 8.
Definition BUF : Z := 2048.

(** ** The state *)

Record Init := mk_ib {
  mode : Z; rlen : Z; tlen : Z; padr : list Z; ires : Z; ladrf : list Z; rdra : Z; tdra : Z
}.
Record Desc := mk_desc { daddr : Z; bcnt : Z; dstatus : Z; mcnt : Z; dres : Z }.

Record shared := mk_shared { ib : Init; rx : list Desc; txd : list Desc; rxb : list bytes; txb : list bytes }.
Record pcnet := mk_pcnet { base : Z; mem : shared; rxi : Z; txi : Z; up : Z }.

Definition set_mem (m : shared) (d : pcnet) : pcnet := mk_pcnet (base d) m (rxi d) (txi d) (up d).
Definition set_ib (i : Init) (d : pcnet) : pcnet :=
  set_mem (mk_shared i (rx (mem d)) (txd (mem d)) (rxb (mem d)) (txb (mem d))) d.
Definition set_rx (l : list Desc) (d : pcnet) : pcnet :=
  set_mem (mk_shared (ib (mem d)) l (txd (mem d)) (rxb (mem d)) (txb (mem d))) d.
Definition set_txd (l : list Desc) (d : pcnet) : pcnet :=
  set_mem (mk_shared (ib (mem d)) (rx (mem d)) l (rxb (mem d)) (txb (mem d))) d.
Definition set_txb (l : list bytes) (d : pcnet) : pcnet :=
  set_mem (mk_shared (ib (mem d)) (rx (mem d)) (txd (mem d)) (rxb (mem d)) l) d.
Definition set_rxi (i : Z) (d : pcnet) : pcnet := mk_pcnet (base d) (mem d) i (txi d) (up d).
Definition set_txi (i : Z) (d : pcnet) : pcnet := mk_pcnet (base d) (mem d) (rxi d) i (up d).
Definition set_base (b : Z) (d : pcnet) : pcnet := mk_pcnet b (mem d) (rxi d) (txi d) (up d).

(** [(int16_t)] *)
Definition s16 (v : Z) : Z := if u16 v <? 32768 then u16 v else u16 v - 65536.

(** [(int16_t)(0xf000u|((uint16_t)(-n)&0x0fffu))]: a length in two's complement
    with its four upper bits set. *)
Definition byte_count (n : Z) : Z := s16 (Z.lor 0xf000 (Z.land (u16 (- n)) 0x0fff)).

Section driver.
Context {E : Type} `{!PortIO E, !DeviceIO E, !Dma shared E}.
(** Where the linker puts the block, the rings and the buffers. *)
Context (ib_at rx_at txd_at rxb_at txb_at : Z).

Definition sync (d : pcnet) (e : E) : pcnet * E := let '(m, e) := dma (mem d) e in (set_mem m d, e).

Definition rap (r : Z) (d : pcnet) (e : E) : E := outw (u16 (base d + 0x12)) r e.
Definition csr_r (r : Z) (d : pcnet) (e : E) : Z * E := inw (u16 (base d + 0x10)) (rap r d e).
Definition csr_w (r v : Z) (d : pcnet) (e : E) : E := outw (u16 (base d + 0x10)) v (rap r d e).
Definition bcr_w (r v : Z) (d : pcnet) (e : E) : E := outw (u16 (base d + 0x16)) v (rap r d e).

(** ** Start-up *)

(** [for(int i=0;i<6;i++)mac[i]=inb(base+i)] *)
Fixpoint read_mac (k : nat) (i : Z) (mac : bytes) (d : pcnet) (e : E) : option (bytes * E) :=
  match k with
  | O => Some (mac, e)
  | S k' =>
      let '(v, e) := inb (u16 (base d + i)) e in
      mac ← wr mac i v; read_mac k' (i + 1) mac d e
  end.

Definition desc0 : Desc := mk_desc 0 0 0 0 0.

(** [ib.padr[k]=(uint16_t)(mac[2k]|((uint16_t)mac[2k+1]<<8))] *)
Definition pair_at (mac : bytes) (i : Z) : option Z :=
  a ← rd mac i; b ← rd mac (i + 1); Some (u16 (Z.lor a (Z.shiftl b 8))).

Definition init_block (mac : bytes) : option Init :=
  p0 ← pair_at mac 0; p1 ← pair_at mac 2; p2 ← pair_at mac 4;
  Some (mk_ib 0 (u8 (Z.shiftl 3 4)) (u8 (Z.shiftl 3 4)) [p0; p1; p2] 0 [0; 0; 0; 0] (u32 rx_at) (u32 txd_at)).

(** [for(unsigned i=0;i<N;i++)] *)
Fixpoint init_rings (k : nat) (i : Z) (d : pcnet) : option pcnet :=
  match k with
  | O => Some d
  | S k' =>
      r ← rd (rx (mem d)) i;
      l ← wr (rx (mem d)) i (mk_desc (u32 (rxb_at + i * BUF)) (byte_count BUF) 0x8000 0 (dres r));
      t ← rd (txd (mem d)) i;
      lt ← wr (txd (mem d)) i (mk_desc (daddr t) (bcnt t) 0 (mcnt t) (dres t));
      init_rings k' (i + 1) (set_txd lt (set_rx l d))
  end.

(** [for(unsigned i=0;i<1000000;i++){if(csr_r(0)&0x0100){ok=1;break;}}] *)
Fixpoint wait_idon (k : nat) (d : pcnet) (e : E) : Z * E :=
  match k with
  | O => (0, e)
  | S k' =>
      let '(v, e) := csr_r 0 d e in
      if negb (Z.land v 0x0100 =? 0) then (1, e) else wait_idon k' d e
  end.

(** [for(unsigned i=0;i<100000;i++){uint16_t s=csr_r(0);if((s&0x0030)==0x0030)break;}] *)
Fixpoint wait_running (k : nat) (d : pcnet) (e : E) : E :=
  match k with
  | O => e
  | S k' =>
      let '(v, e) := csr_r 0 d e in
      if Z.land v 0x0030 =? 0x0030 then e else wait_running k' d e
  end.

(** From [csr_w(1,...)] on. *)
Definition start (mac : bytes) (d : pcnet) (e : E) : Z * bytes * pcnet * E :=
  let ia := u32 ib_at in
  let e := csr_w 1 (u16 ia) d e in
  let e := csr_w 2 (u16 (Z.shiftr ia 16)) d e in
  let e := csr_w 0 0x0001 d e in
  let '(ok, e) := wait_idon (Z.to_nat 1000000) d e in
  if ok =? 0 then (0, mac, d, e)
  else
    let e := csr_w 0 0x0002 d e in
    let e := wait_running (Z.to_nat 100000) d e in
    (1, mac, mk_pcnet (base d) (mem d) 0 0 1, e).

Definition init (p : PciDevice) (mac : bytes) (d : pcnet) (e : E) : option (Z * bytes * pcnet * E) :=
  let '(ok, p, e) := pci_find 0x1022 0x2000 (Ptr p) e in
  if ok =? 0 then Some (0, mac, d, e)
  else
    let '(bar, e) := pci_bar32 p 0 e in
    if Z.land bar 1 =? 0 then Some (0, mac, d, e)
    else
      let d := set_base (u16 (Z.land bar (u32 (Z.lnot 3)))) d in
      let e := pci_enable p 0x0005 e in
      let '(_, e) := inw (u16 (base d + 0x14)) e in
      '(mac, e) ← read_mac 6 0 mac d e;
      let e := bcr_w 20 2 d e in
      i ← init_block mac;
      d ← init_rings (Z.to_nat N) 0
        (set_ib i (set_txd (replicate (Z.to_nat N) desc0) (set_rx (replicate (Z.to_nat N) desc0) d)));
      Some (start mac d e).

(** ** Sending *)

Definition tx (data : bytes) (n : Z) (d : pcnet) (e : E) : option (Z * pcnet * E) :=
  if (up d =? 0) || (n <? 14) || (1514 <? n) then Some (0, d, e)
  else
    let s := txi d in
    let '(d, e) := sync d e in
    t ← rd (txd (mem d)) s;
    if negb (Z.land (dstatus t) 0x8000 =? 0) then Some (0, d, e)
    else
      b ← rd (txb (mem d)) s;
      b ← cp b 0 data n;
      lb ← wr (txb (mem d)) s b;
      lt ← wr (txd (mem d)) s (mk_desc (u32 (txb_at + s * BUF)) (byte_count n) 0x8300 0 (dres t));
      let d := set_txi (u32 (s + 1) mod N) (set_txd lt (set_txb lb d)) in
      Some (1, d, csr_w 0 0x0008 d e).

(** ** Receiving *)

Section poll.
Context {X : Type} (cb : bytes -> pcnet * X * E -> res (pcnet * X * E)).

(** The slot the turn works on. *)
Definition slot (i : Z) (d : pcnet) : option Desc := rd (rx (mem d)) i.

(** [if(!(st&0x4000)&&(st&0x0300)==0x0300&&len>=18&&len<=BUF)cb(rxb[rxi],len-4);] *)
Definition hand_over (st n : Z) (w : pcnet * X * E) : res (pcnet * X * E) :=
  if (Z.land st 0x4000 =? 0) && (Z.land st 0x0300 =? 0x0300) && (18 <=? n) && (n <=? BUF) then
    let '(d, x, e) := w in
    let '(d, e) := sync d e in
    b ← ub (rd (rxb (mem d)) (rxi d));
    f ← ub (rd_bytes b 0 (n - 4));
    cb f (d, x, e)
  else Ok w.

(** [d->mcnt=0;d->status=0x8000;rxi=(rxi+1)%N;] with [d] the slot [i]. *)
Definition release (i : Z) (d : pcnet) : option pcnet :=
  r ← slot i d;
  l ← wr (rx (mem d)) i (mk_desc (daddr r) (bcnt r) 0x8000 0 (dres r));
  Some (set_rxi (u32 (rxi d + 1) mod N) (set_rx l d)).

(** [for(unsigned guard=0;guard<N;guard++)] *)
Fixpoint poll_loop (k : nat) (w : pcnet * X * E) : res (pcnet * X * E) :=
  match k with
  | O => Ok w
  | S k' =>
      let '(d, x, e) := w in
      let i := rxi d in
      let '(d, e) := sync d e in
      r ← ub (slot i d);
      if negb (Z.land (dstatus r) 0x8000 =? 0) then Ok (d, x, e)
      else
        let '(d, e) := sync d e in
        r ← ub (slot i d);
        let st := dstatus r in
        let '(d, e) := sync d e in
        r ← ub (slot i d);
        '(d, x, e) ← hand_over st (Z.land (mcnt r) 0x0fff) (d, x, e);
        d ← ub (release i d);
        poll_loop k' (d, x, e)
  end.

Definition poll (w : pcnet * X * E) : res (pcnet * X * E) :=
  let '(d, x, e) := w in
  if up d =? 0 then Ok w else poll_loop (Z.to_nat N) w.
End poll.
End driver.

(** ** Safety *)

(** The card reads a length of [n] bytes in the descriptor. *)
Lemma byte_count_spec n : 0 < n <= 2048 -> byte_count n = - n.
Proof.
  intros Hn.
  assert (H : ((n =? 0) || (byte_count n =? - n)) = true).
  { apply (below_spec 2049 (fun n => (n =? 0) || (byte_count n =? - n))); [vm_compute; reflexivity|lia]. }
  apply orb_true_iff in H as [H|H]; apply Z.eqb_eq in H; lia.
Qed.

Definition buffer_ok (b : bytes) : Prop := len b = BUF /\ bytes_ok b.
Definition shared_ok (m : shared) : Prop :=
  len (rx m) = N /\ len (txd m) = N /\ len (rxb m) = N /\ Forall buffer_ok (rxb m) /\
  len (txb m) = N /\ Forall buffer_ok (txb m).
Definition driver_ok (d : pcnet) : Prop := shared_ok (mem d) /\ 0 <= rxi d < N /\ 0 <= txi d < N.

Ltac fields :=
  unfold driver_ok, shared_ok, set_rxi, set_txi, set_ib, set_rx, set_txd, set_txb, set_base, set_mem in *;
  cbn [base mem rxi txi up ib rx txd rxb txb] in *.

Section safety.
Context {E : Type} `{!PortIO E, !DeviceIO E, !Dma shared E, !DmaShape shared E shared_ok}.
Context (ib_at rx_at txd_at rxb_at txb_at : Z).

Lemma pcnet_sync_ok d e : driver_ok d ->
  driver_ok (sync d e).1 /\ rxi (sync d e).1 = rxi d /\ txi (sync d e).1 = txi d /\
  up (sync d e).1 = up d /\ base (sync d e).1 = base d.
Proof.
  intros (Hm & Hi). unfold sync. pose proof (dma_shape (mem d) e Hm) as H.
  destruct (dma (mem d) e) as [m e']. cbn in *. by repeat (split; [done|]).
Qed.

(** The frame in the buffer of its slot, and a descriptor that gives it to the card
    as a whole frame. *)
Definition queued (s : Z) (f : bytes) (m : shared) : Prop :=
  (exists r, rd (txd m) s = Some (mk_desc (u32 (txb_at + s * BUF)) (- len f) 0x8300 0 r)) /\
  exists b, rd (txb m) s = Some b /\ slice b 0 (len f) = f.

(** Sending is memory safe; a slot the card still owns is refused, and a success
    leaves the frame and its descriptor, then the request to transmit. *)
Theorem pcnet_tx_correct data n d e :
  driver_ok d -> bytes_ok data -> n <= len data ->
  exists r d' e', tx txb_at data n d e = Some (r, d', e') /\ driver_ok d' /\ rxi d' = rxi d /\ up d' = up d /\
    if (up d =? 0) || (n <? 14) || (1514 <? n) then r = 0 /\ d' = d /\ e' = e
    else exists d1 e1 t,
      sync d e = (d1, e1) /\ rd (txd (mem d1)) (txi d) = Some t /\
      if Z.land (dstatus t) 0x8000 =? 0
      then r = 1 /\ queued (txi d) (slice data 0 n) (mem d') /\ txi d' = (txi d + 1) mod N /\
        e' = csr_w 0 0x0008 d e1
      else r = 0 /\ d' = d1 /\ e' = e1.
Proof.
  intros Hd Hb Hn. unfold tx. destruct (_ || _) eqn:Hg; [by do 3 eexists|]. bool_prop.
  destruct (pcnet_sync_ok d e Hd) as (Hd1 & Hr1 & Ht1 & Hu1 & Hb1).
  destruct (sync d e) as [d1 e1] eqn:Es. cbn [fst] in *.
  pose proof Hd as (_ & _ & Hti). pose proof Hd1 as ((Hl1 & Hl2 & Hl3 & Hf3 & Hl4 & Hf4) & Hri1 & Hti1).
  unfold N, BUF in *.
  destruct (rd_is_Some (txd (mem d1)) (txi d)) as [t Ht]; [lia|]. rewrite Ht. cbn [mbind option_bind].
  destruct (Z.land (dstatus t) 0x8000 =? 0) eqn:Eo; cbn [negb].
  2: { exists 0, d1, e1. repeat (split; [done|]). exists d1, e1, t. by rewrite Eo. }
  destruct (Forall_rd_lt (txb (mem d1)) buffer_ok (txi d) Hf4 ltac:(lia)) as (b0 & -> & Hb0 & Hbb).
  unfold BUF in Hb0. cbn [mbind option_bind]. rewrite cp_spec by lia. cbn [mbind option_bind].
  set (f := slice data 0 n). assert (Hf : len f = n) by (apply slice_0_length; lia).
  destruct (Forall_wr_lt (txb (mem d1)) buffer_ok (txi d) (blit b0 0 f) Hf4) as (lb & Elb & Hflb & Hllb); [|lia|].
  { split; [unfold BUF; rewrite blit_length; lia|]. apply bytes_ok_blit; [done|by apply bytes_ok_slice]. }
  rewrite Elb. cbn [mbind option_bind]. rewrite (wr_Some (txd (mem d1))) by lia. cbn [mbind option_bind].
  do 3 eexists. split; [reflexivity|]. fields. rewrite length_insert.
  unfold N. rewrite (u32_id (txi d + 1)) by lia.
  split; [split; [by repeat (split; [done || lia|])|split; [lia|apply Z.mod_pos_bound; lia]]|].
  split; [done|]. split; [done|]. exists d1, e1, t. split; [done|]. split; [done|]. rewrite Eo. split; [done|].
  split; [|split; [done|by unfold csr_w, rap; cbn [base]; rewrite Hb1]].
  split; cbn [txd txb mem].
  - exists (dres t). rewrite Hf, <- byte_count_spec by lia. apply (rd_wr_eq (txd (mem d1))), wr_Some. lia.
  - exists (blit b0 0 f). split; [by eapply rd_wr_eq|]. apply slice_blit. lia.
Qed.

Definition pcnet_callback_ok {X} (T : Prop) (J : X -> Prop) (cb : bytes -> pcnet * X * E -> res (pcnet * X * E)) : Prop :=
  forall f d x e, handed 14 (BUF - 4) f -> driver_ok d -> J x ->
    safe T (cb f (d, x, e)) (fun '(d', x', _) => driver_ok d' /\ J x').

Lemma pcnet_slot i d : driver_ok d -> 0 <= i < N -> is_Some (slot i d).
Proof. intros ((Hl & _) & _) Hi. apply rd_is_Some. lia. Qed.

Lemma pcnet_release_ok i d : driver_ok d -> 0 <= i < N -> returns (release i d) driver_ok.
Proof.
  intros Hd Hi. unfold release. destruct (pcnet_slot i d Hd Hi) as [r Hr]. rewrite Hr. cbn [mbind option_bind].
  destruct Hd as ((Hl1 & Hrest) & Hri & Ht). rewrite wr_Some by lia. cbn [mbind option_bind].
  eexists. split; [done|]. fields. rewrite length_insert. split; [by split|].
  split; [|done]. unfold N in *. apply next_slot; lia.
Qed.

Lemma pcnet_hand_over_ok {X} T (J : X -> Prop) cb st n d x e :
  pcnet_callback_ok T J cb -> driver_ok d -> J x ->
  safe T (hand_over cb st n (d, x, e)) (fun '(d', x', _) => driver_ok d' /\ J x').
Proof.
  intros Hcb Hd Hx. unfold hand_over. case_if; [|done].
  destruct (pcnet_sync_ok d e Hd) as (Hd1 & _). destruct (sync d e) as [d1 e1]. cbn [fst] in Hd1.
  pose proof Hd1 as ((_ & _ & Hl & Hf & _) & Hi & _).
  destruct (Forall_rd_lt (rxb (mem d1)) buffer_ok (rxi d1) Hf ltac:(lia)) as (b & -> & Hb & Hbb).
  cbn [ub mbind res_bind]. rewrite rd_bytes_Some by lia. cbn [ub mbind res_bind].
  apply Hcb; [|done|done]. split; [by apply bytes_ok_slice|]. rewrite slice_0_length; lia.
Qed.

Lemma pcnet_poll_loop_ok {X} T (J : X -> Prop) cb k d x e :
  pcnet_callback_ok T J cb -> driver_ok d -> J x ->
  safe T (poll_loop cb k (d, x, e)) (fun '(d', x', _) => driver_ok d' /\ J x').
Proof.
  intros Hcb. revert d x e. induction k as [|k IH]; intros d x e Hd Hx; cbn [poll_loop]; [done|].
  pose proof Hd as (_ & Hi & _). set (i := rxi d) in *.
  destruct (pcnet_sync_ok d e Hd) as (Hd1 & _). destruct (sync d e) as [d1 e1]. cbn [fst] in Hd1.
  destruct (pcnet_slot i d1 Hd1 Hi) as [r Hr]. rewrite Hr. cbn [ub mbind res_bind]. case_if; [done|].
  destruct (pcnet_sync_ok d1 e1 Hd1) as (Hd2 & _). destruct (sync d1 e1) as [d2 e2]. cbn [fst] in Hd2.
  destruct (pcnet_slot i d2 Hd2 Hi) as [r2 Hr2]. rewrite Hr2. cbn [ub mbind res_bind]. cbv zeta.
  destruct (pcnet_sync_ok d2 e2 Hd2) as (Hd3 & _). destruct (sync d2 e2) as [d3 e3]. cbn [fst] in Hd3.
  destruct (pcnet_slot i d3 Hd3 Hi) as [r3 Hr3]. rewrite Hr3. cbn [ub mbind res_bind].
  eapply safe_bind; [by apply (pcnet_hand_over_ok T J)|]. intros [[d4 x4] e4] [H4 H4'].
  eapply safe_bind; [by apply safe_ub, pcnet_release_ok|]. intros d5 H5. by apply IH.
Qed.

(** Receiving is memory safe and ends whatever the card writes in the descriptors;
    a frame handed on is without its checksum, from 14 to 2044 bytes of its buffer. *)
Theorem pcnet_poll_safe {X} T (J : X -> Prop) cb d x e :
  pcnet_callback_ok T J cb -> driver_ok d -> J x ->
  safe T (poll cb (d, x, e)) (fun '(d', x', _) => driver_ok d' /\ J x').
Proof.
  intros Hcb Hd Hx. unfold poll. case_if; [done|]. by apply pcnet_poll_loop_ok.
Qed.

(** ** Start-up *)

Lemma read_mac_ok k i mac d e : 0 <= i -> i + Z.of_nat k <= len mac ->
  returns (read_mac k i mac d e) (fun '(mac', _) => length mac' = length mac).
Proof.
  revert i mac e. induction k as [|k IH]; intros i mac e Hi Hk; cbn [read_mac]; [by eexists|].
  destruct (inb _ e) as [v e1]. rewrite wr_Some by lia. cbn [mbind option_bind].
  eapply returns_mono; [apply IH; rewrite ?length_insert; lia|]. intros [m' e']. by rewrite length_insert.
Qed.

Lemma init_block_ok mac : len mac = 6 -> is_Some (init_block rx_at txd_at mac).
Proof.
  intros Hm. unfold init_block, pair_at. rewrite !rd_byte_at by lia. by eexists.
Qed.

Lemma pcnet_init_rings_ok k i d :
  0 <= i -> i + Z.of_nat k <= N -> driver_ok d -> returns (init_rings rxb_at k i d) (fun d' => driver_ok d' /\ up d' = up d).
Proof.
  revert i d. induction k as [|k IH]; intros i d Hi Hk Hd; cbn [init_rings]; [by eexists|].
  pose proof Hd as ((Hl1 & Hl2 & Hrest) & Hri & Hti).
  destruct (rd_is_Some (rx (mem d)) i) as [r ->]; [lia|]. cbn [mbind option_bind].
  rewrite wr_Some by lia. cbn [mbind option_bind].
  destruct (rd_is_Some (txd (mem d)) i) as [t ->]; [lia|]. cbn [mbind option_bind].
  rewrite wr_Some by lia. cbn [mbind option_bind].
  eapply returns_mono; [apply IH; [lia|lia|]|done].
  fields. rewrite !length_insert. by repeat (split; [done|]).
Qed.

Definition init_post (r : Z * bytes * pcnet * E) : Prop :=
  let '(ok, mac', d', _) := r in
  driver_ok d' /\ len mac' = 6 /\
  ((ok = 0 /\ up d' = 0) \/ (ok = 1 /\ up d' = 1 /\ rxi d' = 0 /\ txi d' = 0)).

Lemma started_card_ok mac d e : driver_ok d -> up d = 0 -> len mac = 6 -> init_post (start ib_at mac d e).
Proof.
  intros Hd Hu Hm. unfold start. generalize (Z.to_nat 1000000) (Z.to_nat 100000). intros k1 k2. cbv zeta.
  destruct (wait_idon k1 _ _) as [ok e1]. case_if; (split; [|split; [done|]]); [done|by left| |by right].
  destruct Hd as (Hsh & _). by split.
Qed.

(** Start-up stays inside its arrays on every machine, ends even when the card never
    answers, and reports success exactly with the driver up. *)
Theorem pcnet_init_safe p mac d e :
  driver_ok d -> up d = 0 -> len mac = 6 ->
  returns (init ib_at rx_at txd_at rxb_at p mac d e) init_post.
Proof.
  intros Hd Hu Hm. unfold init. destruct (pci_find _ _ _ _) as [[ok p1] e1].
  assert (Hno : forall e', init_post (0, mac, d, e')) by (intros e'; split; [done|]; split; [done|by left]).
  case_if; [by eexists|]. destruct (pci_bar32 p1 0 e1) as [bar e2]. case_if; [by eexists|].
  cbv zeta. destruct (inw _ _) as [v e3].
  eapply returns_bind; [apply (read_mac_ok 6); lia|]. intros [mac1 e4] Hm1. cbv beta iota in Hm1.
  destruct (init_block_ok mac1) as [ib1 ->]; [lia|]. rewrite bind_some.
  eapply returns_bind; [apply pcnet_init_rings_ok; [lia|done|]|].
  { destruct Hd as ((_ & _ & Hrest) & Hri & Hti). fields. rewrite !length_replicate. by repeat (split; [done|]). }
  intros d2 [Hd2 Hu2]. eexists. split; [reflexivity|]. apply started_card_ok; [done|exact (eq_trans Hu2 Hu)|lia].
Qed.
End safety.

(** ** An idle card *)

Module Bench.
Definition log : Type := list (Z * Z).
#[export] Instance bench_dma : Dma shared log := {| dma m e := (m, e) |}.
#[export] Instance bench_io : DeviceIO log := {|
  outb p v e := (p, v) :: e; inb _ e := (0, e); outw p v e := (p, v) :: e; inw _ e := (0, e);
  mmio_read _ e := (0, e); mmio_write o v e := (o, v) :: e
|}.
#[export] Instance bench_ports : PortIO log := {| outl p v e := (p, v) :: e; inl _ e := (0xffffffff, e) |}.
#[export] Instance bench_shape : DmaShape shared log shared_ok.
Proof. split. intros m e H. exact H. Qed.

Definition buffers : list bytes := replicate 8 (replicate (Z.to_nat BUF) 0).
Definition block : Init := mk_ib 0 0 0 [] 0 [] 0 0.
Definition idle (up : Z) : pcnet :=
  mk_pcnet 0 (mk_shared block (replicate 8 desc0) (replicate 8 desc0) buffers buffers) 7 7 up.

Lemma idle_card_ok u : driver_ok (idle u).
Proof.
  assert (Forall buffer_ok buffers) by (apply Forall_replicate; split; [done|by apply bytes_ok_replicate]).
  split; [|done]. by repeat (split; [done|]).
Qed.

Abbreviation frame := (replicate 60 7).

Lemma pcnet_tx_correct_witness :
  exists r d' e', tx 0x1000 frame 60 (idle 1) [] = Some (r, d', e') /\ driver_ok d' /\ rxi d' = 7 /\ up d' = 1 /\
    if (up (idle 1) =? 0) || (60 <? 14) || (1514 <? 60) then r = 0 /\ d' = idle 1 /\ e' = []
    else exists d1 e1 t,
      sync (idle 1) [] = (d1, e1) /\ rd (txd (mem d1)) 7 = Some t /\
      if Z.land (dstatus t) 0x8000 =? 0
      then r = 1 /\ queued 0x1000 7 (slice frame 0 60) (mem d') /\ txi d' = (7 + 1) mod N /\
        e' = csr_w 0 0x0008 (idle 1) e1
      else r = 0 /\ d' = d1 /\ e' = e1.
Proof.
  apply (pcnet_tx_correct 0x1000 frame 60 (idle 1) ([] : log)).
  - apply idle_card_ok.
  - by apply bytes_ok_replicate.
  - discriminate.
Defined.

(** A ring whose slots all hold a frame is drained in one poll. *)
Example eight_frames :
  match poll (fun f '(d, x, e) => Ok (d, x ++ [len f], e))
          (set_rx (replicate 8 (mk_desc 0 0 0x0300 64 0)) (idle 1), [], [] : log) with
  | Ok (d, x, _) => Some (rxi d, x)
  | _ => None
  end = Some (7, replicate 8 60).
Proof. vm_compute. reflexivity. Qed.

Lemma pcnet_poll_safe_witness :
  safe False (poll (fun _ '(d, x, e) => Ok (d, x + 1, e)) (idle 1, 0, [] : log))
    (fun '(d', x', _) => driver_ok d' /\ 0 <= x').
Proof.
  apply (pcnet_poll_safe False (fun x => 0 <= x)).
  - intros f d x e _ Hd Hx. split; [done|lia].
  - apply idle_card_ok.
  - done.
Defined.
End Bench.
