(* ===== verification/Rtl8139.v ===== *)
(** * kernel/netdev_rtl8139.c: Realtek adapters

    Received packets lie one behind the other in one buffer, each with a header of
    status and length; sending alternates between four buffers. *)

From S2P Require Import Prelude NetEnv Cstr HttpSafe Pci NetHw.

Definition RXBUF_SIZE : Z := 8192 + 16 + 1500.

(** What the adapter writes, and what the driver has. *)
Record rtl8139 := mk_rtl { base : Z; cur : Z; txcur : Z; up : Z; rxbuf : bytes; txbuf : list bytes }.

Definition set_rxbuf (b : bytes) (d : rtl8139) : rtl8139 := mk_rtl (base d) (cur d) (txcur d) (up d) b (txbuf d).
Definition set_txbuf (l : list bytes) (d : rtl8139) : rtl8139 := mk_rtl (base d) (cur d) (txcur d) (up d) (rxbuf d) l.
Definition set_cur (v : Z) (d : rtl8139) : rtl8139 := mk_rtl (base d) v (txcur d) (up d) (rxbuf d) (txbuf d).
Definition set_txcur (v : Z) (d : rtl8139) : rtl8139 := mk_rtl (base d) (cur d) v (up d) (rxbuf d) (txbuf d).
Definition set_base (v : Z) (d : rtl8139) : rtl8139 := mk_rtl v (cur d) (txcur d) (up d) (rxbuf d) (txbuf d).

Section driver.
Context {E : Type} `{!PortIO E, !DeviceIO E, !Dma bytes E}.
(** Where the linker puts the two arrays. *)
Context (rxbuf_at txbuf_at : Z).

Definition sync (d : rtl8139) (e : E) : rtl8139 * E := let '(m, e) := dma (rxbuf d) e in (set_rxbuf m d, e).
Definition port (d : rtl8139) (o : Z) : Z := u16 (base d + o).

(** [for(unsigned i=0;i<1000000&&(inb(base+0x37)&0x10);i++)] *)
Fixpoint wait_reset (k : nat) (d : rtl8139) (e : E) : E :=
  match k with
  | O => e
  | S k' =>
      let '(v, e) := inb (port d 0x37) e in
      if Z.land v 0x10 =? 0 then e else wait_reset k' d e
  end.

Fixpoint read_mac (k : nat) (i : Z) (mac : bytes) (d : rtl8139) (e : E) : option (bytes * E) :=
  match k with
  | O => Some (mac, e)
  | S k' =>
      let '(v, e) := inb (port d i) e in
      mac ← wr mac i v; read_mac k' (i + 1) mac d e
  end.

Definition init (p : PciDevice) (mac : bytes) (d : rtl8139) (e : E) : option (Z * bytes * rtl8139 * E) :=
  let '(ok, p, e) := pci_find 0x10ec 0x8139 (Ptr p) e in
  if ok =? 0 then Some (0, mac, d, e)
  else
    let '(bar, e) := pci_bar32 p 0 e in
    if Z.land bar 1 =? 0 then Some (0, mac, d, e)
    else
      let d := set_base (u16 (Z.land bar (u32 (Z.lnot 3)))) d in
      let e := pci_enable p 0x0005 e in
      let e := outb (port d 0x37) 0x10 e in
      let e := wait_reset (Z.to_nat 1000000) d e in
      '(mac, e) ← read_mac 6 0 mac d e;
      m ← fill (Z.to_nat RXBUF_SIZE) (rxbuf d) 0 0;
      let d := set_rxbuf m d in
      let e := outl (port d 0x30) (u32 rxbuf_at) e in
      let e := outw (port d 0x3c) 0 e in
      let e := outl (port d 0x44) 0x8a e in
      let e := outl (port d 0x40) 0x03000000 e in
      let e := outb (port d 0x37) 0x0c e in
      Some (1, mac, mk_rtl (base d) 0 0 1 (rxbuf d) (txbuf d), e).

(** [txcur++&3]; the increment overflows an [int] after 2147483647 sends. *)
Definition next_tx (d : rtl8139) : option (Z * rtl8139) :=
  if txcur d =? 2147483647 then None else Some (Z.land (txcur d) 3, set_txcur (txcur d + 1) d).

Definition tx (data : bytes) (n : Z) (d : rtl8139) (e : E) : option (Z * rtl8139 * E) :=
  if (up d =? 0) || (n <? 14) || (1792 <? n) then Some (0, d, e)
  else
    '(s, d) ← next_tx d;
    b ← rd (txbuf d) s;
    b ← cp b 0 data n;
    l ← wr (txbuf d) s b;
    let d := set_txbuf l d in
    let e := outl (u16 (base d + 0x20 + s * 4)) (u32 (txbuf_at + s * 2048)) e in
    let e := outl (u16 (base d + 0x10 + s * 4)) (u32 n) e in
    Some (1, d, e).

(** [*(volatile uint16_t* )(rxbuf+o)] *)
Definition load16 (o : Z) (d : rtl8139) (e : E) : option (Z * rtl8139 * E) :=
  let '(d, e) := sync d e in v ← load_le 2 (rxbuf d) o; Some (v, d, e).

(** [for(size_t i=0;i<n;i++)pkt[i]=rxbuf[(off+4+i)%8192];]; [k] bytes remain. *)
Fixpoint copy_packet (k : nat) (pkt : bytes) (i : Z) (off : Z) (d : rtl8139) (e : E) : option (bytes * rtl8139 * E) :=
  match k with
  | O => Some (pkt, d, e)
  | S k' =>
      let '(d, e) := sync d e in
      v ← rd (rxbuf d) ((off + 4 + i) mod 8192);
      pkt ← wr pkt i v;
      copy_packet k' pkt (i + 1) off d e
  end.

(** [cur=(uint16_t)((cur+len+4+3)&~3u)] *)
Definition advance (c n : Z) : Z := u16 (Z.land (c + n + 4 + 3) (u32 (Z.lnot 3))).

Section poll.
Context {X : Type} (cb : bytes -> rtl8139 * X * E -> res (rtl8139 * X * E)).
(** The uninitialised local packet. *)
Context (stack : Z -> bytes).

(** [while(guard--&&!(inb(base+0x37)&1))] *)
Fixpoint poll_loop (k : nat) (w : rtl8139 * X * E) : res (rtl8139 * X * E) :=
  match k with
  | O => Ok w
  | S k' =>
      let '(d, x, e) := w in
      let '(v, e) := inb (port d 0x37) e in
      if negb (Z.land v 1 =? 0) then Ok (d, x, e)
      else
        let off := u16 (cur d mod 8192) in
        '(st, d, e) ← ub (load16 off d e);
        '(n, d, e) ← ub (load16 (off + 2) d e);
        if (Z.land st 1 =? 0) || (n <? 4) || (1600 <? n) then
          let d := set_cur 0 d in Ok (d, x, outw (port d 0x38) 0xfff0 e)
        else
          '(pkt, d, e) ← ub (copy_packet (Z.to_nat (n - 4)) (stack 1600) 0 off d e);
          f ← ub (rd_bytes pkt 0 (n - 4));
          '(d, x, e) ← cb f (d, x, e);
          let d := set_cur (advance (cur d) n) d in
          poll_loop k' (d, x, outw (port d 0x38) (u16 (cur d - 16)) e)
  end.

Definition poll (w : rtl8139 * X * E) : res (rtl8139 * X * E) :=
  let '(d, x, e) := w in
  if up d =? 0 then Ok w else poll_loop 32 w.
End poll.
End driver.

(** ** Safety *)

Definition buffer_ok (b : bytes) : Prop := len b = 2048.
Definition rxbuf_ok (b : bytes) : Prop := len b = RXBUF_SIZE /\ bytes_ok b.
Definition driver_ok (d : rtl8139) : Prop :=
  rxbuf_ok (rxbuf d) /\ len (txbuf d) = 4 /\ Forall buffer_ok (txbuf d) /\ 0 <= txcur d <= 2147483647.

Section safety.
Context {E : Type} `{!PortIO E, !DeviceIO E, !Dma bytes E, !DmaShape bytes E rxbuf_ok}.
Context (rxbuf_at txbuf_at : Z).

Lemma rtl_sync_ok d e : driver_ok d ->
  driver_ok (sync d e).1 /\ cur (sync d e).1 = cur d /\ up (sync d e).1 = up d.
Proof.
  intros (Hm & Hi). unfold sync. pose proof (dma_shape (rxbuf d) e Hm) as H.
  destruct (dma (rxbuf d) e) as [m e']. cbn in *. split; [by split|by split].
Qed.

(** Sending is memory safe up to the 2147483647th frame: every frame from 14 to
    1792 bytes goes into one of the four buffers, in turn, and its length into the
    command register of that buffer. *)
Theorem rtl8139_tx_correct data n d e :
  driver_ok d -> n <= len data -> txcur d < 2147483647 ->
  exists r d' e', tx txbuf_at data n d e = Some (r, d', e') /\ driver_ok d' /\
    if (up d =? 0) || (n <? 14) || (1792 <? n) then r = 0 /\ d' = d /\ e' = e
    else r = 1 /\ txcur d' = txcur d + 1 /\ exists b, rd (txbuf d') (txcur d mod 4) = Some b /\
      slice b 0 n = slice data 0 n /\
      e' = outl (u16 (base d + 0x10 + txcur d mod 4 * 4)) n
             (outl (u16 (base d + 0x20 + txcur d mod 4 * 4)) (u32 (txbuf_at + txcur d mod 4 * 2048)) e).
Proof.
  intros (Hrx & Hl & Hf & Ht) Hn Hlim. unfold tx. destruct (_ || _) eqn:Hg; [by do 3 eexists|]. bool_prop.
  unfold next_tx. if_false. cbn [mbind option_bind].
  assert (Hs : Z.land (txcur d) 3 = txcur d mod 4) by (change 3 with (Z.ones 2); apply Z.land_ones; lia).
  rewrite Hs. set (s := txcur d mod 4). assert (Hs4 : 0 <= s < 4) by (apply Z.mod_pos_bound; lia).
  cbn [set_txcur txbuf]. destruct (Forall_rd_lt (txbuf d) buffer_ok s Hf ltac:(lia)) as (b & -> & Hb).
  unfold buffer_ok in Hb. cbn [mbind option_bind]. rewrite cp_spec by lia. cbn [mbind option_bind].
  set (f := slice data 0 n). assert (Hfl : len f = n) by (apply slice_0_length; lia).
  destruct (Forall_wr_lt (txbuf d) buffer_ok s (blit b 0 f) Hf) as (l & El & Hfl2 & Hll); [|lia|].
  { unfold buffer_ok. rewrite blit_length; lia. }
  rewrite El. cbn [mbind option_bind]. do 3 eexists. split; [reflexivity|].
  unfold driver_ok. cbn [set_txbuf set_txcur rxbuf txbuf txcur base].
  split; [split; [done|]; split; [lia|]; split; [done|lia]|]. split; [done|]. split; [done|].
  exists (blit b 0 f). split; [by eapply rd_wr_eq|]. split.
  - rewrite <- Hfl at 1. apply slice_blit. lia.
  - by rewrite (u32_id n) by lia.
Qed.

Definition rtl_callback_ok {X} (T : Prop) (J : X -> Prop) (cb : bytes -> rtl8139 * X * E -> res (rtl8139 * X * E)) : Prop :=
  forall f d x e, handed 0 1596 f -> driver_ok d -> J x ->
    safe T (cb f (d, x, e)) (fun '(d', x', _) => driver_ok d' /\ J x').

Lemma load16_ok o d e : driver_ok d -> 0 <= o -> o + 2 <= RXBUF_SIZE ->
  returns (load16 o d e) (fun '(v, d', _) => driver_ok d' /\ cur d' = cur d /\ 0 <= v < 65536).
Proof.
  intros Hd Ho Hl. unfold load16. destruct (rtl_sync_ok d e Hd) as (Hd1 & Hc1 & _).
  destruct (sync d e) as [d1 e1]. cbn [fst] in *. pose proof Hd1 as ((Hlen & Hb) & _).
  destruct (load_le_is_Some 2 (rxbuf d1) o) as [v Hv]; [lia|lia|]. rewrite Hv. cbn [mbind option_bind].
  eexists. split; [done|]. split; [done|]. split; [done|]. by apply load_le_range in Hv.
Qed.

Lemma copy_packet_ok k pkt i off d e :
  driver_ok d -> bytes_ok pkt -> 0 <= i -> i + Z.of_nat k <= len pkt ->
  returns (copy_packet k pkt i off d e) (fun '(pkt', d', _) =>
    driver_ok d' /\ cur d' = cur d /\ bytes_ok pkt' /\ length pkt' = length pkt).
Proof.
  revert pkt i d e. induction k as [|k IH]; intros pkt i d e Hd Hp Hi Hk; cbn [copy_packet]; [by eexists|].
  destruct (rtl_sync_ok d e Hd) as (Hd1 & Hc1 & _). destruct (sync d e) as [d1 e1]. cbn [fst] in *.
  pose proof Hd1 as ((Hlen & Hb) & _). unfold RXBUF_SIZE in Hlen.
  pose proof (Z.mod_pos_bound (off + 4 + i) 8192 ltac:(lia)).
  destruct (rd_is_Some (rxbuf d1) ((off + 4 + i) mod 8192)) as [v Hv]; [lia|]. rewrite Hv.
  cbn [mbind option_bind]. rewrite wr_Some by lia. cbn [mbind option_bind].
  eapply returns_mono; [apply IH; [done| |lia|rewrite length_insert; lia]|].
  - apply Forall_insert; [done|by eapply bytes_ok_rd].
  - intros [[p' d'] e'] (H1 & H2 & H3 & H4). rewrite length_insert in H4. by rewrite <- Hc1.
Qed.

Lemma set_cur_ok v d : driver_ok d -> driver_ok (set_cur v d).
Proof. done. Qed.

(** Receiving is memory safe and ends after at most 32 packets, whatever headers
    the adapter writes and however they change; the frames handed on have at most
    1596 bytes, but no least length. *)
Theorem rtl8139_poll_safe {X} T (J : X -> Prop) cb stack d x e :
  rtl_callback_ok T J cb -> (len (stack 1600) = 1600 /\ bytes_ok (stack 1600)) -> driver_ok d -> J x ->
  safe T (poll cb stack (d, x, e)) (fun '(d', x', _) => driver_ok d' /\ J x').
Proof.
  intros Hcb [Hst Hsb] Hd Hx. unfold poll. case_if; [done|]. clear E0.
  generalize 32%nat. intros k. revert d x e Hd Hx.
  induction k as [|k IH]; intros d x e Hd Hx; cbn [poll_loop]; [done|].
  destruct (inb _ e) as [v e1]. case_if; [done|].
  assert (Ho : 0 <= cur d mod 8192 < 8192) by (apply Z.mod_pos_bound; lia).
  rewrite (u16_id (cur d mod 8192)) by lia. cbv zeta. set (off := cur d mod 8192) in *.
  eapply safe_bind; [apply safe_ub, load16_ok; unfold RXBUF_SIZE; (done || lia)|]. intros [[st d1] e2] (Hd1 & _ & _).
  eapply safe_bind; [apply safe_ub, load16_ok; unfold RXBUF_SIZE; (done || lia)|]. intros [[n d2] e3] (Hd2 & _ & Hn).
  case_if; [by split; [apply set_cur_ok|]|].
  eapply safe_bind; [apply safe_ub, copy_packet_ok; [done|done|lia|lia]|].
  intros [[pkt d3] e4] (Hd3 & _ & Hp & Hpl). rewrite rd_bytes_Some by lia. cbn [ub mbind res_bind].
  eapply safe_bind; [apply Hcb; [|done|done]|].
  { split; [by apply bytes_ok_slice|]. rewrite slice_0_length; lia. }
  intros [[d4 x4] e5] [Hd4 Hx4]. by apply IH; [apply set_cur_ok|].
Qed.

(** ** Start-up *)

Lemma rtl_read_mac_ok k i mac d e : 0 <= i -> i + Z.of_nat k <= len mac ->
  returns (read_mac k i mac d e) (fun '(mac', _) => length mac' = length mac).
Proof.
  revert i mac e. induction k as [|k IH]; intros i mac e Hi Hk; cbn [read_mac]; [by eexists|].
  destruct (inb _ e) as [v e1]. rewrite wr_Some by lia. cbn [mbind option_bind].
  eapply returns_mono; [apply IH; rewrite ?length_insert; lia|]. intros [m' e']. by rewrite length_insert.
Qed.

(** Start-up stays inside its arrays on every machine and ends even when the reset
    does not; a success leaves an empty, cleared receive buffer. *)
Theorem rtl8139_init_safe p mac d e :
  driver_ok d -> len mac = 6 ->
  returns (init rxbuf_at p mac d e) (fun '(ok, mac', d', _) =>
    driver_ok d' /\ len mac' = 6 /\
    ((ok = 0 /\ up d' = up d) \/
     (ok = 1 /\ up d' = 1 /\ cur d' = 0 /\ txcur d' = 0 /\ rxbuf d' = replicate (Z.to_nat RXBUF_SIZE) 0))).
Proof.
  intros Hd Hm. unfold init. destruct (pci_find _ _ _ _) as [[ok p1] e1].
  case_if; [eexists; split; [done|]; split; [done|]; split; [done|by left]|].
  destruct (pci_bar32 p1 0 e1) as [bar e2].
  case_if; [eexists; split; [done|]; split; [done|]; split; [done|by left]|]. cbv zeta.
  eapply returns_bind; [apply (rtl_read_mac_ok 6); lia|]. intros [mac1 e4] Hm1. cbv beta iota in Hm1.
  destruct Hd as ((Hl & Hb) & Hl2 & Hf2 & Ht). cbn [rxbuf set_base].
  rewrite fill_spec by (unfold RXBUF_SIZE in *; lia). rewrite bind_some.
  assert (Hz : blit (rxbuf d) 0 (replicate (Z.to_nat RXBUF_SIZE) 0) = replicate (Z.to_nat RXBUF_SIZE) 0).
  { rewrite blit_0, drop_ge by (rewrite length_replicate; lia). by rewrite app_nil_r. }
  rewrite Hz. eexists. split; [reflexivity|]. unfold driver_ok, rxbuf_ok. cbn [base set_rxbuf rxbuf txbuf txcur cur up].
  split; [|split; [lia|right; repeat (split; [reflexivity|]); reflexivity]]. rewrite length_replicate.
  split; [|split; [exact Hl2|split; [exact Hf2|lia]]].
  split; [apply Z2Nat.id; discriminate|]. apply bytes_ok_replicate. split; [discriminate|reflexivity].
Qed.
End safety.

(** ** A packet in the ring *)

(** The packet with header [st] and [n] at offset [off], laid out modulo 8192. *)
Definition packet_at (m : bytes) (off st n : Z) (f : bytes) : Prop :=
  load_le 2 m off = Some st /\ load_le 2 m (off + 2) = Some n /\
  forall i, 0 <= i < len f -> byte_at m ((off + 4 + i) mod 8192) = byte_at f i.

Section packet.
Context {E : Type} `{!PortIO E, !DeviceIO E, !Dma bytes E}.
(** The adapter leaves the packet alone while it is read. *)
Hypothesis quiet : forall (m : bytes) (e : E), dma m e = (m, e).

Lemma quiet_sync d e : sync d e = (d, e).
Proof. unfold sync. rewrite quiet. by destruct d. Qed.

Lemma copy_packet_exact k pkt i off d e :
  driver_ok d -> 0 <= i -> i + Z.of_nat k <= len pkt ->
  copy_packet k pkt i off d e
  = Some (blit pkt i (map (fun j => byte_at (rxbuf d) ((off + 4 + i + Z.of_nat j) mod 8192)) (seq 0 k)), d, e).
Proof.
  intros Hd. pose proof Hd as ((Hlen & _) & _). unfold RXBUF_SIZE in Hlen.
  revert pkt i. induction k as [|k IH]; intros pkt i Hi Hk; cbn [copy_packet seq map]; [by rewrite blit_nil|].
  rewrite quiet_sync. pose proof (Z.mod_pos_bound (off + 4 + i) 8192 ltac:(lia)).
  rewrite rd_byte_at by lia. cbn [mbind option_bind]. rewrite wr_Some by lia. cbn [mbind option_bind].
  rewrite IH by (rewrite ?length_insert; lia). rewrite blit_cons by lia. rewrite Z.add_0_r.
  do 4 f_equal. rewrite <- seq_shift, map_map. apply map_ext. intros j. do 2 f_equal. lia.
Qed.

Lemma advance_spec c n : 0 <= c < 65536 -> 0 <= n <= 1600 -> advance c n = (c + n + 7) / 4 * 4 mod 65536.
Proof.
  intros Hc Hn. unfold advance, u16. f_equal. replace (c + n + 4 + 3) with (c + n + 7) by lia.
  change (u32 (Z.lnot 3)) with (Z.lxor (Z.ones 32) 3). set (v := c + n + 7).
  replace (Z.land v (Z.lxor (Z.ones 32) 3)) with (Z.ldiff v (Z.ones 2)).
  - rewrite Z.ldiff_ones_r, Z.shiftl_mul_pow2, Z.shiftr_div_pow2 by lia. done.
  - apply Z.bits_inj'. intros i Hi. rewrite Z.ldiff_spec, Z.land_spec, Z.lxor_spec.
    change 3 with (Z.ones 2). rewrite !Z.testbit_ones_nonneg by lia.
    destruct (Z.ltb_spec i 32); [by destruct (i <? 2)|].
    replace (Z.testbit v i) with false; [done|]. symmetry. apply Z.bits_above_log2; [lia|].
    apply Z.log2_lt_pow2; [lia|]. assert (2 ^ 32 <= 2 ^ i) by (apply Z.pow_le_mono_r; lia). lia.
Qed.

(** The driver hands on exactly the packet at its position, one that continues at
    the start of the ring included, and moves behind it to the next multiple of
    four. *)
Theorem rtl8139_packet {X} cb stack k d (x : X) e v e1 st n f :
  driver_ok d -> 0 <= cur d < 65536 -> len (stack 1600) = 1600 ->
  inb (port d 0x37) e = (v, e1) -> Z.land v 1 = 0 ->
  packet_at (rxbuf d) (cur d mod 8192) st n f -> Z.land st 1 <> 0 -> n = len f + 4 -> len f <= 1596 ->
  poll_loop cb stack (S k) (d, x, e)
  = ('(d', x', e') ← cb f (d, x, e1);
     let d' := set_cur (advance (cur d') n) d' in
     poll_loop cb stack k (d', x', outw (port d' 0x38) (u16 (cur d' - 16)) e')).
Proof.
  intros Hd Hc Hst Hv Hv1 (Hs & Hn & Hf) Hst1 Hnf Hfl. cbn [poll_loop]. rewrite Hv, Hv1.
  change (negb (0 =? 0)) with false. cbv iota. assert (Ho : 0 <= cur d mod 8192 < 8192) by (apply Z.mod_pos_bound; lia).
  rewrite (u16_id (cur d mod 8192)) by lia. cbv zeta. unfold load16. rewrite !quiet_sync, Hs. cbn [ub mbind option_bind res_bind].
  rewrite !quiet_sync, Hn. cbn [ub mbind option_bind res_bind].
  replace ((Z.land st 1 =? 0) || (n <? 4) || (1600 <? n)) with false.
  2: { symmetry. rewrite !orb_false_iff, Z.eqb_neq, !Z.ltb_ge. split; [split; [done|lia]|lia]. }
  rewrite copy_packet_exact by (done || lia). cbn [ub mbind option_bind res_bind].
  set (l := map _ _). assert (Hl : l = f).
  { apply list_eq. intros i. unfold l. change (map ?g ?s) with (g <$> s). rewrite list_lookup_fmap.
    destruct (decide (i < length f)%nat) as [Hi|Hi].
    - rewrite lookup_seq_lt by lia. cbn [fmap option_fmap option_map].
      destruct (lookup_lt_is_Some_2 f i Hi) as [c Hci]. rewrite Hci. f_equal.
      rewrite Nat.add_0_l, Z.add_0_r, Hf by lia. unfold byte_at. by rewrite rd_nat, Hci.
    - rewrite !lookup_ge_None_2; [done|lia|rewrite length_seq; lia]. }
  rewrite Hl, rd_bytes_Some by (rewrite ?blit_length; lia). cbn [ub mbind option_bind res_bind].
  replace (n - 4) with (len f) by lia. by rewrite slice_blit by lia.
Qed.
End packet.

(** ** A card on the bench *)

Module Bench.
Definition log : Type := list (Z * Z).
#[export] Instance bench_dma : Dma bytes log := {| dma m e := (m, e) |}.
#[export] Instance bench_io : DeviceIO log := {|
  outb p v e := (p, v) :: e; inb _ e := (0, e); outw p v e := (p, v) :: e; inw _ e := (0, e);
  mmio_read _ e := (0, e); mmio_write o v e := (o, v) :: e
|}.
#[export] Instance bench_ports : PortIO log := {| outl p v e := (p, v) :: e; inl _ e := (0xffffffff, e) |}.
#[export] Instance bench_shape : DmaShape bytes log rxbuf_ok.
Proof. split. intros m e H. exact H. Qed.

Definition stack (n : Z) : bytes := replicate (Z.to_nat n) 0.

(** A packet of 64 bytes and its checksum, 8 bytes before the end of the ring. *)
Abbreviation frame := (replicate 64 7 ++ [1; 2; 3; 4]).
Abbreviation header := [1; 0; 72; 0].

(** As the driver reads it: the rest at the start of the ring. *)
Definition ring_layout : bytes :=
  blit (blit (replicate (Z.to_nat RXBUF_SIZE) 0) 8184 (header ++ take 4 frame)) 0 (drop 4 frame).
(** As a card writes it whose receive configuration has the WRAP bit (0x80), which
    the value 0x8a of [init] sets: straight on, into the space behind the ring. *)
Definition wrap_layout : bytes := blit (replicate (Z.to_nat RXBUF_SIZE) 0) 8184 (header ++ frame).

Definition at_end (m : bytes) : rtl8139 := mk_rtl 0 8184 0 1 m (replicate 4 (replicate 2048 0)).
Definition first_frame (m : bytes) : option (list bytes) :=
  match poll_loop (fun f '(d, x, e) => Ok (d, x ++ [f], e)) stack 1 (at_end m, [], [] : log) with
  | Ok (_, x, _) => Some x
  | _ => None
  end.

Example modulo_packet : first_frame ring_layout = Some [frame].
Proof. vm_compute. reflexivity. Qed.
Example wrap_mode_packet_garbled : first_frame wrap_layout = Some [take 4 frame ++ replicate 64 0].
Proof. vm_compute. reflexivity. Qed.

Lemma at_end_ok m : rxbuf_ok m -> driver_ok (at_end m).
Proof.
  intros Hm. split; [done|]. split; [done|]. split; [by apply Forall_replicate|]. cbn [at_end txcur]. lia.
Qed.

Lemma ring_layout_ok : rxbuf_ok ring_layout.
Proof. split; [vm_compute; reflexivity|]. apply bytes_okb_spec. vm_compute. reflexivity. Qed.

Lemma rtl8139_packet_witness :
  poll_loop (fun f '(d, x, e) => Ok (d, x ++ [f], e)) stack 1 (at_end ring_layout, [], [] : log)
  = Ok (set_cur 8260 (at_end ring_layout), [frame], [(0x38, 8244)]).
Proof.
  rewrite (rtl8139_packet (Dma0 := bench_dma) (fun _ _ => eq_refl) _ stack 0 (at_end ring_layout) [] [] 0 [] 1 72 frame).
  - reflexivity.
  - apply at_end_ok, ring_layout_ok.
  - split; [discriminate|reflexivity].
  - reflexivity.
  - reflexivity.
  - reflexivity.
  - split; [vm_compute; reflexivity|]. split; [vm_compute; reflexivity|]. intros i Hi.
    assert (Hc : forallb (fun i => byte_at ring_layout ((8184 + 4 + i) mod 8192) =? byte_at frame i) (below 68) = true)
      by (vm_compute; reflexivity).
    apply Z.eqb_eq. apply (below_spec 68 _ Hc). exact Hi.
  - discriminate.
  - reflexivity.
  - discriminate.
Defined.

Lemma rtl8139_poll_safe_witness :
  safe False (poll (fun _ '(d, x, e) => Ok (d, x + 1, e)) stack (at_end ring_layout, 0, [] : log))
    (fun '(d', x', _) => driver_ok d' /\ 0 <= x').
Proof.
  apply (rtl8139_poll_safe False (fun x => 0 <= x)).
  - intros f d x e _ Hd Hx. split; [done|lia].
  - split; [reflexivity|by apply bytes_ok_replicate].
  - apply at_end_ok, ring_layout_ok.
  - done.
Defined.
End Bench.
