(* ===== verification/Virtio.v ===== *)
(** * kernel/netdev_virtio.c: paravirtualised adapters

    Two legacy virtqueues, each a page-aligned array of 16384 bytes with the
    descriptors, the available ring and, on the next page boundary, the used ring.
    The receive loop runs as long as the host moves its index on, so it carries
    fuel. *)

From S2P Require Import Prelude NetEnv Cstr HttpSafe Pci NetHw.

Definition QMAX : Z := 256.
Definition PAGE : Z := 4096.
Definition RINGSZ : Z := 16384.
Definition BUF : Z := 2048.
Definition VIRTIO_F_MAC : Z := Z.shiftl 1 5.

Record shared := mk_shared { ring_rx : bytes; ring_tx : bytes; rxb : list bytes; txb : bytes }.
Record virtio := mk_virtio {
  base : Z; up : Z; qn_rx : Z; qn_tx : Z; mem : shared; tx_used_seen : Z;
  (** the static variable of [poll] *)
  seen : Z
}.

Definition set_mem (m : shared) (d : virtio) : virtio :=
  mk_virtio (base d) (up d) (qn_rx d) (qn_tx d) m (tx_used_seen d) (seen d).
Definition set_ring_rx (r : bytes) (d : virtio) : virtio :=
  set_mem (mk_shared r (ring_tx (mem d)) (rxb (mem d)) (txb (mem d))) d.
Definition set_ring_tx (r : bytes) (d : virtio) : virtio :=
  set_mem (mk_shared (ring_rx (mem d)) r (rxb (mem d)) (txb (mem d))) d.
Definition set_txb (b : bytes) (d : virtio) : virtio :=
  set_mem (mk_shared (ring_rx (mem d)) (ring_tx (mem d)) (rxb (mem d)) b) d.
Definition set_used (v : Z) (d : virtio) : virtio :=
  mk_virtio (base d) (up d) (qn_rx d) (qn_tx d) (mem d) v (seen d).
Definition set_seen (v : Z) (d : virtio) : virtio :=
  mk_virtio (base d) (up d) (qn_rx d) (qn_tx d) (mem d) (tx_used_seen d) v.
Definition set_base (v : Z) (d : virtio) : virtio :=
  mk_virtio v (up d) (qn_rx d) (qn_tx d) (mem d) (tx_used_seen d) (seen d).
Definition set_up (v : Z) (d : virtio) : virtio :=
  mk_virtio (base d) v (qn_rx d) (qn_tx d) (mem d) (tx_used_seen d) (seen d).
Definition set_qn_rx (n : Z) (d : virtio) : virtio :=
  mk_virtio (base d) (up d) n (qn_tx d) (mem d) (tx_used_seen d) (seen d).
Definition set_qn_tx (n : Z) (d : virtio) : virtio :=
  mk_virtio (base d) (up d) (qn_rx d) n (mem d) (tx_used_seen d) (seen d).

(** ** The offsets of a queue of [n] entries *)

Definition avail_flags (n : Z) : Z := 16 * n.
Definition avail_idx (n : Z) : Z := avail_flags n + 2.
Definition avail_ring (n i : Z) : Z := avail_flags n + 4 + 2 * i.
Definition used_off (n : Z) : Z := Z.land (16 * n + 4 + 2 * n + 2 + PAGE - 1) (u64 (Z.lnot (PAGE - 1))).
Definition used_idx (n : Z) : Z := used_off n + 2.
Definition used_ring (n i : Z) : Z := used_off n + 4 + 8 * i.

(** [d[i].addr=a;d[i].len=l;d[i].flags=f;d[i].next=0;] *)
Definition put_desc (r : bytes) (i a l f : Z) : option bytes :=
  r ← store_le 8 r (16 * i) a; r ← store_le 4 r (16 * i + 8) l;
  r ← store_le 2 r (16 * i + 12) f; store_le 2 r (16 * i + 14) 0.

Section driver.
Context {E : Type} `{!PortIO E, !DeviceIO E, !Dma shared E}.
(** Where the linker puts the queues and the buffers. *)
Context (ring_rx_at ring_tx_at rxb_at txb_at : Z).

Definition sync (d : virtio) (e : E) : virtio * E := let '(m, e) := dma (mem d) e in (set_mem m d, e).
Definition port (d : virtio) (o : Z) : Z := u16 (base d + o).

(** A volatile read of a half-word of the receive or of the transmit queue. *)
Definition rx16 (o : Z) (d : virtio) (e : E) : option (Z * virtio * E) :=
  let '(d, e) := sync d e in v ← load_le 2 (ring_rx (mem d)) o; Some (v, d, e).
Definition tx16 (o : Z) (d : virtio) (e : E) : option (Z * virtio * E) :=
  let '(d, e) := sync d e in v ← load_le 2 (ring_tx (mem d)) o; Some (v, d, e).

(** ** Start-up *)

(** The size of queue [q] and its cleared ring [r], or a refusal. *)
Definition setup_q (q at_ : Z) (r : bytes) (d : virtio) (e : E) : option (option (Z * bytes) * E) :=
  let e := outw (port d 0x0e) q e in
  let '(n, e) := inw (port d 0x0c) e in
  let n := u16 n in
  if (n =? 0) || (QMAX <? n) then Some (None, e)
  else r ← fill (Z.to_nat RINGSZ) r 0 0; Some (Some (n, r), outl (port d 0x08) (u32 (Z.shiftr at_ 12)) e).

Fixpoint read_mac (k : nat) (i : Z) (mac : bytes) (d : virtio) (e : E) : option (bytes * E) :=
  match k with
  | O => Some (mac, e)
  | S k' =>
      let '(v, e) := inb (port d (0x14 + i)) e in
      mac ← wr mac i v; read_mac k' (i + 1) mac d e
  end.

(** [for(uint16_t i=0;i<qn_rx;i++)] *)
Fixpoint fill_rx (k : nat) (i n : Z) (r : bytes) : option bytes :=
  match k with
  | O => Some r
  | S k' =>
      r ← put_desc r i (u64 (rxb_at + i * (BUF + 10))) (BUF + 10) 2;
      r ← store_le 2 r (avail_ring n i) i;
      fill_rx k' (i + 1) n r
  end.

(** From [VDesc *dr=desc(ring_rx)] on. *)
Definition start_queues (d : virtio) (e : E) : option (virtio * E) :=
  r ← fill_rx (Z.to_nat (qn_rx d)) 0 (qn_rx d) (ring_rx (mem d));
  r ← store_le 2 r (avail_idx (qn_rx d)) (qn_rx d);
  r ← store_le 2 r (avail_flags (qn_rx d)) 0;
  let d := set_ring_rx r d in
  t ← put_desc (ring_tx (mem d)) 0 (u64 txb_at) 0 0;
  t ← store_le 2 t (avail_idx (qn_tx d)) 0;
  let d := set_ring_tx t d in
  '(u, d, e) ← tx16 (used_idx (qn_tx d)) d e;
  let d := set_used u d in
  let e := outb (port d 0x12) 7 e in
  let e := outw (port d 0x10) 0 e in
  Some (set_up 1 d, e).

Definition init (p : PciDevice) (mac : bytes) (d : virtio) (e : E) : option (Z * bytes * virtio * E) :=
  let '(ok, p, e) := pci_find 0x1af4 0x1000 (Ptr p) e in
  if ok =? 0 then Some (0, mac, d, e)
  else
    let '(bar, e) := pci_bar32 p 0 e in
    if Z.land bar 1 =? 0 then Some (0, mac, d, e)
    else
      let d := set_base (u16 (Z.land bar (u32 (Z.lnot 3)))) d in
      let e := pci_enable p 0x0005 e in
      let e := outb (port d 0x12) 3 (outb (port d 0x12) 1 (outb (port d 0x12) 0 e)) in
      let '(f, e) := inl (base d) e in
      if Z.land f VIRTIO_F_MAC =? 0 then Some (0, mac, d, e)
      else
        let e := outl (port d 0x04) VIRTIO_F_MAC e in
        '(mac, e) ← read_mac 6 0 mac d e;
        '(q, e) ← setup_q 0 ring_rx_at (ring_rx (mem d)) d e;
        match q with
        | None => Some (0, mac, d, e)
        | Some (n, r) =>
            let d := set_qn_rx n (set_ring_rx r d) in
            '(q, e) ← setup_q 1 ring_tx_at (ring_tx (mem d)) d e;
            match q with
            | None => Some (0, mac, d, e)
            | Some (n, r) =>
                let d := set_qn_tx n (set_ring_tx r d) in
                '(d, e) ← start_queues d e;
                Some (1, mac, d, e)
            end
        end.

(** ** Sending *)

(** [for(unsigned k=0;k<200000&&*ui!=tx_used_seen;k++){}] *)
Fixpoint drain (k : nat) (d : virtio) (e : E) : option (virtio * E) :=
  match k with
  | O => Some (d, e)
  | S k' =>
      '(u, d, e) ← tx16 (used_idx (qn_tx d)) d e;
      if u =? tx_used_seen d then Some (d, e) else drain k' d e
  end.

(** [for(unsigned k=0;k<1000000;k++){if( *ui==target){...return 1;}}return 0;] *)
Fixpoint complete (k : nat) (target : Z) (d : virtio) (e : E) : option (Z * virtio * E) :=
  match k with
  | O => Some (0, d, e)
  | S k' =>
      '(u, d, e) ← tx16 (used_idx (qn_tx d)) d e;
      if u =? target then Some (1, set_used target d, e) else complete k' target d e
  end.

(** [d[0].addr=...;d[0].len=...;d[0].flags=0;] *)
Definition tx_desc (n : Z) (r : bytes) : option bytes :=
  r ← store_le 8 r 0 (u64 txb_at); r ← store_le 4 r 8 (u32 (n + 10)); store_le 2 r 12 0.

Definition tx (data : bytes) (n : Z) (d : virtio) (e : E) : option (Z * virtio * E) :=
  if (up d =? 0) || (n <? 14) || (BUF <? n) then Some (0, d, e)
  else
    '(d, e) ← drain (Z.to_nat 200000) d e;
    b ← fill 10 (txb (mem d)) 0 0;
    b ← cp b 10 data n;
    let d := set_txb b d in
    r ← tx_desc n (ring_tx (mem d));
    let d := set_ring_tx r d in
    '(a, d, e) ← tx16 (avail_idx (qn_tx d)) d e;
    r ← store_le 2 (ring_tx (mem d)) (avail_ring (qn_tx d) (a mod qn_tx d)) 0;
    r ← store_le 2 r (avail_idx (qn_tx d)) (u16 (a + 1));
    let d := set_ring_tx r d in
    let e := outw (port d 0x10) 1 e in
    complete (Z.to_nat 1000000) (u16 (tx_used_seen d + 1)) d e.

(** ** Receiving *)

Section poll.
Context {X : Type} (cb : bytes -> virtio * X * E -> res (virtio * X * E)).

(** [VUsed e=ur[seen%qn_rx];] *)
Definition used_entry (d : virtio) (e : E) : option (Z * Z * virtio * E) :=
  let '(d, e) := sync d e in
  let o := used_ring (qn_rx d) (seen d mod qn_rx d) in
  id ← load_le 4 (ring_rx (mem d)) o;
  n ← load_le 4 (ring_rx (mem d)) (o + 4);
  Some (u16 id, n, d, e).

(** [if(id<qn_rx&&e.len>=24&&e.len<=BUF+10)cb(rxb[id]+10,e.len-10);] *)
Definition hand_over (id n : Z) (w : virtio * X * E) : res (virtio * X * E) :=
  let '(d, x, e) := w in
  if (id <? qn_rx d) && (24 <=? n) && (n <=? BUF + 10) then
    let '(d, e) := sync d e in
    b ← ub (rd (rxb (mem d)) id);
    f ← ub (rd_bytes b 10 (n - 10));
    cb f (d, x, e)
  else Ok (d, x, e).

(** [uint16_t a=*ai;ar[a%qn_rx]=id;*ai=(uint16_t)(a+1);seen++;] *)
Definition give_back (id : Z) (d : virtio) (e : E) : option (virtio * E) :=
  '(a, d, e) ← rx16 (avail_idx (qn_rx d)) d e;
  r ← store_le 2 (ring_rx (mem d)) (avail_ring (qn_rx d) (a mod qn_rx d)) id;
  r ← store_le 2 r (avail_idx (qn_rx d)) (u16 (a + 1));
  let d := set_ring_rx r d in
  Some (set_seen (u16 (seen d + 1)) d, e).

(** [while(seen!=*ui)] *)
Fixpoint poll_loop (fuel : nat) (w : virtio * X * E) : res (virtio * X * E) :=
  match fuel with
  | O => NoFuel
  | S f =>
      let '(d, x, e) := w in
      '(u, d, e) ← ub (rx16 (used_idx (qn_rx d)) d e);
      if seen d =? u then Ok (d, x, e)
      else
        '(id, n, d, e) ← ub (used_entry d e);
        '(d, x, e) ← hand_over id n (d, x, e);
        '(d, e) ← ub (give_back id d e);
        poll_loop f (d, x, e)
  end.

Definition poll (fuel : nat) (w : virtio * X * E) : res (virtio * X * E) :=
  let '(d, x, e) := w in
  if up d =? 0 then Ok w
  else
    '(d, x, e) ← poll_loop fuel w;
    Ok (d, x, if seen d =? 0 then e else outw (port d 0x10) 0 e).
End poll.
End driver.

(** ** Safety *)

Definition ring_ok (r : bytes) : Prop := len r = RINGSZ /\ bytes_ok r.
Definition buffer_ok (b : bytes) : Prop := len b = BUF + 10 /\ bytes_ok b.
Definition shared_ok (m : shared) : Prop :=
  ring_ok (ring_rx m) /\ ring_ok (ring_tx m) /\ len (rxb m) = QMAX /\ Forall buffer_ok (rxb m) /\ buffer_ok (txb m).
Definition driver_ok (d : virtio) : Prop :=
  shared_ok (mem d) /\ (up d <> 0 -> 0 < qn_rx d <= QMAX /\ 0 < qn_tx d <= QMAX).

(** The parts of a queue are apart and inside its array, for every size the driver
    accepts. *)
Lemma queue_layout n : 0 < n <= QMAX ->
  avail_ring n n <= used_off n /\ used_ring n n <= RINGSZ.
Proof.
  intros Hn. unfold QMAX in Hn.
  assert (H : ((n =? 0) || ((avail_ring n n <=? used_off n) && (used_ring n n <=? RINGSZ))) = true).
  { apply (below_spec 257 (fun n => (n =? 0) || ((avail_ring n n <=? used_off n) && (used_ring n n <=? RINGSZ))));
      [vm_compute; reflexivity|lia]. }
  apply orb_true_iff in H as [H|H]; [apply Z.eqb_eq in H; lia|]. bool_prop. lia.
Qed.

(** Offsets of the entry [i] of a queue. *)
Lemma entry_bounds n i : 0 < n <= QMAX -> 0 <= i < n ->
  0 <= 16 * i /\ 16 * i + 16 <= avail_flags n /\ 0 < avail_flags n /\ avail_idx n = avail_flags n + 2 /\
  avail_flags n + 4 <= avail_ring n i /\ avail_ring n i + 2 <= used_off n /\
  used_idx n = used_off n + 2 /\ used_idx n + 2 <= used_ring n i /\ used_ring n i + 8 <= RINGSZ.
Proof.
  intros Hn Hi. destruct (queue_layout n Hn). unfold avail_idx, avail_ring, used_idx, used_ring, avail_flags in *. lia.
Qed.

(** The next store of the goal. *)
Ltac next_store :=
  match goal with
  | |- context [store_le ?n ?r ?o ?v] =>
      let r' := fresh "r" in let E := fresh "E" in let Hb := fresh "Hb" in let Hl := fresh "Hl" in
      destruct (store_le_ok n r o v) as (r' & E & Hb & Hl); [assumption|lia|lia|];
      rewrite E; cbn [mbind option_bind]
  end.

Lemma put_desc_ok r i a l f : bytes_ok r -> 0 <= i -> 16 * i + 16 <= len r ->
  exists r', put_desc r i a l f = Some r' /\ bytes_ok r' /\ length r' = length r.
Proof. intros Hr Hi Hl. unfold put_desc. do 4 next_store. eexists. split; [done|]. split; [done|lia]. Qed.

Section safety.
Context {E : Type} `{!PortIO E, !DeviceIO E, !Dma shared E, !DmaShape shared E shared_ok}.
Context (ring_rx_at ring_tx_at rxb_at txb_at : Z).

(** What a step keeps besides the shape. *)
Definition same_driver (d d' : virtio) : Prop :=
  up d' = up d /\ qn_rx d' = qn_rx d /\ qn_tx d' = qn_tx d /\ seen d' = seen d /\ tx_used_seen d' = tx_used_seen d.

Lemma same_driver_trans a b c : same_driver a b -> same_driver b c -> same_driver a c.
Proof. unfold same_driver. intuition congruence. Qed.

Lemma virtio_sync_ok d e : driver_ok d -> driver_ok (sync d e).1 /\ same_driver d (sync d e).1.
Proof.
  intros (Hm & Hq). unfold sync. pose proof (dma_shape (mem d) e Hm) as H.
  destruct (dma (mem d) e) as [m e']. cbn in *. split; [by split|by repeat split].
Qed.

Lemma rx16_ok o d e : driver_ok d -> 0 <= o -> o + 2 <= RINGSZ ->
  returns (rx16 o d e) (fun '(v, d', _) => driver_ok d' /\ same_driver d d' /\ 0 <= v < 65536).
Proof.
  intros Hd Ho Hl. unfold rx16. destruct (virtio_sync_ok d e Hd) as [Hd1 Hs1]. destruct (sync d e) as [d1 e1].
  cbn [fst] in *. pose proof Hd1 as (((Hlr & Hbr) & _) & _).
  destruct (load_le_is_Some 2 (ring_rx (mem d1)) o) as [v Hv]; [lia|lia|]. rewrite Hv. cbn [mbind option_bind].
  eexists. split; [done|]. split; [done|]. split; [done|]. by apply load_le_range in Hv.
Qed.

Lemma tx16_ok o d e : driver_ok d -> 0 <= o -> o + 2 <= RINGSZ ->
  returns (tx16 o d e) (fun '(v, d', _) => driver_ok d' /\ same_driver d d' /\ 0 <= v < 65536).
Proof.
  intros Hd Ho Hl. unfold tx16. destruct (virtio_sync_ok d e Hd) as [Hd1 Hs1]. destruct (sync d e) as [d1 e1].
  cbn [fst] in *. pose proof Hd1 as ((_ & (Hlr & Hbr) & _) & _).
  destruct (load_le_is_Some 2 (ring_tx (mem d1)) o) as [v Hv]; [lia|lia|]. rewrite Hv. cbn [mbind option_bind].
  eexists. split; [done|]. split; [done|]. split; [done|]. by apply load_le_range in Hv.
Qed.

Lemma set_ring_rx_ok r d : driver_ok d -> ring_ok r -> driver_ok (set_ring_rx r d).
Proof. intros ((H1 & H2) & H3) Hr. by split; [split|]. Qed.
Lemma set_ring_tx_ok r d : driver_ok d -> ring_ok r -> driver_ok (set_ring_tx r d).
Proof. intros ((H1 & H2 & H3) & H4) Hr. by split; [split; [|split]|]. Qed.

(** ** Sending *)

Lemma drain_ok k d e : driver_ok d -> up d <> 0 ->
  returns (drain k d e) (fun '(d', _) => driver_ok d' /\ same_driver d d').
Proof.
  revert d e. induction k as [|k IH]; intros d e Hd Hu; cbn [drain]; [by eexists|].
  destruct (proj2 Hd Hu) as [_ Hq]. pose proof (entry_bounds (qn_tx d) 0 Hq ltac:(lia)).
  eapply returns_bind; [apply tx16_ok; (done || lia)|]. intros [[u d1] e1] (Hd1 & Hs1 & _).
  pose proof Hs1 as (Hu1 & _). case_if; [by eexists|].
  eapply returns_mono; [apply IH; [done|congruence]|]. intros [d2 e2] [H1 H2].
  split; [done|]. by eapply same_driver_trans.
Qed.

Lemma complete_ok k t d e : driver_ok d -> up d <> 0 ->
  returns (complete k t d e) (fun '(r, d', _) => driver_ok d' /\ up d' = up d /\ qn_tx d' = qn_tx d /\
    ((r = 0 /\ tx_used_seen d' = tx_used_seen d) \/ (r = 1 /\ tx_used_seen d' = t))).
Proof.
  revert d e. induction k as [|k IH]; intros d e Hd Hu; cbn [complete].
  { eexists. split; [done|]. split; [done|]. split; [done|]. split; [done|by left]. }
  destruct (proj2 Hd Hu) as [_ Hq]. pose proof (entry_bounds (qn_tx d) 0 Hq ltac:(lia)).
  eapply returns_bind; [apply tx16_ok; (done || lia)|]. intros [[u d1] e1] (Hd1 & (Hu1 & _ & Hq1 & _ & Ht1) & _).
  case_if; [eexists; split; [done|]; split; [done|]; split; [done|]; split; [done|by right]|].
  eapply returns_mono; [apply IH; [done|congruence]|]. intros [[r d2] e2] (H1 & H2 & H3 & H4).
  split; [done|]. split; [congruence|]. split; [congruence|]. by rewrite Ht1 in H4.
Qed.

(** Sending is memory safe and ends, whatever the host does: lengths outside 14 to
    2048 are refused, and a success means that the host's index moved on by one. *)
Theorem virtio_tx_safe data n d e :
  driver_ok d -> bytes_ok data -> n <= len data ->
  returns (tx txb_at data n d e) (fun '(r, d', _) => driver_ok d' /\ up d' = up d /\
    ((r = 0 /\ tx_used_seen d' = tx_used_seen d) \/
     (r = 1 /\ 14 <= n <= BUF /\ up d <> 0 /\ tx_used_seen d' = u16 (tx_used_seen d + 1)))).
Proof.
  intros Hd Hb Hn. unfold tx. generalize (Z.to_nat 200000) (Z.to_nat 1000000). intros k1 k2.
  case_if; [eexists; split; [done|]; split; [done|]; split; [done|by left]|].
  eapply returns_bind; [by apply drain_ok|]. intros [d1 e1] [Hd1 (Hu1 & _ & Hq1 & _ & Ht1)].
  pose proof Hd1 as ((_ & (Hlr & Hbr) & _ & _ & (Hlb & Hbb)) & Hq). unfold BUF, RINGSZ in *.
  rewrite fill_spec by lia. cbn [mbind option_bind]. set (b0 := blit _ _ _).
  assert (Hb0 : length b0 = length (txb (mem d1))) by (apply blit_length; rewrite ?length_replicate; lia).
  rewrite cp_spec by lia. cbn [mbind option_bind].
  unfold tx_desc. cbn [set_txb set_mem mem ring_tx]. do 3 next_store.
  set (d2 := set_ring_tx _ _). assert (Hd2 : driver_ok d2).
  { apply set_ring_tx_ok; [|split; [unfold RINGSZ; lia|done]]. destruct Hd1 as ((? & ? & ? & ? & _) & ?).
    split; [|done]. split; [done|]. split; [done|]. split; [done|]. split; [done|]. split.
    - cbn [txb mem set_txb set_mem]. rewrite blit_length by (rewrite ?slice_0_length; lia). unfold BUF. lia.
    - apply bytes_ok_blit; [|by apply bytes_ok_slice]. by apply bytes_ok_blit; [|apply bytes_ok_replicate]. }
  assert (Hqt : 0 < qn_tx d2 <= QMAX) by (apply (proj2 Hd2); change (up d1 <> 0); congruence).
  pose proof (entry_bounds (qn_tx d2) 0 Hqt ltac:(lia)).
  eapply returns_bind; [apply tx16_ok; (done || lia)|]. intros [[a d3] e3] (Hd3 & (Hu3 & _ & Hq3 & _ & Ht3) & Ha).
  pose proof Hd3 as ((_ & (Hlr3 & Hbr3) & _) & _). unfold RINGSZ in *.
  pose proof (Z.mod_pos_bound a (qn_tx d3) ltac:(lia)).
  pose proof (entry_bounds (qn_tx d3) (a mod qn_tx d3) ltac:(lia) ltac:(lia)). unfold RINGSZ in *.
  do 2 next_store.
  eapply returns_mono; [apply complete_ok|].
  - apply set_ring_tx_ok; [done|]. split; [unfold RINGSZ; lia|done].
  - change (up d3 <> 0). rewrite Hu3. change (up d1 <> 0). by rewrite Hu1.
  - intros [[r' d4] e4] (Hd4 & Hu4 & _ & Hr4). split; [done|].
    assert (Ht : tx_used_seen d3 = tx_used_seen d) by (rewrite Ht3; exact Ht1).
    split; [rewrite Hu4; change (up d3 = up d); rewrite Hu3; exact Hu1|].
    cbn [tx_used_seen set_ring_tx set_mem] in Hr4. rewrite Ht in Hr4.
    destruct Hr4 as [[-> ->]|[-> ->]]; [by left|right]. split; [done|]. split; [lia|done].
Qed.

(** ** Receiving *)

Definition virtio_callback_ok {X} (T : Prop) (J : X -> Prop) (cb : bytes -> virtio * X * E -> res (virtio * X * E)) : Prop :=
  forall f d x e, handed 14 BUF f -> driver_ok d -> up d <> 0 -> J x ->
    safe T (cb f (d, x, e)) (fun '(d', x', _) => driver_ok d' /\ up d' <> 0 /\ J x').

Lemma used_entry_ok d e : driver_ok d -> up d <> 0 ->
  returns (used_entry d e) (fun '(id, n, d', _) => driver_ok d' /\ same_driver d d' /\ 0 <= id).
Proof.
  intros Hd Hu. unfold used_entry. destruct (virtio_sync_ok d e Hd) as [Hd1 Hs1]. destruct (sync d e) as [d1 e1].
  cbn [fst] in *. pose proof Hs1 as (Hu1 & _). destruct (proj2 Hd1) as [Hq _]; [congruence|].
  pose proof Hd1 as (((Hlr & Hbr) & _) & _).
  pose proof (Z.mod_pos_bound (seen d1) (qn_rx d1) ltac:(lia)).
  pose proof (entry_bounds (qn_rx d1) (seen d1 mod qn_rx d1) Hq ltac:(lia)).
  set (o := used_ring _ _) in *. unfold RINGSZ in *.
  destruct (load_le_is_Some 4 (ring_rx (mem d1)) o) as [id Hid]; [lia|lia|]. rewrite Hid. cbn [mbind option_bind].
  destruct (load_le_is_Some 4 (ring_rx (mem d1)) (o + 4)) as [n Hn]; [lia|lia|]. rewrite Hn. cbn [mbind option_bind].
  eexists. split; [done|]. split; [done|]. split; [done|]. apply u16_range.
Qed.

Lemma give_back_ok id d e : driver_ok d -> up d <> 0 ->
  returns (give_back id d e) (fun '(d', _) => driver_ok d' /\ up d' = up d).
Proof.
  intros Hd Hu. unfold give_back. destruct (proj2 Hd Hu) as [Hq _].
  pose proof (entry_bounds (qn_rx d) 0 Hq ltac:(lia)).
  eapply returns_bind; [apply rx16_ok; (done || lia)|]. intros [[a d1] e1] (Hd1 & (Hu1 & Hq1 & _) & Ha).
  pose proof Hd1 as (((Hlr & Hbr) & _) & _). pose proof (Z.mod_pos_bound a (qn_rx d1) ltac:(lia)).
  pose proof (entry_bounds (qn_rx d1) (a mod qn_rx d1) ltac:(lia) ltac:(lia)). unfold RINGSZ in *.
  do 2 next_store. eexists. split; [reflexivity|]. split; [|done].
  change (driver_ok (set_ring_rx r0 d1)). apply set_ring_rx_ok; [done|]. split; [unfold RINGSZ; lia|done].
Qed.

(** Receiving is memory safe whatever the host writes in the used ring: an entry
    names one of the driver's own buffers and a length inside it, or is skipped. *)
Theorem virtio_poll_safe {X} (J : X -> Prop) cb fuel d x e :
  virtio_callback_ok True J cb -> driver_ok d -> J x ->
  safe True (poll cb fuel (d, x, e)) (fun '(d', x', _) => driver_ok d' /\ J x').
Proof.
  intros Hcb Hd Hx. unfold poll. case_if; [done|].
  eapply (safe_bind _ _ _ (fun '(d', x', _) => driver_ok d' /\ J x')); [|intros [[d' x'] e'] H; exact H].
  revert d x e Hd Hx E0. induction fuel as [|f IH]; intros d x e Hd Hx Hu; cbn [poll_loop]; [done|].
  destruct (proj2 Hd Hu) as [Hq _]. pose proof (entry_bounds (qn_rx d) 0 Hq ltac:(lia)).
  eapply safe_bind; [apply safe_ub, rx16_ok; (done || lia)|]. intros [[u d1] e1] (Hd1 & (Hu1 & _) & _).
  case_if; [done|]. assert (Hup1 : up d1 <> 0) by congruence.
  eapply safe_bind; [by apply safe_ub, used_entry_ok|]. intros [[[id n] d2] e2] (Hd2 & (Hu2 & _) & Hid).
  assert (Hup2 : up d2 <> 0) by congruence.
  eapply (safe_bind _ _ _ (fun '(d', x', _) => driver_ok d' /\ up d' <> 0 /\ J x')).
  { unfold hand_over. case_if; [|done]. bool_prop. destruct (virtio_sync_ok d2 e2 Hd2) as [Hd3 Hs3].
    destruct (sync d2 e2) as [d3 e3]. cbn [fst] in *. pose proof Hs3 as (Hu3 & _).
    pose proof (proj2 Hd2 Hup2). pose proof Hd3 as ((_ & _ & Hl & Hf & _) & _).
    destruct (Forall_rd_lt (rxb (mem d3)) buffer_ok id Hf ltac:(lia)) as (b & -> & Hb & Hbb).
    cbn [ub mbind res_bind]. unfold BUF in *. rewrite rd_bytes_Some by lia. cbn [ub mbind res_bind].
    apply Hcb; [|done|congruence|done]. split; [by apply bytes_ok_slice|]. rewrite slice_length; unfold BUF; lia. }
  intros [[d4 x4] e4] (Hd4 & Hu4 & Hx4).
  eapply safe_bind; [by apply safe_ub, give_back_ok|]. intros [d5 e5] [Hd5 Hu5]. apply IH; [done|done|congruence].
Qed.

(** ** Start-up *)

Lemma virtio_read_mac_ok k i mac d e : 0 <= i -> i + Z.of_nat k <= len mac ->
  returns (read_mac k i mac d e) (fun '(mac', _) => length mac' = length mac).
Proof.
  revert i mac e. induction k as [|k IH]; intros i mac e Hi Hk; cbn [read_mac]; [by eexists|].
  destruct (inb _ e) as [v e1]. rewrite wr_Some by lia. cbn [mbind option_bind].
  eapply returns_mono; [apply IH; rewrite ?length_insert; lia|]. intros [m' e']. by rewrite length_insert.
Qed.

Lemma setup_q_ok q a r d e : ring_ok r ->
  returns (setup_q q a r d e) (fun '(o, _) =>
    match o with None => True | Some (n, r') => 0 < n <= QMAX /\ ring_ok r' end).
Proof.
  intros [Hl Hb]. unfold setup_q. destruct (inw _ _) as [n e1]. pose proof (u16_range n).
  case_if; [by eexists|]. unfold RINGSZ in *. rewrite fill_spec by lia. rewrite bind_some.
  eexists. split; [reflexivity|]. split; [lia|]. split.
  - rewrite blit_length; unfold RINGSZ; rewrite ?length_replicate; lia.
  - apply bytes_ok_blit; [done|]. apply bytes_ok_replicate. split; [discriminate|reflexivity].
Qed.

Lemma fill_rx_ok k i n r : 0 < n <= QMAX -> 0 <= i -> i + Z.of_nat k <= n -> ring_ok r ->
  returns (fill_rx rxb_at k i n r) ring_ok.
Proof.
  intros Hn. revert i r. induction k as [|k IH]; intros i r Hi Hk Hr; cbn [fill_rx]; [by eexists|].
  destruct Hr as [Hl Hb]. pose proof (entry_bounds n i Hn ltac:(lia)). unfold RINGSZ in *.
  destruct (put_desc_ok r i (u64 (rxb_at + i * (BUF + 10))) (BUF + 10) 2) as (r1 & -> & Hb1 & Hl1); [done|lia|lia|].
  rewrite bind_some. next_store. apply IH; [lia|lia|]. split; [unfold RINGSZ; lia|done].
Qed.

Lemma start_queues_ok d e : shared_ok (mem d) -> 0 < qn_rx d <= QMAX -> 0 < qn_tx d <= QMAX ->
  returns (start_queues rxb_at txb_at d e) (fun '(d', _) => driver_ok d' /\ up d' = 1).
Proof.
  intros Hsh Hq Hqt. unfold start_queues. pose proof Hsh as (Hr & Ht & _).
  eapply returns_bind; [apply fill_rx_ok; [done|lia|lia|done]|]. intros r [Hl Hb].
  pose proof (entry_bounds (qn_rx d) 0 Hq ltac:(lia)). pose proof (entry_bounds (qn_tx d) 0 Hqt ltac:(lia)).
  unfold RINGSZ in *. do 2 next_store.
  destruct Ht as [Hlt Hbt]. unfold RINGSZ in *. cbn [set_ring_rx set_mem mem ring_tx].
  destruct (put_desc_ok (ring_tx (mem d)) 0 (u64 txb_at) 0 0) as (t1 & -> & Hbt1 & Hlt1); [done|lia|lia|].
  rewrite bind_some. cbn [set_ring_rx set_mem qn_tx]. next_store. set (d2 := set_ring_tx _ _).
  assert (Hd2 : driver_ok d2).
  { split; [|done]. apply (set_ring_tx_ok r2 (set_ring_rx r1 d)); [|split; [unfold RINGSZ; lia|done]].
    apply set_ring_rx_ok; [by split|]. split; [unfold RINGSZ; lia|done]. }
  change (qn_tx d2) with (qn_tx d).
  eapply returns_bind; [apply tx16_ok; [done|lia|unfold RINGSZ; lia]|].
  intros [[u d3] e3] (Hd3 & (_ & Hq3 & Hqt3 & _) & _).
  eexists. split; [reflexivity|]. split; [|done]. split; [apply Hd3|]. intros _.
  change (0 < qn_rx d3 <= QMAX /\ 0 < qn_tx d3 <= QMAX). rewrite Hq3, Hqt3. done.
Qed.

(** Start-up stays inside its arrays for every queue size the host offers, and refuses
    sizes its static arrays cannot hold. *)
Theorem virtio_init_safe p mac d e :
  driver_ok d -> up d = 0 -> len mac = 6 ->
  returns (init ring_rx_at ring_tx_at rxb_at txb_at p mac d e) (fun '(ok, mac', d', _) =>
    driver_ok d' /\ len mac' = 6 /\ ((ok = 0 /\ up d' = 0) \/ (ok = 1 /\ up d' = 1))).
Proof.
  intros Hd Hu Hm. unfold init. destruct (pci_find _ _ _ _) as [[ok p1] e1].
  case_if; [eexists; split; [done|]; split; [done|]; split; [done|by left]|].
  destruct (pci_bar32 p1 0 e1) as [bar e2].
  case_if; [eexists; split; [done|]; split; [done|]; split; [done|by left]|]. cbv zeta.
  destruct (inl _ _) as [f e3]. case_if; [eexists; split; [done|]; split; [done|]; split; [done|by left]|].
  eapply returns_bind; [apply (virtio_read_mac_ok 6); lia|]. intros [mac1 e4] Hm1. cbv beta iota in Hm1.
  assert (Hno : forall n r, up d = 0 -> ring_ok r -> driver_ok (set_qn_rx n (set_ring_rx r d))).
  { intros n r H0 Hr. split; [apply set_ring_rx_ok; done|]. intros H. by destruct H. }
  eapply returns_bind; [apply setup_q_ok, Hd|]. intros [[[n r]|] e5] Hq;
    [|eexists; split; [done|]; split; [done|]; split; [lia|by left]].
  destruct Hq as [Hn Hr]. eapply returns_bind; [apply setup_q_ok, Hd|]. intros [[[n2 r2]|] e6] Hq2;
    [|eexists; split; [done|]; split; [by apply Hno|]; split; [lia|by left]].
  destruct Hq2 as [Hn2 Hr2].
  eapply returns_bind; [apply start_queues_ok; [|done|done]|].
  - destruct Hd as ((_ & _ & H) & _). by split; [|split].
  - intros [d' e'] [H1 H2]. eexists. split; [reflexivity|]. split; [done|]. split; [lia|by right].
Qed.
End safety.

(** ** The end of a poll *)

Section ends.
Context {E : Type} `{!PortIO E, !DeviceIO E, !Dma shared E}.
(** The host is quiet during the poll. *)
Hypothesis quiet : forall (m : shared) (e : E), dma m e = (m, e).

Lemma quiet_shape : DmaShape shared E shared_ok.
Proof. split. intros m e H. by rewrite quiet. Qed.

Lemma virtio_quiet_sync d e : sync d e = (d, e).
Proof. unfold sync. rewrite quiet. by destruct d. Qed.

(** The index up to which the host has used descriptors. *)
Definition host_index (d : virtio) (u : Z) : Prop := load_le 2 (ring_rx (mem d)) (used_idx (qn_rx d)) = Some u.

Lemma load_le_same n m m' o :
  (forall i, o <= i < o + Z.of_nat n -> rd m' i = rd m i) -> load_le n m' o = load_le n m o.
Proof.
  revert o. induction n as [|n IH]; intros o H; cbn [load_le]; [done|].
  rewrite H by lia. destruct (rd m o); cbn [mbind option_bind]; [|done]. rewrite IH; [done|]. intros i Hi. apply H. lia.
Qed.

(** *** What a poll should do *)

(** Entry [j] of the used ring: the buffer and the length written to it. *)
Definition entry (n : Z) (r : bytes) (j : Z) : Z * Z :=
  (u16 (default 0 (load_le 4 r (used_ring n j))), default 0 (load_le 4 r (used_ring n j + 4))).

(** The [k] entries from index [s] on. *)
Fixpoint pending (n : Z) (r : bytes) (s : Z) (k : nat) : list (Z * Z) :=
  match k with
  | O => []
  | S k' => entry n r (s mod n) :: pending n r (u16 (s + 1)) k'
  end.

(** The frame of an entry, behind the ten bytes of the header; none for a buffer that
    does not exist or a length outside 24 to 2058. *)
Definition frame_of (d : virtio) (en : Z * Z) : option bytes :=
  if (fst en <? qn_rx d) && (24 <=? snd en) && (snd en <=? BUF + 10) then
    b ← rd (rxb (mem d)) (fst en); rd_bytes b 10 (snd en - 10)
  else None.

(** The buffers [ids] are offered to the host from index [a] on: the index moves on by
    their number, the slots hold them, and every other byte of the queue is as it was. *)
Record offered (n a : Z) (ids : list Z) (r r' : bytes) : Prop := {
  of_index : load_le 2 r' (avail_idx n) = Some (u16 (a + len ids));
  of_slots i id : ids !! i = Some id -> load_le 2 r' (avail_ring n ((a + Z.of_nat i) mod n)) = Some id;
  of_others j : 0 <= j < n -> (forall i, (i < length ids)%nat -> (a + Z.of_nat i) mod n <> j) ->
    load_le 2 r' (avail_ring n j) = load_le 2 r (avail_ring n j);
  of_rest o : o < avail_idx n \/ used_off n <= o -> rd r' o = rd r o
}.

Lemma slot_mod n x : 0 < n -> 65536 mod n = 0 -> u16 x mod n = x mod n.
Proof. intros Hn H. unfold u16. apply Z.mod_mod_divide, Z.mod_divide; [lia|done]. Qed.

(** *** One turn *)

(** Slots of different numbers, and the index, are apart. *)
Lemma give_back_quiet id d e a :
  driver_ok d -> up d <> 0 -> 0 <= id < 65536 -> 65536 mod qn_rx d = 0 ->
  load_le 2 (ring_rx (mem d)) (avail_idx (qn_rx d)) = Some a ->
  exists r', give_back id d e = Some (set_seen (u16 (seen d + 1)) (set_ring_rx r' d), e) /\
    offered (qn_rx d) a [id] (ring_rx (mem d)) r' /\ ring_ok r'.
Proof.
  intros Hd Hu Hid Hdiv Ha. unfold give_back, rx16. rewrite virtio_quiet_sync, Ha.
  cbn [mbind option_bind]. destruct (proj2 Hd Hu) as [Hqn _]. pose proof Hd as (((Hlr & Hbr) & _) & _).
  pose proof (Z.mod_pos_bound a (qn_rx d) ltac:(lia)).
  pose proof (entry_bounds (qn_rx d) (a mod qn_rx d) Hqn ltac:(lia)). unfold RINGSZ in *.
  destruct (store_le_spec 2 (ring_rx (mem d)) (avail_ring (qn_rx d) (a mod qn_rx d)) id) as (r1 & E1 & Hl1 & Hs1 & Hv1);
    [lia|lia|].
  destruct (store_le_ok 2 (ring_rx (mem d)) (avail_ring (qn_rx d) (a mod qn_rx d)) id) as (? & E1' & Hb1 & _); [done|lia|lia|].
  rewrite E1 in E1' |- *. injection E1' as <-. cbn [mbind option_bind].
  destruct (store_le_spec 2 r1 (avail_idx (qn_rx d)) (u16 (a + 1))) as (r2 & E2 & Hl2 & Hs2 & Hv2); [lia|lia|].
  destruct (store_le_ok 2 r1 (avail_idx (qn_rx d)) (u16 (a + 1))) as (? & E2' & Hb2 & _); [done|lia|lia|].
  rewrite E2 in E2' |- *. injection E2' as <-. cbn [mbind option_bind].
  exists r2. split; [reflexivity|]. split; [|split; [unfold RINGSZ; lia|done]]. split.
  - rewrite Hv2. change (256 ^ Z.of_nat 2) with 65536. unfold u16. cbn [length]. f_equal. zlia.
  - intros [|i] id' Hi; [|done]. injection Hi as <-. rewrite Z.add_0_r.
    rewrite (load_le_same 2 r1 r2), Hv1 by (intros i Hi; apply Hs2; lia).
    change (256 ^ Z.of_nat 2) with 65536. f_equal. zlia.
  - intros j Hj Hne. specialize (Hne 0%nat ltac:(cbn; lia)). rewrite Z.add_0_r in Hne.
    pose proof (entry_bounds (qn_rx d) j Hqn Hj). unfold avail_ring, avail_idx in *.
    rewrite (load_le_same 2 r1 r2) by (intros i Hi; apply Hs2; lia).
    apply load_le_same. intros i Hi. apply Hs1. lia.
  - intros o Ho. rewrite Hs2 by lia. apply Hs1. lia.
Qed.

(** Offering one buffer and then the rest. *)
Lemma offered_cons n a id ids r r1 r2 :
  0 < n <= QMAX -> (S (length ids) <= Z.to_nat n)%nat ->
  offered n a [id] r r1 -> offered n (u16 (a + 1)) ids r1 r2 -> 65536 mod n = 0 ->
  offered n a (id :: ids) r r2.
Proof.
  intros Hn Hk H1 H2 Hdiv.
  assert (Hslot : forall i, (u16 (a + 1) + Z.of_nat i) mod n = (a + Z.of_nat (S i)) mod n).
  { intros i. rewrite <- Z.add_mod_idemp_l, slot_mod, Z.add_mod_idemp_l by lia. f_equal. lia. }
  split.
  - rewrite (of_index _ _ _ _ _ H2). cbn [length]. unfold u16. f_equal. zlia.
  - intros [|i] id' Hi.
    + injection Hi as <-. rewrite (of_others _ _ _ _ _ H2).
      * by apply (of_slots _ _ _ _ _ H1 0%nat).
      * apply Z.mod_pos_bound. lia.
      * intros i Hi. rewrite Hslot, Z.add_0_r. intros Hc.
        assert (Hz : (Z.of_nat (S i)) mod n = 0).
        { replace (Z.of_nat (S i)) with (a + Z.of_nat (S i) - a) by lia. rewrite Zminus_mod, Hc, Z.sub_diag. done. }
        rewrite Z.mod_small in Hz by lia. lia.
    + rewrite <- Hslot. by apply (of_slots _ _ _ _ _ H2).
  - intros j Hj Hne. rewrite (of_others _ _ _ _ _ H2).
    + apply (of_others _ _ _ _ _ H1); [done|]. intros [|i] Hi; [|cbn in Hi; lia]. apply Hne. cbn. lia.
    + done.
    + intros i Hi. rewrite Hslot. apply Hne. cbn. lia.
  - intros o Ho. rewrite (of_rest _ _ _ _ _ H2) by done. by apply (of_rest _ _ _ _ _ H1).
Qed.

Lemma pending_same n r r' s k : 0 < n <= QMAX ->
  (forall o, used_off n <= o -> rd r' o = rd r o) -> pending n r' s k = pending n r s k.
Proof.
  intros Hn H. revert s. induction k as [|k IH]; intros s; cbn [pending]; [done|]. rewrite IH. f_equal.
  pose proof (Z.mod_pos_bound s n ltac:(lia)). pose proof (entry_bounds n (s mod n) Hn ltac:(lia)).
  unfold entry. rewrite !(load_le_same 4 r r') by (intros i Hi; apply H; unfold used_ring, used_idx in *; lia). done.
Qed.

Lemma pending_length n r s k : length (pending n r s k) = k.
Proof. revert s. induction k as [|k IH]; intros s; cbn [pending length]; [done|by rewrite IH]. Qed.

Section run.
Context {X : Type} (cb : bytes -> virtio * X * E -> res (virtio * X * E)) (run : bytes -> X * E -> X * E).
(** The receiver of the frames leaves the driver alone. *)
Hypothesis receives : forall f d x e, cb f (d, x, e) = Ok (d, fst (run f (x, e)), snd (run f (x, e))).

Definition deliver (fs : list bytes) (xe : X * E) : X * E := fold_left (fun xe f => run f xe) fs xe.

Lemma hand_over_quiet id n d x e : driver_ok d -> up d <> 0 -> 0 <= id ->
  hand_over cb id n (d, x, e) = Ok (d, fst (deliver (option_list (frame_of d (id, n))) (x, e)),
                                    snd (deliver (option_list (frame_of d (id, n))) (x, e))).
Proof.
  intros Hd Hu Hid. unfold hand_over, frame_of. cbn [fst snd].
  destruct ((id <? qn_rx d) && (24 <=? n) && (n <=? BUF + 10)) eqn:E0; [|done]. bool_prop. rewrite virtio_quiet_sync.
  pose proof (proj2 Hd Hu). pose proof Hd as ((_ & _ & Hl & Hfb & _) & _).
  destruct (Forall_rd_lt (rxb (mem d)) buffer_ok id Hfb ltac:(lia)) as (b & -> & Hb & _).
  cbn [ub mbind res_bind option_bind]. unfold BUF in *. rewrite rd_bytes_Some by lia. cbn [ub mbind res_bind]. by rewrite receives.
Qed.

Lemma used_entry_quiet d e : driver_ok d -> up d <> 0 ->
  used_entry d e = Some (fst (entry (qn_rx d) (ring_rx (mem d)) (seen d mod qn_rx d)),
                         snd (entry (qn_rx d) (ring_rx (mem d)) (seen d mod qn_rx d)), d, e).
Proof.
  intros Hd Hu. unfold used_entry. rewrite virtio_quiet_sync. cbv zeta. unfold entry. cbn [fst snd].
  destruct (proj2 Hd Hu) as [Hq _]. pose proof Hd as (((Hlr & _) & _) & _). unfold RINGSZ in *.
  pose proof (Z.mod_pos_bound (seen d) (qn_rx d) ltac:(lia)).
  pose proof (entry_bounds (qn_rx d) (seen d mod qn_rx d) Hq ltac:(lia)). unfold RINGSZ in *.
  destruct (load_le_is_Some 4 (ring_rx (mem d)) (used_ring (qn_rx d) (seen d mod qn_rx d))) as [v1 ->]; [lia|lia|].
  cbn [mbind option_bind].
  destruct (load_le_is_Some 4 (ring_rx (mem d)) (used_ring (qn_rx d) (seen d mod qn_rx d) + 4)) as [v2 ->]; [lia|lia|].
  done.
Qed.

(** What the loop leaves when [k] entries are pending. *)
Definition taken (d : virtio) (k : nat) (r' : bytes) : virtio :=
  set_seen (u16 (seen d + Z.of_nat k)) (set_ring_rx r' d).
Definition frames (d : virtio) (k : nat) : list bytes :=
  omap (frame_of d) (pending (qn_rx d) (ring_rx (mem d)) (seen d) k).

Lemma frames_step d r1 k : driver_ok d -> up d <> 0 ->
  (forall o, used_off (qn_rx d) <= o -> rd r1 o = rd (ring_rx (mem d)) o) ->
  frames d (S k) = option_list (frame_of d (entry (qn_rx d) (ring_rx (mem d)) (seen d mod qn_rx d)))
    ++ frames (set_seen (u16 (seen d + 1)) (set_ring_rx r1 d)) k.
Proof.
  intros Hd Hu Hr. destruct (proj2 Hd Hu) as [Hq _]. unfold frames. cbn [pending seen set_seen qn_rx mem set_ring_rx set_mem ring_rx].
  rewrite (pending_same _ _ _ _ _ Hq Hr). change (frame_of (set_seen _ _)) with (frame_of d). cbn [omap list_omap].
  by destruct (frame_of d (entry _ _ _)).
Qed.

Lemma poll_loop_quiet k fuel d x e a :
  driver_ok d -> up d <> 0 -> 65536 mod qn_rx d = 0 -> 0 <= seen d < 65536 ->
  host_index d (u16 (seen d + Z.of_nat k)) -> Z.of_nat k <= qn_rx d -> (k < fuel)%nat ->
  load_le 2 (ring_rx (mem d)) (avail_idx (qn_rx d)) = Some a ->
  exists r', poll_loop cb fuel (d, x, e)
      = Ok (taken d k r', fst (deliver (frames d k) (x, e)), snd (deliver (frames d k) (x, e))) /\
    offered (qn_rx d) a (fst <$> pending (qn_rx d) (ring_rx (mem d)) (seen d) k) (ring_rx (mem d)) r'.
Proof.
  revert fuel d x e a. induction k as [|k IH]; intros fuel d x e a Hd Hu Hdiv Hs Hh Hk Hf Ha;
    (destruct fuel as [|fuel]; [lia|]); destruct (proj2 Hd Hu) as [Hq _]; cbn [poll_loop];
    unfold rx16; rewrite virtio_quiet_sync, Hh; cbn [mbind option_bind ub res_bind].
  - replace (u16 (seen d + Z.of_nat 0)) with (seen d) by (unfold u16; zlia). rewrite Z.eqb_refl.
    exists (ring_rx (mem d)). split; [|split].
    + unfold taken. replace (u16 (seen d + Z.of_nat 0)) with (seen d) by (unfold u16; zlia). by destruct d as [? ? ? ? []].
    + rewrite Ha. f_equal. destruct Hd as (((_ & Hb) & _) & _). apply load_le_range in Ha; [|done].
      change (256 ^ Z.of_nat 2) with 65536 in Ha. cbn [fmap list_fmap pending length]. unfold u16. zlia.
    + done.
    + done.
    + done.
  - destruct (Z.eqb_spec (seen d) (u16 (seen d + Z.of_nat (S k)))) as [Hc|_].
    { exfalso. unfold QMAX in Hq. unfold u16 in Hc. zlia. }
    rewrite used_entry_quiet by done. set (en := entry _ _ _). cbn [ub mbind res_bind].
    assert (Hen : 0 <= fst en < 65536) by apply u16_range.
    rewrite hand_over_quiet by (done || lia). cbn [mbind res_bind]. rewrite <- surjective_pairing.
    set (xe := deliver (option_list (frame_of d en)) (x, e)).
    destruct (give_back_quiet (fst en) d (snd xe) a Hd Hu Hen Hdiv Ha) as (r1 & -> & Ho1 & Hr1).
    cbn [ub mbind res_bind]. set (d1 := set_seen _ _).
    assert (Hd1 : driver_ok d1) by (by apply (set_ring_rx_ok r1 d)).
    assert (Hused : forall o, used_off (qn_rx d) <= o -> rd r1 o = rd (ring_rx (mem d)) o)
      by (intros o Hge; apply (of_rest _ _ _ _ _ Ho1); by right).
    assert (Hseen : u16 (seen d1 + Z.of_nat k) = u16 (seen d + Z.of_nat (S k))).
    { cbn [d1 set_seen seen]. unfold u16. rewrite Z.add_mod_idemp_l by lia. f_equal. lia. }
    destruct (IH fuel d1 (fst xe) (snd xe) (u16 (a + 1))) as (r2 & E2 & Ho2);
      [done|done|done|apply u16_range| |change (qn_rx d1) with (qn_rx d); lia|lia| |].
    { rewrite Hseen. unfold host_index in *. rewrite <- Hh. apply load_le_same. intros i Hi. apply Hused.
      change (qn_rx d1) with (qn_rx d) in Hi. unfold used_idx in Hi. lia. }
    { exact (of_index _ _ _ _ _ Ho1). }
    exists r2. rewrite E2. split.
    + rewrite (frames_step d r1 k Hd Hu Hused). unfold deliver at 3 4. rewrite !fold_left_app.
      fold d1 en. unfold taken. rewrite Hseen. fold (deliver (option_list (frame_of d en)) (x, e)). fold xe.
      rewrite <- surjective_pairing. reflexivity.
    + cbn [pending fmap list_fmap]. fold en. apply (offered_cons _ _ _ _ _ r1); [done| |done| |done].
      * rewrite length_fmap, pending_length. lia.
      * rewrite <- (pending_same _ _ _ _ _ Hq Hused). exact Ho2.
Qed.

(** C26. A poll of a queue whose host is quiet meanwhile (it has used [k] buffers, at
    most as many as there are, and uses no more until the poll has ended) ends after
    [k] turns, across the wrap of the indices at 65536.  It takes every used entry:
    the frames of the entries are handed on in order and once each, behind their
    headers, entries that name no buffer or no possible length are passed over, the
    index seen becomes the host's, and every buffer is offered to the host again, the
    rest of the queue being left as it was.  (The size of the queue divides 65536, as
    the specification of the device demands.) *)
Theorem virtio_poll_ends k fuel d x e a :
  driver_ok d -> up d <> 0 -> 65536 mod qn_rx d = 0 -> 0 <= seen d < 65536 ->
  host_index d (u16 (seen d + Z.of_nat k)) -> Z.of_nat k <= qn_rx d -> (k < fuel)%nat ->
  load_le 2 (ring_rx (mem d)) (avail_idx (qn_rx d)) = Some a ->
  exists r', poll cb fuel (d, x, e) = Ok (taken d k r', fst (deliver (frames d k) (x, e)),
      let e' := snd (deliver (frames d k) (x, e)) in
      if u16 (seen d + Z.of_nat k) =? 0 then e' else outw (port d 0x10) 0 e') /\
    offered (qn_rx d) a (fst <$> pending (qn_rx d) (ring_rx (mem d)) (seen d) k) (ring_rx (mem d)) r'.
Proof.
  intros Hd Hu Hdiv Hs Hh Hk Hf Ha. unfold poll. replace (up d =? 0) with false by (symmetry; by apply Z.eqb_neq).
  destruct (poll_loop_quiet k fuel d x e a Hd Hu Hdiv Hs Hh Hk Hf Ha) as (r' & -> & Ho). exists r'. by split.
Qed.
End run.
End ends.

(** ** A host on the bench *)

Module Bench.
Definition log : Type := list (Z * Z).
#[export] Instance bench_dma : Dma shared log := {| dma m e := (m, e) |}.
#[export] Instance bench_io : DeviceIO log := {|
  outb p v e := (p, v) :: e; inb _ e := (0, e); outw p v e := (p, v) :: e; inw _ e := (0, e);
  mmio_read _ e := (0, e); mmio_write o v e := (o, v) :: e
|}.
#[export] Instance bench_ports : PortIO log := {| outl p v e := (p, v) :: e; inl _ e := (0xffffffff, e) |}.
#[export] Instance bench_shape : DmaShape shared log shared_ok.
Proof. split. intros m e H. exact H. Qed.

Definition ring0 : bytes := replicate (Z.to_nat RINGSZ) 0.
Definition buf (b : Z) : bytes := replicate (Z.to_nat (BUF + 10)) b.

(** Queues of 4; the host has used entries 65535 and 0: buffer 2 with 60 bytes, then
    a descriptor that does not exist. *)
Definition used : bytes :=
  blit (blit (blit ring0 (used_idx 4) [1; 0]) (used_ring 4 3) [2; 0; 0; 0; 70; 0; 0; 0])
    (used_ring 4 0) [9; 0; 0; 0; 70; 0; 0; 0].
Definition host (r : bytes) : virtio :=
  mk_virtio 0 1 4 4 (mk_shared r ring0 (replicate 256 (buf 5)) (buf 0)) 0 65535.

Example entries_taken :
  match poll (fun f '(d, x, e) => Ok (d, x ++ [f], e)) 3 (host used, [], [] : log) with
  | Ok (d, x, e) => Some (seen d, x, e)
  | _ => None
  end = Some (1, [replicate 60 5], [(0x10, 0)]).
Proof. vm_compute. reflexivity. Qed.

Lemma ring0_ok : ring_ok ring0.
Proof.
  split; [vm_compute; reflexivity|]. apply bytes_ok_replicate. split; [discriminate|reflexivity].
Qed.

Lemma host_ok r : ring_ok r -> driver_ok (host r).
Proof.
  intros Hr. assert (Hb : forall b, is_byte b -> buffer_ok (buf b)).
  { intros b Hb. split; [vm_compute; reflexivity|by apply bytes_ok_replicate]. }
  split; [|intros _; split; split; (reflexivity || discriminate)]. split; [exact Hr|].
  split; [exact ring0_ok|].
  split; [vm_compute; reflexivity|]. split; [apply Forall_replicate|]; apply Hb; split; (discriminate || reflexivity).
Qed.

Lemma used_ok : ring_ok used.
Proof. split; [vm_compute; reflexivity|]. apply bytes_okb_spec. vm_compute. reflexivity. Qed.

Lemma virtio_poll_ends_witness :
  exists r', poll (fun f '(d, x, e) => Ok (d, x ++ [f], e)) 3 (host used, [], [] : log)
      = Ok (taken (host used) 2 r', [replicate 60 5], [(0x10, 0)]) /\
    offered 4 0 [2; 9] used r'.
Proof.
  exact (virtio_poll_ends (E := log) (Dma0 := bench_dma) (fun _ _ => eq_refl)
    (fun f '(d, x, e) => Ok (d, x ++ [f], e)) (fun f '(x, e) => (x ++ [f], e)) (fun _ _ _ _ => eq_refl)
    2 3 (host used) [] [] 0 (host_ok used used_ok) ltac:(discriminate) eq_refl
    ltac:(split; [discriminate|reflexivity]) ltac:(vm_compute; reflexivity) ltac:(discriminate) ltac:(lia)
    ltac:(vm_compute; reflexivity)).
Defined.

Lemma virtio_poll_safe_witness :
  safe True (poll (fun f '(d, x, e) => Ok (d, x + len f, e)) 3 (host used, 0, [] : log))
    (fun '(d', x', _) => driver_ok d' /\ 0 <= x').
Proof.
  apply (virtio_poll_safe (fun x => 0 <= x)).
  - intros f d x e _ Hd Hu Hx. cbn. split; [done|]. split; [done|lia].
  - apply host_ok, used_ok.
  - done.
Defined.

Lemma virtio_tx_safe_witness :
  returns (tx 0x1000 (replicate 60 7) 60 (host ring0) ([] : log)) (fun '(r, d', _) => driver_ok d' /\ up d' = 1 /\
    ((r = 0 /\ tx_used_seen d' = 0) \/ (r = 1 /\ 14 <= 60 <= BUF /\ up (host ring0) <> 0 /\ tx_used_seen d' = u16 (0 + 1)))).
Proof.
  apply (virtio_tx_safe 0x1000 (replicate 60 7) 60 (host ring0) ([] : log)).
  - apply host_ok, ring0_ok.
  - by apply bytes_ok_replicate.
  - discriminate.
Defined.

(** After a send the host completed too late, the driver is one completion behind:
    the first look at the index counts the old completion for the new frame. *)
Definition late : virtio := set_ring_tx (blit ring0 (used_idx 4) [1; 0]) (host ring0).
Example late_completion_counts_for_next :
  (fun '(r, d, _) => (r, tx_used_seen d)) <$> complete 1 (u16 (tx_used_seen late + 1)) late ([] : log) = Some (1, 1).
Proof. vm_compute. reflexivity. Qed.
End Bench.
