(* ===== verification/Serial.v ===== *)
(** * kernel/serial.c: the debug port

    The first serial line, polled.  [serial_putc] waits for the transmitter as long
    as it takes, so its loop carries fuel; the port is [DeviceIO]. *)

From S2P Require Import Prelude NetEnv Cstr Pci NetHw.

Definition COM1 : Z := 0x3F8.

Section serial.
Context {E : Type} `{!DeviceIO E}.

Definition serial_init (e : E) : E :=
  let e := outb (COM1 + 1) 0x00 e in
  let e := outb (COM1 + 3) 0x80 e in
  let e := outb (COM1 + 0) 0x03 e in
  let e := outb (COM1 + 1) 0x00 e in
  let e := outb (COM1 + 3) 0x03 e in
  let e := outb (COM1 + 2) 0xC7 e in
  outb (COM1 + 4) 0x0B e.

(** [while((inb(COM1+5)&0x20)==0){}] *)
Fixpoint tx_wait (fuel : nat) (e : E) : res E :=
  match fuel with
  | O => NoFuel
  | S f =>
      let '(v, e) := inb (COM1 + 5) e in
      if Z.land v 0x20 =? 0 then tx_wait f e else Ok e
  end.

Definition serial_putc (fuel : nat) (c : Z) (e : E) : res E :=
  e ← tx_wait fuel e; Ok (outb COM1 (u8 c) e).

(** [while(s&&*s) serial_putc( *s++)] from position [i]. *)
Fixpoint write_loop (k fuel : nat) (s : bytes) (i : Z) (e : E) : res E :=
  match k with
  | O => NoFuel
  | S k' =>
      c ← ub (rd s i);
      if c =? 0 then Ok e else e ← serial_putc fuel c e; write_loop k' fuel s (i + 1) e
  end.

Definition serial_write (fuel : nat) (s : ptr bytes) (e : E) : res E :=
  match s with Null => Ok e | Ptr s => write_loop (S (length s)) fuel s 0 e end.

Definition hex : bytes := lit "0123456789ABCDEF".

(** [for(int i=15;i>=0;i--) serial_putc(hex[(v>>(i*4))&0xF])]; [k] digits remain. *)
Fixpoint hex_loop (k fuel : nat) (v : Z) (e : E) : res E :=
  match k with
  | O => Ok e
  | S i =>
      c ← ub (rd hex (Z.land (Z.shiftr v (Z.of_nat i * 4)) 0xF));
      e ← serial_putc fuel c e;
      hex_loop i fuel v e
  end.

Definition serial_write_hex64 (fuel : nat) (v : Z) (e : E) : res E :=
  e ← serial_write fuel (Ptr (lit "0x")) e; hex_loop 16 fuel v e.
End serial.

(** ** What goes down the line *)

(** A line that shows what was sent: reading its status sends nothing, and a write of
    the data port sends one byte.  [patience] turns at most until it is ready. *)
Class SerialLine (E : Type) `{!DeviceIO E} := {
  sent : E -> bytes;
  patience : E -> nat;
  line_status e : let '(v, e') := inb (COM1 + 5) e in
    sent e' = sent e /\ (Z.land v 0x20 = 0 -> (patience e' < patience e)%nat);
  line_send c e : sent (outb COM1 c e) = sent e ++ [c];
  line_bound : nat;
  line_patience e : (patience e < line_bound)%nat
}.

Section line.
Context {E : Type} `{!DeviceIO E, !SerialLine E}.
Context (fuel : nat) (Hfuel : (line_bound <= fuel)%nat).

Lemma tx_wait_spec e : exists e', tx_wait fuel e = Ok e' /\ sent e' = sent e.
Proof.
  assert (H : forall f e, (patience e < f)%nat -> exists e', tx_wait f e = Ok e' /\ sent e' = sent e).
  { induction f as [|f IH]; intros e0 He; [lia|]. cbn [tx_wait]. pose proof (line_status e0) as Hs.
    destruct (inb (COM1 + 5) e0) as [v e1]. destruct Hs as [Hs Hp].
    destruct (Z.eqb_spec (Z.land v 0x20) 0) as [E0|_]; [|by exists e1].
    destruct (IH e1) as (e2 & -> & H2); [specialize (Hp E0); lia|]. exists e2. by rewrite H2. }
  apply H. pose proof (line_patience e). lia.
Qed.

Lemma serial_putc_spec c e : exists e', serial_putc fuel c e = Ok e' /\ sent e' = sent e ++ [u8 c].
Proof.
  unfold serial_putc. destruct (tx_wait_spec e) as (e1 & -> & H1). cbn [mbind res_bind].
  eexists. split; [done|]. by rewrite line_send, H1.
Qed.

Lemma write_loop_spec k s i t e :
  cstr s i t -> bytes_ok t -> (length t < k)%nat ->
  exists e', write_loop k fuel s i e = Ok e' /\ sent e' = sent e ++ t.
Proof.
  revert i t e. induction k as [|k IH]; intros i t e Ht Hb Hk; [lia|]. cbn [write_loop].
  rewrite (cstr_rd _ _ _ Ht). cbn [ub mbind res_bind]. destruct t as [|c t]; cbn [head0].
  { exists e. by rewrite app_nil_r. }
  apply cstr_char_inv in Ht as (_ & Hc & Ht). inversion Hb as [|? ? Hcb Hb']; subst.
  replace (c =? 0) with false by (symmetry; by apply Z.eqb_neq).
  destruct (serial_putc_spec c e) as (e1 & -> & H1). cbn [mbind res_bind].
  destruct (IH (i + 1) t e1 Ht Hb') as (e2 & -> & H2); [cbn [length] in Hk; lia|].
  exists e2. rewrite H2, H1, <- app_assoc, u8_id by done. done.
Qed.

(** [serial_write] ends on a line that gets ready, and sends exactly the characters
    of the string, in order. *)
Theorem serial_write_sends s t e :
  cstr s 0 t -> bytes_ok t -> exists e', serial_write fuel (Ptr s) e = Ok e' /\ sent e' = sent e ++ t.
Proof.
  intros Ht Hb. apply write_loop_spec; [done|done|]. pose proof (cstr_bounds _ _ _ Ht). lia.
Qed.

(** ** Hexadecimal *)

(** The digit [d] as a character, and back. *)
Definition hex_digit (d : Z) : Z := if d <? 10 then 48 + d else 55 + d.
Definition digit_value (c : Z) : Z := if c <? 58 then c - 48 else c - 55.
Definition hex_value (l : bytes) : Z := fold_left (fun v c => 16 * v + digit_value c) l 0.

Lemma rd_hex d : 0 <= d < 16 -> rd hex d = Some (hex_digit d).
Proof.
  intros Hd. assert (H : (byte_at hex d =? hex_digit d) = true).
  { apply (below_spec 16 (fun d => byte_at hex d =? hex_digit d)); [vm_compute; reflexivity|done]. }
  apply Z.eqb_eq in H. rewrite <- H. apply rd_byte_at. cbn. lia.
Qed.

Lemma digit_round d : 0 <= d < 16 -> digit_value (hex_digit d) = d /\ u8 (hex_digit d) = hex_digit d.
Proof.
  intros Hd. unfold digit_value, hex_digit. destruct (Z.ltb_spec d 10).
  - destruct (Z.ltb_spec (48 + d) 58); [|lia]. rewrite u8_id; lia.
  - destruct (Z.ltb_spec (55 + d) 58); [lia|]. rewrite u8_id; lia.
Qed.

Lemma hex_send_spec k v e : 0 <= v ->
  exists e' l, hex_loop k fuel v e = Ok e' /\ sent e' = sent e ++ l /\ length l = k /\
    forall a, fold_left (fun v c => 16 * v + digit_value c) l a = a * 16 ^ Z.of_nat k + v mod 16 ^ Z.of_nat k.
Proof.
  intros Hv. revert e. induction k as [|i IH]; intros e; cbn [hex_loop].
  { exists e, []. rewrite app_nil_r. split; [done|]. split; [done|]. split; [done|]. intros a. cbn [fold_left].
    change (16 ^ Z.of_nat 0) with 1. rewrite Z.mod_1_r. lia. }
  set (d := Z.land (Z.shiftr v (Z.of_nat i * 4)) 0xF).
  assert (Hd : d = v / 16 ^ Z.of_nat i mod 16).
  { unfold d. change 0xF with (Z.ones 4). rewrite Z.land_ones, Z.shiftr_div_pow2 by lia.
    rewrite (Z.mul_comm (Z.of_nat i)), Z.pow_mul_r by lia. done. }
  assert (Hd16 : 0 <= d < 16) by (rewrite Hd; apply Z.mod_pos_bound; lia).
  rewrite rd_hex by done. cbn [ub mbind res_bind].
  destruct (serial_putc_spec (hex_digit d) e) as (e1 & -> & H1). cbn [mbind res_bind].
  destruct (IH e1) as (e2 & l & -> & H2 & Hl & Hval). destruct (digit_round d Hd16) as [Hr1 Hr2].
  exists e2, (hex_digit d :: l). split; [done|]. split; [rewrite H2, H1, Hr2, <- app_assoc; done|].
  split; [cbn; lia|]. intros a. cbn [fold_left]. rewrite Hval, Hr1, Hd.
  rewrite Nat2Z.inj_succ, Z.pow_succ_r by lia. set (p := 16 ^ Z.of_nat i).
  assert (Hp : 0 < p) by (apply Z.pow_pos_nonneg; lia).
  rewrite (Z.mul_comm 16 p), Z.rem_mul_r by lia. nia.
Qed.

(** [serial_write_hex64] sends [0x] and sixteen digits that read back as the number. *)
Theorem serial_write_hex64_correct v e : 0 <= v < 2 ^ 64 ->
  exists e' l, serial_write_hex64 fuel v e = Ok e' /\ sent e' = sent e ++ chars "0x" ++ l /\
    length l = 16%nat /\ hex_value l = v.
Proof.
  intros Hv. unfold serial_write_hex64.
  destruct (serial_write_sends (lit "0x") (chars "0x") e) as (e1 & -> & H1);
    [by apply cstr_text|by apply bytes_okb_spec|]. cbn [mbind res_bind].
  destruct (hex_send_spec 16 v e1) as (e2 & l & -> & H2 & Hl & Hval); [lia|].
  exists e2, l. split; [done|]. split; [by rewrite H2, H1, <- app_assoc|]. split; [done|].
  unfold hex_value. rewrite Hval. change (16 ^ Z.of_nat 16) with (2 ^ 64). rewrite Z.mod_small by done. lia.
Qed.
End line.

(** ** A line that is busy every other time *)

Module Bench.
Record line := mk_line { out : bytes; busy : bool }.
#[export] Instance bench_io : DeviceIO line := {|
  outb p v e := if p =? COM1 then mk_line (out e ++ [v]) true else e;
  inb p e := if busy e then (0, mk_line (out e) false) else (0x20, e);
  outw _ _ e := e; inw _ e := (0, e); mmio_read _ e := (0, e); mmio_write _ _ e := e
|}.
#[export] Instance bench_line : SerialLine line.
Proof.
  refine {| sent := out; patience e := if busy e then 1%nat else 0%nat; line_bound := 2 |}.
  - intros [o []]; cbn; split; try done; lia.
  - done.
  - intros [o []]; cbn; lia.
Defined.

Example sixteen_digits :
  serial_write_hex64 2 0xdeadbeef (mk_line [] true) = Ok (mk_line (chars "0x00000000DEADBEEF") true).
Proof. vm_compute. reflexivity. Qed.

Lemma serial_write_hex64_correct_witness :
  exists e' l, serial_write_hex64 2 255 (mk_line [] true) = Ok e' /\ out e' = [] ++ chars "0x" ++ l /\
    length l = 16%nat /\ hex_value l = 255.
Proof.
  apply (serial_write_hex64_correct (SerialLine0 := bench_line) 2 (le_n 2) 255 (mk_line [] true)). split; [discriminate|reflexivity].
Defined.

Lemma serial_write_sends_witness :
  exists e', serial_write 2 (Ptr (lit "Orion")) (mk_line [] false) = Ok e' /\ out e' = [] ++ chars "Orion".
Proof.
  apply (serial_write_sends (SerialLine0 := bench_line) 2 (le_n 2) (lit "Orion") (chars "Orion") (mk_line [] false)).
  - by apply cstr_text.
  - by apply bytes_okb_spec.
Defined.
End Bench.
