(* ===== verification/Netdev.v ===== *)
(** * kernel/netdev.c: the choice of an adapter

    The four drivers behind one interface.  A callback gets a frame and the state of
    its owner [X]; all drivers live in one machine, whose environment [E] is the
    hardware. *)

From S2P Require Import Prelude NetEnv Cstr HttpSafe Pci NetHw Serial.
From S2P Require E1000 Pcnet Rtl8139 Virtio.

(** ** The machine *)

Record machine (E : Type) := mk_machine {
  m_rtl : Rtl8139.rtl8139; m_pcnet : Pcnet.pcnet; m_e1000 : E1000.e1000; m_virtio : Virtio.virtio;
  hw : E
}.
Arguments mk_machine {E} _ _ _ _ _.
Arguments m_rtl {E} _.
Arguments m_pcnet {E} _.
Arguments m_e1000 {E} _.
Arguments m_virtio {E} _.
Arguments hw {E} _.

(** include/netdev_internal.h *)
Record NetDriver (M X : Type) := mk_driver {
  name : bytes;
  get_name : option (M -> bytes);
  probe_init : bytes -> M -> option (Z * bytes * M);
  drv_tx : bytes -> Z -> M -> option (Z * M);
  drv_poll : (bytes -> M * X -> res (M * X)) -> M * X -> res (M * X)
}.
Arguments name {M X} _.
Arguments get_name {M X} _.
Arguments probe_init {M X} _ _ _.
Arguments drv_tx {M X} _ _ _ _.
Arguments drv_poll {M X} _ _ _.

Section dispatch.
Context {M X : Type} (serial_write : bytes -> M -> res M).
Context (drivers : list (NetDriver M X)).
Implicit Types (active : option (NetDriver M X)).

Definition active_name active (m : M) : bytes :=
  match active with
  | None => lit "none"
  | Some a => match get_name a with Some f => f m | None => name a end
  end.

(** [for(unsigned i=0;i<sizeof(drivers)/sizeof(drivers[0]);i++)] *)
Fixpoint init_loop (l : list (NetDriver M X)) (mac : bytes) (m : M) : res (Z * bytes * option (NetDriver M X) * M) :=
  match l with
  | [] => m ← serial_write ((chars "NETDEV: no supported adapter found" ++ [CR; LF]) ++ [0]) m; Ok (0, mac, None, m)
  | a :: l' =>
      '(ok, mac, m) ← ub (probe_init a mac m);
      if negb (ok =? 0) then
        m ← serial_write (lit "NETDEV: ") m;
        m ← serial_write (active_name (Some a) m) m;
        m ← serial_write ((chars " selected" ++ [CR; LF]) ++ [0]) m;
        Ok (1, mac, Some a, m)
      else init_loop l' mac m
  end.

(** The result, the address, the driver selected. *)
Definition netdev_init (mac : bytes) (m : M) : res (Z * bytes * option (NetDriver M X) * M) :=
  init_loop drivers mac m.

Definition netdev_tx active (p : bytes) (n : Z) (m : M) : option (Z * M) :=
  match active with Some a => drv_tx a p n m | None => Some (0, m) end.

Definition netdev_poll active (f : bytes -> M * X -> res (M * X)) (w : M * X) : res (M * X) :=
  match active with Some a => drv_poll a f w | None => Ok w end.

Definition netdev_name active (m : M) : bytes := active_name active m.
End dispatch.

(** ** The four drivers of the machine *)

Section machine.
Context {E : Type} `{!PortIO E, !DeviceIO E}.
Context `{!Dma bytes E, !Dma Pcnet.shared E, !Dma E1000.shared E, !Dma Virtio.shared E}.
Context {X : Type}.

Implicit Types (m : machine E).

Definition put_rtl (d : Rtl8139.rtl8139) (e : E) m : machine E := mk_machine d (m_pcnet m) (m_e1000 m) (m_virtio m) e.
Definition put_pcnet (d : Pcnet.pcnet) (e : E) m : machine E := mk_machine (m_rtl m) d (m_e1000 m) (m_virtio m) e.
Definition put_e1000 (d : E1000.e1000) (e : E) m : machine E := mk_machine (m_rtl m) (m_pcnet m) d (m_virtio m) e.
Definition put_virtio (d : Virtio.virtio) (e : E) m : machine E := mk_machine (m_rtl m) (m_pcnet m) (m_e1000 m) d e.

(** A driver [D] as a part of the machine. *)
Section part.
Context {D : Type} (get : machine E -> D) (put : D -> E -> machine E -> machine E).

Definition part_init (init : D -> E -> option (Z * bytes * D * E)) m : option (Z * bytes * machine E) :=
  '(ok, mac, d, e) ← init (get m) (hw m); Some (ok, mac, put d e m).
Definition part_tx (tx : D -> E -> option (Z * D * E)) m : option (Z * machine E) :=
  '(r, d, e) ← tx (get m) (hw m); Some (r, put d e m).
(** The callback of the driver gives the whole machine to the owner's. *)
Definition part_cb (f : bytes -> machine E * X -> res (machine E * X)) (fr : bytes) (w : D * (machine E * X) * E)
  : res (D * (machine E * X) * E) :=
  let '(d, (m, x), e) := w in
  '(m, x) ← f fr (put d e m, x); Ok (get m, (m, x), hw m).
Definition part_poll (poll : (bytes -> D * (machine E * X) * E -> res (D * (machine E * X) * E)) ->
    D * (machine E * X) * E -> res (D * (machine E * X) * E))
    (f : bytes -> machine E * X -> res (machine E * X)) (w : machine E * X) : res (machine E * X) :=
  let '(m, x) := w in
  '(d, (m, x), e) ← poll (part_cb f) (get m, (m, x), hw m); Ok (put d e m, x).
End part.

(** Uninitialised locals, the addresses of the static arrays, the fuel of the
    receive loop of the last driver. *)
Context (p : PciDevice) (stack : Z -> bytes) (at_ : Z -> Z) (fuel : nat).

Definition rtl8139_driver : NetDriver (machine E) X :=
  mk_driver _ _ (lit "RTL8139") None
    (fun mac => part_init m_rtl put_rtl (Rtl8139.init (at_ 0) p mac))
    (fun data n => part_tx m_rtl put_rtl (Rtl8139.tx (at_ 1) data n))
    (part_poll m_rtl put_rtl (fun cb => Rtl8139.poll cb stack)).

Definition pcnet_driver : NetDriver (machine E) X :=
  mk_driver _ _ (lit "AMD PCnet-PCI II / PCnet-FAST III") None
    (fun mac => part_init m_pcnet put_pcnet (Pcnet.init (at_ 2) (at_ 3) (at_ 4) (at_ 5) p mac))
    (fun data n => part_tx m_pcnet put_pcnet (Pcnet.tx (at_ 6) data n))
    (part_poll m_pcnet put_pcnet (fun cb => Pcnet.poll cb)).

Definition e1000_driver : NetDriver (machine E) X :=
  mk_driver _ _ (lit "Intel e1000/e1000e") (Some (fun m => E1000.model (m_e1000 m)))
    (fun mac => part_init m_e1000 put_e1000 (E1000.init (at_ 7) (at_ 8) (at_ 9) p mac))
    (fun data n => part_tx m_e1000 put_e1000 (E1000.tx (at_ 10) data n))
    (part_poll m_e1000 put_e1000 (fun cb => E1000.poll cb)).

Definition virtio_net_driver : NetDriver (machine E) X :=
  mk_driver _ _ (lit "Paravirtualized Network (virtio-net legacy)") None
    (fun mac => part_init m_virtio put_virtio (Virtio.init (at_ 11) (at_ 12) (at_ 13) (at_ 14) p mac))
    (fun data n => part_tx m_virtio put_virtio (Virtio.tx (at_ 14) data n))
    (part_poll m_virtio put_virtio (fun cb => Virtio.poll cb fuel)).

Definition drivers : list (NetDriver (machine E) X) :=
  [rtl8139_driver; pcnet_driver; e1000_driver; virtio_net_driver].
End machine.

(** ** What every driver promises *)

Definition machine_ok {E} (m : machine E) : Prop :=
  Rtl8139.driver_ok (m_rtl m) /\ Pcnet.driver_ok (m_pcnet m) /\ E1000.driver_ok (m_e1000 m) /\ Virtio.driver_ok (m_virtio m).

(** No driver is up yet. *)
Definition cold {E} (m : machine E) : Prop :=
  Pcnet.up (m_pcnet m) = 0 /\ E1000.up (m_e1000 m) = 0 /\ Virtio.up (m_virtio m) = 0.

(** A callback that works inside its own state, leaves the machine in order and
    stops no driver. *)
Definition owner_ok {E X} (J : X -> Prop) (f : bytes -> machine E * X -> res (machine E * X)) : Prop :=
  forall fr m x, handed 0 2048 fr -> machine_ok m -> J x ->
    safe True (f fr (m, x)) (fun '(m', x') => machine_ok m' /\ Virtio.up (m_virtio m') = Virtio.up (m_virtio m) /\ J x').

(** The interface: [room] is what sending needs. *)
Class DriverLaws {E X} (a : NetDriver (machine E) X) (room : machine E -> Prop) : Prop := {
  law_probe mac m : machine_ok m -> cold m -> len mac = 6 ->
    returns (probe_init a mac m) (fun '(ok, mac', m') => machine_ok m' /\ len mac' = 6 /\ (ok = 0 -> cold m') /\
      (ok <> 0 -> exists t, cstr (active_name (Some a) m') 0 t));
  law_tx data n m : machine_ok m -> room m -> bytes_ok data -> n <= len data ->
    returns (drv_tx a data n m) (fun '(_, m') => machine_ok m');
  law_poll J f m x : owner_ok J f -> machine_ok m -> J x ->
    safe True (drv_poll a f (m, x)) (fun '(m', x') => machine_ok m' /\ J x')
}.

Section laws.
Context {E : Type} `{!PortIO E, !DeviceIO E}.
Context `{!Dma bytes E, !Dma Pcnet.shared E, !Dma E1000.shared E, !Dma Virtio.shared E}.
Context `{!DmaShape bytes E Rtl8139.rxbuf_ok, !DmaShape Pcnet.shared E Pcnet.shared_ok,
          !DmaShape E1000.shared E E1000.shared_ok, !DmaShape Virtio.shared E Virtio.shared_ok}.
Context {X : Type} (p : PciDevice) (stack : Z -> bytes) (at_ : Z -> Z) (fuel : nat).
Hypothesis Hstack : len (stack 1600) = 1600 /\ bytes_ok (stack 1600).

Lemma handed_wider lo hi lo' hi' f : handed lo hi f -> lo' <= lo -> hi <= hi' -> handed lo' hi' f.
Proof. intros [H1 H2] ? ?. split; [done|lia]. Qed.

(** The poll of a part, from the poll of its driver. *)
Lemma part_poll_ok {D} (get : machine E -> D) (put : D -> E -> machine E -> machine E) poll (ok : D -> Prop) J
    (f : bytes -> machine E * X -> res (machine E * X)) m x :
  (forall d e m, machine_ok m -> ok d -> machine_ok (put d e m)) ->
  safe True (poll (part_cb get put f) (get m, (m, x), hw m)) (fun '(d, w, _) => ok d /\ machine_ok w.1 /\ J w.2) ->
  safe True (part_poll get put poll f (m, x)) (fun '(m', x') => machine_ok m' /\ J x').
Proof.
  intros Hput Hp. unfold part_poll. eapply safe_bind; [exact Hp|].
  intros [[d [m' x']] e] (H1 & H2 & H3). split; [by apply Hput|done].
Qed.

#[export] Instance rtl8139_laws : DriverLaws (rtl8139_driver (X := X) p stack at_) (fun m => Rtl8139.txcur (m_rtl m) < 2147483647).
Proof.
  split.
  - intros mac m (H1 & H2 & H3 & H4) Hc Hm. cbn [probe_init rtl8139_driver]. unfold part_init.
    eapply returns_bind; [by apply Rtl8139.rtl8139_init_safe|]. intros [[[ok mac'] d'] e'] (Hd & Hl & _).
    eexists. split; [reflexivity|]. split; [by split|]. split; [done|]. split; [done|].
    intros _. eexists. by apply cstr_text.
  - intros data n m (H1 & H2 & H3 & H4) Hr Hb Hn. cbn [drv_tx rtl8139_driver]. unfold part_tx.
    destruct (Rtl8139.rtl8139_tx_correct (at_ 1) data n (m_rtl m) (hw m) H1 Hn Hr) as (r & d' & e' & -> & Hd & _).
    rewrite bind_some. eexists. split; [reflexivity|]. by split.
  - intros J f m x Hf Hm Hx. cbn [drv_poll rtl8139_driver]. apply (part_poll_ok _ _ _ Rtl8139.driver_ok).
    { intros d e m' (H1 & H2 & H3) Hd. by split. }
    apply (Rtl8139.rtl8139_poll_safe True (fun w : machine E * X => machine_ok w.1 /\ J w.2)); [|done|apply Hm|done].
    intros fr d [m1 x1] e Hfr Hd [Hm1 Hx1]. cbn [fst snd] in *. unfold part_cb.
    eapply safe_bind; [apply Hf; [eapply handed_wider; [exact Hfr|lia|lia]| |exact Hx1]|].
    { destruct Hm1 as (_ & H). by split. }
    intros [m2 x2] (H1 & _ & H2). split; [apply H1|done].
Qed.

#[export] Instance pcnet_laws : DriverLaws (pcnet_driver (X := X) p at_) (fun _ => True).
Proof.
  split.
  - intros mac m (H1 & H2 & H3 & H4) (Hc1 & Hc2 & Hc3) Hm. cbn [probe_init pcnet_driver]. unfold part_init.
    eapply returns_bind; [by apply Pcnet.pcnet_init_safe|]. intros [[[ok mac'] d'] e'] (Hd & Hl & Hr).
    eexists. split; [reflexivity|]. split; [by split|]. split; [done|].
    split; [intros ->; destruct Hr as [[_ Hr]|[Hr _]]; [by split|discriminate]|].
    intros _. eexists. by apply cstr_text.
  - intros data n m (H1 & H2 & H3 & H4) _ Hb Hn. cbn [drv_tx pcnet_driver]. unfold part_tx.
    destruct (Pcnet.pcnet_tx_correct (at_ 6) data n (m_pcnet m) (hw m) H2 Hb Hn) as (r & d' & e' & -> & Hd & _).
    rewrite bind_some. eexists. split; [reflexivity|]. by split.
  - intros J f m x Hf Hm Hx. cbn [drv_poll pcnet_driver]. apply (part_poll_ok _ _ _ Pcnet.driver_ok).
    { intros d e m' (H1 & H2 & H3) Hd. by split. }
    apply (Pcnet.pcnet_poll_safe True (fun w : machine E * X => machine_ok w.1 /\ J w.2)); [|apply Hm|done].
    intros fr d [m1 x1] e Hfr Hd [Hm1 Hx1]. cbn [fst snd] in *. unfold part_cb.
    eapply safe_bind; [apply Hf; [eapply handed_wider; [exact Hfr|lia|done]| |exact Hx1]|].
    { destruct Hm1 as (? & _ & ?). by split. }
    intros [m2 x2] (H1 & _ & H2). split; [apply H1|done].
Qed.

#[export] Instance e1000_laws : DriverLaws (e1000_driver (X := X) p at_) (fun _ => True).
Proof.
  split.
  - intros mac m (H1 & H2 & H3 & H4) (Hc1 & Hc2 & Hc3) Hm. cbn [probe_init e1000_driver]. unfold part_init.
    eapply returns_bind; [by apply E1000.e1000_init_safe|]. intros [[[ok mac'] d'] e'] (Hd & Hl & Hr).
    eexists. split; [reflexivity|]. split; [by split|]. split; [done|].
    split; [intros ->; destruct Hr as [(_ & Hr & _)|[Hr _]]; [by split|discriminate]|].
    intros Hok. destruct Hr as [[Hr _]|(_ & _ & _ & _ & _ & Hr)]; [done|].
    cbn [active_name get_name e1000_driver m_e1000 put_e1000].
    by destruct Hr as [<-|[<-|[<-|[<-|[<-|[]]]]]]; eexists; apply cstr_text.
  - intros data n m (H1 & H2 & H3 & H4) _ Hb Hn. cbn [drv_tx e1000_driver]. unfold part_tx.
    destruct (E1000.e1000_tx_correct (at_ 10) data n (m_e1000 m) (hw m) H3 Hb Hn) as (r & d' & e' & -> & Hd & _).
    rewrite bind_some. eexists. split; [reflexivity|]. by split.
  - intros J f m x Hf Hm Hx. cbn [drv_poll e1000_driver]. apply (part_poll_ok _ _ _ E1000.driver_ok).
    { intros d e m' (H1 & H2 & H3 & H4) Hd. by split. }
    apply (E1000.e1000_poll_safe True (fun w : machine E * X => machine_ok w.1 /\ J w.2)); [|apply Hm|done].
    intros fr d [m1 x1] e Hfr Hd [Hm1 Hx1]. cbn [fst snd] in *. unfold part_cb.
    eapply safe_bind; [apply Hf; [eapply handed_wider; [exact Hfr|lia|done]| |exact Hx1]|].
    { destruct Hm1 as (? & ? & _ & ?). by split. }
    intros [m2 x2] (H1 & _ & H2). split; [apply H1|done].
Qed.

#[export] Instance virtio_laws : DriverLaws (virtio_net_driver (X := X) p at_ fuel) (fun _ => True).
Proof.
  split.
  - intros mac m (H1 & H2 & H3 & H4) (Hc1 & Hc2 & Hc3) Hm. cbn [probe_init virtio_net_driver]. unfold part_init.
    eapply returns_bind; [by apply Virtio.virtio_init_safe|]. intros [[[ok mac'] d'] e'] (Hd & Hl & Hr).
    eexists. split; [reflexivity|]. split; [by split|]. split; [done|].
    split; [intros ->; destruct Hr as [[_ Hr]|[Hr _]]; [by split|discriminate]|].
    intros _. eexists. by apply cstr_text.
  - intros data n m (H1 & H2 & H3 & H4) _ Hb Hn. cbn [drv_tx virtio_net_driver]. unfold part_tx.
    eapply returns_bind; [by apply Virtio.virtio_tx_safe|]. intros [[r d'] e'] (Hd & _).
    eexists. split; [reflexivity|]. by split.
  - intros J f m x Hf Hm Hx. cbn [drv_poll virtio_net_driver]. apply (part_poll_ok _ _ _ Virtio.driver_ok).
    { intros d e m' (H1 & H2 & H3 & H4) Hd. by split. }
    apply (Virtio.virtio_poll_safe (fun w : machine E * X => machine_ok w.1 /\ J w.2)); [|apply Hm|done].
    intros fr d [m1 x1] e Hfr Hd Hu [Hm1 Hx1]. cbn [fst snd] in *. unfold part_cb.
    eapply safe_bind; [apply Hf; [eapply handed_wider; [exact Hfr|lia|done]| |exact Hx1]|].
    { destruct Hm1 as (? & ? & ? & _). by split. }
    intros [m2 x2] (H1 & Hup & H2). split; [apply H1|]. split; [|done]. by rewrite Hup.
Qed.
End laws.

(** ** The interface of the network code *)

(** Text on the serial line of the machine. *)
Definition machine_log {E} `{!DeviceIO E} (fuel : nat) (s : bytes) (m : machine E) : res (machine E) :=
  e ← serial_write fuel (Ptr s) (hw m); Ok (mk_machine (m_rtl m) (m_pcnet m) (m_e1000 m) (m_virtio m) e).

Section interface.
Context {E : Type} `{!PortIO E, !DeviceIO E}.
Context `{!Dma bytes E, !Dma Pcnet.shared E, !Dma E1000.shared E, !Dma Virtio.shared E}.
Context `{!DmaShape bytes E Rtl8139.rxbuf_ok, !DmaShape Pcnet.shared E Pcnet.shared_ok,
          !DmaShape E1000.shared E E1000.shared_ok, !DmaShape Virtio.shared E Virtio.shared_ok}.
Context {X : Type} (p : PciDevice) (stack : Z -> bytes) (at_ : Z -> Z) (fuel : nat).
Hypothesis Hstack : len (stack 1600) = 1600 /\ bytes_ok (stack 1600).

Definition all_drivers : list (NetDriver (machine E) X) := drivers p stack at_ fuel.

(** A property that holds of the four drivers holds of the one selected. *)
Lemma driver_cases (a : NetDriver (machine E) X) : In a all_drivers -> exists room, DriverLaws a room.
Proof.
  intros [<-|[<-|[<-|[<-|[]]]]]; eexists;
    [by apply rtl8139_laws|by apply pcnet_laws|by apply e1000_laws|by apply virtio_laws].
Qed.

Lemma write_loop_ends k f s i t (e : E) : cstr s i t -> safe True (write_loop k f s i e) (fun _ => True).
Proof.
  revert i t e. induction k as [|k IH]; intros i t e Hs; cbn [write_loop]; [done|].
  rewrite (cstr_rd _ _ _ Hs). cbn [ub mbind res_bind]. destruct t as [|c t]; cbn [head0]; [done|].
  apply cstr_char_inv in Hs as (_ & Hc & Hs). replace (c =? 0) with false by (symmetry; by apply Z.eqb_neq).
  apply (safe_bind _ _ _ (fun _ => True)); [|intros e' _; by apply (IH _ t)].
  unfold serial_putc. apply (safe_bind _ _ _ (fun _ => True)); [|done].
  clear IH. revert e. induction f as [|f IHf]; intros e; cbn [tx_wait]; [done|].
  destruct (inb _ e) as [v e']. case_if; [apply IHf|done].
Qed.

Lemma machine_log_ok s t (m : machine E) : cstr s 0 t -> machine_ok m ->
  safe True (machine_log fuel s m) (fun m' => machine_ok m' /\ m_e1000 m' = m_e1000 m).
Proof.
  intros Hs Hm. unfold machine_log. apply (safe_bind _ _ _ (fun _ => True)); [by apply (write_loop_ends _ _ _ _ t)|].
  intros e _. by split.
Qed.

Definition selected (r : Z * bytes * option (NetDriver (machine E) X) * machine E) : Prop :=
  let '(ok, mac', active, m') := r in
  machine_ok m' /\ len mac' = 6 /\
  match active with None => ok = 0 | Some a => ok = 1 /\ In a all_drivers end.

(** Selection is safe on every machine; it reports success exactly with one of the
    four drivers selected. *)
Theorem netdev_init_safe mac (m : machine E) :
  machine_ok m -> cold m -> len mac = 6 ->
  safe True (netdev_init (machine_log fuel) all_drivers mac m) selected.
Proof.
  intros Hm Hc Hl. unfold netdev_init.
  assert (H : forall l, incl l all_drivers -> forall mac m, machine_ok m -> cold m -> len mac = 6 ->
    safe True (init_loop (machine_log fuel) l mac m) selected); [|apply H; [apply incl_refl|done..]].
  clear mac m Hm Hc Hl. intros l. induction l as [|a l IH]; intros Hin mac m Hm Hc Hl; cbn [init_loop].
  - eapply safe_bind; [eapply machine_log_ok; [by apply cstr_text|done]|]. intros m' [Hm' _]. done.
  - assert (Ha : In a all_drivers) by (apply Hin; by left). destruct (driver_cases a Ha) as [room Hlaw].
    eapply safe_bind; [by apply safe_ub, law_probe|]. intros [[ok mac'] m1] (Hm1 & Hl1 & Hc1 & Hn1).
    case_if; [|apply IH; [intros b Hb; apply Hin; by right|done|by apply Hc1|done]].
    destruct (Hn1 E0) as [t Ht].
    eapply safe_bind; [eapply machine_log_ok; [by apply cstr_text|done]|]. intros m2 [Hm2 He2].
    eapply safe_bind; [eapply machine_log_ok; [|exact Hm2]|].
    { replace (active_name (Some a) m2) with (active_name (Some a) m1); [exact Ht|].
      destruct Ha as [<-|[<-|[<-|[<-|[]]]]]; cbn; congruence. }
    intros m3 [Hm3 _].
    eapply safe_bind; [eapply machine_log_ok; [by apply cstr_text|done]|]. intros m4 [Hm4 _]. done.
Qed.

Lemma netdev_poll_ok J active f (m : machine E) x :
  match active with None => True | Some a => In a all_drivers end ->
  owner_ok J f -> machine_ok m -> J x ->
  safe True (netdev_poll active f (m, x)) (fun '(m', x') => machine_ok m' /\ J x').
Proof.
  intros Ha Hf Hm Hx. destruct active as [a|]; [|done]. destruct (driver_cases a Ha) as [room Hlaw].
  by apply law_poll.
Qed.
End interface.

(** C8. What the network code relies on: with any of the four adapters, whatever that
    adapter does with the memory it shares, a poll touches no memory outside the
    driver's arrays, and every frame it delivers is a list of bytes of at most 2048. *)
Theorem netdev_poll_frames {E} `{!PortIO E, !DeviceIO E, !Dma bytes E, !Dma Pcnet.shared E, !Dma E1000.shared E,
    !Dma Virtio.shared E, !DmaShape bytes E Rtl8139.rxbuf_ok, !DmaShape Pcnet.shared E Pcnet.shared_ok,
    !DmaShape E1000.shared E E1000.shared_ok, !DmaShape Virtio.shared E Virtio.shared_ok}
    p stack at_ fuel active (m : machine E) fs :
  len (stack 1600) = 1600 /\ bytes_ok (stack 1600) ->
  match active with None => True | Some a => In a (drivers p stack at_ fuel) end ->
  machine_ok m -> Forall (handed 0 2048) fs ->
  safe True (netdev_poll active (fun f '(m, x) => Ok (m, x ++ [f])) (m, fs))
    (fun '(m', fs') => machine_ok m' /\ Forall (handed 0 2048) fs').
Proof.
  intros Hst Ha Hm Hfs. eapply netdev_poll_ok; [exact Hst|exact Ha| |exact Hm|exact Hfs].
  intros fr m0 x Hfr Hm0 Hx. split; [done|]. split; [done|]. apply Forall_app. split; [done|by constructor].
Qed.

(** ** A machine with an idle card of each kind *)

Module Bench.
Definition log : Type := list (Z * Z).
#[export] Instance bench_dma M : Dma M log := {| dma m e := (m, e) |}.
#[export] Instance bench_io : DeviceIO log := {|
  outb p v e := e; inb _ e := (0x20, e); outw p v e := (p, v) :: e; inw _ e := (0, e);
  mmio_read _ e := (0, e); mmio_write o v e := (o, v) :: e
|}.
#[export] Instance bench_ports : PortIO log := {| outl p v e := e; inl _ e := (0xffffffff, e) |}.
#[export] Instance bench_shape M (ok : M -> Prop) : DmaShape M log ok.
Proof. split. intros m e H. exact H. Qed.

Definition stack (n : Z) : bytes := replicate (Z.to_nat n) 0.
Definition pci0 : PciDevice := mk_pci 0 0 0 0 0 0 0 0 0.
Definition at0 (i : Z) : Z := 0x100000 * (i + 1).

(** The e1000 card has two frames of 60 bytes. *)
Definition two_frames : E1000.e1000 :=
  E1000.set_rx (replicate 2 (E1000.mk_rxd 0 60 0 3 0 0) ++ replicate 30 E1000.rxd0) (E1000.Bench.idle 1).
Definition bench (d : E1000.e1000) : machine log :=
  mk_machine (Rtl8139.Bench.at_end Rtl8139.Bench.ring_layout) (Pcnet.Bench.idle 0) d (Virtio.Bench.host Virtio.Bench.ring0) [].

Lemma two_frames_ok : E1000.driver_ok two_frames.
Proof. destruct (E1000.Bench.idle_ok 1) as ((_ & H) & Hi). split; [split; [reflexivity|exact H]|exact Hi]. Qed.

Lemma bench_ok d : E1000.driver_ok d -> machine_ok (bench d).
Proof.
  intros Hd. split; [apply Rtl8139.Bench.at_end_ok, Rtl8139.Bench.ring_layout_ok|].
  split; [apply Pcnet.Bench.idle_card_ok|]. split; [exact Hd|apply Virtio.Bench.host_ok, Virtio.Bench.ring0_ok].
Qed.

Abbreviation e1000 := (e1000_driver pci0 at0).

Example both_delivered :
  match netdev_poll (Some e1000) (fun f '(m, x) => Ok (m, x ++ [f])) (bench two_frames, []) with
  | Ok (m, x) => Some (x, hw m)
  | _ => None
  end = Some (replicate 2 (replicate 60 0), [(0x2818, 1); (0x2818, 0)]).
Proof. vm_compute. reflexivity. Qed.

Lemma netdev_poll_frames_witness :
  safe True (netdev_poll (Some e1000) (fun f '(m, x) => Ok (m, x ++ [f])) (bench two_frames, []))
    (fun '(m', fs') => machine_ok m' /\ Forall (handed 0 2048) fs').
Proof.
  apply (netdev_poll_frames pci0 stack at0 0 (Some e1000)).
  - split; [reflexivity|by apply bytes_ok_replicate].
  - right; right; left; reflexivity.
  - apply bench_ok, two_frames_ok.
  - constructor.
Defined.

(** Nothing on the bus answers: no driver is selected. *)
Definition cold_machine : machine log :=
  mk_machine (Rtl8139.Bench.at_end Rtl8139.Bench.ring_layout) (Pcnet.Bench.idle 0) (E1000.Bench.idle 0)
    (Virtio.set_up 0 (Virtio.Bench.host Virtio.Bench.ring0)) [].

Lemma cold_ok : machine_ok cold_machine.
Proof.
  destruct (bench_ok (E1000.Bench.idle 0) (E1000.Bench.idle_ok 0)) as (H1 & H2 & H3 & H4 & _).
  split; [exact H1|]. split; [exact H2|]. split; [exact H3|]. split; [exact H4|]. intros H. by destruct H.
Qed.

Lemma netdev_init_safe_witness :
  safe True (netdev_init (X := unit) (machine_log 1) (all_drivers pci0 stack at0 1) (replicate 6 0) cold_machine)
    (selected pci0 stack at0 1).
Proof.
  apply netdev_init_safe.
  - split; [reflexivity|by apply bytes_ok_replicate].
  - apply cold_ok.
  - by repeat split.
  - reflexivity.
Defined.
End Bench.
