(* ===== verification/VelaText.v ===== *)
(** * Texts and addresses of the browser (kernel/vela.c, lines 20-29)

    A character array of the browser is the text it holds, the characters before
    its terminator; [fits cap] is the shape of the text of an array of [cap]
    characters.  The bounded copies [cp] and [cat] are given twice, on buffers as
    the source has them and on texts, and [cp_buffer], [cat_buffer] relate the two.
    A cursor in a text is the rest of the text: [[]] stands on the terminator. *)

From S2P Require Import Prelude Cstr Uri.

(** Characters compared with. *)
Abbreviation BACKSLASH := 92.
Abbreviation EQUALS := 61.
Abbreviation PAREN := 40.

Definition fits (cap : Z) (t : bytes) : Prop := Forall (fun c => c <> 0) t /\ len t < cap.

(** The text of an array whose first characters are [l]. *)
Fixpoint text_of (l : bytes) : bytes :=
  match l with [] => [] | c :: l' => if c =? 0 then [] else c :: text_of l' end.

(** ** Bounded copies *)

(** [while(i<c&&d[i])i++;] *)
Fixpoint cat_scan (fuel : nat) (d : bytes) (c i : Z) : option Z :=
  match fuel with
  | O => None
  | S f =>
      if i <? c then v ← rd d i; if v =? 0 then Some i else cat_scan f d c (i + 1)
      else Some i
  end.

(** [while(s&&*s&&i+1<c)d[i++]=*s++;] *)
Fixpoint cat_loop (fuel : nat) (d : bytes) (c i : Z) (s : bytes) (j : Z) : option (bytes * Z) :=
  match fuel with
  | O => None
  | S f =>
      v ← rd s j;
      if negb (v =? 0) && (i + 1 <? c) then
        d ← wr d i v; cat_loop f d c (i + 1) s (j + 1)
      else Some (d, i)
  end.

Definition cat_array (d : bytes) (c : Z) (s : ptr bytes) : option bytes :=
  i ← cat_scan (S (Z.to_nat c)) d c 0;
  '(d, i) ← match s with
            | Null => Some (d, i)
            | Ptr s => cat_loop (S (Z.to_nat c)) d c i s 0
            end;
  if i <? c then wr d i 0 else Some d.

(** The texts they leave. *)
Definition cp (cap : Z) (s : bytes) : bytes := fit cap s.
Definition cat (cap : Z) (d s : bytes) : bytes := fit cap (d ++ s).

(** ** Comparison *)

Definition low (c : Z) : Z := lower_ascii c.

(** [ci]: does [s] begin with [p], whatever the case? *)
Fixpoint ci (s p : bytes) {struct p} : bool :=
  match p with
  | [] => true
  | y :: p' =>
      match s with
      | [] => false
      | x :: s' => if low x =? low y then ci s' p' else false
      end
  end.

Fixpoint find_loop (s n : bytes) : option bytes :=
  match s with
  | [] => None
  | _ :: s' => if ci s n then Some s else find_loop s' n
  end.

Definition findci (s n : bytes) : option bytes :=
  match n with [] => Some s | _ => find_loop s n end.

(** [while ( *p&&*p!=c)p++;] *)
Fixpoint until (c : Z) (p : bytes) : bytes :=
  match p with
  | [] => []
  | x :: p' => if x =? c then p else until c p'
  end.

(** [while ( *u==' '||*u=='\t')u++;] *)
Fixpoint skip_blank (u : bytes) : bytes :=
  match u with
  | [] => []
  | x :: u' => if (x =? SP) || (x =? HT) then skip_blank u' else u
  end.

(** ** Addresses *)

(** What is made of an address: the address, if any, and the status line.  [tls]:
    [g_platform_ready&&(g_platform.capabilities&VELA_PLATFORM_CAP_TLS)]. *)
Definition canon (tls : bool) (u : bytes) (cap : Z) (status : bytes) : option bytes * bytes :=
  if cap <? 9 then (None, status)
  else
    let u := skip_blank u in
    match u with
    | [] => (None, cp 160 (chars "Enter an HTTP/HTTPS address"))
    | _ =>
        if ci u (chars "https://") then
          if negb tls then (None, cp 160 (chars "HTTPS needs an Orion TLS provider"))
          else (Some (cp cap u), status)
        else if ci u (chars "http://") then (Some (cp cap u), status)
        else if ci u (chars "file:") || ci u (chars "data:") || ci u (chars "mailto:") then
          (None, cp 160 (chars "Unsupported URL scheme"))
        else if ci u (chars "javascript:") then
          (None, cp 160 (chars "Use link activation for JavaScript URLs"))
        else (Some (cat cap (cp cap (chars "http://")) u), status)
    end.

(** The last slash at or behind the cursor. *)
Fixpoint last_slash_loop (q last : bytes) : bytes :=
  match q with
  | [] => last
  | c :: q' => last_slash_loop q' (if c =? SLASH then q else last)
  end.

Definition origin (b : ptr bytes) (cap : Z) (dir : bool) : option bytes :=
  match b with
  | Null => None
  | Ptr b =>
      if negb (ci b (chars "http")) then None
      else
        match findci b (chars "://") with
        | None => None
        | Some p =>
            let s := until SLASH (drop 3 p) in
            match s with
            | [] => let out := cp cap b in Some (if dir then cat cap out [SLASH] else out)
            | _ =>
                let n := if dir then len b - len (last_slash_loop s s) + 1 else len b - len s in
                let n := if cap <=? n then cap - 1 else n in
                Some (take (Z.to_nat n) b)
            end
        end
  end.

(** A reference [r] met in the document at [b]. *)
Definition resolve (tls : bool) (b : ptr bytes) (r : bytes) (cap : Z) (status : bytes) : option bytes * bytes :=
  match r with
  | [] => (None, status)
  | r0 :: r' =>
      if ci r (chars "http://") || ci r (chars "https://") then canon tls r cap status
      else if ci r (chars "javascript:") then (Some (cp cap r), status)
      else if r0 =? HASH then
        match cp cap (match b with Ptr b => b | Null => [] end) with
        | [] => (None, status)
        | out => (Some out, status)
        end
      else if (r0 =? SLASH) && (head0 r' =? SLASH) then
        let scheme := match b with
                      | Ptr b => if ci b (chars "https://") then chars "https:" else chars "http:"
                      | Null => chars "http:"
                      end in
        (Some (cat cap (cp cap scheme) r), status)
      else
        match origin b cap (negb (r0 =? SLASH)) with
        | None => canon tls r cap status
        | Some out => (Some (cat cap out r), status)
        end
  end.

(** ** Strings in scripts *)

(** [c=e=='n'?'\n':e=='r'?'\r':e=='t'?'\t':e;] *)
Definition escape (e : Z) : Z :=
  if e =? 110 then LF else if e =? 114 then CR else if e =? 116 then HT else e.

(** [if(o+1<cap)out[o++]=c;] *)
Definition push (cap : Z) (out : bytes) (c : Z) : bytes :=
  if len out + 1 <? cap then out ++ [c] else out.

Fixpoint jsstr_loop (q : Z) (p : bytes) (cap : Z) (out : bytes) : bytes :=
  match p with
  | [] => out
  | c :: p' =>
      if c =? q then out
      else if c =? BACKSLASH then
        match p' with
        | [] => push cap out c
        | e :: p'' => jsstr_loop q p'' cap (push cap out (escape e))
        end
      else jsstr_loop q p' cap (push cap out c)
  end.

(** The characters of the literal at [p], [[]] when there is none; the callers pass
    no [after]. *)
Definition jsstr (p : bytes) (cap : Z) : bytes :=
  match skip_blank p with
  | [] => []
  | q :: p' => if negb (q =? 39) && negb (q =? 34) then [] else jsstr_loop q p' cap []
  end.

Definition nonempty (t : bytes) : option bytes := match t with [] => None | _ => Some t end.

Definition jsassign (s e : bytes) (cap : Z) : option bytes :=
  match findci s e with
  | None => None
  | Some p => match until EQUALS p with [] => None | _ :: p' => nonempty (jsstr p' cap) end
  end.

Definition jscall (s n : bytes) (cap : Z) : option bytes :=
  match findci s n with
  | None => None
  | Some p => match until PAREN p with [] => None | _ :: p' => nonempty (jsstr p' cap) end
  end.

(** ** Texts fit their arrays *)

Lemma fits_fit cap t : 0 < cap -> Forall (fun c => c <> 0) t -> fits cap (fit cap t).
Proof. intros Hc Ht. split; [by apply fit_nonzero|]. pose proof (fit_length cap t Hc). lia. Qed.

Lemma fits_nil cap : 0 < cap -> fits cap [].
Proof. intros. split; [constructor|cbn; lia]. Qed.

Lemma cp_fits cap n s : 0 < cap -> fits n s -> fits cap (cp cap s).
Proof. intros Hc [Hs _]. by apply fits_fit. Qed.

Lemma cat_fits cap n m d s : 0 < cap -> fits n d -> fits m s -> fits cap (cat cap d s).
Proof. intros Hc [Hd _] [Hs _]. apply fits_fit; [done|]. by apply Forall_app. Qed.

Lemma cp_id cap s : fits cap s -> cp cap s = s.
Proof. intros [_ H]. by apply fit_all. Qed.

Lemma fits_wider m n s : m <= n -> fits m s -> fits n s.
Proof. intros H [H1 H2]. split; [done|lia]. Qed.

Lemma fits_text (t : bytes) cap : forallb (fun c => negb (c =? 0)) t && (len t <? cap) = true -> fits cap t.
Proof. intros H. bool_prop. split; [by apply lit_nonzero|done]. Qed.

Ltac text := apply fits_text; reflexivity.

Lemma fits_app cap (a b : bytes) : fits cap (a ++ b) -> fits cap a /\ fits cap b.
Proof. unfold fits. rewrite Forall_app, length_app. intros [[H1 H2] H3]. split; split; (done || lia). Qed.

Lemma fits_tail cap c (t : bytes) : fits cap (c :: t) -> fits cap t.
Proof. intros H. by apply (fits_app cap [c] t) in H as [_ H]. Qed.

(** [cp] on buffers is [scopy_spec] of Cstr: the two sources have the same loop.
    [cat] differs in the order of its tests. *)
Lemma cat_loop_spec fuel d c i s j t :
  cstr s j t -> c <= len d -> 0 <= i < c -> c - i <= Z.of_nat fuel ->
  cat_loop fuel d c i s j = Some (blit d i (fit (c - i) t), i + len (fit (c - i) t)).
Proof.
  intros Ht Hd Hi Hf. rewrite <- (sappend_loop_spec fuel d c i s j t) by done.
  revert d i j t Ht Hd Hi Hf. induction fuel as [|f IH]; intros d i j t Ht Hd Hi Hf; [done|].
  cbn [cat_loop sappend_loop]. rewrite (cstr_rd _ _ _ Ht). cbn [mbind option_bind].
  destruct (Z.ltb_spec (i + 1) c); [|by rewrite andb_false_r].
  destruct t as [|x t]; cbn [head0]; [done|]. apply cstr_char_inv in Ht as (_ & Hx & Ht).
  replace (x =? 0) with false by (symmetry; by apply Z.eqb_neq). cbn [negb andb].
  rewrite wr_Some by lia. cbn [mbind option_bind].
  apply (IH _ _ _ t); rewrite ?length_insert; (done || lia).
Qed.

Lemma cat_scan_sappend fuel d c i : cat_scan fuel d c i = sappend_scan fuel d c i.
Proof.
  revert i. induction fuel as [|f IH]; intros i; [done|]. cbn [cat_scan sappend_scan].
  case_if; [|done]. destruct (rd d i); [|done]. cbn [mbind option_bind]. by rewrite IH.
Qed.

(** The two forms of [cat]: on the buffer that holds the text [a], and on [a]. *)
Lemma cat_buffer d cap s a t :
  cstr s 0 t -> fits cap a -> cap <= len d ->
  cat_array (blit d 0 (a ++ [0])) cap (Ptr s) = Some (blit d 0 (cat cap a t ++ [0])).
Proof.
  intros Ht [Ha Hl] Hc. unfold cat. rewrite <- (sappend_spec d cap s a t) by done.
  assert (HD : length (blit d 0 (a ++ [0])) = length d) by (apply blit_length; rewrite ?length_app; cbn; lia).
  unfold cat_array, sappend. rewrite cat_scan_sappend, (sappend_scan_spec _ _ cap 0 a)
    by (by apply cstr_blit || lia).
  cbn [mbind option_bind]. by rewrite (cat_loop_spec _ _ cap (0 + len a) s 0 t),
    (sappend_loop_spec _ _ cap (0 + len a) s 0 t) by (done || lia).
Qed.

(** ** Prefixes *)

Lemma ci_length s p : ci s p = true -> len p <= len s.
Proof.
  revert s. induction p as [|y p IH]; intros [|x s]; cbn [ci length]; [lia|lia|done|].
  case_if; [|done]. intros ?%IH. lia.
Qed.

(** [ci] compares the first characters of [s], in lower case. *)
Lemma ci_spec s p : ci s p = true <-> map low (take (length p) s) = map low p /\ len p <= len s.
Proof.
  revert s. induction p as [|y p IH]; intros [|x s]; cbn.
  - split; [done|]. intros _. done.
  - split; [intros _; split; [done|lia]|done].
  - split; [done|]. intros [_ H]. lia.
  - destruct (Z.eqb_spec (low x) (low y)) as [E|E].
    + rewrite IH, E. split; intros [H1 H2]; (split; [congruence|lia]).
    + split; [done|]. intros [H _]. by injection H.
Qed.

Lemma ci_fit cap s p : len p < cap -> ci s p = true -> ci (fit cap s) p = true.
Proof.
  rewrite !ci_spec. intros Hc [H1 H2]. unfold fit. rewrite take_take, length_take.
  rewrite Nat.min_l by lia. split; [done|lia].
Qed.

Lemma ci_app p q : ci (p ++ q) p = true.
Proof. rewrite ci_spec, take_app_length, length_app. split; [done|lia]. Qed.

Lemma skip_blank_suffix u : exists a, u = a ++ skip_blank u.
Proof.
  induction u as [|c u [a IH]]; [by exists []|]. cbn [skip_blank]. case_if; [|by exists []].
  exists (c :: a). cbn. by rewrite <- IH.
Qed.

Lemma until_suffix c p : exists a, p = a ++ until c p.
Proof.
  induction p as [|x p [a IH]]; [by exists []|]. cbn [until]. case_if; [by exists []|].
  exists (x :: a). cbn. by rewrite <- IH.
Qed.

Lemma findci_suffix s n p : findci s n = Some p -> (exists a, s = a ++ p) /\ ci p n = true.
Proof.
  destruct n as [|c n]; cbn [findci].
  { intros [= ->]. split; [by exists []|]. by destruct p. }
  induction s as [|x s IH]; cbn [find_loop]; [done|]. case_if.
  - intros [= <-]. split; [by exists []|done].
  - intros H. destruct (IH H) as [[a ->] Hc]. split; [by exists (x :: a)|done].
Qed.

Lemma fits_suffix cap s p : (exists a, s = a ++ p) -> fits cap s -> fits cap p.
Proof. intros [a ->] H. by apply fits_app in H as [_ H]. Qed.

(** ** What the network is asked for *)

Lemma text_of_fits cap l : len l < cap -> fits cap (text_of l).
Proof.
  intros Hl. split.
  - induction l as [|c l IH]; cbn; [constructor|]. destruct (Z.eqb_spec c 0); [constructor|].
    constructor; [done|]. apply IH. cbn in Hl. lia.
  - assert (H : (length (text_of l) <= length l)%nat); [|lia]. clear Hl.
    induction l as [|c l IH]; cbn; [lia|]. case_if; cbn; lia.
Qed.

(** The addresses the HTTP back end may be given. *)
Definition allowed (tls : bool) (u : bytes) : Prop :=
  fits 256 u /\ (ci u (chars "http://") = true \/ ci u (chars "https://") = true /\ tls = true).

Lemma canon_allowed tls n u st r :
  fits n u -> fits 160 st -> canon tls u 256 st = r ->
  fits 160 (snd r) /\ match fst r with Some out => allowed tls out | None => True end.
Proof.
  intros Hu Hs <-. unfold canon. change (256 <? 9) with false. cbv iota.
  assert (Hv : fits n (skip_blank u)) by (eapply fits_suffix; [apply skip_blank_suffix|done]).
  destruct (skip_blank u) as [|c v]; [split; [text|done]|]. set (w := c :: v) in *.
  assert (Hw : fits 256 (cp 256 w)) by (apply (cp_fits 256 n); [done|exact Hv]).
  repeat case_if; cbn [fst snd]; (split; [first [exact Hs|text]|]); try done.
  - split; [exact Hw|]. right. split; [|done]. by apply ci_fit.
  - split; [exact Hw|]. left. by apply ci_fit.
  - split; [apply (cat_fits 256 256 n); [done|text|exact Hv]|]. left.
    apply (ci_fit 256 (cp 256 (chars "http://") ++ w)); [done|]. apply ci_app.
Qed.

Lemma take_fits cap n (t : bytes) : n < cap -> 0 < cap -> Forall (fun c => c <> 0) t -> fits cap (take (Z.to_nat n) t).
Proof. intros Hn Hc Ht. split; [by apply Forall_take|]. rewrite length_take. lia. Qed.

Lemma origin_fits b cap dir out :
  0 < cap -> match b with Null => True | Ptr b => fits cap b end -> origin b cap dir = Some out -> fits cap out.
Proof.
  intros Hc Hb. destruct b as [|b]; cbn [origin]; [done|]. case_if; [done|].
  destruct (findci b (chars "://")) as [p|]; [|done].
  destruct (until SLASH (drop 3 p)) as [|x s]; intros [= <-].
  - assert (fits cap (cp cap b)) by by apply (cp_fits cap cap). case_if; [|done].
    apply (cat_fits cap cap 2); [done|done|]. split; [repeat constructor; done|done].
  - apply take_fits; [|done|apply Hb].
    match goal with |- (if cap <=? ?n then _ else _) < _ => destruct (Z.leb_spec cap n); lia end.
Qed.

Lemma resolve_cases tls b r cap st :
  r <> [] ->
  resolve tls b r cap st =
  if ci r (chars "http://") || ci r (chars "https://") then canon tls r cap st
  else if ci r (chars "javascript:") then (Some (cp cap r), st)
  else if head0 r =? HASH then
    (nonempty (cp cap (match b with Ptr b => b | Null => [] end)), st)
  else if (head0 r =? SLASH) && (head0 (tail r) =? SLASH) then
    (Some (cat cap (cp cap (match b with
                            | Ptr b => if ci b (chars "https://") then chars "https:" else chars "http:"
                            | Null => chars "http:"
                            end)) r), st)
  else match origin b cap (negb (head0 r =? SLASH)) with
       | None => canon tls r cap st
       | Some out => (Some (cat cap out r), st)
       end.
Proof. destruct r as [|c r]; [done|]. intros _. cbn [resolve head0 tail].
  destruct b as [|b]; [by destruct (cp cap [])|by destruct (cp cap b)].
Qed.

Lemma resolve_fits tls b r st out :
  match b with Null => True | Ptr b => fits 256 b end -> fits 256 r -> fits 160 st ->
  resolve tls b r 256 st = out ->
  fits 160 (snd out) /\ match fst out with Some u => fits 256 u | None => True end.
Proof.
  intros Hb Hr Hs <-. destruct (decide (r = [])) as [->|Hne]; [done|].
  assert (Hcanon : fits 160 (snd (canon tls r 256 st)) /\
    match fst (canon tls r 256 st) with Some u => fits 256 u | None => True end).
  { destruct (canon_allowed tls 256 r st _ Hr Hs eq_refl) as [H1 H2]. split; [done|].
    destruct (fst _); [apply H2|done]. }
  rewrite resolve_cases by done.
  case_if; [done|]. case_if; [split; [done|by apply (cp_fits 256 256)]|].
  case_if.
  { split; [done|]. cbn [fst]. assert (Hcp : fits 256 (cp 256 match b with Null => [] | Ptr b => b end)).
    { apply (cp_fits 256 256); [done|]. destruct b; [by apply fits_nil|done]. }
    by destruct (cp 256 _). }
  case_if.
  { split; [done|]. apply (cat_fits 256 256 256); [done| |done]. destruct b; [text|]. case_if; text. }
  destruct (origin b 256 _) as [o|] eqn:Eo; [|done]. split; [done|].
  apply (cat_fits 256 256 256); [done| |done]. by apply origin_fits in Eo.
Qed.

(** ** The scheme of a resource

    Whatever a page refers to keeps the scheme of an address that may be asked for,
    or has one of its own. *)

Lemma ci_cons s y p : ci s (y :: p) = true -> exists x s', s = x :: s' /\ low x = low y /\ ci s' p = true.
Proof. destruct s as [|x s]; cbn [ci]; [done|]. case_if; [|done]. intros Hp. exists x, s. split; [done|]. split; [lia|done]. Qed.

Lemma ci_more s r p : ci s p = true -> ci (s ++ r) p = true.
Proof.
  rewrite !ci_spec. intros [H1 H2]. rewrite length_app. split; [|lia]. rewrite take_app_le by lia. done.
Qed.

Lemma ci_take n s p : len p <= n -> ci s p = true -> ci (take (Z.to_nat n) s) p = true.
Proof. rewrite !ci_spec. intros Hn [H1 H2]. rewrite take_take, length_take, Nat.min_l by lia. split; [done|lia]. Qed.

(** The two schemes of the network. *)
Definition net_scheme (q : bytes) : Prop := q = chars "http://" \/ q = chars "https://".

Lemma scheme_found q b :
  net_scheme q -> ci b q = true -> exists p, findci b (chars "://") = Some p /\ len p + len q = len b + 3.
Proof.
  intros Hq. change (findci b (chars "://")) with (find_loop b (chars "://")).
  assert (Hskip : forall c s, low c <> 58 -> find_loop (c :: s) (chars "://") = find_loop s (chars "://")).
  { intros c s Hc. cbn [find_loop]. replace (ci (c :: s) (chars "://")) with false; [done|].
    symmetry. change (chars "://") with [58; 47; 47]. cbn [ci]. change (low 58) with 58. by if_false. }
  assert (Hend : forall s, ci s (chars "://") = true -> find_loop s (chars "://") = Some s).
  { intros s Hs. pose proof (ci_length _ _ Hs). destruct s; [done|]. cbn [find_loop]. by rewrite Hs. }
  destruct Hq as [-> | ->]; intros Hb.
  - change (chars "http://") with (104 :: 116 :: 116 :: 112 :: chars "://") in Hb.
    repeat match type of Hb with ci ?s (_ :: _) = true => let E := fresh in
      apply ci_cons in Hb as (? & ? & -> & E & Hb); rewrite Hskip by (rewrite E; discriminate) end.
    rewrite (Hend _ Hb). eexists. split; [reflexivity|]. cbn. lia.
  - change (chars "https://") with (104 :: 116 :: 116 :: 112 :: 115 :: chars "://") in Hb.
    repeat match type of Hb with ci ?s (_ :: _) = true => let E := fresh in
      apply ci_cons in Hb as (? & ? & -> & E & Hb); rewrite Hskip by (rewrite E; discriminate) end.
    rewrite (Hend _ Hb). eexists. split; [reflexivity|]. cbn. lia.
Qed.

Lemma last_slash_length q last n : len q <= n -> len last <= n -> len (last_slash_loop q last) <= n.
Proof.
  revert last. induction q as [|c q IH]; intros last Hq Hl; [done|]. cbn [last_slash_loop]. apply IH; [cbn in Hq; lia|].
  case_if; [done|exact Hl].
Qed.

Lemma origin_scheme q b dir out :
  net_scheme q -> ci b q = true -> origin (Ptr b) 256 dir = Some out -> ci out q = true.
Proof.
  intros Hq Hb. destruct (scheme_found q b Hq Hb) as (p & E & Hp). cbn [origin]. case_if; [done|]. rewrite E.
  assert (Hl : 3 <= len q <= 8) by (destruct Hq as [-> | ->]; cbn; lia).
  assert (Hs : len (until SLASH (drop 3 p)) <= len p - 3 \/ until SLASH (drop 3 p) = []).
  { destruct (until_suffix SLASH (drop 3 p)) as [a Ha]. destruct (until SLASH (drop 3 p)) as [|x s]; [by right|left].
    pose proof (f_equal (fun l => len l) Ha) as Hn. cbn beta in Hn. rewrite length_app, length_drop in Hn. cbn in Hn |- *. lia. }
  destruct (until SLASH (drop 3 p)) as [|x s] eqn:Es; intros [= <-].
  - assert (Hc : ci (cp 256 b) q = true) by (apply ci_fit; [lia|done]). case_if; [|done].
    apply ci_fit; [lia|]. by apply ci_more.
  - destruct Hs as [Hs|]; [|done]. apply ci_take; [|done].
    pose proof (last_slash_length (x :: s) (x :: s) (len p - 3) Hs Hs) as Hd. cbn [last_slash_loop length] in Hd, Hs.
    destruct dir; case_if; lia.
Qed.

(** The address of a resource may be asked for, when that of the page is or there is
    none. *)
Lemma resolve_allowed tls b r st u :
  b = [] \/ allowed tls b -> fits 256 r -> fits 160 st ->
  fst (resolve tls (Ptr b) r 256 st) = Some u -> ci u (chars "javascript:") = false -> allowed tls u.
Proof.
  intros Hb Hr Hs Hu Hj. assert (Hne : r <> []) by by intros ->.
  assert (Hf : match b with [] => fits 256 [] | _ => fits 256 b end) by (destruct b; [by apply fits_nil|by destruct Hb as [|[]]]).
  assert (Hbf : fits 256 b) by by destruct b.
  destruct (resolve_fits tls (Ptr b) r st _ Hbf Hr Hs eq_refl) as [_ Hfu]. rewrite Hu in Hfu.
  destruct (canon_allowed tls 256 r st _ Hr Hs eq_refl) as [_ Hc].
  rewrite resolve_cases in Hu by done. destruct (_ || _); [by rewrite Hu in Hc|].
  destruct (ci r (chars "javascript:")) eqn:Ej.
  { injection Hu as <-. cbn [fst] in Hj. rewrite ci_fit in Hj; done. }
  destruct (head0 r =? HASH).
  { rewrite cp_id in Hu by done. destruct Hb as [->|Hb]; [done|]. destruct b; [done|]. by injection Hu as <-. }
  destruct (_ && _) eqn:Es in Hu.
  { split; [done|]. cbn [fst] in Hu. apply (inj Some) in Hu as <-. apply andb_prop in Es as [E1%Z.eqb_eq E2%Z.eqb_eq].
    destruct r as [|x [|y r]]; [done|done|]. cbn [head0 tail] in E1, E2. subst x y.
    change (SLASH :: SLASH :: r) with (chars "//" ++ r). destruct (ci b (chars "https://")) eqn:Eb.
    - right. split; [apply ci_fit; [done|]; exact (ci_app (chars "https://") r)|]. destruct Hb as [->|(_ & [H|[_ H]])]; [done| |done].
      exfalso. change (chars "http://") with (104 :: 116 :: 116 :: 112 :: chars "://") in H.
      change (chars "https://") with (104 :: 116 :: 116 :: 112 :: 115 :: chars "://") in Eb.
      do 4 (apply ci_cons in H as (? & ? & -> & _ & H); apply ci_cons in Eb as (? & ? & [= <- <-] & _ & Eb)).
      apply ci_cons in Eb as (? & ? & -> & E1 & _). apply ci_cons in H as (? & ? & [= <- <-] & E2 & _). by rewrite E1 in E2.
    - left. apply ci_fit; [done|]. exact (ci_app (chars "http://") r). }
  destruct (origin (Ptr b) 256 _) as [o|] eqn:Eo; [|by rewrite Hu in Hc]. injection Hu as <-. split; [done|].
  destruct Hb as [->|[_ Hb]]; [done|]. destruct Hb as [Hb|[Hb Ht]].
  - left. apply ci_fit; [done|]. apply ci_more. by apply (origin_scheme _ b _ _ (or_introl eq_refl)) in Eo.
  - right. split; [|done]. apply ci_fit; [done|]. apply ci_more. by apply (origin_scheme _ b _ _ (or_intror eq_refl)) in Eo.
Qed.

(** ** References against a page

    An address of a document, in its parts: the directory is empty, with no name,
    or begins and ends with a slash. *)
Record page := mk_page { scheme : bytes; authority : bytes; directory : bytes; name : bytes }.

Definition page_ok (p : page) : Prop :=
  ci (scheme p) (chars "http") = true /\ Forall (fun c => c <> COLON) (scheme p) /\
  Forall (fun c => c <> SLASH) (authority p) /\ Forall (fun c => c <> SLASH) (name p) /\
  ((directory p = [] /\ name p = []) \/ exists d, head0 (d ++ [SLASH]) = SLASH /\ directory p = d ++ [SLASH]).

Definition site (p : page) : bytes := scheme p ++ chars "://" ++ authority p.
Definition address (p : page) : bytes := site p ++ directory p ++ name p.

Lemma find_scheme (a rest : bytes) :
  Forall (fun c => c <> COLON) a -> findci (a ++ chars "://" ++ rest) (chars "://") = Some (chars "://" ++ rest).
Proof.
  intros H. change (findci (a ++ chars "://" ++ rest) (chars "://"))
    with (find_loop (a ++ chars "://" ++ rest) (chars "://")).
  induction H as [|c a Hc _ IH].
  { cbn [app find_loop]. change (chars "://" ++ rest) with (COLON :: SLASH :: SLASH :: rest).
    done. }
  cbn [app find_loop]. replace (ci (c :: a ++ chars "://" ++ rest) (chars "://")) with false; [exact IH|].
  symmetry. change (chars "://") with [COLON; SLASH; SLASH]. cbn [ci].
  replace (low c =? low COLON) with false; [done|]. symmetry. apply Z.eqb_neq.
  unfold low, lower_ascii. change (_ && _) with false at 2. cbv iota. case_if; lia.
Qed.

Lemma until_app c (a rest : bytes) :
  Forall (fun x => x <> c) a -> rest = [] \/ head0 rest = c -> c <> 0 -> until c (a ++ rest) = rest.
Proof.
  intros Ha Hr Hc. induction Ha as [|x a Hx _ IH]; cbn [app until].
  - destruct Hr as [->|Hr]; [done|]. destruct rest as [|y rest]; [done|]. cbn in Hr. subst y.
    cbn [until]. by rewrite Z.eqb_refl.
  - replace (x =? c) with false by (symmetry; by apply Z.eqb_neq). done.
Qed.

Lemma last_slash_app (a q last : bytes) :
  Forall (fun x => x <> SLASH) q -> last_slash_loop (a ++ SLASH :: q) last = SLASH :: q.
Proof.
  intros Hq. assert (Hn : forall q l, Forall (fun x => x <> SLASH) q -> last_slash_loop q l = l).
  { clear. intros q l H. revert l. induction H as [|c q Hc _ IH]; intros l; [done|]. cbn [last_slash_loop].
    replace (c =? SLASH) with false by (symmetry; by apply Z.eqb_neq). by rewrite IH. }
  revert last. induction a as [|c a IH]; intros last; cbn [app last_slash_loop]; [|apply IH].
  by rewrite Z.eqb_refl, Hn.
Qed.

(** The base of a page, as the parts the resolution needs. *)
Lemma address_parts p :
  page_ok p ->
  findci (address p) (chars "://") = Some (chars "://" ++ authority p ++ directory p ++ name p) /\
  until SLASH (authority p ++ directory p ++ name p) = directory p ++ name p /\
  ci (address p) (chars "http") = true.
Proof.
  intros (Hs & Hc & Ha & Hn & Hd). unfold address, site. rewrite <- !app_assoc. split; [|split].
  - by apply find_scheme.
  - apply until_app; [done| |done]. destruct Hd as [[-> ->]|(d & Hd & ->)]; [by left|right].
    destruct d as [|c d]; [done|exact Hd].
  - apply ci_spec in Hs as [H1 H2]. apply ci_spec. rewrite take_app_le by lia. split; [done|].
    rewrite length_app. lia.
Qed.

Lemma take_prefix (a b : bytes) n : n = len a -> take (Z.to_nat n) (a ++ b) = a.
Proof. intros ->. rewrite Nat2Z.id. apply take_app_length. Qed.

Lemma origin_root p :
  page_ok p -> len (address p) < 256 -> origin (Ptr (address p)) 256 false = Some (site p).
Proof.
  intros Hp Hl. destruct (address_parts p Hp) as (H1 & H2 & H3). cbn [origin]. rewrite H3, H1.
  cbn [negb]. change (drop 3 (chars "://" ++ ?x)) with x. rewrite H2.
  destruct (directory p ++ name p) as [|c s] eqn:E.
  - unfold address in *. rewrite E, app_nil_r in *. f_equal. by apply fit_all.
  - f_equal. unfold address in *. rewrite E in *. rewrite length_app in *. cbn [length] in *.
    if_false. apply take_prefix. lia.
Qed.

Lemma origin_directory p :
  page_ok p -> len (address p) < 255 ->
  origin (Ptr (address p)) 256 true = Some (site p ++ match directory p with [] => [SLASH] | d => d end).
Proof.
  intros Hp Hl. destruct (address_parts p Hp) as (H1 & H2 & H3). cbn [origin]. rewrite H3, H1.
  cbn [negb]. change (drop 3 (chars "://" ++ ?x)) with x. rewrite H2.
  destruct Hp as (_ & _ & _ & Hn & Hd). destruct Hd as [[Ed En]|(d & Hd & Ed)].
  - unfold address in *. rewrite Ed, En in *. cbn [app] in *. rewrite app_nil_r in *. f_equal.
    unfold cat, cp. rewrite fit_app, fit_all by (rewrite ?length_app; cbn [length]; lia). done.
  - assert (E : directory p ++ name p = d ++ SLASH :: name p) by by rewrite Ed, <- app_assoc.
    rewrite E. rewrite last_slash_app by done. unfold address in *. rewrite E in *. rewrite Ed.
    replace (d ++ SLASH :: name p) with ((d ++ [SLASH]) ++ name p) in * by by rewrite <- app_assoc.
    destruct (d ++ [SLASH]) as [|c s] eqn:Es; [by destruct d|]. cbn [app]. f_equal.
    change (c :: s ++ name p) with ((c :: s) ++ name p) in *.
    rewrite (app_assoc (site p)) in *. rewrite length_app in *. cbn [length] in *.
    if_false. apply take_prefix. lia.
Qed.

(** An address of a document that relative references are resolved against: http or
    https, with an authority, without query and fragment, and not too long. *)
Definition base_ok (b : bytes) : Prop :=
  let u := Rfc.parse b in
  (Rfc.scheme u = Some (chars "http") \/ Rfc.scheme u = Some (chars "https")) /\
  Rfc.authority u <> None /\ Rfc.query u = None /\ Rfc.fragment u = None /\ len b < 255.

(** Such an address in its parts. *)
Lemma base_page b : base_ok b -> exists p, page_ok p /\ address p = b /\ site p = Rfc.site (Rfc.parse b) /\
  (match directory p with [] => [SLASH] | d => d end) = Rfc.merge (Rfc.parse b) [] /\
  Rfc.scheme (Rfc.parse b) = Some (scheme p) /\ (scheme p = chars "http" \/ scheme p = chars "https").
Proof.
  intros (Hs & Ha & Hq & Hf & _). pose proof (Rfc.recompose_parse b) as E. unfold Rfc.recompose, Rfc.site, Rfc.merge in *.
  destruct (Rfc.authority (Rfc.parse b)) as [a|] eqn:Ea; [|done]. destruct (Rfc.parse_authority b a Ea) as [Hsl Hp].
  assert (Hsch : exists s, Rfc.scheme (Rfc.parse b) = Some s /\ (s = chars "http" \/ s = chars "https")) by (destruct Hs; eauto).
  destruct Hsch as (s & Es & Hs'). rewrite Es, Hq, Hf in *. cbn [Rfc.opt app] in *. rewrite !app_nil_r in *.
  destruct (Rfc.up_to_slash_app (Rfc.path (Rfc.parse b))) as (e & Ep & He).
  exists (mk_page s a (Rfc.up_to_slash (Rfc.path (Rfc.parse b))) e). unfold page_ok, address, site.
  cbn [scheme authority directory name]. split; [|split; [|split; [|split; [|split]]]]; try done.
  - split; [by destruct Hs' as [-> | ->]|]. split; [destruct Hs' as [-> | ->]; by repeat constructor|].
    split; [done|]. split; [done|]. destruct Hp as [Hp|Hp].
    + left. rewrite Hp in Ep |- *. symmetry in Ep. by apply app_eq_nil in Ep.
    + right. destruct (Rfc.up_to_slash_end _ Hp) as [d Hd]. exists d. rewrite Hd in *. split; [|done].
      rewrite Ep in Hp. by destruct d.
  - etrans; [|exact E]. rewrite <- Ep. by rewrite <- !app_assoc.
  - by rewrite <- app_assoc.
  - destruct Hp as [Hp|Hp]; [by rewrite Hp|]. destruct (Rfc.up_to_slash_end _ Hp) as [d Hd].
    destruct (Rfc.path (Rfc.parse b)); [done|]. rewrite app_nil_r, Hd. by destruct d.
Qed.

Lemma ci_begins s p : ci s p = true <-> Rfc.begins p s.
Proof.
  rewrite ci_spec. unfold Rfc.begins. split; [by intros [H _]|]. intros H. split; [done|].
  apply (f_equal length) in H. rewrite !length_map, length_take in H. lia.
Qed.

(** The schemes of the addresses the browser follows. *)
Lemma ci_scheme r :
  ci r (chars "http://") || ci r (chars "https://") || ci r (chars "javascript:") = true -> Rfc.scheme (Rfc.parse r) <> None.
Proof.
  assert (H : forall name, Forall (fun c => Rfc.scheme_char c /\ ~ (65 <= c <= 90)) name -> name <> [] ->
    Rfc.begins (name ++ [COLON]) r -> Rfc.scheme (Rfc.parse r) <> None).
  { intros name Hn Hne H. apply Rfc.begins_colon in H as (s & r' & -> & _ & Hs & Hc); [|done|done].
    by rewrite Rfc.parse_of_scheme. }
  assert (Hn : forall name, forallb (fun c => (97 <=? c) && (c <=? 122)) name = true ->
    Forall (fun c => Rfc.scheme_char c /\ ~ (65 <= c <= 90)) name).
  { intros name Hb. rewrite Forall_forall. rewrite forallb_forall in Hb. intros c Hc%Hb. unfold Rfc.scheme_char. bool_prop. lia. }
  rewrite !orb_true_iff, !ci_begins. intros [[Hb|Hb]|Hb].
  - change (chars "http://") with ((chars "http" ++ [COLON]) ++ [SLASH; SLASH]) in Hb. apply Rfc.begins_app in Hb as [Hb _].
    by apply H in Hb; [|apply Hn|].
  - change (chars "https://") with ((chars "https" ++ [COLON]) ++ [SLASH; SLASH]) in Hb. apply Rfc.begins_app in Hb as [Hb _].
    by apply H in Hb; [|apply Hn|].
  - change (chars "javascript:") with (chars "javascript" ++ [COLON]) in Hb. by apply H in Hb; [|apply Hn|].
Qed.

(** The references the standard and the code agree on: not only a query, without a
    scheme or with one that the browser follows, and no dot segments in the target. *)
Definition reference_ok (b r : bytes) : Prop :=
  r <> [] /\ head0 r <> QUESTION /\
  (Rfc.scheme (Rfc.parse r) = None \/
   ci r (chars "http://") || ci r (chars "https://") || ci r (chars "javascript:") = true) /\
  Rfc.dot_free (Rfc.target_path (Rfc.parse b) (Rfc.parse r)).

(** The target of RFC 3986; a fragment alone stands for the page itself. *)
Definition rfc_target (b r : bytes) : bytes :=
  let t := Rfc.transform (Rfc.parse b) (Rfc.parse r) in
  Rfc.recompose (if head0 r =? HASH then Rfc.without_fragment t else t).


(** ** Literals of scripts *)

Lemma push_fits cap out c : c <> 0 -> fits cap out -> fits cap (push cap out c).
Proof.
  intros Hc [H1 H2]. unfold push. case_if; [|done]. split; [apply Forall_app; by repeat constructor|].
  rewrite length_app. cbn. lia.
Qed.

Lemma escape_nonzero e : e <> 0 -> escape e <> 0.
Proof. intros H. unfold escape. repeat case_if; lia. Qed.

Lemma jsstr_loop_fits q p cap out :
  Forall (fun c => c <> 0) p -> fits cap out -> fits cap (jsstr_loop q p cap out).
Proof.
  remember (length p) as n eqn:Hn. revert p out Hn.
  induction n as [n IH] using lt_wf_ind. intros p out -> Hp Ho.
  destruct p as [|c p]; [done|]. cbn [jsstr_loop]. inversion_clear Hp as [|? ? Hc Hp'].
  case_if; [done|]. case_if.
  - destruct p as [|e p]; [by apply push_fits|]. inversion_clear Hp' as [|? ? He Hp].
    eapply IH; [|done|done|by apply push_fits, Ho; apply escape_nonzero]. cbn. lia.
  - eapply IH; [|done|done|by apply push_fits]. cbn. lia.
Qed.

Lemma jsstr_fits p cap : 0 < cap -> Forall (fun c => c <> 0) p -> fits cap (jsstr p cap).
Proof.
  intros Hc Hp. unfold jsstr. destruct (skip_blank_suffix p) as [a Ha]. rewrite Ha in Hp.
  apply Forall_app in Hp as [_ Hp]. destruct (skip_blank p) as [|q t]; [by apply fits_nil|].
  inversion_clear Hp. case_if; [by apply fits_nil|]. apply jsstr_loop_fits; [done|by apply fits_nil].
Qed.

(** A text as the characters of a literal between quotes [q]. *)
Definition quote_char (q c : Z) : bytes :=
  if c =? LF then [BACKSLASH; 110] else if c =? CR then [BACKSLASH; 114]
  else if c =? HT then [BACKSLASH; 116]
  else if (c =? q) || (c =? BACKSLASH) then [BACKSLASH; c] else [c].
Definition quote (q : Z) (t : bytes) : bytes := [q] ++ concat (map (quote_char q) t) ++ [q].

Lemma quote_char_loop q c p cap out :
  q = 39 \/ q = 34 -> jsstr_loop q (quote_char q c ++ p) cap out = jsstr_loop q p cap (push cap out c).
Proof.
  intros Hq. unfold quote_char.
  destruct (Z.eqb_spec c LF) as [->|]; [by destruct Hq as [-> | ->]|].
  destruct (Z.eqb_spec c CR) as [->|]; [by destruct Hq as [-> | ->]|].
  destruct (Z.eqb_spec c HT) as [->|]; [by destruct Hq as [-> | ->]|].
  destruct (Z.eqb_spec c q) as [->|]; cbn [orb].
  { destruct Hq as [-> | ->]; done. }
  destruct (Z.eqb_spec c BACKSLASH) as [->|]; cbn [app jsstr_loop].
  - by destruct Hq as [-> | ->].
  - by replace (c =? q) with false by (symmetry; by apply Z.eqb_neq);
      replace (c =? BACKSLASH) with false by (symmetry; by apply Z.eqb_neq).
Qed.

(** The literals of scripts: the text written between quotes, with its quotes,
    backslashes and line breaks escaped, is read back as it was, blanks before it
    and whatever follows it left out. *)
Theorem jsstr_roundtrip q t rest cap blanks :
  q = 39 \/ q = 34 -> Forall (fun c => c = SP \/ c = HT) blanks -> len t < cap ->
  jsstr (blanks ++ quote q t ++ rest) cap = t.
Proof.
  intros Hq Hb Ht. unfold jsstr, quote.
  assert (Hskip : forall l, skip_blank (blanks ++ q :: l) = q :: l).
  { intros l. induction Hb as [|c b [-> | ->] _ IH]; cbn [app skip_blank]; [|done..].
    by destruct Hq as [-> | ->]. }
  rewrite <- app_assoc. cbn [app]. rewrite Hskip.
  replace (negb (q =? 39) && negb (q =? 34)) with false by by destruct Hq as [-> | ->].
  assert (H : forall out, len out + len t < cap ->
    jsstr_loop q ((concat (map (quote_char q) t) ++ [q]) ++ rest) cap out = out ++ t).
  { clear Hskip Hb Ht. induction t as [|c t IH]; intros out Hl; cbn [map concat].
    - cbn [app jsstr_loop]. by rewrite Z.eqb_refl, app_nil_r.
    - rewrite <- !app_assoc, quote_char_loop by done. rewrite app_assoc.
      cbn [length] in Hl. unfold push. if_true.
      rewrite IH by (rewrite length_app; cbn [length]; lia). by rewrite <- app_assoc. }
  by rewrite H by (cbn; lia).
Qed.
