(* ===== verification/Vela.v ===== *)
(** * The browser engine (kernel/vela.c, include/vela.h, include/vela_platform.h)

    The static variables of vela.c are the record [vela]; the operations take and
    return it with the state of what lies outside: the platform callbacks, the serial
    line and the screen.  The document engine is the class [AsterEngine].  Character
    arrays are the texts they hold (VelaText). *)

From S2P Require Import Prelude Cstr NetEnv VelaText.

(** ** The platform interface *)

Definition VELA_PLATFORM_ABI_MAJOR : Z := 1.
Definition VELA_PLATFORM_ABI_MINOR : Z := 1.
Definition VELA_PLATFORM_ABI_VERSION : Z := Z.lor (Z.shiftl VELA_PLATFORM_ABI_MAJOR 16) VELA_PLATFORM_ABI_MINOR.
Definition VELA_PLATFORM_CAP_HTTP : Z := Z.shiftl 1 0.
Definition VELA_PLATFORM_CAP_REPAINT : Z := Z.shiftl 1 1.
Definition VELA_PLATFORM_CAP_LOG : Z := Z.shiftl 1 2.
Definition VELA_PLATFORM_CAP_TIME : Z := Z.shiftl 1 3.
Definition VELA_PLATFORM_CAP_OPEN_EXTERNAL : Z := Z.shiftl 1 4.
Definition VELA_PLATFORM_CAP_CLIPBOARD : Z := Z.shiftl 1 5.
Definition VELA_PLATFORM_CAP_TLS : Z := Z.shiftl 1 6.
Definition VELA_PLATFORM_CAP_FILES : Z := Z.shiftl 1 7.
Definition VELA_PLATFORM_CAP_RESOURCES : Z := Z.shiftl 1 8.

Definition VELA_API_MAJOR : Z := 1.
Definition VELA_API_MINOR : Z := 4.
Definition VELA_API_VERSION : Z := Z.lor (Z.shiftl VELA_API_MAJOR 16) VELA_API_MINOR.
Definition VELA_CAP_PLATFORM_ABI : Z := Z.shiftl 1 0.
Definition VELA_CAP_HISTORY : Z := Z.shiftl 1 1.
Definition VELA_CAP_SCROLL : Z := Z.shiftl 1 2.
Definition VELA_CAP_LOCAL_HTML : Z := Z.shiftl 1 3.
Definition VELA_CAP_ASTER_DOC : Z := Z.shiftl 1 4.
Definition VELA_CAP_LINK_ACTIVATION : Z := Z.shiftl 1 5.
Definition VELA_CAP_JS_SUBSET : Z := Z.shiftl 1 6.
Definition VELA_CAP_FEATURE_PROFILE : Z := Z.shiftl 1 7.
Definition VELA_CAP_RESOURCES : Z := Z.shiftl 1 8.
Definition VELA_CAP_NAV_ACTIONS : Z := Z.shiftl 1 9.
Definition VELA_NAME : bytes := chars "UN_Vela".
Definition VELA_FEATURE_JAVASCRIPT : Z := Z.shiftl 1 0.
Definition VELA_PROFILE_LITE : Z := 0.
Definition VELA_PROFILE_FULL : Z := VELA_FEATURE_JAVASCRIPT.

Definition VELA_HISTORY_MAX : Z := 12.
Definition VELA_URL_CAP : Z := 256.
Definition VELA_RAW_CAP : Z := 32768.
Definition VELA_JS_TEXT_CAP : Z := 1536.

Inductive VelaNavAction :=
| VELA_NAV_BACK | VELA_NAV_FORWARD | VELA_NAV_RELOAD | VELA_NAV_LINE_UP | VELA_NAV_LINE_DOWN
| VELA_NAV_PAGE_UP | VELA_NAV_PAGE_DOWN | VELA_NAV_HOME | VELA_NAV_END.

(** A function pointer of the caller's structure: null, a function, or, after a copy
    that ends inside it, the bytes of neither. *)
Inductive fn (A : Type) : Type :=
| NullFn
| Torn
| Fn (f : A).
Arguments NullFn {A}.
Arguments Torn {A}.
Arguments Fn {A} f.

Definition called {A} (f : fn A) : res A := match f with Fn f => Ok f | _ => Fault end.
Definition fn_null {A} (f : fn A) : bool := match f with NullFn => true | _ => false end.

(** What a resource is fetched into: data, length, content type, status line. *)
Definition resource : Type := ptr bytes * ptr Z * ptr bytes * ptr bytes.

(** The callbacks change the state [E] only: they do not call the browser back. *)
Record VelaPlatformOps (E : Type) := mk_ops {
  abi_version : Z;
  struct_size : Z;
  capabilities : Z;
  http_get : fn (bytes -> bytes -> bytes -> E -> res (Z * bytes * bytes * E));
  request_repaint : fn (E -> res E);
  op_log : fn (Z -> bytes -> E -> res E);
  time_ms : fn (E -> res (Z * E));
  open_external : fn (bytes -> E -> res (Z * E));
  clipboard_set : fn (bytes -> E -> res (Z * E));
  clipboard_get : fn (bytes -> E -> res (Z * bytes * E));
  resource_get : fn (bytes -> resource -> Z -> Z -> Z -> E -> res (Z * resource * E))
}.
Arguments mk_ops {E}.
Arguments abi_version {E}. Arguments struct_size {E}. Arguments capabilities {E}.
Arguments http_get {E}. Arguments request_repaint {E}. Arguments op_log {E}. Arguments time_ms {E}.
Arguments open_external {E}. Arguments clipboard_set {E}. Arguments clipboard_get {E}.
Arguments resource_get {E}.

(** The size of the structure, and what a copy of its first [n] bytes leaves of a
    pointer at the offset [o] of a zeroed one (64-bit build). *)
Definition ops_size : Z := 136.
Definition first_bytes {A} (n o : Z) (f : fn A) : fn A :=
  match f with
  | NullFn => NullFn
  | _ => if o + 8 <=? n then f else if n <=? o then NullFn else Torn
  end.

Definition copy_ops {E} (n : Z) (p : VelaPlatformOps E) : VelaPlatformOps E :=
  mk_ops (abi_version p) (struct_size p) (capabilities p)
    (first_bytes n 16 (http_get p)) (first_bytes n 24 (request_repaint p)) (first_bytes n 32 (op_log p))
    (first_bytes n 40 (time_ms p)) (first_bytes n 48 (open_external p)) (first_bytes n 56 (clipboard_set p))
    (first_bytes n 64 (clipboard_get p)) (first_bytes n 72 (resource_get p)).

Definition zero_ops {E} : VelaPlatformOps E :=
  mk_ops 0 0 0 NullFn NullFn NullFn NullFn NullFn NullFn NullFn NullFn.

(** [offsetof(VelaPlatformOps,http_get)+sizeof(ops->http_get)] is 24. *)
Definition vela_platform_is_compatible {E} (ops : ptr (VelaPlatformOps E)) : Z :=
  match ops with
  | Null => 0
  | Ptr ops =>
      if negb (Z.shiftr (abi_version ops) 16 =? VELA_PLATFORM_ABI_MAJOR) then 0
      else if 24 <=? struct_size ops then 1 else 0
  end.

Definition has (caps bit : Z) : bool := negb (Z.land caps bit =? 0).

(** ** The document engine (include/aster.h)

    [None]: the engine reads or writes outside its arrays. *)
Class AsterEngine (Doc E : Type) := {
  aster_parse_html : Doc -> bytes -> option Doc;
  aster_layout : Doc -> Z -> option Doc;
  aster_link_at : Doc -> Z -> Z -> Z -> Z -> option (option bytes);
  aster_document_height : Doc -> Z;
  aster_title : Doc -> bytes;
  aster_set_title : bytes -> Doc -> Doc;
  aster_version : bytes;
  aster_paint : Doc -> Z -> Z -> Z -> Z -> Z -> E -> res E
}.

(** The serial line of navdepth (kernel/serial.c). *)
Class Console (E : Type) := { serial_write : bytes -> E -> res E }.

(** ** State *)
Record vela (Doc E : Type) := mk_vela {
  g_doc : Doc;
  g_raw : bytes;
  (** the first [g_url_len] characters of the array, which ends them with a zero *)
  g_url : bytes;
  g_status : bytes;
  g_history : list bytes;
  g_viewport : Z;
  g_viewport_h : Z;
  g_scroll : Z;
  g_history_count : Z;
  g_history_index : Z;
  g_features : Z;
  g_platform : VelaPlatformOps E;
  g_platform_ready : Z
}.
Arguments mk_vela {Doc E}.
Arguments g_doc {Doc E}. Arguments g_raw {Doc E}. Arguments g_url {Doc E}. Arguments g_status {Doc E}.
Arguments g_history {Doc E}. Arguments g_viewport {Doc E}. Arguments g_viewport_h {Doc E}.
Arguments g_scroll {Doc E}. Arguments g_history_count {Doc E}. Arguments g_history_index {Doc E}.
Arguments g_features {Doc E}. Arguments g_platform {Doc E}. Arguments g_platform_ready {Doc E}.

(** A signed sum or difference: outside [int] it is undefined. *)
Definition int_of (z : Z) : res Z := if (-2147483648 <=? z) && (z <=? 2147483647) then Ok z else Fault.

Section vela.
Context {Doc E : Type} `{!AsterEngine Doc E, !Console E}.
Local Abbreviation state := (vela Doc E * E)%type.
Implicit Types v : vela Doc E.

(** ** Assignments *)
Definition set_doc x v : vela Doc E := mk_vela x (g_raw v) (g_url v) (g_status v) (g_history v) (g_viewport v) (g_viewport_h v) (g_scroll v) (g_history_count v) (g_history_index v) (g_features v) (g_platform v) (g_platform_ready v).
Definition set_raw x v : vela Doc E := mk_vela (g_doc v) x (g_url v) (g_status v) (g_history v) (g_viewport v) (g_viewport_h v) (g_scroll v) (g_history_count v) (g_history_index v) (g_features v) (g_platform v) (g_platform_ready v).
Definition set_url x v : vela Doc E := mk_vela (g_doc v) (g_raw v) x (g_status v) (g_history v) (g_viewport v) (g_viewport_h v) (g_scroll v) (g_history_count v) (g_history_index v) (g_features v) (g_platform v) (g_platform_ready v).
Definition set_status x v : vela Doc E := mk_vela (g_doc v) (g_raw v) (g_url v) x (g_history v) (g_viewport v) (g_viewport_h v) (g_scroll v) (g_history_count v) (g_history_index v) (g_features v) (g_platform v) (g_platform_ready v).
Definition set_history h n i v : vela Doc E := mk_vela (g_doc v) (g_raw v) (g_url v) (g_status v) h (g_viewport v) (g_viewport_h v) (g_scroll v) n i (g_features v) (g_platform v) (g_platform_ready v).
Definition set_viewport w h v : vela Doc E := mk_vela (g_doc v) (g_raw v) (g_url v) (g_status v) (g_history v) w h (g_scroll v) (g_history_count v) (g_history_index v) (g_features v) (g_platform v) (g_platform_ready v).
Definition set_scroll y v : vela Doc E := mk_vela (g_doc v) (g_raw v) (g_url v) (g_status v) (g_history v) (g_viewport v) (g_viewport_h v) y (g_history_count v) (g_history_index v) (g_features v) (g_platform v) (g_platform_ready v).
Definition set_features f v : vela Doc E := mk_vela (g_doc v) (g_raw v) (g_url v) (g_status v) (g_history v) (g_viewport v) (g_viewport_h v) (g_scroll v) (g_history_count v) (g_history_index v) f (g_platform v) (g_platform_ready v).
Definition set_platform p r v : vela Doc E := mk_vela (g_doc v) (g_raw v) (g_url v) (g_status v) (g_history v) (g_viewport v) (g_viewport_h v) (g_scroll v) (g_history_count v) (g_history_index v) (g_features v) p r.

Definition ready v : bool := negb (g_platform_ready v =? 0).
Definition can v (bit : Z) : bool := ready v && has (capabilities (g_platform v)) bit.
Definition tls v : bool := can v VELA_PLATFORM_CAP_TLS.

(** [seturl] *)
Definition seturl (s : bytes) v := set_url (cp VELA_URL_CAP s) v.

Definition say (s : bytes) v := set_status (cp 160 s) v.

Definition repaint (s : state) : res state :=
  let '(v, e) := s in
  if can v VELA_PLATFORM_CAP_REPAINT && negb (fn_null (request_repaint (g_platform v))) then
    f ← called (request_repaint (g_platform v)); e ← f e; Ok (v, e)
  else Ok (v, e).

Definition logm (l : Z) (m : bytes) (s : state) : res state :=
  let '(v, e) := s in
  if can v VELA_PLATFORM_CAP_LOG && negb (fn_null (op_log (g_platform v))) then
    f ← called (op_log (g_platform v)); e ← f l m e; Ok (v, e)
  else Ok (v, e).

(** [g_viewport>40?g_viewport-40:g_viewport] *)
Definition layout_width v : Z := if 40 <? g_viewport v then g_viewport v - 40 else g_viewport v.

Definition parse v : option (vela Doc E) :=
  d ← aster_parse_html (g_doc v) (g_raw v);
  d ← aster_layout d (layout_width v);
  Some (set_scroll 0 (set_doc d v)).

(** ** Scripts *)

(** The four arrays [scripts] writes. *)
Record script_out := mk_out { redir : bytes; title : bytes; body : bytes; write : bytes }.

(** The assignments and the writing of one script element, its text [s] in the array
    of [VELA_JS_TEXT_CAP]. *)
Definition script_texts (s : bytes) (o : script_out) : script_out :=
  let o := match jsassign s (chars "document.title") 1024 with
           | Some tmp => mk_out (redir o) (cp 96 tmp) (body o) (write o) | None => o end in
  let o := match jsassign s (chars "document.body.innerhtml") 1024 with
           | Some tmp => mk_out (redir o) (title o) (cp 4096 tmp) (write o) | None => o end in
  let href := match jsassign s (chars "window.location.href") 1024 with
              | Some tmp => Some tmp | None => jsassign s (chars "location.href") 1024 end in
  let o := match href with
           | Some tmp => mk_out (cp VELA_URL_CAP tmp) (title o) (body o) (write o) | None => o end in
  match jscall s (chars "document.write") 1024 with
  | Some tmp => mk_out (redir o) (title o) (body o) (cat 2048 (write o) tmp) | None => o end.

Definition run_script (s : bytes) (o : script_out) (w : state) : res (script_out * state) :=
  let o := script_texts s o in
  match jscall s (chars "console.log") 1024 with
  | Some tmp => w ← logm 1 tmp w; Ok (o, w)
  | None => Ok (o, w)
  end.

(** [while((p=findci(p,"<script")))] *)
Fixpoint scripts_loop (fuel : nat) (p : bytes) (o : script_out) (w : state) : res (script_out * state) :=
  match fuel with
  | O => Fault
  | S f =>
      match findci p (chars "<script") with
      | None => Ok (o, w)
      | Some p =>
          match until 62 p with
          | [] => Ok (o, w)
          | _ :: g =>
              match findci g (chars "</script") with
              | None => Ok (o, w)
              | Some e =>
                  let n := len g - len e in
                  let n := if VELA_JS_TEXT_CAP <=? n then VELA_JS_TEXT_CAP - 1 else n in
                  '(o, w) ← run_script (take (Z.to_nat n) g) o w;
                  scripts_loop f (drop 8 e) o w
              end
          end
      end
  end.

Definition scripts (o : script_out) (w : state) : res (script_out * state) :=
  scripts_loop (S (length (g_raw (fst w)))) (g_raw (fst w)) o w.

(** The document [raw] with what its scripts wrote: the body they set, or [raw] with
    their output behind it. *)
Definition written (o : script_out) (raw : bytes) : bytes :=
  match body o with
  | _ :: _ =>
      let b := cat VELA_RAW_CAP [] (chars "<html><head><title>UN_Vela script</title></head><body>") in
      let b := cat VELA_RAW_CAP b (body o) in
      let b := cat VELA_RAW_CAP b (write o) in
      let b := cat VELA_RAW_CAP b (chars "</body></html>") in
      cp VELA_RAW_CAP b
  | [] => match write o with _ :: _ => cat VELA_RAW_CAP raw (write o) | [] => raw end
  end.

(** [preprocess]: the address to go to, the title, the document. *)
Definition preprocess (w : state) : res (bytes * bytes * state) :=
  if negb (has (g_features (fst w)) VELA_FEATURE_JAVASCRIPT) then Ok ([], [], w)
  else
    '(o, (v, e)) ← scripts (mk_out [] [] [] []) w;
    Ok (redir o, title o, (set_raw (written o (g_raw v)) v, e)).

(** ** History *)

(** [while( *a|| *b)if( *a++!= *b++){same=0;break;}] *)
Fixpoint same (a b : bytes) : bool :=
  match a, b with
  | [], [] => true
  | x :: a', y :: b' => if x =? y then same a' b' else false
  | _, _ => false
  end.

(** [for(int i=1;i<VELA_HISTORY_MAX;i++)cp(g_history[i-1],VELA_URL_CAP,g_history[i]);] *)
Fixpoint shift_history (k : nat) (i : Z) (h : list bytes) : option (list bytes) :=
  match k with
  | O => Some h
  | S k' => t ← rd h i; h ← wr h (i - 1) (cp VELA_URL_CAP t); shift_history k' (i + 1) h
  end.

Definition hist (u : bytes) v : option (vela Doc E) :=
  match u with
  | [] => Some v
  | _ =>
      seen ← (if 0 <=? g_history_index v then a ← rd (g_history v) (g_history_index v); Some (same a u)
              else Some false);
      if (seen : bool) then Some v
      else
        let count := if g_history_index v + 1 <? g_history_count v then g_history_index v + 1
                     else g_history_count v in
        if count <? VELA_HISTORY_MAX then
          h ← wr (g_history v) count (cp VELA_URL_CAP u);
          Some (set_history h (count + 1) count v)
        else
          h ← shift_history 11 1 (g_history v);
          h ← wr h (VELA_HISTORY_MAX - 1) (cp VELA_URL_CAP u);
          Some (set_history h count (VELA_HISTORY_MAX - 1) v)
  end.

(** ** Navigation *)

(** [preprocess(r,sizeof(r),t,sizeof(t));parse();if(t[0])cp(g_doc.title,...,t);] *)
Definition display (w : state) : res (bytes * state) :=
  '(red, t, (v, e)) ← preprocess w;
  v ← ub (parse v);
  Ok (red, (match t with [] => v | _ => set_doc (aster_set_title (cp 96 t) (g_doc v)) v end, e)).

Definition log_title (d : Doc) (e : E) : res E :=
  e ← serial_write (chars "VELA: title ") e;
  e ← serial_write (aster_title d) e;
  serial_write [CR; LF] e.

(** The last lines of [navdepth]: the title before the status line. *)
Definition loaded (w : state) : res (Z * state) :=
  let '(v, e) := w in
  let v := match aster_title (g_doc v) with
           | [] => v
           | t =>
               let s := cp 160 (g_status v) in
               set_status (cat 160 (cat 160 (cp 160 t) (chars " / ")) s) v
           end in
  w ← repaint (v, e); Ok (1, w).

(** The body of [navdepth]; [follow] is the call for the address a script went to,
    when [depth] allows one. *)
Definition navigate (follow : option (bytes -> state -> res (Z * state))) (u : bytes) (push : bool) (w : state)
  : res (Z * state) :=
  let '(v, e) := w in
  match u with
  | [] => Ok (0, (say (chars "Enter an HTTP/HTTPS address") v, e))
  | _ =>
      if negb (can v VELA_PLATFORM_CAP_HTTP) || fn_null (http_get (g_platform v)) then
        Ok (0, (say (chars "No HTTP backend installed") v, e))
      else
        let '(n, st) := canon (tls v) u VELA_URL_CAP (g_status v) in
        let v := set_status st v in
        match n with
        | None => Ok (0, (v, e))
        | Some n =>
            w ← repaint (say (chars "Loading...") v, e);
            '(v, e) ← logm 1 (chars "loading document") w;
            get ← called (http_get (g_platform v));
            '(ok, raw, st, e) ← get n (g_raw v) (g_status v) e;
            let v := set_status st (set_raw raw v) in
            if ok =? 0 then Ok (0, (v, e))
            else
              '(red, (v, e)) ← display (seturl n v, e);
              v ← (if push then ub (hist n v) else Ok v);
              e ← log_title (g_doc v) e;
              match red, follow with
              | _ :: _, Some go =>
                  let '(next, st) := resolve (tls v) (Ptr n) red VELA_URL_CAP (g_status v) in
                  let v := set_status st v in
                  match next with
                  | Some next =>
                      if negb (ci next (chars "javascript:")) then go next (v, e)
                      else loaded (v, e)
                  | None => loaded (v, e)
                  end
              | _, _ => loaded (v, e)
              end
        end
  end.

(** [navdepth(u,push,depth)] with [k] = 2 - depth redirections left. *)
Fixpoint navdepth (k : nat) (u : bytes) (push : bool) (w : state) : res (Z * state) :=
  navigate (match k with O => None | S k' => Some (fun next w => navdepth k' next push w) end) u push w.

Definition nav (u : bytes) (p : bool) (w : state) : res (Z * state) := navdepth 2 u p w.

(** ** Start *)
Definition startpage_html : bytes :=
  chars "<html><head><title>UN_Vela</title><style>h2{color:#315e80} a{font-weight:bold}</style></" ++
  chars "head><body><h1>UN_Vela 0.3</h1><h2>Orion native carrier</h2><p>HTML, CSS subset, images," ++
  chars " links, history, scrolling and safe JavaScript subset are enabled.</p><p>HTTP resources " ++
  chars "are native. HTTPS is enabled only when a trusted Orion TLS provider is installed.</p></b" ++
  chars "ody></html>".

Definition startpage v : option (vela Doc E) := parse (set_raw (cp VELA_RAW_CAP startpage_html) v).

Definition vela_set_platform (p : ptr (VelaPlatformOps E)) v : Z * vela Doc E :=
  let v := set_platform zero_ops 0 v in
  match p with
  | Null => (1, v)
  | Ptr ops =>
      if vela_platform_is_compatible p =? 0 then (0, v)
      else
        let n := if struct_size ops <? ops_size then struct_size ops else ops_size in
        (1, set_platform (copy_ops n ops) 1 v)
  end.

Definition vela_api_version : Z := VELA_API_VERSION.
Definition vela_capabilities : Z :=
  fold_left Z.lor [VELA_CAP_HISTORY; VELA_CAP_SCROLL; VELA_CAP_LOCAL_HTML; VELA_CAP_ASTER_DOC;
    VELA_CAP_LINK_ACTIVATION; VELA_CAP_JS_SUBSET; VELA_CAP_FEATURE_PROFILE; VELA_CAP_RESOURCES;
    VELA_CAP_NAV_ACTIONS] VELA_CAP_PLATFORM_ABI.
Definition vela_platform_capabilities v : Z := if ready v then capabilities (g_platform v) else 0.
Definition vela_set_features (f : Z) (w : state) : res state := let '(v, e) := w in repaint (set_features f v, e).
Definition vela_features v : Z := g_features v.

Definition vela_init_ex (width : Z) (p : ptr (VelaPlatformOps E)) v : option (Z * vela Doc E) :=
  let v := set_viewport (if 120 <? width then width else 120) 420 v in
  let v := set_features VELA_PROFILE_FULL (set_history (g_history v) 0 (-1) (set_scroll 0 v)) in
  let v := seturl [] v in
  let '(ok, v) := vela_set_platform p v in
  if ok =? 0 then Some (0, v)
  else
    let v := say (chars "Ready / Aster Engine ") v in
    let v := set_status (cat 160 (g_status v) aster_version) v in
    v ← startpage v; Some (1, v).

(** ** Scrolling and viewport *)

Definition vela_set_scroll (y : Z) (w : state) : res state :=
  let '(v, e) := w in
  m ← int_of (aster_document_height (g_doc v) - g_viewport_h v);
  m ← int_of (m + 24);
  let m := if m <? 0 then 0 else m in
  let y := if y <? 0 then 0 else y in
  let y := if m <? y then m else y in
  repaint (set_scroll y v, e).

Definition vela_scroll_by (d : Z) (w : state) : res state :=
  y ← int_of (g_scroll (fst w) + d); vela_set_scroll y w.

Definition vela_set_viewport_size (width height : Z) (s : state) : res state :=
  let '(v, e) := s in
  let width := if width <? 120 then 120 else width in
  let height := if height <? 80 then 80 else height in
  let ch := negb (width =? g_viewport v) in
  let v := set_viewport width height v in
  v ← (if ch then d ← ub (aster_layout (g_doc v) (layout_width v)); Ok (set_doc d v) else Ok v);
  vela_set_scroll (g_scroll v) (v, e).

Definition vela_set_viewport (width : Z) (s : state) : res state :=
  vela_set_viewport_size width (g_viewport_h (fst s)) s.

Definition vela_paint (x y width height : Z) (s : state) : res state :=
  '(v, e) ← vela_set_viewport_size width height s;
  x ← int_of (x + 18); y ← int_of (y + 10); width ← int_of (width - 36); height ← int_of (height - 20);
  e ← aster_paint (g_doc v) x y width height (g_scroll v) e;
  Ok (v, e).

(** ** The address line *)

Definition vela_input_char (c : Z) (w : state) : res state :=
  let '(v, e) := w in
  if len (g_url v) <? VELA_URL_CAP - 1 then repaint (set_url (g_url v ++ [c]) v, e) else Ok w.

Definition vela_backspace (w : state) : res state :=
  let '(v, e) := w in
  if negb (len (g_url v) =? 0) then repaint (set_url (take (length (g_url v) - 1) (g_url v)) v, e) else Ok w.

Definition vela_load_url (u : bytes) (w : state) : res (Z * state) := nav u true w.
Definition vela_go (w : state) : res (Z * state) := nav (text_of (g_url (fst w))) true w.

Definition vela_load_html (h virtual_url : ptr bytes) (w : state) : res (Z * state) :=
  match h with
  | Null => Ok (0, w)
  | Ptr h =>
      let '(v, e) := w in
      let v := seturl (match virtual_url with Ptr u => u | Null => chars "about:local" end)
                 (set_raw (cp VELA_RAW_CAP h) v) in
      '(_, (v, e)) ← display (v, e);
      v ← ub (hist (text_of (g_url v)) (say (chars "Local document") v));
      w ← repaint (v, e); Ok (1, w)
  end.

(** ** Moving in the history *)

Definition vela_can_back v : bool := 0 <? g_history_index v.
Definition vela_can_forward v : bool := (0 <=? g_history_index v) && (g_history_index v + 1 <? g_history_count v).

(** Both directions: load the entry [x] and make it the current one if that worked. *)
Definition revisit (x : Z) (w : state) : res (Z * state) :=
  u ← ub (rd (g_history (fst w)) x);
  '(ok, (v, e)) ← nav (cp VELA_URL_CAP u) false w;
  if ok =? 0 then Ok (0, (v, e)) else Ok (1, (set_history (g_history v) (g_history_count v) x v, e)).

Definition vela_back (w : state) : res (Z * state) :=
  if negb (vela_can_back (fst w)) then Ok (0, w) else revisit (g_history_index (fst w) - 1) w.
Definition vela_forward (w : state) : res (Z * state) :=
  if negb (vela_can_forward (fst w)) then Ok (0, w) else revisit (g_history_index (fst w) + 1) w.
Definition vela_reload (w : state) : res (Z * state) :=
  match text_of (g_url (fst w)) with [] => Ok (0, w) | u => nav u false w end.

(** [return g_scroll!=before;] *)
Definition scrolled (before : Z) (r : res state) : res (Z * state) :=
  w ← r; Ok (if g_scroll (fst w) =? before then 0 else 1, w).

Definition vela_navigate_action (action : VelaNavAction) (w : state) : res (Z * state) :=
  let v := fst w in
  let before := g_scroll v in
  let page := if 96 <? g_viewport_h v then g_viewport_h v - 48 else 48 in
  match action with
  | VELA_NAV_BACK => vela_back w
  | VELA_NAV_FORWARD => vela_forward w
  | VELA_NAV_RELOAD => vela_reload w
  | VELA_NAV_LINE_UP => scrolled before (vela_scroll_by (-48) w)
  | VELA_NAV_LINE_DOWN => scrolled before (vela_scroll_by 48 w)
  | VELA_NAV_PAGE_UP => scrolled before (vela_scroll_by (- page) w)
  | VELA_NAV_PAGE_DOWN => scrolled before (vela_scroll_by page w)
  | VELA_NAV_HOME => scrolled before (vela_set_scroll 0 w)
  | VELA_NAV_END => scrolled before (vela_set_scroll (aster_document_height (g_doc v)) w)
  end.

(** ** Links and resources *)

Definition vela_activate_link (x y : Z) (w : state) : res (Z * state) :=
  let '(v, e) := w in
  l ← ub (aster_link_at (g_doc v) x y (g_scroll v) VELA_URL_CAP);
  match l with
  | None => Ok (0, w)
  | Some h =>
      if ci h (chars "javascript:") then
        if negb (has (g_features v) VELA_FEATURE_JAVASCRIPT) then
          Ok (0, (say (chars "JavaScript disabled by profile") v, e))
        else
          let s := cp VELA_JS_TEXT_CAP (drop 11 h) in
          '(v, e) ← match jscall s (chars "console.log") 256 with
                    | Some tmp => logm 1 tmp (v, e)
                    | None => Ok (v, e)
                    end;
          let '(u, st) := match jsassign s (chars "location.href") 256 with
                          | Some tmp => resolve (tls v) (Ptr (text_of (g_url v))) tmp VELA_URL_CAP (g_status v)
                          | None => (None, g_status v)
                          end in
          let v := set_status st v in
          match u with
          | Some u => nav u true (v, e)
          | None => w ← repaint (say (chars "JavaScript link executed") v, e); Ok (1, w)
          end
      else
        let '(t, st) := resolve (tls v) (Ptr (text_of (g_url v))) h VELA_URL_CAP (g_status v) in
        let v := set_status st v in
        match t with Some t => nav t true (v, e) | None => Ok (0, (v, e)) end
  end.

(** [if(s&&sc)cp(s,sc,why);] *)
Definition note (s : ptr bytes) (sc : Z) (why : bytes) : ptr bytes :=
  match s with Ptr _ => if sc =? 0 then s else Ptr (cp sc why) | Null => Null end.

Definition vela_resource_get (r : ptr bytes) (d : ptr bytes) (dc : Z) (n : ptr Z) (t : ptr bytes) (tc : Z)
    (s : ptr bytes) (sc : Z) (w : state) : res (Z * resource * state) :=
  let '(v, e) := w in
  let n := match n with Ptr _ => Ptr 0 | Null => Null end in
  let t := note t tc [] in
  let s := note s sc [] in
  match r with
  | Null | Ptr [] => Ok (0, (d, n, t, s), w)
  | Ptr r =>
      if is_null d || (dc =? 0) then Ok (0, (d, n, t, s), w)
      else if negb (can v VELA_PLATFORM_CAP_RESOURCES) || fn_null (resource_get (g_platform v)) then
        Ok (0, (d, n, t, note s sc (chars "No resource backend installed")), w)
      else
        let '(u, st) := resolve (tls v) (Ptr (text_of (g_url v))) r VELA_URL_CAP (g_status v) in
        let v := set_status st v in
        match (match u with Some u => if ci u (chars "javascript:") then None else Some u | None => None end) with
        | None => Ok (0, (d, n, t, note s sc (chars "Unsupported resource URL")), (v, e))
        | Some u =>
            get ← called (resource_get (g_platform v));
            '(ok, o, e) ← get u (d, n, t, s) dc tc sc e;
            Ok (ok, o, (v, e))
        end
  end.

(** ** What the desktop reads *)
Definition vela_scroll v : Z := g_scroll v.
Definition vela_url v : bytes := text_of (g_url v).
Definition vela_status v : bytes := g_status v.
Definition vela_title v : bytes := match aster_title (g_doc v) with [] => VELA_NAME | t => t end.
Definition vela_document v : Doc := g_doc v.
End vela.
