(* ===== verification/VelaSafe.v ===== *)
(** * The browser engine keeps its state well formed

    The history as an abstract object and the refinement of [hist]; the contracts of
    the document engine and of the platform; the invariant of the static variables,
    kept by every operation; sessions of any operations in any order. *)

From S2P Require Import Prelude Cstr NetEnv VelaText Vela.
From stdpp Require Import relations.
#[local] Open Scope Z_scope.

(** ** The history as a list with a position *)

Definition visit (u : bytes) (h : list bytes * Z) : list bytes * Z :=
  let '(l, i) := h in
  if bool_decide (0 <= i /\ l !! Z.to_nat i = Some u) then (l, i)
  else
    let l := take (Z.to_nat (i + 1)) l ++ [u] in
    let l := drop (length l - 12) l in
    (l, len l - 1).

(** What may become of it: a visit, or a step to a neighbouring entry. *)
Inductive hop : relation (list bytes * Z) :=
| hop_visit u h : u <> [] -> fits 256 u -> hop h (visit u h)
| hop_move l i j : (j = i - 1 \/ j = i + 1) -> 0 <= j < len l -> hop (l, i) (l, j).

Definition past {Doc E} (v : vela Doc E) : list bytes * Z :=
  (take (Z.to_nat (g_history_count v)) (g_history v), g_history_index v).

Record history_shape (h : list bytes) (n i : Z) : Prop := {
  h_length : length h = 12%nat;
  h_texts : Forall (fits 256) h;
  h_count : 0 <= n <= 12;
  h_index : -1 <= i < n
}.
Definition history_ok {Doc E} (v : vela Doc E) : Prop :=
  history_shape (g_history v) (g_history_count v) (g_history_index v).

Lemma same_spec a b : same a b = true <-> a = b.
Proof.
  revert b. induction a as [|x a IH]; intros [|y b]; cbn; try done.
  destruct (Z.eqb_spec x y) as [->|H]; [rewrite IH|]; split; intros E; congruence.
Qed.

(** The array holds twelve entries: the loop moves each one down. *)
Lemma shift_step k i h t :
  1 <= i < len h -> h !! Z.to_nat i = Some t -> fits 256 t ->
  shift_history (S k) i h = shift_history k (i + 1) (<[Z.to_nat (i - 1) := t]> h).
Proof.
  intros Hi Ht Hf. cbn [shift_history]. unfold rd. if_true. rewrite Ht. cbn [mbind option_bind].
  rewrite wr_Some by lia. cbn [mbind option_bind]. by rewrite cp_id.
Qed.

Lemma shift_history_spec h :
  Forall (fits 256) h -> length h = 12%nat ->
  exists a, shift_history 11 1 h = Some (drop 1 h ++ [a]).
Proof.
  intros Hh Hl. do 12 (destruct h as [|? h]; [done|]). destruct h; [|done]. clear Hl.
  repeat match goal with H : Forall _ (_ :: _) |- _ => inversion_clear H end. eexists.
  do 11 (erewrite shift_step; [|rewrite ?length_insert; cbn; lia|reflexivity|done]). reflexivity.
Qed.

Lemma hist_past_length {Doc E} (v : vela Doc E) :
  history_ok v -> len (fst (past v)) = g_history_count v.
Proof. intros [Hl _ Hc _]. cbn. rewrite length_take. lia. Qed.

(** The current entry, when there is one. *)
Lemma current_entry {Doc E} (v : vela Doc E) :
  history_ok v -> 0 <= g_history_index v ->
  exists a, rd (g_history v) (g_history_index v) = Some a /\ fits 256 a /\
    fst (past v) !! Z.to_nat (g_history_index v) = Some a.
Proof.
  intros [Hl Ht Hc Hi] H0. destruct (rd_is_Some (g_history v) (g_history_index v)) as [a Ha]; [lia|].
  exists a. split; [done|]. apply rd_inv in Ha as [_ Ha]. split; [by eapply Forall_lookup_1|].
  cbn. by rewrite lookup_take_lt by lia.
Qed.

(** A visit that adds an entry. *)
Lemma add_entry {Doc E} (v : vela Doc E) u :
  history_ok v -> u <> [] -> fits 256 u ->
  ~ (0 <= g_history_index v /\ fst (past v) !! Z.to_nat (g_history_index v) = Some u) ->
  exists h n i, hist u v = Some (set_history h n i v) /\
    history_ok (set_history h n i v) /\ past (set_history h n i v) = visit u (past v).
Proof.
  intros Hok Hu Hf Hnew. unfold visit, past. rewrite bool_decide_false by exact Hnew.
  unfold hist. destruct u as [|c u]; [done|]. set (t := c :: u) in *.
  assert (Hseen : (if 0 <=? g_history_index v then a ← rd (g_history v) (g_history_index v); Some (same a t)
                   else Some false) = Some false).
  { destruct (Z.leb_spec 0 (g_history_index v)); [|done].
    destruct (current_entry v Hok) as (a & -> & _ & Ha); [done|]. cbn. f_equal.
    destruct (same a t) eqn:Es; [|done]. apply same_spec in Es as ->. by destruct Hnew. }
  rewrite Hseen. cbn [mbind option_bind]. clear Hseen Hnew. pose proof Hok as [Hl Ht Hc Hi].
  replace (if g_history_index v + 1 <? g_history_count v then g_history_index v + 1 else g_history_count v)
    with (g_history_index v + 1) by (destruct (Z.ltb_spec (g_history_index v + 1) (g_history_count v)); lia).
  set (n := g_history_index v + 1). assert (Hn : 0 <= n <= 12) by (unfold n; lia).
  rewrite cp_id by done. rewrite !take_take, Nat.min_l by lia. unfold VELA_HISTORY_MAX in *.
  destruct (Z.ltb_spec n 12).
  - rewrite wr_Some by lia. cbn [mbind option_bind]. do 3 eexists. split; [reflexivity|].
    cbn [set_history g_history g_history_count g_history_index]. split; [split|].
    + cbn. by rewrite length_insert.
    + by apply Forall_insert.
    + cbn. lia.
    + cbn. lia.
    + assert (E1 : take (Z.to_nat (n + 1)) (<[Z.to_nat n := t]> (g_history v)) = take (Z.to_nat n) (g_history v) ++ [t]).
      { replace (Z.to_nat (n + 1)) with (S (Z.to_nat n)) by lia.
        rewrite (take_S_r _ _ t) by (apply list_lookup_insert_eq; lia). by rewrite take_insert_ge by lia. }
      cbn. rewrite E1. f_equal; rewrite ?length_drop, length_app, length_take; cbn [length].
      * by replace (_ - 12)%nat with 0%nat by lia.
      * lia.
  - replace n with 12 in * by lia. destruct (shift_history_spec (g_history v) Ht Hl) as [a ->].
    cbn [mbind option_bind]. assert (Hd : length (drop 1 (g_history v)) = 11%nat) by (rewrite length_drop; lia).
    rewrite wr_Some by (rewrite length_app, Hd; cbn; lia). cbn [mbind option_bind].
    assert (E1 : <[Z.to_nat (12 - 1) := t]> (drop 1 (g_history v) ++ [a]) = drop 1 (g_history v) ++ [t]).
    { rewrite insert_app_r_alt, Hd by (rewrite Hd; lia). done. }
    rewrite E1. do 3 eexists. split; [reflexivity|]. cbn [set_history g_history g_history_count g_history_index].
    split; [split|].
    + cbn. rewrite length_app, Hd. done.
    + cbn. apply Forall_app. split; [by apply Forall_drop|by constructor].
    + cbn. lia.
    + cbn. lia.
    + rewrite (take_ge (g_history v)) by lia. cbn.
      assert (E2 : drop (length (g_history v ++ [t]) - 12) (g_history v ++ [t]) = drop 1 (g_history v) ++ [t]).
      { rewrite length_app, Hl. cbn [length]. by rewrite drop_app_le by (cbn; lia). }
      rewrite E2, length_app, Hd. f_equal. apply take_ge. rewrite length_app, Hd. cbn. lia.
Qed.

(** [hist] visits the address: the entries ahead are forgotten, and the oldest when
    there are twelve. *)
Lemma hist_visit {Doc E} (v : vela Doc E) u :
  history_ok v -> u <> [] -> fits 256 u ->
  exists h n i, hist u v = Some (set_history h n i v) /\
    history_ok (set_history h n i v) /\ past (set_history h n i v) = visit u (past v).
Proof.
  intros Hok Hu Hf.
  destruct (decide (0 <= g_history_index v /\ fst (past v) !! Z.to_nat (g_history_index v) = Some u)) as [[H0 H1]|Hn];
    [|by apply add_entry].
  exists (g_history v), (g_history_count v), (g_history_index v).
  assert (Ev : set_history (g_history v) (g_history_count v) (g_history_index v) v = v) by by destruct v.
  rewrite Ev. split; [|split; [done|]].
  - unfold hist. destruct (current_entry v Hok H0) as (a & Ha & _ & Ha1). rewrite H1 in Ha1. injection Ha1 as <-.
    replace (0 <=? g_history_index v) with true by (symmetry; by apply Z.leb_le). rewrite Ha. cbn [mbind option_bind].
    replace (same u u) with true by (symmetry; by apply same_spec). by destruct u.
  - unfold visit, past in *. by rewrite bool_decide_true.
Qed.

(** ** Contracts *)

Definition nonzero (t : bytes) : Prop := Forall (fun c => c <> 0) t.
Definition is_int (z : Z) : Prop := -2147483648 <= z <= 2147483647.

(** What a client may ask of the document engine: the pages it is given, the widths
    it lays them out for, the memory it may find where a document will be. *)
Record limits (Doc : Type) := mk_limits { readable : bytes -> Prop; widest : Z; storage : Doc -> Prop }.
Arguments mk_limits {Doc}. Arguments readable {Doc}. Arguments widest {Doc}. Arguments storage {Doc}.

(** What the browser relies on in the document engine, within its limits: documents
    in shape [D], of at most 2^29 pixels. *)
Class AsterLaws {Doc E} `{!AsterEngine Doc E} (T : Prop) (D : Doc -> Prop) (J : E -> Prop) (room : limits Doc) : Prop := {
  law_widest : 820 <= widest room <= 2147483647;
  law_start : readable room startpage_html;
  law_storage d : D d -> storage room d;
  law_parse d h w : storage room d -> readable room h -> fits 32768 h -> 80 <= w <= widest room ->
    returns (d ← aster_parse_html d h; aster_layout d w) D;
  law_layout d w : D d -> 80 <= w <= widest room -> returns (aster_layout d w) D;
  law_link d x y s : D d -> is_int x -> -1073741824 <= y <= 1073741824 -> 0 <= s <= 536870912 ->
    returns (aster_link_at d x y s 256) (fun l => match l with Some u => fits 256 u | None => True end);
  law_height d : D d -> 0 <= aster_document_height d <= 536870912;
  law_title d : D d -> fits 96 (aster_title d);
  law_set_title d t : D d -> fits 96 t -> D (aster_set_title t d);
  law_same_height d t : aster_document_height (aster_set_title t d) = aster_document_height d;
  law_version : nonzero aster_version;
  law_paint d x y w h s e : D d -> J e -> 0 <= s <= 536870912 -> Forall is_int [x; y; w; h] ->
    safe T (aster_paint d x y w h s e) J
}.

(** The texts the scripts of a page leave, and the page that is parsed after them. *)
Fixpoint gathered (fuel : nat) (p : bytes) (o : script_out) : script_out :=
  match fuel with
  | O => o
  | S f =>
      match findci p (chars "<script") with
      | None => o
      | Some p =>
          match until 62 p with
          | [] => o
          | _ :: g =>
              match findci g (chars "</script") with
              | None => o
              | Some e =>
                  let n := Z.min (len g - len e) (VELA_JS_TEXT_CAP - 1) in
                  gathered f (drop 8 e) (script_texts (take (Z.to_nat n) g) o)
              end
          end
      end
  end.
Definition after_scripts (raw : bytes) : bytes :=
  written (gathered (S (length raw)) raw (mk_out [] [] [] [])) raw.

(** A page the engine can be given, with its scripts run or not. *)
Definition displayable {Doc} (room : limits Doc) (raw : bytes) : Prop :=
  readable room raw /\ readable room (after_scripts raw).

Class ConsoleLaws {E} `{!Console E} (T : Prop) (J : E -> Prop) : Prop :=
  law_console t e : nonzero t -> J e -> safe T (serial_write t e) J.

(** A function pointer that may be called. *)
Definition fn_ok {A} (P : A -> Prop) (f : fn A) : Prop :=
  match f with NullFn => True | Torn => False | Fn f => P f end.

(** What the browser relies on in the platform.  The HTTP back end is called with
    allowed addresses only, and its contract says nothing of others; the pages it
    loads are within the limits of the engine, as they are and after their scripts. *)
Record ops_ok {Doc E} (T : Prop) (J : E -> Prop) (room : limits Doc) (p : VelaPlatformOps E) : Prop := {
  ok_http : fn_ok (fun get => forall u raw st e,
    allowed (has (capabilities p) VELA_PLATFORM_CAP_TLS) u -> fits 32768 raw -> fits 160 st -> J e ->
    safe T (get u raw st e) (fun '(ok, raw', st', e') =>
      fits 32768 raw' /\ fits 160 st' /\ J e' /\ (ok <> 0 -> displayable room raw'))) (http_get p);
  ok_repaint : fn_ok (fun f => forall e, J e -> safe T (f e) J) (request_repaint p);
  ok_log : fn_ok (fun f => forall l m e, nonzero m -> J e -> safe T (f l m e) J) (op_log p);
  ok_resource : fn_ok (fun get => forall u o dc tc sc e, fits 256 u -> ci u (chars "javascript:") = false -> J e ->
    safe T (get u o dc tc sc e) (fun '(_, _, e') => J e')) (resource_get p)
}.

Definition scroll_max {Doc E} `{!AsterEngine Doc E} (v : vela Doc E) : Z :=
  Z.max 0 (aster_document_height (g_doc v) - g_viewport_h v + 24).

(** The invariant of the static variables. *)
Record vela_ok {Doc E} `{!AsterEngine Doc E} (T : Prop) (D : Doc -> Prop) (J : E -> Prop) (room : limits Doc)
    (v : vela Doc E) : Prop := {
  s_doc : D (g_doc v);
  s_raw : fits 32768 (g_raw v);
  s_url : len (g_url v) <= 255;
  s_status : fits 160 (g_status v);
  s_history : history_ok v;
  s_viewport : 120 <= g_viewport v <= widest room;
  s_viewport_h : 80 <= g_viewport_h v <= 1073741824;
  s_scroll : 0 <= g_scroll v <= scroll_max v;
  s_platform : ready v = true -> ops_ok T J room (g_platform v)
}.

(** The literal behind the first [c] after [e]. *)
Lemma literal_fits c s e cap t :
  0 < cap -> nonzero s ->
  match findci s e with
  | None => None
  | Some p => match until c p with [] => None | _ :: p' => nonempty (jsstr p' cap) end
  end = Some t -> fits cap t.
Proof.
  intros Hc Hs. destruct (findci s e) as [p|] eqn:Ep; [|done].
  apply findci_suffix in Ep as [[a ->] _]. apply Forall_app in Hs as [_ Hs].
  destruct (until_suffix c p) as [b Hb]. rewrite Hb in Hs. apply Forall_app in Hs as [_ Hs].
  destruct (until c p) as [|x p']; [done|]. inversion_clear Hs.
  pose proof (jsstr_fits p' cap Hc ltac:(done)) as H1. unfold nonempty. destruct (jsstr p' cap); [done|].
  by intros [= <-].
Qed.

Lemma jsassign_fits s e cap t : 0 < cap -> nonzero s -> jsassign s e cap = Some t -> fits cap t.
Proof. exact (literal_fits EQUALS s e cap t). Qed.
Lemma jscall_fits s e cap t : 0 < cap -> nonzero s -> jscall s e cap = Some t -> fits cap t.
Proof. exact (literal_fits PAREN s e cap t). Qed.

(** Limits on the length only. *)
Definition short {Doc} (n : Z) (D : Doc -> Prop) : limits Doc := mk_limits (fits n) 2147483647 D.

Section safety.
Context {Doc E : Type} `{!AsterEngine Doc E, !Console E} (T : Prop) (D : Doc -> Prop) (J : E -> Prop) (room : limits Doc).
Context `{!AsterLaws T D J room, !ConsoleLaws T J}.
Implicit Types v : vela Doc E.
Local Abbreviation ok := (vela_ok T D J room).

(** Callbacks leave the browser alone. *)
Definition same_vela v : vela Doc E * E -> Prop := fun '(v', e') => v' = v /\ J e'.

Lemma can_ready v bit : can v bit = true -> ready v = true.
Proof. unfold can. intros H. by bool_prop. Qed.

Lemma repaint_ok v e : ok v -> J e -> safe T (repaint (v, e)) (same_vela v).
Proof.
  intros Hv He. unfold repaint. case_if; [|done].
  destruct (s_platform _ _ _ _ _ Hv (can_ready _ _ H)) as [_ Hr _ _]. unfold called, fn_ok in *.
  destruct (request_repaint (g_platform v)); [done|done|]. cbn [mbind res_bind].
  eapply safe_bind; [by apply Hr|]. intros e' He'. done.
Qed.

Lemma logm_ok l m v e : ok v -> J e -> nonzero m -> safe T (logm l m (v, e)) (same_vela v).
Proof.
  intros Hv He Hm. unfold logm. case_if; [|done].
  destruct (s_platform _ _ _ _ _ Hv (can_ready _ _ H)) as [_ _ Hr _]. unfold called, fn_ok in *.
  destruct (op_log (g_platform v)); [done|done|]. cbn [mbind res_bind].
  eapply safe_bind; [by apply Hr|]. intros e' He'. done.
Qed.

(** ** Assignments keep the invariant *)

Lemma set_status_ok st v : ok v -> fits 160 st -> ok (set_status st v).
Proof. intros [] ?. by split. Qed.

Lemma say_ok s n v : ok v -> fits n s -> ok (say s v).
Proof. intros Hv Hs. apply set_status_ok; [done|]. by apply (cp_fits 160 n). Qed.

Lemma set_raw_ok r v : ok v -> fits 32768 r -> ok (set_raw r v).
Proof. intros [] ?. by split. Qed.

Lemma set_url_ok u v : ok v -> len u <= 255 -> ok (set_url u v).
Proof. intros [] ?. by split. Qed.

Lemma seturl_ok u v : ok v -> ok (seturl u v).
Proof. intros Hv. apply set_url_ok; [done|]. unfold cp, VELA_URL_CAP. pose proof (fit_length 256 u). lia. Qed.

Lemma set_features_ok f v : ok v -> ok (set_features f v).
Proof. intros []. by split. Qed.

Lemma set_history_ok h n i v : ok v -> history_ok (set_history h n i v) -> ok (set_history h n i v).
Proof. intros [] ?. by split. Qed.

Lemma set_title_ok t v : ok v -> fits 96 t -> ok (set_doc (aster_set_title t (g_doc v)) v).
Proof.
  intros [H1 H2 H3 H4 ? H6 H7 H8 H9] Ht. split; try done.
  - by apply (law_set_title (T := T) (D := D) (J := J) (room := room)).
  - unfold scroll_max in *. cbn. by rewrite (law_same_height (T := T) (D := D) (J := J) (room := room)).
Qed.

(** The variables in shape, the document apart. *)
Definition nearly_ok v : Prop := forall d, D d -> ok (set_scroll 0 (set_doc d v)).

Lemma ok_nearly v : ok v -> nearly_ok v.
Proof. intros [] d Hd. split; try done. unfold scroll_max. cbn. lia. Qed.

Lemma nearly_status st v : nearly_ok v -> fits 160 st -> nearly_ok (set_status st v).
Proof. intros Hv Hs d Hd. exact (set_status_ok st _ (Hv d Hd) Hs). Qed.
Lemma nearly_raw r v : nearly_ok v -> fits 32768 r -> nearly_ok (set_raw r v).
Proof. intros Hv Hr d Hd. exact (set_raw_ok r _ (Hv d Hd) Hr). Qed.

Lemma parse_ok v :
  nearly_ok v -> storage room (g_doc v) -> readable room (g_raw v) -> fits 32768 (g_raw v) -> 120 <= g_viewport v <= widest room ->
  returns (parse v) (fun v' => ok v' /\ past v' = past v /\ g_url v' = g_url v).
Proof.
  intros Hv Hd Hr Hf Hw. unfold parse. pose proof (law_widest (T := T) (D := D) (J := J) (room := room)).
  destruct (law_parse (T := T) (D := D) (J := J) (room := room) (g_doc v) (g_raw v) (layout_width v)) as (d & E0 & H0); try done.
  { unfold layout_width. case_if; lia. }
  destruct (aster_parse_html (g_doc v) (g_raw v)) as [d1|]; [|done]. cbn [mbind option_bind] in *. rewrite E0.
  cbn [mbind option_bind]. eexists. split; [reflexivity|]. split; [by apply Hv|done].
Qed.

(** ** Scripts *)

Record out_ok (o : script_out) : Prop := {
  o_redir : fits 256 (redir o); o_title : fits 96 (title o);
  o_body : fits 4096 (body o); o_write : fits 2048 (write o) }.

(** One assignment of [run_script]. *)
Lemma assigned_ok (r : option bytes) (f : bytes -> script_out) o :
  out_ok o -> (forall t, r = Some t -> fits 1024 t) -> (forall t, fits 1024 t -> out_ok o -> out_ok (f t)) ->
  out_ok (match r with Some t => f t | None => o end).
Proof. intros Ho Hr Hf. destruct r as [t|]; [|done]. apply Hf; [by apply Hr|done]. Qed.

Lemma script_texts_ok s o : nonzero s -> out_ok o -> out_ok (script_texts s o).
Proof.
  intros Hs Ho. unfold script_texts. cbv zeta.
  apply assigned_ok; [|intros t; by apply jscall_fits|intros t Ht []; split; try done; by apply (cat_fits 2048 2048 1024)].
  apply assigned_ok; [| |intros t Ht []; split; try done; by apply (cp_fits 256 1024)].
  2: { intros t. destruct (jsassign s (chars "window.location.href") 1024) as [u|] eqn:Eu.
       - intros [= <-]. by apply (jsassign_fits s (chars "window.location.href")).
       - by apply jsassign_fits. }
  apply assigned_ok; [|intros t; by apply jsassign_fits|intros t Ht []; split; try done; by apply (cp_fits 4096 1024)].
  apply assigned_ok; [done|intros t; by apply jsassign_fits|intros t Ht []; split; try done; by apply (cp_fits 96 1024)].
Qed.

Lemma run_script_ok s o v e :
  ok v -> J e -> nonzero s ->
  safe T (run_script s o (v, e)) (fun '(o', w) => o' = script_texts s o /\ same_vela v w).
Proof.
  intros Hv He Hs. unfold run_script. cbv zeta.
  destruct (jscall s (chars "console.log") 1024) as [t|] eqn:Et; [|done].
  eapply safe_bind; [apply logm_ok; try done; by apply (jscall_fits s (chars "console.log") 1024)|].
  intros w Hw. done.
Qed.

Lemma nonzero_suffix s p : (exists a, s = a ++ p) -> nonzero s -> nonzero p.
Proof. intros [a ->] H. by apply Forall_app in H as [_ H]. Qed.

Lemma scripts_loop_ok fuel p o v e :
  ok v -> J e -> nonzero p -> out_ok o -> (length p < fuel)%nat ->
  safe T (scripts_loop fuel p o (v, e)) (fun '(o', w) => o' = gathered fuel p o /\ out_ok o' /\ same_vela v w).
Proof.
  intros Hv. revert p o e. induction fuel as [|f IH]; intros p o e He Hp Ho Hf; [lia|]. cbn [scripts_loop gathered].
  destruct (findci p (chars "<script")) as [q|] eqn:Eq; [|done]. apply findci_suffix in Eq as [Eq _].
  assert (Hq : (length q <= length p)%nat) by (destruct Eq as [a ->]; rewrite length_app; lia).
  apply nonzero_suffix in Eq; [|done]. pose proof (until_suffix 62 q) as Eg. destruct (until 62 q) as [|c g]; [done|].
  assert (Hg : (S (length g) <= length q)%nat) by (destruct Eg as [a ->]; rewrite length_app; cbn; lia).
  apply nonzero_suffix in Eg; [|done]. inversion_clear Eg as [|? ? _ Hgz].
  destruct (findci g (chars "</script")) as [r|] eqn:Er; [|done]. apply findci_suffix in Er as [Er _].
  assert (Hr : (length r <= length g)%nat) by (destruct Er as [a ->]; rewrite length_app; lia).
  apply nonzero_suffix in Er; [|done]. unfold VELA_JS_TEXT_CAP.
  replace (if 1536 <=? len g - len r then 1536 - 1 else len g - len r) with (Z.min (len g - len r) (1536 - 1)) by (case_if; lia).
  set (s := take _ g). assert (Hs : nonzero s) by by apply Forall_take.
  eapply safe_bind; [by apply run_script_ok|].
  intros [o' [v' e']] (-> & -> & He'). apply IH; [done|by apply Forall_drop|by apply script_texts_ok|]. rewrite length_drop. lia.
Qed.

(** What the scripts leave fits the document. *)
Lemma written_fits o raw : out_ok o -> fits 32768 raw -> fits 32768 (written o raw).
Proof.
  intros [_ _ Hb Hw] Hr. unfold written. destruct (body o) as [|c b] eqn:Eb.
  - destruct (write o) as [|c w] eqn:Ew; [done|]. rewrite <- Ew in *. by apply (cat_fits 32768 32768 2048).
  - rewrite <- Eb in *. apply (cp_fits _ VELA_RAW_CAP); [done|]. apply (cat_fits _ VELA_RAW_CAP 256); [done| |text].
    apply (cat_fits _ VELA_RAW_CAP 2048); [done| |done]. apply (cat_fits _ VELA_RAW_CAP 4096); [done| |done].
    apply (cat_fits _ VELA_RAW_CAP 256); [done|by apply fits_nil|text].
Qed.

(** After the scripts: the document is [after_scripts], and the texts are in shape. *)
Lemma preprocess_ok v e :
  ok v -> J e -> displayable room (g_raw v) ->
  safe T (preprocess (v, e)) (fun '(red, t, (v', e')) =>
    fits 256 red /\ fits 96 t /\ J e' /\ exists r, v' = set_raw r v /\ readable room r /\ ok v').
Proof.
  intros Hv He [Hr Hs]. pose proof (s_raw _ _ _ _ _ Hv) as Hf. unfold preprocess. cbn [fst]. case_if.
  { split; [by apply fits_nil|]. split; [by apply fits_nil|]. split; [done|]. exists (g_raw v). by destruct v. }
  unfold scripts. cbn [fst]. eapply safe_bind.
  { apply scripts_loop_ok; [done|done|apply Hf|split; by apply fits_nil|lia]. }
  intros [o [v' e']] (-> & Ho & -> & He'). cbn [safe]. pose proof Ho as [Hor Hot _ _].
  split; [done|]. split; [done|]. split; [done|]. eexists. split; [reflexivity|]. split; [exact Hs|].
  by apply set_raw_ok, written_fits.
Qed.

(** ** Navigation *)

(** What an operation does: the invariant, and hops in the history - none when it
    does not add to it. *)
Definition moved (push : bool) v (w : vela Doc E * E) : Prop :=
  ok (fst w) /\ J (snd w) /\ rtc hop (past v) (past (fst w)) /\ (push = false -> past (fst w) = past v).

Lemma moved_refl push v v' e : ok v' -> J e -> past v' = past v -> moved push v (v', e).
Proof. intros H1 H2 H3. split; [done|]. split; [done|]. cbn. rewrite H3. by split. Qed.

Lemma moved_trans push v v1 e1 w : moved push v (v1, e1) -> moved push v1 w -> moved push v w.
Proof.
  intros (_ & _ & H1 & H2) (H3 & H4 & H5 & H6). split; [done|]. split; [done|]. cbn in *.
  split; [by etrans|]. intros Hp. by rewrite H6, H2.
Qed.

Lemma fits_self t : nonzero t -> fits (len t + 1) t.
Proof. split; [done|lia]. Qed.

Lemma hist_ok u v e : ok v -> J e -> fits 256 u -> returns (hist u v) (fun v' => moved true v (v', e)).
Proof.
  intros Hv He Hu. destruct u as [|c u]; [exists v; split; [done|by apply moved_refl]|].
  destruct (hist_visit v (c :: u) (s_history _ _ _ _ _ Hv)) as (h & n & i & -> & Hh & Hp); [done|done|].
  eexists. split; [done|]. split; [by apply set_history_ok|]. split; [done|]. split; [|done].
  cbn [fst]. rewrite Hp. by apply rtc_once, hop_visit.
Qed.

Lemma title_status_ok v :
  ok v ->
  ok (match aster_title (g_doc v) with
      | [] => v
      | t => set_status (cat 160 (cat 160 (cp 160 t) (chars " / ")) (cp 160 (g_status v))) v
      end).
Proof.
  intros Hv. pose proof (s_status _ _ _ _ _ Hv).
  pose proof (law_title (T := T) (D := D) (J := J) (room := room) _ (s_doc _ _ _ _ _ Hv)) as Ht.
  destruct (aster_title (g_doc v)) eqn:Et; [done|]. rewrite <- Et in *. apply set_status_ok; [done|].
  apply (cat_fits _ 160 160); [done| |by apply (cp_fits _ 160)].
  apply (cat_fits _ 160 160); [done|by apply (cp_fits _ 96)|text].
Qed.

Lemma loaded_ok v e : ok v -> J e -> safe T (loaded (v, e)) (fun '(_, w) => moved false v w).
Proof.
  intros Hv He. unfold loaded. eapply safe_bind.
  - apply repaint_ok; [by apply title_status_ok|exact He].
  - intros [v' e'] [-> He']. apply moved_refl; [by apply title_status_ok|done|]. by destruct (aster_title (g_doc v)).
Qed.

(** The three lines of the serial log. *)
Lemma log_title_ok d e : D d -> J e -> safe T (log_title d e) J.
Proof.
  intros Hd He. eapply safe_bind; [apply law_console; [by apply lit_nonzero|done]|]. intros e1 H1.
  eapply safe_bind; [apply law_console; [by apply (law_title (T := T) (D := D) (J := J) (room := room))|done]|].
  intros e2 H2. apply law_console; [by apply lit_nonzero|done].
Qed.

(** A page that arrived: scripts, parsing, the title. *)
Lemma display_ok v e :
  ok v -> J e -> displayable room (g_raw v) ->
  safe T (display (v, e)) (fun '(red, w) => fits 256 red /\ moved false v w /\ g_url (fst w) = g_url v).
Proof.
  intros Hv He Hr. unfold display. eapply safe_bind; [by apply preprocess_ok|].
  intros [[red t] [v1 e1]] (H1 & H2 & H3 & r & -> & H4 & H5). eapply safe_bind.
  { destruct (parse_ok (set_raw r v)) as (v2 & -> & H); [by apply ok_nearly| |done|apply H5|apply H5|exact H].
    apply (law_storage (T := T) (D := D) (J := J) (room := room)), H5. }
  intros v2 (H6 & H7 & H8). cbn [safe]. split; [done|]. destruct t as [|c t].
  - split; [by apply moved_refl|done].
  - split; [|done]. apply moved_refl; [|done|done]. apply set_title_ok; [done|]. by apply (cp_fits 96 96).
Qed.

(** The page found at [n], and the history. *)
Lemma arrive_ok n (push : bool) v e :
  ok v -> J e -> fits 256 n -> safe T (if push then ub (hist n v) else Ok v) (fun v' => moved push v (v', e)).
Proof.
  intros Hv He Hn. destruct push; [|by apply moved_refl].
  destruct (hist_ok n v e Hv He Hn) as (v' & -> & H). exact H.
Qed.

Lemma weaken_moved push v w : moved false v w -> moved push v w.
Proof. intros (H1 & H2 & H3 & H4). split; [done|]. split; [done|]. split; [done|]. intros _. by apply H4. Qed.

Definition follow_ok (follow : option (bytes -> vela Doc E * E -> res (Z * (vela Doc E * E)))) (push : bool) : Prop :=
  match follow with
  | None => True
  | Some go => forall next v e, ok v -> J e -> nonzero next -> safe T (go next (v, e)) (fun '(_, w) => moved push v w)
  end.

(** Behind the display: the address a script went to, or the end. *)
Lemma follow_done_ok follow push n red v e :
  follow_ok follow push -> ok v -> J e -> fits 256 n -> fits 256 red ->
  safe T (match red, follow with
          | _ :: _, Some go =>
              let '(next, st) := resolve (tls v) (Ptr n) red VELA_URL_CAP (g_status v) in
              let v := set_status st v in
              match next with
              | Some next => if negb (ci next (chars "javascript:")) then go next (v, e) else loaded (v, e)
              | None => loaded (v, e)
              end
          | _, _ => loaded (v, e)
          end) (fun '(_, w) => moved push v w).
Proof.
  intros Hgo Hv He Hn Hred.
  assert (Hend : forall v1, ok v1 -> past v1 = past v -> safe T (loaded (v1, e)) (fun '(_, w) => moved push v w)).
  { intros v1 H1 H2. eapply safe_mono; [by apply loaded_ok|]. intros [r w] Hw.
    eapply moved_trans; [by apply (moved_refl push v v1 e)|]. by apply weaken_moved. }
  destruct red as [|c red]; [by apply Hend|]. destruct follow as [go|]; [|by apply Hend].
  pose proof (resolve_fits (tls v) (Ptr n) (c :: red) (g_status v) _ Hn Hred (s_status _ _ _ _ _ Hv) eq_refl) as [H1 H2].
  unfold VELA_URL_CAP. destruct (resolve _ _ _ _ _) as [[next|] st]; cbn [fst snd] in *;
    (assert (Hs : ok (set_status st v)) by by apply set_status_ok); [|by apply Hend].
  case_if; [|by apply Hend]. eapply safe_mono; [apply Hgo; [done|done|apply H2]|]. intros [r w] Hw.
  eapply moved_trans; [|done]. by apply moved_refl.
Qed.

(** The platform is asked for an allowed address, and what it gives keeps the shape. *)
Lemma fetch_ok n v e :
  ok v -> J e -> can v VELA_PLATFORM_CAP_HTTP = true -> fn_null (http_get (g_platform v)) = false ->
  allowed (tls v) n ->
  safe T (get ← called (http_get (g_platform v)); get n (g_raw v) (g_status v) e)
    (fun '(r, raw, st, e') => ok (set_status st (set_raw raw v)) /\ J e' /\ (r <> 0 -> displayable room raw)).
Proof.
  intros Hv He Hcan Hnull Hn. pose proof (can_ready _ _ Hcan) as Hr.
  destruct (s_platform _ _ _ _ _ Hv Hr) as [Hget _ _ _]. unfold called, fn_ok in *.
  destruct (http_get (g_platform v)) as [| |get]; [done|done|]. cbn [mbind res_bind].
  eapply safe_mono; [apply Hget; [|apply Hv|apply Hv|done]|].
  - unfold tls, can in Hn. by rewrite Hr in Hn.
  - intros [[[r raw] st] e'] (H1 & H2 & H3 & H4). split; [|done]. apply set_status_ok; [by apply set_raw_ok|done].
Qed.

Lemma navigate_ok follow u push v e :
  ok v -> J e -> nonzero u -> follow_ok follow push ->
  safe T (navigate follow u push (v, e)) (fun '(_, w) => moved push v w).
Proof.
  intros Hv He Hu Hgo. unfold navigate.
  assert (Hsay : forall s, fits 256 s -> moved push v (say s v, e)).
  { intros s Hs. apply moved_refl; [by apply (say_ok s 256)|done|done]. }
  destruct u as [|c u]; [apply Hsay; text|]. set (t := c :: u) in *. case_if; [apply Hsay; text|].
  destruct (canon_allowed (tls v) _ t (g_status v) _ (fits_self t Hu) (s_status _ _ _ _ _ Hv) eq_refl) as [H1 H2].
  unfold VELA_URL_CAP. destruct (canon _ _ _ _) as [[n|] st]; cbn [fst snd] in *;
    (assert (Hs : ok (set_status st v)) by by apply set_status_ok); [|by apply moved_refl].
  set (v1 := say (chars "Loading...") (set_status st v)).
  assert (Hv1 : ok v1) by (apply (say_ok _ 256); [done|text]).
  eapply safe_bind; [by apply repaint_ok|]. intros [v2 e2] [-> He2].
  eapply safe_bind; [apply logm_ok; [done|done|by apply lit_nonzero]|]. intros [v2 e3] [-> He3].
  pose proof (fetch_ok n v1 e3 Hv1 He3 H H0 H2) as Hf.
  destruct (called (http_get (g_platform v1))) as [get| |]; [|exact Hf..]. cbn [mbind res_bind] in *.
  eapply safe_bind; [exact Hf|]. intros [[[r raw] st'] e4] (Hv4 & He4 & Hroom).
  case_if; [by apply moved_refl|].
  eapply safe_bind; [apply display_ok; [by apply seturl_ok|done|by apply Hroom]|].
  intros [red [v5 e5]] (Hred & Hm5 & _). pose proof Hm5 as (Hv5 & He5 & _ & Hp5).
  eapply safe_bind; [apply arrive_ok; [done|done|apply H2]|]. intros v6 Hm6. pose proof Hm6 as (Hv6 & He6 & _).
  eapply safe_bind; [apply log_title_ok; [apply Hv6|done]|]. intros e7 He7.
  eapply safe_mono; [apply follow_done_ok; [done|exact Hv6|done|apply H2|done]|].
  intros [r' w] Hw. eapply moved_trans; [|exact Hw].
  eapply (moved_trans push v (seturl n (set_status st' (set_raw raw v1))) e5); [by apply moved_refl; [apply seturl_ok| |]|].
  eapply moved_trans; [apply weaken_moved, Hm5|]. destruct Hm6 as (? & ? & ? & ?). split; done.
Qed.

Lemma navdepth_ok k u push v e :
  ok v -> J e -> nonzero u -> safe T (navdepth k u push (v, e)) (fun '(_, w) => moved push v w).
Proof.
  revert u v e. induction k as [|k IH]; intros u v e Hv He Hu; by apply navigate_ok.
Qed.

(** ** Scrolling, viewport and address line *)

Lemma int_of_Ok z : is_int z -> int_of z = Ok z.
Proof. intros []. unfold int_of. by if_true. Qed.

(** A scroll position in range is taken; any other goes to the nearest end. *)
Lemma set_scroll_ok y v e :
  ok (set_scroll 0 v) -> J e ->
  safe T (vela_set_scroll y (v, e)) (fun w => moved false v w /\ g_scroll (fst w) = Z.max 0 (Z.min y (scroll_max v))).
Proof.
  intros Hv He. pose proof (s_viewport_h _ _ _ _ _ Hv) as Hh. cbn in Hh.
  pose proof (law_height (T := T) (D := D) (J := J) (room := room) _ (s_doc _ _ _ _ _ Hv)) as Hd. cbn in Hd.
  unfold vela_set_scroll. rewrite int_of_Ok by (unfold is_int; lia). cbn [mbind res_bind].
  rewrite int_of_Ok by (unfold is_int; lia). cbn [mbind res_bind].
  set (m := aster_document_height (g_doc v) - g_viewport_h v + 24).
  set (y' := if (if m <? 0 then 0 else m) <? (if y <? 0 then 0 else y) then _ else _).
  assert (Hy : y' = Z.max 0 (Z.min y (scroll_max v))).
  { unfold y', scroll_max. fold m. destruct (Z.ltb_spec m 0), (Z.ltb_spec y 0); case_if; lia. }
  eapply safe_mono; [apply repaint_ok; [|exact He]|].
  - destruct Hv. split; try done. cbn. unfold scroll_max in *. cbn in *. lia.
  - intros [v' e'] [-> He']. split; [|by cbn]. apply moved_refl; [|done|done].
    destruct Hv. split; try done. cbn. unfold scroll_max in *. cbn in *. lia.
Qed.

Lemma set_scroll_0 v : ok v -> ok (set_scroll 0 v).
Proof. intros []. split; try done. unfold scroll_max. cbn. lia. Qed.

Lemma scroll_to_ok y v e : ok v -> J e -> safe T (vela_set_scroll y (v, e)) (moved false v).
Proof. intros Hv He. eapply safe_mono; [apply set_scroll_ok; [by apply set_scroll_0|done]|]. by intros w [H _]. Qed.

Lemma scroll_bound v : ok v -> 0 <= g_scroll v <= 536870912.
Proof.
  intros Hv. pose proof (law_height (T := T) (D := D) (J := J) (room := room) _ (s_doc _ _ _ _ _ Hv)) as Hd.
  pose proof (s_scroll _ _ _ _ _ Hv) as Hs. pose proof (s_viewport_h _ _ _ _ _ Hv). unfold scroll_max in Hs. lia.
Qed.

Lemma scroll_by_ok d v e :
  ok v -> J e -> -2147483648 <= d <= 1610612735 -> safe T (vela_scroll_by d (v, e)) (moved false v).
Proof.
  intros Hv He Hd. pose proof (scroll_bound v Hv). unfold vela_scroll_by. cbn [fst].
  rewrite int_of_Ok by (unfold is_int; lia). cbn [mbind res_bind]. by apply scroll_to_ok.
Qed.

Lemma viewport_size_ok w h v e :
  ok v -> J e -> w <= widest room -> -2147483648 <= h <= 1073741824 -> safe T (vela_set_viewport_size w h (v, e)) (moved false v).
Proof.
  intros Hv He Hw Hh. pose proof (law_widest (T := T) (D := D) (J := J) (room := room)). unfold vela_set_viewport_size.
  set (w' := if w <? 120 then 120 else w). set (h' := if h <? 80 then 80 else h).
  assert (Hw' : 120 <= w' <= widest room) by (unfold w'; case_if; lia).
  assert (Hh' : 80 <= h' <= 1073741824) by (unfold h'; case_if; lia). clearbody w' h'.
  assert (Hsize : ok (set_scroll 0 (set_viewport w' h' v))).
  { destruct Hv. split; try done. cbn. unfold scroll_max. cbn. lia. }
  assert (Hend : forall v1, ok (set_scroll 0 v1) -> past v1 = past v ->
    safe T (vela_set_scroll (g_scroll v1) (v1, e)) (moved false v)).
  { intros v1 H1 H2. eapply safe_mono; [by apply set_scroll_ok|]. intros [v2 e2] [(H3 & H4 & _ & H5) _].
    apply moved_refl; [done|done|]. cbn in *. by rewrite H5. }
  case_if; [|by apply Hend].
  destruct (law_layout (T := T) (D := D) (J := J) (room := room) (g_doc v) (layout_width (set_viewport w' h' v)))
    as (d & Ed & Hd); [apply Hv|unfold layout_width; cbn; case_if; lia|].
  cbn [g_doc set_viewport] in *. rewrite Ed. cbn [ub mbind res_bind]. apply Hend; [|done].
  destruct Hsize. split; try done. cbn. unfold scroll_max. cbn. lia.
Qed.

Lemma input_char_ok c v e : ok v -> J e -> safe T (vela_input_char c (v, e)) (moved false v).
Proof.
  intros Hv He. unfold vela_input_char, VELA_URL_CAP. case_if; [|by apply moved_refl].
  assert (H : ok (set_url (g_url v ++ [c]) v)) by (apply set_url_ok; [done|]; rewrite length_app; cbn; lia).
  eapply safe_mono; [by apply repaint_ok|]. intros [v' e'] [-> He']. by apply moved_refl.
Qed.

Lemma backspace_ok v e : ok v -> J e -> safe T (vela_backspace (v, e)) (moved false v).
Proof.
  intros Hv He. unfold vela_backspace. case_if; [|by apply moved_refl].
  assert (H : ok (set_url (take (length (g_url v) - 1) (g_url v)) v)).
  { apply set_url_ok; [done|]. pose proof (s_url _ _ _ _ _ Hv). rewrite length_take. lia. }
  eapply safe_mono; [by apply repaint_ok|]. intros [v' e'] [-> He']. by apply moved_refl.
Qed.

(** ** Loading and moving in the history *)

Lemma nav_ok u push v e : ok v -> J e -> nonzero u -> safe T (nav u push (v, e)) (fun '(_, w) => moved push v w).
Proof. intros. by apply navdepth_ok. Qed.

Lemma url_text v : ok v -> fits 256 (text_of (g_url v)).
Proof. intros Hv. apply text_of_fits. pose proof (s_url _ _ _ _ _ Hv). lia. Qed.

Lemma go_ok v e : ok v -> J e -> safe T (vela_go (v, e)) (fun '(_, w) => moved true v w).
Proof. intros Hv He. apply nav_ok; [done|done|]. by apply url_text. Qed.

Lemma load_html_ok h u v e :
  ok v -> J e -> match h with Null => True | Ptr h => nonzero h /\ displayable room (cp 32768 h) end ->
  match u with Null => True | Ptr u => nonzero u end ->
  safe T (vela_load_html h u (v, e)) (fun '(_, w) => moved true v w).
Proof.
  intros Hv He Hh Hu. destruct h as [|h]; [by apply moved_refl|]. unfold vela_load_html. destruct Hh as [Hz Hl].
  set (v1 := seturl _ _). assert (Hv1 : ok v1).
  { apply seturl_ok, set_raw_ok; [done|]. by apply (cp_fits _ (len h + 1)), fits_self. }
  eapply safe_bind.
  { by apply display_ok. }
  intros [red [v2 e2]] (_ & Hm & _). pose proof Hm as (Hv2 & He2 & _).
  assert (Hv3 : ok (say (chars "Local document") v2)) by (apply (say_ok _ 256); [done|text]).
  destruct (hist_ok (text_of (g_url v2)) _ e2 Hv3 He2 (url_text v2 Hv2)) as (v4 & E4 & Hm4). rewrite E4. cbn [ub mbind res_bind].
  pose proof Hm4 as (Hv4 & _). eapply safe_bind; [by apply repaint_ok|]. intros [v5 e5] [-> He5]. cbn [safe mret res_ret].
  eapply moved_trans; [by apply (moved_refl true v v1 e)|].
  eapply moved_trans; [apply weaken_moved, Hm|].
  eapply moved_trans; [by apply (moved_refl true v2 _ e2 Hv3)|].
  destruct Hm4 as (H1 & _ & H3 & H4). split; [done|]. by split.
Qed.

(** A neighbouring entry becomes the current one when it could be loaded, and nothing
    happens to the history otherwise. *)
Lemma revisit_ok x v e :
  ok v -> J e -> x = g_history_index v - 1 \/ x = g_history_index v + 1 -> 0 <= x < g_history_count v ->
  safe T (revisit x (v, e)) (fun '(r, w) => moved true v w /\
    past (fst w) = if r =? 0 then past v else (fst (past v), x)).
Proof.
  intros Hv He Hx Hr. pose proof (s_history _ _ _ _ _ Hv) as [Hl Ht Hc Hi]. unfold revisit. cbn [fst].
  destruct (rd_is_Some (g_history v) x) as [u Hu]; [lia|]. rewrite Hu. cbn [ub mbind res_bind].
  apply rd_inv in Hu as [_ Hu]. assert (Hf : fits 256 u) by by eapply Forall_lookup_1.
  eapply safe_bind; [apply nav_ok; [done|done|]|].
  { apply (cp_fits 256 256); done. }
  intros [r [v1 e1]] Hm. pose proof Hm as (Hv1 & He1 & _ & Hp). cbn in Hv1, He1, Hp. specialize (Hp eq_refl).
  case_if; cbn [safe].
  - split; [|exact Hp]. by apply weaken_moved.
  - assert (Hpast : past (set_history (g_history v1) (g_history_count v1) x v1) = (fst (past v), x)).
    { change (past (set_history (g_history v1) (g_history_count v1) x v1)) with (fst (past v1), x). by rewrite Hp. }
    split; [|exact Hpast]. pose proof (s_history _ _ _ _ _ Hv1) as Hh1.
    assert (Hcount : g_history_count v1 = g_history_count v).
    { rewrite <- (hist_past_length v1), <- (hist_past_length v), Hp by (done || apply Hv). done. }
    split; [|split; [done|split; [|done]]]; cbn [fst snd].
    + apply set_history_ok; [done|]. destruct Hh1 as [? ? ? ?]. split; cbn; (done || lia).
    + rewrite Hpast. apply rtc_once. change (past v) with (fst (past v), g_history_index v) at 1.
      apply hop_move; [lia|]. rewrite hist_past_length by apply Hv. lia.
Qed.

Lemma back_ok v e : ok v -> J e ->
  safe T (vela_back (v, e)) (fun '(r, w) => moved true v w /\
    past (fst w) = if r =? 0 then past v else (fst (past v), g_history_index v - 1)).
Proof.
  intros Hv He. unfold vela_back, vela_can_back. cbn [fst]. pose proof (s_history _ _ _ _ _ Hv) as [Hl Ht Hc Hi].
  destruct (Z.ltb_spec 0 (g_history_index v)); cbn [negb].
  - apply revisit_ok; [done|done|by left|lia].
  - split; [by apply moved_refl|done].
Qed.

Lemma forward_ok v e : ok v -> J e ->
  safe T (vela_forward (v, e)) (fun '(r, w) => moved true v w /\
    past (fst w) = if r =? 0 then past v else (fst (past v), g_history_index v + 1)).
Proof.
  intros Hv He. unfold vela_forward, vela_can_forward. cbn [fst].
  case_if; [split; [by apply moved_refl|done]|]. apply revisit_ok; [done|done|by right|lia].
Qed.

Lemma reload_ok v e : ok v -> J e -> safe T (vela_reload (v, e)) (fun '(_, w) => moved true v w).
Proof.
  intros Hv He. unfold vela_reload. cbn [fst]. pose proof (url_text v Hv) as Hu.
  destruct (text_of (g_url v)) as [|c u]; [by apply moved_refl|].
  eapply safe_mono; [apply nav_ok; [done|done|apply Hu]|]. intros [r w] Hw. by apply weaken_moved.
Qed.

Lemma scrolled_ok b v r : safe T r (moved false v) -> safe T (scrolled b r) (fun '(_, w) => moved true v w).
Proof.
  intros H. unfold scrolled. eapply safe_bind; [exact H|]. intros w Hw. cbn [safe mret res_ret].
  by apply weaken_moved.
Qed.

Lemma navigate_action_ok a v e : ok v -> J e -> safe T (vela_navigate_action a (v, e)) (fun '(_, w) => moved true v w).
Proof.
  intros Hv He. unfold vela_navigate_action. cbv zeta. cbn [fst]. pose proof (s_viewport_h _ _ _ _ _ Hv) as Hh.
  set (page := if 96 <? g_viewport_h v then _ else _).
  assert (Hp : 0 <= page <= 1073741824) by (unfold page; case_if; lia). clearbody page.
  destruct a.
  - eapply safe_mono; [by apply back_ok|]. by intros [r w] [H _].
  - eapply safe_mono; [by apply forward_ok|]. by intros [r w] [H _].
  - by apply reload_ok.
  - apply scrolled_ok, scroll_by_ok; (done || lia).
  - apply scrolled_ok, scroll_by_ok; (done || lia).
  - apply scrolled_ok, scroll_by_ok; (done || lia).
  - apply scrolled_ok, scroll_by_ok; (done || lia).
  - by apply scrolled_ok, scroll_to_ok.
  - by apply scrolled_ok, scroll_to_ok.
Qed.

(** ** Links and resources *)

Lemma activate_link_ok x y v e :
  ok v -> J e -> is_int x -> -1073741824 <= y <= 1073741824 ->
  safe T (vela_activate_link x y (v, e)) (fun '(_, w) => moved true v w).
Proof.
  intros Hv He Hx Hy. unfold vela_activate_link, VELA_URL_CAP, VELA_JS_TEXT_CAP.
  destruct (law_link (T := T) (D := D) (J := J) (room := room) (g_doc v) x y (g_scroll v) (s_doc _ _ _ _ _ Hv) Hx Hy (scroll_bound v Hv))
    as (l & El & Hl). rewrite El. cbn [ub mbind res_bind]. destruct l as [h|]; [|by apply moved_refl].
  assert (Hres : forall v1 r, ok v1 -> fits 256 r ->
    fits 160 (snd (resolve (tls v1) (Ptr (text_of (g_url v1))) r 256 (g_status v1))) /\
    match fst (resolve (tls v1) (Ptr (text_of (g_url v1))) r 256 (g_status v1)) with Some u => fits 256 u | None => True end).
  { intros v1 r H1 Hr. by apply (resolve_fits (tls v1) (Ptr (text_of (g_url v1))) r (g_status v1)); [apply url_text| |apply H1|]. }
  assert (Hnav : forall u v1 e1, ok v1 -> J e1 -> past v1 = past v -> fits 256 u ->
    safe T (nav u true (v1, e1)) (fun '(_, w) => moved true v w)).
  { intros u v1 e1 H1 H2 H3 H4. eapply safe_mono; [apply nav_ok; [done|done|apply H4]|]. intros [r w] Hw.
    eapply moved_trans; [by apply (moved_refl true v v1 e1)|done]. }
  case_if.
  2: { destruct (Hres v h Hv Hl) as [H1 H2]. destruct (resolve _ _ _ _ _) as [[u|] st]; cbn [fst snd] in *.
       - by apply Hnav; [apply set_status_ok| | |].
       - by apply moved_refl; [apply set_status_ok| |]. }
  case_if; [by apply moved_refl; [apply (say_ok _ 256); [|text]| |]|].
  set (s := cp 1536 (drop 11 h)). assert (Hs : nonzero s).
  { apply (cp_fits 1536 256); [done|]. split; [apply Forall_drop, Hl|]. destruct Hl. rewrite length_drop. lia. }
  eapply (safe_bind T _ _ (same_vela v)).
  { destruct (jscall s (chars "console.log") 256) as [m|] eqn:Em; [|done].
    apply logm_ok; [done|done|]. by apply (jscall_fits s (chars "console.log") 256). }
  intros [v1 e1] [-> He1].
  assert (Hjs : fits 160 (snd (match jsassign s (chars "location.href") 256 with
      | Some tmp => resolve (tls v) (Ptr (text_of (g_url v))) tmp 256 (g_status v) | None => (None, g_status v) end)) /\
    match fst (match jsassign s (chars "location.href") 256 with
      | Some tmp => resolve (tls v) (Ptr (text_of (g_url v))) tmp 256 (g_status v) | None => (None, g_status v) end)
    with Some u => fits 256 u | None => True end).
  { destruct (jsassign s (chars "location.href") 256) as [m|] eqn:Em; [|split; [apply Hv|done]].
    apply Hres; [done|]. by apply (jsassign_fits s (chars "location.href")). }
  destruct (match jsassign s _ 256 with Some _ => _ | None => _ end) as [[u|] st]; cbn [fst snd] in *; destruct Hjs as [H1 H2].
  - by apply Hnav; [apply set_status_ok| | |].
  - assert (Hv2 : ok (say (chars "JavaScript link executed") (set_status st v))).
    { apply (say_ok _ 256); [by apply set_status_ok|text]. }
    eapply safe_bind; [by apply repaint_ok|]. intros [v3 e3] [-> He3]. by apply moved_refl.
Qed.

Lemma resource_ok r d dc n t tc s sc v e :
  ok v -> J e -> match r with Null => True | Ptr r => fits 256 r end ->
  safe T (vela_resource_get r d dc n t tc s sc (v, e)) (fun '(_, _, w) => moved false v w).
Proof.
  intros Hv He Hr. unfold vela_resource_get, VELA_URL_CAP. cbv zeta.
  destruct r as [|[|c r]]; [by apply moved_refl..|]. set (t' := c :: r) in *.
  case_if; [by apply moved_refl|]. case_if; [by apply moved_refl|].
  destruct (resolve_fits (tls v) (Ptr (text_of (g_url v))) t' (g_status v) _ (url_text v Hv) Hr (s_status _ _ _ _ _ Hv) eq_refl) as [Hst Hu].
  destruct (resolve _ _ _ _ _) as [u st]; cbn [fst snd] in *. assert (Hv1 : ok (set_status st v)) by by apply set_status_ok.
  destruct u as [u|]; [|by apply moved_refl]. case_if; [by apply moved_refl|].
  destruct (s_platform _ _ _ _ _ Hv1 (can_ready _ _ H1)) as [_ _ _ Hget].
  cbn [g_platform set_status] in *. unfold called, fn_ok in *.
  destruct (resource_get (g_platform v)) as [| |get]; [done|done|]. cbn [mbind res_bind].
  eapply safe_bind; [by apply Hget|]. intros [[r' o] e'] He'. by apply moved_refl.
Qed.

Lemma paint_ok x y w h v e :
  ok v -> J e -> w <= widest room -> is_int h -> Forall is_int [x + 18; y + 10; w - 36; h - 20] -> h <= 1073741824 ->
  safe T (vela_paint x y w h (v, e)) (moved false v).
Proof.
  intros Hv He Hw Hh Ha Hh'. unfold vela_paint. destruct Hh as [Hh _].
  eapply safe_bind; [by apply viewport_size_ok|]. intros [v1 e1] Hm. pose proof Hm as (Hv1 & He1 & _ & Hp).
  inversion Ha as [|? ? Ha1 Ht1]; subst. inversion_clear Ht1 as [|? ? Ha2 Ht2].
  inversion_clear Ht2 as [|? ? Ha3 Ht3]. inversion_clear Ht3 as [|? ? Ha4 _].
  rewrite !int_of_Ok by done. cbn [mbind res_bind].
  eapply safe_bind; [apply (law_paint (T := T) (D := D) (J := J) (room := room)); [apply Hv1|done|by apply scroll_bound|exact Ha]|].
  intros e2 He2. apply moved_refl; [done|done|]. by apply Hp.
Qed.
End safety.

(** A text that leaves room for what its scripts write is within limits on the length. *)
Lemma gathered_ok fuel p o : nonzero p -> out_ok o -> out_ok (gathered fuel p o).
Proof.
  revert p o. induction fuel as [|f IH]; intros p o Hp Ho; [done|]. cbn [gathered].
  destruct (findci p (chars "<script")) as [q|] eqn:Eq; [|done]. apply findci_suffix in Eq as [Eq _]. apply nonzero_suffix in Eq; [|done].
  pose proof (until_suffix 62 q) as Eg. destruct (until 62 q) as [|c g]; [done|]. apply nonzero_suffix in Eg; [|done].
  inversion_clear Eg as [|? ? _ Hg]. destruct (findci g (chars "</script")) as [r|] eqn:Er; [|done].
  apply findci_suffix in Er as [Er _]. apply nonzero_suffix in Er; [|done].
  apply IH; [by apply Forall_drop|]. apply script_texts_ok; [by apply Forall_take|done].
Qed.

Lemma short_displayable {Doc} (D : Doc -> Prop) n raw :
  8192 <= n -> nonzero raw -> len raw + 2048 <= n -> displayable (short n D) raw.
Proof.
  intros Hn Hz Hl. split; cbn [short readable]; [split; [done|lia]|].
  assert (Ho : out_ok (gathered (S (length raw)) raw (mk_out [] [] [] []))).
  { apply gathered_ok; [done|]. split; by apply fits_nil. }
  unfold after_scripts. destruct Ho as [_ _ Hb Hw]. generalize dependent (gathered (S (length raw)) raw (mk_out [] [] [] [])).
  intros o Hb Hw. unfold written. destruct (body o) as [|c b] eqn:Eb; [destruct (write o) as [|c w] eqn:Ew|].
  - split; [done|lia].
  - rewrite <- Ew in *. destruct Hw as [Hwz Hw]. unfold cat, fit. split; [apply Forall_take, Forall_app; done|].
    rewrite length_take, length_app. lia.
  - rewrite <- Eb in *. destruct Hb as [Hbz Hb], Hw as [Hwz Hw]. unfold cp, cat, fit. split.
    + repeat (apply Forall_take || (apply Forall_app; split)); (done || by apply lit_nonzero).
    + repeat (rewrite length_take || rewrite length_app). cbn -[Z.of_nat]. lia.
Qed.
