(* ===== verification/VelaSession.v ===== *)
(** * Browser sessions

    Any operations of the browser in any order, from its initialisation: the state
    stays well formed, the history is the abstract one of VelaSafe, and the network
    is asked for allowed addresses only. *)

From S2P Require Import Prelude Cstr NetEnv VelaText Vela VelaSafe.
From stdpp Require Import relations.
#[local] Open Scope Z_scope.

(** ** Operations as events *)
Inductive event :=
| Load (u : bytes)
| Go
| LoadHtml (h u : ptr bytes)
| InputChar (c : Z)
| Backspace
| Action (a : VelaNavAction)
| Click (x y : Z)
| ScrollTo (y : Z)
| ScrollBy (d : Z)
| Resize (w h : Z)
| Paint (x y w h : Z)
| Features (f : Z)
| Resource (r d : ptr bytes) (dc : Z) (n : ptr Z) (t : ptr bytes) (tc : Z) (s : ptr bytes) (sc : Z).

Definition event_ok {Doc} (room : limits Doc) (ev : event) : Prop :=
  match ev with
  | Load u => nonzero u
  | LoadHtml h u =>
      match h with Null => True | Ptr h => nonzero h /\ displayable room (cp 32768 h) end /\
      match u with Null => True | Ptr u => nonzero u end
  | Click x y => is_int x /\ -1073741824 <= y <= 1073741824
  | ScrollBy d => -2147483648 <= d <= 1610612735
  | Resize w h => w <= widest room /\ -2147483648 <= h <= 1073741824
  | Paint x y w h => w <= widest room /\ Forall is_int [h; x + 18; y + 10; w - 36; h - 20] /\ h <= 1073741824
  | Resource r _ _ _ _ _ _ _ => match r with Null => True | Ptr r => fits 256 r end
  | _ => True
  end.

Section session.
Context {Doc E : Type} `{!AsterEngine Doc E, !Console E}.
Local Abbreviation state := (vela Doc E * E)%type.

(** The operation, its result left out. *)
Definition forget {A} (r : res (A * state)) : res state := '(_, w) ← r; Ok w.

Definition step (ev : event) (w : state) : res state :=
  match ev with
  | Load u => forget (vela_load_url u w)
  | Go => forget (vela_go w)
  | LoadHtml h u => forget (vela_load_html h u w)
  | InputChar c => vela_input_char c w
  | Backspace => vela_backspace w
  | Action a => forget (vela_navigate_action a w)
  | Click x y => forget (vela_activate_link x y w)
  | ScrollTo y => vela_set_scroll y w
  | ScrollBy d => vela_scroll_by d w
  | Resize width h => vela_set_viewport_size width h w
  | Paint x y width h => vela_paint x y width h w
  | Features f => vela_set_features f w
  | Resource r d dc n t tc s sc => forget (vela_resource_get r d dc n t tc s sc w)
  end.

Fixpoint run (evs : list event) (w : state) : res state :=
  match evs with
  | [] => Ok w
  | ev :: evs => w ← step ev w; run evs w
  end.

(** The static variables before initialisation: the document is zeroed memory. *)
Definition static_vela (d : Doc) : vela Doc E :=
  mk_vela d [] [] [] (replicate 12 []) 720 420 0 0 (-1) VELA_PROFILE_FULL zero_ops 0.

(** The browser initialised with a platform, then used. *)
Definition session (width : Z) (p : ptr (VelaPlatformOps E)) (d : Doc) (evs : list event) (e : E) : res state :=
  '(ok, v) ← ub (vela_init_ex width p (static_vela d));
  if ok =? 0 then Ok (v, e) else run evs (v, e).
End session.

(** A structure of callbacks with no pointer cut in two. *)
Definition whole {E} (p : VelaPlatformOps E) : Prop := struct_size p mod 8 = 0 \/ 80 <= struct_size p.

Definition platform_ok {Doc E} (T : Prop) (J : E -> Prop) (room : limits Doc) (p : ptr (VelaPlatformOps E)) : Prop :=
  match p with Null => True | Ptr p => whole p /\ ops_ok T J room p end.

(** The structure is taken: there is none, or it is of this version and size. *)
Definition accepted {E} (p : ptr (VelaPlatformOps E)) : bool :=
  match p with Null => true | Ptr _ => negb (vela_platform_is_compatible p =? 0) end.

Lemma first_bytes_ok {A} (P : A -> Prop) n o f :
  (n mod 8 = 0 \/ o + 8 <= n) -> o mod 8 = 0 -> fn_ok P f -> fn_ok P (first_bytes n o f).
Proof.
  intros Hn Ho Hf. unfold first_bytes. destruct f; [done|done|].
  case_if; [done|]. case_if; [done|]. exfalso. destruct Hn; zlia.
Qed.

Section proofs.
Context {Doc E : Type} `{!AsterEngine Doc E, !Console E} (T : Prop) (D : Doc -> Prop) (J : E -> Prop) (room : limits Doc).
Context `{!AsterLaws T D J room, !ConsoleLaws T J}.
Local Abbreviation ok := (vela_ok T D J room).
Local Abbreviation moved := (moved T D J room).

Lemma copied_ok p : whole p -> ops_ok T J room p ->
  ops_ok T J room (copy_ops (if struct_size p <? ops_size then struct_size p else ops_size) p).
Proof.
  intros Hw [H1 H2 H3 H4]. unfold ops_size. set (n := if _ <? 136 then _ else _).
  assert (Hn : n mod 8 = 0 \/ 80 <= n).
  { unfold n, whole in *. destruct (Z.ltb_spec (struct_size p) 136); [done|by left]. }
  split; cbn [http_get request_repaint op_log resource_get capabilities copy_ops];
    apply first_bytes_ok; (done || (destruct Hn; [by left|right; lia])).
Qed.

(** Over any memory for the document: the start page is shown, unless the structure of
    callbacks was refused. *)
Lemma init_ok width p d :
  storage room d -> width <= widest room -> platform_ok T J room p ->
  returns (vela_init_ex width p (static_vela d)) (fun '(r, v) => (r <> 0 -> ok v) /\ past v = ([], -1) /\
    (r = 0 <-> accepted p = false)).
Proof.
  intros Hd Hw Hp. pose proof (law_widest (T := T) (D := D) (J := J) (room := room)). unfold vela_init_ex.
  set (w := if 120 <? width then width else 120).
  assert (Hw' : 120 <= w <= widest room) by (unfold w; case_if; lia). clearbody w. cbv zeta.
  set (v0 := seturl [] _).
  assert (Hv0 : forall q r, (r <> 0 -> ops_ok T J room q) -> nearly_ok T D J room (set_platform q r v0)).
  { intros q r Hq d' Hd'. split; cbn; try (by apply fits_nil); try done.
    - split; cbn; [done| |lia|lia]. repeat (constructor; [by apply fits_nil|]). constructor.
    - unfold scroll_max. cbn. lia.
    - intros Hr. apply Hq. unfold ready in Hr. cbn in Hr. by bool_prop. }
  assert (Hset : exists r q k, vela_set_platform p v0 = (r, set_platform q k v0) /\ (k <> 0 -> ops_ok T J room q) /\
    (r = 0 <-> accepted p = false)).
  { unfold vela_set_platform, accepted. destruct p as [|p]; [by exists 1, zero_ops, 0|].
    destruct (Z.eqb_spec (vela_platform_is_compatible (Ptr p)) 0); [by exists 0, zero_ops, 0|]. destruct Hp as [H1 H2].
    eexists 1, _, 1. split; [reflexivity|]. split; [|done]. intros _. by apply copied_ok. }
  destruct Hset as (r & q & k & -> & Hq & Hr). specialize (Hv0 q k Hq).
  destruct (Z.eqb_spec r 0) as [->|]; [by eexists|]. unfold startpage.
  match goal with |- returns (parse ?v ≫= _) _ => destruct (parse_ok T D J room v) as (v' & Ev & Hv') end.
  - apply nearly_raw; [|text]. apply nearly_status; [apply nearly_status; [done|]|].
    + apply (cp_fits 160 256); [done|text].
    + apply fits_fit; [done|]. apply Forall_app. split; [by apply lit_nonzero|].
      apply (law_version (T := T) (D := D) (J := J) (room := room)).
  - exact Hd.
  - pose proof (law_start (T := T) (D := D) (J := J) (room := room)) as Hs.
    cbn [g_raw set_raw]. by replace (cp VELA_RAW_CAP startpage_html) with startpage_html by (vm_compute; reflexivity).
  - cbn [g_raw set_raw]. text.
  - exact Hw'.
  - rewrite Ev. cbn [mbind option_bind]. eexists. split; [reflexivity|]. destruct Hv' as (H1 & H2 & _). rewrite H2.
    split; [done|]. split; [done|]. split; [done|]. intros Ha. by apply Hr in Ha.
Qed.

Lemma forget_ok {A} push v (r : res (A * (vela Doc E * E))) :
  safe T r (fun '(_, w) => moved push v w) -> safe T (forget r) (moved true v).
Proof. intros H. unfold forget. eapply safe_bind; [exact H|]. intros [a w] Hw. destruct push; [done|by apply weaken_moved]. Qed.

Lemma weaken_safe v r : safe T r (moved false v) -> safe T r (moved true v).
Proof. intros H. eapply safe_mono; [exact H|]. intros w Hw. by apply weaken_moved. Qed.

Lemma step_ok ev v e : ok v -> J e -> event_ok room ev -> safe T (step ev (v, e)) (moved true v).
Proof.
  intros Hv He Hev. destruct ev; cbn [step event_ok] in *.
  - by apply (forget_ok true), nav_ok.
  - by apply (forget_ok true), go_ok.
  - destruct Hev. by apply (forget_ok true), load_html_ok.
  - by apply weaken_safe, input_char_ok.
  - by apply weaken_safe, backspace_ok.
  - by apply (forget_ok true), navigate_action_ok.
  - destruct Hev. by apply (forget_ok true), activate_link_ok.
  - by apply weaken_safe, scroll_to_ok.
  - by apply weaken_safe, scroll_by_ok.
  - destruct Hev. by apply weaken_safe, viewport_size_ok.
  - destruct Hev as (Hw & Ha & Hh). inversion_clear Ha as [|? ? H1 Ht]. by apply weaken_safe, paint_ok.
  - apply weaken_safe. unfold vela_set_features.
    eapply safe_mono; [apply (repaint_ok T D J room); [by apply set_features_ok|done]|].
    intros [v' e'] [-> He']. by apply moved_refl; [apply set_features_ok| |].
  - apply (forget_ok false). eapply safe_mono; [by apply resource_ok|]. by intros [[? ?] w].
Qed.

Lemma run_ok evs v e : ok v -> J e -> Forall (event_ok room) evs -> safe T (run evs (v, e)) (moved true v).
Proof.
  revert v e. induction evs as [|ev evs IH]; intros v e Hv He Hev; [by apply moved_refl|].
  inversion_clear Hev as [|? ? H1 H2]. cbn [run]. eapply safe_bind; [by apply step_ok|].
  intros [v1 e1] Hm. pose proof Hm as (Hv1 & He1 & _). eapply safe_mono; [by apply IH|].
  intros w Hw. by eapply moved_trans.
Qed.

Lemma session_ok width p d evs e :
  storage room d -> width <= widest room -> platform_ok T J room p -> Forall (event_ok room) evs -> J e ->
  safe T (session width p d evs e) (fun '(v, e') => (accepted p = true -> ok v) /\ J e' /\ rtc hop ([], -1) (past v) /\
    (accepted p = false -> past v = ([], -1))).
Proof.
  intros Hd Hw Hp Hev He. unfold session. destruct (init_ok width p d Hd Hw Hp) as ([r v] & -> & Hv & Hpast & Hr).
  cbn [ub mbind res_bind]. case_if.
  - cbn [safe]. assert (accepted p = false) as -> by (apply Hr; lia). split; [done|]. split; [done|]. by rewrite Hpast.
  - eapply safe_mono; [by apply run_ok; [apply Hv| |]|]. intros [v' e'] (H1 & H2 & H3 & _). cbn in *. rewrite Hpast in H3.
    split; [done|]. split; [done|]. split; [done|]. intros Ha. by apply Hr in Ha.
Qed.
End proofs.

(** ** The requests of a session

    Any platform, with its two back ends writing down what they are asked for. *)
Inductive request :=
| ForPage (u : bytes)
| ForResource (u : bytes).
Definition asked (q : request) : bytes := match q with ForPage u | ForResource u => u end.

(** A page is asked for by an allowed address, a resource by one that is no script. *)
Definition request_ok (tls : bool) (q : request) : Prop :=
  match q with ForPage u => allowed tls u | ForResource u => ci u (chars "javascript:") = false end.

Section logging.
Context {Doc E : Type} `{!AsterEngine Doc E, !Console E}.
Local Abbreviation logged := (E * list request)%type.

Definition with_log {A} (r : res (A * E)) (l : list request) : res (A * logged) := '(a, e) ← r; Ok (a, (e, l)).
Definition same_log (r : res E) (l : list request) : res logged := e ← r; Ok (e, l).

#[export] Instance logged_engine : AsterEngine Doc logged := {|
  aster_parse_html := aster_parse_html; aster_layout := aster_layout; aster_link_at := aster_link_at;
  aster_document_height := aster_document_height; aster_title := aster_title;
  aster_set_title := aster_set_title; aster_version := aster_version;
  aster_paint := fun d x y w h s '(e, l) => same_log (aster_paint d x y w h s e) l
|}.
#[export] Instance logged_console : Console logged := {|
  serial_write := fun t '(e, l) => same_log (serial_write t e) l
|}.

Definition map_fn {A B} (g : A -> B) (f : fn A) : fn B :=
  match f with NullFn => NullFn | Torn => Torn | Fn f => Fn (g f) end.

Definition logged_ops (p : VelaPlatformOps E) : VelaPlatformOps logged :=
  mk_ops (abi_version p) (struct_size p) (capabilities p)
    (map_fn (fun get u raw st '(e, l) => with_log (get u raw st e) (l ++ [ForPage u])) (http_get p))
    (map_fn (fun f '(e, l) => same_log (f e) l) (request_repaint p))
    (map_fn (fun f k m '(e, l) => same_log (f k m e) l) (op_log p))
    (map_fn (fun f '(e, l) => with_log (f e) l) (time_ms p))
    (map_fn (fun f u '(e, l) => with_log (f u e) l) (open_external p))
    (map_fn (fun f u '(e, l) => with_log (f u e) l) (clipboard_set p))
    (map_fn (fun f u '(e, l) => with_log (f u e) l) (clipboard_get p))
    (map_fn (fun get u o dc tc sc '(e, l) => with_log (get u o dc tc sc e) (l ++ [ForResource u])) (resource_get p)).

Context (T : Prop) (D : Doc -> Prop) (J : E -> Prop) (room : limits Doc).
Context `{!AsterLaws T D J room, !ConsoleLaws T J}.

(** The requests written down so far are in order. *)
Definition requests_ok (tls : bool) (w : logged) : Prop := J (fst w) /\ Forall (request_ok tls) (snd w).

Lemma same_log_ok tls r l : safe T r J -> Forall (request_ok tls) l -> safe T (same_log r l) (requests_ok tls).
Proof. intros Hr Hl. unfold same_log. eapply safe_bind; [exact Hr|]. by intros e He. Qed.

#[export] Instance logged_aster_laws tls : AsterLaws T D (requests_ok tls) room.
Proof.
  destruct AsterLaws0 as [? ? ? ? ? ? ? ? ? ? ? Hpaint]. split; try assumption.
  intros d x y w h s [e l] Hd [He Hl] Hs Ha. apply same_log_ok; [|done]. by apply Hpaint.
Qed.

#[export] Instance logged_console_laws tls : ConsoleLaws T (requests_ok tls).
Proof. intros t [e l] Ht [He Hl]. apply same_log_ok; [|done]. by apply law_console. Qed.

Lemma fn_ok_map {A B} (P : A -> Prop) (Q : B -> Prop) g (f : fn A) :
  (forall a, P a -> Q (g a)) -> fn_ok P f -> fn_ok Q (map_fn g f).
Proof. destruct f; cbn; auto. Qed.

Lemma logged_ok p :
  ops_ok T J room p ->
  ops_ok T (requests_ok (has (capabilities p) VELA_PLATFORM_CAP_TLS)) room (logged_ops p).
Proof.
  set (tls := has (capabilities p) VELA_PLATFORM_CAP_TLS). intros [H1 H2 H3 H4].
  split; [revert H1|revert H2|revert H3|revert H4]; apply fn_ok_map.
  - intros get Hget u raw st [e l] Hu Hr Hs [He Hl]. unfold with_log. eapply safe_bind; [by apply Hget|].
    intros [[[r raw'] st'] e'] (H5 & H6 & H7 & H8). cbn [safe]. split; [done|]. split; [done|]. split; [|done].
    split; [done|]. cbn. apply Forall_app. split; [exact Hl|]. by constructor.
  - intros f Hf [e l] [He Hl]. apply same_log_ok; [by apply Hf|done].
  - intros f Hf k m [e l] Hm [He Hl]. apply same_log_ok; [by apply Hf|done].
  - intros f Hf u o dc tc sc [e l] Hu Hj [He Hl]. unfold with_log. eapply safe_bind; [by apply Hf|].
    intros [[r o'] e'] He'. split; [done|]. cbn. apply Forall_app. split; [exact Hl|]. by constructor.
Qed.

(** One resource, met while the address line holds an address that may be asked for or
    none: its own may be asked for too. *)
Lemma resource_request p r d dc n t tc s sc v e l :
  ops_ok T J room p -> vela_ok T D (requests_ok (tls v)) room v -> g_platform v = logged_ops p -> J e ->
  match r with Null => True | Ptr r => fits 256 r end ->
  text_of (g_url v) = [] \/ allowed (tls v) (text_of (g_url v)) ->
  safe T (vela_resource_get r d dc n t tc s sc (v, (e, l))) (fun '(_, _, (_, (e', l'))) =>
    J e' /\ (l' = l \/ exists u, l' = l ++ [ForResource u] /\ allowed (tls v) u)).
Proof.
  intros Hp Hv Hplat He Hr Hline. unfold vela_resource_get, VELA_URL_CAP. cbv zeta.
  assert (H0 : J e /\ (l = l \/ exists u, l = l ++ [ForResource u] /\ allowed (tls v) u)) by (split; [done|by left]).
  destruct r as [|[|c r]]; [done..|]. set (t' := c :: r) in *. destruct (_ || (dc =? 0)); [done|].
  destruct (negb (can v _) || fn_null _) eqn:Hn; [done|]. apply orb_false_iff in Hn as [_ Hn].
  pose proof (s_status _ _ _ _ _ Hv) as Hst.
  pose proof (resolve_allowed (tls v) (text_of (g_url v)) t' (g_status v)) as Ha.
  destruct (resolve_fits (tls v) (Ptr (text_of (g_url v))) t' (g_status v) _ (url_text T D _ room v Hv) Hr Hst eq_refl) as [_ Hu].
  destruct (resolve _ _ _ _ _) as [[u|] st]; cbn [fst snd] in *; [|done].
  destruct (ci u (chars "javascript:")) eqn:Ej; [done|]. cbn [g_platform set_status]. rewrite Hplat. cbn [resource_get logged_ops].
  pose proof (ok_resource _ _ _ _ Hp) as Hget. rewrite Hplat in Hn. cbn [resource_get logged_ops] in Hn.
  destruct (resource_get p) as [| |get]; cbn [map_fn called fn_ok] in *; [done|done|]. cbn [mbind res_bind].
  eapply (safe_bind _ _ _ (fun '(_, (e', l')) => J e' /\ l' = l ++ [ForResource u])).
  - unfold with_log. eapply safe_bind; [by apply Hget|]. by intros [[k o] e'] He'.
  - intros [[k o] [e' l']] [He' ->]. split; [done|]. right. exists u. split; [done|]. by apply (Ha u Hline Hr Hst eq_refl).
Qed.
End logging.

(** C12. The history of a session is the abstract one: it is reached from the empty
    list by visits and by steps to neighbouring entries, and never holds more than
    twelve entries. *)
Theorem vela_history_refines {Doc E} `{!AsterEngine Doc E, !Console E} T D J room
    `{!AsterLaws T D J room, !ConsoleLaws T J} width p d evs e :
  storage room d -> width <= widest room -> platform_ok T J room p -> Forall (event_ok room) evs -> J e ->
  safe T (session width p d evs e) (fun '(v, _) =>
    rtc hop ([], -1) (past v) /\ len (fst (past v)) <= 12 /\ -1 <= snd (past v) < len (fst (past v))).
Proof.
  intros Hd Hw Hp Hev He. eapply safe_mono; [by apply (session_ok T D J room)|]. intros [v e'] (H1 & _ & H3 & H4).
  split; [done|]. destruct (accepted p) eqn:Ha; [|by rewrite H4].
  pose proof (s_history _ _ _ _ _ (H1 eq_refl)) as Hh. rewrite hist_past_length by done. destruct Hh as [? ? ? ?]. cbn. lia.
Qed.

(** Back and forward move by one entry when the page there could be loaded, and
    leave the history as it is when not. *)
Theorem vela_back_forward {Doc E} `{!AsterEngine Doc E, !Console E} T D J room
    `{!AsterLaws T D J room, !ConsoleLaws T J} v e :
  vela_ok T D J room v -> J e ->
  safe T (vela_back (v, e)) (fun '(r, (v', _)) =>
    past v' = (fst (past v), if r =? 0 then snd (past v) else snd (past v) - 1)) /\
  safe T (vela_forward (v, e)) (fun '(r, (v', _)) =>
    past v' = (fst (past v), if r =? 0 then snd (past v) else snd (past v) + 1)).
Proof.
  intros Hv He. split; (eapply safe_mono; [first [by apply (back_ok T D J room)|by apply (forward_ok T D J room)]|]);
    intros [r [v' e']] [_ H]; cbn in H |- *; rewrite H; by case_if.
Qed.

(** C13. What the browser asks its platform for.  A page is asked for by an allowed
    address only - one of the http scheme, or of https when the platform has a TLS
    provider - wherever the address came from: typed, linked to, kept in the history or
    set by a script; and a resource never by a script.  The address of a resource may be
    asked for in the same sense as long as that in the address line may, or the line is
    empty: a loaded page leaves its own there.  It need not otherwise: with an https
    address typed but not loaded, and no TLS provider, a resource is asked for by https
    (typed_address_resource). *)
Theorem vela_requests_allowed {Doc E} `{!AsterEngine Doc E, !Console E} T D J room
    `{!AsterLaws T D J room, !ConsoleLaws T J} width p d evs e :
  storage room d -> width <= widest room -> whole p -> ops_ok T J room p -> Forall (event_ok room) evs -> J e ->
  safe T (session width (Ptr (logged_ops p)) d evs (e, []))
    (fun '(_, (_, requests)) => Forall (request_ok (has (capabilities p) VELA_PLATFORM_CAP_TLS)) requests) /\
  (forall r data dc n t tc s sc v l, vela_ok T D (requests_ok J (tls v)) room v -> g_platform v = logged_ops p ->
    match r with Null => True | Ptr r => fits 256 r end ->
    text_of (g_url v) = [] \/ allowed (tls v) (text_of (g_url v)) ->
    safe T (vela_resource_get r data dc n t tc s sc (v, (e, l))) (fun '(_, _, (_, (_, l'))) =>
      l' = l \/ exists u, l' = l ++ [ForResource u] /\ allowed (tls v) u)).
Proof.
  intros Hd Hw Hwh Hp Hev He. split.
  - eapply safe_mono; [apply (session_ok T D (requests_ok J (has (capabilities p) VELA_PLATFORM_CAP_TLS)) room)|]; try done.
    + split; [done|]. by apply logged_ok.
    + by intros [v [e' l]] (_ & [_ H] & _).
  - intros r data dc n t tc s sc v l Hv Hplat Hr Hline.
    eapply safe_mono; [by apply (resource_request T D J room p)|]. by intros [[k o] [v' [e' l']]] [_ H].
Qed.

(** ** A browser on a network of three pages

    The engine of the bench keeps a title and counts characters; the network serves
    two pages, one of which moves on to the other, and refuses everything else. *)

Module Bench.
Definition doc : Type := bytes * Z.

#[export] Instance engine : AsterEngine doc unit := {|
  aster_parse_html := fun _ h => Some (chars "Page", len h);
  aster_layout := fun d _ => Some d;
  aster_link_at := fun d x y s cap => Some (if x =? 7 then Some (chars "javascript:location.href='/moved'") else None);
  aster_document_height := snd;
  aster_title := fst;
  aster_set_title := fun t d => (t, snd d);
  aster_version := chars "0.3.2";
  aster_paint := fun _ _ _ _ _ _ e => Ok e
|}.
#[export] Instance line : Console unit := {| serial_write := fun _ e => Ok e |}.

Definition doc_ok (d : doc) : Prop := fits 96 (fst d) /\ 0 <= snd d <= 65536.

Definition within : limits doc := short 34816 doc_ok.

#[export] Instance engine_laws : AsterLaws False doc_ok (fun _ => True) within.
Proof.
  split; try done.
  - split; [by apply lit_nonzero|vm_compute; reflexivity].
  - intros d h w _ [_ Hh] _ _. eexists. split; [reflexivity|]. split; [text|cbn in Hh |- *; lia].
  - intros d w Hd _. by exists d.
  - intros d x y s _ _ _ _. eexists. split; [reflexivity|]. cbn. case_if; [text|done].
  - intros d [_ H]. cbn in *. lia.
  - by intros d [H _].
  - intros d t [_ H] Ht. by split.
  - by apply lit_nonzero.
Qed.

#[export] Instance line_laws : ConsoleLaws (E := unit) False (fun _ => True).
Proof. by intros t e _ _. Qed.

Definition moving : bytes := chars "<html><script>window.location.href = 'b.html'</script></html>".

(** The back end would fault on an address it was not promised. *)
Definition get (u raw st : bytes) (e : unit) : res (Z * bytes * bytes * unit) :=
  if negb (ci u (chars "http://")) then Fault
  else if bool_decide (u = chars "http://one.test/a.html") then Ok (1, moving, chars "HTTP 200", e)
  else if bool_decide (u = chars "http://one.test/b.html") then Ok (1, chars "<p>b", chars "HTTP 200", e)
  else Ok (0, [], chars "HTTP 404", e).

(** No picture is found. *)
Definition find (u : bytes) (o : resource) (dc tc sc : Z) (e : unit) : res (Z * resource * unit) :=
  if ci u (chars "javascript:") then Fault else Ok (0, o, e).

Definition ops : VelaPlatformOps unit :=
  mk_ops VELA_PLATFORM_ABI_VERSION ops_size (Z.lor VELA_PLATFORM_CAP_HTTP VELA_PLATFORM_CAP_RESOURCES) (Fn get)
    NullFn NullFn NullFn NullFn NullFn NullFn (Fn find).

Lemma ops_fine : ops_ok False (fun _ => True) within ops.
Proof.
  split; cbn [http_get request_repaint op_log resource_get capabilities ops fn_ok]; try done.
  - intros u raw st e [_ [Hu|[_ Hu]]] _ _ _; [|discriminate Hu]. unfold get. rewrite Hu. cbn [negb].
    repeat case_if; cbn; (split; [first [text|by apply fits_nil]|]; split; [text|]; split; [done|]); intros Hok; [..|done];
      (apply short_displayable; [lia|by apply lit_nonzero|cbn; lia]).
  - intros u o dc tc sc e _ Hj _. unfold find. by rewrite Hj.
Qed.

Definition use : list event :=
  [Load (chars "one.test/a.html"); Action VELA_NAV_BACK; Action VELA_NAV_FORWARD; Action VELA_NAV_PAGE_DOWN;
   Load (chars "javascript:1"); Load (chars "https://one.test/"); Click 7 0; InputChar 0; InputChar 65; Backspace; Go;
   Features 0; Resize 300 20; ScrollBy 1000; Resource (Ptr (chars "x.png")) (Ptr [0]) 1 Null Null 0 Null 0].

Lemma use_ok : Forall (event_ok within) use.
Proof.
  unfold use. repeat (constructor; [cbn; try done; try (by apply lit_nonzero); unfold is_int; try lia|]); [text|constructor].
Qed.

Definition seen (r : res (vela doc (unit * list request) * (unit * list request))) : option (list bytes * Z * list request) :=
  match r with Ok (v, (_, l)) => Some (fst (past v), snd (past v), l) | _ => None end.

(** Both pages enter the history, the one that moved on first. *)
Example use_trace :
  seen (session 700 (Ptr (logged_ops ops)) ([], 0) use (tt, []))
  = Some ([chars "http://one.test/a.html"; chars "http://one.test/b.html"], 1,
      map ForPage [chars "http://one.test/a.html"; chars "http://one.test/b.html"; chars "http://one.test/a.html";
       chars "http://one.test/b.html"; chars "http://one.test/b.html"; chars "http://one.test/moved";
       chars "http://one.test/b.html"] ++ [ForResource (chars "http://one.test/x.png")]).
Proof. vm_compute. reflexivity. Qed.

(** An https address is typed over that of the page, and not loaded: without a TLS
    provider it could not be; but a resource of the page is asked for by https. *)
Example typed_address_resource :
  seen (session 700 (Ptr (logged_ops ops)) ([], 0)
    (map InputChar (chars "https://one.test/") ++ [Resource (Ptr (chars "c.png")) (Ptr [0]) 1 Null Null 0 Null 0]) (tt, []))
  = Some ([], -1, [ForResource (chars "https://one.test/c.png")]).
Proof. vm_compute. reflexivity. Qed.

(** A local document enters the history under an address the browser cannot load:
    going back to it asks the network for a host named [about]. *)
Example local_document_lost :
  seen (session 700 (Ptr (logged_ops ops)) ([], 0)
    [LoadHtml (Ptr (chars "<p>local")) Null; Load (chars "one.test/b.html"); Action VELA_NAV_BACK] (tt, []))
  = Some ([chars "about:local"; chars "http://one.test/b.html"], 1,
      map ForPage [chars "http://one.test/b.html"; chars "http://about:local"]).
Proof. vm_compute. reflexivity. Qed.

Lemma start_doc_ok : doc_ok ([], 0).
Proof. split; [by apply fits_nil|done]. Qed.

(** The history of the session above is the abstract one. *)
Lemma vela_history_refines_witness :
  safe False (session 700 (Ptr ops) ([], 0) use tt) (fun '(v, _) =>
    rtc hop ([], -1) (past v) /\ len (fst (past v)) <= 12 /\ -1 <= snd (past v) < len (fst (past v))).
Proof.
  apply (vela_history_refines False doc_ok (fun _ => True) within).
  - exact start_doc_ok.
  - cbn. lia.
  - split; [by left|exact ops_fine].
  - exact use_ok.
  - done.
Defined.

(** Its requests are allowed, and so is that of a picture of the page at hand. *)
Definition on_page : vela doc (unit * list request) :=
  seturl (chars "http://one.test/a.html") (set_platform (logged_ops ops) 1 (static_vela ([], 0))).

Lemma on_page_ok : vela_ok False doc_ok (requests_ok (fun _ => True) (tls on_page)) within on_page.
Proof.
  split; cbn; try (by apply fits_nil); try done.
  - split; cbn; [done| |lia|lia]. repeat (constructor; [by apply fits_nil|]). constructor.
  - intros _. exact (logged_ok False (fun _ => True) within ops ops_fine).
Qed.

Lemma vela_requests_allowed_witness :
  safe False (session 700 (Ptr (logged_ops ops)) ([], 0) use (tt, []))
    (fun '(_, (_, requests)) => Forall (request_ok false) requests) /\
  safe False (vela_resource_get (Ptr (chars "c.png")) (Ptr [0]) 1 Null Null 0 Null 0 (on_page, (tt, []))) (fun '(_, _, (_, (_, l))) =>
    l = [] \/ exists u, l = [] ++ [ForResource u] /\ allowed false u).
Proof.
  destruct (vela_requests_allowed False doc_ok (fun _ => True) within 700 ops ([], 0) use tt) as [H1 H2].
  - exact start_doc_ok.
  - cbn. lia.
  - by left.
  - exact ops_fine.
  - exact use_ok.
  - done.
  - split; [exact H1|]. apply H2; [exact on_page_ok|done|text|]. right. split; [text|by left].
Defined.

(** A browser on the second of two pages. *)
Definition on_second : vela doc unit :=
  set_history ([chars "http://one.test/a.html"; chars "http://one.test/b.html"] ++ replicate 10 []) 2 1
    (set_platform ops 1 (static_vela ([], 0))).

Lemma on_second_ok : vela_ok False doc_ok (fun _ => True) within on_second.
Proof.
  split; cbn; try (by apply fits_nil); try done.
  - split; cbn; [done| |lia|lia]. constructor; [text|]. constructor; [text|].
    repeat (constructor; [by apply fits_nil|]). constructor.
  - intros _. exact ops_fine.
Qed.

Lemma vela_back_forward_witness :
  safe False (vela_back (on_second, tt)) (fun '(r, (v', _)) =>
    past v' = (fst (past on_second), if r =? 0 then snd (past on_second) else snd (past on_second) - 1)) /\
  safe False (vela_forward (on_second, tt)) (fun '(r, (v', _)) =>
    past v' = (fst (past on_second), if r =? 0 then snd (past on_second) else snd (past on_second) + 1)).
Proof. apply (vela_back_forward False doc_ok (fun _ => True) within); [exact on_second_ok|done]. Defined.


(** The base keeps its query: a slash in it changes the directory. *)
Example query_taken_for_path :
  resolve false (Ptr (chars "http://one.test/p?next=/x")) (chars "c.png") 256 []
  = (Some (chars "http://one.test/p?next=/c.png"), []).
Proof. vm_compute. reflexivity. Qed.

(** A literal with an escaped quote and a line break. *)
Lemma jsstr_roundtrip_witness : jsstr (chars " 'it\'s\n' + rest") 1024 = chars "it's" ++ [10].
Proof.
  apply (jsstr_roundtrip 39 (chars "it's" ++ [10]) (chars " + rest") 1024 [32]);
    [by left|repeat constructor|vm_compute; reflexivity].
Defined.
End Bench.
