(* ===== verification/VelaNative.v ===== *)
(** * The native platform of the browser (kernel/vela.c, lines 35 and 37)

    [vela_init] installs Orion's own callbacks: the HTTP client, the transfer of
    pictures and the serial log.  The clients behind them are the class [Fetch]; under
    its laws the callbacks keep the contract of the platform. *)

From S2P Require Import Prelude Cstr NetEnv VelaText Vela VelaSafe VelaSession.

(** kernel/net.c, kernel/net_resource.c and kernel/tls.c as vela.c calls them.  The
    buffers of the fetch of bytes are the caller's: data, length and status line. *)
Class Fetch (E : Type) := {
  net_http_get : bytes -> bytes -> bytes -> E -> res (Z * bytes * bytes * E);
  net_http_get_bytes : bytes -> ptr bytes -> Z -> ptr Z -> ptr bytes -> Z -> E ->
    res (Z * ptr bytes * ptr Z * ptr bytes * E);
  tls_platform_ready : E -> Z
}.

Section native.
Context {Doc E : Type} `{!AsterEngine Doc E, !Console E, !Fetch E}.

Definition ohttp (u b s : bytes) (e : E) : res (Z * bytes * bytes * E) := net_http_get u b s e.

(** [ *n>=2&&d[0]==a&&d[1]==b] *)
Definition magic (n : ptr Z) (d : ptr bytes) (a b : Z) : res bool :=
  match n, d with
  | Ptr n, Ptr d =>
      if n <? 2 then Ok false
      else x ← ub (rd d 0); if x =? a then y ← ub (rd d 1); Ok (y =? b) else Ok false
  | Ptr n, Null => if n <? 2 then Ok false else Fault
  | Null, _ => Fault
  end.

Definition ores (u : bytes) (o : resource) (dc tc sc : Z) (e : E) : res (Z * resource * E) :=
  let '(d, n, type, s) := o in
  '(ok, d, n, s, e) ← net_http_get_bytes u d dc n s sc e;
  match type with
  | Ptr _ =>
      if tc =? 0 then Ok (ok, (d, n, type, s), e)
      else
        bmp ← (if ok =? 0 then Ok false else magic n d 66 77);
        ppm ← (if (ok =? 0) || (bmp : bool) then Ok false else magic n d 80 54);
        let t := if (bmp : bool) then chars "image/bmp"
                 else if (ppm : bool) then chars "image/x-portable-pixmap"
                 else chars "application/octet-stream" in
        Ok (ok, (d, n, Ptr (cp tc t), s), e)
  | Null => Ok (ok, (d, n, type, s), e)
  end.

Definition olog (l : Z) (m : bytes) (e : E) : res E :=
  e ← serial_write (chars "VELA: ") e; e ← serial_write m e; serial_write [13; 10] e.

(** The structure of [vela_init]. *)
Definition native_ops (tls : Z) : VelaPlatformOps E :=
  let caps := Z.lor (Z.lor VELA_PLATFORM_CAP_HTTP VELA_PLATFORM_CAP_LOG) VELA_PLATFORM_CAP_RESOURCES in
  mk_ops VELA_PLATFORM_ABI_VERSION ops_size (if tls =? 0 then caps else Z.lor caps VELA_PLATFORM_CAP_TLS)
    (Fn ohttp) NullFn (Fn olog) NullFn NullFn NullFn NullFn (Fn ores).

Definition vela_init (width : Z) (w : vela Doc E * E) : res (vela Doc E * E) :=
  let '(v, e) := w in
  '(_, v) ← ub (vela_init_ex width (Ptr (native_ops (tls_platform_ready e))) v); Ok (v, e).

(** What the browser relies on: pages are within the limits of the engine, the
    clients are asked for allowed addresses, and a fetch that succeeds has set the
    length. *)
Class FetchLaws (T : Prop) (J : E -> Prop) (room : limits Doc) : Prop := {
  law_get u raw st e : allowed (negb (tls_platform_ready e =? 0)) u -> fits 32768 raw -> fits 160 st -> J e ->
    safe T (net_http_get u raw st e) (fun '(ok, raw', st', e') =>
      fits 32768 raw' /\ fits 160 st' /\ J e' /\ (ok <> 0 -> displayable room raw'));
  law_get_bytes u d dc n s sc e : fits 256 u -> ci u (chars "javascript:") = false -> J e ->
    safe T (net_http_get_bytes u d dc n s sc e) (fun '(ok, d', n', _, e') => J e' /\
      (ok <> 0 -> exists n d, n' = Ptr n /\ d' = Ptr d /\ (2 <= n -> 2 <= len d)));
  law_tls e e' : J e -> J e' -> tls_platform_ready e' = tls_platform_ready e
}.

Context (T : Prop) (D : Doc -> Prop) (J : E -> Prop) (room : limits Doc).
Context `{!AsterLaws T D J room, !ConsoleLaws T J, !FetchLaws T J room}.

Lemma magic_ok n d a b : (2 <= n -> 2 <= len d) -> safe T (magic (Ptr n) (Ptr d) a b) (fun _ => True).
Proof.
  intros H. unfold magic. case_if; [done|]. destruct (rd_is_Some d 0) as [x ->]; [lia|]. cbn [ub mbind res_bind].
  case_if; [|done]. destruct (rd_is_Some d 1) as [y ->]; [lia|]. done.
Qed.

Lemma native_ops_ok e : J e -> ops_ok T J room (native_ops (tls_platform_ready e)).
Proof.
  intros He. split; cbn [http_get request_repaint op_log resource_get capabilities native_ops fn_ok].
  - intros u raw st e' Hu Hr Hs He'. apply law_get; [|done..]. rewrite (law_tls (T := T) (J := J) (room := room) e e' He He').
    revert Hu. by destruct (tls_platform_ready e =? 0).
  - done.
  - intros l m e' Hm He'. unfold olog. eapply safe_bind; [apply (law_console (T := T) (J := J)); [by apply lit_nonzero|done]|].
    intros e1 H1. eapply safe_bind; [by apply (law_console (T := T) (J := J))|]. intros e2 H2.
    apply (law_console (T := T) (J := J)); [by repeat constructor|done].
  - intros u [[[d n] t] s] dc tc sc e' Hu Hj He'. unfold ores. eapply safe_bind; [by apply (law_get_bytes (T := T) (J := J) (room := room))|].
    intros [[[[ok d'] n'] s'] e1] [H1 H2]. destruct t as [|t]; [done|]. case_if; [done|].
    destruct (Z.eqb_spec ok 0) as [->|Hok]; cbn [orb].
    + cbn [mbind res_bind]. done.
    + destruct (H2 Hok) as (k & b & -> & -> & Hb). eapply safe_bind; [by apply magic_ok|]. intros bmp _.
      apply (safe_bind _ _ _ (fun _ => True)); [destruct bmp; [done|by apply magic_ok]|by intros ppm _].
Qed.

Lemma vela_init_ok width d e :
  storage room d -> width <= widest room -> J e ->
  safe T (vela_init width (static_vela d, e)) (fun '(v, e') => vela_ok T D J room v /\ e' = e /\ past v = ([], -1)).
Proof.
  intros Hd Hw He. unfold vela_init.
  destruct (init_ok T D J room width (Ptr (native_ops (tls_platform_ready e))) d Hd Hw) as ([r v] & -> & Hv & Hp & Hr).
  - split; [by right|by apply native_ops_ok].
  - split; [|done]. apply Hv. intros ->. by pose proof (proj1 Hr eq_refl).
Qed.
End native.
