(* ===== verification/AsterDoc.v ===== *)
(** * Documents of the Aster engine (kernel/aster.c, include/aster.h)

    The arrays of a document and the two operations that fill them, [store] and [add].
    A string the engine is given is the text up to its terminator, a cursor in it the
    rest of the text, and a pair [(s, n)] of the source the [n] characters from [s]:
    the scanning loops are then structural, and cannot leave the text.  The arrays of
    the document are accessed with [rd] and [wr]. *)

From S2P Require Import Prelude Cstr VelaText.

(** ** Constants *)
Definition ASTER_VERSION : bytes := chars "0.3.2".
Definition ASTER_API_MAJOR : Z := 1.
Definition ASTER_API_MINOR : Z := 3.
Definition ASTER_API_VERSION : Z := Z.lor (Z.shiftl ASTER_API_MAJOR 16) ASTER_API_MINOR.
Definition ASTER_MAX_NODES : Z := 384.
Definition ASTER_MAX_PAINT : Z := 512.
Definition ASTER_TEXT_CAP : Z := 24576.
Definition ASTER_MAX_CSS_RULES : Z := 32.
Definition ASTER_PAINT_LINK : Z := 1.
Definition ASTER_PAINT_BOLD : Z := 2.
Definition ASTER_PAINT_IMAGE : Z := 4.
Definition ASTER_PAINT_UNDERLINE : Z := 8.
Definition ASTER_STYLE_HIDDEN : Z := 1.
Definition ASTER_STYLE_BOLD : Z := 2.
Definition ASTER_STYLE_UNDERLINE : Z := 4.

Definition ASTER_NODE_ROOT : Z := 0.
Definition ASTER_NODE_ELEMENT : Z := 1.
Definition ASTER_NODE_TEXT : Z := 2.

Definition ASTER_TAG_UNKNOWN : Z := 0.
Definition ASTER_TAG_HTML : Z := 1.
Definition ASTER_TAG_HEAD : Z := 2.
Definition ASTER_TAG_BODY : Z := 3.
Definition ASTER_TAG_TITLE : Z := 4.
Definition ASTER_TAG_H1 : Z := 5.
Definition ASTER_TAG_H2 : Z := 6.
Definition ASTER_TAG_H3 : Z := 7.
Definition ASTER_TAG_P : Z := 8.
Definition ASTER_TAG_DIV : Z := 9.
Definition ASTER_TAG_BR : Z := 10.
Definition ASTER_TAG_HR : Z := 11.
Definition ASTER_TAG_A : Z := 12.
Definition ASTER_TAG_UL : Z := 13.
Definition ASTER_TAG_OL : Z := 14.
Definition ASTER_TAG_LI : Z := 15.
Definition ASTER_TAG_STRONG : Z := 16.
Definition ASTER_TAG_EM : Z := 17.
Definition ASTER_TAG_CODE : Z := 18.
Definition ASTER_TAG_SPAN : Z := 19.
Definition ASTER_TAG_HEADER : Z := 20.
Definition ASTER_TAG_FOOTER : Z := 21.
Definition ASTER_TAG_MAIN : Z := 22.
Definition ASTER_TAG_NAV : Z := 23.
Definition ASTER_TAG_SECTION : Z := 24.
Definition ASTER_TAG_ARTICLE : Z := 25.
Definition ASTER_TAG_BLOCKQUOTE : Z := 26.
Definition ASTER_TAG_SCRIPT : Z := 27.
Definition ASTER_TAG_STYLE : Z := 28.
Definition ASTER_TAG_IMG : Z := 29.
Definition ASTER_TAG_BUTTON : Z := 30.

Definition CSS_ANY_TAG : Z := 255.
Definition CSS_SELECTOR_ANY : Z := 0.
Definition CSS_SELECTOR_TAG : Z := 1.
Definition CSS_SELECTOR_CLASS : Z := 2.
Definition CSS_SELECTOR_ID : Z := 3.
Definition CSS_SELECTOR_TAG_CLASS : Z := 4.
Definition CSS_SELECTOR_TAG_ID : Z := 5.

(** ** Data *)

(** A pair of fields [x_off], [x_len]. *)
Record range := mk_range { off : Z; rlen : Z }.
Definition no_range : range := mk_range 0 0.

Record AsterNode := mk_node {
  type : Z; tag : Z;
  parent : Z; first_child : Z; next_sibling : Z;
  n_text : range; n_href : range; n_src : range; n_id : range; n_class : range;
  width_hint : Z; height_hint : Z;
  style_flags : Z; style_scale : Z; style_color : Z
}.

Record AsterCssRule := mk_rule {
  r_tag : Z; selector_kind : Z; r_flags : Z; r_scale : Z; r_color_set : Z;
  r_selector : range; r_color : Z
}.

Record AsterPaintItem := mk_item {
  i_x : Z; i_y : Z; i_w : Z; i_h : Z; i_scale : Z; i_flags : Z; i_color : Z;
  i_text : range; i_href : range; i_src : range
}.

Record AsterDocument := mk_doc {
  nodes : list AsterNode;
  paint : list AsterPaintItem;
  css : list AsterCssRule;
  text : bytes;
  node_count : Z; paint_count : Z; text_used : Z; css_count : Z;
  document_height : Z;
  title : bytes
}.

Definition set_nodes l n (d : AsterDocument) := mk_doc l (paint d) (css d) (text d) n (paint_count d) (text_used d) (css_count d) (document_height d) (title d).
Definition set_paint l n (d : AsterDocument) := mk_doc (nodes d) l (css d) (text d) (node_count d) n (text_used d) (css_count d) (document_height d) (title d).
Definition set_css l n (d : AsterDocument) := mk_doc (nodes d) (paint d) l (text d) (node_count d) (paint_count d) (text_used d) n (document_height d) (title d).
Definition set_text l n (d : AsterDocument) := mk_doc (nodes d) (paint d) (css d) l (node_count d) (paint_count d) n (css_count d) (document_height d) (title d).
Definition set_height h (d : AsterDocument) := mk_doc (nodes d) (paint d) (css d) (text d) (node_count d) (paint_count d) (text_used d) (css_count d) h (title d).
Definition set_title t (d : AsterDocument) := mk_doc (nodes d) (paint d) (css d) (text d) (node_count d) (paint_count d) (text_used d) (css_count d) (document_height d) t.

(** ** Characters *)

Definition sp (c : Z) : bool := (c =? SP) || (c =? HT) || (c =? CR) || (c =? LF).

(** [eqn]: the [n] characters are those of [l], whatever the case. *)
Fixpoint eqn (s l : bytes) : bool :=
  match s, l with
  | [], [] => true
  | x :: s', y :: l' => if low x =? low y then eqn s' l' else false
  | _, _ => false
  end.

Definition hx (c : Z) : Z :=
  if is_digit c then c - 48
  else
    let c := low c in
    if (97 <=? c) && (c <=? 102) then c - 97 + 10 else -1.

(** [while(p<n&&f(s[p]))p++;]: what the cursor passes, and the rest. *)
Fixpoint run (f : Z -> bool) (s : bytes) : bytes * bytes :=
  match s with
  | [] => ([], [])
  | c :: s' => if f c then let '(a, b) := run f s' in (c :: a, b) else ([], s)
  end.
Definition passed f s := fst (run f s).
Definition past f s := snd (run f s).

(** [while(n&&sp( *s)){s++;n--;}while(n&&sp(s[n-1]))n--;] *)
Definition trim_end (s : bytes) : bytes := rev (past sp (rev s)).
Definition trim (s : bytes) : bytes := trim_end (past sp s).

(** ** Text *)

(** [store]: the characters that still fit, and where they begin. *)
Definition store (d : AsterDocument) (s : bytes) : option (Z * AsterDocument) :=
  if (len s =? 0) || (ASTER_TEXT_CAP - 1 <=? text_used d) then Some (0, d)
  else
    let a := ASTER_TEXT_CAP - 1 - text_used d in
    let n := if a <? len s then a else len s in
    t ← copy_from (Z.to_nat n) (text d) (text_used d) s 0;
    t ← wr t (text_used d + n) 0;
    Some (text_used d, set_text t (text_used d + n) d).

(** The fields [x_off], [x_len] of a string that was stored. *)
Definition stored (d : AsterDocument) (s : bytes) : option (range * AsterDocument) :=
  '(o, d) ← store d s; Some (mk_range o (u16 (len s)), d).

(** ** The tree *)

Definition set_first_child i (n : AsterNode) := mk_node (type n) (tag n) (parent n) i (next_sibling n) (n_text n) (n_href n) (n_src n) (n_id n) (n_class n) (width_hint n) (height_hint n) (style_flags n) (style_scale n) (style_color n).
Definition set_next_sibling i (n : AsterNode) := mk_node (type n) (tag n) (parent n) (first_child n) i (n_text n) (n_href n) (n_src n) (n_id n) (n_class n) (width_hint n) (height_hint n) (style_flags n) (style_scale n) (style_color n).

(** [while(d->nodes[c].next_sibling>=0)c=d->nodes[c].next_sibling;] *)
Fixpoint last_sibling (fuel : nat) (l : list AsterNode) (c : Z) : option Z :=
  match fuel with
  | O => None
  | S f => n ← rd l c; if 0 <=? next_sibling n then last_sibling f l (next_sibling n) else Some c
  end.

Definition add (d : AsterDocument) (p type tag : Z) (r : range) : option (Z * AsterDocument) :=
  if ASTER_MAX_NODES <=? node_count d then Some (-1, d)
  else
    let i := node_count d in
    l ← wr (nodes d) i (mk_node type tag p (-1) (-1) r no_range no_range no_range no_range 0 0 0 0 0);
    l ← (if 0 <=? p then
           q ← rd l p;
           if first_child q <? 0 then wr l p (set_first_child i q)
           else
             c ← last_sibling (Z.to_nat ASTER_MAX_NODES) l (first_child q);
             n ← rd l c;
             wr l c (set_next_sibling i n)
         else Some l);
    Some (i, set_nodes l (i + 1) d).

Definition tag_names : list (bytes * Z) :=
  [(chars "html", ASTER_TAG_HTML); (chars "head", ASTER_TAG_HEAD); (chars "body", ASTER_TAG_BODY);
   (chars "title", ASTER_TAG_TITLE); (chars "h1", ASTER_TAG_H1); (chars "h2", ASTER_TAG_H2);
   (chars "h3", ASTER_TAG_H3); (chars "p", ASTER_TAG_P); (chars "div", ASTER_TAG_DIV);
   (chars "br", ASTER_TAG_BR); (chars "hr", ASTER_TAG_HR); (chars "a", ASTER_TAG_A);
   (chars "ul", ASTER_TAG_UL); (chars "ol", ASTER_TAG_OL); (chars "li", ASTER_TAG_LI);
   (chars "strong", ASTER_TAG_STRONG); (chars "b", ASTER_TAG_STRONG); (chars "em", ASTER_TAG_EM);
   (chars "i", ASTER_TAG_EM); (chars "code", ASTER_TAG_CODE); (chars "span", ASTER_TAG_SPAN);
   (chars "header", ASTER_TAG_HEADER); (chars "footer", ASTER_TAG_FOOTER); (chars "main", ASTER_TAG_MAIN);
   (chars "nav", ASTER_TAG_NAV); (chars "section", ASTER_TAG_SECTION); (chars "article", ASTER_TAG_ARTICLE);
   (chars "blockquote", ASTER_TAG_BLOCKQUOTE); (chars "script", ASTER_TAG_SCRIPT);
   (chars "style", ASTER_TAG_STYLE); (chars "img", ASTER_TAG_IMG); (chars "button", ASTER_TAG_BUTTON)].

Fixpoint lookup_tag (l : list (bytes * Z)) (s : bytes) : Z :=
  match l with
  | [] => ASTER_TAG_UNKNOWN
  | (x, y) :: l' => if eqn s x then y else lookup_tag l' s
  end.
Definition tagid (s : bytes) : Z := lookup_tag tag_names s.

Definition is_one_of (t : Z) (l : list Z) : bool := existsb (Z.eqb t) l.
Definition block (t : Z) : bool :=
  is_one_of t [ASTER_TAG_BODY; ASTER_TAG_H1; ASTER_TAG_H2; ASTER_TAG_H3; ASTER_TAG_P; ASTER_TAG_DIV;
    ASTER_TAG_UL; ASTER_TAG_OL; ASTER_TAG_LI; ASTER_TAG_HEADER; ASTER_TAG_FOOTER; ASTER_TAG_MAIN;
    ASTER_TAG_NAV; ASTER_TAG_SECTION; ASTER_TAG_ARTICLE; ASTER_TAG_BLOCKQUOTE; ASTER_TAG_HR; ASTER_TAG_IMG].
Definition voidtag (t : Z) : bool := is_one_of t [ASTER_TAG_BR; ASTER_TAG_HR; ASTER_TAG_IMG].

Definition aster_document_init (d : AsterDocument) : option AsterDocument :=
  let d := mk_doc (nodes d) (paint d) (css d) (text d) 0 0 0 0 0 [] in
  '(_, d) ← add d (-1) ASTER_NODE_ROOT ASTER_TAG_UNKNOWN no_range; Some d.
