(* ===== verification/AsterCss.v ===== *)
(** * Styles, attributes and characters of Aster (kernel/aster.c, lines 32-42)

    A slice is the list of its characters; where the source looks behind the end of
    one, [after] is the text that follows it. *)

From S2P Require Import Prelude Cstr VelaText AsterDoc.

(** ** Character references and blanks *)

(** The reference at the [r] characters left, and what it takes with it. *)
Definition entity (s : bytes) : Z * bytes :=
  let r := len s in
  match s with
  | [] => (0, [])
  | c :: s' =>
      if c =? 38 then
        if (3 <? r) && ci s (chars "&lt;") then (60, drop 3 s')
        else if (3 <? r) && ci s (chars "&gt;") then (62, drop 3 s')
        else if (4 <? r) && ci s (chars "&amp;") then (38, drop 4 s')
        else if (5 <? r) && ci s (chars "&nbsp;") then (32, drop 5 s')
        else if (5 <? r) && ci s (chars "&quot;") then (34, drop 5 s')
        else (c, s')
      else (c, s')
  end.

(** The loop of [decode]: the array [out] of [cap] characters holds [o] of them;
    [None] when one is written behind its end. *)
Fixpoint decode_loop (fuel : nat) (cap : Z) (s : bytes) (out : bytes) (ws : bool) : option bytes :=
  match fuel with
  | O => None
  | S f =>
      match s with
      | [] => if len out <? cap then Some out else None
      | _ =>
          if negb (len out + 1 <? cap) then (if len out <? cap then Some out else None)
          else
            let '(c, s) := entity s in
            if sp c then decode_loop f cap s out true
            else
              let out := if ws && negb (len out =? 0) then out ++ [SP] else out in
              if len out <? cap then decode_loop f cap s (out ++ [c]) false else None
      end
  end.

Definition decode (cap : Z) (s : bytes) : option bytes :=
  if cap =? 0 then Some [] else decode_loop (S (length s)) cap s [] false.

(** ** Declarations *)

Record Style := mk_style { flags : Z; scale : Z; color_set : Z; s_color : Z }.
Definition no_style : Style := mk_style 0 0 0 0.

Fixpoint hex_digits (s : bytes) (v : Z) : option Z :=
  match s with
  | [] => Some v
  | c :: s' => if hx c <? 0 then None else hex_digits s' (Z.lor (u32 (Z.shiftl v 4)) (hx c))
  end.

Definition color (s : bytes) : option Z :=
  let s := trim s in
  if (len s =? 7) && (head0 s =? HASH) then hex_digits (tail s) 0
  else if eqn s (chars "red") then Some 0xCC3344
  else if eqn s (chars "green") then Some 0x2E8B57
  else if eqn s (chars "blue") then Some 0x2468C4
  else if eqn s (chars "black") then Some 0
  else if eqn s (chars "white") then Some 0xFFFFFF
  else if eqn s (chars "gray") || eqn s (chars "grey") then Some 0x777777
  else None.

Definition add_flag (f : Z) (st : Style) : Style := mk_style (Z.lor (flags st) f) (scale st) (color_set st) (s_color st).

(** [while(i<vn&&dg(v[i]))x=x*10u+(unsigned)(v[i++]-'0');] *)
Fixpoint number (s : bytes) (x : Z) : Z :=
  match s with
  | c :: s' => if is_digit c then number s' (u32 (x * 10 + (c - 48))) else x
  | [] => x
  end.

Definition decl (st : Style) (n v after : bytes) : Style :=
  let v' := past sp v in
  let v := trim v in
  if eqn n (chars "color") then
    match color v with Some c => mk_style (flags st) (scale st) 1 c | None => st end
  else if eqn n (chars "font-weight") && eqn v (chars "bold") then add_flag ASTER_STYLE_BOLD st
  else if eqn n (chars "text-decoration") && ci (v' ++ after) (chars "underline") then add_flag ASTER_STYLE_UNDERLINE st
  else if eqn n (chars "display") && eqn v (chars "none") then add_flag ASTER_STYLE_HIDDEN st
  else if eqn n (chars "font-size") then
    let x := number v 0 in
    if 22 <=? x then mk_style (flags st) 2 (color_set st) (s_color st)
    else if negb (x =? 0) then mk_style (flags st) 1 (color_set st) (s_color st)
    else st
  else st.

Fixpoint styletext_loop (fuel : nat) (s after : bytes) (st : Style) : option Style :=
  match fuel with
  | O => None
  | S f =>
      match s with
      | [] => Some st
      | _ =>
          let s := past (fun c => sp c || (c =? SEMICOLON)) s in
          let '(n, s) := run (fun c => negb (c =? COLON) && negb (c =? SEMICOLON)) s in
          if negb (head0 s =? COLON) then
            styletext_loop f (past (fun c => negb (c =? SEMICOLON)) s) after st
          else
            let '(v, s) := run (fun c => negb (c =? SEMICOLON)) (tail s) in
            styletext_loop f s after (decl st (trim_end n) v (s ++ after))
      end
  end.
Definition styletext (s after : bytes) : option Style := styletext_loop (S (length s)) s after no_style.

(** ** Rules *)

(** [sp(s[i])||s[i]=='>'||s[i]=='['||s[i]==':'||s[i]=='+'] *)
Definition combinator (c : Z) : bool := sp c || (c =? 62) || (c =? 91) || (c =? COLON) || (c =? 43).

Definition mk_selector (st : Style) (tag kind : Z) (r : range) : AsterCssRule :=
  mk_rule tag kind (flags st) (scale st) (color_set st) r (s_color st).

(** [selector] with the fields [cssadd] sets before; [None] inside when it returns 0. *)
Definition selector (d : AsterDocument) (s : bytes) (st : Style) : option (option AsterCssRule * AsterDocument) :=
  let s := trim s in
  if len s =? 0 then Some (None, d)
  else if existsb combinator s then Some (None, d)
  else if (len s =? 1) && (head0 s =? 42) then Some (Some (mk_selector st CSS_ANY_TAG CSS_SELECTOR_ANY no_range), d)
  else
    let '(name, rest) := run (fun c => negb (c =? DOT) && negb (c =? HASH)) s in
    let mark := head0 rest in
    match name with
    | [] =>
        if len s <? 2 then Some (None, d)
        else
          '(r, d) ← stored d (tail s);
          let kind := if mark =? DOT then CSS_SELECTOR_CLASS else CSS_SELECTOR_ID in
          Some (if rlen r =? 0 then None else Some (mk_selector st CSS_ANY_TAG kind r), d)
    | _ =>
        let t := tagid name in
        if t =? ASTER_TAG_UNKNOWN then Some (None, d)
        else if mark =? 0 then Some (Some (mk_selector st t CSS_SELECTOR_TAG no_range), d)
        else if len s <=? len name + 1 then Some (None, d)
        else
          '(r, d) ← stored d (tail rest);
          let kind := if mark =? DOT then CSS_SELECTOR_TAG_CLASS else CSS_SELECTOR_TAG_ID in
          Some (if rlen r =? 0 then None else Some (mk_selector st t kind r), d)
    end.

Definition cssadd (d : AsterDocument) (s : bytes) (st : Style) : option AsterDocument :=
  if ASTER_MAX_CSS_RULES <=? css_count d then Some d
  else
    '(r, d) ← selector d s st;
    match r with
    | None => Some d
    | Some r => l ← wr (css d) (css_count d) r; Some (set_css l (css_count d + 1) d)
    end.

(** The selectors of a rule, separated by commas. *)
Fixpoint selectors (fuel : nat) (d : AsterDocument) (s : bytes) (st : Style) : option AsterDocument :=
  match fuel with
  | O => None
  | S f =>
      match s with
      | [] => Some d
      | _ =>
          if ASTER_MAX_CSS_RULES <=? css_count d then Some d
          else
            let '(a, s) := run (fun c => negb (c =? COMMA)) s in
            d ← cssadd d a st;
            selectors f d (tail s) st
      end
  end.

Fixpoint css_loop (fuel : nat) (d : AsterDocument) (s after : bytes) : option AsterDocument :=
  match fuel with
  | O => None
  | S f =>
      match s with
      | [] => Some d
      | _ =>
          if ASTER_MAX_CSS_RULES <=? css_count d then Some d
          else
            let '(sel, s) := run (fun c => negb (c =? 123)) (past sp s) in
            match s with
            | [] => Some d
            | _ :: s =>
                let '(body, s) := run (fun c => negb (c =? 125)) s in
                st ← styletext body (s ++ after);
                d ← selectors (S (length sel)) d sel st;
                css_loop f d (tail s) after
            end
      end
  end.
Definition css_rules (d : AsterDocument) (s after : bytes) : option AsterDocument := css_loop (S (length s)) d s after.

(** ** Attributes *)

Definition is_quote (c : Z) : bool := (c =? 39) || (c =? 34).

(** An attribute: its name, its value, and what follows the value. *)
Definition attribute : Type := bytes * bytes * bytes.

(** One turn of the loop of [attr]: an attribute that has a value, or nothing, and
    where the next turn begins. *)
Definition next_attr (s : bytes) : option attribute * bytes :=
  let '(name, s) := run (fun c => negb (sp c) && negb (c =? EQUALS) && negb (c =? 62)) (past sp s) in
  let s := past sp s in
  if negb (head0 s =? EQUALS) then (None, past (fun c => negb (sp c)) s)
  else
    let s := past sp (tail s) in
    if is_quote (head0 s) then
      let '(v, r) := run (fun c => negb (c =? head0 s)) (tail s) in (Some (name, v, r), tail r)
    else
      let '(v, r) := run (fun c => negb (sp c) && negb (c =? 62)) s in (Some (name, v, r), r).

(** [attr]: the value, and what follows it in the slice. *)
Fixpoint attr_loop (fuel : nat) (s want : bytes) : option (option (bytes * bytes)) :=
  match fuel with
  | O => None
  | S f =>
      match s with
      | [] => Some None
      | _ =>
          match next_attr s with
          | (Some (name, v, r), rest) => if eqn name want then Some (Some (v, r)) else attr_loop f rest want
          | (None, rest) => attr_loop f rest want
          end
      end
  end.
Definition attr (s want : bytes) : option (option (bytes * bytes)) := attr_loop (S (length s)) s want.

(** [while(i<n&&dg(s[i])){v=v*10u+...;if(v>4096)v=4096;}] *)
Fixpoint dim_loop (s : bytes) (v : Z) : Z :=
  match s with
  | c :: s' =>
      if is_digit c then
        let v := v * 10 + (c - 48) in dim_loop s' (if 4096 <? v then 4096 else v)
      else v
  | [] => v
  end.
Definition dim (s : bytes) : Z := u16 (dim_loop s 0).

(** A string attribute of [attrs]: stored when it is there and not empty. *)
Definition string_attr (d : AsterDocument) (s want : bytes) : option (option range * AsterDocument) :=
  a ← attr s want;
  match a with
  | Some (c :: v, _) => '(r, d) ← stored d (c :: v); Some (Some r, d)
  | _ => Some (None, d)
  end.

Definition set_n_text r (n : AsterNode) := mk_node (type n) (tag n) (parent n) (first_child n) (next_sibling n) r (n_href n) (n_src n) (n_id n) (n_class n) (width_hint n) (height_hint n) (style_flags n) (style_scale n) (style_color n).
Definition set_n_href r (n : AsterNode) := mk_node (type n) (tag n) (parent n) (first_child n) (next_sibling n) (n_text n) r (n_src n) (n_id n) (n_class n) (width_hint n) (height_hint n) (style_flags n) (style_scale n) (style_color n).
Definition set_n_src r (n : AsterNode) := mk_node (type n) (tag n) (parent n) (first_child n) (next_sibling n) (n_text n) (n_href n) r (n_id n) (n_class n) (width_hint n) (height_hint n) (style_flags n) (style_scale n) (style_color n).
Definition set_n_id r (n : AsterNode) := mk_node (type n) (tag n) (parent n) (first_child n) (next_sibling n) (n_text n) (n_href n) (n_src n) r (n_class n) (width_hint n) (height_hint n) (style_flags n) (style_scale n) (style_color n).
Definition set_n_class r (n : AsterNode) := mk_node (type n) (tag n) (parent n) (first_child n) (next_sibling n) (n_text n) (n_href n) (n_src n) (n_id n) r (width_hint n) (height_hint n) (style_flags n) (style_scale n) (style_color n).
Definition set_hints w h (n : AsterNode) := mk_node (type n) (tag n) (parent n) (first_child n) (next_sibling n) (n_text n) (n_href n) (n_src n) (n_id n) (n_class n) w h (style_flags n) (style_scale n) (style_color n).
Definition set_style f sc c (n : AsterNode) := mk_node (type n) (tag n) (parent n) (first_child n) (next_sibling n) (n_text n) (n_href n) (n_src n) (n_id n) (n_class n) (width_hint n) (height_hint n) f sc c.

Definition put (set : range -> AsterNode -> AsterNode) (r : option range) (n : AsterNode) : AsterNode :=
  match r with Some r => set r n | None => n end.

Definition attrs (d : AsterDocument) (n : AsterNode) (s after : bytes) : option (AsterNode * AsterDocument) :=
  '(r, d) ← string_attr d s (chars "href"); let n := put set_n_href r n in
  '(r, d) ← string_attr d s (chars "src"); let n := put set_n_src r n in
  '(r, d) ← string_attr d s (chars "id"); let n := put set_n_id r n in
  '(r, d) ← string_attr d s (chars "class"); let n := put set_n_class r n in
  a ← attr s (chars "alt");
  '(n, d) ← match a with
            | Some (c :: v, _) =>
                t ← decode 192 (c :: v); '(r, d) ← stored d t; Some (set_n_text r n, d)
            | _ => Some (n, d)
            end;
  a ← attr s (chars "width");
  let n := match a with Some (v, _) => set_hints (dim v) (height_hint n) n | None => n end in
  a ← attr s (chars "height");
  let n := match a with Some (v, _) => set_hints (width_hint n) (dim v) n | None => n end in
  a ← attr s (chars "style");
  match a with
  | Some (v, r) =>
      st ← styletext v (r ++ after);
      Some (set_style (flags st) (scale st) (if color_set st =? 0 then 0 else s_color st) n, d)
  | None => Some (n, d)
  end.
