(* ===== verification/AsterText.v ===== *)
(** * Text and attributes as Aster reads them

    [decode] against a reference: the character references replaced, the words
    separated by single blanks; and [attr] against the list of the attributes of a
    tag. *)

From S2P Require Import Prelude Cstr VelaText AsterDoc AsterCss.

(** ** Scanning *)

Lemma run_app f s : fst (run f s) ++ snd (run f s) = s.
Proof. induction s as [|c s IH]; [done|]. cbn [run]. case_if; [|done]. destruct (run f s). cbn in *. by rewrite IH. Qed.

Lemma run_all f s : Forall (fun c => f c = true) (fst (run f s)).
Proof. induction s as [|c s IH]; [done|]. cbn [run]. case_if; [|done]. destruct (run f s). cbn in *. by constructor. Qed.

Lemma run_stop f s c r : snd (run f s) = c :: r -> f c = false.
Proof.
  induction s as [|x s IH]; [done|]. cbn [run]. destruct (f x) eqn:E; [|by intros [= -> ->]].
  destruct (run f s). cbn in *. done.
Qed.

Lemma run_length f s : len (fst (run f s)) + len (snd (run f s)) = len s.
Proof. rewrite <- (run_app f s) at 3. rewrite length_app. lia. Qed.

Lemma run_split f a r : Forall (fun c => f c = true) a -> (match r with [] => True | c :: _ => f c = false end) ->
  run f (a ++ r) = (a, r).
Proof.
  intros Ha Hr. induction Ha as [|c a Hc _ IH]; cbn [app].
  - destruct r as [|c r]; [done|]. cbn [run]. by rewrite Hr.
  - cbn [run]. by rewrite Hc, IH.
Qed.

(** ** Reference: references replaced, blanks collapsed *)

Fixpoint expand (fuel : nat) (s : bytes) : bytes :=
  match fuel with
  | O => []
  | S f => match s with [] => [] | _ => let '(c, s) := entity s in c :: expand f s end
  end.

Fixpoint split_words (l : bytes) : list bytes :=
  match l with
  | [] => [[]]
  | c :: l' =>
      if sp c then [] :: split_words l'
      else match split_words l' with [] => [[c]] | w :: ws => (c :: w) :: ws end
  end.

Definition is_word (w : bytes) : bool := match w with [] => false | _ => true end.

Fixpoint join (ws : list bytes) : bytes :=
  match ws with
  | [] => []
  | w :: ws' => match ws' with [] => w | _ => w ++ SP :: join ws' end
  end.

Definition collapse (l : bytes) : bytes := join (List.filter is_word (split_words l)).

(** What the document shows of a run of characters. *)
Definition shown (s : bytes) : bytes := collapse (expand (length s) s).

(** ** The loop *)

(** The words after a word that goes on, and after a blank. *)
Definition rest_words (ws : list bytes) : bytes :=
  match List.filter is_word ws with [] => [] | l => SP :: join l end.
Definition cont (l : bytes) : bytes :=
  match split_words l with [] => [] | w :: ws => w ++ rest_words ws end.

Lemma split_words_cons l : exists w ws, split_words l = w :: ws.
Proof. destruct l as [|c l]; [by exists [], []|]. cbn. case_if; [by eexists _, _|]. destruct (split_words l); by eexists _, _. Qed.

Lemma collapse_blank c l : sp c = true -> collapse (c :: l) = collapse l.
Proof. intros H. unfold collapse. cbn [split_words]. by rewrite H. Qed.

Lemma collapse_char c l : sp c = false -> collapse (c :: l) = c :: cont l.
Proof.
  intros H. unfold collapse, cont. cbn [split_words]. rewrite H.
  destruct (split_words_cons l) as (w & ws & ->). cbn [List.filter is_word join]. unfold rest_words.
  destruct (List.filter is_word ws); [by rewrite app_nil_r|done].
Qed.

Lemma cont_char c l : sp c = false -> cont (c :: l) = c :: cont l.
Proof.
  intros H. unfold cont. cbn [split_words]. rewrite H. by destruct (split_words_cons l) as (w & ws & ->).
Qed.

Lemma collapse_rest l : rest_words (split_words l) = match collapse l with [] => [] | t => SP :: t end.
Proof.
  unfold rest_words, collapse. destruct (List.filter is_word (split_words l)) as [|w ws] eqn:E; [done|].
  assert (Hw : is_word w = true).
  { assert (H : In w (List.filter is_word (split_words l))) by (rewrite E; by left). apply filter_In in H as [_ H]. done. }
  destruct w as [|c w]; [done|]. by destruct ws.
Qed.

Lemma cont_blank c l : sp c = true -> cont (c :: l) = match collapse l with [] => [] | t => SP :: t end.
Proof. intros H. unfold cont. cbn [split_words]. rewrite H. cbn [app]. apply collapse_rest. Qed.

Lemma entity_length s c r : s <> [] -> entity s = (c, r) -> len r < len s.
Proof.
  destruct s as [|x s]; [done|]. intros _. unfold entity.
  repeat case_if; intros [= <- <-]; rewrite ?length_drop; cbn [length]; lia.
Qed.

(** What is still to come, behind the characters written. *)
Definition pending (out : bytes) (ws : bool) (l : bytes) : bytes :=
  match out with
  | [] => collapse l
  | _ => if ws then match collapse l with [] => [] | t => SP :: t end else cont l
  end.

Lemma decode_loop_spec fuel cap s out ws k :
  (length s <= k)%nat -> len s < Z.of_nat fuel ->
  len out + (if ws && negb (len out =? 0) then 1 else 0) + len s + 1 < cap ->
  decode_loop fuel cap s out ws = Some (out ++ pending out ws (expand k s)).
Proof.
  revert s out ws k. induction fuel as [|f IH]; intros s out ws k Hk Hf Hc; [lia|].
  assert (Hw : 0 <= if ws && negb (len out =? 0) then 1 else 0) by (destruct (ws && _); lia).
  cbn [decode_loop]. destruct s as [|x s].
  { assert (He : expand k [] = []) by by destruct k. rewrite He. if_true.
    unfold pending. destruct out; [done|]. destruct ws; cbn; by rewrite ?app_nil_r. }
  destruct k as [|k]; [cbn in Hk; lia|]. cbn [expand].
  replace (len out + 1 <? cap) with true by (symmetry; apply Z.ltb_lt; destruct (ws && _); lia). cbn [negb].
  destruct (entity (x :: s)) as [c r] eqn:Ee. pose proof (entity_length (x :: s) c r ltac:(done) Ee) as Hr.
  case_if.
  - rewrite (IH r out true k); [|cbn in *; lia|lia|revert Hc; destruct ws, (len out =? 0); cbn [andb negb]; lia].
    do 2 f_equal. unfold pending. destruct out; [by rewrite collapse_blank|].
    destruct ws; [by rewrite collapse_blank|by rewrite cont_blank].
  - set (out' := if ws && negb (len out =? 0) then out ++ [SP] else out).
    assert (Hl : len out' = len out + if ws && negb (len out =? 0) then 1 else 0).
    { unfold out'. destruct (ws && negb (len out =? 0)); [rewrite length_app; cbn; lia|lia]. }
    replace (len out' <? cap) with true by (symmetry; apply Z.ltb_lt; lia).
    rewrite (IH r (out' ++ [c]) false k); [|cbn in *; lia|lia|rewrite length_app; cbn [andb length] in *; lia].
    f_equal. rewrite <- app_assoc. cbn [app].
    assert (Hp : pending (out' ++ [c]) false (expand k r) = cont (expand k r)) by (by destruct out').
    rewrite Hp. unfold out', pending. destruct out as [|y out].
    + cbn [length Z.of_nat Z.eqb negb]. rewrite andb_false_r. by rewrite collapse_char.
    + replace (len (y :: out) =? 0) with false by (symmetry; apply Z.eqb_neq; cbn; lia). cbn [negb]. rewrite andb_true_r.
      destruct ws; [rewrite <- app_assoc; by rewrite collapse_char|by rewrite cont_char].
Qed.

(** A run of characters shorter than the array is decoded in full: its
    character references replaced, its words separated by single blanks. *)
Theorem decode_correct cap s : len s + 1 < cap -> decode cap s = Some (shown s).
Proof.
  intros H. unfold decode. if_false. by rewrite (decode_loop_spec _ _ _ _ _ (length s)) by (cbn; lia).
Qed.

Lemma decode_correct_witness :
  decode 768 (chars " a&amp;b  &lt;c&nbsp; d ") = Some (shown (chars " a&amp;b  &lt;c&nbsp; d ")) /\
  shown (chars " a&amp;b  &lt;c&nbsp; d ") = chars "a&b <c d".
Proof. split; [apply (decode_correct 768); vm_compute; reflexivity|vm_compute; reflexivity]. Defined.

Lemma expand_length fuel s : (length (expand fuel s) <= length s)%nat.
Proof.
  revert s. induction fuel as [|f IH]; intros s; [cbn; lia|]. cbn [expand]. destruct s as [|x s]; [done|].
  destruct (entity (x :: s)) as [c r] eqn:Ee. pose proof (entity_length (x :: s) c r ltac:(done) Ee). cbn [length].
  specialize (IH r). cbn in *. lia.
Qed.

Lemma collapse_length l : len (collapse l) <= len l /\ len (cont l) <= len l.
Proof.
  induction l as [|c l [IH1 IH2]]; [done|]. destruct (sp c) eqn:E.
  - rewrite collapse_blank, cont_blank by done. destruct (collapse l); cbn in *; lia.
  - rewrite collapse_char, cont_char by done. cbn in *. lia.
Qed.

Lemma shown_length s : len (shown s) <= len s.
Proof. unfold shown. pose proof (collapse_length (expand (length s) s)) as [H _]. pose proof (expand_length (length s) s). lia. Qed.

Lemma decode_ok cap s : len s + 1 < cap -> exists t, decode cap s = Some t /\ len t <= len s.
Proof.
  intros H. exists (shown s). split; [|apply shown_length]. unfold decode. if_false.
  by rewrite (decode_loop_spec _ _ _ _ _ (length s)) by (cbn; lia).
Qed.

(** ** Attributes *)

Fixpoint attr_list (fuel : nat) (s : bytes) : list attribute :=
  match fuel with
  | O => []
  | S f =>
      match s with
      | [] => []
      | _ => match next_attr s with (Some a, rest) => a :: attr_list f rest | (None, rest) => attr_list f rest end
      end
  end.
Definition attributes (s : bytes) : list attribute := attr_list (S (length s)) s.

(** The first attribute of a name. *)
Fixpoint first_attr (l : list attribute) (want : bytes) : option (bytes * bytes) :=
  match l with
  | [] => None
  | (name, v, r) :: l' => if eqn name want then Some (v, r) else first_attr l' want
  end.

Lemma past_length f s : len (past f s) <= len s.
Proof. unfold past. pose proof (run_length f s). lia. Qed.

Lemma tail_length (s : bytes) : len (tail s) <= len s.
Proof. destruct s; cbn; lia. Qed.

Lemma past_stop f s : match past f s with [] => True | c :: _ => f c = false end.
Proof. unfold past. destruct (snd (run f s)) eqn:E; [done|]. by apply run_stop in E. Qed.

(** A turn of the loop gets on, and a value is shorter than what it takes. *)
Lemma next_attr_shorter s a rest :
  s <> [] -> next_attr s = (a, rest) ->
  len rest < len s /\ match a with Some (_, v, _) => len v + len rest < len s | None => True end.
Proof.
  intros Hs. unfold next_attr.
  destruct (run _ (past sp s)) as [name s1] eqn:E1.
  pose proof (run_length (fun c => negb (sp c) && negb (c =? EQUALS) && negb (c =? 62)) (past sp s)) as L1.
  rewrite E1 in L1. cbn [fst snd] in L1. pose proof (past_length sp s) as L0. pose proof (past_length sp s1) as L2.
  set (s2 := past sp s1) in *. destruct (Z.eqb_spec (head0 s2) EQUALS) as [Eq|Eq]; cbn [negb].
  - destruct s2 as [|c s3]; [done|]. cbn [length tail] in *. pose proof (past_length sp s3) as L3. set (s4 := past sp s3) in *.
    case_if.
    + destruct (run (fun c => negb (c =? head0 s4)) (tail s4)) as [v r] eqn:E4.
      pose proof (run_length (fun c => negb (c =? head0 s4)) (tail s4)) as L4. rewrite E4 in L4. cbn [fst snd] in L4.
      pose proof (tail_length s4). pose proof (tail_length r). intros [= <- <-]. lia.
    + destruct (run (fun c => negb (sp c) && negb (c =? 62)) s4) as [v r] eqn:E4.
      pose proof (run_length (fun c => negb (sp c) && negb (c =? 62)) s4) as L4. rewrite E4 in L4. cbn [fst snd] in L4.
      intros [= <- <-]. lia.
  - intros [= <- <-]. split; [|done]. pose proof (past_length (fun c => negb (sp c)) s2) as L3.
    destruct s2 as [|c s3] eqn:E2; [destruct s; cbn in *; [done|lia]|].
    pose proof (past_stop sp s1) as Hc. fold s2 in Hc. rewrite E2 in Hc. cbn [past run snd]. unfold past. cbn [run]. rewrite Hc. cbn [negb].
    pose proof (run_length (fun c => negb (sp c)) s3) as L4. destruct (run (fun c => negb (sp c)) s3). cbn in *. lia.
Qed.

Lemma attr_loop_spec fuel s want :
  len s < Z.of_nat fuel -> attr_loop fuel s want = Some (first_attr (attr_list fuel s) want).
Proof.
  revert s. induction fuel as [|f IH]; intros s Hf; [lia|]. cbn [attr_loop attr_list]. destruct s as [|c s]; [done|].
  destruct (next_attr (c :: s)) as [[[[name v] r]|] rest] eqn:E;
    destruct (next_attr_shorter (c :: s) _ _ ltac:(done) E) as [Hl _]; cbn [first_attr].
  - case_if; [done|]. apply IH. lia.
  - apply IH. lia.
Qed.

Lemma attr_spec s want : attr s want = Some (first_attr (attributes s) want).
Proof. apply attr_loop_spec. lia. Qed.

(** ** How much the attributes hold *)

Definition values (l : list attribute) : Z := fold_right (fun '(_, v, _) n => len v + n) 0 l.
Definition held (l : list attribute) (want : bytes) : Z :=
  match first_attr l want with Some (v, _) => len v | None => 0 end.

Lemma attr_list_values fuel s : len s < Z.of_nat fuel -> values (attr_list fuel s) <= len s.
Proof.
  revert s. induction fuel as [|f IH]; intros s Hf; [cbn; lia|]. cbn [attr_list]. destruct s as [|c s]; [cbn; lia|].
  destruct (next_attr (c :: s)) as [[[[name v] r]|] rest] eqn:E;
    destruct (next_attr_shorter (c :: s) _ _ ltac:(done) E) as [Hl Hv]; specialize (IH rest); unfold values in *; cbn [fold_right]; lia.
Qed.

Lemma eqn_low s l : eqn s l = true <-> map low s = map low l.
Proof.
  revert l. induction s as [|x s IH]; intros [|y l]; cbn; try done.
  destruct (Z.eqb_spec (low x) (low y)) as [E|E].
  - rewrite IH, E. split; congruence.
  - split; [done|]. intros H. by injection H.
Qed.

(** Attributes of different names share nothing. *)
Lemma held_sum l wants :
  NoDup (map (map low) wants) -> fold_right (fun w n => held l w + n) 0 wants <= values l.
Proof.
  induction l as [|[[name v] r] l IH]; intros Hd.
  - cbn. induction wants as [|w wants IHw]; [done|]. cbn. inversion_clear Hd. by apply IHw.
  - specialize (IH Hd). cbn [values fold_right]. change (fold_right (fun '(_, v, _) n => len v + n) 0 l) with (values l).
    assert (H : fold_right (fun w n => held ((name, v, r) :: l) w + n) 0 wants <=
      (if existsb (eqn name) wants then len v else 0) + fold_right (fun w n => held l w + n) 0 wants).
    { clear IH. induction wants as [|w wants IHw]; [cbn; lia|]. inversion_clear Hd as [|? ? Hw Hd']. specialize (IHw Hd').
      cbn [fold_right existsb]. unfold held at 1. cbn [first_attr]. destruct (eqn name w) eqn:Ew; cbn [orb].
      - destruct (existsb (eqn name) wants) eqn:Ex.
        + exfalso. apply existsb_exists in Ex as (w' & Hin & Hw'). apply Hw. apply eqn_low in Ew, Hw'. rewrite <- Ew, Hw'.
          apply list_elem_of_In, in_map, Hin.
        + assert (0 <= held l w) by (unfold held; destruct (first_attr l w) as [[? ?]|]; lia). lia.
      - change (match first_attr l w with Some (v0, _) => len v0 | None => 0 end) with (held l w). lia. }
    etrans; [exact H|]. destruct (existsb (eqn name) wants); lia.
Qed.

(** ** Attributes written and read *)

Definition name_char (c : Z) : bool := negb (sp c) && negb (c =? EQUALS) && negb (c =? 62).
Definition plain_attr (a : bytes * bytes) : Prop :=
  fst a <> [] /\ Forall (fun c => name_char c = true) (fst a) /\ Forall (fun c => (c =? 39) = false) (snd a).

(** [ name='value'] *)
Definition print_attr (a : bytes * bytes) : bytes := SP :: fst a ++ [EQUALS; 39] ++ snd a ++ [39].
Definition print_attrs (l : list (bytes * bytes)) : bytes := concat (map print_attr l).

Lemma past_none f c s : f c = false -> past f (c :: s) = c :: s.
Proof. intros H. unfold past. cbn [run]. by rewrite H. Qed.

Lemma next_attr_print a s : plain_attr a -> next_attr (print_attr a ++ s) = (Some (fst a, snd a, 39 :: s), s).
Proof.
  intros (Hne & Hn & Hv). destruct a as [name v]. cbn [fst snd] in *. unfold next_attr, print_attr. cbn [fst snd app].
  assert (E0 : past sp (SP :: (name ++ [EQUALS; 39] ++ v ++ [39]) ++ s) = name ++ EQUALS :: 39 :: v ++ 39 :: s).
  { rewrite <- !app_assoc. cbn [app]. unfold past.
    change (SP :: name ++ ?x) with ([SP] ++ (name ++ x)). rewrite run_split; [done|by repeat constructor|].
    destruct name as [|c name]; [done|]. inversion_clear Hn as [|? ? Hc _]. unfold name_char in Hc. by bool_prop. }
  cbn [app] in E0. rewrite E0. rewrite (run_split _ name (EQUALS :: 39 :: v ++ 39 :: s)) by done.
  rewrite past_none by done. cbn [head0 tail]. change (negb (EQUALS =? EQUALS)) with false. cbv iota.
  rewrite past_none by done. cbn [head0]. change (is_quote 39) with true. cbv iota. cbn [tail].
  rewrite (run_split _ v (39 :: s)); [done| |done].
  refine (List.Forall_impl _ _ Hv). intros c ->. done.
Qed.

(** A tag written with single-quoted values is read back: each name is found,
    whatever its case, with the value of its first occurrence. *)
Theorem attr_roundtrip l want :
  Forall plain_attr l ->
  exists r, attr (print_attrs l) want = Some r /\
    fst <$> r = snd <$> List.find (fun a => eqn (fst a) want) l.
Proof.
  intros Hl. rewrite attr_spec. eexists. split; [reflexivity|]. unfold attributes.
  assert (H : forall fuel, len (print_attrs l) < Z.of_nat fuel ->
    fst <$> first_attr (attr_list fuel (print_attrs l)) want = snd <$> List.find (fun a => eqn (fst a) want) l); [|apply H; lia].
  induction Hl as [|a l Ha _ IH]; intros fuel Hf; [by destruct fuel|]. destruct fuel as [|f]; [lia|].
  unfold print_attrs in *. cbn [map concat] in *. cbn [attr_list].
  assert (En : next_attr (print_attr a ++ concat (map print_attr l)) = (Some (fst a, snd a, 39 :: concat (map print_attr l)), concat (map print_attr l)))
    by by apply next_attr_print.
  destruct (print_attr a ++ concat (map print_attr l)) as [|c s] eqn:Es; [done|]. rewrite En. cbn [first_attr List.find].
  destruct (eqn (fst a) want); [done|]. apply IH.
  assert (len (concat (map print_attr l)) < len (c :: s)); [|lia]. rewrite <- Es, length_app. unfold print_attr. cbn [length]. lia.
Qed.
