(* ===== verification/AsterTree.v ===== *)
(** * The tree of a document

    Nodes are numbered as they are met, parents before children: the links are those
    of a tree in preorder.  [add] keeps them so when it adds below a node of the
    path to the last one. *)

From S2P Require Import Prelude Cstr VelaText AsterDoc.

(** ** Links as functions of the node *)

Definition par (l : list AsterNode) (i : Z) : Z := match rd l i with Some x => parent x | None => -1 end.
Definition fc (l : list AsterNode) (i : Z) : Z := match rd l i with Some x => first_child x | None => -1 end.
Definition ns (l : list AsterNode) (i : Z) : Z := match rd l i with Some x => next_sibling x | None => -1 end.

(** The next node with the same parent, or -1. *)
Definition next_ok (p : Z -> Z) (n i s : Z) : Prop :=
  (s = -1 /\ forall j, i < j < n -> p j <> p i) \/
  (i < s < n /\ p s = p i /\ forall j, i < j < s -> p j <> p i).

(** Every node but the first has a parent before it; between a node and its parent
    lie descendants of the parent; the links lead to the first child, which is the
    next node, and to the next child of the same parent. *)
Record preorder (p f s : Z -> Z) (n : Z) : Prop := {
  p_root : p 0 = -1;
  p_before i : 0 < i < n -> 0 <= p i < i;
  p_between i j : 0 < i < n -> p i < j < i -> p i <= p j;
  p_first i : 0 <= i < n -> f i = if (i + 1 <? n) && (p (i + 1) =? i) then i + 1 else -1;
  p_next i : 0 <= i < n -> next_ok p n i (s i)
}.

(** All the nodes behind [q] are below it. *)
Definition open_at (p : Z -> Z) (n q : Z) : Prop := forall j, q < j < n -> q <= p j.

Lemma open_last p f s n q :
  preorder p f s n -> 0 <= q < n -> open_at p n q -> f q < 0 -> q = n - 1.
Proof.
  intros H Hq Ho Hf. rewrite (p_first _ _ _ _ H) in Hf by done.
  destruct (Z.ltb_spec (q + 1) n); [|lia]. cbn [andb] in Hf.
  pose proof (Ho (q + 1)). pose proof (p_before _ _ _ _ H (q + 1)).
  destruct (Z.eqb_spec (p (q + 1)) q); lia.
Qed.

(** A new node, the first child of the last one. *)
Lemma preorder_first p f s n p' f' s' :
  preorder p f s n -> 0 < n ->
  (forall i, p' i = if i =? n then n - 1 else p i) ->
  (forall i, f' i = if i =? n then -1 else if i =? n - 1 then n else f i) ->
  (forall i, s' i = if i =? n then -1 else s i) ->
  preorder p' f' s' (n + 1).
Proof.
  intros [H1 H2 H3 H4 H5] Hn Hp Hf Hs. split.
  - rewrite Hp. by if_false.
  - intros i Hi. rewrite Hp. destruct (Z.eqb_spec i n); [lia|]. apply H2. lia.
  - intros i j Hi. rewrite !Hp. destruct (Z.eqb_spec i n) as [->|]; [lia|]. intros Hj. if_false. by apply H3; lia.
  - intros i Hi. rewrite Hf, Hp. destruct (Z.eqb_spec i n) as [->|]; [by replace (n + 1 <? n + 1) with false by (symmetry; apply Z.ltb_ge; lia)|].
    replace (i + 1 <? n + 1) with true by (symmetry; apply Z.ltb_lt; lia). cbn [andb]. destruct (Z.eqb_spec (i + 1) n).
    + if_true. replace (n - 1 =? i) with true by (symmetry; apply Z.eqb_eq; lia). lia.
    + if_false. rewrite H4 by lia. replace (i + 1 <? n) with true by (symmetry; apply Z.ltb_lt; lia). done.
  - intros i Hi. rewrite Hs. destruct (Z.eqb_spec i n) as [->|].
    + left. split; [done|lia].
    + pose proof (H2 i) as H2i. destruct (H5 i) as [[E1 E2]|(E1 & E2 & E3)]; [lia| |].
      * left. split; [done|]. intros j Hj. rewrite !Hp. replace (i =? n) with false by (symmetry; apply Z.eqb_neq; lia).
        destruct (Z.eqb_spec j n); [|apply E2; lia]. destruct (Z.eqb_spec i 0) as [->|]; lia.
      * right. split; [lia|]. rewrite !Hp. do 2 if_false. split; [done|]. intros j Hj. rewrite !Hp.
        if_false. by apply E3.
Qed.

(** The last child of [q]. *)
Definition last_child (p : Z -> Z) (n q c : Z) : Prop := q < c < n /\ p c = q /\ forall j, c < j < n -> p j <> q.

(** A new node, the next child of [q], which is open and has children. *)
Lemma preorder_next p f s n p' f' s' q c :
  preorder p f s n -> 0 <= q < n -> open_at p n q -> last_child p n q c ->
  (forall i, p' i = if i =? n then q else p i) ->
  (forall i, f' i = if i =? n then -1 else f i) ->
  (forall i, s' i = if i =? n then -1 else if i =? c then n else s i) ->
  preorder p' f' s' (n + 1).
Proof.
  intros [H1 H2 H3 H4 H5] Hq Ho (Hc & Hpc & Hlast) Hp Hf Hs. split.
  - rewrite Hp. by if_false.
  - intros i Hi. rewrite Hp. destruct (Z.eqb_spec i n); [lia|]. apply H2. lia.
  - intros i j Hi. rewrite !Hp. destruct (Z.eqb_spec i n) as [->|]; intros Hj; if_false; [by apply Ho|by apply H3; lia].
  - intros i Hi. rewrite Hf, Hp.
    destruct (Z.eqb_spec i n) as [->|]; [by replace (n + 1 <? n + 1) with false by (symmetry; apply Z.ltb_ge; lia)|].
    rewrite H4 by lia. replace (i + 1 <? n + 1) with true by (symmetry; apply Z.ltb_lt; lia). cbn [andb].
    destruct (Z.eqb_spec (i + 1) n).
    + replace (i + 1 <? n) with false by (symmetry; apply Z.ltb_ge; lia). cbn [andb].
      destruct (Z.eqb_spec q i); [lia|done].
    + by replace (i + 1 <? n) with true by (symmetry; apply Z.ltb_lt; lia).
  - intros i Hi. rewrite Hs. destruct (Z.eqb_spec i n) as [->|]; [left; split; [done|lia]|].
    destruct (Z.eqb_spec i c) as [->|Hic].
    + right. split; [lia|]. rewrite !Hp. if_true. if_false. split; [done|]. intros j Hj. rewrite Hp. if_false.
      rewrite Hpc. apply Hlast. lia.
    + destruct (H5 i) as [[E1 E2]|(E1 & E2 & E3)]; [lia| |].
      * left. split; [done|]. intros j Hj. rewrite !Hp. replace (i =? n) with false by (symmetry; apply Z.eqb_neq; lia).
        destruct (Z.eqb_spec j n); [|apply E2; lia]. intros Hqi. subst j.
        destruct (Z.lt_trichotomy i c) as [Hl|[Hl|Hl]]; [|done|].
        -- apply (E2 c); [lia|congruence].
        -- apply (Hlast i); [lia|congruence].
      * right. split; [lia|]. rewrite !Hp. do 2 if_false. split; [done|]. intros j Hj. rewrite !Hp. if_false. by apply E3.
Qed.

(** ** The nodes of a document *)

Definition tree_ok (d : AsterDocument) : Prop :=
  length (nodes d) = 384%nat /\ 0 < node_count d <= 384 /\
  preorder (par (nodes d)) (fc (nodes d)) (ns (nodes d)) (node_count d).

(** A node, its links left out. *)
Definition content (x : AsterNode) : AsterNode := set_first_child 0 (set_next_sibling 0 x).

Lemma node_par l i x : rd l i = Some x -> par l i = parent x.
Proof. unfold par. by intros ->. Qed.
Lemma node_fc l i x : rd l i = Some x -> fc l i = first_child x.
Proof. unfold fc. by intros ->. Qed.
Lemma node_ns l i x : rd l i = Some x -> ns l i = next_sibling x.
Proof. unfold ns. by intros ->. Qed.

Lemma wr_par l i x l' : wr l i x = Some l' -> forall j, par l' j = if j =? i then parent x else par l j.
Proof.
  intros H j. unfold par. destruct (Z.eqb_spec j i) as [->|Hj]; [by rewrite (rd_wr_eq _ _ _ _ H)|].
  by rewrite (rd_wr_ne _ _ _ _ _ H) by congruence.
Qed.
Lemma wr_fc l i x l' : wr l i x = Some l' -> forall j, fc l' j = if j =? i then first_child x else fc l j.
Proof.
  intros H j. unfold fc. destruct (Z.eqb_spec j i) as [->|Hj]; [by rewrite (rd_wr_eq _ _ _ _ H)|].
  by rewrite (rd_wr_ne _ _ _ _ _ H) by congruence.
Qed.
Lemma wr_ns l i x l' : wr l i x = Some l' -> forall j, ns l' j = if j =? i then next_sibling x else ns l j.
Proof.
  intros H j. unfold ns. destruct (Z.eqb_spec j i) as [->|Hj]; [by rewrite (rd_wr_eq _ _ _ _ H)|].
  by rewrite (rd_wr_ne _ _ _ _ _ H) by congruence.
Qed.

(** The sibling chain from a child of [q] ends at its last child. *)
Lemma last_sibling_spec p f s n l q fuel c :
  preorder p f s n -> (forall i, 0 <= i < n -> exists x, rd l i = Some x /\ next_sibling x = s i) ->
  0 <= q -> q < c < n -> p c = q -> n - c <= Z.of_nat fuel ->
  exists c', last_sibling fuel l c = Some c' /\ last_child p n q c'.
Proof.
  intros H Hl Hq. revert c. induction fuel as [|k IH]; intros c Hc Hp Hf; [lia|]. cbn [last_sibling].
  destruct (Hl c) as (x & -> & Hx); [lia|]. cbn [mbind option_bind]. rewrite Hx.
  destruct (p_next _ _ _ _ H c) as [[E1 E2]|(E1 & E2 & E3)]; [lia| |].
  - rewrite E1. exists c. split; [done|]. split; [done|]. split; [done|]. intros j Hj. rewrite <- Hp. by apply E2.
  - if_true. apply IH; [lia|congruence|lia].
Qed.

Definition fresh (p type tag : Z) (r : range) : AsterNode :=
  mk_node type tag p (-1) (-1) r no_range no_range no_range no_range 0 0 0 0 0.

(** What [add] leaves of the nodes that were there. *)
Definition same_content (n : Z) (l l' : list AsterNode) : Prop :=
  forall j, 0 <= j < n -> content <$> rd l' j = content <$> rd l j.

Lemma wr_content n l i x y l' : rd l i = Some x -> content y = content x -> wr l i y = Some l' -> same_content n l l'.
Proof.
  intros Hx Hy Hw j Hj. destruct (Z.eqb_spec j i) as [->|Hne].
  - rewrite (rd_wr_eq _ _ _ _ Hw), Hx. cbn. by rewrite Hy.
  - by rewrite (rd_wr_ne _ _ _ _ _ Hw) by congruence.
Qed.

(** The new node and one link to it. *)
Lemma relink (l : list AsterNode) n q ty tg r k y l1 x :
  0 <= n < len l -> 0 <= k < n -> wr l n (fresh q ty tg r) = Some l1 -> rd l1 k = Some x ->
  content y = content x -> parent y = parent x ->
  exists l2, wr l1 k y = Some l2 /\ length l2 = length l /\ rd l2 n = Some (fresh q ty tg r) /\ same_content n l l2 /\
    (forall j, par l2 j = if j =? n then q else par l j) /\
    (forall j, fc l2 j = if j =? n then -1 else if j =? k then first_child y else fc l j) /\
    (forall j, ns l2 j = if j =? n then -1 else if j =? k then next_sibling y else ns l j).
Proof.
  intros Hn Hk E1 Hx Hc Hp. pose proof (wr_length _ _ _ _ E1) as L1.
  destruct (wr l1 k y) as [l2|] eqn:E2; [|by rewrite wr_Some in E2 by lia].
  pose proof (rd_wr_ne _ _ k _ _ E1 ltac:(lia)) as Hk1. rewrite Hx in Hk1.
  assert (Hnk : (k =? n) = false) by (apply Z.eqb_neq; lia).
  exists l2. split; [done|]. split; [rewrite (wr_length _ _ _ _ E2); lia|].
  split; [rewrite (rd_wr_ne _ _ _ _ _ E2) by lia; by apply (rd_wr_eq _ _ _ _ E1)|]. split; [|split; [|split]].
  - intros j Hj. rewrite (wr_content n l1 k x y l2 Hx Hc E2 j Hj). by rewrite (rd_wr_ne _ _ _ _ _ E1) by lia.
  - intros j. rewrite (wr_par _ _ _ _ E2), (wr_par _ _ _ _ E1). destruct (Z.eqb_spec j k) as [->|]; [|done].
    by rewrite Hnk, Hp, (node_par _ _ _ (eq_sym Hk1)).
  - intros j. rewrite (wr_fc _ _ _ _ E2), (wr_fc _ _ _ _ E1). destruct (Z.eqb_spec j k) as [->|]; [|done]. by rewrite Hnk.
  - intros j. rewrite (wr_ns _ _ _ _ E2), (wr_ns _ _ _ _ E1). destruct (Z.eqb_spec j k) as [->|]; [|done]. by rewrite Hnk.
Qed.

Lemma add_spec d q ty tg r :
  tree_ok d -> 0 <= q < node_count d -> open_at (par (nodes d)) (node_count d) q -> node_count d < 384 ->
  exists l, add d q ty tg r = Some (node_count d, set_nodes l (node_count d + 1) d) /\
    tree_ok (set_nodes l (node_count d + 1) d) /\
    (forall j, par l j = if j =? node_count d then q else par (nodes d) j) /\
    rd l (node_count d) = Some (fresh q ty tg r) /\ same_content (node_count d) (nodes d) l.
Proof.
  intros (Hlen & Hn & Ht) Hq Ho Hfull. unfold add, ASTER_MAX_NODES. if_false. set (n := node_count d) in *.
  fold (fresh q ty tg r). destruct (wr (nodes d) n (fresh q ty tg r)) as [l1|] eqn:E1; [|by rewrite wr_Some in E1 by lia].
  pose proof (wr_length _ _ _ _ E1) as L1. cbn [mbind option_bind]. if_true.
  pose proof (wr_fc _ _ _ _ E1) as F1. pose proof (wr_ns _ _ _ _ E1) as S1.
  destruct (rd_is_Some l1 q) as [x Hx]; [lia|]. rewrite Hx. cbn [mbind option_bind].
  pose proof (F1 q) as Fq. rewrite (node_fc _ _ _ Hx) in Fq. replace (q =? n) with false in Fq by (symmetry; apply Z.eqb_neq; lia).
  case_if.
  - assert (Eq : q = n - 1) by (apply (open_last _ _ _ n q Ht); (done || lia)).
    destruct (relink (nodes d) n q ty tg r q (set_first_child n x) l1 x) as (l2 & -> & L2 & H1 & H2 & P & F & S); try (done || lia).
    exists l2. split; [done|]. split; [|done]. split; [cbn; lia|]. split; [cbn; lia|].
    apply (preorder_first _ _ _ n _ _ _ Ht); [lia|by intros i; rewrite P, Eq|by intros i; rewrite F, Eq|].
    intros i. rewrite S. destruct (Z.eqb_spec i q) as [->|]; [|done]. cbn [next_sibling set_first_child].
    by rewrite <- (node_ns _ _ _ Hx), S1; destruct (q =? n).
  - assert (Hfq : 0 <= fc (nodes d) q) by lia. pose proof (p_first _ _ _ _ Ht q Hq) as Ef.
    destruct ((q + 1 <? n) && (par (nodes d) (q + 1) =? q)) eqn:Eb; [bool_prop|lia].
    destruct (last_sibling_spec _ _ _ n l1 q 384 (q + 1) Ht) as (c & Ec & Hc); [|lia..|].
    { intros i Hi. destruct (rd_is_Some l1 i) as [y Hy]; [lia|]. exists y. split; [done|].
      rewrite <- (node_ns _ _ _ Hy), S1. by if_false. }
    rewrite Fq, Ef. change (Z.to_nat 384) with 384%nat. rewrite Ec. cbn [mbind option_bind].
    pose proof Hc as (Hc1 & Hc2 & _). destruct (rd_is_Some l1 c) as [y Hy]; [lia|]. rewrite Hy. cbn [mbind option_bind].
    destruct (relink (nodes d) n q ty tg r c (set_next_sibling n y) l1 y) as (l2 & -> & L2 & H1 & H2 & P & F & S); try (done || lia).
    exists l2. split; [done|]. split; [|done]. split; [cbn; lia|]. split; [cbn; lia|].
    apply (preorder_next _ _ _ n _ _ _ q c Ht); [lia|done|done|exact P| |exact S].
    intros i. rewrite F. destruct (Z.eqb_spec i c) as [->|]; [|done]. cbn [first_child set_next_sibling].
    by rewrite <- (node_fc _ _ _ Hy), F1; destruct (c =? n).
Qed.
