(* ===== verification/AsterParse.v ===== *)
(** * The HTML parser of Aster (kernel/aster.c, lines 43-44) *)

From S2P Require Import Prelude Cstr VelaText AsterDoc AsterCss.

(** [closep]: up to the closing tag [e], or to the end. *)
Fixpoint closep (p e : bytes) : bytes * bytes :=
  match p with
  | [] => ([], [])
  | c :: p' => if ci p e then ([], p) else let '(a, b) := closep p' e in (c :: a, b)
  end.

(** [while( *p&& *p!='>')p++;if( *p)p++;] *)
Definition skip_tag (p : bytes) : bytes := tail (until 62 p).

(** [while( *p&&!(p[0]=='-'&&p[1]=='-'&&p[2]=='>'))p++;if( *p)p+=3;] *)
Fixpoint skip_comment (p : bytes) : bytes :=
  match p with
  | [] => []
  | c :: p' =>
      if (c =? 45) && (head0 p' =? 45) && (head0 (tail p') =? 62) then drop 3 p else skip_comment p'
  end.

(** The local variables: the stack [st] of open elements, its height, the cursor. *)
Record parser := mk_parser { doc : AsterDocument; st : list Z; spn : Z; cur : bytes }.

(** [d->nodes[st[spn-1]]] *)
Definition top (s : parser) : option Z := rd (st s) (spn s - 1).

(** A run of text: a text node, and the title when it is the first of a title
    element. *)
Definition text_run (s : parser) : option parser :=
  let '(t, p) := run (fun c => negb (c =? 60)) (cur s) in
  t ← decode 768 t;
  match t with
  | [] => Some (mk_parser (doc s) (st s) (spn s) p)
  | _ =>
      '(r, d) ← stored (doc s) t;
      b ← top s;
      '(i, d) ← add d b ASTER_NODE_TEXT ASTER_TAG_UNKNOWN r;
      n ← rd (nodes d) b;
      let d := if (0 <=? i) && (tag n =? ASTER_TAG_TITLE) && (len (title d) =? 0) then set_title (cp 96 t) d else d in
      Some (mk_parser d (st s) (spn s) p)
  end.

(** [for(int i=spn-1;i>0;i--)if(d->nodes[st[i]].tag==t){spn=i;break;}] *)
Fixpoint close_loop (i : nat) (d : AsterDocument) (st : list Z) (spn t : Z) : option Z :=
  match i with
  | O => Some spn
  | S i' =>
      x ← rd st (Z.of_nat i);
      n ← rd (nodes d) x;
      if tag n =? t then Some (Z.of_nat i) else close_loop i' d st spn t
  end.

(** The name of a tag, blanks before it left out. *)
Definition tag_name (p : bytes) : bytes * bytes :=
  run (fun c => negb (sp c) && negb (c =? 62) && negb (c =? SLASH)) (past sp p).

Definition close_tag (s : parser) (p : bytes) : option parser :=
  let '(n, p) := tag_name p in
  spn' ← close_loop (Z.to_nat (spn s - 1)) (doc s) (st s) (spn s) (tagid n);
  Some (mk_parser (doc s) (st s) spn' (skip_tag p)).

(** [inl]: [break]. *)
Definition open_tag (s : parser) (p : bytes) : option (parser + parser) :=
  let '(n, p) := tag_name p in
  let t := tagid n in
  let '(a, p) := run (fun c => negb (c =? 62)) p in
  let trimmed := trim_end a in
  let self := head0 (rev trimmed) =? SLASH in
  let after := p in
  let p := tail p in
  b ← top s;
  '(idx, d) ← add (doc s) b ASTER_NODE_ELEMENT t no_range;
  if idx <? 0 then Some (inl (mk_parser d (st s) (spn s) p))
  else
    n ← rd (nodes d) idx;
    '(n, d) ← attrs d n a after;
    l ← wr (nodes d) idx n;
    let d := set_nodes l (node_count d) d in
    if t =? ASTER_TAG_STYLE then
      let '(body, e) := closep p (chars "</style") in
      d ← css_rules d body e;
      Some (inr (mk_parser d (st s) (spn s) (skip_tag e)))
    else if t =? ASTER_TAG_SCRIPT then
      let '(_, e) := closep p (chars "</script") in
      Some (inr (mk_parser d (st s) (spn s) (skip_tag e)))
    else if negb self && negb (voidtag t) && (spn s <? 48) then
      st' ← wr (st s) (spn s) idx;
      Some (inr (mk_parser d st' (spn s + 1) p))
    else Some (inr (mk_parser d (st s) (spn s) p)).

(** One turn of the loop of [aster_parse_html]. *)
Definition turn (s : parser) : option (parser + parser) :=
  match cur s with
  | [] => Some (inl s)
  | c :: p =>
      if negb (c =? 60) then s ← text_run s; Some (inr s)
      else if ci (cur s) (chars "<!--") then
        Some (inr (mk_parser (doc s) (st s) (spn s) (skip_comment (drop 4 (cur s)))))
      else if (head0 p =? 33) || (head0 p =? QUESTION) then
        Some (inr (mk_parser (doc s) (st s) (spn s) (skip_tag (cur s))))
      else if head0 p =? SLASH then s ← close_tag s (tail p); Some (inr s)
      else open_tag s p
  end.

Fixpoint parse_loop (fuel : nat) (s : parser) : option AsterDocument :=
  match fuel with
  | O => None
  | S f =>
      if ASTER_MAX_NODES <=? node_count (doc s) then Some (doc s)
      else
        r ← turn s;
        match r with
        | inl s => Some (doc s)
        | inr s => parse_loop f s
        end
  end.

(** The document, and whether it has more than its root.  [stack] is what the array
    of open elements held before. *)
Definition aster_parse_html (stack : list Z) (d : AsterDocument) (h : bytes) : option (Z * AsterDocument) :=
  d ← aster_document_init d;
  st ← wr stack 0 0;
  d ← parse_loop (S (length h)) (mk_parser d st 1 h);
  let d := if len (title d) =? 0 then set_title (cp 96 (chars "Untitled page")) d else d in
  Some (if 1 <? node_count d then 1 else 0, d).
