(* ===== verification/AsterSafe.v ===== *)
(** * The parser of Aster stays inside the document

    As long as the text of a page fits the array, every range kept in a node or a
    rule lies in it; the budget is the text used and the characters still to be read. *)

From S2P Require Import Prelude Cstr VelaText AsterDoc AsterCss AsterText AsterTree AsterParse.

(** ** Ranges *)

Definition range_ok (u : Z) (r : range) : Prop := 0 <= off r /\ 0 <= rlen r /\ off r + rlen r <= u.

Definition text_ok (d : AsterDocument) : Prop := length (text d) = Z.to_nat 24576 /\ 0 <= text_used d <= 24575.

Record content_ok (u : Z) (x : AsterNode) : Prop := {
  c_text : range_ok u (n_text x); c_href : range_ok u (n_href x); c_src : range_ok u (n_src x);
  c_id : range_ok u (n_id x); c_class : range_ok u (n_class x);
  c_size : 0 <= width_hint x < 65536 /\ 0 <= height_hint x < 65536
}.

Lemma range_mono u u' r : u <= u' -> range_ok u r -> range_ok u' r.
Proof. unfold range_ok. lia. Qed.

Lemma content_mono u u' x : u <= u' -> content_ok u x -> content_ok u' x.
Proof. intros Hu []. split; first [by apply (range_mono u)|done]. Qed.

Lemma no_range_ok u : 0 <= u -> range_ok u no_range.
Proof. unfold range_ok. cbn. lia. Qed.

(** The document with more text. *)
Definition grown (n : Z) (d d' : AsterDocument) : Prop :=
  exists t, d' = set_text t (text_used d + n) d /\ text_ok d'.

Lemma grown_trans m n d1 d2 d3 : grown m d1 d2 -> grown n d2 d3 -> grown (m + n) d1 d3.
Proof. intros (t & -> & H1) (t' & -> & H2). exists t'. cbn in *. by rewrite Z.add_assoc. Qed.

Lemma grown_0 d : text_ok d -> grown 0 d d.
Proof. intros H. exists (text d). rewrite Z.add_0_r. split; [by destruct d|done]. Qed.

Lemma grown_text n d d' : grown n d d' -> text_ok d' /\ text_used d' = text_used d + n.
Proof. intros (t & -> & H). done. Qed.

Lemma stored_spec d s :
  text_ok d -> text_used d + len s <= 24575 ->
  exists r d', stored d s = Some (r, d') /\ grown (len s) d d' /\ range_ok (text_used d') r /\ rlen r = len s /\
    slice (text d') (off r) (rlen r) = s.
Proof.
  intros [Hl Hu] Hs. unfold stored, store, ASTER_TEXT_CAP. destruct (Z.eqb_spec (len s) 0) as [E|E]; cbn [orb].
  { destruct s; [|done]. cbn [mbind option_bind]. eexists _, d. split; [reflexivity|]. split; [by apply grown_0|].
    change (u16 (len [])) with 0. split; [unfold range_ok; cbn; lia|done]. }
  replace (24576 - 1 <=? text_used d) with false by (symmetry; apply Z.leb_gt; lia). if_false.
  rewrite copy_from_spec by lia. rewrite Z2Nat.id, slice_all by lia. cbn [mbind option_bind].
  assert (Hb : length (blit (text d) (text_used d) s) = length (text d)) by (apply blit_length; lia).
  rewrite wr_Some by lia. cbn [mbind option_bind]. eexists _, _. split; [reflexivity|].
  rewrite blit_push by lia. split; [|split; [|split]]; cbn [rlen off text text_used set_text].
  - eexists. split; [reflexivity|]. split; cbn [text text_used set_text]; [|lia].
    rewrite blit_length; [done|lia|]. rewrite length_app. cbn [length]. lia.
  - unfold range_ok. cbn [rlen off]. rewrite u16_id by lia. lia.
  - by rewrite u16_id by lia.
  - rewrite u16_id by lia. unfold slice, blit. rewrite drop_app_ge by (rewrite length_take; lia).
    rewrite length_take. replace (Z.to_nat (text_used d) - _)%nat with 0%nat by lia. rewrite drop_0, <- app_assoc.
    rewrite Nat2Z.id. by rewrite take_app_length.
Qed.

(** ** Attributes *)

Lemma string_attr_spec d s w :
  text_ok d -> text_used d + held (attributes s) w <= 24575 ->
  exists r d', string_attr d s w = Some (r, d') /\ grown (held (attributes s) w) d d' /\
    match r with Some r => range_ok (text_used d') r | None => True end.
Proof.
  intros Ht Hs. unfold string_attr, held in *. rewrite attr_spec. cbn [mbind option_bind].
  destruct (first_attr (attributes s) w) as [[[|c v] r]|]; [exists None, d; split; [done|]; split; [by apply grown_0|done]| |].
  - destruct (stored_spec d (c :: v) Ht Hs) as (r' & d' & -> & H1 & H2 & _). by exists (Some r'), d'.
  - exists None, d. split; [done|]. split; [by apply grown_0|done].
Qed.

Lemma styletext_loop_some fuel s after st : len s < Z.of_nat fuel -> is_Some (styletext_loop fuel s after st).
Proof.
  revert s st. induction fuel as [|f IH]; intros s st Hf; [lia|]. cbn [styletext_loop]. destruct s as [|c s]; [by eexists|].
  set (f1 := fun c => sp c || (c =? SEMICOLON)). set (f2 := fun c => negb (c =? COLON) && negb (c =? SEMICOLON)).
  set (f3 := fun c => negb (c =? SEMICOLON)).
  assert (Hp : len (past f1 (c :: s)) < len (c :: s) \/ past f1 (c :: s) = c :: s).
  { destruct (f1 c) eqn:E; [left|right; by apply past_none]. unfold past. cbn [run]. rewrite E.
    pose proof (run_length f1 s). destruct (run f1 s). cbn in *. lia. }
  destruct (run f2 (past f1 (c :: s))) as [n r] eqn:E2. pose proof (run_length f2 (past f1 (c :: s))) as L2. rewrite E2 in L2.
  cbn [fst snd] in L2. case_if.
  - apply IH. pose proof (past_length f3 r) as L3.
    assert (Hr : len (past f3 r) < len (c :: s)); [|lia]. destruct Hp as [Hp|Hp]; [lia|]. rewrite Hp in *.
    destruct n as [|y n]; [|cbn [length] in *; lia]. cbn [length Z.of_nat Z.add] in L2.
    pose proof (run_stop f2 (c :: s) c s) as Hstop. rewrite E2 in Hstop. cbn [snd] in Hstop.
    pose proof (run_app f2 (c :: s)) as Happ. rewrite E2 in Happ. cbn in Happ. subst r. specialize (Hstop eq_refl).
    unfold f2 in Hstop. cbn [head0] in E. destruct (Z.eqb_spec c COLON); [done|]. cbn [negb andb] in Hstop. bool_prop. subst c.
    assert (Hf1 : past f1 (SEMICOLON :: s) <> SEMICOLON :: s).
    { intros H. pose proof (past_stop f1 (SEMICOLON :: s)) as Hs. rewrite H in Hs. done. }
    done.
  - destruct (run f3 (tail r)) as [v r'] eqn:E3. pose proof (run_length f3 (tail r)) as L3. rewrite E3 in L3. cbn [fst snd] in L3.
    apply IH. destruct r as [|y r]; [done|]. cbn [tail length] in *. destruct Hp as [Hp|Hp]; [lia|]. rewrite Hp in L2. cbn [length] in *. lia.
Qed.

Lemma styletext_some s after : is_Some (styletext s after).
Proof. apply styletext_loop_some. lia. Qed.

(** An alt text that is not too long for the array it is decoded in. *)
Definition alt_fits (s : bytes) : Prop :=
  forall v r, first_attr (attributes s) (chars "alt") = Some (v, r) -> len v <= 190.

(** A node with other ranges, hints and style: its place in the tree is the same. *)
Definition same_place (x y : AsterNode) : Prop :=
  tag y = tag x /\ parent y = parent x /\ first_child y = first_child x /\ next_sibling y = next_sibling x.

Lemma put_ok u r set x :
  match r with Some r => range_ok u r | None => True end ->
  (forall r, range_ok u r -> content_ok u x -> content_ok u (set r x)) ->
  (forall r, same_place x (set r x)) ->
  content_ok u x -> content_ok u (put set r x) /\ same_place x (put set r x).
Proof. destruct r as [r|]; cbn; intros Hr Hs Hp Hx; [split; [by apply Hs|apply Hp]|]. by split. Qed.

Lemma same_place_trans x y z : same_place x y -> same_place y z -> same_place x z.
Proof. unfold same_place. intuition congruence. Qed.

(** A string attribute and the field that keeps it. *)
Lemma put_attr d s w set x n :
  text_ok d -> content_ok (text_used d) x -> text_used d + held (attributes s) w <= n -> n <= 24575 ->
  (forall u r, range_ok u r -> content_ok u x -> content_ok u (set r x)) -> (forall r, same_place x (set r x)) ->
  exists r d', string_attr d s w = Some (r, d') /\ grown (held (attributes s) w) d d' /\ text_ok d' /\
    text_used d' = text_used d + held (attributes s) w /\
    content_ok (text_used d') (put set r x) /\ same_place x (put set r x).
Proof.
  intros Ht Hx Hs Hn Hset Hp. destruct (string_attr_spec d s w Ht) as (r & d' & E & G & R); [lia|].
  pose proof (grown_text _ _ _ G) as [T U]. exists r, d'. split; [done|]. split; [done|]. split; [done|]. split; [done|].
  apply put_ok; [done|by intros; apply Hset|done|]. apply (content_mono (text_used d)); [|done].
  rewrite U. unfold held. destruct (first_attr _ _) as [[? ?]|]; lia.
Qed.

Ltac field := solve [intros ? ? ? []; by split | by intros].

(** The alt text. *)
Lemma alt_spec d s x :
  text_ok d -> content_ok (text_used d) x -> text_used d + held (attributes s) (chars "alt") <= 24575 -> alt_fits s ->
  exists x' d' n, (a ← attr s (chars "alt");
    match a with
    | Some (c :: v, _) => t ← decode 192 (c :: v); '(r, d) ← stored d t; Some (set_n_text r x, d)
    | _ => Some (x, d)
    end) = Some (x', d') /\ grown n d d' /\ 0 <= n <= held (attributes s) (chars "alt") /\
    content_ok (text_used d') x' /\ same_place x x'.
Proof.
  intros Ht Hx Hs Ha. rewrite attr_spec. cbn [mbind option_bind]. unfold held, alt_fits in *.
  destruct (first_attr (attributes s) (chars "alt")) as [[[|c v] r]|]; [exists x, d, 0; split; [done|]; split; [by apply grown_0|]; split; [lia|done]| |].
  - specialize (Ha _ _ eq_refl). destruct (decode_ok 192 (c :: v)) as (t & -> & Hl); [lia|]. cbn [mbind option_bind].
    destruct (stored_spec d t Ht) as (r' & d' & -> & G & R & _); [lia|]. cbn [mbind option_bind].
    pose proof (grown_text _ _ _ G) as [T U]. exists (set_n_text r' x), d', (len t). split; [done|]. split; [done|]. split; [lia|].
    split; [|done]. apply (content_mono _ (text_used d')) in Hx; [|lia]. destruct Hx. by split.
  - exists x, d, 0. split; [done|]. split; [by apply grown_0|]. split; [lia|done].
Qed.

Lemma option_bind_assoc {A B C} (o : option A) (f : A -> option B) (g : B -> option C) :
  (o ≫= f) ≫= g = o ≫= (fun a => f a ≫= g).
Proof. by destruct o. Qed.

Lemma sized u w h x :
  0 <= w < 65536 -> 0 <= h < 65536 -> content_ok u x -> content_ok u (set_hints w h x).
Proof. intros Hw Hh []. by split. Qed.

Lemma attrs_spec d x s after :
  text_ok d -> content_ok (text_used d) x -> text_used d + len s <= 24575 -> alt_fits s ->
  exists x' d' n, attrs d x s after = Some (x', d') /\ grown n d d' /\ 0 <= n <= len s /\ content_ok (text_used d') x' /\ same_place x x'.
Proof.
  intros Ht Hx Hs Halt. unfold attrs.
  pose proof (held_sum (attributes s) [chars "href"; chars "src"; chars "id"; chars "class"; chars "alt"]) as Hsum.
  specialize (Hsum ltac:(by apply (bool_decide_unpack _); vm_compute)). cbn [fold_right] in Hsum.
  pose proof (attr_list_values (S (length s)) s ltac:(lia)) as Hv. change (attr_list (S (length s)) s) with (attributes s) in Hv.
  assert (Hh : forall w, 0 <= held (attributes s) w) by (intros w; unfold held; destruct (first_attr _ _) as [[? ?]|]; lia).
  pose proof (Hh (chars "href")). pose proof (Hh (chars "src")). pose proof (Hh (chars "id")).
  pose proof (Hh (chars "class")). pose proof (Hh (chars "alt")).
  destruct (put_attr d s (chars "href") set_n_href x 24575) as (r1 & d1 & -> & G1 & T1 & U1 & X1 & P1); try (done || lia || field).
  cbn [mbind option_bind]. set (x1 := put set_n_href r1 x) in *.
  destruct (put_attr d1 s (chars "src") set_n_src x1 24575) as (r2 & d2 & -> & G2 & T2 & U2 & X2 & P2); try (done || lia || field).
  cbn [mbind option_bind]. set (x2 := put set_n_src r2 x1) in *.
  destruct (put_attr d2 s (chars "id") set_n_id x2 24575) as (r3 & d3 & -> & G3 & T3 & U3 & X3 & P3); try (done || lia || field).
  cbn [mbind option_bind]. set (x3 := put set_n_id r3 x2) in *.
  destruct (put_attr d3 s (chars "class") set_n_class x3 24575) as (r4 & d4 & -> & G4 & T4 & U4 & X4 & P4); try (done || lia || field).
  cbn [mbind option_bind]. set (x4 := put set_n_class r4 x3) in *.
  destruct (alt_spec d4 s x4 T4 X4) as (x5 & d5 & n & E5 & G5 & N5 & X5 & P5); [lia|done|].
  rewrite <- option_bind_assoc, E5. cbn [mbind option_bind]. rewrite !attr_spec. cbn [mbind option_bind].
  assert (P : same_place x x5) by (do 3 (eapply same_place_trans; [|eassumption]); by eapply same_place_trans).
  pose proof (grown_trans _ _ _ _ _ (grown_trans _ _ _ _ _ (grown_trans _ _ _ _ _ (grown_trans _ _ _ _ _ G1 G2) G3) G4) G5) as G.
  set (x6 := match first_attr (attributes s) (chars "width") with Some _ => _ | None => _ end).
  assert (H6 : content_ok (text_used d5) x6 /\ same_place x5 x6).
  { unfold x6. destruct (first_attr _ (chars "width")) as [[v r]|]; [|by split]. by split; [apply sized; [apply u16_range|apply X5|]|]. }
  set (x7 := match first_attr (attributes s) (chars "height") with Some _ => _ | None => _ end).
  assert (H7 : content_ok (text_used d5) x7 /\ same_place x5 x7).
  { unfold x7. destruct H6 as [H61 H62]. destruct (first_attr _ (chars "height")) as [[v r]|]; [|by split]. by split; [apply sized; [apply H61|apply u16_range|]|]. }
  destruct H7 as [X7 P7]. clearbody x7. assert (Pall : same_place x x7) by by eapply same_place_trans.
  destruct (first_attr (attributes s) (chars "style")) as [[v r]|].
  - destruct (styletext_some v (r ++ after)) as [st ->]. cbn [mbind option_bind]. eexists _, d5, _. split; [reflexivity|].
    split; [exact G|]. split; [lia|]. destruct X7. by split.
  - eexists _, d5, _. split; [reflexivity|]. split; [exact G|]. split; [lia|done].
Qed.

(** ** Rules *)

Definition css_ok (d : AsterDocument) : Prop :=
  length (css d) = 32%nat /\ 0 <= css_count d <= 32 /\
  forall i r, 0 <= i < css_count d -> rd (css d) i = Some r -> range_ok (text_used d) (r_selector r).

(** The document with more text and more rules. *)
Definition styled (n : Z) (d d' : AsterDocument) : Prop :=
  (exists t l c, d' = set_css l c (set_text t (text_used d + n) d)) /\ text_ok d' /\ css_ok d' /\ 0 <= n.

Lemma styled_trans m n d1 d2 d3 : styled m d1 d2 -> styled n d2 d3 -> styled (m + n) d1 d3.
Proof.
  intros ((t & l & c & ->) & H1 & H2 & H3) ((t' & l' & c' & ->) & H4 & H5 & H6).
  split; [|split; [done|split; [done|lia]]]. exists t', l', c'. cbn. by rewrite Z.add_assoc.
Qed.

Lemma styled_0 d : text_ok d -> css_ok d -> styled 0 d d.
Proof.
  intros H1 H2. split; [|split; [done|split; [done|lia]]]. exists (text d), (css d), (css_count d). rewrite Z.add_0_r. by destruct d.
Qed.

Lemma styled_used n d d' : styled n d d' -> text_used d' = text_used d + n.
Proof. by intros ((t & l & c & ->) & _). Qed.

Lemma rev_length_le (s : bytes) : len (rev s) = len s.
Proof. by rewrite length_rev. Qed.

Lemma trim_length s : len (trim s) <= len s.
Proof.
  unfold trim, trim_end. rewrite rev_length_le. pose proof (past_length sp (rev (past sp s))). rewrite rev_length_le in H.
  pose proof (past_length sp s). lia.
Qed.

Lemma selector_spec d s st :
  text_ok d -> text_used d + len s <= 24575 ->
  exists r d' n, selector d s st = Some (r, d') /\ grown n d d' /\ 0 <= n <= len s /\
    match r with Some r => range_ok (text_used d') (r_selector r) | None => True end.
Proof.
  intros Ht Hs. unfold selector. pose proof (trim_length s) as Hl. set (u := trim s) in *. clearbody u.
  assert (H0 : grown 0 d d) by by apply grown_0. assert (Hr : range_ok (text_used d) no_range) by (apply no_range_ok, Ht).
  assert (Hst : forall v (F : range -> option AsterCssRule), len v <= len u ->
    (forall r, match F r with Some x => r_selector x = r | None => True end) ->
    exists r d' n, ('(r, d) ← stored d v; Some (F r, d)) = Some (r, d') /\ grown n d d' /\ 0 <= n <= len s /\
      match r with Some r => range_ok (text_used d') (r_selector r) | None => True end).
  { intros v F Hv HF. destruct (stored_spec d v Ht) as (r & d' & -> & G & R & _); [lia|]. cbn [mbind option_bind].
    exists (F r), d', (len v). split; [done|]. split; [done|]. split; [lia|]. specialize (HF r). destruct (F r); [by rewrite HF|done]. }
  case_if; [exists None, d, 0; split; [done|]; split; [done|]; split; [lia|done]|].
  case_if; [exists None, d, 0; split; [done|]; split; [done|]; split; [lia|done]|].
  case_if; [eexists _, d, 0; split; [done|]; split; [done|]; split; [lia|done]|].
  destruct (run _ u) as [name rest] eqn:Er.
  pose proof (run_length (fun c => negb (c =? DOT) && negb (c =? HASH)) u) as Lr. rewrite Er in Lr. cbn [fst snd] in Lr.
  pose proof (tail_length rest). pose proof (tail_length u).
  destruct name as [|c name].
  - case_if; [exists None, d, 0; split; [done|]; split; [done|]; split; [lia|done]|].
    apply (Hst (tail u) (fun r => if rlen r =? 0 then None else Some _)); [lia|]. intros r. by case_if.
  - case_if; [exists None, d, 0; split; [done|]; split; [done|]; split; [lia|done]|].
    case_if; [eexists _, d, 0; split; [done|]; split; [done|]; split; [lia|done]|].
    case_if; [exists None, d, 0; split; [done|]; split; [done|]; split; [lia|done]|].
    apply (Hst (tail rest) (fun r => if rlen r =? 0 then None else Some _)); [lia|]. intros r. by case_if.
Qed.

Lemma cssadd_spec d s st :
  text_ok d -> css_ok d -> text_used d + len s <= 24575 ->
  exists d' n, cssadd d s st = Some d' /\ styled n d d' /\ n <= len s.
Proof.
  intros Ht Hc Hs. unfold cssadd, ASTER_MAX_CSS_RULES. case_if; [exists d, 0; split; [done|]; split; [by apply styled_0|lia]|].
  destruct (selector_spec d s st Ht Hs) as (r & d' & n & -> & G & N & R). cbn [mbind option_bind].
  destruct G as (t & -> & T). destruct Hc as (C1 & C2 & C3).
  assert (C : css_ok (set_text t (text_used d + n) d)).
  { split; [done|]. split; [done|]. intros i x Hi Hx. apply (range_mono (text_used d)); [cbn; lia|]. by apply (C3 i). }
  destruct r as [r|].
  - cbn [css css_count set_text]. rewrite wr_Some by lia. cbn [mbind option_bind]. eexists _, n. split; [reflexivity|]. split; [|lia].
    split; [by eexists _, _, _|]. split; [done|]. split; [|lia]. destruct C as (_ & _ & C). split; [|split]; cbn in *.
    + by rewrite length_insert.
    + lia.
    + intros i x Hi. unfold rd in *. case_if; [|done]. destruct (decide (i = css_count d)) as [->|Hne].
      * rewrite list_lookup_insert_eq by lia. by intros [= <-].
      * rewrite list_lookup_insert_ne by lia. intros Hx. apply (C i); [lia|]. if_true. done.
  - eexists _, n. split; [reflexivity|]. split; [|lia]. split; [|split; [done|split; [done|lia]]].
    exists t, (css d), (css_count d). by destruct d.
Qed.

Lemma selectors_spec fuel d s st :
  text_ok d -> css_ok d -> text_used d + len s <= 24575 -> len s < Z.of_nat fuel ->
  exists d' n, selectors fuel d s st = Some d' /\ styled n d d' /\ n <= len s.
Proof.
  revert d s. induction fuel as [|f IH]; intros d s Ht Hc Hs Hf; [lia|]. cbn [selectors].
  destruct s as [|c s]; [exists d, 0; split; [done|]; split; [by apply styled_0|done]|].
  case_if; [exists d, 0; split; [done|]; split; [by apply styled_0|lia]|].
  destruct (run (fun x => negb (x =? COMMA)) (c :: s)) as [a r] eqn:Er.
  pose proof (run_length (fun x => negb (x =? COMMA)) (c :: s)) as Lr. rewrite Er in Lr. cbn [fst snd] in Lr.
  destruct (cssadd_spec d a st Ht Hc) as (d1 & n1 & -> & S1 & N1); [lia|]. cbn [mbind option_bind].
  pose proof S1 as (_ & T1 & C1 & _). pose proof (styled_used _ _ _ S1) as U1.
  assert (Hr : len (tail r) < len (c :: s) /\ len a + len (tail r) <= len (c :: s)).
  { destruct r as [|y r]; [|cbn [tail length] in *; lia]. cbn [tail length] in *. lia. }
  destruct (IH d1 (tail r) T1 C1) as (d2 & n2 & -> & S2 & N2); [lia|lia|].
  exists d2, (n1 + n2). split; [done|]. split; [by eapply styled_trans|lia].
Qed.

Lemma css_loop_spec fuel d s after :
  text_ok d -> css_ok d -> text_used d + len s <= 24575 -> len s < Z.of_nat fuel ->
  exists d' n, css_loop fuel d s after = Some d' /\ styled n d d' /\ n <= len s.
Proof.
  revert d s. induction fuel as [|f IH]; intros d s Ht Hc Hs Hf; [lia|]. cbn [css_loop].
  destruct s as [|c s]; [exists d, 0; split; [done|]; split; [by apply styled_0|done]|].
  case_if; [exists d, 0; split; [done|]; split; [by apply styled_0|lia]|].
  pose proof (past_length sp (c :: s)) as L0. set (u := past sp (c :: s)) in *.
  destruct (run (fun x => negb (x =? 123)) u) as [sel r] eqn:Er.
  pose proof (run_length (fun x => negb (x =? 123)) u) as Lr. rewrite Er in Lr. cbn [fst snd] in Lr.
  destruct r as [|y r]; [exists d, 0; split; [done|]; split; [by apply styled_0|lia]|].
  destruct (run (fun x => negb (x =? 125)) r) as [body q] eqn:Eq.
  pose proof (run_length (fun x => negb (x =? 125)) r) as Lq. rewrite Eq in Lq. cbn [fst snd] in Lq.
  destruct (styletext_some body (q ++ after)) as [st ->]. cbn [mbind option_bind]. cbn [length] in Lr.
  destruct (selectors_spec (S (length sel)) d sel st Ht Hc) as (d1 & n1 & -> & S1 & N1); [lia|lia|]. cbn [mbind option_bind].
  pose proof S1 as (_ & T1 & C1 & _). pose proof (styled_used _ _ _ S1) as U1. pose proof (tail_length q).
  destruct (IH d1 (tail q) T1 C1) as (d2 & n2 & -> & S2 & N2); [lia|lia|].
  exists d2, (n1 + n2). split; [done|]. split; [by eapply styled_trans|lia].
Qed.

Lemma css_rules_spec d s after :
  text_ok d -> css_ok d -> text_used d + len s <= 24575 ->
  exists d' n, css_rules d s after = Some d' /\ styled n d d' /\ n <= len s.
Proof. intros. apply css_loop_spec; (done || lia). Qed.
