(* ===== verification/AsterWf.v ===== *)
(** * Documents are well formed

    Parsing yields a document whose nodes are a tree in preorder and whose ranges
    lie in its text; the parser ends, and stays inside the document and its stack. *)

From S2P Require Import Prelude Cstr VelaText AsterDoc AsterCss AsterText AsterTree AsterParse AsterSafe.

(** ** Pages

    The arrays of the parser take runs of text of 766 characters and alternative
    texts of 190; [tame] pages have no longer ones. *)
Definition tame (h : bytes) : Prop :=
  (forall a b c, h = a ++ b ++ c -> Forall (fun x => negb (x =? 60) = true) b -> len b <= 766) /\
  (forall a b c, h = a ++ b ++ c -> alt_fits b).

Definition suffix_of (p h : bytes) : Prop := exists a, h = a ++ p.

Lemma suffix_refl p : suffix_of p p.
Proof. by exists []. Qed.
Lemma suffix_trans p q h : suffix_of p q -> suffix_of q h -> suffix_of p h.
Proof. intros [a ->] [b ->]. exists (b ++ a). by rewrite app_assoc. Qed.
Lemma suffix_drop n p : suffix_of (drop n p) p.
Proof. exists (take n p). by rewrite take_drop. Qed.
Lemma suffix_tail p : suffix_of (tail p) p.
Proof. destruct p as [|c p]; [by exists []|by exists [c]]. Qed.
Lemma suffix_run f p : suffix_of (snd (run f p)) p.
Proof. exists (fst (run f p)). by rewrite run_app. Qed.
Lemma suffix_until c p : suffix_of (until c p) p.
Proof. apply until_suffix. Qed.
Lemma suffix_length p h : suffix_of p h -> len p <= len h.
Proof. intros [a ->]. rewrite length_app. lia. Qed.
Create HintDb suffix.
#[local] Hint Resolve suffix_refl suffix_drop suffix_tail suffix_run suffix_until : suffix.

Lemma tame_suffix p h : suffix_of p h -> tame h -> tame p.
Proof.
  intros [x ->] [H1 H2]. split; intros a b c ->.
  - apply (H1 (x ++ a) b c). by rewrite <- app_assoc.
  - apply (H2 (x ++ a) b c). by rewrite <- app_assoc.
Qed.

Lemma held_value l w v r : first_attr l w = Some (v, r) -> len v <= values l.
Proof.
  assert (H0 : forall l, 0 <= values l).
  { clear. intros l. induction l as [|[[n v] r] l IH]; cbn; [lia|]. unfold values in IH. lia. }
  induction l as [|[[n x] y] l IH]; [done|]. cbn [first_attr values fold_right]. specialize (H0 l). unfold values in *.
  case_if; [intros [= -> ->]; lia|]. intros H. specialize (IH H). lia.
Qed.

(** A short page is tame. *)
Lemma tame_short h : len h <= 190 -> tame h.
Proof.
  intros Hh. split; intros a b c ->; rewrite !length_app in Hh; [lia|]. intros v r Hv. apply held_value in Hv.
  pose proof (attr_list_values (S (length b)) b ltac:(lia)) as Hl. unfold attributes in Hv. lia.
Qed.

(** The name of an attribute stands in the text. *)
Definition part_of (n s : bytes) : Prop := exists a b, s = a ++ n ++ b.

Lemma part_suffix n p s : suffix_of p s -> part_of n p -> part_of n s.
Proof. intros [x ->] (a & b & ->). exists (x ++ a), b. by rewrite <- app_assoc. Qed.

Lemma suffix_past f p : suffix_of (past f p) p.
Proof. apply suffix_run. Qed.

Lemma next_attr_part s a rest :
  next_attr s = (a, rest) -> suffix_of rest s /\ match a with Some (n, _, _) => part_of n s | None => True end.
Proof.
  unfold next_attr. destruct (run _ (past sp s)) as [name s1] eqn:E1.
  pose proof (run_app (fun c => negb (sp c) && negb (c =? EQUALS) && negb (c =? 62)) (past sp s)) as A1. rewrite E1 in A1. cbn [fst snd] in A1.
  assert (Hn : part_of name s) by (eapply part_suffix; [apply suffix_past|]; exists [], s1; by rewrite <- A1).
  assert (S1 : suffix_of s1 s) by (eapply suffix_trans; [|apply (suffix_past sp)]; exists name; by rewrite A1).
  assert (S2 : suffix_of (past sp s1) s) by (eapply suffix_trans; [apply suffix_past|done]). set (s2 := past sp s1) in *.
  destruct (negb _).
  - intros [= <- <-]. split; [|done]. eapply suffix_trans; [apply suffix_past|done].
  - assert (S4 : suffix_of (past sp (tail s2)) s) by (do 2 (eapply suffix_trans; [first [apply suffix_past|apply suffix_tail]|]); done).
    set (s4 := past sp (tail s2)) in *. case_if.
    + pose proof (suffix_run (fun c => negb (c =? head0 s4)) (tail s4)) as S5. destruct (run _ (tail s4)) as [v r]. cbn [snd] in S5.
      intros [= <- <-]. split; [|done]. eapply suffix_trans; [apply suffix_tail|]. eapply suffix_trans; [exact S5|].
      eapply suffix_trans; [apply suffix_tail|done].
    + pose proof (suffix_run (fun c => negb (sp c) && negb (c =? 62)) s4) as S5. destruct (run _ s4) as [v r]. cbn [snd] in S5.
      intros [= <- <-]. split; [|done]. by eapply suffix_trans.
Qed.

Lemma first_attr_part fuel s w v r :
  first_attr (attr_list fuel s) w = Some (v, r) -> exists n, part_of n s /\ eqn n w = true.
Proof.
  revert s. induction fuel as [|f IH]; intros s; [done|]. cbn [attr_list]. destruct s as [|c s]; [done|]. set (t := c :: s).
  destruct (next_attr t) as [a rest] eqn:E. apply next_attr_part in E as [Hs Hn].
  assert (Hrest : first_attr (attr_list f rest) w = Some (v, r) -> exists n, part_of n t /\ eqn n w = true).
  { intros (n & H1 & H2)%IH. exists n. split; [by eapply part_suffix|done]. }
  destruct a as [[[n x] y]|]; [|done]. cbn [first_attr]. destruct (eqn n w) eqn:En; [|done]. intros _. by exists n.
Qed.

Lemma eqn_ci n w b : eqn n w = true -> ci (n ++ b) w = true.
Proof.
  intros H%eqn_low. apply ci_spec. assert (L : length n = length w) by (by rewrite <- (length_map low n), H, length_map).
  rewrite take_app_le by lia. rewrite take_ge by lia. split; [done|]. rewrite length_app. lia.
Qed.

Lemma not_found a p w : w <> [] -> findci (a ++ p) w = None -> ci p w = true -> False.
Proof.
  destruct w as [|y w]; [done|]. intros _. unfold findci. induction a as [|x a IH]; cbn [app find_loop].
  - intros H Hp. destruct p as [|c p]; [done|]. cbn [find_loop] in H. by rewrite Hp in H.
  - destruct (ci (x :: a ++ p) _); [done|exact IH].
Qed.

(** A page of moderate length without alternative texts is tame. *)
Lemma tame_plain h : len h <= 766 -> findci h (chars "alt") = None -> tame h.
Proof.
  intros Hh Ha. split; intros a b c Hb.
  - rewrite Hb, !length_app in Hh. lia.
  - intros v r (n & (x & y & ->) & Hn)%first_attr_part. exfalso. apply (eqn_ci _ _ (y ++ c)) in Hn.
    apply (not_found (a ++ x) (n ++ y ++ c) (chars "alt")); [done| |exact Hn]. rewrite <- Ha, Hb. by rewrite <- !app_assoc.
Qed.

(** ** Documents *)
Record doc_ok (d : AsterDocument) : Prop := {
  d_tree : tree_ok d;
  d_text : text_ok d;
  d_css : css_ok d;
  d_nodes i x : 0 <= i < node_count d -> rd (nodes d) i = Some x -> content_ok (text_used d) x;
  d_paint : length (paint d) = 512%nat;
  d_title : fits 96 (title d)
}.

(** The arrays of a document of any content. *)
Definition arrays_ok (d : AsterDocument) : Prop :=
  length (nodes d) = 384%nat /\ length (paint d) = 512%nat /\ length (css d) = 32%nat /\ length (text d) = Z.to_nat 24576.

Lemma init_doc d : arrays_ok d -> exists d', aster_document_init d = Some d' /\ doc_ok d' /\
  node_count d' = 1 /\ text_used d' = 0 /\ title d' = [].
Proof.
  intros (H1 & H2 & H3 & H4). unfold aster_document_init, add. cbn [node_count nodes].
  change (ASTER_MAX_NODES <=? 0) with false. cbv iota. rewrite wr_Some by lia. cbn [mbind option_bind].
  change (0 <=? -1) with false. cbv iota. cbn [mbind option_bind]. eexists. split; [reflexivity|]. split; [|done].
  split; cbn [nodes node_count text text_used css css_count paint title set_nodes].
  - split; [cbn; by rewrite length_insert|]. split; [cbn; lia|]. cbn [nodes node_count set_nodes].
    set (l := <[_ := _]> (nodes d)). assert (Hr : rd l 0 = Some (fresh (-1) ASTER_NODE_ROOT ASTER_TAG_UNKNOWN no_range)).
    { unfold rd, l. cbn. rewrite list_lookup_insert_eq by lia. done. }
    split.
    + unfold par. by rewrite Hr.
    + lia.
    + lia.
    + intros i Hi. replace i with 0 by lia. unfold fc. by rewrite Hr.
    + intros i Hi. replace i with 0 by lia. unfold ns. rewrite Hr. left. split; [done|lia].
  - done.
  - split; [done|]. split; [cbn; lia|]. cbn. lia.
  - intros i x Hi. replace i with 0 by lia. unfold rd. cbn. rewrite list_lookup_insert_eq by lia. intros [= <-].
    split; first [by apply no_range_ok|done].
  - done.
  - by apply fits_nil.
Qed.

Lemma styled_doc n d d' : doc_ok d -> styled n d d' ->
  doc_ok d' /\ nodes d' = nodes d /\ node_count d' = node_count d /\ title d' = title d.
Proof.
  intros [] ((t & l & c & ->) & T & C & N). split; [|done]. split; try done.
  intros i x Hi Hx. apply (content_mono (text_used d)); [cbn; lia|]. by apply (d_nodes0 i).
Qed.

Lemma grown_styled n d d' : doc_ok d -> 0 <= n -> grown n d d' -> styled n d d'.
Proof.
  intros [] Hn (t & -> & T). split; [exists t, (css d), (css_count d); by destruct d|]. split; [done|]. split; [|done].
  destruct d_css0 as (C1 & C2 & C3). split; [done|]. split; [done|]. intros i r Hi Hr.
  apply (range_mono (text_used d)); [cbn; lia|]. by apply (C3 i).
Qed.

Lemma content_eq u x y : content x = content y -> content_ok u x -> content_ok u y.
Proof. destruct x, y. intros [= -> -> -> -> -> -> -> -> -> -> -> -> ->] []. by split. Qed.

Lemma add_doc d q ty tg r :
  doc_ok d -> 0 <= q < node_count d -> open_at (par (nodes d)) (node_count d) q -> node_count d < 384 ->
  range_ok (text_used d) r ->
  exists l, add d q ty tg r = Some (node_count d, set_nodes l (node_count d + 1) d) /\
    doc_ok (set_nodes l (node_count d + 1) d) /\
    (forall j, par l j = if j =? node_count d then q else par (nodes d) j) /\
    rd l (node_count d) = Some (fresh q ty tg r) /\ same_content (node_count d) (nodes d) l.
Proof.
  intros Hd Hq Ho Hn Hr. destruct (add_spec d q ty tg r (d_tree _ Hd) Hq Ho Hn) as (l & E & T & P & F & S).
  exists l. split; [done|]. split; [|done]. destruct Hd. split; try done. cbn [nodes node_count text_used set_nodes].
  intros i x Hi Hx. destruct (decide (i = node_count d)) as [->|Hne].
  - rewrite F in Hx. injection Hx as <-. pose proof d_text0 as [_ ?]. split; cbn; first [done|apply no_range_ok; lia].
  - assert (Hi' : 0 <= i < node_count d) by lia. specialize (S i Hi'). rewrite Hx in S. cbn in S.
    destruct (rd (nodes d) i) as [y|] eqn:Hy; [|done]. apply (inj Some) in S.
    apply (content_eq _ y); [done|]. by apply (d_nodes0 i).
Qed.

(** A node replaced by one in the same place. *)
Lemma place_doc d i x y :
  doc_ok d -> 0 <= i < node_count d -> rd (nodes d) i = Some x -> same_place x y -> content_ok (text_used d) y ->
  exists l, wr (nodes d) i y = Some l /\ doc_ok (set_nodes l (node_count d) d) /\ (forall j, par l j = par (nodes d) j).
Proof.
  intros Hd Hi Hx (_ & P1 & P2 & P3) Hy. destruct Hd as [(L & N & T) ? ? Hnodes ? ?].
  destruct (wr (nodes d) i y) as [l|] eqn:E; [|by rewrite wr_Some in E by lia]. exists l. split; [done|].
  assert (Hpar : forall j, par l j = par (nodes d) j).
  { intros j. rewrite (wr_par _ _ _ _ E). destruct (Z.eqb_spec j i) as [->|]; [|done]. by rewrite P1, (node_par _ _ _ Hx). }
  assert (Hfc : forall j, fc l j = fc (nodes d) j).
  { intros j. rewrite (wr_fc _ _ _ _ E). destruct (Z.eqb_spec j i) as [->|]; [|done]. by rewrite P2, (node_fc _ _ _ Hx). }
  assert (Hns : forall j, ns l j = ns (nodes d) j).
  { intros j. rewrite (wr_ns _ _ _ _ E). destruct (Z.eqb_spec j i) as [->|]; [|done]. by rewrite P3, (node_ns _ _ _ Hx). }
  split; [|done]. split; try done; cbn [nodes node_count text_used set_nodes].
  - split; [cbn; by rewrite (wr_length _ _ _ _ E)|]. split; [done|]. cbn [nodes node_count set_nodes]. destruct T as [T1 T2 T3 T4 T5]. split.
    + by rewrite Hpar.
    + intros j. rewrite Hpar. apply T2.
    + intros j k. rewrite !Hpar. apply T3.
    + intros j. rewrite Hfc, Hpar. apply T4.
    + intros j Hj. rewrite Hns. destruct (T5 j Hj) as [[H1 H2]|(H1 & H2 & H3)]; [left|right].
      * split; [done|]. intros k Hk. rewrite !Hpar. by apply H2.
      * split; [done|]. rewrite !Hpar. split; [done|]. intros k Hk. rewrite !Hpar. by apply H3.
  - intros j z Hj. destruct (decide (j = i)) as [->|Hne]; [rewrite (rd_wr_eq _ _ _ _ E); by intros [= <-]|].
    rewrite (rd_wr_ne _ _ _ _ _ E) by done. by apply Hnodes.
Qed.

(** ** The parser *)

(** The stack of open elements: nodes in order, each with all that follow it below. *)
Record stack_ok (p : Z -> Z) (n : Z) (st : list Z) (spn : Z) : Prop := {
  k_length : length st = 48%nat;
  k_height : 1 <= spn <= 48;
  k_node k x : 0 <= k < spn -> rd st k = Some x -> 0 <= x < n /\ open_at p n x;
  k_order j k x y : 0 <= j <= k -> k < spn -> rd st j = Some x -> rd st k = Some y -> x <= y
}.

Record parsing (s : parser) : Prop := {
  s_doc : doc_ok (doc s);
  s_stack : stack_ok (par (nodes (doc s))) (node_count (doc s)) (st s) (spn s);
  s_budget : text_used (doc s) + len (cur s) <= 24575;
  s_tame : tame (cur s);
  s_nonzero : Forall (fun c => c <> 0) (cur s)
}.

Lemma stack_ext p p' n st spn :
  (forall j, 0 <= j < n -> p' j = p j) -> stack_ok p n st spn -> stack_ok p' n st spn.
Proof.
  intros Hp [H1 H2 H3 H4]. split; [done|done| |done]. intros k x Hk Hx. destruct (H3 k x Hk Hx) as [H5 H6].
  split; [done|]. intros j Hj. rewrite Hp by lia. by apply H6.
Qed.

Lemma top_spec p n st spn : stack_ok p n st spn -> exists x, rd st (spn - 1) = Some x /\ 0 <= x < n /\ open_at p n x.
Proof.
  intros [H1 H2 H3 _]. destruct (rd_is_Some st (spn - 1)) as [x Hx]; [lia|]. exists x. split; [done|].
  apply (H3 (spn - 1)); [lia|done].
Qed.

(** A node added below the top. *)
Lemma stack_add p p' n st spn q :
  stack_ok p n st spn -> rd st (spn - 1) = Some q -> (forall j, p' j = if j =? n then q else p j) -> stack_ok p' (n + 1) st spn.
Proof.
  intros [H1 H2 H3 H4] Hq Hp. split; [done|done| |done]. intros k x Hk Hx. destruct (H3 k x Hk Hx) as [H5 H6].
  split; [lia|]. intros j Hj. rewrite Hp. destruct (Z.eqb_spec j n); [|apply H6; lia].
  apply (H4 k (spn - 1)); (done || lia).
Qed.

Lemma stack_push p n st spn st' :
  stack_ok p (n + 1) st spn -> 0 <= n -> spn < 48 -> wr st spn n = Some st' -> stack_ok p (n + 1) st' (spn + 1).
Proof.
  intros [H1 H2 H3 H4] Hn Hs Hw. pose proof (wr_length _ _ _ _ Hw). split; [lia|lia| |].
  - intros k x Hk. destruct (decide (k = spn)) as [->|Hne].
    + rewrite (rd_wr_eq _ _ _ _ Hw). intros [= <-]. split; [lia|]. intros j Hj. lia.
    + rewrite (rd_wr_ne _ _ _ _ _ Hw) by congruence. apply H3. lia.
  - intros j k x y Hj Hk. destruct (decide (k = spn)) as [->|Hk'].
    + rewrite (rd_wr_eq _ _ _ _ Hw). destruct (decide (j = spn)) as [->|Hj'].
      * rewrite (rd_wr_eq _ _ _ _ Hw). intros [= <-] [= <-]. lia.
      * rewrite (rd_wr_ne _ _ _ _ _ Hw) by congruence. intros Hx [= <-]. destruct (H3 j x) as [? _]; [lia|done|lia].
    + rewrite !(rd_wr_ne _ _ _ _ _ Hw) by (congruence || lia). intros Hx Hy. apply (H4 j k); (done || lia).
Qed.

Lemma open_stack_pop p n st spn k : stack_ok p n st spn -> 1 <= k <= spn -> stack_ok p n st k.
Proof.
  intros [H1 H2 H3 H4] Hk. split; [done|lia| |].
  - intros j x Hj. apply H3. lia.
  - intros i j x y Hi Hj. apply H4; lia.
Qed.

Lemma close_loop_spec i d st spn t :
  doc_ok d -> stack_ok (par (nodes d)) (node_count d) st spn -> Z.of_nat i < spn ->
  exists k, close_loop i d st spn t = Some k /\ 1 <= k <= spn.
Proof.
  intros Hd Hs. induction i as [|i IH]; intros Hi; cbn [close_loop].
  { exists spn. split; [done|]. pose proof (k_height _ _ _ _ Hs). lia. }
  pose proof Hs as [H1 H2 H3 _]. destruct (rd_is_Some st (Z.of_nat (S i))) as [x Hx]; [lia|]. rewrite Hx. cbn [mbind option_bind].
  destruct (H3 (Z.of_nat (S i)) x) as [Hxn _]; [lia|done|]. destruct (d_tree _ Hd) as (L & N & _).
  destruct (rd_is_Some (nodes d) x) as [n Hn]; [lia|]. rewrite Hn. cbn [mbind option_bind].
  case_if; [eexists; split; [done|lia]|]. apply IH. lia.
Qed.

(** The text that is shown has no terminator in it. *)
Lemma expand_nonzero fuel s : Forall (fun c => c <> 0) s -> Forall (fun c => c <> 0) (expand fuel s).
Proof.
  revert s. induction fuel as [|f IH]; intros s Hs; [constructor|]. cbn [expand]. destruct s as [|x s]; [constructor|].
  inversion_clear Hs as [|? ? Hx Hs']. destruct (entity (x :: s)) as [c r] eqn:E.
  assert (H : c <> 0 /\ Forall (fun c => c <> 0) r).
  { revert E. unfold entity. repeat case_if; intros [= <- <-]; (split; [lia|first [by apply Forall_drop|done]]). }
  destruct H as [H1 H2]. constructor; [done|by apply IH].
Qed.

Lemma collapse_nonzero l : Forall (fun c => c <> 0) l ->
  Forall (fun c => c <> 0) (collapse l) /\ Forall (fun c => c <> 0) (cont l).
Proof.
  induction 1 as [|c l Hc _ [IH1 IH2]]; [by repeat constructor|]. destruct (sp c) eqn:E.
  - rewrite collapse_blank, cont_blank by done. split; [done|]. destruct (collapse l); [constructor|by constructor].
  - rewrite collapse_char, cont_char by done. split; by constructor.
Qed.

Lemma decode_fine cap s :
  len s + 1 < cap -> Forall (fun c => c <> 0) s ->
  exists t, decode cap s = Some t /\ len t <= len s /\ Forall (fun c => c <> 0) t.
Proof.
  intros H Hs. exists (shown s). split; [|split; [apply shown_length|]].
  - unfold decode. if_false. by rewrite (decode_loop_spec _ _ _ _ _ (length s)) by (cbn; lia).
  - apply collapse_nonzero, expand_nonzero, Hs.
Qed.

(** What a turn of the loop leaves: less to read, and the same invariant. *)
Definition went (s : parser) (s' : parser) : Prop := parsing s' /\ len (cur s') < len (cur s).

Lemma parsing_cur s p :
  parsing s -> suffix_of p (cur s) -> parsing (mk_parser (doc s) (st s) (spn s) p).
Proof.
  intros [] Hp. split; cbn; [done|done| |by eapply tame_suffix|].
  - pose proof (suffix_length _ _ Hp). lia.
  - destruct Hp as [a Hp]. rewrite Hp in s_nonzero0. by apply Forall_app in s_nonzero0 as [_ ?].
Qed.

Lemma text_run_ok s c p :
  parsing s -> node_count (doc s) < 384 -> cur s = c :: p -> negb (c =? 60) = true ->
  exists s', text_run s = Some s' /\ went s s'.
Proof.
  intros Hs Hn Hc Hlt. pose proof Hs as [Hd Hst Hb [Ht1 _] Hz]. unfold text_run.
  destruct (run (fun c => negb (c =? 60)) (cur s)) as [t r] eqn:Er.
  pose proof (run_length (fun c => negb (c =? 60)) (cur s)) as Lr. pose proof (run_app (fun c => negb (c =? 60)) (cur s)) as Ar.
  pose proof (run_all (fun c => negb (c =? 60)) (cur s)) as Fr. rewrite Er in *. cbn [fst snd] in *.
  assert (Htne : t <> []). { intros ->. rewrite Hc in Er. cbn [run] in Er. rewrite Hlt in Er. by destruct (run _ p). }
  assert (Hlen : len t <= 766) by (apply (Ht1 [] t r); [by rewrite <- Ar|exact Fr]).
  assert (Hzt : Forall (fun c => c <> 0) t) by (rewrite <- Ar in Hz; by apply Forall_app in Hz as [? _]).
  destruct (decode_fine 768 t) as (u & -> & Hu & Hzu); [lia|done|]. cbn [mbind option_bind].
  assert (Hsuf : suffix_of r (cur s)) by by exists t. pose proof (parsing_cur s r Hs Hsuf) as Hs1.
  assert (Hshort : len r < len (cur s)) by (destruct t; [done|cbn [length] in *; lia]).
  destruct u as [|y u]; [exists (mk_parser (doc s) (st s) (spn s) r); done|]. set (v := y :: u) in *.
  destruct (stored_spec (doc s) v (d_text _ Hd)) as (rg & d1 & -> & G & R & _); [lia|]. cbn [mbind option_bind].
  destruct (styled_doc _ _ _ Hd (grown_styled (len v) _ _ Hd ltac:(lia) G)) as (Hd1 & N1 & C1 & T1).
  destruct (top_spec _ _ _ _ Hst) as (q & Hq & Hqn & Ho). unfold top. rewrite Hq. cbn [mbind option_bind].
  destruct (add_doc d1 q ASTER_NODE_TEXT ASTER_TAG_UNKNOWN rg Hd1) as (l & -> & Hd2 & P & F & S); [by rewrite C1|by rewrite N1, C1|lia|done|].
  cbn [mbind option_bind]. destruct (d_tree _ Hd2) as (L2 & _). cbn [nodes set_nodes] in L2.
  cbn [nodes set_nodes]. destruct (rd_is_Some l q) as [x Hx]; [lia|]. rewrite Hx. cbn [mbind option_bind].
  eexists. split; [reflexivity|]. set (d2 := set_nodes l (node_count d1 + 1) d1) in *.
  set (d3 := if (0 <=? node_count d1) && (tag x =? ASTER_TAG_TITLE) && (len (title d2) =? 0) then _ else d2).
  assert (H3 : doc_ok d3 /\ nodes d3 = l /\ node_count d3 = node_count d1 + 1 /\ text_used d3 = text_used d1).
  { unfold d3. case_if; [|done]. split; [|done]. destruct Hd2. split; try done. apply fits_fit; [done|]. exact Hzu. }
  destruct H3 as (H3 & E1 & E2 & E3). split; [|done]. split; cbn [doc st spn cur]; [done| | |by apply Hs1|by apply Hs1].
  - rewrite E1, E2, C1. apply (stack_add (par (nodes (doc s))) _ _ _ _ q); [done|done|]. intros j. by rewrite P, C1, N1.
  - apply grown_text in G as [_ G]. lia.
Qed.

Lemma close_tag_ok s p :
  parsing s -> suffix_of p (cur s) -> len p < len (cur s) -> exists s', close_tag s p = Some s' /\ went s s'.
Proof.
  intros Hs Hp Hl. unfold close_tag, tag_name. destruct (run _ (past sp p)) as [n r] eqn:Er.
  assert (Hr : suffix_of r p).
  { eapply suffix_trans; [|apply (suffix_run sp)]. pose proof (suffix_run (fun c => negb (sp c) && negb (c =? 62) && negb (c =? SLASH)) (past sp p)) as H.
    by rewrite Er in H. }
  assert (Hsk : suffix_of (skip_tag r) p).
  { eapply suffix_trans; [|exact Hr]. unfold skip_tag. eapply suffix_trans; [apply suffix_tail|apply suffix_until]. }
  destruct (close_loop_spec (Z.to_nat (spn s - 1)) (doc s) (st s) (spn s) (tagid n) (s_doc _ Hs) (s_stack _ Hs)) as (k & -> & Hk).
  { pose proof (k_height _ _ _ _ (s_stack _ Hs)). lia. }
  cbn [mbind option_bind]. eexists. split; [reflexivity|].
  pose proof (parsing_cur s (skip_tag r) Hs (suffix_trans _ _ _ Hsk Hp)) as []. pose proof (suffix_length _ _ Hsk).
  split; [|cbn; lia]. split; try done. cbn in *. by apply (open_stack_pop _ _ _ (spn s)).
Qed.

Lemma skip_tag_suffix p : suffix_of (skip_tag p) p.
Proof. unfold skip_tag. eapply suffix_trans; [apply suffix_tail|apply suffix_until]. Qed.

Lemma closep_app p e : fst (closep p e) ++ snd (closep p e) = p.
Proof.
  induction p as [|c p IH]; [done|]. cbn [closep]. case_if; [done|].
  destruct (closep p e) as [a b]. cbn in *. by rewrite IH.
Qed.

Lemma skip_comment_suffix p : suffix_of (skip_comment p) p.
Proof.
  induction p as [|c p IH]; [apply suffix_refl|]. cbn [skip_comment]. case_if; [apply suffix_drop|].
  eapply suffix_trans; [exact IH|by exists [c]].
Qed.

(** An element: its node, with the attributes of the tag. *)
Lemma element_ok s t a after :
  parsing s -> node_count (doc s) < 384 -> text_used (doc s) + len a <= 24575 -> alt_fits a ->
  exists b idx d1 x y d2 l, top s = Some b /\ add (doc s) b ASTER_NODE_ELEMENT t no_range = Some (idx, d1) /\
    idx = node_count (doc s) /\ rd (nodes d1) idx = Some x /\ attrs d1 x a after = Some (y, d2) /\
    wr (nodes d2) idx y = Some l /\
    let d := set_nodes l (node_count d2) d2 in
    doc_ok d /\ node_count d = node_count (doc s) + 1 /\
    stack_ok (par (nodes d)) (node_count d) (st s) (spn s) /\ text_used d <= text_used (doc s) + len a.
Proof.
  intros [Hd Hst Hb Ht Hz] Hn Ha Halt. destruct (top_spec _ _ _ _ Hst) as (q & Hq & Hqn & Ho).
  destruct (add_doc (doc s) q ASTER_NODE_ELEMENT t no_range Hd Hqn Ho Hn) as (l & E & Hd1 & P & F & S).
  { apply no_range_ok, (d_text _ Hd). }
  set (d1 := set_nodes l (node_count (doc s) + 1) (doc s)) in *.
  destruct (attrs_spec d1 (fresh q ASTER_NODE_ELEMENT t no_range) a after) as (y & d2 & n & E2 & G & N & C & Pl).
  { apply (d_text _ Hd1). }
  { apply (d_nodes _ Hd1 (node_count (doc s))); [cbn; destruct (d_tree _ Hd) as (_ & ? & _); lia|done]. }
  { done. }
  { done. }
  exists q, (node_count (doc s)), d1, (fresh q ASTER_NODE_ELEMENT t no_range), y, d2.
  destruct (styled_doc _ _ _ Hd1 (grown_styled n _ _ Hd1 ltac:(lia) G)) as (Hd2 & N2 & C2 & T2).
  destruct (place_doc d2 (node_count (doc s)) (fresh q ASTER_NODE_ELEMENT t no_range) y Hd2) as (l' & -> & Hd3 & P3).
  { rewrite C2. cbn. destruct (d_tree _ Hd) as (_ & ? & _). lia. }
  { by rewrite N2. }
  { done. }
  { done. }
  exists l'. split; [done|]. split; [done|]. split; [done|]. split; [done|]. split; [done|]. split; [done|].
  cbn zeta. cbn [nodes node_count text_used set_nodes]. split; [done|]. split; [by rewrite C2|]. split.
  - rewrite C2. apply (stack_add (par (nodes (doc s))) _ _ _ _ q); [done|done|].
    intros j. rewrite P3, N2. cbn [nodes d1 set_nodes]. apply P.
  - destruct G as (t2 & -> & _). cbn in *. lia.
Qed.

(** The rules of a style element. *)
Lemma style_ok d body e :
  doc_ok d -> text_used d + len body <= 24575 ->
  exists d', css_rules d body e = Some d' /\ doc_ok d' /\ nodes d' = nodes d /\ node_count d' = node_count d /\
    text_used d' <= text_used d + len body.
Proof.
  intros Hd Hb. destruct (css_rules_spec d body e (d_text _ Hd) (d_css _ Hd) Hb) as (d' & n & -> & S & N).
  destruct (styled_doc _ _ _ Hd S) as (H1 & H2 & H3 & _). exists d'. split; [done|]. split; [done|]. split; [done|].
  split; [done|]. rewrite (styled_used _ _ _ S). lia.
Qed.

Lemma went_on s d p :
  parsing s -> doc_ok d -> stack_ok (par (nodes d)) (node_count d) (st s) (spn s) ->
  suffix_of p (cur s) -> len p < len (cur s) -> text_used d + len p <= 24575 ->
  went s (mk_parser d (st s) (spn s) p).
Proof.
  intros Hs Hd Hk Hp Hl Hb. split; [|done]. destruct (parsing_cur s p Hs Hp). by split.
Qed.

Lemma closep_rest q w body e c : closep q w = (body, e) -> suffix_of q c ->
  suffix_of (skip_tag e) c /\ len body + len (skip_tag e) <= len q.
Proof.
  intros E Hq. pose proof (closep_app q w) as H. rewrite E in H. cbn in H. split.
  - eapply suffix_trans; [apply skip_tag_suffix|]. eapply suffix_trans; [|exact Hq]. by exists body.
  - pose proof (suffix_length _ _ (skip_tag_suffix e)). rewrite <- H, length_app. lia.
Qed.

Lemma open_tag_ok s p :
  parsing s -> node_count (doc s) < 384 -> cur s = 60 :: p -> exists s', open_tag s p = Some (inr s') /\ went s s'.
Proof.
  intros Hs Hn Hc. unfold open_tag, tag_name.
  set (f := fun c => negb (sp c) && negb (c =? 62) && negb (c =? SLASH)).
  pose proof (suffix_run f (past sp p)) as Hr. pose proof (suffix_run sp p) as Hq. change (snd (run sp p)) with (past sp p) in Hq.
  destruct (run f (past sp p)) as [nm r] eqn:Er. cbn [snd] in Hr.
  pose proof (run_app (fun c => negb (c =? 62)) r) as Ha. destruct (run (fun c => negb (c =? 62)) r) as [a after] eqn:Ea. cbn [fst snd] in Ha.
  assert (Hrp : suffix_of r p) by by eapply suffix_trans. assert (Hrc : suffix_of r (cur s)).
  { eapply suffix_trans; [exact Hrp|]. rewrite Hc. by exists [60]. }
  pose proof (suffix_length _ _ Hrp) as Lr. assert (Lc : len (cur s) = 1 + len p) by (rewrite Hc; cbn [length]; lia).
  assert (La : len a + len after = len r) by (rewrite <- Ha, length_app; lia). pose proof (tail_length after) as Lt.
  destruct (element_ok s (tagid nm) a after Hs Hn) as (b & idx & d1 & x & y & d2 & l & -> & E2 & -> & E4 & E5 & E6 & Hd & Hcnt & Hst & Hu).
  { pose proof (s_budget _ Hs). lia. }
  { destruct (s_tame _ Hs) as [_ Ht]. destruct Hrc as [z Hz]. apply (Ht z a after). by rewrite Hz, <- Ha. }
  cbn [mbind option_bind]. rewrite E2. cbn [mbind option_bind]. destruct (d_tree _ (s_doc _ Hs)) as (_ & Hcount & _).
  replace (node_count (doc s) <? 0) with false by (symmetry; apply Z.ltb_ge; lia).
  rewrite E4. cbn [mbind option_bind]. rewrite E5. cbn [mbind option_bind]. rewrite E6. cbn [mbind option_bind].
  set (d := set_nodes l (node_count d2) d2) in *. cbv zeta in *.
  assert (Hac : suffix_of (tail after) (cur s)).
  { eapply suffix_trans; [apply suffix_tail|]. eapply suffix_trans; [|exact Hrc]. by exists a. }
  pose proof (s_budget _ Hs) as Hb. pose proof (suffix_length _ _ Hac).
  case_if; [destruct (closep (tail after) (chars "</style")) as [body e] eqn:Eb; destruct (closep_rest _ _ _ _ (cur s) Eb Hac) as [B1 B2];
    destruct (style_ok d body e Hd) as (d' & -> & Hd' & N1 & N2 & U); [lia|]; cbn [mbind option_bind];
    eexists; split; [done|]; apply went_on; [done|done|by rewrite N1, N2|done|lia|lia]|].
  case_if; [destruct (closep (tail after) (chars "</script")) as [body e] eqn:Eb; destruct (closep_rest _ _ _ _ (cur s) Eb Hac) as [B1 B2];
    eexists; split; [done|]; apply went_on; (done || lia)|].
  case_if; [|eexists; split; [done|]; apply went_on; (done || lia)].
  bool_prop. destruct (wr (st s) (spn s) (node_count (doc s))) as [st'|] eqn:Ew.
  - cbn [mbind option_bind]. eexists. split; [done|].
    assert (Hw : went s (mk_parser d (st s) (spn s) (tail after))) by (apply went_on; (done || lia)).
    destruct Hw as [[] Hw]. split; [|done]. split; try done. cbn in *. rewrite Hcnt in *.
    apply (stack_push _ _ (st s)); (done || lia).
  - exfalso. rewrite wr_Some in Ew; [done|]. destruct Hst as [? ? _ _]. lia.
Qed.

Lemma turn_ok s :
  parsing s -> node_count (doc s) < 384 -> cur s <> [] -> exists s', turn s = Some (inr s') /\ went s s'.
Proof.
  intros Hs Hn Hne. unfold turn. destruct (cur s) as [|c p] eqn:Hc; [done|].
  assert (Hskip : forall q, suffix_of q p -> went s (mk_parser (doc s) (st s) (spn s) q)).
  { intros q Hq. pose proof (suffix_length _ _ Hq). pose proof (s_budget _ Hs). rewrite Hc in *. cbn [length] in *.
    apply went_on; [done|apply Hs|apply Hs| |rewrite Hc; cbn [length]; lia|lia].
    eapply suffix_trans; [exact Hq|]. rewrite Hc. by exists [c]. }
  destruct (negb (c =? 60)) eqn:Hlt; [destruct (text_run_ok s c p Hs Hn Hc Hlt) as (s' & -> & W); by exists s'|].
  case_if; [eexists; split; [done|]; apply Hskip; eapply suffix_trans; [apply skip_comment_suffix|apply (suffix_drop 3)]|].
  case_if.
  { eexists; split; [done|]. apply Hskip. unfold skip_tag. cbn [until]. replace (c =? 62) with false by (bool_prop; lia).
    apply (skip_tag_suffix p). }
  case_if.
  - destruct (close_tag_ok s (tail p) Hs) as (s' & -> & W); [| |by exists s'].
    + rewrite Hc. eapply suffix_trans; [apply suffix_tail|by exists [c]].
    + rewrite Hc. pose proof (tail_length p). cbn [length]. lia.
  - destruct (open_tag_ok s p Hs Hn) as (s' & -> & W); [|by exists s'].
    rewrite Hc. bool_prop. by subst.
Qed.

Lemma parse_loop_ok fuel s :
  parsing s -> len (cur s) < Z.of_nat fuel -> exists d, parse_loop fuel s = Some d /\ doc_ok d.
Proof.
  revert s. induction fuel as [|f IH]; intros s Hs Hf; [lia|]. cbn [parse_loop]. unfold ASTER_MAX_NODES.
  case_if; [exists (doc s); split; [done|apply Hs]|].
  destruct (decide (cur s = [])) as [He|Hne]; [unfold turn; rewrite He; exists (doc s); split; [done|apply Hs]|].
  destruct (turn_ok s Hs ltac:(lia) Hne) as (s' & -> & W & L). cbn [mbind option_bind]. apply IH; [done|lia].
Qed.

Lemma page_parse_ok stack d h :
  arrays_ok d -> length stack = 48%nat -> tame h -> Forall (fun c => c <> 0) h -> len h <= 24575 ->
  exists r d', aster_parse_html stack d h = Some (r, d') /\ doc_ok d' /\ (r = 1 <-> 1 < node_count d').
Proof.
  intros Hd Hst Ht Hz Hl. destruct (init_doc d Hd) as (d0 & E & Hd0 & N0 & U0 & _). unfold aster_parse_html.
  rewrite E. cbn [mbind option_bind]. destruct (wr stack 0 0) as [st0|] eqn:Ew; [|by rewrite wr_Some in Ew by lia].
  cbn [mbind option_bind]. destruct (parse_loop_ok (S (length h)) (mk_parser d0 st0 1 h)) as (d1 & -> & Hd1); [|cbn; lia|].
  - split; cbn [doc st spn cur]; [done| |lia|done|done]. rewrite N0. pose proof (wr_length _ _ _ _ Ew).
    assert (R0 : forall k x, 0 <= k < 1 -> rd st0 k = Some x -> x = 0).
    { intros k x Hk. replace k with 0 by lia. rewrite (rd_wr_eq _ _ _ _ Ew). by intros [= <-]. }
    split; [lia|lia| |].
    + intros k x Hk Hx. apply R0 in Hx; [|lia]. subst x. split; [lia|]. intros j Hj. lia.
    + intros j k x y Hj Hk Hx Hy. apply R0 in Hx, Hy; lia.
  - cbn [mbind option_bind]. eexists _, _. split; [reflexivity|].
    set (d2 := if len (title d1) =? 0 then _ else d1).
    assert (H2 : doc_ok d2 /\ node_count d2 = node_count d1).
    { unfold d2. case_if; [|done]. split; [|done]. destruct Hd1. split; try done.
      apply fits_fit; [done|]. by apply (bool_decide_unpack _); vm_compute. }
    destruct H2 as [H2 N2]. split; [done|]. rewrite N2. case_if; lia.
Qed.


(** ** A page *)
Module Page.
Definition html : bytes :=
  chars "<title>Orion</title><style>p.x{color:red}</style><body><h1>Hi</h1><p class=x>An <a href=/a>a&amp;b</a></p><img src=i alt=pic><br/>".
Definition before : AsterDocument :=
  mk_doc (replicate 384 (mk_node 7 7 7 7 7 no_range no_range no_range no_range no_range 7 7 7 7 7))
    (replicate 512 (mk_item 7 7 7 7 7 7 7 no_range no_range no_range))
    (replicate 32 (mk_rule 7 7 7 7 7 no_range 7)) (replicate (Z.to_nat 24576) 7) 7 7 7 7 7 [7].


(** Its nodes, and its text. *)
Example page_parsed :
  ('(r, d) ← aster_parse_html (replicate 48 7) before html;
   Some (r, title d, map (fun x => (tag x, parent x)) (take (Z.to_nat (node_count d)) (nodes d)),
     slice (text d) 0 (text_used d))) =
  Some (1, chars "Orion",
    [(0, -1); (4, 0); (0, 1); (28, 0); (3, 0); (5, 4); (0, 5); (8, 4); (0, 7); (12, 7); (0, 9); (29, 4); (10, 4)],
    chars "OrionxHixAn/aa&bipic").
Proof. vm_compute. reflexivity. Qed.
End Page.
