(* ===== verification/AsterLayout.v ===== *)
(** * Styles of nodes, layout and painting of Aster (kernel/aster.c, lines 45-59) *)

From S2P Require Import Prelude Cstr NetEnv VelaText AsterDoc AsterCss.

(** ** Ancestors

    [for(;n>=0;n=d->nodes[n].parent)]: the fuel is the number of nodes, the parent of
    a node comes before it. *)
Fixpoint find_up (fuel : nat) (l : list AsterNode) (n : Z) (f : AsterNode -> bool) : option (option AsterNode) :=
  match fuel with
  | O => None
  | S k =>
      if n <? 0 then Some None
      else x ← rd l n; if f x then Some (Some x) else find_up k l (parent x) f
  end.

Definition up (d : AsterDocument) (n : Z) (f : AsterNode -> bool) : option (option AsterNode) :=
  find_up (S (Z.to_nat ASTER_MAX_NODES)) (nodes d) n f.

Definition inh (d : AsterDocument) (n t : Z) : option bool :=
  r ← up d n (fun x => tag x =? t); Some (match r with Some _ => true | None => false end).

Definition link (d : AsterDocument) (n : Z) : option (option AsterNode) :=
  up d n (fun x => (tag x =? ASTER_TAG_A) && negb (rlen (n_href x) =? 0)).

(** ** Rules *)

(** [n] characters of the text at [a] and at [b] are the same. *)
Fixpoint same_text (n : nat) (t : bytes) (a b : Z) : option bool :=
  match n with
  | O => Some true
  | S k => x ← rd t a; y ← rd t b; if negb (x =? y) then Some false else same_text k t (a + 1) (b + 1)
  end.

Definition teq (d : AsterDocument) (a b : range) : option bool :=
  if negb (rlen a =? rlen b) || (ASTER_TEXT_CAP <? off a + rlen a) || (ASTER_TEXT_CAP <? off b + rlen b) then Some false
  else same_text (Z.to_nat (rlen a)) (text d) (off a) (off b).

(** [while(p<n->class_len&&f(d->text[n->class_off+p]))p++;] *)
Fixpoint scan (k : nat) (t : bytes) (o p : Z) (f : Z -> bool) : option Z :=
  match k with
  | O => Some p
  | S k' => c ← rd t (o + p); if f c then scan k' t o (p + 1) f else Some p
  end.

Fixpoint class_loop (fuel : nat) (d : AsterDocument) (c sel : range) (p : Z) : option bool :=
  match fuel with
  | O => None
  | S f =>
      if negb (p <? rlen c) then Some false
      else
        a ← scan (Z.to_nat (rlen c - p)) (text d) (off c) p sp;
        p ← scan (Z.to_nat (rlen c - a)) (text d) (off c) a (fun x => negb (sp x));
        ok ← (if p - a =? rlen sel then same_text (Z.to_nat (p - a)) (text d) (off c + a) (off sel) else Some false);
        if (ok : bool) then Some true else class_loop f d c sel p
  end.

Definition hasclass (d : AsterDocument) (n : AsterNode) (r : AsterCssRule) : option bool :=
  let c := n_class n in
  if (rlen c =? 0) || (ASTER_TEXT_CAP <? off c + rlen c) then Some false
  else class_loop (S (Z.to_nat (rlen c))) d c (r_selector r) 0.

Definition matches (d : AsterDocument) (r : AsterCssRule) (n : AsterNode) : option bool :=
  let k := selector_kind r in
  if negb (r_tag r =? CSS_ANY_TAG) && negb (r_tag r =? tag n) then Some false
  else if (k =? CSS_SELECTOR_ANY) || (k =? CSS_SELECTOR_TAG) then Some true
  else if (k =? CSS_SELECTOR_CLASS) || (k =? CSS_SELECTOR_TAG_CLASS) then hasclass d n r
  else if (k =? CSS_SELECTOR_ID) || (k =? CSS_SELECTOR_TAG_ID) then
    if rlen (n_id n) =? 0 then Some false else teq d (n_id n) (r_selector r)
  else Some false.

Definition specof (r : AsterCssRule) : Z :=
  let k := selector_kind r in
  if k =? CSS_SELECTOR_ID then 100 else if k =? CSS_SELECTOR_TAG_ID then 101
  else if k =? CSS_SELECTOR_CLASS then 10 else if k =? CSS_SELECTOR_TAG_CLASS then 11
  else if k =? CSS_SELECTOR_TAG then 1 else 0.

(** The local variables of [rules]: the specificity and the index of the rules that
    gave the colour and the scale. *)
Record cascade := mk_cascade { cs : Z; co : Z; ss : Z; so : Z; sty : Style }.

Definition apply_rule (i : Z) (r : AsterCssRule) (k : cascade) : cascade :=
  let spc := specof r in
  let k := mk_cascade (cs k) (co k) (ss k) (so k) (add_flag (r_flags r) (sty k)) in
  let k := if negb (r_scale r =? 0) && ((ss k <? spc) || ((spc =? ss k) && (so k <=? i))) then
             mk_cascade (cs k) (co k) spc i (mk_style (flags (sty k)) (r_scale r) (color_set (sty k)) (s_color (sty k)))
           else k in
  if negb (r_color_set r =? 0) && ((cs k <? spc) || ((spc =? cs k) && (co k <=? i))) then
    mk_cascade spc i (ss k) (so k) (mk_style (flags (sty k)) (scale (sty k)) 1 (r_color r))
  else k.

Fixpoint rules_loop (n : nat) (i : Z) (d : AsterDocument) (x : AsterNode) (k : cascade) : option cascade :=
  match n with
  | O => Some k
  | S n' =>
      r ← rd (css d) i;
      m ← matches d r x;
      rules_loop n' (i + 1) d x (if (m : bool) then apply_rule i r k else k)
  end.

Definition rules (d : AsterDocument) (x : AsterNode) (st : Style) : option Style :=
  k ← rules_loop (Z.to_nat (css_count d)) 0 d x (mk_cascade 0 (-1) 0 (-1) st); Some (sty k).

(** [for(int x=n;x>=0&&count<48;x=d->nodes[x].parent)chain[count++]=x;]: the nodes of
    the chain, the outermost first. *)
Fixpoint chain (k : nat) (l : list AsterNode) (x : Z) (acc : list AsterNode) : option (list AsterNode) :=
  match k with
  | O => Some acc
  | S k' => if x <? 0 then Some acc else q ← rd l x; chain k' l (parent q) (q :: acc)
  end.

Definition node_style (q : AsterNode) (st : Style) : Style :=
  let st := add_flag (style_flags q) st in
  let st := if negb (style_scale q =? 0) then mk_style (flags st) (style_scale q) (color_set st) (s_color st) else st in
  if negb (style_color q =? 0) then mk_style (flags st) (scale st) 1 (style_color q) else st.

Fixpoint chain_style (d : AsterDocument) (l : list AsterNode) (st : Style) : option Style :=
  match l with
  | [] => Some st
  | q :: l' => st ← rules d q st; chain_style d l' (node_style q st)
  end.

Definition resolved (d : AsterDocument) (n : Z) : option Style :=
  h1 ← inh d n ASTER_TAG_H1; h2 ← inh d n ASTER_TAG_H2; h3 ← inh d n ASTER_TAG_H3;
  strong ← inh d n ASTER_TAG_STRONG; code ← inh d n ASTER_TAG_CODE;
  let st := mk_style 0 1 0 0x26394B in
  let st := if (h1 : bool) then mk_style ASTER_STYLE_BOLD 2 1 0x1D3550
            else if (h2 : bool) || h3 then add_flag ASTER_STYLE_BOLD st else st in
  let st := if (strong : bool) then add_flag ASTER_STYLE_BOLD st else st in
  let st := if (code : bool) then mk_style (flags st) (scale st) 1 0x7B3F57 else st in
  l ← chain 48 (nodes d) n [];
  chain_style d l st.

Definition hidden (d : AsterDocument) (n : Z) : option bool :=
  a ← inh d n ASTER_TAG_HEAD; b ← inh d n ASTER_TAG_TITLE; c ← inh d n ASTER_TAG_SCRIPT; e ← inh d n ASTER_TAG_STYLE;
  if (a : bool) || b || c || e then Some true
  else st ← resolved d n; Some (negb (Z.land (flags st) ASTER_STYLE_HIDDEN =? 0)).

(** ** Layout *)

(** The conversion to [int16_t]. *)
Definition s16 (z : Z) : Z := (z + 32768) mod 65536 - 32768.

Definition emit (d : AsterDocument) (x y w h scale flags col : Z) (t : range) (l : option AsterNode) (src : range)
  : option AsterDocument :=
  if ASTER_MAX_PAINT <=? paint_count d then Some d
  else
    let href := match l with Some n => n_href n | None => no_range end in
    p ← wr (paint d) (paint_count d) (mk_item (s16 x) (s16 y) (s16 w) (s16 h) scale flags col t href src);
    Some (set_paint p (paint_count d + 1) d).

Definition cw (s : Z) : Z := if s =? 2 then 24 else 11.
Definition lh (s : Z) : Z := if s =? 2 then 52 else 24.

(** The document and the position of the pen. *)
Record pen := mk_pen { page : AsterDocument; cx : Z; cy : Z }.

(** The words of a text node. *)
Fixpoint words (fuel : nat) (r : range) (p : Z) (st : Style) (fl col : Z) (l : option AsterNode) (left right : Z) (w : pen)
  : option pen :=
  match fuel with
  | O => None
  | S f =>
      if negb (p <? rlen r) then Some w
      else
        a ← scan (Z.to_nat (rlen r - p)) (text (page w)) (off r) p (fun c => c =? SP);
        if rlen r <=? a then Some w
        else
          p ← scan (Z.to_nat (rlen r - a)) (text (page w)) (off r) a (fun c => negb (c =? SP));
          let ww := (p - a) * cw (scale st) in
          let '(x, y) := if (left <? cx w) && (right <? cx w + ww) then (left, cy w + lh (scale st)) else (cx w, cy w) in
          d ← emit (page w) x y ww (lh (scale st)) (scale st) fl col (mk_range (u16 (off r + a)) (u16 (p - a))) l no_range;
          words f r p st fl col l left right (mk_pen d (x + ww + cw (scale st)) y)
  end.

Definition textnode (w : pen) (n left width : Z) : option pen :=
  let d := page w in
  q ← rd (nodes d) n;
  st ← resolved d n;
  l ← link d n;
  let fl := Z.lor (if Z.land (flags st) ASTER_STYLE_BOLD =? 0 then 0 else ASTER_PAINT_BOLD)
              (Z.lor (if Z.land (flags st) ASTER_STYLE_UNDERLINE =? 0 then 0 else ASTER_PAINT_UNDERLINE)
                     (match l with Some _ => ASTER_PAINT_LINK | None => 0 end)) in
  let col := if negb (color_set st =? 0) then s_color st
             else match l with Some _ => 0x2F74B7 | None => 0x26394B end in
  words (S (Z.to_nat (rlen (n_text q)))) (n_text q) 0 st fl col l left (left + width)
    (mk_pen d (if cx w <? left then left else cx w) (cy w)).

(** The space before a block, and that of its end. *)
Definition spaced (t : Z) : bool :=
  is_one_of t [ASTER_TAG_H1; ASTER_TAG_H2; ASTER_TAG_H3; ASTER_TAG_P; ASTER_TAG_DIV; ASTER_TAG_LI;
    ASTER_TAG_SECTION; ASTER_TAG_ARTICLE; ASTER_TAG_BLOCKQUOTE].
Definition space_after (t : Z) : Z :=
  if t =? ASTER_TAG_H1 then 20 else if t =? ASTER_TAG_H2 then 14 else if t =? ASTER_TAG_H3 then 10 else 8.

Definition image (w : pen) (n : Z) (q : AsterNode) (left width : Z) : option pen :=
  let iw := if negb (width_hint q =? 0) then width_hint q else if 320 <? width then 320 else width in
  let ih := if negb (height_hint q =? 0) then height_hint q else 180 in
  let iw := if width <? iw then width else iw in
  let ih := if 360 <? ih then 360 else ih in
  l ← link (page w) n;
  d ← emit (page w) left (cy w) iw ih 1 ASTER_PAINT_IMAGE 0xDDE6EE (n_text q) l (n_src q);
  Some (mk_pen d left (cy w + ih + 12)).

(** What [walk] does before the children: the pen, the left edge and the width for
    them. *)
Definition enter (w : pen) (n : Z) (q : AsterNode) (left width : Z) : option (pen * Z * Z) :=
  let t := tag q in
  let w := if block t && negb (cx w =? left) then mk_pen (page w) left (cy w + 24) else w in
  let w := if spaced t then mk_pen (page w) (cx w) (cy w + 8) else w in
  let '(w, cl, cw2) :=
    if t =? ASTER_TAG_LI then
      (mk_pen (page w) (left + 22) (cy w), left + 22, if 22 <? width then width - 22 else width)
    else if t =? ASTER_TAG_BLOCKQUOTE then
      (mk_pen (page w) (left + 28) (cy w), left + 28, if 56 <? width then width - 56 else width)
    else (w, left, width) in
  w ← (if type q =? ASTER_NODE_TEXT then textnode w n left width else Some w);
  let w := if t =? ASTER_TAG_BR then mk_pen (page w) left (cy w + 24) else w in
  let w := if t =? ASTER_TAG_HR then mk_pen (page w) left (cy w + 12) else w in
  w ← (if t =? ASTER_TAG_IMG then image w n q left width else Some w);
  Some (w, cl, cw2).

Definition leave (w : pen) (q : AsterNode) (left : Z) : pen :=
  if block (tag q) && (type q =? ASTER_NODE_ELEMENT) then mk_pen (page w) left (cy w + space_after (tag q)) else w.

(** [for(int c=q->first_child;c>=0;c=d->nodes[c].next_sibling)walk(...);] *)
Fixpoint kids (walk : pen -> Z -> option pen) (k : nat) (w : pen) (c : Z) : option pen :=
  match k with
  | O => None
  | S k' =>
      if c <? 0 then Some w
      else
        w ← walk w c;
        x ← rd (nodes (page w)) c;
        kids walk k' w (next_sibling x)
  end.

(** The fuel is the number of nodes. *)
Fixpoint walk (fuel : nat) (w : pen) (n left width : Z) : option pen :=
  match fuel with
  | O => None
  | S f =>
      if n <? 0 then Some w
      else
        h ← hidden (page w) n;
        if (h : bool) then Some w
        else
          q ← rd (nodes (page w)) n;
          '(w, cl, cw2) ← enter w n q left width;
          w ← kids (fun w c => walk f w c cl cw2) (S (Z.to_nat ASTER_MAX_NODES)) w (first_child q);
          Some (leave w q left)
  end.

Definition aster_layout (d : AsterDocument) (width : Z) : option AsterDocument :=
  let width := if width <? 120 then 120 else width in
  w ← walk (S (Z.to_nat ASTER_MAX_NODES)) (mk_pen (set_paint (paint d) 0 d) 0 0) 0 0 width;
  Some (set_height (cy w + 32) (page w)).

(** ** Links *)

(** [for(size_t j=0;j<n;j++)u[j]=d->text[o+j];u[n]=0;]: the text of the array. *)
Definition copied (d : AsterDocument) (r : range) (cap : Z) : option bytes :=
  let n := if cap <=? rlen r then cap - 1 else rlen r in
  t ← rd_bytes (text d) (off r) n; Some (text_of t).

Fixpoint link_loop (k : nat) (d : AsterDocument) (x yy cap : Z) : option (option bytes) :=
  match k with
  | O => Some None
  | S k' =>
      i ← rd (paint d) (Z.of_nat k');
      if rlen (i_href i) =? 0 then link_loop k' d x yy cap
      else if (x <? i_x i) || (i_x i + i_w i <=? x) || (yy <? i_y i) || (i_y i + i_h i <=? yy) then
        link_loop k' d x yy cap
      else u ← copied d (i_href i) cap; Some (Some u)
  end.

Definition aster_link_at (d : AsterDocument) (x y scroll cap : Z) : option (option bytes) :=
  if cap =? 0 then Some None else link_loop (Z.to_nat (paint_count d)) d x (y + scroll) cap.

Definition aster_document_height (d : AsterDocument) : Z := document_height d.
Definition aster_api_version : Z := ASTER_API_VERSION.
Definition aster_version : bytes := ASTER_VERSION.
