(* ===== verification/AsterFlow.v ===== *)
(** * Layout stays inside the document

    On a well-formed document the searches for ancestors end at the root, the cascade
    reads the text in use only, and the walk visits every node at most once: layout
    ends, its pen stays within [int], and every item it paints names text of the
    document. *)

From S2P Require Import Prelude Cstr VelaText AsterDoc AsterCss AsterText AsterTree AsterParse AsterSafe AsterWf AsterLayout.

(** ** Ancestors *)

Lemma node_at d i : doc_ok d -> 0 <= i < node_count d -> exists x, rd (nodes d) i = Some x.
Proof. intros Hd Hi. destruct (d_tree _ Hd) as (L & N & _). apply rd_is_Some. lia. Qed.

(** The parent of a node comes before it; that of the root is -1. *)
Lemma parent_before d i x : doc_ok d -> 0 <= i < node_count d -> rd (nodes d) i = Some x -> -1 <= parent x < i.
Proof.
  intros Hd Hi Hx. destruct (d_tree _ Hd) as (_ & _ & T). rewrite <- (node_par _ _ _ Hx).
  destruct (decide (i = 0)) as [->|]; [rewrite (p_root _ _ _ _ T); lia|]. pose proof (p_before _ _ _ _ T i). lia.
Qed.

Lemma find_up_spec d f fuel n :
  doc_ok d -> -1 <= n < node_count d -> n + 1 < Z.of_nat fuel ->
  exists r, find_up fuel (nodes d) n f = Some r /\
    match r with Some x => exists i, 0 <= i < node_count d /\ rd (nodes d) i = Some x | None => True end.
Proof.
  intros Hd. revert n. induction fuel as [|k IH]; intros n Hn Hf; [lia|]. cbn [find_up].
  case_if; [by exists None|]. destruct (node_at d n Hd) as [x Hx]; [lia|]. rewrite Hx. cbn [mbind option_bind].
  case_if; [exists (Some x); split; [done|]; exists n; split; [lia|done]|].
  pose proof (parent_before d n x Hd ltac:(lia) Hx). apply IH; lia.
Qed.

Lemma up_spec d n f : doc_ok d -> 0 <= n < node_count d -> exists r, up d n f = Some r /\
  match r with Some x => exists i, 0 <= i < node_count d /\ rd (nodes d) i = Some x | None => True end.
Proof. intros Hd Hn. destruct (d_tree _ Hd) as (_ & N & _). apply find_up_spec; [done|lia|].
  change (Z.of_nat _) with 385. lia.
Qed.

Lemma inh_spec d n t : doc_ok d -> 0 <= n < node_count d -> exists b, inh d n t = Some b.
Proof. intros Hd Hn. unfold inh. destruct (up_spec d n (fun x => tag x =? t) Hd Hn) as (r & -> & _). by eexists. Qed.

Lemma link_spec d n : doc_ok d -> 0 <= n < node_count d -> exists l, link d n = Some l /\
  match l with Some x => range_ok (text_used d) (n_href x) | None => True end.
Proof.
  intros Hd Hn. destruct (up_spec d n (fun x => (tag x =? ASTER_TAG_A) && negb (rlen (n_href x) =? 0)) Hd Hn) as (r & E & R).
  exists r. split; [done|]. destruct r as [x|]; [|done]. destruct R as (i & Hi & Hx). by apply (d_nodes _ Hd i).
Qed.

(** ** The text *)

Lemma text_at d i : doc_ok d -> 0 <= i < text_used d -> exists c, rd (text d) i = Some c.
Proof. intros Hd Hi. destruct (d_text _ Hd) as [L U]. apply rd_is_Some. lia. Qed.

Lemma same_text_some d n a b :
  doc_ok d -> 0 <= a -> 0 <= b -> a + Z.of_nat n <= text_used d -> b + Z.of_nat n <= text_used d ->
  exists r, same_text n (text d) a b = Some r.
Proof.
  intros Hd. revert a b. induction n as [|n IH]; intros a b Ha Hb Ea Eb; [by eexists|]. cbn [same_text].
  destruct (text_at d a Hd) as [x ->]; [lia|]. destruct (text_at d b Hd) as [y ->]; [lia|]. cbn [mbind option_bind].
  case_if; [by eexists|]. apply IH; lia.
Qed.

(** A scan stays in its range, and stops before the end only at a character that fails
    the test. *)
Lemma scan_spec d o f k p :
  doc_ok d -> 0 <= o + p -> o + p + Z.of_nat k <= text_used d ->
  exists q, scan k (text d) o p f = Some q /\ p <= q <= p + Z.of_nat k /\
    (q < p + Z.of_nat k -> exists c, rd (text d) (o + q) = Some c /\ f c = false) /\
    (forall c, (0 < k)%nat -> rd (text d) (o + p) = Some c -> f c = true -> p < q).
Proof.
  intros Hd. revert p. induction k as [|k IH]; intros p Hp Hk; cbn [scan].
  { exists p. split; [done|]. split; [lia|]. split; lia. }
  destruct (text_at d (o + p) Hd) as [c Hc]; [lia|]. rewrite Hc. cbn [mbind option_bind]. destruct (f c) eqn:Ef.
  - destruct (IH (p + 1)) as (q & -> & Q & S & _); [lia|lia|]. exists q. split; [done|]. split; [lia|]. split; [|lia].
    intros Hq. apply S. lia.
  - exists p. split; [done|]. split; [lia|]. split; [by exists c|]. intros x _ Hx. congruence.
Qed.

(** Two scans, for a test and for its negation: what a turn over words passes. *)
Lemma scan_word d o f n p :
  doc_ok d -> 0 <= o -> 0 <= p < n -> o + n <= text_used d ->
  exists a q, scan (Z.to_nat (n - p)) (text d) o p f = Some a /\ p <= a <= n /\
    scan (Z.to_nat (n - a)) (text d) o a (fun c => negb (f c)) = Some q /\ a <= q <= n /\ p < q /\ (a < n -> a < q).
Proof.
  intros Hd Ho Hp Hn. destruct (scan_spec d o f (Z.to_nat (n - p)) p Hd) as (a & Ea & A & S & F); [lia|lia|].
  destruct (scan_spec d o (fun c => negb (f c)) (Z.to_nat (n - a)) a Hd) as (q & Eq & Q & _ & G); [lia|lia|].
  exists a, q. split; [done|]. split; [lia|]. split; [done|]. split; [lia|].
  assert (H : a < n -> a < q). { intros Ha. destruct S as (c & Hc & Hf); [lia|]. apply (G c); [lia|done|by rewrite Hf]. }
  split; [|done]. destruct (decide (a = p)) as [->|]; [apply H; lia|lia].
Qed.

(** ** The cascade *)

Lemma class_loop_some fuel d c sel p :
  doc_ok d -> range_ok (text_used d) c -> range_ok (text_used d) sel -> 0 <= p <= rlen c -> rlen c - p < Z.of_nat fuel ->
  exists b, class_loop fuel d c sel p = Some b.
Proof.
  intros Hd (C1 & C2 & C3) (S1 & S2 & S3). revert p. induction fuel as [|f IH]; intros p Hp Hf; [lia|].
  cbn [class_loop]. case_if; [by eexists|].
  destruct (scan_word d (off c) sp (rlen c) p Hd) as (a & q & -> & A & Eq & Q & P & _); [lia|lia|lia|]. cbn [mbind option_bind].
  rewrite Eq. cbn [mbind option_bind]. case_if.
  - destruct (same_text_some d (Z.to_nat (q - a)) (off c + a) (off sel) Hd) as [[] ->]; try lia; cbn [mbind option_bind];
      [by eexists|apply IH; lia].
  - cbn [mbind option_bind]. apply IH; lia.
Qed.

Lemma matches_some d r x :
  doc_ok d -> range_ok (text_used d) (r_selector r) -> content_ok (text_used d) x -> exists b, matches d r x = Some b.
Proof.
  intros Hd Hr [_ _ _ (I1 & I2 & I3) Cc]. unfold matches, hasclass, teq. repeat (case_if; [by eexists|]).
  case_if; [case_if; [by eexists|]; apply class_loop_some; (done || lia || (destruct Cc as (_ & ? & _); lia))|].
  case_if; [|by eexists]. case_if; [by eexists|]. case_if; [by eexists|]. bool_prop.
  destruct Hr as (? & ? & ?). apply same_text_some; (done || lia).
Qed.

Lemma rules_loop_some d x n i k :
  doc_ok d -> content_ok (text_used d) x -> 0 <= i -> i + Z.of_nat n <= css_count d ->
  exists k', rules_loop n i d x k = Some k'.
Proof.
  intros Hd Hx. revert i k. induction n as [|n IH]; intros i k Hi Hn; [by eexists|]. cbn [rules_loop].
  destruct (d_css _ Hd) as (L & C & R). destruct (rd_is_Some (css d) i) as [r Hr]; [lia|]. rewrite Hr. cbn [mbind option_bind].
  destruct (matches_some d r x Hd) as [b ->]; [apply (R i); (done || lia)|done|]. cbn [mbind option_bind]. apply IH; lia.
Qed.

Lemma rules_some d x st : doc_ok d -> content_ok (text_used d) x -> exists st', rules d x st = Some st'.
Proof.
  intros Hd Hx. unfold rules. destruct (d_css _ Hd) as (L & C & R).
  destruct (rules_loop_some d x (Z.to_nat (css_count d)) 0 (mk_cascade 0 (-1) 0 (-1) st) Hd Hx) as [k ->]; [lia|lia|]. by eexists.
Qed.

Lemma chain_some d k n acc :
  doc_ok d -> -1 <= n < node_count d -> Forall (content_ok (text_used d)) acc ->
  exists l, chain k (nodes d) n acc = Some l /\ Forall (content_ok (text_used d)) l.
Proof.
  intros Hd. revert n acc. induction k as [|k IH]; intros n acc Hn Ha; cbn [chain]; [by eexists|].
  case_if; [by eexists|]. destruct (node_at d n Hd) as [x Hx]; [lia|]. rewrite Hx. cbn [mbind option_bind].
  pose proof (parent_before d n x Hd ltac:(lia) Hx). apply IH; [lia|]. constructor; [|done]. apply (d_nodes _ Hd n); (done || lia).
Qed.

Lemma chain_style_some d l st : doc_ok d -> Forall (content_ok (text_used d)) l -> exists st', chain_style d l st = Some st'.
Proof.
  intros Hd Hl. revert st. induction Hl as [|q l Hq _ IH]; intros st; [by eexists|]. cbn [chain_style].
  destruct (rules_some d q st Hd Hq) as [st' ->]. apply IH.
Qed.

Lemma resolved_some d n : doc_ok d -> 0 <= n < node_count d -> exists st, resolved d n = Some st.
Proof.
  intros Hd Hn. unfold resolved. do 5 (match goal with |- context [inh d n ?t] => destruct (inh_spec d n t Hd Hn) as [? ->]; cbn [mbind option_bind] end).
  destruct (chain_some d 48 n [] Hd) as (l & -> & Hl); [lia|constructor|]. by apply chain_style_some.
Qed.

Lemma hidden_some d n : doc_ok d -> 0 <= n < node_count d -> exists b, hidden d n = Some b.
Proof.
  intros Hd Hn. unfold hidden. do 4 (match goal with |- context [inh d n ?t] => destruct (inh_spec d n t Hd Hn) as [? ->]; cbn [mbind option_bind] end).
  case_if; [by eexists|]. destruct (resolved_some d n Hd Hn) as [st ->]. by eexists.
Qed.

(** ** Painting *)

Section painting.
(** The width of the page. *)
Context (W : Z).

Definition short16 (z : Z) : Prop := -32768 <= z <= 32767.

(** The strings of an item are text in use, its place is kept in 16 bits, and a picture
    is no wider than the page before that. *)
Record item_ok (u : Z) (i : AsterPaintItem) : Prop := {
  it_text : range_ok u (i_text i); it_href : range_ok u (i_href i); it_src : range_ok u (i_src i);
  it_place : short16 (i_x i) /\ short16 (i_y i) /\ short16 (i_w i) /\ short16 (i_h i);
  it_picture : Z.land (i_flags i) ASTER_PAINT_IMAGE <> 0 ->
    (exists w, i_w i = s16 w /\ 0 <= w <= W) /\ 0 <= i_h i <= 360
}.

Lemma s16_range z : short16 (s16 z).
Proof. unfold s16, short16. pose proof (Z.mod_pos_bound (z + 32768) 65536 ltac:(lia)). lia. Qed.
Lemma s16_id z : short16 z -> s16 z = z.
Proof. unfold s16, short16. intros H. rewrite Z.mod_small; lia. Qed.

Definition paint_ok (d : AsterDocument) : Prop :=
  length (paint d) = 512%nat /\ 0 <= paint_count d <= 512 /\
  forall k i, 0 <= k < paint_count d -> rd (paint d) k = Some i -> item_ok (text_used d) i.

(** The document with other items. *)
Definition painted (d d' : AsterDocument) : Prop := exists p c, d' = set_paint p c d /\ paint_ok d'.

Lemma painted_doc d d' : doc_ok d -> painted d d' ->
  doc_ok d' /\ nodes d' = nodes d /\ node_count d' = node_count d /\ text_used d' = text_used d.
Proof. intros [] (p & c & -> & P & _). by split. Qed.

Lemma emit_ok d0 d x y w h sc fl col t l src :
  painted d0 d -> range_ok (text_used d0) t -> range_ok (text_used d0) src ->
  match l with Some n => range_ok (text_used d0) (n_href n) | None => 0 <= text_used d0 end ->
  (Z.land fl ASTER_PAINT_IMAGE <> 0 -> 0 <= w <= W /\ 0 <= h <= 360) ->
  exists d', emit d x y w h sc fl col t l src = Some d' /\ painted d0 d'.
Proof.
  intros (p & c & -> & P1 & P2 & P3) Ht Hs Hl Hsize. unfold emit, ASTER_MAX_PAINT. cbn [paint paint_count text_used set_paint] in *.
  case_if; [eexists; split; [done|]; exists p, c; done|].
  destruct (wr p c _) as [p'|] eqn:Ew; [|by rewrite wr_Some in Ew by lia]. cbn [mbind option_bind].
  eexists. split; [done|]. exists p', (c + 1). split; [done|]. pose proof (wr_length _ _ _ _ Ew) as L.
  split; [cbn; lia|]. split; [cbn; lia|]. cbn [paint paint_count text_used set_paint]. intros k i Hk.
  destruct (decide (k = c)) as [->|Hne].
  - rewrite (rd_wr_eq _ _ _ _ Ew). intros [= <-]. split; cbn.
    + done.
    + destruct l; [done|by apply no_range_ok].
    + done.
    + by repeat split; apply s16_range.
    + intros Hfl. destruct (Hsize Hfl) as [S1 S2]. split; [by exists w|]. rewrite s16_id by (unfold short16; lia). done.
  - rewrite (rd_wr_ne _ _ _ _ _ Ew) by congruence. apply P3. lia.
Qed.

(** A pen over the document: right of the edge and within [lim], and lower than it was
    by at most [n]. *)
Record drawn (d0 : AsterDocument) (lim : Z) (w : pen) (n : Z) (w' : pen) : Prop := {
  dr_page : painted d0 (page w');
  dr_x : 0 <= cx w' <= lim;
  dr_y : cy w <= cy w' <= cy w + n
}.

Lemma drawn_trans d0 lim w1 m w2 n w3 : drawn d0 lim w1 m w2 -> drawn d0 lim w2 n w3 -> drawn d0 lim w1 (m + n) w3.
Proof. intros [] []. split; [done|done|lia]. Qed.

Lemma drawn_more d0 lim w m n w' : drawn d0 lim w m w' -> m <= n -> drawn d0 lim w n w'.
Proof. intros [] H. split; [done|done|lia]. Qed.

Lemma drawn_refl d0 lim w : painted d0 (page w) -> 0 <= cx w <= lim -> drawn d0 lim w 0 w.
Proof. intros. split; [done|done|lia]. Qed.

(** The pen moved to an edge and down, or left where it is. *)
Lemma drawn_move d0 lim w (b : bool) x n :
  painted d0 (page w) -> 0 <= cx w <= lim -> 0 <= x <= lim -> 0 <= n ->
  drawn d0 lim w n (if b then mk_pen (page w) x (cy w + n) else w).
Proof. intros. destruct b; (split; [done|done|cbn; lia]). Qed.

(** The same, behind what was drawn before. *)
Lemma drawn_then d0 lim w m w1 (b : bool) x n :
  drawn d0 lim w m w1 -> 0 <= x <= lim -> 0 <= n ->
  drawn d0 lim w (m + n) (if b then mk_pen (page w1) x (cy w1 + n) else w1).
Proof. intros D Hx Hn. eapply drawn_trans; [exact D|]. destruct D. by apply drawn_move. Qed.

(** The widest run of characters, and a blank. *)
Definition word_max : Z := 24 * 24576.

Lemma word_size sc n : 0 <= n <= 24575 -> 0 <= n * cw sc /\ n * cw sc + cw sc <= word_max /\ 0 < cw sc <= 24 /\ 0 < lh sc <= 52.
Proof. unfold cw, lh, word_max. intros Hn. repeat case_if; lia. Qed.

Lemma words_ok fuel d0 r p st fl col l left right lim w :
  doc_ok d0 -> range_ok (text_used d0) r ->
  match l with Some n => range_ok (text_used d0) (n_href n) | None => True end -> Z.land fl ASTER_PAINT_IMAGE = 0 ->
  0 <= left <= right -> right + word_max <= lim -> 0 <= p -> p <= rlen r -> rlen r - p < Z.of_nat fuel ->
  painted d0 (page w) -> 0 <= cx w <= lim ->
  exists w', words fuel r p st fl col l left right w = Some w' /\ drawn d0 lim w (52 * (rlen r - p)) w'.
Proof.
  intros Hd (R1 & R2 & R3) Hl Hfl Hedge Hlim. revert p w. induction fuel as [|f IH]; intros p w Hp Hpr Hf Hw Hx; [lia|]. cbn [words].
  case_if; [exists w; split; [done|]; apply (drawn_more _ _ _ 0); [by apply drawn_refl|lia]|].
  destruct (painted_doc _ _ Hd Hw) as (Hd' & _ & _ & U). pose proof (d_text _ Hd) as [_ HU].
  destruct (scan_word (page w) (off r) (fun c => c =? SP) (rlen r) p Hd') as (a & q & -> & A & Eq & Q & P & Aq); [lia|lia|lia|].
  cbn [mbind option_bind]. case_if; [exists w; split; [done|]; apply (drawn_more _ _ _ 0); [by apply drawn_refl|lia]|].
  rewrite Eq. cbn [mbind option_bind]. destruct (word_size (scale st) (q - a)) as (W1 & W2 & W3 & W4); [lia|].
  set (wraps := (left <? cx w) && (right <? cx w + (q - a) * cw (scale st))) in *.
  set (xy := if wraps then (left, cy w + lh (scale st)) else (cx w, cy w)).
  assert (Hxy : 0 <= fst xy /\ fst xy + (q - a) * cw (scale st) + cw (scale st) <= lim /\ cy w <= snd xy <= cy w + 52).
  { unfold xy, wraps. destruct (left <? cx w) eqn:E1; [destruct (right <? cx w + (q - a) * cw (scale st)) eqn:E2|];
      cbn [andb fst snd]; lia. }
  destruct xy as [x y]. cbn [fst snd] in Hxy.
  destruct (emit_ok d0 (page w) x y ((q - a) * cw (scale st)) (lh (scale st)) (scale st) fl col
    (mk_range (u16 (off r + a)) (u16 (q - a))) l no_range Hw) as (d' & -> & P').
  { rewrite !u16_id by lia. unfold range_ok. cbn. lia. }
  { apply no_range_ok. lia. }
  { destruct l; [done|lia]. }
  { done. }
  cbn [mbind option_bind]. destruct (IH q (mk_pen d' (x + (q - a) * cw (scale st) + cw (scale st)) y)) as (w' & -> & D);
    [lia|lia|lia|done|cbn; lia|].
  exists w'. split; [done|]. destruct D as [D1 D2 D3]. split; [done|done|]. cbn in D3. lia.
Qed.

Lemma textnode_ok d0 w n x left width lim :
  doc_ok d0 -> painted d0 (page w) -> 0 <= n < node_count d0 -> rd (nodes d0) n = Some x ->
  0 <= left -> 0 <= width -> left + width + word_max <= lim -> 0 <= cx w <= lim ->
  exists w', textnode w n left width = Some w' /\ drawn d0 lim w (52 * 24575) w'.
Proof.
  intros Hd Hw Hn Hx Hl Hwd Hlim Hcx. destruct (painted_doc _ _ Hd Hw) as (Hd' & N & C & U). unfold textnode.
  rewrite N, Hx. cbn [mbind option_bind]. destruct (resolved_some (page w) n Hd') as [st ->]; [lia|]. cbn [mbind option_bind].
  destruct (link_spec (page w) n Hd') as (l & -> & Hlk); [lia|]. cbn [mbind option_bind]. rewrite U in Hlk.
  pose proof (d_nodes _ Hd n x Hn Hx) as [Ht _ _ _ _ _]. pose proof (d_text _ Hd) as [_ HU]. pose proof Ht as (? & ? & ?).
  match goal with |- context [words ?f ?r ?p ?st ?fl ?col _ _ _ ?w1] =>
    destruct (words_ok f d0 r p st fl col l left (left + width) lim w1 Hd Ht Hlk) as (w' & -> & D) end;
    [by repeat case_if; destruct l|lia|lia|lia|lia|lia|done|cbn; case_if; unfold word_max in *; lia|].
  exists w'. split; [done|]. apply (drawn_more _ _ _ (52 * (rlen (n_text x) - 0))); [|lia].
  destruct D as [D1 D2 D3]. by split.
Qed.

Lemma image_ok d0 w n x left width lim :
  doc_ok d0 -> painted d0 (page w) -> 0 <= n < node_count d0 -> rd (nodes d0) n = Some x ->
  0 <= left <= lim -> 0 <= width <= W ->
  exists w', image w n x left width = Some w' /\ drawn d0 lim w 372 w'.
Proof.
  intros Hd Hw Hn Hx Hl Hwd. destruct (painted_doc _ _ Hd Hw) as (Hd' & N & C & U). unfold image.
  pose proof (d_nodes _ Hd n x Hn Hx) as [Ht _ Hs _ _ [Hw' Hh]]. pose proof (d_text _ Hd) as [_ HU].
  destruct (link_spec (page w) n Hd') as (l & -> & Hlk); [lia|]. cbn [mbind option_bind]. rewrite U in Hlk.
  set (ih := if negb (height_hint x =? 0) then height_hint x else 180). set (ih' := if 360 <? ih then 360 else ih).
  assert (Hih : 0 <= ih' <= 360) by (unfold ih', ih; repeat case_if; lia).
  set (iw := if negb (width_hint x =? 0) then width_hint x else if 320 <? width then 320 else width).
  assert (Hiw : 0 <= (if width <? iw then width else iw) <= W) by (unfold iw; repeat case_if; lia).
  match goal with |- context [emit _ ?x ?y ?w1 ?h1 ?sc ?fl ?col ?t _ ?src] =>
    destruct (emit_ok d0 (page w) x y w1 h1 sc fl col t l src Hw Ht Hs) as (d' & -> & P') end; [destruct l; [done|lia]|done|].
  cbn [mbind option_bind]. eexists. split; [done|]. split; [done|done|cbn; lia].
Qed.

(** ** The walk *)

(** The nodes from [n] up to [hi] are [n] and those below it. *)
Record span (p : Z -> Z) (count n hi : Z) : Prop := {
  sp_range : 0 <= n < hi /\ hi <= count;
  sp_below j : n < j < hi -> n <= p j;
  sp_end : hi = count \/ p hi < n
}.

(** A child, and the next one: what lies between is below the first. *)
Lemma span_child p f s count n hi c :
  preorder p f s count -> span p count n hi -> n < c < hi -> p c = n ->
  exists hi', span p count c hi' /\ (s c < 0 /\ hi' = hi \/ s c = hi' /\ hi' < hi /\ p hi' = n).
Proof.
  intros T [(N & H) B E] Hc Hp.
  assert (Hdown : forall j, c < j < count -> n <= p j -> p j <> n -> c <= p j).
  { intros j Hj Hpj Hne. destruct (Z.le_gt_cases c (p j)) as [|Hlt]; [done|]. pose proof (p_between _ _ _ _ T j c). lia. }
  destruct (p_next _ _ _ _ T c) as [[S1 S2]|(S1 & S2 & S3)]; [lia| |].
  - exists hi. split; [|left; split; [lia|done]]. split; [lia| |lia]. intros j Hj. apply Hdown; [lia|apply B; lia|].
    rewrite <- Hp. apply S2. lia.
  - assert (Hs : s c < hi).
    { destruct E as [->|E]; [lia|]. destruct (Z.lt_trichotomy (s c) hi) as [|[Heq|Hgt]]; [done|rewrite Heq in *; lia|].
      pose proof (p_between _ _ _ _ T (s c) hi). lia. }
    exists (s c). split; [|right; split; [done|split; [done|lia]]]. split; [lia| |lia].
    intros j Hj. apply Hdown; [lia|apply B; lia|]. rewrite <- Hp. by apply S3.
Qed.

Lemma span_first p f s count n hi :
  preorder p f s count -> span p count n hi -> 0 <= f n -> f n = n + 1 /\ n + 1 < hi /\ p (n + 1) = n.
Proof.
  intros T [(N & H) B E]. rewrite (p_first _ _ _ _ T) by lia. destruct (n + 1 <? count) eqn:E1; cbn [andb]; [|lia].
  destruct (p (n + 1) =? n) eqn:E2; [|lia]. bool_prop. split; [done|]. split; [|done].
  destruct E as [->|E]; [lia|]. destruct (decide (hi = n + 1)) as [->|]; lia.
Qed.

(** What a node adds to the height: its spaces, its words, its picture. *)
Definition enter_max : Z := 24 + 8 + 52 * 24575 + 24 + 12 + 372.
Definition node_max : Z := enter_max + 20.

Lemma enter_ok d0 w n x left width lim :
  doc_ok d0 -> painted d0 (page w) -> 0 <= n < node_count d0 -> rd (nodes d0) n = Some x ->
  0 <= left -> 0 <= width <= W -> left + width + word_max <= lim -> 0 <= cx w <= lim ->
  exists w' cl cw2, enter w n x left width = Some (w', cl, cw2) /\ drawn d0 lim w enter_max w' /\
    left <= cl <= left + 28 /\ 0 <= cw2 <= width.
Proof.
  intros Hd Hw Hn Hx Hl Hwd Hlim Hcx. unfold enter.
  assert (Hle : 0 <= left <= lim) by (unfold word_max in *; lia).
  pose proof (drawn_move d0 lim w (block (tag x) && negb (cx w =? left)) left 24 Hw Hcx Hle ltac:(lia)) as D1.
  set (w1 := if block (tag x) && negb (cx w =? left) then _ else w) in *. clearbody w1.
  pose proof (drawn_then _ _ _ _ _ (spaced (tag x)) (cx w1) 8 D1 ltac:(apply D1) ltac:(lia)) as D2. clear D1.
  set (w2 := if spaced (tag x) then _ else w1) in *. clearbody w2. clear w1.
  set (triple := if tag x =? ASTER_TAG_LI then _ else _).
  assert (Ht : let '(w3, cl, cw2) := triple in drawn d0 lim w (24 + 8) w3 /\ left <= cl <= left + 28 /\ 0 <= cw2 <= width).
  { unfold triple. destruct D2 as [? ? ?]. unfold word_max in *.
    repeat case_if; (split; [split; [done|cbn; lia|cbn; lia]|lia]). }
  destruct triple as [[w3 cl] cw2]. destruct Ht as (D3 & Hcl & Hcw).
  assert (D4 : exists w4, (if type x =? ASTER_NODE_TEXT then textnode w3 n left width else Some w3) = Some w4 /\
    drawn d0 lim w (24 + 8 + 52 * 24575) w4).
  { pose proof D3 as [Q1 Q2 _]. case_if.
    - destruct (textnode_ok d0 w3 n x left width lim) as (w4 & -> & D); try (done || lia). exists w4. split; [done|]. by eapply drawn_trans.
    - exists w3. split; [done|]. by apply (drawn_more _ _ _ (24 + 8)). }
  destruct D4 as (w4 & -> & D4). cbn [mbind option_bind].
  pose proof (drawn_then _ _ _ _ _ (tag x =? ASTER_TAG_BR) left 24 D4 Hle ltac:(lia)) as D5.
  set (w5 := if tag x =? ASTER_TAG_BR then _ else w4) in *. clearbody w5.
  pose proof (drawn_then _ _ _ _ _ (tag x =? ASTER_TAG_HR) left 12 D5 Hle ltac:(lia)) as D6.
  set (w6 := if tag x =? ASTER_TAG_HR then _ else w5) in *.
  clearbody w6. pose proof D6 as [Q1 Q2 _]. case_if.
  - destruct (image_ok d0 w6 n x left width lim) as (w7 & -> & D); try (done || unfold word_max in *; lia).
    cbn [mbind option_bind]. exists w7, cl, cw2. split; [done|]. split; [|done]. by eapply drawn_trans.
  - cbn [mbind option_bind]. exists w6, cl, cw2. split; [done|]. split; [|done]. by apply (drawn_more _ _ _ _ _ _ D6).
Qed.

Section walking.
Context (d0 : AsterDocument).
Context (Hdoc : doc_ok d0).

Definition pen_max : Z := 28 * 384 + W + word_max.
Definition spanned (n hi : Z) : Prop := span (par (nodes d0)) (node_count d0) n hi.

(** The children from [c] on, each walked as [walk1] does. *)
Lemma kids_ok walk1 k n hi w c :
  (forall w c hi, spanned c hi -> n < c -> painted d0 (page w) -> 0 <= cx w <= pen_max ->
    exists w', walk1 w c = Some w' /\ drawn d0 pen_max w (node_max * (hi - c)) w') ->
  spanned n hi -> n < c <= hi -> (c < hi -> par (nodes d0) c = n) -> hi - c < Z.of_nat k ->
  painted d0 (page w) -> 0 <= cx w <= pen_max ->
  exists w', kids walk1 k w (if c <? hi then c else -1) = Some w' /\ drawn d0 pen_max w (node_max * (hi - c)) w'.
Proof.
  intros Hwalk Hs. revert w c. induction k as [|k IH]; intros w c Hc Hp Hk Hw Hx; [lia|]. cbn [kids].
  destruct (Z.ltb_spec c hi) as [Hlt|Hge].
  2:{ change (-1 <? 0) with true. cbv iota. exists w. split; [done|].
      apply (drawn_more _ _ _ 0); [by apply drawn_refl|]. replace c with hi by lia. lia. }
  pose proof Hs as [(N & C) _ _]. if_false. destruct (d_tree _ Hdoc) as (_ & _ & T).
  destruct (span_child _ _ _ _ _ _ _ T Hs (conj (proj1 Hc) Hlt) (Hp Hlt)) as (hi' & Hs' & Hn).
  destruct (Hwalk w c hi' Hs' ltac:(lia) Hw Hx) as (w1 & -> & D1). cbn [mbind option_bind].
  pose proof D1 as [Q1 Q2 _]. destruct (painted_doc _ _ Hdoc Q1) as (_ & -> & _ & _).
  destruct (node_at d0 c Hdoc) as [x Hxc]; [lia|]. rewrite Hxc. cbn [mbind option_bind]. rewrite <- (node_ns _ _ _ Hxc).
  assert (Hhi : c < hi' <= hi) by (destruct Hs' as [? _ _]; lia).
  destruct (IH w1 hi') as (w2 & E & D2); [lia| |lia|done|done|].
  { intros Hlt'. destruct Hn as [[_ ->]|(_ & _ & Hn)]; [lia|done]. }
  assert (Hnext : kids walk1 k w1 (ns (nodes d0) c) = kids walk1 k w1 (if hi' <? hi then hi' else -1)).
  { destruct Hn as [[Hneg ->]|(-> & Hlt' & _)]; [|by if_true]. rewrite Z.ltb_irrefl.
    destruct k as [|k']; [done|]. cbn [kids]. by if_true. }
  exists w2. rewrite Hnext. split; [done|]. eapply drawn_more; [by eapply drawn_trans|]. lia.
Qed.

Lemma walk_ok fuel n hi w left width :
  spanned n hi -> node_count d0 - n < Z.of_nat fuel -> painted d0 (page w) -> 0 <= cx w <= pen_max ->
  0 <= left <= 28 * n -> 0 <= width <= W ->
  exists w', walk fuel w n left width = Some w' /\ drawn d0 pen_max w (node_max * (hi - n)) w'.
Proof.
  revert n hi w left width. induction fuel as [|f IH]; intros n hi w left width Hs Hf Hw Hx Hl Hwd;
    pose proof Hs as [(N & C) _ _]; [lia|]. cbn [walk]. if_false.
  destruct (painted_doc _ _ Hdoc Hw) as (Hd' & -> & C' & _). assert (Hn : 0 <= n < node_count d0) by lia.
  destruct (d_tree _ Hdoc) as (_ & Cn & T).
  destruct (hidden_some (page w) n Hd') as [h ->]; [lia|]. cbn [mbind option_bind]. unfold node_max, enter_max in *.
  case_if; [exists w; split; [done|]; apply (drawn_more _ _ _ 0); [by apply drawn_refl|lia]|].
  destruct (node_at d0 n Hdoc Hn) as [x Hxn]. rewrite Hxn. cbn [mbind option_bind].
  destruct (enter_ok d0 w n x left width pen_max) as (w1 & cl & cw2 & -> & D1 & Hcl & Hcw); try (done || unfold pen_max; lia).
  cbn [mbind option_bind]. pose proof D1 as [Q1 Q2 _].
  destruct (kids_ok (fun w c => walk f w c cl cw2) (S (Z.to_nat ASTER_MAX_NODES)) n hi w1
    (if 0 <=? fc (nodes d0) n then n + 1 else hi)) as (w2 & Ek & D2); [| | |..].
  - intros w' c hi' Hs' Hc Hw' Hx'. apply IH; (done || lia).
  - done.
  - case_if; [|lia]. destruct (span_first _ _ _ _ _ _ T Hs) as (_ & ? & _); lia.
  - case_if; [|lia]. intros _. by destruct (span_first _ _ _ _ _ _ T Hs) as (_ & _ & ?).
  - change (Z.of_nat _) with 385. case_if; lia.
  - done.
  - done.
  - assert (Hfirst : kids (fun w c => walk f w c cl cw2) (S (Z.to_nat ASTER_MAX_NODES)) w1 (first_child x) = Some w2).
    { rewrite <- (node_fc _ _ _ Hxn), <- Ek. destruct (0 <=? fc (nodes d0) n) eqn:Ef.
      - destruct (span_first _ _ _ _ _ _ T Hs) as (-> & ? & _); [lia|]. by if_true.
      - rewrite Z.ltb_irrefl. cbn [kids]. by if_true. }
    rewrite Hfirst. cbn [mbind option_bind]. eexists. split; [done|].
    assert (Hsp : 0 <= space_after (tag x) <= 20) by (unfold space_after; repeat case_if; lia).
    eapply drawn_more; [apply (drawn_then d0 pen_max w _ w2 _ left (space_after (tag x)) (drawn_trans _ _ _ _ _ _ _ D1 D2))|];
      [unfold pen_max, word_max in *; lia|lia|].
    unfold node_max, enter_max in *. case_if; lia.
Qed.
End walking.
End painting.

Lemma layout_ok d width :
  doc_ok d -> width <= 2 ^ 30 ->
  exists d', aster_layout d width = Some d' /\ doc_ok d' /\ paint_ok (Z.max 120 width) d' /\
    nodes d' = nodes d /\ node_count d' = node_count d /\ text d' = text d /\ 32 <= document_height d' < 2 ^ 29.
Proof.
  intros Hd Hw. unfold aster_layout. set (width' := if width <? 120 then 120 else width).
  assert (Hw' : width' = Z.max 120 width) by (unfold width'; case_if; lia). rewrite <- Hw'.
  assert (Hr : 0 <= width' <= 2 ^ 30) by lia. clear Hw'. clearbody width'.
  destruct (d_tree _ Hd) as (_ & N & T).
  destruct (walk_ok width' d Hd (S (Z.to_nat ASTER_MAX_NODES)) 0 (node_count d)
    (mk_pen (set_paint (paint d) 0 d) 0 0) 0 width') as (w & -> & [(p & c & Ep & P) _ Hy]); try lia.
  - split; [lia| |by left]. intros j Hj. pose proof (p_before _ _ _ _ T j). lia.
  - change (Z.of_nat _) with 385. lia.
  - exists (paint d), 0. split; [done|]. split; [apply (d_paint _ Hd)|]. split; [cbn; lia|]. cbn. lia.
  - unfold pen_max, word_max. cbn [cx]. lia.
  - cbn [mbind option_bind]. eexists. split; [reflexivity|]. destruct w as [pg x y]. cbn [page cy] in *. subst pg.
    unfold node_max, enter_max in Hy. destruct Hd. split; [by split; try done; apply P|]. split; [exact P|].
    split; [done|]. split; [done|]. split; [done|]. cbn [document_height set_height]. lia.
Qed.

(** ** Links *)

(** The point is on an item that belongs to a link. *)
Definition hit (x y : Z) (i : AsterPaintItem) : Prop :=
  rlen (i_href i) <> 0 /\ i_x i <= x < i_x i + i_w i /\ i_y i <= y < i_y i + i_h i.

(** The address of an item, cut to an array of [cap] characters. *)
Definition address_of (d : AsterDocument) (cap : Z) (i : AsterPaintItem) : bytes :=
  text_of (slice (text d) (off (i_href i)) (Z.min (cap - 1) (rlen (i_href i)))).

Lemma copied_some d r cap :
  doc_ok d -> range_ok (text_used d) r -> 0 < cap ->
  copied d r cap = Some (text_of (slice (text d) (off r) (Z.min (cap - 1) (rlen r)))).
Proof.
  intros Hd (R1 & R2 & R3) Hc. destruct (d_text _ Hd) as [L U]. unfold copied.
  replace (if cap <=? rlen r then cap - 1 else rlen r) with (Z.min (cap - 1) (rlen r)) by (case_if; lia).
  rewrite rd_bytes_Some by lia. done.
Qed.

Lemma link_loop_spec W k d x y cap :
  doc_ok d -> paint_ok W d -> 0 < cap -> Z.of_nat k <= paint_count d ->
  exists r, link_loop k d x y cap = Some r /\
    match r with
    | None => forall j i, 0 <= j < Z.of_nat k -> rd (paint d) j = Some i -> ~ hit x y i
    | Some u => exists j i, 0 <= j < Z.of_nat k /\ rd (paint d) j = Some i /\ hit x y i /\ u = address_of d cap i /\
        forall j' i', j < j' < Z.of_nat k -> rd (paint d) j' = Some i' -> ~ hit x y i'
    end.
Proof.
  intros Hd (P1 & P2 & P3) Hc. induction k as [|k IH]; intros Hk; [exists None; split; [done|]; intros; lia|]. cbn [link_loop].
  destruct (rd_is_Some (paint d) (Z.of_nat k)) as [i Hi]; [lia|]. rewrite Hi. cbn [mbind option_bind].
  assert (Hmiss : ~ hit x y i -> exists r, link_loop k d x y cap = Some r /\
    match r with
    | None => forall j i, 0 <= j < Z.of_nat (S k) -> rd (paint d) j = Some i -> ~ hit x y i
    | Some u => exists j i, 0 <= j < Z.of_nat (S k) /\ rd (paint d) j = Some i /\ hit x y i /\ u = address_of d cap i /\
        forall j' i', j < j' < Z.of_nat (S k) -> rd (paint d) j' = Some i' -> ~ hit x y i'
    end).
  { intros Hno. destruct IH as (r & -> & R); [lia|]. exists r. split; [done|]. destruct r as [u|].
    - destruct R as (j & z & R1 & R2 & R3 & R4 & R5). exists j, z. split; [lia|]. do 3 (split; [done|]).
      intros j' i' Hj Hr. destruct (decide (j' = Z.of_nat k)) as [->|]; [congruence|]. apply (R5 j'); [lia|done].
    - intros j z Hj Hr. destruct (decide (j = Z.of_nat k)) as [->|]; [congruence|]. apply (R j); [lia|done]. }
  case_if; [apply Hmiss; intros (? & _); lia|]. case_if; [apply Hmiss; intros (_ & ? & ?); bool_prop; lia|].
  rewrite copied_some by (done || apply (P3 (Z.of_nat k)); (done || lia)). cbn [mbind option_bind].
  eexists. split; [reflexivity|]. exists (Z.of_nat k), i. split; [lia|]. split; [done|]. split; [unfold hit; lia|]. split; [done|].
  intros. lia.
Qed.

(** The address under a point of the page is that of the last painted item of a
    link that covers it, cut to the array of the caller; and there is none when no such
    item covers it. *)
Theorem aster_link_at_correct W d x y scroll cap :
  doc_ok d -> paint_ok W d -> 0 < cap ->
  exists r, aster_link_at d x y scroll cap = Some r /\
    match r with
    | None => forall j i, 0 <= j < paint_count d -> rd (paint d) j = Some i -> ~ hit x (y + scroll) i
    | Some u => exists j i, 0 <= j < paint_count d /\ rd (paint d) j = Some i /\ hit x (y + scroll) i /\
        u = address_of d cap i /\
        forall j' i', j < j' < paint_count d -> rd (paint d) j' = Some i' -> ~ hit x (y + scroll) i'
    end.
Proof.
  intros Hd Hp Hc. unfold aster_link_at. if_false. pose proof Hp as (_ & P & _).
  pose proof (link_loop_spec W (Z.to_nat (paint_count d)) d x (y + scroll) cap Hd Hp Hc) as H.
  rewrite Z2Nat.id in H by lia. by apply H.
Qed.

(** From the text of a page to a click: parsing, laying out at any width and
    looking for the link at any point end without an access outside the document, what
    is painted names text of the document, the page is at least 32 and less than 2^29
    pixels high, and the address found fits the array of the caller. *)
Theorem aster_page_safe stack d h width x y scroll cap :
  arrays_ok d -> length stack = 48%nat -> tame h -> Forall (fun c => c <> 0) h -> len h <= 24575 ->
  width <= 2 ^ 30 -> 0 < cap ->
  exists r d1 d2 u, aster_parse_html stack d h = Some (r, d1) /\ aster_layout d1 width = Some d2 /\
    doc_ok d2 /\ paint_ok (Z.max 120 width) d2 /\ 32 <= aster_document_height d2 < 2 ^ 29 /\
    aster_link_at d2 x y scroll cap = Some u /\ match u with Some t => fits cap t | None => True end.
Proof.
  intros Hd Hst Ht Hz Hl Hw Hc. destruct (page_parse_ok stack d h Hd Hst Ht Hz Hl) as (r & d1 & E1 & H1 & _).
  destruct (layout_ok d1 width H1 Hw) as (d2 & E2 & H2 & P2 & _ & _ & _ & Hh). exists r, d1, d2.
  unfold aster_link_at. if_false. pose proof P2 as (_ & P & R).
  destruct (link_loop_spec (Z.max 120 width) (Z.to_nat (paint_count d2)) d2 x (y + scroll) cap H2 P2 Hc) as (u & E3 & H3); [lia|].
  exists u. do 6 (split; [done|]). destruct u as [t|]; [|done].
  destruct H3 as (j & i & Hj & Hi & _ & -> & _). apply text_of_fits.
  destruct (R j i ltac:(lia) Hi) as [_ (? & ? & ?) _ _ _]. pose proof (d_text _ H2) as [L U].
  rewrite slice_length; lia.
Qed.

(** ** A click on the page of AsterWf *)
Module Click.
Import Page.

Lemma aster_page_safe_witness :
  exists r d1 d2 u, aster_parse_html (replicate 48 7) before html = Some (r, d1) /\ aster_layout d1 720 = Some d2 /\
    doc_ok d2 /\ paint_ok 720 d2 /\ 32 <= aster_document_height d2 < 2 ^ 29 /\
    aster_link_at d2 40 150 0 256 = Some u /\ match u with Some t => fits 256 t | None => True end.
Proof.
  apply (aster_page_safe (replicate 48 7) before html 720 40 150 0 256).
  - repeat split.
  - done.
  - apply tame_short. by apply (bool_decide_unpack _); vm_compute.
  - by apply (bool_decide_unpack _); vm_compute.
  - by apply (bool_decide_unpack _); vm_compute.
  - done.
  - done.
Defined.

Lemma laid_out : exists d, ('(_, d) ← aster_parse_html (replicate 48 7) before html; aster_layout d 720) = Some d /\
  doc_ok d /\ paint_ok 720 d.
Proof.
  destruct (page_parse_ok (replicate 48 7) before html) as (r & d1 & -> & H1 & _); [by repeat split|done| |by apply (bool_decide_unpack _); vm_compute..|].
  { apply tame_short. by apply (bool_decide_unpack _); vm_compute. }
  destruct (layout_ok d1 720 H1) as (d2 & E & H2 & P2 & _); [done|]. by exists d2.
Qed.

Lemma aster_link_at_correct_witness : exists d r,
  ('(_, d) ← aster_parse_html (replicate 48 7) before html; aster_layout d 720) = Some d /\
  aster_link_at d 40 40 0 256 = Some r /\
  match r with
  | None => forall j i, 0 <= j < paint_count d -> rd (paint d) j = Some i -> ~ hit 40 (40 + 0) i
  | Some u => exists j i, 0 <= j < paint_count d /\ rd (paint d) j = Some i /\ hit 40 (40 + 0) i /\
      u = address_of d 256 i /\
      forall j' i', j < j' < paint_count d -> rd (paint d) j' = Some i' -> ~ hit 40 (40 + 0) i'
  end.
Proof.
  destruct laid_out as (d & E & H1 & H2). exists d.
  destruct (aster_link_at_correct 720 d 40 40 0 256 H1 H2) as (r & H); [reflexivity|]. exists r. split; [exact E|exact H].
Defined.

(** What is painted, and the link under a point.  The heading is 52 pixels high, and
    the paragraph begins 28 below its top: leaving a block does not count its last
    line. *)
Example blocks_overlap :
  ('(_, d) ← aster_parse_html (replicate 48 7) before html;
   d ← aster_layout d 720;
   u ← aster_link_at d 40 40 0 256;
   Some (map (fun i => (slice (text d) (off (i_text i)) (rlen (i_text i)), i_x i, i_y i, i_w i, i_h i))
     (take (Z.to_nat (paint_count d)) (paint d)), document_height d, u)) =
  Some ([(chars "Hi", 0, 8, 48, 52); (chars "An", 0, 36, 22, 24); (chars "a&b", 33, 36, 33, 24);
    (chars "pic", 0, 44, 320, 180)], 308, Some (chars "/a")).
Proof. vm_compute. reflexivity. Qed.
End Click.
