(* ===== verification/DesktopText.v ===== *)
(** * Texts and numbers of the desktop (kernel/desktop.c, lines 55-58 and 107)

    Character arrays are the texts they hold, as in VelaText; [append] is the [cat] of
    the browser.  The decimal and hexadecimal forms of numbers are given with the
    values they are read back as. *)

From S2P Require Import Prelude Cstr VelaText.

(** [inside] *)
Definition inside (x y rx ry rw rh : Z) : bool := (rx <=? x) && (ry <=? y) && (x <? rx + rw) && (y <? ry + rh).

(** [while( *a&& *b&& *a== *b){a++;b++;}return *a== *b;] *)
Fixpoint streq (a b : bytes) : bool :=
  match a, b with
  | x :: a', y :: b' => if x =? y then streq a' b' else false
  | [], [] => true
  | _, _ => false
  end.

Definition append (cap : Z) (a b : bytes) : bytes := cat cap a b.

(** [while(v){t[n++]=(char)('0'+v%10);v/=10;}] *)
Fixpoint dec_loop (fuel : nat) (v : Z) (t : bytes) : option bytes :=
  match fuel with
  | O => None
  | S f =>
      if v =? 0 then Some t
      else if 24 <=? len t then None
      else dec_loop f (v / 10) (t ++ [48 + v mod 10])
  end.

(** [for(int i=0;i<n;i++)out[i]=t[n-1-i];] and the terminator, into an array of [cap]
    characters. *)
Definition u64dec (v cap : Z) : option bytes :=
  t ← (if v =? 0 then Some [48] else t ← dec_loop 25 v []; Some (rev t));
  if len t <? cap then Some t else None.

Definition hex_chars : bytes := chars "0123456789ABCDEF".

(** [for(int i=0;i<16;i++)out[i+2]=h[(v>>(60-4*i))&15];]; [k] digits remain. *)
Fixpoint hex_loop (k : nat) (v : Z) : option bytes :=
  match k with
  | O => Some []
  | S k' =>
      c ← rd hex_chars (Z.land (Z.shiftr v (4 * Z.of_nat k')) 15);
      l ← hex_loop k' v;
      Some (c :: l)
  end.

Definition hex64 (v : Z) : option bytes := l ← hex_loop 16 v; Some (chars "0x" ++ l).

(** [iptext]: [u64dec(ip[i],n)] into [char n[8]]. *)
Fixpoint ip_loop (ip : bytes) (cap : Z) (out : bytes) : option bytes :=
  match ip with
  | [] => Some out
  | b :: ip' =>
      n ← u64dec b 8;
      let out := append cap out n in
      ip_loop ip' cap (match ip' with [] => out | _ => append cap out [46] end)
  end.
Definition iptext (ip : bytes) (cap : Z) : option bytes := ip_loop ip cap [].

(** ** What is written is the number *)

Lemma streq_spec a b : streq a b = true <-> a = b.
Proof.
  revert b. induction a as [|x a IH]; intros [|y b]; cbn; try done.
  destruct (Z.eqb_spec x y) as [->|H]; [rewrite IH|]; split; intros E; congruence.
Qed.

(** The value of decimal digits, the last one first. *)
Fixpoint dec_value (t : bytes) : Z := match t with [] => 0 | c :: t' => (c - 48) + 10 * dec_value t' end.

Definition decimal (t : bytes) : Prop := Forall (fun c => 48 <= c <= 57) t.

Lemma dec_value_snoc t c : dec_value (t ++ [c]) = dec_value t + (c - 48) * 10 ^ len t.
Proof.
  induction t as [|x t IH]; cbn [app dec_value length]; [cbn; lia|]. rewrite IH.
  replace (Z.of_nat (S (length t))) with (1 + len t) by lia. rewrite Z.pow_add_r by lia. lia.
Qed.

Lemma dec_loop_spec fuel v t n :
  0 <= v < 10 ^ n -> decimal t -> 0 <= n -> len t + n <= 24 -> n < Z.of_nat fuel ->
  exists t', dec_loop fuel v t = Some t' /\ decimal t' /\ dec_value t' = dec_value t + v * 10 ^ len t /\
    len t <= len t' <= len t + n /\ (v <> 0 -> len t < len t').
Proof.
  revert v t n. induction fuel as [|f IH]; intros v t n Hv Ht Hn Hl Hf; [lia|]. cbn [dec_loop].
  destruct (Z.eqb_spec v 0) as [->|Hv0]; [exists t; split; [done|]; split; [done|]; split; [lia|]; split; lia|].
  assert (Hn1 : 0 < n) by (destruct (decide (n = 0)) as [->|]; [cbn in Hv; lia|lia]).
  if_false. assert (Hp : 10 ^ n = 10 * 10 ^ (n - 1)) by (rewrite <- Z.pow_succ_r by lia; f_equal; lia).
  pose proof (Z.div_mod v 10 ltac:(lia)) as Hd. pose proof (Z.mod_pos_bound v 10 ltac:(lia)) as Hm.
  destruct (IH (v / 10) (t ++ [48 + v mod 10]) (n - 1)) as (t' & -> & D & V & L & _).
  - split; [apply Z.div_pos; lia|]. apply Z.div_lt_upper_bound; lia.
  - apply Forall_app. split; [done|]. constructor; [lia|done].
  - lia.
  - rewrite length_app. cbn. lia.
  - lia.
  - rewrite length_app in L. cbn [length] in L. exists t'. split; [done|]. split; [done|]. split; [|lia].
    rewrite V, dec_value_snoc, length_app. cbn [length].
    replace (Z.of_nat (length t + 1)) with (len t + 1) by lia. rewrite Z.pow_add_r by lia. lia.
Qed.

(** The digits of a number are its decimal form; [n] of them are enough below
    [10 ^ n], and twenty for 64 bits. *)
Lemma u64dec_spec v cap n :
  0 <= v < 10 ^ n -> 1 <= n <= 20 -> n < cap ->
  exists t, u64dec v cap = Some t /\ decimal t /\ dec_value (rev t) = v /\ 1 <= len t <= n.
Proof.
  intros Hv Hn Hc. unfold u64dec. destruct (Z.eqb_spec v 0) as [->|H0].
  { cbn [mbind option_bind length]. if_true. exists [48]. split; [done|]. split; [by repeat constructor|]. split; [done|]. cbn. lia. }
  destruct (dec_loop_spec 25 v [] n) as (t & -> & D & V & L & P); [lia|constructor|lia|cbn; lia|lia|]. cbn in L, P.
  cbn [mbind option_bind]. rewrite length_rev. if_true. exists (rev t). split; [done|]. split; [by apply Forall_rev|].
  rewrite rev_involutive. split; [rewrite V; cbn; lia|]. rewrite length_rev. lia.
Qed.

Lemma decimal_nonzero t : decimal t -> Forall (fun c => c <> 0) t.
Proof. intros H. eapply List.Forall_impl; [|exact H]. cbn. lia. Qed.

Lemma append_fits cap a b : 0 < cap -> fits cap a -> Forall (fun c => c <> 0) b -> fits cap (append cap a b).
Proof. intros Hc [Ha _] Hb. apply fits_fit; [done|]. by apply Forall_app. Qed.

Lemma iptext_spec ip cap :
  Forall (fun b => 0 <= b < 256) ip -> 0 < cap -> exists t, iptext ip cap = Some t /\ fits cap t.
Proof.
  intros Hip Hc. unfold iptext. assert (H0 : fits cap []) by by apply fits_nil. revert H0. generalize (@nil Z) as out.
  induction Hip as [|b ip Hb _ IH]; intros out Ho; cbn [ip_loop]; [by exists out|].
  destruct (u64dec_spec b 8 3) as (t & -> & D & _); [lia|lia|lia|]. cbn [mbind option_bind]. apply IH.
  assert (H1 : fits cap (append cap out t)) by (apply append_fits; [done|done|by apply decimal_nonzero]).
  destruct ip; [done|]. apply append_fits; [done|done|]. by repeat constructor.
Qed.

Lemma hex_loop_some k v : 0 <= v -> exists l, hex_loop k v = Some l /\ length l = k /\ Forall (fun c => 48 <= c <= 70) l.
Proof.
  intros Hv. induction k as [|k (l & E & L & F)]; [exists []; by repeat split|]. cbn [hex_loop].
  set (i := Z.land _ 15). assert (Hi : 0 <= i < 16).
  { unfold i. change 15 with (Z.ones 4). rewrite Z.land_ones by lia. apply Z.mod_pos_bound. lia. }
  destruct (rd_is_Some hex_chars i) as [c Hc]; [done|]. rewrite Hc, E. cbn [mbind option_bind]. eexists. split; [done|].
  split; [cbn; lia|]. constructor; [|done]. apply rd_inv in Hc as [_ Hc].
  assert (Hall : Forall (fun c => 48 <= c <= 70) hex_chars) by (apply (bool_decide_unpack _); vm_compute; done).
  exact (Forall_lookup_1 _ _ _ _ Hall Hc).
Qed.

Lemma hex64_some v : 0 <= v -> exists t, hex64 v = Some t /\ len t = 18 /\ Forall (fun c => c <> 0) t.
Proof.
  intros Hv. unfold hex64. destruct (hex_loop_some 16 v Hv) as (l & -> & L & F). cbn [mbind option_bind]. eexists. split; [done|].
  split; [rewrite length_app; cbn; lia|]. apply Forall_app. split; [by repeat constructor|].
  eapply List.Forall_impl; [|exact F]. cbn. lia.
Qed.

Example u64dec_largest : u64dec (2 ^ 64 - 1) 24 = Some (chars "18446744073709551615").
Proof. vm_compute. reflexivity. Qed.
Example iptext_local : iptext [192; 168; 1; 2] 32 = Some (chars "192.168.1.2").
Proof. vm_compute. reflexivity. Qed.
Example hex64_page : hex64 0x1fe000 = Some (chars "0x00000000001FE000").
Proof. vm_compute. reflexivity. Qed.
