(* ===== verification/DesktopScreen.v ===== *)
(** * The screen as the desktop uses it (include/graphics.h)

    The interface between kernel/desktop.c and kernel/graphics.c, its laws, and the
    framebuffer of Graphics as an instance: whatever is drawn, within the ranges of the
    laws, changes visible pixels only. *)

From S2P Require Import Prelude Cstr NetEnv Pmm Graphics VelaText.

(** Strings are the characters before the terminator. *)
Class Screen (E : Type) := {
  gfx_width : Z;
  gfx_height : Z;
  gfx_rect : Z -> Z -> Z -> Z -> Z -> E -> res E;
  gfx_line_h : Z -> Z -> Z -> Z -> E -> res E;
  gfx_pixel : Z -> Z -> Z -> E -> res E;
  gfx_get_raw : Z -> Z -> E -> res Z;
  gfx_put_raw : Z -> Z -> Z -> E -> res E;
  gfx_text : Z -> Z -> bytes -> Z -> Z -> E -> res (Z * E);
  gfx_display_text : Z -> Z -> bytes -> Z -> E -> res (Z * E);
  gfx_text_right : Z -> Z -> bytes -> Z -> E -> res E
}.

Definition word32 (x : Z) : Prop := 0 <= x < 4294967296.
Definition size31 (x : Z) : Prop := 0 <= x <= 2147483647.

(** The width of a text: no more than 31 bits for one that fits a page. *)
Definition width_ok (s : bytes) (a : Z) : Prop := word32 a /\ (len s <= 4096 -> size31 a).

(** The environment keeps its shape [J]; sizes are at most 31 bits wide, and a screen
    has room for the taskbar and fits the 16 bits of the boot information's modes. *)
Class ScreenLaws {E} `{!Screen E} (T : Prop) (J : E -> Prop) : Prop := {
  law_width : 64 <= gfx_width <= 65535;
  law_screen_height : 64 <= gfx_height <= 65535;
  law_rect x y w h c e : word32 x -> word32 y -> size31 w -> size31 h -> J e -> safe T (gfx_rect x y w h c e) J;
  law_line_h x y w c e : word32 x -> word32 y -> size31 w -> J e -> safe T (gfx_line_h x y w c e) J;
  law_pixel x y c e : word32 x -> word32 y -> J e -> safe T (gfx_pixel x y c e) J;
  law_get_raw x y e : word32 x -> word32 y -> J e -> safe T (gfx_get_raw x y e) (fun _ => True);
  law_put_raw x y raw e : word32 x -> word32 y -> J e -> safe T (gfx_put_raw x y raw e) J;
  law_text x y s c k e : word32 x -> word32 y -> Forall (fun c => c <> 0) s -> 0 <= k <= 2 -> J e ->
    safe T (gfx_text x y s c k e) (fun '(a, e') => width_ok s a /\ J e');
  law_display_text x y s c e : word32 x -> word32 y -> Forall (fun c => c <> 0) s -> J e ->
    safe T (gfx_display_text x y s c e) (fun '(a, e') => width_ok s a /\ J e');
  law_text_right x y s c e : word32 x -> word32 y -> Forall (fun c => c <> 0) s -> J e ->
    safe T (gfx_text_right x y s c e) J
}.

(** ** The framebuffer *)
Module Framebuffer.
Section framebuffer.
Context (b : OrionBootInfo).
Context (traf_rows traf_d_rows : Z -> Z -> option Z) (traf_advance traf_d_advance : Z -> option Z).

Definition fb_screen : Screen (list Z) := {|
  gfx_width := Graphics.gfx_width (Ptr b);
  gfx_height := Graphics.gfx_height (Ptr b);
  gfx_rect x y w h c fb := ub (Graphics.gfx_rect (Ptr b) fb x y w h c);
  gfx_line_h x y w c fb := ub (Graphics.gfx_line_h (Ptr b) fb x y w c);
  gfx_pixel x y c fb := ub (Graphics.gfx_pixel (Ptr b) fb x y c);
  gfx_get_raw x y fb := ub (Graphics.gfx_get_raw (Ptr b) fb x y);
  gfx_put_raw x y raw fb := ub (Graphics.gfx_put_raw (Ptr b) fb x y raw);
  gfx_text x y s c k fb :=
    '(fb, a) ← ub (Graphics.gfx_text traf_rows traf_advance (Ptr b) fb x y (Ptr (s ++ [0])) c k); Ok (a, fb);
  gfx_display_text x y s c fb :=
    '(fb, a) ← ub (Graphics.gfx_display_text traf_rows traf_d_rows traf_advance traf_d_advance (Ptr b) fb x y (Ptr (s ++ [0])) c);
    Ok (a, fb);
  gfx_text_right x y s c fb := ub (Graphics.gfx_text_right traf_rows traf_advance (Ptr b) fb x y (s ++ [0]) c)
|}.

Context (Hmode : mode_ok b) (Hw : 64 <= width b <= 65535) (Hh : 64 <= height b <= 65535).
Context (Htab : tables_ok traf_rows traf_d_rows traf_advance traf_d_advance).
(** The tables of advances are of bytes. *)
Context (Hadv : forall gi a, traf_advance gi = Some a \/ traf_d_advance gi = Some a -> 0 <= a <= 255).

Lemma safe_returns {A} T (o : option A) (P : A -> Prop) : returns o P -> safe T (ub o) P.
Proof. by intros (a & -> & H). Qed.

Lemma put_raw_returns fb x y raw : fb_ok b fb -> word32 x -> word32 y ->
  returns (Graphics.gfx_put_raw (Ptr b) fb x y raw) (fb_ok b).
Proof.
  intros Hfb Hx Hy. destruct (put_get_raw b Hmode fb x y raw 0 0) as (fb' & E & L & _); try (done || unfold word32 in *; lia).
  exists fb'. split; [done|]. unfold fb_ok in *. by rewrite L.
Qed.

Lemma pixel_returns fb x y c : fb_ok b fb -> word32 x -> word32 y -> returns (Graphics.gfx_pixel (Ptr b) fb x y c) (fb_ok b).
Proof.
  intros Hfb Hx Hy. pose proof (fun p => put_raw_returns fb x y p Hfb Hx Hy) as H. unfold Graphics.gfx_put_raw, Graphics.gfx_pixel in *.
  case_if; [by eexists|]. unfold pack_pixel. case_if; apply H.
Qed.

Lemma get_raw_returns fb x y : fb_ok b fb -> word32 x -> word32 y -> returns (Graphics.gfx_get_raw (Ptr b) fb x y) (fun _ => True).
Proof.
  intros Hfb Hx Hy. pose proof (put_raw_returns fb x y 0 Hfb Hx Hy) as (fb' & E & _). unfold Graphics.gfx_put_raw, Graphics.gfx_get_raw in *.
  case_if; [by eexists|]. apply wr_inv in E as [Hi _]. destruct (rd_is_Some fb (pixel_offset (Ptr b) x y)) as [v Hv]; [done|]. by exists v.
Qed.

(** A character advances by 512 at most. *)
Definition narrow (draw : list Z -> Z -> Z -> option (list Z * Z)) : Prop :=
  forall fb x c fb' a, draw fb x c = Some (fb', a) -> 0 <= a <= 512.

Lemma draw_char_narrow y c k : 0 <= k <= 2 -> narrow (fun fb x ch => draw_char traf_rows traf_advance (Ptr b) fb x y ch c k).
Proof.
  intros Hk fb x ch fb' a. unfold draw_char. destruct (glyph_rows _ _ _ _ _ _ _ _ _ _) as [fb1|]; [|done]. cbn [mbind option_bind].
  destruct (traf_advance _) as [w|] eqn:Ew; [|done]. pose proof (Hadv _ w (or_introl Ew)). cbn [mbind option_bind]. intros [= _ <-].
  unfold u32. rewrite Z.mod_small; nia.
Qed.

Lemma display_char_narrow y c :
  narrow (fun fb x ch => display_char traf_rows traf_d_rows traf_advance traf_d_advance (Ptr b) fb x y ch c).
Proof.
  intros fb x ch fb' a. unfold display_char. case_if; [by apply (draw_char_narrow y c 1)|].
  destruct (glyph_rows _ _ _ _ _ _ _ _ _ _) as [fb1|]; [|done]. cbn [mbind option_bind].
  destruct (traf_d_advance _) as [w|] eqn:Ew; [|done]. pose proof (Hadv _ w (or_intror Ew)). cbn [mbind option_bind]. intros [= _ <-].
  unfold u32. rewrite Z.mod_small; lia.
Qed.

Lemma text_loop_width draw fuel fb x s i fb' x' :
  narrow draw -> text_loop fuel draw fb x s i = Some (fb', x') ->
  exists n, 0 <= n <= 512 * Z.of_nat fuel /\ u32 (x' - x) = u32 n.
Proof.
  intros Hdraw. revert fb x i. induction fuel as [|f IH]; intros fb x i; cbn [text_loop]; [done|].
  destruct (rd s i) as [c|]; [|done]. cbn [mbind option_bind]. case_if.
  - intros [= _ <-]. exists 0. split; [lia|]. f_equal. lia.
  - destruct (draw fb x c) as [[fb1 a]|] eqn:Ed; [|done]. cbn [mbind option_bind]. intros (n & Hn & E1)%IH.
    pose proof (Hdraw _ _ _ _ _ Ed). exists (n + a). split; [lia|]. unfold u32 in *.
    replace (x' - x) with (x' - (x + a) + a) by lia. rewrite <- (Zplus_mod_idemp_l (x' - (x + a))), <- Zminus_mod_idemp_r, E1.
    apply Zplus_mod_idemp_l.
Qed.

Lemma text_width draw fb x s :
  narrow draw -> returns (text draw fb x (Ptr (s ++ [0]))) (fun '(fb', _) => drawn b fb fb') -> fb_ok b fb ->
  returns (text draw fb x (Ptr (s ++ [0]))) (fun '(fb', a) => width_ok s a /\ fb_ok b fb').
Proof.
  intros Hd ([fb' a] & E & H) Hfb. exists (fb', a). split; [done|]. split; [|by eapply drawn_fb_ok]. revert E. unfold text.
  destruct (text_loop _ _ _ _ _ _) as [[fb1 x']|] eqn:El; [|done]. cbn [mbind option_bind]. intros [= _ <-].
  split; [apply u32_range|]. intros Hs. destruct (text_loop_width _ _ _ _ _ _ _ _ Hd El) as (n & Hn & ->).
  rewrite length_app in Hn. cbn [length] in Hn. unfold u32, size31. rewrite Z.mod_small; lia.
Qed.

Lemma width_loop_some fuel m i w t :
  cstr m i t -> (length t < fuel)%nat -> is_Some (width_loop traf_advance fuel m i w).
Proof.
  destruct Htab as (_ & Hfound & _). revert i w t. induction fuel as [|f IH]; intros i w t Ht Hf; [lia|]. cbn [width_loop].
  rewrite (cstr_rd _ _ _ Ht). cbn [mbind option_bind]. destruct t as [|c t]; cbn [head0]; [by eexists|].
  apply cstr_char_inv in Ht as (_ & Hc & Ht). cbn [length] in Hf. replace (c =? 0) with false by (symmetry; by apply Z.eqb_neq).
  set (ch := if (s8 c <? 32) || (126 <? s8 c) then 63 else s8 c).
  assert (Hch : 32 <= ch <= 126) by (unfold ch; destruct ((s8 c <? 32) || (126 <? s8 c)) eqn:E; [lia|bool_prop; lia]).
  destruct (Hfound (ch - 32)) as [a Ha]; [lia|]. rewrite Ha. cbn [mbind option_bind]. apply (IH _ _ t); [done|lia].
Qed.

Lemma text_right_returns fb x y s c :
  fb_ok b fb -> Forall (fun c => c <> 0) s ->
  returns (Graphics.gfx_text_right traf_rows traf_advance (Ptr b) fb x y (s ++ [0]) c) (fb_ok b).
Proof.
  intros Hfb Hs. unfold Graphics.gfx_text_right. pose proof (cstr_lit s Hs) as Hc.
  destruct (width_loop_some (S (length (s ++ [0]))) (s ++ [0]) 0 0 s Hc) as [w ->]; [rewrite length_app; cbn; lia|].
  cbn [mbind option_bind]. destruct (gfx_text_visible b Hmode ltac:(lia) ltac:(lia) traf_rows traf_d_rows traf_advance traf_d_advance
    Htab fb (if w <? x then x - w else 0) y (Ptr (s ++ [0])) s c 1 Hfb ltac:(lia) Hc) as [([fb' a] & -> & H) _].
  cbn [mbind option_bind]. exists fb'. split; [done|]. by eapply drawn_fb_ok.
Qed.

Lemma fb_screen_laws T : ScreenLaws (Screen0 := fb_screen) T (fb_ok b).
Proof.
  pose proof Hmode as (_ & ? & ? & _).
  assert (Hrect : forall x y w h c fb, word32 x -> word32 y -> size31 w -> size31 h -> fb_ok b fb ->
    safe T (ub (Graphics.gfx_rect (Ptr b) fb x y w h c)) (fb_ok b)).
  { intros x y w h c fb Hx Hy Hw' Hh' Hfb. apply safe_returns. eapply returns_mono; [by apply gfx_rect_drawn; (done || lia)|].
    intros fb' Hd. by eapply drawn_fb_ok. }
  assert (Htext : forall x y s c k fb, Forall (fun c => c <> 0) s -> 0 <= k <= 2 -> fb_ok b fb ->
    let m := Ptr (s ++ [0]) in
    returns (Graphics.gfx_text traf_rows traf_advance (Ptr b) fb x y m c k) (fun '(fb', a) => width_ok s a /\ fb_ok b fb') /\
    returns (Graphics.gfx_display_text traf_rows traf_d_rows traf_advance traf_d_advance (Ptr b) fb x y m c)
      (fun '(fb', a) => width_ok s a /\ fb_ok b fb')).
  { intros x y s c k fb Hs Hk Hfb m. destruct (gfx_text_visible b Hmode ltac:(lia) ltac:(lia) traf_rows traf_d_rows traf_advance
      traf_d_advance Htab fb x y m s c k Hfb ltac:(lia) (cstr_lit s Hs)) as [H1 H2]. split; apply text_width; (done || by apply draw_char_narrow || apply display_char_narrow). }
  split; cbn [gfx_width gfx_height gfx_rect gfx_line_h gfx_pixel gfx_get_raw gfx_put_raw gfx_text gfx_display_text gfx_text_right fb_screen Graphics.gfx_width Graphics.gfx_height].
  - lia.
  - lia.
  - done.
  - intros. by apply Hrect.
  - intros. by apply safe_returns, pixel_returns.
  - intros. by apply safe_returns, get_raw_returns.
  - intros. by apply safe_returns, put_raw_returns.
  - intros x y s c k fb _ _ Hs Hk Hfb. destruct (Htext x y s c k fb Hs Hk Hfb) as [([fb' a] & -> & H1) _]. done.
  - intros x y s c fb _ _ Hs Hfb. destruct (Htext x y s c 0 fb Hs ltac:(lia) Hfb) as [_ ([fb' a] & -> & H1)]. done.
  - intros. by apply safe_returns, text_right_returns.
Qed.
End framebuffer.
End Framebuffer.
