(* ===== verification/AsterPaint.v ===== *)
(** * Painting a page (kernel/aster.c, line 57)

    The items of the layout that lie in the viewport are handed to the routines of the
    screen: words with their underlines, pictures or, where one cannot be shown, its
    box and its alternative text. *)

From S2P Require Import Prelude Cstr NetEnv VelaText DesktopScreen AsterDoc AsterCss AsterText AsterTree AsterParse AsterSafe AsterWf AsterLayout AsterFlow.

(** kernel/browser_image.c: a picture fetched and drawn, or zero. *)
Class Pictures (E : Type) := { gfx_image_uri : Z -> Z -> Z -> Z -> bytes -> E -> res (Z * E) }.

Class PicturesLaws {E} `{!Pictures E} (T : Prop) (J : E -> Prop) : Prop :=
  law_image x y w h uri e : word32 x -> word32 y -> size31 w -> size31 h -> fits 256 uri -> J e ->
    safe T (gfx_image_uri x y w h uri e) (fun '(_, e') => J e').

Section painting.
Context {E : Type} `{!Screen E, !Pictures E}.

Definition has_flag (i : AsterPaintItem) (f : Z) : bool := negb (Z.land (i_flags i) f =? 0).

Definition paint_image (d : AsterDocument) (i : AsterPaintItem) (x py : Z) (e : E) : res E :=
  uri ← ub (copied d (i_src i) 256);
  '(shown, e) ← (match uri with
                 | [] => Ok (0, e)
                 | _ => gfx_image_uri (u32 (x + i_x i)) (u32 py) (u32 (i_w i)) (u32 (i_h i)) uri e
                 end);
  if shown =? 0 then
    e ← gfx_rect (u32 (x + i_x i)) (u32 py) (u32 (i_w i)) (u32 (i_h i)) 0xE7EDF3 e;
    alt ← ub (copied d (i_text i) 96);
    '(_, e) ← gfx_text (u32 (x + i_x i + 8)) (u32 (py + 8)) (match alt with [] => chars "[image]" | _ => alt end) 0x60758A 1 e;
    Ok e
  else Ok e.

Definition paint_words (d : AsterDocument) (i : AsterPaintItem) (x py : Z) (e : E) : res E :=
  t ← ub (copied d (i_text i) 160);
  '(drawn, e) ← (if i_scale i =? 2 then gfx_display_text (u32 (x + i_x i)) (u32 py) t (i_color i) e
                 else gfx_text (u32 (x + i_x i)) (u32 py) t (i_color i) 1 e);
  if has_flag i (Z.lor ASTER_PAINT_LINK ASTER_PAINT_UNDERLINE) then
    gfx_line_h (u32 (x + i_x i)) (u32 (py + i_h i - 4)) drawn (if has_flag i ASTER_PAINT_LINK then 0x6BA5D8 else i_color i) e
  else Ok e.

Definition paint_item (d : AsterDocument) (x y width height scroll : Z) (i : AsterPaintItem) (e : E) : res E :=
  let py := y + i_y i - scroll in
  if (py + i_h i <? y) || (y + height <? py) || (width <=? i_x i) || (i_x i + i_w i <? 0) then Ok e
  else if has_flag i ASTER_PAINT_IMAGE then paint_image d i x py e
  else paint_words d i x py e.

(** [for(uint16_t k=0;k<d->paint_count;k++)] *)
Fixpoint paint_loop (n : nat) (k : Z) (d : AsterDocument) (x y width height scroll : Z) (e : E) : res E :=
  match n with
  | O => Ok e
  | S n' =>
      i ← ub (rd (paint d) k);
      e ← paint_item d x y width height scroll i e;
      paint_loop n' (k + 1) d x y width height scroll e
  end.

Definition aster_paint (d : AsterDocument) (x y width height scroll : Z) (e : E) : res E :=
  paint_loop (Z.to_nat (paint_count d)) 0 d x y width height scroll e.

(** ** It stays inside the document and the screen *)

Context (T : Prop) (J : E -> Prop) `{!ScreenLaws T J, !PicturesLaws T J}.

Lemma text_copy d r cap :
  doc_ok d -> range_ok (text_used d) r -> 0 < cap -> exists t, copied d r cap = Some t /\ fits cap t.
Proof.
  intros Hd Hr Hc. rewrite (copied_some d r cap Hd Hr Hc). eexists. split; [done|]. apply text_of_fits.
  destruct Hr as (? & ? & ?). pose proof (d_text _ Hd) as [L U]. rewrite slice_length; lia.
Qed.

Lemma item_safe W d x y width height scroll i e :
  doc_ok d -> item_ok W (text_used d) i -> W <= 32767 -> J e -> safe T (paint_item d x y width height scroll i e) J.
Proof.
  intros Hd [Ht Hh Hs Hp Hi] HW He. unfold paint_item. case_if; [done|]. case_if.
  - unfold has_flag in *. bool_prop. destruct Hi as [(w & Ew & Hw) Hih]; [done|].
    assert (Hiw : size31 (u32 (i_w i))).
    { rewrite Ew, s16_id by (unfold short16; lia). unfold size31. pose proof (u32_range w). unfold u32. rewrite Z.mod_small; lia. }
    assert (Hh' : size31 (u32 (i_h i))) by (unfold size31, u32; rewrite Z.mod_small; lia).
    unfold paint_image. destruct (text_copy d (i_src i) 256 Hd Hs) as (uri & -> & Huri); [lia|]. cbn [ub mbind res_bind].
    eapply (safe_bind _ _ _ (fun '(_, e') => J e')); [destruct uri; [done|]; apply law_image; (apply u32_range || done)|].
    intros [shown e1] He1. case_if; [|done]. eapply safe_bind; [apply law_rect; (apply u32_range || done)|]. intros e2 He2.
    destruct (text_copy d (i_text i) 96 Hd Ht) as (alt & -> & Halt); [lia|]. cbn [ub mbind res_bind].
    eapply safe_bind; [apply law_text; (apply u32_range || lia || done || (destruct alt; [by apply lit_nonzero|apply Halt]))|].
    by intros [a e3] [_ He3].
  - unfold paint_words. destruct (text_copy d (i_text i) 160 Hd Ht) as (t & -> & Htt & Hl); [lia|]. cbn [ub mbind res_bind].
    eapply (safe_bind _ _ _ (fun '(a, e') => width_ok t a /\ J e')).
    { case_if; [apply law_display_text|apply law_text]; (apply u32_range || lia || done). }
    intros [a e1] [[_ Ha] He1]. case_if; [|done]. apply law_line_h; (apply u32_range || done || apply Ha; lia).
Qed.

Lemma aster_paint_safe W d x y width height scroll e :
  doc_ok d -> paint_ok W d -> W <= 32767 -> J e -> safe T (aster_paint d x y width height scroll e) J.
Proof.
  intros Hd (P1 & P2 & P3) HW. unfold aster_paint. assert (Hn : 0 + Z.of_nat (Z.to_nat (paint_count d)) <= paint_count d) by lia.
  revert Hn. generalize (Z.to_nat (paint_count d)) as n. assert (Hk : 0 <= 0) by lia. revert Hk. generalize 0 at 2 3 4 as k.
  intros k Hk n. revert k e Hk. induction n as [|n IH]; intros k e Hk Hn He; cbn [paint_loop]; [done|].
  destruct (rd_is_Some (paint d) k) as [i Hi]; [lia|]. rewrite Hi. cbn [ub mbind res_bind].
  eapply safe_bind; [apply (item_safe W); [done|apply (P3 k); [lia|done]|done|done]|]. intros e1 He1. apply IH; (done || lia).
Qed.
End painting.


(** ** The page of AsterWf on a screen that keeps the texts *)
Module Shown.
Import Page.

#[export] Instance listing : Screen (list bytes) := {|
  gfx_width := 1024; gfx_height := 768;
  gfx_rect := fun _ _ _ _ _ e => Ok e; gfx_line_h := fun _ _ w _ e => Ok (e ++ [[w]]); gfx_pixel := fun _ _ _ e => Ok e;
  gfx_get_raw := fun _ _ _ => Ok 0; gfx_put_raw := fun _ _ _ e => Ok e;
  gfx_text := fun _ _ s _ _ e => Ok (u32 (8 * len s), e ++ [s]);
  gfx_display_text := fun _ _ s _ e => Ok (u32 (30 * len s), e ++ [s]);
  gfx_text_right := fun _ _ s _ e => Ok (e ++ [s])
|}.
#[export] Instance none : Pictures (list bytes) := {| gfx_image_uri := fun _ _ _ _ _ e => Ok (0, e) |}.

#[export] Instance listing_laws : ScreenLaws (E := list bytes) False (fun _ => True).
Proof.
  split; try done; intros; cbn; (split; [|done]); (split; [apply u32_range|]);
    intros Hs; unfold size31, u32; rewrite Z.mod_small; lia.
Qed.
#[export] Instance none_laws : PicturesLaws (E := list bytes) False (fun _ => True).
Proof. by intros x y w h uri e _ _ _ _ _ _. Qed.

(** The heading, the paragraph with its underlined link, and the alternative text. *)
Example page_texts :
  ('(_, d) ← aster_parse_html (replicate 48 7) before html;
   d ← aster_layout d 720;
   match aster_paint d 18 108 720 400 0 [] with Ok l => Some l | _ => None end)
  = Some [chars "Hi"; chars "An"; chars "a&b"; [24]; chars "pic"].
Proof. vm_compute. reflexivity. Qed.

End Shown.
