(* ===== verification/DesktopPaint.v ===== *)
(** * The painting program (kernel/desktop.c, lines 127 and 137)

    The brush sets a disc of pixels inside the canvas; a stroke of the mouse is a line
    of brush marks.  The line is Bresenham's: it ends, goes from point to neighbouring
    point, and stays within half a pixel of the segment. *)

From S2P Require Import Prelude Cstr NetEnv VelaText DesktopText DesktopScreen.

Definition TITLE_H : Z := 42.
Definition PAINT_W : Z := 640.
Definition PAINT_H : Z := 360.

Record Window := mk_window {
  w_x : Z; w_y : Z; w_w : Z; w_h : Z; w_open : Z; w_minimized : Z; w_z : Z; w_title : bytes
}.

(** [bx], [by], [bw] and [bh]: the inside of a window. *)
Definition inner_x (w : Window) : Z := w_x w + 1.
Definition inner_y (w : Window) : Z := w_y w + TITLE_H + 1.
Definition inner_w (w : Window) : Z := w_w w - 2.
Definition inner_h (w : Window) : Z := w_h w - TITLE_H - 2.

(** [cx], [cy], [cw] and [ch] of [draw_paint] and [paint_at]. *)
Record canvas := mk_canvas { c_x : Z; c_y : Z; c_w : Z; c_h : Z }.
Definition canvas_of (w : Window) : canvas :=
  let cw := inner_w w - 36 in
  let ch := inner_h w - 78 in
  mk_canvas (inner_x w + 18) (inner_y w + 60)
    (if PAINT_W <? cw then PAINT_W else cw) (if PAINT_H <? ch then PAINT_H else ch).

(** [for(int i=a;i<a+n;i++)] *)
Fixpoint for_range {S} (n : nat) (a : Z) (f : Z -> S -> res S) (s : S) : res S :=
  match n with
  | O => Ok s
  | S n' => s ← f a s; for_range n' (a + 1) f s
  end.

Section brush.
Context {E : Type} `{!Screen E}.

(** A pixel of the brush. *)
Definition dab (c : canvas) (px py xx yy : Z) (s : list Z * E) : res (list Z * E) :=
  let '(paint, e) := s in
  if negb (xx * xx + yy * yy <=? 9) then Ok s
  else
    let nx := px + xx in
    let ny := py + yy in
    if (0 <=? nx) && (0 <=? ny) && (nx <? c_w c) && (ny <? c_h c) then
      paint ← ub (wr paint (ny * PAINT_W + nx) 1);
      e ← gfx_pixel (u32 (c_x c + nx)) (u32 (c_y c + ny)) 0x253A52 e;
      Ok (paint, e)
    else Ok s.

Definition paint_at (w : Window) (x y : Z) (s : list Z * E) : res (list Z * E) :=
  let c := canvas_of w in
  if negb (inside x y (c_x c) (c_y c) (c_w c) (c_h c)) then Ok s
  else
    let px := x - c_x c in
    let py := y - c_y c in
    for_range 7 (-3) (fun yy => for_range 7 (-3) (fun xx => dab c px py xx yy)) s.
End brush.

(** The loop of [paint_line], for any brush. *)
Fixpoint line_loop {S} (fuel : nat) (plot : Z -> Z -> S -> res S) (x0 y0 x1 y1 dx sx dy sy err : Z) (s : S) : res S :=
  match fuel with
  | O => NoFuel
  | S f =>
      s ← plot x0 y0 s;
      if (x0 =? x1) && (y0 =? y1) then Ok s
      else
        let e2 := err * 2 in
        let '(err, x0) := if dy <=? e2 then (err + dy, x0 + sx) else (err, x0) in
        let '(err, y0) := if e2 <=? dx then (err + dx, y0 + sy) else (err, y0) in
        line_loop f plot x0 y0 x1 y1 dx sx dy sy err s
  end.

(** [fuel]: one more than the longer side of the segment. *)
Definition paint_line {S} (plot : Z -> Z -> S -> res S) (x0 y0 x1 y1 : Z) (s : S) : res S :=
  let dx := if x0 <? x1 then x1 - x0 else x0 - x1 in
  let sx := if x0 <? x1 then 1 else -1 in
  let dy := - (if y0 <? y1 then y1 - y0 else y0 - y1) in
  let sy := if y0 <? y1 then 1 else -1 in
  line_loop (Z.to_nat (Z.max dx (- dy) + 1)) plot x0 y0 x1 y1 dx sx dy sy (dx + dy) s.

(** ** The line *)

(** Plotting a list of points in order. *)
Fixpoint plot_all {S} (plot : Z -> Z -> S -> res S) (l : list (Z * Z)) (s : S) : res S :=
  match l with
  | [] => Ok s
  | (x, y) :: l' => s ← plot x y s; plot_all plot l' s
  end.

(** The points of a line from [(x0, y0)] with steps [sx], [sy]: [i] and [j] steps have
    been made of [a] and [b]. *)
Inductive bresenham (x0 y0 sx sy a b : Z) : Z -> Z -> list (Z * Z) -> Prop :=
| bres_end : bresenham x0 y0 sx sy a b a b [(x0 + sx * a, y0 + sy * b)]
| bres_step i j i' j' l :
    (i' = i \/ i' = i + 1) -> (j' = j \/ j' = j + 1) -> (a >= b -> i' = i + 1) -> (b >= a -> j' = j + 1) ->
    i' <= a -> j' <= b -> Z.abs (2 * (i' * b - j' * a)) <= Z.max a b ->
    bresenham x0 y0 sx sy a b i' j' l ->
    bresenham x0 y0 sx sy a b i j ((x0 + sx * i, y0 + sy * j) :: l).

(** One turn along the longer side [a]: it always makes a step there. *)
Lemma bresenham_turn a b i j :
  a >= b -> 0 <= b -> 0 <= i <= a -> 0 <= j <= b -> Z.abs (2 * (i * b - j * a)) <= a -> i < a \/ j < b ->
  let err2 := ((j + 1) * a - (i + 1) * b) * 2 in
  let j' := if err2 <=? a then j + 1 else j in
  - b <= err2 /\ i < a /\ j' <= b /\ Z.abs (2 * ((i + 1) * b - j' * a)) <= a.
Proof.
  intros Hab Hb Hi Hj Hd Hne err2 j'.
  assert (Hia : i < a). { destruct (decide (i = a)) as [->|]; [nia|lia]. }
  split; [unfold err2; lia|]. split; [done|]. unfold j'. destruct (Z.leb_spec err2 a) as [H|H]; unfold err2 in H.
  - split; [|lia]. destruct (decide (j = b)) as [->|]; [nia|lia].
  - split; [lia|]. lia.
Qed.

Lemma line_loop_spec {S} (plot : Z -> Z -> S -> res S) x0 y0 sx sy a b fuel i j :
  (sx = 1 \/ sx = -1) -> (sy = 1 \/ sy = -1) ->
  0 <= i <= a -> 0 <= j <= b -> Z.abs (2 * (i * b - j * a)) <= Z.max a b ->
  (a >= b -> a - i < Z.of_nat fuel) -> (b >= a -> b - j < Z.of_nat fuel) ->
  exists l, bresenham x0 y0 sx sy a b i j l /\
    (a >= b -> len l = a - i + 1) /\ (b >= a -> len l = b - j + 1) /\
    forall s, line_loop fuel plot (x0 + sx * i) (y0 + sy * j) (x0 + sx * a) (y0 + sy * b) a sx (- b) sy ((j + 1) * a - (i + 1) * b) s
      = plot_all plot l s.
Proof.
  intros Hsx Hsy. revert i j. induction fuel as [|f IH]; intros i j Hi Hj Hd Fa Fb; [lia|]. cbn [line_loop].
  destruct ((x0 + sx * i =? x0 + sx * a) && (y0 + sy * j =? y0 + sy * b)) eqn:Ee.
  - assert (i = a /\ j = b) as [-> ->] by (bool_prop; destruct Hsx as [-> | ->], Hsy as [-> | ->]; lia).
    exists [(x0 + sx * a, y0 + sy * b)]. split; [constructor|]. cbn [length plot_all]. split; [lia|]. split; [lia|]. intros s.
    by destruct (plot _ _ s).
  - assert (Hne : i < a \/ j < b).
    { destruct (decide (i = a)) as [->|]; [|lia]. destruct (decide (j = b)) as [->|]; [|lia]. by rewrite !Z.eqb_refl in Ee. }
    set (err := (j + 1) * a - (i + 1) * b).
    set (i' := if - b <=? err * 2 then i + 1 else i). set (j' := if err * 2 <=? a then j + 1 else j).
    assert (H : (a >= b -> i' = i + 1) /\ (b >= a -> j' = j + 1) /\ i' <= a /\ j' <= b /\ Z.abs (2 * (i' * b - j' * a)) <= Z.max a b).
    { destruct (Z.ge_le_iff a b) as [_ _]. destruct (Z.le_gt_cases b a) as [Hab|Hab].
      - destruct (bresenham_turn a b i j) as (T1 & T2 & T3 & T4); try lia. fold err in T1, T3, T4.
        assert (Hi' : i' = i + 1) by (unfold i'; by if_true). fold j' in T3, T4. rewrite Hi'.
        split; [done|]. split; [|split; [lia|split; [done|lia]]]. intros Hba. assert (a = b) as <- by lia.
        unfold j', err. if_true. done.
      - destruct (bresenham_turn b a j i) as (T1 & T2 & T3 & T4); try lia.
        assert (Ei : (if ((i + 1) * b - (j + 1) * a) * 2 <=? b then i + 1 else i) = i').
        { unfold i', err. destruct (Z.leb_spec (((i + 1) * b - (j + 1) * a) * 2) b), (Z.leb_spec (- b) (((j + 1) * a - (i + 1) * b) * 2)); lia. }
        rewrite Ei in *. assert (Hj' : j' = j + 1) by (unfold j', err; by if_true). rewrite Hj'.
        split; [lia|]. split; [done|]. split; [done|]. split; [lia|lia]. }
    destruct H as (H1 & H2 & H3 & H4 & H5).
    assert (Hi' : i' = i \/ i' = i + 1) by (unfold i'; case_if; lia). assert (Hj' : j' = j \/ j' = j + 1) by (unfold j'; case_if; lia).
    destruct (IH i' j') as (l & Hl & La & Lb & E); try lia.
    exists ((x0 + sx * i, y0 + sy * j) :: l). split; [by apply (bres_step _ _ _ _ _ _ i j i' j')|]. cbn [length plot_all].
    split; [intros; rewrite Nat2Z.inj_succ, <- Z.add_1_r; specialize (La ltac:(done)); lia|].
    split; [intros; rewrite Nat2Z.inj_succ, <- Z.add_1_r; specialize (Lb ltac:(done)); lia|].
    intros s. destruct (plot _ _ s) as [s1| |]; [|done|done]. cbn [mbind res_bind]. rewrite <- E. unfold i', j', err.
    destruct (- b <=? _), (_ <=? a); cbv zeta; f_equal; lia.
Qed.

(** A stroke from one point to another ends; it plots a Bresenham line between them,
    one point more than the longer side. *)
Lemma paint_line_spec {S} (plot : Z -> Z -> S -> res S) x0 y0 x1 y1 :
  exists sx sy a b l, (sx = 1 \/ sx = -1) /\ (sy = 1 \/ sy = -1) /\
    a = Z.abs (x1 - x0) /\ b = Z.abs (y1 - y0) /\ x1 = x0 + sx * a /\ y1 = y0 + sy * b /\
    bresenham x0 y0 sx sy a b 0 0 l /\ len l = Z.max a b + 1 /\
    forall s, paint_line plot x0 y0 x1 y1 s = plot_all plot l s.
Proof.
  set (sx := if x0 <? x1 then 1 else -1). set (sy := if y0 <? y1 then 1 else -1).
  set (a := Z.abs (x1 - x0)). set (b := Z.abs (y1 - y0)).
  assert (Ha : (if x0 <? x1 then x1 - x0 else x0 - x1) = a) by (unfold a; case_if; lia).
  assert (Hb : (if y0 <? y1 then y1 - y0 else y0 - y1) = b) by (unfold b; case_if; lia).
  assert (Hx : x1 = x0 + sx * a) by (unfold sx, a; case_if; lia). assert (Hy : y1 = y0 + sy * b) by (unfold sy, b; case_if; lia).
  assert (Hsx : sx = 1 \/ sx = -1) by (unfold sx; case_if; lia). assert (Hsy : sy = 1 \/ sy = -1) by (unfold sy; case_if; lia).
  assert (Ha0 : 0 <= a) by (unfold a; lia). assert (Hb0 : 0 <= b) by (unfold b; lia).
  destruct (line_loop_spec plot x0 y0 sx sy a b (Z.to_nat (Z.max a (- - b) + 1)) 0 0 Hsx Hsy) as (l & Hl & La & Lb & E); try lia.
  exists sx, sy, a, b, l. do 6 (split; [done|]). split; [done|]. split; [lia|]. intros s. rewrite <- E. unfold paint_line.
  fold sx sy. rewrite Ha, Hb, <- Hx, <- Hy. f_equal; lia.
Qed.

(** A line of points: it begins and ends where it should, goes from a point to one of
    its eight neighbours, and no point is farther from the segment than half a pixel
    along its shorter side. *)
Record straight (x0 y0 x1 y1 : Z) (l : list (Z * Z)) : Prop := {
  st_first : head l = Some (x0, y0);
  st_last : list.last l = Some (x1, y1);
  st_length : len l = Z.max (Z.abs (x1 - x0)) (Z.abs (y1 - y0)) + 1;
  st_steps k p q : l !! k = Some p -> l !! S k = Some q ->
    p <> q /\ Z.abs (fst q - fst p) <= 1 /\ Z.abs (snd q - snd p) <= 1;
  st_near x y : In (x, y) l ->
    2 * Z.abs ((x - x0) * (y1 - y0) - (y - y0) * (x1 - x0)) <= Z.max (Z.abs (x1 - x0)) (Z.abs (y1 - y0))
}.

Lemma bresenham_head x0 y0 sx sy a b i j l : bresenham x0 y0 sx sy a b i j l -> head l = Some (x0 + sx * i, y0 + sy * j).
Proof. by destruct 1. Qed.

Lemma bresenham_last x0 y0 sx sy a b i j l : bresenham x0 y0 sx sy a b i j l -> list.last l = Some (x0 + sx * a, y0 + sy * b).
Proof.
  induction 1 as [|i j i' j' l _ _ _ _ _ _ _ Hl IH]; [done|]. apply bresenham_head in Hl. by destruct l.
Qed.

Lemma bresenham_steps x0 y0 sx sy a b i j l k p q :
  (sx = 1 \/ sx = -1) -> (sy = 1 \/ sy = -1) -> bresenham x0 y0 sx sy a b i j l ->
  l !! k = Some p -> l !! S k = Some q -> p <> q /\ Z.abs (fst q - fst p) <= 1 /\ Z.abs (snd q - snd p) <= 1.
Proof.
  intros Hsx Hsy H. revert k. induction H as [|i j i' j' l Hi Hj Ha Hb _ _ _ Hl IH]; intros k; [done|].
  destruct k as [|k]; [|by apply IH]. cbn [lookup list_lookup]. intros [= <-] Hq. apply bresenham_head in Hl.
  destruct l as [|r l]; [done|]. cbn in Hl, Hq. injection Hq as <-. injection Hl as ->. cbn [fst snd].
  split; [|split; destruct Hsx, Hsy; subst; nia]. intros [= E1 E2].
  destruct (Z.le_gt_cases b a); [rewrite Ha in E1 by lia|rewrite Hb in E2 by lia]; destruct Hsx, Hsy; subst; lia.
Qed.

Lemma bresenham_near x0 y0 sx sy a b i j l x y :
  0 <= i <= a -> 0 <= j <= b -> Z.abs (2 * (i * b - j * a)) <= Z.max a b -> bresenham x0 y0 sx sy a b i j l -> In (x, y) l ->
  exists i j, x = x0 + sx * i /\ y = y0 + sy * j /\ Z.abs (2 * (i * b - j * a)) <= Z.max a b.
Proof.
  intros Hi Hj Hd H. revert Hi Hj Hd. induction H as [|i j i' j' l ? ? ? ? ? ? ? Hl IH]; intros Hi Hj Hd; cbn [In].
  - intros [[= <- <-]|[]]. by exists a, b.
  - intros [[= <- <-]|Hin]; [by exists i, j|]. apply IH; (done || lia).
Qed.

Lemma paint_line_straight {S} (plot : Z -> Z -> S -> res S) x0 y0 x1 y1 :
  exists l, straight x0 y0 x1 y1 l /\ forall s, paint_line plot x0 y0 x1 y1 s = plot_all plot l s.
Proof.
  destruct (paint_line_spec plot x0 y0 x1 y1) as (sx & sy & a & b & l & Hsx & Hsy & Ha & Hb & Hx & Hy & Hl & Hn & E).
  exists l. split; [|exact E]. assert (Ha0 : 0 <= a) by lia. assert (Hb0 : 0 <= b) by lia. split.
  - rewrite (bresenham_head _ _ _ _ _ _ _ _ _ Hl). do 2 f_equal; lia.
  - rewrite (bresenham_last _ _ _ _ _ _ _ _ _ Hl), <- Hx, <- Hy. done.
  - by rewrite <- Ha, <- Hb.
  - intros k p q. by apply (bresenham_steps x0 y0 sx sy a b 0 0 l).
  - intros x y Hin. destruct (bresenham_near x0 y0 sx sy a b 0 0 l x y ltac:(lia) ltac:(lia) ltac:(lia) Hl Hin) as (i & j & -> & -> & H).
    rewrite <- Ha, <- Hb.
    assert (E1 : x1 - x0 = sx * a) by lia. assert (E2 : y1 - y0 = sy * b) by lia. rewrite E1, E2. clear - H Hsx Hsy.
    destruct Hsx as [-> | ->], Hsy as [-> | ->]; lia.
Qed.

(** ** The brush *)

Lemma for_range_safe {A} T (I : Z -> A -> Prop) n a f s :
  (forall i s, a <= i < a + Z.of_nat n -> I i s -> safe T (f i s) (I (i + 1))) ->
  I a s -> safe T (for_range n a f s) (I (a + Z.of_nat n)).
Proof.
  revert a s. induction n as [|n IH]; intros a s Hf Hs; cbn [for_range]; [by replace (a + Z.of_nat 0) with a by lia|].
  eapply safe_bind; [apply Hf; [lia|done]|]. intros s' Hs'.
  replace (a + Z.of_nat (S n)) with (a + 1 + Z.of_nat n) by lia. apply IH; [|done]. intros i t Hi. apply Hf. lia.
Qed.

Definition paint_size : Z := PAINT_W * PAINT_H.

(** The pixel [k] of the picture is at most three pixels from the point, and both are on
    the canvas. *)
Definition near (dx dy : Z) : bool := dx * dx + dy * dy <=? 9.
Definition mark (c : canvas) (x y k : Z) : bool :=
  inside x y (c_x c) (c_y c) (c_w c) (c_h c) && (k mod PAINT_W <? c_w c) && (k / PAINT_W <? c_h c) &&
  near (c_x c + k mod PAINT_W - x) (c_y c + k / PAINT_W - y).

Lemma near_range dx dy : near dx dy = true -> -3 <= dx <= 3 /\ -3 <= dy <= 3.
Proof. unfold near. intros H. bool_prop. nia. Qed.

Definition canvas_ok (c : canvas) : Prop := c_w c <= PAINT_W /\ c_h c <= PAINT_H.

Lemma canvas_of_ok w : canvas_ok (canvas_of w).
Proof. unfold canvas_ok, canvas_of. cbn [c_w c_h]. split; case_if; lia. Qed.

Section strokes.
Context {E : Type} `{!Screen E} (T : Prop) (J : E -> Prop) `{!ScreenLaws T J}.

(** The marks of the rows before [yy], and of this row before [xx]. *)
Definition upto (c : canvas) (px py yy xx k : Z) : bool :=
  let dx := k mod PAINT_W - px in
  let dy := k / PAINT_W - py in
  (k mod PAINT_W <? c_w c) && (k / PAINT_W <? c_h c) && near dx dy && ((dy <? yy) || (dy =? yy) && (dx <? xx)).

Lemma upto_next c px py yy xx k :
  upto c px py yy (xx + 1) k =
  if (k mod PAINT_W =? px + xx) && (k / PAINT_W =? py + yy)
  then (px + xx <? c_w c) && (py + yy <? c_h c) && near xx yy else upto c px py yy xx k.
Proof.
  unfold upto. destruct (Z.eqb_spec (k mod PAINT_W) (px + xx)) as [->|Hx]; cbn [andb].
  - destruct (Z.eqb_spec (k / PAINT_W) (py + yy)) as [->|Hy].
    + replace (px + xx - px) with xx by lia. replace (py + yy - py) with yy by lia. rewrite Z.eqb_refl.
      replace (xx <? xx + 1) with true by (symmetry; apply Z.ltb_lt; lia). by rewrite orb_true_r, andb_true_r.
    + by replace (k / PAINT_W - py =? yy) with false by (symmetry; apply Z.eqb_neq; lia).
  - by replace (k mod PAINT_W - px <? xx + 1) with (k mod PAINT_W - px <? xx) by (apply eq_true_iff_eq; rewrite !Z.ltb_lt; lia).
Qed.

Definition marked (c : canvas) (px py : Z) (paint : list Z) (yy xx : Z) (s : list Z * E) : Prop :=
  J (snd s) /\ length (fst s) = length paint /\
  forall k, 0 <= k < paint_size -> rd (fst s) k = if upto c px py yy xx k then Some 1 else rd paint k.

Lemma word32_u32 x : word32 (u32 x).
Proof. apply u32_range. Qed.

(** The pixel of a column and a row. *)
Lemma pixel_at nx ny k : 0 <= nx < 640 -> 0 <= k -> (k =? ny * 640 + nx) = (k mod 640 =? nx) && (k / 640 =? ny).
Proof.
  intros Hx Hk. pose proof (Z.div_mod k 640 ltac:(lia)). pose proof (Z.mod_pos_bound k 640 ltac:(lia)).
  destruct (Z.eqb_spec k (ny * 640 + nx)) as [->|Hne].
  - symmetry. rewrite Z.div_add_l, Z.div_small, Z.add_0_r, Z.eqb_refl, andb_true_r by lia. apply Z.eqb_eq.
    rewrite Z.add_comm, Z.mod_add by lia. by apply Z.mod_small.
  - symmetry. apply andb_false_iff. rewrite !Z.eqb_neq. lia.
Qed.

Lemma dab_safe c px py paint xx yy s :
  canvas_ok c -> len paint = paint_size -> marked c px py paint yy xx s ->
  safe T (dab c px py xx yy s) (marked c px py paint yy (xx + 1)).
Proof.
  intros (C1 & C2) Hp (HJ & Hl & Hs). destruct s as [p e]. cbn [fst snd] in *. unfold dab.
  destruct (near xx yy) eqn:En; unfold near in En; rewrite En; cbn [negb].
  2:{ split; [done|]. split; [done|]. intros k Hk. cbn [fst]. rewrite (Hs k Hk), upto_next. unfold near. rewrite En, !andb_false_r.
      destruct ((k mod PAINT_W =? px + xx) && (k / PAINT_W =? py + yy)) eqn:E1; [|done]. bool_prop. unfold upto, near.
      replace (k mod PAINT_W - px) with xx by lia. replace (k / PAINT_W - py) with yy by lia. by rewrite (proj2 (Z.leb_gt _ _) En), !andb_false_r. }
  unfold paint_size, PAINT_W, PAINT_H in *.
  destruct ((0 <=? px + xx) && (0 <=? py + yy) && (px + xx <? c_w c) && (py + yy <? c_h c)) eqn:Ein.
  - bool_prop. rewrite wr_Some by lia. cbn [ub mbind res_bind]. eapply safe_bind; [apply law_pixel; [apply word32_u32|apply word32_u32|exact HJ]|].
    intros e' HJ'. split; [done|]. cbn [fst snd]. split; [by rewrite length_insert|]. intros k Hk. rewrite upto_next. unfold PAINT_W, near.
    rewrite (proj2 (Z.leb_le _ _) En), <- pixel_at by lia. destruct (Z.eqb_spec k ((py + yy) * 640 + (px + xx))) as [->|Hne].
    + rewrite (proj2 (Z.ltb_lt (px + xx) _)), (proj2 (Z.ltb_lt (py + yy) _)) by lia. cbn [andb].
      eapply rd_wr_eq. apply wr_Some. lia.
    + rewrite <- Hs by done. eapply rd_wr_ne; [apply wr_Some; lia|done].
  - split; [done|]. split; [done|]. intros k Hk. cbn [fst]. rewrite (Hs k Hk), upto_next. unfold PAINT_W in *.
    destruct ((k mod 640 =? px + xx) && (k / 640 =? py + yy)) eqn:E1; [|done]. bool_prop.
    pose proof (Z.mod_pos_bound k 640 ltac:(lia)). pose proof (Z.div_pos k 640 ltac:(lia) ltac:(lia)).
    assert (Hout : (px + xx <? c_w c) && (py + yy <? c_h c) = false).
    { rewrite <- Ein. replace (0 <=? px + xx) with true by (symmetry; apply Z.leb_le; lia).
      by replace (0 <=? py + yy) with true by (symmetry; apply Z.leb_le; lia). }
    unfold upto, PAINT_W. replace (k mod 640) with (px + xx) by lia. replace (k / 640) with (py + yy) by lia. by rewrite Hout.
Qed.

Lemma rows_end c px py paint yy s : marked c px py paint yy 4 s <-> marked c px py paint (yy + 1) (-3) s.
Proof.
  assert (H : forall k, upto c px py yy 4 k = upto c px py (yy + 1) (-3) k).
  { intros k. unfold upto. destruct (near (k mod PAINT_W - px) (k / PAINT_W - py)) eqn:En; [|by rewrite !andb_false_r].
    apply near_range in En. f_equal. apply eq_true_iff_eq. rewrite !orb_true_iff, !andb_true_iff, !Z.ltb_lt, !Z.eqb_eq. lia. }
  unfold marked. split; intros (H1 & H2 & H3); (split; [done|]); (split; [done|]); intros k Hk; rewrite H3 by done; by rewrite H.
Qed.

Lemma paint_at_safe w x y paint e :
  len paint = paint_size -> J e ->
  safe T (paint_at w x y (paint, e)) (fun '(paint', e') => J e' /\ length paint' = length paint /\
    forall k, 0 <= k < paint_size -> rd paint' k = if mark (canvas_of w) x y k then Some 1 else rd paint k).
Proof.
  intros Hp HJ. pose proof (canvas_of_ok w) as Hc. unfold paint_at. set (c := canvas_of w) in *. destruct (inside x y _ _ _ _) eqn:Ein; cbn [negb].
  2:{ split; [done|]. split; [done|]. intros k Hk. unfold mark. by rewrite Ein. }
  set (px := x - c_x c). set (py := y - c_y c).
  eapply safe_mono; [apply (for_range_safe T (fun yy => marked c px py paint yy (-3)))|].
  - intros yy s Hyy Hs. eapply safe_mono; [apply (for_range_safe T (fun xx => marked c px py paint yy xx)); [|exact Hs]|].
    + intros xx s' Hxx Hs'. by apply dab_safe.
    + intros s'. apply rows_end.
  - split; [done|]. split; [done|]. intros k Hk. unfold upto.
    destruct (near (k mod PAINT_W - px) (k / PAINT_W - py)) eqn:En; [|by rewrite andb_false_r].
    apply near_range in En. cbn [fst]. replace (k / PAINT_W - py <? -3) with false by (symmetry; apply Z.ltb_ge; lia).
    replace (k mod PAINT_W - px <? -3) with false by (symmetry; apply Z.ltb_ge; lia). by rewrite andb_false_r, andb_false_r.
  - intros [paint' e'] (H1 & H2 & H3). split; [done|]. split; [done|]. intros k Hk. cbn [fst] in H3. rewrite H3 by done.
    unfold upto, mark. rewrite Ein. cbn [andb].
    replace (c_x c + k mod PAINT_W - x) with (k mod PAINT_W - px) by (unfold px; lia).
    replace (c_y c + k / PAINT_W - y) with (k / PAINT_W - py) by (unfold py; lia).
    destruct (near (k mod PAINT_W - px) (k / PAINT_W - py)) eqn:En; [|by rewrite !andb_false_r].
    apply near_range in En. replace (k / PAINT_W - py <? -3 + Z.of_nat 7) with true by (symmetry; apply Z.ltb_lt; lia).
    by rewrite !andb_true_r.
Qed.

(** C17. A stroke of the mouse from one point to another ends and stays inside the
    picture: the pixels set are those that were, and the discs of three pixels about
    the points of a line between the two, as far as they are on the canvas. *)
Theorem stroke_correct w x0 y0 x1 y1 paint e :
  len paint = paint_size -> J e ->
  exists l, straight x0 y0 x1 y1 l /\
    safe T (paint_line (paint_at w) x0 y0 x1 y1 (paint, e)) (fun '(paint', e') => J e' /\ length paint' = length paint /\
      forall k, 0 <= k < paint_size ->
        rd paint' k = if existsb (fun p => mark (canvas_of w) (fst p) (snd p) k) l then Some 1 else rd paint k).
Proof.
  intros Hp HJ. destruct (paint_line_straight (paint_at w) x0 y0 x1 y1) as (l & Hl & ->). exists l. split; [done|].
  clear Hl. revert paint e Hp HJ. induction l as [|[x y] l IH]; intros paint e Hp HJ; cbn [plot_all existsb fst snd].
  { split; [done|]. by split. }
  eapply safe_bind; [by apply paint_at_safe|]. intros [paint1 e1] (H1 & H2 & H3).
  eapply safe_mono; [apply IH; [lia|done]|]. intros [paint2 e2] (H4 & H5 & H6). split; [done|]. split; [congruence|].
  intros k Hk. rewrite H6, H3 by done. by destruct (existsb _ l), (mark _ x y k).
Qed.
End strokes.
