(* ===== verification/VelaAster.v ===== *)
(** * The browser with its document engine (kernel/vela.c over kernel/aster.c)

    The engine of AsterParse, AsterLayout and AsterPaint as the one Vela runs on, its
    laws within the limits it has, and sessions of the two together. *)

From S2P Require Import Prelude Cstr NetEnv VelaText Vela VelaSafe VelaSession DesktopScreen AsterDoc AsterCss AsterText AsterTree AsterParse AsterSafe AsterWf AsterLayout AsterFlow AsterPaint.
#[local] Open Scope Z_scope.

(** The calls of vela.c.  [stack] is what the array of open nodes of
    [aster_parse_html] holds before it is used. *)
Definition aster_engine {E} `{!Screen E, !Pictures E} (stack : list Z) : AsterEngine AsterDocument E := {|
  Vela.aster_parse_html d h := '(_, d) ← AsterParse.aster_parse_html stack d h; Some d;
  Vela.aster_layout := AsterLayout.aster_layout;
  Vela.aster_link_at := AsterLayout.aster_link_at;
  Vela.aster_document_height := AsterLayout.aster_document_height;
  Vela.aster_title := AsterDoc.title;
  Vela.aster_set_title := AsterDoc.set_title;
  Vela.aster_version := AsterLayout.aster_version;
  Vela.aster_paint := AsterPaint.aster_paint
|}.

(** A page the engine parses inside its arrays. *)
Definition aster_page (h : bytes) : Prop := tame h /\ len h <= 24575.

(** Widths that 16 bits hold; any memory for the document. *)
Definition aster_limits : limits AsterDocument := mk_limits aster_page 32767 arrays_ok.

(** A document that was laid out. *)
Record aster_ok (d : AsterDocument) : Prop := {
  a_doc : doc_ok d;
  a_paint : exists W, W <= 32767 /\ paint_ok W d;
  a_height : 0 <= document_height d <= 536870912
}.

Lemma doc_arrays d : doc_ok d -> arrays_ok d.
Proof. intros [(H1 & _) (H2 & _) (H3 & _) _ H4 _]. by repeat split. Qed.

Lemma laid_out_ok d w : doc_ok d -> 80 <= w <= 32767 -> returns (AsterLayout.aster_layout d w) aster_ok.
Proof.
  intros Hd Hw. destruct (layout_ok d w Hd) as (d' & -> & Hd' & Hp & _ & _ & _ & Hh); [lia|]. exists d'. split; [done|].
  split; [done| |lia]. exists (Z.max 120 w). split; [lia|done].
Qed.

Lemma link_fits W d x y scroll cap :
  doc_ok d -> paint_ok W d -> 0 < cap ->
  returns (AsterLayout.aster_link_at d x y scroll cap) (fun l => match l with Some u => fits cap u | None => True end).
Proof.
  intros Hd Hp Hc. unfold AsterLayout.aster_link_at. if_false. pose proof Hp as (_ & P & R).
  destruct (link_loop_spec W (Z.to_nat (paint_count d)) d x (y + scroll) cap Hd Hp Hc) as (u & E1 & H); [lia|].
  exists u. split; [done|]. destruct u as [t|]; [|done]. destruct H as (j & i & Hj & Hi & _ & -> & _). apply text_of_fits.
  destruct (R j i ltac:(lia) Hi) as [_ (? & ? & ?) _ _ _]. pose proof (d_text _ Hd) as [L U]. rewrite slice_length; lia.
Qed.

Lemma startpage_ok : aster_page startpage_html.
Proof. split; [apply tame_plain|]; by apply (bool_decide_unpack _); vm_compute. Qed.

Section laws.
Context {E : Type} `{!Screen E, !Pictures E} (T : Prop) (J : E -> Prop) `{!ScreenLaws T J, !PicturesLaws T J}.
Context (stack : list Z) (Hstack : length stack = 48%nat).

(** The engine keeps the laws the browser relies on. *)
Lemma aster_engine_laws : AsterLaws (AsterEngine0 := aster_engine stack) T aster_ok J aster_limits.
Proof.
  split; cbn [Vela.aster_parse_html Vela.aster_layout Vela.aster_link_at Vela.aster_document_height Vela.aster_title
    Vela.aster_set_title Vela.aster_version Vela.aster_paint aster_engine readable widest storage aster_limits].
  - lia.
  - exact startpage_ok.
  - intros d Hd. by apply doc_arrays, a_doc.
  - intros d h w Hd [Ht Hl] [Hz _] Hw.
    destruct (page_parse_ok stack d h Hd Hstack Ht Hz Hl) as (r & d1 & -> & Hd1 & _). cbn [mbind option_bind].
    by apply laid_out_ok.
  - intros d w [Hd _ _] Hw. by apply laid_out_ok.
  - intros d x y s [Hd (W & _ & Hp) _] _ _ _. by apply (link_fits W).
  - intros d Hd. apply (a_height _ Hd).
  - intros d [Hd _ _]. apply (d_title _ Hd).
  - intros d t [Hd (W & HW & Hp) Hh] Ht. split; [|by exists W|done]. destruct Hd. by split.
  - done.
  - by apply lit_nonzero.
  - intros d x y w h s e [Hd (W & HW & Hp) _] He _ _. by apply (aster_paint_safe T J W).
Qed.
End laws.


(** ** A session

    The screen keeps the texts that are drawn; the network serves two pages, one of
    which writes a paragraph. *)
Module Bench.
Import AsterPaint.Shown.

#[export] Instance line : Console (list bytes) := {| serial_write := fun _ e => Ok e |}.
#[export] Instance line_laws : ConsoleLaws (E := list bytes) False (fun _ => True).
Proof. by intros t e _ _. Qed.

Definition scripted : bytes := chars "<title>A</title><script>document.write('<p>new')</script>".
Definition linked : bytes := chars "<h1>B</h1><a href=a.html>back</a>".

Definition get (u raw st : bytes) (e : list bytes) : res (Z * bytes * bytes * list bytes) :=
  if bool_decide (u = chars "http://one.test/a.html") then Ok (1, scripted, chars "HTTP 200", e)
  else if bool_decide (u = chars "http://one.test/b.html") then Ok (1, linked, chars "HTTP 200", e)
  else Ok (0, [], chars "HTTP 404", e).

Definition ops : VelaPlatformOps (list bytes) :=
  mk_ops VELA_PLATFORM_ABI_VERSION ops_size VELA_PLATFORM_CAP_HTTP (Fn get) NullFn NullFn NullFn NullFn NullFn NullFn NullFn.

(** Short pages are within the limits. *)
Lemma short_page h : len h <= 190 -> len (after_scripts h) <= 190 -> displayable aster_limits h.
Proof. intros H1 H2. split; (split; [by apply tame_short|lia]). Qed.

Lemma engine_ops_ok : ops_ok False (fun _ => True) aster_limits ops.
Proof.
  split; cbn [http_get request_repaint op_log resource_get capabilities ops fn_ok]; try done.
  intros u raw st e _ _ _ _. unfold get.
  repeat case_if; (split; [first [text|by apply fits_nil]|]; split; [text|]; split; [done|]); intros Hok; [..|done];
    apply short_page; by apply (bool_decide_unpack _); vm_compute.
Qed.

Definition use : list event :=
  [Load (chars "one.test/a.html"); Paint 0 80 720 400; Load (chars "one.test/b.html"); Click 5 40; Resize 300 20;
   ScrollBy 1000; LoadHtml (Ptr (chars "<p>local")) Null; Paint 0 80 720 400].

Lemma paint_event : event_ok aster_limits (Paint 0 80 720 400).
Proof.
  cbn [event_ok]. cbn [widest aster_limits]. split; [lia|]. split; [|lia].
  repeat (constructor; [unfold is_int; lia|]). constructor.
Qed.

Lemma engine_use_ok : Forall (event_ok aster_limits) use.
Proof.
  unfold use. constructor; [by apply lit_nonzero|]. constructor; [exact paint_event|].
  constructor; [by apply lit_nonzero|]. constructor; [cbn [event_ok]; unfold is_int; lia|].
  constructor; [cbn [event_ok widest aster_limits]; lia|]. constructor; [cbn [event_ok]; lia|].
  constructor; [|constructor; [exact paint_event|constructor]].
  split; [|done]. split; [by apply lit_nonzero|]. apply short_page; by apply (bool_decide_unpack _); vm_compute.
Qed.

(** What was drawn: the paragraph the script wrote, and the local document. *)
Example use_drawn :
  (match session (AsterEngine0 := aster_engine (replicate 48 7)) 700 (Ptr ops) Page.before use [] with
   | Ok (v, l) => Some (g_history_count v, vela_title (AsterEngine0 := aster_engine (E := list bytes) []) v, l)
   | _ => None end)
  = Some (4, chars "Untitled page", [chars "new"; chars "local"]).
Proof. vm_compute. reflexivity. Qed.

End Bench.
