(* ===== verification/BrowserImage.v ===== *)
(** * Pictures of a page (kernel/browser_image.c)

    A picture is fetched through the browser, decoded and drawn scaled, each pixel of
    the screen from the nearest one of the file.  It is an instance of the class that
    AsterPaint draws pages with: screen, browser and buffers together are an
    environment of [aster_paint]. *)

From S2P Require Import Prelude Cstr NetEnv VelaText Vela VelaSafe Image DesktopScreen DesktopPaint AsterPaint.
#[local] Open Scope Z_scope.

Definition IMAGE_DATA_CAP : Z := 256 * 1024.
Definition IMAGE_RGB_CAP : Z := 320 * 240 * 3.

Record buffers := mk_buffers { image_data : bytes; image_rgb : bytes }.

(** The result of a call through a pointer the caller owns. *)
Definition deref {A} (p : ptr A) : res A := match p with Ptr a => Ok a | Null => Fault end.

(** [(uint32_t)(((uint64_t)dy*info.height)/h)], kept below the size of the file. *)
Definition nearest (d size n : Z) : Z :=
  let s := u32 (u64 (d * size) / n) in if size <=? s then u32 (size - 1) else s.

Section image.
Context {Doc E : Type} `{!AsterEngine Doc E, !Console E, !Screen E}.
Local Abbreviation world := (vela Doc E * E)%type.

Definition image_pixel (rgb : bytes) (i : VelaImageInfo) (x y w h dy dx : Z) (e : E) : res E :=
  let p := (nearest dy (height i) h * width i + nearest dx (width i) w) * 3 in
  r ← ub (rd rgb p);
  g ← ub (rd rgb (p + 1));
  b ← ub (rd rgb (p + 2));
  gfx_pixel (u32 (x + dx)) (u32 (y + dy)) (Z.lor (Z.lor (u32 (Z.shiftl r 16)) (u32 (Z.shiftl g 8))) b) e.

Definition draw_image (rgb : bytes) (i : VelaImageInfo) (x y w h : Z) (e : E) : res E :=
  for_range (Z.to_nat h) 0 (fun dy => for_range (Z.to_nat w) 0 (fun dx => image_pixel rgb i x y w h dy dx)) e.

Definition gfx_image_uri (x y w h : Z) (uri : ptr bytes) (s : buffers * world) : res (Z * (buffers * world)) :=
  let '(b, (v, e)) := s in
  if is_null uri || (w =? 0) || (h =? 0) then Ok (0, s)
  else
    '(ok, (d, n, _, _), (v, e)) ← vela_resource_get uri (Ptr (image_data b)) IMAGE_DATA_CAP (Ptr 0) (Ptr []) 64 (Ptr []) 96 (v, e);
    data ← deref d;
    let b := mk_buffers data (image_rgb b) in
    if ok =? 0 then Ok (0, (b, (v, e)))
    else
      n ← deref n;
      info ← ub (vela_image_probe data n);
      match info with
      | None => Ok (0, (b, (v, e)))
      | Some i =>
          if (width i =? 0) || (height i =? 0) || (IMAGE_RGB_CAP <? u64 (u64 (width i * height i) * 3)) then Ok (0, (b, (v, e)))
          else
            '(rgb, r) ← ub (vela_image_decode_rgb24 data n (image_rgb b) IMAGE_RGB_CAP);
            let b := mk_buffers data rgb in
            match r with
            | None => Ok (0, (b, (v, e)))
            | Some i =>
                e ← draw_image rgb i x y (if 640 <? w then 640 else w) (if 480 <? h then 480 else h) e;
                Ok (1, (b, (v, e)))
            end
      end.

(** ** Safety *)

(** The buffers hold bytes; the platform fills the buffer it is given, and says how
    much of it.  The height a BMP file gives is not the one number whose negation
    overflows (vela_image.c:4). *)
Definition buffers_ok (b : buffers) : Prop :=
  bytes_ok (image_data b) /\ len (image_data b) = IMAGE_DATA_CAP /\ len (image_rgb b) = IMAGE_RGB_CAP.

Definition filled (dc : Z) (d : ptr bytes) (n : ptr Z) (ok : Z) : Prop :=
  exists data, d = Ptr data /\ bytes_ok data /\ len data = dc /\ (ok <> 0 -> negatable data /\ exists k, n = Ptr k /\ 0 <= k <= dc).

Definition fills (T : Prop) (J : E -> Prop) (p : VelaPlatformOps E) : Prop :=
  fn_ok (fun get => forall u data n t s dc tc sc e, fits 256 u -> bytes_ok data -> len data = dc -> J e ->
    safe T (get u (Ptr data, Ptr n, t, s) dc tc sc e) (fun '(ok, (d, n', _, _), e') => filled dc d n' ok /\ J e')) (resource_get p).

Context (T : Prop) (D : Doc -> Prop) (J : E -> Prop) (room : limits Doc).
Context `{!AsterLaws T D J room, !ConsoleLaws T J, !ScreenLaws T J}.

Lemma fetch_picture uri data v e :
  vela_ok T D J room v -> J e -> (ready v = true -> fills T J (g_platform v)) -> fits 256 uri ->
  bytes_ok data -> len data = IMAGE_DATA_CAP ->
  safe T (vela_resource_get (Ptr uri) (Ptr data) IMAGE_DATA_CAP (Ptr 0) (Ptr []) 64 (Ptr []) 96 (v, e))
    (fun '(ok, (d, n, _, _), (v', e')) => filled IMAGE_DATA_CAP d n ok /\ J e' /\
      vela_ok T D J room v' /\ g_platform v' = g_platform v /\ ready v' = ready v).
Proof.
  intros Hv He Hp Hu Hd Hl. unfold vela_resource_get, VELA_URL_CAP. cbv zeta.
  assert (H0 : filled IMAGE_DATA_CAP (Ptr data) (Ptr 0) 0) by by exists data. destruct uri as [|c uri]; [done|]. set (t := c :: uri) in *.
  cbn [is_null]. case_if; [done|]. case_if; [done|].
  destruct (resolve_fits (tls v) (Ptr (text_of (g_url v))) t (g_status v) _ (url_text T D J room v Hv) Hu (s_status _ _ _ _ _ Hv) eq_refl) as [Hst Hu'].
  destruct (resolve _ _ _ _ _) as [u st]; cbn [fst snd] in *.
  assert (Hv1 : vela_ok T D J room (set_status st v)) by by apply set_status_ok.
  destruct u as [u|]; [|done]. case_if; [done|].
  assert (Hr : ready v = true) by (unfold can in *; by bool_prop). specialize (Hp Hr). cbn [g_platform set_status].
  unfold fills, called, fn_ok in *. destruct (resource_get (g_platform v)) as [| |get]; [done|done|]. cbn [mbind res_bind].
  eapply safe_bind; [by apply Hp|]. intros [[ok [[[d n] t'] s']] e'] [Hfill He2]. done.
Qed.

Lemma nearest_range d size n : 0 < size <= 1024 -> 0 <= d < n -> n <= 640 -> 0 <= nearest d size n < size.
Proof.
  intros Hs Hd Hn. unfold nearest, u64. rewrite (Z.mod_small (d * size)) by nia.
  assert (H : 0 <= d * size / n < size) by (split; [apply Z.div_pos; nia|apply Z.div_lt_upper_bound; nia]).
  rewrite (u32_id (d * size / n)) by lia. case_if; lia.
Qed.

Lemma draw_image_ok rgb i x y w h e :
  info_ok i -> width i * height i * 3 <= len rgb -> 0 <= w <= 640 -> 0 <= h <= 480 -> J e -> safe T (draw_image rgb i x y w h e) J.
Proof.
  intros (Iw & Ih & _) Hl Hw Hh He. unfold draw_image. apply (for_range_safe T (fun _ => J)); [|done]. intros dy e1 Hdy He1.
  apply (for_range_safe T (fun _ => J)); [|done]. intros dx e2 Hdx He2. unfold image_pixel.
  pose proof (nearest_range dy (height i) h ltac:(lia) ltac:(lia) ltac:(lia)).
  pose proof (nearest_range dx (width i) w ltac:(lia) ltac:(lia) ltac:(lia)). cbv zeta.
  set (sy := nearest dy _ _) in *. set (sx := nearest dx _ _) in *. assert (Hp : 0 <= sy * width i + sx < width i * height i) by nia.
  destruct (rd_is_Some rgb ((sy * width i + sx) * 3)) as [r ->]; [lia|]. cbn [ub mbind res_bind].
  destruct (rd_is_Some rgb ((sy * width i + sx) * 3 + 1)) as [g ->]; [lia|]. cbn [ub mbind res_bind].
  destruct (rd_is_Some rgb ((sy * width i + sx) * 3 + 2)) as [b ->]; [lia|]. cbn [ub mbind res_bind].
  apply law_pixel; (apply u32_range || done).
Qed.

Definition shown_ok (s : buffers * world) : Prop :=
  buffers_ok (fst s) /\ vela_ok T D J room (fst (snd s)) /\ J (snd (snd s)) /\
  (ready (fst (snd s)) = true -> fills T J (g_platform (fst (snd s)))).

(** Whatever the network sends for a picture. *)
Lemma gfx_image_uri_ok x y w h uri s :
  0 <= w -> 0 <= h -> match uri with Null => True | Ptr u => fits 256 u end -> shown_ok s ->
  safe T (gfx_image_uri x y w h uri s) (fun '(_, s') => shown_ok s').
Proof.
  destruct s as [[data rgb] [v e]]. intros Hw Hh Hu ((B1 & B2 & B3) & Hv & He & Hf). cbn [fst snd image_data image_rgb] in *.
  unfold gfx_image_uri. case_if; [done|]. destruct uri as [|uri]; [done|]. cbn [image_data image_rgb].
  eapply safe_bind; [by apply fetch_picture|].
  intros [[ok [[[d n] t] st]] [v1 e1]] ((data1 & -> & C1 & C2 & Hn) & He1 & Hv1 & P1 & P2). cbn [deref mbind res_bind].
  rewrite <- P1, <- P2 in Hf. assert (Hbuf : buffers_ok (mk_buffers data1 rgb)) by done.
  case_if; [done|]. destruct Hn as (Hneg & k & -> & Hk); [done|]. cbn [deref mbind res_bind].
  assert (Hk' : 0 <= k <= len data1) by lia.
  assert (Hprobe : returns (vela_image_probe data1 k) (fun _ => True)).
  { unfold vela_image_probe. destruct (pb_safe data1 k C1 Hk' Hneg) as (r & -> & _). cbn [mbind option_bind]. destruct r; [by eexists|].
    destruct (pp_safe data1 k Hk') as (r & -> & _). by eexists. }
  destruct Hprobe as (info & -> & _). cbn [ub mbind res_bind]. destruct info as [i|]; [|done]. case_if; [done|].
  destruct (picture_decode_ok data1 k rgb IMAGE_RGB_CAP C1 Hk' ltac:(lia) Hneg) as (rgb' & r & -> & Hr). cbn [ub mbind res_bind].
  destruct r as [i'|]; [|by subst rgb'].
  destruct Hr as (Hi & pixels & _ & Hpl & Hpc & ->).
  assert (Hl : len (blit rgb 0 pixels) = len rgb) by (rewrite blit_length; lia).
  eapply safe_bind; [apply draw_image_ok; [done|lia|case_if; lia|case_if; lia|exact He1]|]. intros e2 He2.
  split; [|done]. split; [done|]. split; [done|]. exact (eq_trans Hl B3).
Qed.
End image.

(** ** Screen, browser and buffers as one environment of [aster_paint] *)
Section environment.
Context {Doc E : Type} `{!AsterEngine Doc E, !Console E, !Screen E}.
Local Abbreviation env := (buffers * (vela Doc E * E))%type.

Definition on_screen {A} (f : E -> res (A * E)) (s : env) : res (A * env) :=
  let '(b, (v, e)) := s in '(a, e) ← f e; Ok (a, (b, (v, e))).
Definition on_screen_ (f : E -> res E) (s : env) : res env := let '(b, (v, e)) := s in e ← f e; Ok (b, (v, e)).

#[export] Instance page_screen : Screen env := {|
  gfx_width := gfx_width; gfx_height := gfx_height;
  gfx_rect x y w h c := on_screen_ (gfx_rect x y w h c); gfx_line_h x y w c := on_screen_ (gfx_line_h x y w c);
  gfx_pixel x y c := on_screen_ (gfx_pixel x y c);
  gfx_get_raw x y s := gfx_get_raw x y (snd (snd s)); gfx_put_raw x y r := on_screen_ (gfx_put_raw x y r);
  gfx_text x y s c k := on_screen (gfx_text x y s c k); gfx_display_text x y s c := on_screen (gfx_display_text x y s c);
  gfx_text_right x y s c := on_screen_ (gfx_text_right x y s c)
|}.
#[export] Instance page_pictures : Pictures env := {| AsterPaint.gfx_image_uri x y w h uri := gfx_image_uri x y w h (Ptr uri) |}.

Context (T : Prop) (D : Doc -> Prop) (J : E -> Prop) (room : limits Doc).
Context `{!AsterLaws T D J room, !ConsoleLaws T J, !ScreenLaws T J}.
Local Abbreviation ok := (shown_ok T D J room).

Lemma on_screen_ok {A} (Q : A -> Prop) f s : ok s -> (forall e, J e -> safe T (f e) (fun '(a, e') => Q a /\ J e')) ->
  safe T (on_screen f s) (fun '(a, s') => Q a /\ ok s').
Proof.
  destruct s as [b [v e]]. intros (H1 & H2 & H3 & H4) Hf. unfold on_screen. eapply safe_bind; [by apply Hf|]. by intros [a e'] [Ha He'].
Qed.
Lemma on_screen__ok f s : ok s -> (forall e, J e -> safe T (f e) J) -> safe T (on_screen_ f s) ok.
Proof. destruct s as [b [v e]]. intros (H1 & H2 & H3 & H4) Hf. unfold on_screen_. eapply safe_bind; [by apply Hf|]. by intros e' He'. Qed.

#[export] Instance page_screen_laws : ScreenLaws T ok.
Proof.
  split; cbn.
  - apply (law_width (T := T) (J := J)).
  - apply (law_screen_height (T := T) (J := J)).
  - intros. apply on_screen__ok; [done|]. intros. by apply law_rect.
  - intros. apply on_screen__ok; [done|]. intros. by apply law_line_h.
  - intros. apply on_screen__ok; [done|]. intros. by apply law_pixel.
  - intros x y [b [v e]] Hx Hy (_ & _ & He & _). by apply (law_get_raw (T := T) (J := J)).
  - intros. apply on_screen__ok; [done|]. intros. by apply law_put_raw.
  - intros. apply on_screen_ok; [done|]. intros. by apply law_text.
  - intros. apply on_screen_ok; [done|]. intros. by apply law_display_text.
  - intros. apply on_screen__ok; [done|]. intros. by apply law_text_right.
Qed.

#[export] Instance page_pictures_laws : PicturesLaws T ok.
Proof. intros x y w h uri s _ _ [Hw _] [Hh _] Hu Hs. cbn. by apply gfx_image_uri_ok. Qed.
End environment.
