(* ===== verification/Desktop.v ===== *)
(** * The desktop (kernel/desktop.c): state and drawing

    The static variables and the routines that draw them (lines 16-123).  The browser
    is Vela, used through its own operations; the framebuffer, the serial line, the
    clock, the memory manager and the network are classes.  A [world] is the state of
    the browser and of everything behind those classes. *)

From S2P Require Import Prelude Cstr NetEnv AsterDoc VelaText Vela VelaNative DesktopText DesktopScreen DesktopPaint.

Definition VERSION : bytes := chars "0.0.10".
Definition VELA_VERSION : bytes := chars "0.3.2-dev".
Definition TASKBAR_H : Z := 54.
Definition APP_COUNT : Z := 7.
Definition APP_TERMINAL : Z := 0.
Definition APP_FILES : Z := 1.
Definition APP_NOTES : Z := 2.
Definition APP_PAINT : Z := 3.
Definition APP_BROWSER : Z := 4.
Definition APP_NETWORK : Z := 5.
Definition APP_ABOUT : Z := 6.
Definition TERM_LINES : Z := 13.
Definition TERM_LEN : Z := 76.
Definition NOTE_CAP : Z := 1536.

(** The rest of the kernel, as the desktop calls it. *)
Class Kernel (E : Type) := {
  timer_ticks : E -> Z * E;
  timer_frequency : E -> Z;
  mouse_packet_size : E -> Z;
  pmm_free_pages : E -> Z;
  pmm_alloc_page : E -> res (Z * E);
  net_ready : E -> Z;
  net_driver_name : E -> bytes;
  net_get_ipv4 : E -> bytes;
  net_get_gateway : E -> bytes;
  net_rx_packets : E -> Z;
  net_tx_packets : E -> Z;
  net_ping_gateway : Z -> E -> res (Z * E);
  net_configure : bytes -> bytes -> bytes -> bytes -> E -> E
}.

(** ** State

    [term_cmd] and [notes] are the first [term_len] and [note_len] characters of their
    arrays, which end them with a zero; a line of the terminal is the text of its
    array.  [halted]: the machine was shut down. *)
Record desktop := mk_desktop {
  wins : list Window; ztop : Z; active_app : Z; start_open : Z;
  dragging : Z; drag_dx : Z; drag_dy : Z;
  mouse_x : Z; mouse_y : Z; mouse_left : Z; mouse_prev_left : Z;
  mpkt : list Z; mpkt_i : Z; shift_down : Z; last_second : Z;
  term_lines : list bytes; term_count : Z; term_cmd : bytes;
  notes : bytes; paint : list Z; net_ping_result : Z;
  cursor_under : list Z; cursor_saved : Z; cursor_sx : Z; cursor_sy : Z;
  halted : bool
}.

Definition set_wins l z a s d := mk_desktop l z a s (dragging d) (drag_dx d) (drag_dy d) (mouse_x d) (mouse_y d) (mouse_left d) (mouse_prev_left d) (mpkt d) (mpkt_i d) (shift_down d) (last_second d) (term_lines d) (term_count d) (term_cmd d) (notes d) (paint d) (net_ping_result d) (cursor_under d) (cursor_saved d) (cursor_sx d) (cursor_sy d) (halted d).
Definition set_dragging a x y d := mk_desktop (wins d) (ztop d) (active_app d) (start_open d) a x y (mouse_x d) (mouse_y d) (mouse_left d) (mouse_prev_left d) (mpkt d) (mpkt_i d) (shift_down d) (last_second d) (term_lines d) (term_count d) (term_cmd d) (notes d) (paint d) (net_ping_result d) (cursor_under d) (cursor_saved d) (cursor_sx d) (cursor_sy d) (halted d).
Definition set_mouse x y l p d := mk_desktop (wins d) (ztop d) (active_app d) (start_open d) (dragging d) (drag_dx d) (drag_dy d) x y l p (mpkt d) (mpkt_i d) (shift_down d) (last_second d) (term_lines d) (term_count d) (term_cmd d) (notes d) (paint d) (net_ping_result d) (cursor_under d) (cursor_saved d) (cursor_sx d) (cursor_sy d) (halted d).
Definition set_packet l i d := mk_desktop (wins d) (ztop d) (active_app d) (start_open d) (dragging d) (drag_dx d) (drag_dy d) (mouse_x d) (mouse_y d) (mouse_left d) (mouse_prev_left d) l i (shift_down d) (last_second d) (term_lines d) (term_count d) (term_cmd d) (notes d) (paint d) (net_ping_result d) (cursor_under d) (cursor_saved d) (cursor_sx d) (cursor_sy d) (halted d).
Definition set_keys s t d := mk_desktop (wins d) (ztop d) (active_app d) (start_open d) (dragging d) (drag_dx d) (drag_dy d) (mouse_x d) (mouse_y d) (mouse_left d) (mouse_prev_left d) (mpkt d) (mpkt_i d) s t (term_lines d) (term_count d) (term_cmd d) (notes d) (paint d) (net_ping_result d) (cursor_under d) (cursor_saved d) (cursor_sx d) (cursor_sy d) (halted d).
Definition set_term l n d := mk_desktop (wins d) (ztop d) (active_app d) (start_open d) (dragging d) (drag_dx d) (drag_dy d) (mouse_x d) (mouse_y d) (mouse_left d) (mouse_prev_left d) (mpkt d) (mpkt_i d) (shift_down d) (last_second d) l n (term_cmd d) (notes d) (paint d) (net_ping_result d) (cursor_under d) (cursor_saved d) (cursor_sx d) (cursor_sy d) (halted d).
Definition set_texts c n d := mk_desktop (wins d) (ztop d) (active_app d) (start_open d) (dragging d) (drag_dx d) (drag_dy d) (mouse_x d) (mouse_y d) (mouse_left d) (mouse_prev_left d) (mpkt d) (mpkt_i d) (shift_down d) (last_second d) (term_lines d) (term_count d) c n (paint d) (net_ping_result d) (cursor_under d) (cursor_saved d) (cursor_sx d) (cursor_sy d) (halted d).
Definition set_picture p r d := mk_desktop (wins d) (ztop d) (active_app d) (start_open d) (dragging d) (drag_dx d) (drag_dy d) (mouse_x d) (mouse_y d) (mouse_left d) (mouse_prev_left d) (mpkt d) (mpkt_i d) (shift_down d) (last_second d) (term_lines d) (term_count d) (term_cmd d) (notes d) p r (cursor_under d) (cursor_saved d) (cursor_sx d) (cursor_sy d) (halted d).
Definition set_cursor u s x y d := mk_desktop (wins d) (ztop d) (active_app d) (start_open d) (dragging d) (drag_dx d) (drag_dy d) (mouse_x d) (mouse_y d) (mouse_left d) (mouse_prev_left d) (mpkt d) (mpkt_i d) (shift_down d) (last_second d) (term_lines d) (term_count d) (term_cmd d) (notes d) (paint d) (net_ping_result d) u s x y (halted d).
Definition set_halted d := mk_desktop (wins d) (ztop d) (active_app d) (start_open d) (dragging d) (drag_dx d) (drag_dy d) (mouse_x d) (mouse_y d) (mouse_left d) (mouse_prev_left d) (mpkt d) (mpkt_i d) (shift_down d) (last_second d) (term_lines d) (term_count d) (term_cmd d) (notes d) (paint d) (net_ping_result d) (cursor_under d) (cursor_saved d) (cursor_sx d) (cursor_sy d) true.

Definition cursor_shape : list Z :=
  [0x8000; 0xC000; 0xE000; 0xF000; 0xF800; 0xFC00; 0xFE00; 0xFF00; 0xFF80; 0xF800; 0xDC00; 0x8E00; 0x0600; 0x0700; 0x0300; 0x0300; 0; 0].

Section drawing.
Context {Doc E : Type} `{!AsterEngine Doc E, !Console E, !Screen E, !Kernel E}.
(** ORION_ARCH_NAME, which the build defines. *)
Context (arch : bytes).
Local Abbreviation world := (vela Doc E * E)%type.
Local Abbreviation call := (world -> res world).

(** ** Calls of the graphics routines, with the conversions of their arguments *)

Definition on (f : E -> res E) : call := fun '(v, e) => e ← f e; Ok (v, e).
Definition rect (x y w h c : Z) : call := on (gfx_rect (u32 x) (u32 y) (u32 w) (u32 h) c).
Definition line_h (x y w c : Z) : call := on (gfx_line_h (u32 x) (u32 y) (u32 w) c).
Definition pixel (x y c : Z) : call := on (gfx_pixel (u32 x) (u32 y) c).
Definition label (x y : Z) (s : bytes) (c : Z) : call := on (fun e => '(_, e) ← gfx_text (u32 x) (u32 y) s c 1 e; Ok e).
Definition display (x y : Z) (s : bytes) (c : Z) : call := on (fun e => '(_, e) ← gfx_display_text (u32 x) (u32 y) s c e; Ok e).
Definition right (x y : Z) (s : bytes) (c : Z) : call := on (gfx_text_right (u32 x) (u32 y) s c).
Definition skip : call := fun w => Ok w.

(** Calls in order; one that depends on the world when it is reached; one that needs a
    text that was written to an array. *)
Fixpoint calls (l : list call) : call :=
  match l with
  | [] => skip
  | f :: l' => fun w => w ← f w; calls l' w
  end.
Definition now (f : E -> call) : call := fun w => f (snd w) w.
Definition with_text (t : option bytes) (f : bytes -> call) : call := fun w => t ← ub t; f t w.

(** [timer_frequency()?timer_ticks()/timer_frequency():0] *)
Definition seconds (e : E) : Z * E :=
  if timer_frequency e =? 0 then (0, e) else let '(t, e') := timer_ticks e in (t / timer_frequency e, e').

(** ** The background *)

Definition wall_color (y : Z) : Z :=
  let h := gfx_height in
  let t := u32 (y * 100) / (if h =? 0 then 1 else h) in
  let r := u32 (20 - u32 (t * 7) / 100) in
  let g := u32 (35 - u32 (t * 12) / 100) in
  let b := u32 (58 - u32 (t * 17) / 100) in
  Z.lor (Z.lor (u32 (Z.shiftl r 16)) (u32 (Z.shiftl g 8))) b.

(** [for(uint32_t y=0;y<H-TASKBAR_H;y+=8)] *)
Fixpoint wall_loop (fuel : nat) (y : Z) : call :=
  match fuel with
  | O => fun _ => NoFuel
  | S f =>
      if y <? u32 (gfx_height - TASKBAR_H) then
        fun w => w ← rect 0 y gfx_width 8 (wall_color y) w; wall_loop f (u32 (y + 8)) w
      else skip
  end.

Definition from_right (n : Z) : Z := if n <? gfx_width then gfx_width - n else 0.

Definition draw_wallpaper : call :=
  calls [wall_loop (Z.to_nat (gfx_height / 8 + 1)) 0;
    rect (from_right 390) 80 260 260 0x162B47; rect (from_right 355) 115 190 190 0x183451;
    rect (from_right 320) 150 120 120 0x1B3E5E;
    if 900 <? gfx_width then
      calls [display (gfx_width - 515) 126 (chars "ORION") 0x274E73;
        label (gfx_width - 510) 196 (chars "A DESKTOP BUILT DIRECTLY ON THE KERNEL") 0x385F82]
    else skip].

Definition icon_box (x y : Z) (name : bytes) (kind : Z) : call :=
  calls [rect (x + 10) y 48 48 0x1B2C42;
    if kind =? APP_TERMINAL then calls [rect (x + 19) (y + 13) 30 22 0x0C1118; label (x + 22) (y + 10) (chars ">_") 0x78B8FF]
    else if kind =? APP_FILES then calls [rect (x + 17) (y + 15) 34 25 0xE5B95C; rect (x + 20) (y + 10) 16 8 0xF1CA74]
    else if kind =? APP_NOTES then
      calls [rect (x + 18) (y + 9) 32 34 0xF1F4F7; for_range 4 0 (fun i => line_h (x + 23) (y + 17 + i * 6) 20 0x7990A7)]
    else if kind =? APP_PAINT then
      calls [rect (x + 18) (y + 10) 32 32 0xF4F5F6; rect (x + 23) (y + 15) 8 8 0x62A8FF; rect (x + 34) (y + 25) 10 10 0xE07388]
    else if kind =? APP_BROWSER then
      calls [rect (x + 17) (y + 10) 34 34 0xF2F7FB; rect (x + 21) (y + 14) 26 26 0x4B9FEA;
        rect (x + 30) (y + 14) 8 26 0xEAF5FF; line_h (x + 21) (y + 25) 26 0xEAF5FF]
    else if kind =? APP_NETWORK then
      calls [rect (x + 18) (y + 29) 5 11 0x7FC5FF; rect (x + 27) (y + 23) 5 17 0x7FC5FF;
        rect (x + 36) (y + 17) 5 23 0x7FC5FF; rect (x + 45) (y + 11) 5 29 0x7FC5FF]
    else calls [rect (x + 18) (y + 10) 32 32 0x223C5E; label (x + 29) (y + 10) (chars "i") 0xD8E9FB];
    label x (y + 53) name 0xE4ECF5].

Definition draw_desktop_icons : call :=
  calls [icon_box 26 42 (chars "Terminal") APP_TERMINAL; icon_box 26 133 (chars "Files") APP_FILES;
    icon_box 26 224 (chars "Notes") APP_NOTES; icon_box 26 315 (chars "Paint") APP_PAINT;
    icon_box 26 406 (chars "UN_Vela") APP_BROWSER; icon_box 26 497 (chars "Network") APP_NETWORK].

(** ** The taskbar and the menu *)

Definition visible (w : Window) : bool := negb (w_open w =? 0) && (w_minimized w =? 0).

Definition task_letter (i : Z) : bytes :=
  if i =? 0 then chars ">" else if i =? 1 then chars "F" else if i =? 2 then chars "N" else if i =? 3 then chars "P"
  else if i =? 4 then chars "V" else if i =? 5 then chars "W" else chars "i".

Definition draw_task (d : desktop) (y i : Z) : call := fun s =>
  w ← ub (rd (wins d) i);
  let x := 70 + i * 48 in
  calls [rect x (y + 8) 40 38 (if visible w then (if active_app d =? i then 0x263D59 else 0x172638) else 0x111C2A);
    label (x + 13) (y + 11) (task_letter i) 0xDDE8F3] s.

Definition draw_uptime (y : Z) : call := fun '(v, e) =>
  let '(sec, e) := seconds e in
  with_text (u64dec sec 20) (fun n =>
    right (gfx_width - 22) (y + 12) (append 24 (append 24 (chars "UP ") n) (chars "s")) 0xA4B5C8) (v, e).

Definition draw_taskbar (d : desktop) : call :=
  let y := u32 (gfx_height - TASKBAR_H) in
  calls [rect 0 y gfx_width TASKBAR_H 0x0C121B; line_h 0 y gfx_width 0x33445A;
    rect 14 (y + 9) 38 36 (if start_open d =? 0 then 0x16263A else 0x284B72); rect 23 (y + 17) 20 20 0x5CA8FF;
    label 29 (y + 12) (chars "O") 0xF6FAFE; for_range 7 0 (draw_task d y); draw_uptime y].

Definition names : list bytes :=
  [chars "Terminal"; chars "Files"; chars "Notes"; chars "Paint"; chars "UN_Vela"; chars "Network"; chars "About"].

(** [(int)H-TASKBAR_H-438] *)
Definition menu_y : Z := gfx_height - TASKBAR_H - 438.

Definition draw_entry (d : desktop) (i : Z) : call := fun s =>
  name ← ub (rd names i);
  let iy := menu_y + 68 + i * 43 in
  calls [if inside (mouse_x d) (mouse_y d) 24 iy 260 36 then rect 24 iy 260 36 0x203A56 else skip;
    label 38 (iy + 4) name 0xE4EDF6] s.

Definition draw_start_menu (d : desktop) : call :=
  if start_open d =? 0 then skip
  else
    let x := 14 in
    let y := menu_y in
    calls [rect (x + 6) (y + 6) 280 428 0x08101A; rect x y 280 428 0x142130; rect x y 280 58 0x19304A;
      label (x + 20) (y + 14) (chars "UN ORION") 0xEDF5FD;
      label (x + 20) (y + 38) (chars "Desktop Preview " ++ VERSION) 0x7894B0;
      for_range 7 0 (draw_entry d); line_h (x + 14) (y + 382) (280 - 28) 0x314255;
      label (x + 24) (y + 389) (chars "Shut down") 0xD5A0AA].

(** ** Windows *)

Definition draw_window_frame (d : desktop) (app : Z) : call := fun s =>
  w ← ub (rd (wins d) app);
  if negb (visible w) then Ok s
  else
    calls [rect (w_x w + 7) (w_y w + 8) (w_w w) (w_h w) 0x07101A;
      rect (w_x w) (w_y w) (w_w w) TITLE_H (if active_app d =? app then 0x15283D else 0x26313E);
      rect (w_x w) (w_y w + TITLE_H) (w_w w) 1 0xC5CED8; rect (w_x w) (w_y w) 1 (w_h w) 0xC5CED8;
      rect (w_x w + w_w w - 1) (w_y w) 1 (w_h w) 0xC5CED8; rect (w_x w) (w_y w + w_h w - 1) (w_w w) 1 0xC5CED8;
      label (w_x w + 16) (w_y w + 7) (w_title w) 0xF0F5FA;
      rect (w_x w + w_w w - 40) (w_y w + 5) 34 31
        (if inside (mouse_x d) (mouse_y d) (w_x w + w_w w - 40) (w_y w + 5) 34 31 then 0xA94052 else 0x263747);
      label (w_x w + w_w w - 29) (w_y w + 5) (chars "x") 0xF8EDF0] s.

(** [for(int i=0;i<term_count;i++,y+=23)] *)
Definition draw_line (d : desktop) (bx y i : Z) : call := fun s =>
  t ← ub (rd (term_lines d) i); label (bx + 18) (y + 23 * i) t 0xAABBCD s.

Definition draw_terminal (d : desktop) (w : Window) : call :=
  let bx := inner_x w in let by_ := inner_y w in let bw := inner_w w in let bh := inner_h w in
  calls [rect bx by_ bw bh 0x0A1018; label (bx + 18) (by_ + 14) (chars "Orion Terminal") 0x7FB9F4;
    right (bx + bw - 18) (by_ + 14) (chars "shell") 0x5E748B;
    for_range (Z.to_nat (term_count d)) 0 (draw_line d bx (by_ + 48));
    rect (bx + 14) (by_ + bh - 42) (bw - 28) 30 0x0E1722; label (bx + 21) (by_ + bh - 39) (chars "orion >") 0x65AFFF;
    label (bx + 116) (by_ + bh - 39) (term_cmd d) 0xE6EEF6].

Definition draw_files (w : Window) : call :=
  let bx := inner_x w in let by_ := inner_y w in let bw := inner_w w in let bh := inner_h w in
  calls [rect bx by_ bw bh 0xF2F5F8; rect bx by_ 150 bh 0xE4EAF0; label (bx + 18) (by_ + 16) (chars "Home") 0x253749;
    label (bx + 18) (by_ + 54) (chars "Desktop") 0x5F7184; label (bx + 18) (by_ + 87) (chars "Documents") 0x5F7184;
    label (bx + 18) (by_ + 120) (chars "System") 0x5F7184; label (bx + 178) (by_ + 18) (chars "Home") 0x213548;
    line_h (bx + 175) (by_ + 50) (bw - 195) 0xD0D9E2; icon_box (bx + 185) (by_ + 70) (chars "Notes.txt") APP_NOTES;
    icon_box (bx + 290) (by_ + 70) (chars "Canvas") APP_PAINT; icon_box (bx + 395) (by_ + 70) (chars "UN_Vela") APP_BROWSER;
    label (bx + 180) (by_ + 175) (chars "Desktop applications are native UN_Orion components.") 0x66798D].

(** The characters of the notes; the end of the text is where the caret goes. *)
Fixpoint notes_loop (l : bytes) (left bottom x y col : Z) (s : world) : res (Z * Z * world) :=
  match l with
  | [] => Ok (x, y, s)
  | c :: l' =>
      if negb (y <? bottom) then Ok (x, y, s)
      else
        let '(x, y, col) := if (c =? LF) || (58 <? col) then (left, y + 24, 0) else (x, y, col) in
        if c =? LF then notes_loop l' left bottom x y col s
        else
          let '(v, e) := s in
          '(adv, e) ← gfx_text (u32 x) (u32 y) [c] 0x303B43 1 e;
          notes_loop l' left bottom (x + adv) y (col + 1) (v, e)
  end.

Definition draw_notes (d : desktop) (w : Window) : call :=
  let bx := inner_x w in let by_ := inner_y w in let bw := inner_w w in let bh := inner_h w in
  calls [rect bx by_ bw bh 0xFAF9F2; rect bx by_ bw 36 0xE7E4D8;
    label (bx + 16) (by_ + 3) (chars "Notes   editable RAM document") 0x4A4B46;
    fun s => '(x, y, s) ← notes_loop (notes d) (bx + 20) (by_ + bh - 28) (bx + 20) (by_ + 52) 0 s;
      rect x (y + 25) 10 2 0x406D9A s].

Definition draw_paint (d : desktop) (w : Window) : call :=
  let bx := inner_x w in let by_ := inner_y w in let bw := inner_w w in let bh := inner_h w in
  let c := canvas_of w in
  calls [rect bx by_ bw bh 0xE9EDF1; rect bx by_ bw 46 0xD6DEE6; label (bx + 16) (by_ + 7) (chars "Brush") 0x33485B;
    rect (bx + 96) (by_ + 8) 60 30 0xF4F7FA; label (bx + 108) (by_ + 5) (chars "Clear") 0x33485B;
    rect (c_x c) (c_y c) (c_w c) (c_h c) 0xFFFFFF;
    for_range (Z.to_nat (c_h c)) 0 (fun yy => for_range (Z.to_nat (c_w c)) 0 (fun xx s =>
      p ← ub (rd (paint d) (yy * PAINT_W + xx));
      if p =? 0 then Ok s else pixel (c_x c + xx) (c_y c + yy) 0x253A52 s));
    rect (c_x c) (c_y c) (c_w c) 1 0xB9C3CC; rect (c_x c) (c_y c) 1 (c_h c) 0xB9C3CC].

Definition engine_line : bytes :=
  append 128 (append 128 (append 128 (chars "UN_Vela ") VELA_VERSION) (chars "  /  Aster ")) aster_version.

Definition draw_browser (w : Window) : call := fun s =>
  let v := fst s in
  let bx := inner_x w in let by_ := inner_y w in let bw := inner_w w in let bh := inner_h w in
  let aw := if bw - 238 <? 120 then 120 else bw - 238 in
  let u := vela_url v in
  calls [rect bx by_ bw bh 0xF5F7FA; rect bx by_ bw 58 0xDCE6EF;
    rect (bx + 12) (by_ + 10) 34 34 (if vela_can_back v then 0x315F88 else 0xAAB8C4); label (bx + 23) (by_ + 11) (chars "<") 0xFFFFFF;
    rect (bx + 52) (by_ + 10) 34 34 (if vela_can_forward v then 0x315F88 else 0xAAB8C4); label (bx + 63) (by_ + 11) (chars ">") 0xFFFFFF;
    rect (bx + 92) (by_ + 10) 42 34 0x6B8195; label (bx + 107) (by_ + 11) (chars "R") 0xFFFFFF;
    rect (bx + 144) (by_ + 10) aw 34 0xFFFFFF;
    label (bx + 154) (by_ + 11) (match u with [] => chars "Enter HTTP/HTTPS address..." | _ => u end)
      (match u with [] => 0x8C9AAA | _ => 0x26394B end);
    rect (bx + bw - 84) (by_ + 10) 70 34 0x3578B7; label (bx + bw - 63) (by_ + 11) (chars "Go") 0xFFFFFF;
    label (bx + 16) (by_ + 64) engine_line 0x4F6C86; right (bx + bw - 16) (by_ + 64) (vela_status v) 0x70869A;
    line_h (bx + 14) (by_ + 92) (bw - 28) 0xD3DDE6; vela_paint bx (by_ + 98) bw (bh - 104)] s.

Definition draw_network (d : desktop) (w : Window) : call :=
  let bx := inner_x w in let by_ := inner_y w in let bw := inner_w w in let bh := inner_h w in
  calls [rect bx by_ bw bh 0xF0F4F8; label (bx + 24) (by_ + 20) (chars "Network") 0x233A50;
    now (fun e => label (bx + 24) (by_ + 58) (if net_ready e =? 0 then chars "No supported adapter" else chars "Connected")
      (if net_ready e =? 0 then 0xA04455 else 0x2A7B4F));
    now (fun e => label (bx + 24) (by_ + 98) (append 96 (chars "Adapter: ") (net_driver_name e)) 0x5C7184);
    now (fun e => with_text (iptext (net_get_ipv4 e) 32) (fun v => label (bx + 24) (by_ + 132) (append 96 (chars "IPv4: ") v) 0x5C7184));
    now (fun e => with_text (iptext (net_get_gateway e) 32) (fun v => label (bx + 24) (by_ + 166) (append 96 (chars "Gateway: ") v) 0x5C7184));
    now (fun e => with_text (u64dec (net_rx_packets e) 24) (fun r => with_text (u64dec (net_tx_packets e) 24) (fun t =>
      label (bx + 24) (by_ + 200) (append 96 (append 96 (append 96 (chars "Packets RX/TX: ") r) (chars " / ")) t) 0x5C7184)));
    rect (bx + 24) (by_ + 248) 170 36 0x2D6FA8; label (bx + 45) (by_ + 250) (chars "Ping gateway") 0xFFFFFF;
    if 0 <=? net_ping_result d then
      label (bx + 220) (by_ + 250) (if net_ping_result d =? 0 then chars "No reply" else chars "Reply received")
        (if net_ping_result d =? 0 then 0xA04455 else 0x2A7B4F)
    else skip;
    label (bx + 24) (by_ + 310) (chars "Ethernet / ARP / IPv4 / ICMP / UDP / DNS / TCP / HTTP") 0x667C90].

Definition draw_about (w : Window) : call :=
  let bx := inner_x w in let by_ := inner_y w in let bw := inner_w w in let bh := inner_h w in
  calls [rect bx by_ bw bh 0xF0F4F8; display (bx + 24) (by_ + 22) (chars "ORION") 0x1E4267;
    label (bx + 28) (by_ + 93) (chars "UN_Orion Desktop " ++ VERSION) 0x273A4D;
    label (bx + 28) (by_ + 126) (chars "Kernel architecture: " ++ arch) 0x63768A;
    label (bx + 28) (by_ + 162) (chars "Browser: UN_Vela " ++ VELA_VERSION) 0x63768A;
    label (bx + 28) (by_ + 195) (chars "Engine: Aster " ++ ASTER_VERSION) 0x63768A;
    now (fun e => with_text (u64dec (pmm_free_pages e / 256) 24) (fun n =>
      label (bx + 28) (by_ + 228) (append 64 (append 64 (chars "Free physical memory: ") n) (chars " MB")) 0x63768A));
    label (bx + 28) (by_ + 261) (chars "Traf Typeface v2.1") 0x63768A].

Definition draw_window_content (d : desktop) (app : Z) : call := fun s =>
  w ← ub (rd (wins d) app);
  (if app =? APP_TERMINAL then draw_terminal d w
   else if app =? APP_FILES then draw_files w
   else if app =? APP_NOTES then draw_notes d w
   else if app =? APP_PAINT then draw_paint d w
   else if app =? APP_BROWSER then draw_browser w
   else if app =? APP_NETWORK then draw_network d w
   else draw_about w) s.

Definition draw_windows (d : desktop) : call :=
  for_range (Z.to_nat (ztop d + 1)) 0 (fun z => for_range 7 0 (fun i s =>
    w ← ub (rd (wins d) i);
    if visible w && (w_z w =? z) then s ← draw_window_frame d i s; draw_window_content d i s else Ok s)).

(** ** The cursor *)
Local Abbreviation state := (desktop * world)%type.

Definition cursor_restore (s : state) : res state :=
  let '(d, w) := s in
  if cursor_saved d =? 0 then Ok s
  else
    w ← for_range 24 0 (fun y => for_range 16 0 (fun x w =>
          raw ← ub (rd (cursor_under d) (y * 16 + x));
          on (gfx_put_raw (u32 (cursor_sx d + x)) (u32 (cursor_sy d + y)) raw) w)) w;
    Ok (set_cursor (cursor_under d) 0 (cursor_sx d) (cursor_sy d) d, w).

Definition cursor_capture (s : state) : res state :=
  let '(d, (v, e)) := s in
  under ← for_range 24 0 (fun y => for_range 16 0 (fun x under =>
            raw ← gfx_get_raw (u32 (mouse_x d + x)) (u32 (mouse_y d + y)) e;
            ub (wr under (y * 16 + x) raw))) (cursor_under d);
  Ok (set_cursor under 1 (mouse_x d) (mouse_y d) d, (v, e)).

Definition cursor_draw (d : desktop) : call :=
  for_range 18 0 (fun y w =>
    row ← ub (rd cursor_shape y);
    for_range 12 0 (fun x w =>
      if Z.land row (Z.shiftr 0x8000 x) =? 0 then Ok w
      else pixel (mouse_x d + x) (mouse_y d + y) (if (x <? 2) || (y <? 2) then 0xFFFFFF else 0x111820) w) w).

Definition cursor_refresh (s : state) : res state :=
  '(d, w) ← cursor_capture s; w ← cursor_draw d w; Ok (d, w).

(** The five layers. *)
Definition draw_all (d : desktop) : call :=
  calls [draw_wallpaper; draw_desktop_icons; draw_windows d; draw_start_menu d; draw_taskbar d].

Definition redraw (s : state) : res state :=
  '(d, w) ← cursor_restore s; w ← draw_all d w; cursor_refresh (d, w).
End drawing.
