(* ===== verification/DesktopInput.v ===== *)
(** * The desktop (kernel/desktop.c): keyboard, mouse and start-up

    Lines 102 and 125-160: the terminal and its commands, the windows and their stacking
    order, presses and movements of the mouse, scan codes, the clock and the start. *)

From S2P Require Import Prelude Cstr NetEnv Pmm AsterDoc VelaText Vela VelaNative DesktopText DesktopScreen DesktopPaint Desktop.

(** [(int8_t)b] *)
Definition int8 (b : Z) : Z := if b <? 128 then b else b - 256.

(** The first [i] from [a] on, of [n], for which the test holds. *)
Fixpoint find_index (n : nat) (a : Z) (f : Z -> bool) : option Z :=
  match n with
  | O => None
  | S n' => if f a then Some a else find_index n' (a + 1) f
  end.

Definition set_open o m z (w : Window) := mk_window (w_x w) (w_y w) (w_w w) (w_h w) o m z (w_title w).
Definition set_place x y (w : Window) := mk_window x y (w_w w) (w_h w) (w_open w) (w_minimized w) (w_z w) (w_title w).

(** ** The terminal *)

(** [for(int i=0;i<TERM_LINES-1;i++)] a line gets the one below it; [k] lines remain. *)
Fixpoint shift_lines (k : nat) (i : Z) (l : list bytes) : option (list bytes) :=
  match k with
  | O => Some l
  | S k' => t ← rd l (i + 1); l ← wr l i t; shift_lines k' (i + 1) l
  end.

Definition term_push (t : bytes) (d : desktop) : option desktop :=
  '(l, n, row) ← (if term_count d <? TERM_LINES then Some (term_lines d, term_count d + 1, term_count d)
                  else l ← shift_lines 12 0 (term_lines d); Some (l, term_count d, TERM_LINES - 1));
  l ← wr l row (cp TERM_LEN t);
  Some (set_term l n d).

(** ** Keys *)

Definition normal_keys : list (Z * bytes) :=
  [(0x02, chars "1234567890-="); (0x10, chars "qwertyuiop[]"); (0x1E, chars "asdfghjkl;'`");
   (0x2B, chars "\zxcvbnm,./"); (0x39, chars " ")].
Definition shift_keys : list (Z * bytes) :=
  [(0x02, chars "!@#$%^&*()_+"); (0x10, chars "QWERTYUIOP{}"); (0x1E, chars "ASDFGHJKL:" ++ [34] ++ chars "~");
   (0x2B, chars "|ZXCVBNM<>?"); (0x39, chars " ")].

(** The entry of a table given by runs; the others are zero. *)
Fixpoint key_map (l : list (Z * bytes)) (s : Z) : Z :=
  match l with
  | [] => 0
  | (a, t) :: l' => if (a <=? s) && (s <? a + len t) then byte_at t (s - a) else key_map l' s
  end.

Section input.
Context {Doc E : Type} `{!AsterEngine Doc E, !Console E, !Screen E, !Kernel E, !Fetch E}.
Context (arch : bytes).
Local Abbreviation world := (vela Doc E * E)%type.
Local Abbreviation state := (desktop * world)%type.
Local Abbreviation redraw := (redraw (Doc := Doc) arch).

(** An operation of the browser. *)
Definition browse {A} (f : world -> res (A * world)) (s : state) : res state := '(_, w) ← f (snd s); Ok (fst s, w).
Definition browse_ (f : world -> res world) (s : state) : res state := w ← f (snd s); Ok (fst s, w).
Definition push (t : bytes) (s : state) : res state := d ← ub (term_push t (fst s)); Ok (d, snd s).
Definition log (t : bytes) (s : state) : res state :=
  let '(d, (v, e)) := s in e ← serial_write t e; Ok (d, (v, e)).

(** ** Windows *)

(** [w->z=++ztop;active_app=app;] with the window changed by [f]. *)
Definition raise (f : Window -> Window) (app : Z) (start : Z) (s : state) : res state :=
  let '(d, w) := s in
  z ← int_of (ztop d + 1);
  win ← ub (rd (wins d) app);
  let win := f win in
  l ← ub (wr (wins d) app (set_open (w_open win) (w_minimized win) z win));
  Ok (set_wins l z app start d, w).

Definition focus_app (app : Z) (s : state) : res state :=
  if (app <? 0) || (APP_COUNT <=? app) then Ok s
  else s ← raise (fun w => set_open 1 0 (w_z w) w) app 0 s; redraw s.

Fixpoint top_loop (n : nat) (i : Z) (l : list Window) (x y best bz : Z) : option Z :=
  match n with
  | O => Some best
  | S n' =>
      w ← rd l i;
      if visible w && inside x y (w_x w) (w_y w) (w_w w) (w_h w) && (bz <? w_z w)
      then top_loop n' (i + 1) l x y i (w_z w)
      else top_loop n' (i + 1) l x y best bz
  end.
Definition top_window_at (d : desktop) (x y : Z) : option Z := top_loop 7 0 (wins d) x y (-1) (-1).

(** The painting program over the state. *)
Definition painting (f : Window -> list Z * E -> res (list Z * E)) (s : state) : res state :=
  let '(d, (v, e)) := s in
  w ← ub (rd (wins d) APP_PAINT);
  '(p, e) ← f w (paint d, e);
  Ok (set_picture p (net_ping_result d) d, (v, e)).

Definition under_mouse (d : desktop) (x y w h : Z) : bool := inside (mouse_x d) (mouse_y d) x y w h.

(** A press inside the browser: back, forward, reload, go, or a link of the page;
    [None]: elsewhere. *)
Definition press_browser (w : Window) (s : state) : option (res state) :=
  let d := fst s in let v := fst (snd s) in
  let bx := inner_x w in let by_ := inner_y w in let bw := inner_w w in let bh := inner_h w in
  if under_mouse d (bx + 12) (by_ + 10) 34 34 then
    Some (s ← (if vela_can_back v then browse vela_back s else Ok s); redraw s)
  else if under_mouse d (bx + 52) (by_ + 10) 34 34 then
    Some (s ← (if vela_can_forward v then browse vela_forward s else Ok s); redraw s)
  else if under_mouse d (bx + 92) (by_ + 10) 42 34 then Some (s ← browse vela_reload s; redraw s)
  else if under_mouse d (bx + bw - 84) (by_ + 10) 70 34 then Some (s ← browse vela_go s; redraw s)
  else if under_mouse d (bx + 18) (by_ + 108) (bw - 36) (bh - 124) then
    Some (s ← browse (vela_activate_link (mouse_x d - (bx + 18)) (mouse_y d - (by_ + 108))) s; redraw s)
  else None.

Definition ping (ms : Z) (s : state) : res (Z * state) :=
  let '(d, (v, e)) := s in '(r, e) ← net_ping_gateway ms e; Ok (r, (d, (v, e))).

(** A press on the window [app], which is raised first. *)
Definition press_window (app : Z) (s : state) : res state :=
  s ← raise (fun w => w) app (start_open (fst s)) s;
  let '(d, w0) := s in
  w ← ub (rd (wins d) app);
  if under_mouse d (w_x w + w_w w - 40) (w_y w + 5) 34 31 then
    l ← ub (wr (wins d) app (set_open 0 (w_minimized w) (w_z w) w));
    redraw (set_wins l (ztop d) (-1) (start_open d) d, w0)
  else if under_mouse d (w_x w) (w_y w) (w_w w) TITLE_H then
    redraw (set_dragging app (mouse_x d - w_x w) (mouse_y d - w_y w) d, w0)
  else if app =? APP_PAINT then
    if under_mouse d (inner_x w + 96) (inner_y w + 8) 60 30 then
      p ← ub (fill (Z.to_nat (PAINT_W * PAINT_H)) (paint d) 0 0);
      redraw (set_picture p (net_ping_result d) d, w0)
    else
      s ← cursor_restore s;
      s ← painting (fun w => paint_at w (mouse_x d) (mouse_y d)) s;
      cursor_refresh s
  else
    match (if app =? APP_BROWSER then press_browser w s else None) with
    | Some r => r
    | None =>
        if (app =? APP_NETWORK) && under_mouse d (inner_x w + 24) (inner_y w + 248) 170 36 then
          '(r, s) ← ping 1800 s;
          redraw (set_picture (paint (fst s)) r (fst s), snd s)
        else redraw s
    end.

(** [cli; for(;;)hlt;] behind the farewell: the machine stops. *)
Definition shut_down (s : state) : res state :=
  w ← calls [rect 0 0 gfx_width gfx_height 0x05080B; display 80 90 (chars "GOODBYE") 0xDCE7F2] (snd s);
  Ok (set_halted (fst s), w).

(** A press on the taskbar button of an application. *)
Definition press_task (i : Z) (s : state) : res state :=
  let '(d, w) := s in
  win ← ub (rd (wins d) i);
  if negb (w_open win =? 0) && (active_app d =? i) && (w_minimized win =? 0) then
    l ← ub (wr (wins d) i (set_open (w_open win) 1 (w_z win) win));
    redraw (set_wins l (ztop d) (-1) (start_open d) d, w)
  else focus_app i s.

Definition handle_press (s : state) : res state :=
  let '(d, w) := s in
  let ty := gfx_height - TASKBAR_H in
  if under_mouse d 14 (ty + 9) 38 36 then
    redraw (set_wins (wins d) (ztop d) (active_app d) (if start_open d =? 0 then 1 else 0) d, w)
  else if negb (start_open d =? 0) then
    let sy := ty - 438 in
    match find_index 7 0 (fun i => under_mouse d 24 (sy + 68 + i * 43) 260 36) with
    | Some i => focus_app i s
    | None =>
        if under_mouse d 24 (sy + 382) 260 36 then shut_down s
        else redraw (set_wins (wins d) (ztop d) (active_app d) 0 d, w)
    end
  else
    match find_index 7 0 (fun i => under_mouse d (70 + i * 48) (ty + 8) 40 38) with
    | Some i => press_task i s
    | None =>
        match find_index 6 0 (fun i => under_mouse d 20 (36 + i * 91) 88 80) with
        | Some i => focus_app i s
        | None =>
            app ← ub (top_window_at d (mouse_x d) (mouse_y d));
            if 0 <=? app then press_window app s
            else redraw (set_wins (wins d) (ztop d) (-1) (start_open d) d, w)
        end
    end.

(** ** The mouse *)

(** The movement of a packet, and the position kept on the screen. *)
Definition moved_mouse (d : desktop) (dx dy left : Z) : desktop :=
  let maxx := gfx_width - 16 in
  let maxy := gfx_height - 24 in
  let x := mouse_x d + dx in
  let y := mouse_y d - dy in
  let x := if x <? 0 then 0 else x in
  let y := if y <? 0 then 0 else y in
  let x := if maxx <? x then maxx else x in
  let y := if maxy <? y then maxy else y in
  set_mouse x y left (mouse_left d) d.

(** The window under the title bar that is dragged, kept on the screen. *)
Definition dragged (d : desktop) (w : Window) : Window :=
  let x := mouse_x d - drag_dx d in
  let y := mouse_y d - drag_dy d in
  let x := if x <? 0 then 0 else x in
  let y := if y <? 0 then 0 else y in
  let x := if gfx_width <? x + w_w w then gfx_width - w_w w else x in
  let y := if gfx_height - TASKBAR_H <? y + w_h w then gfx_height - TASKBAR_H - w_h w else y in
  set_place x y w.

Definition drag (s : state) : res state :=
  let '(d, w) := s in
  win ← ub (rd (wins d) (dragging d));
  l ← ub (wr (wins d) (dragging d) (dragged d win));
  Ok (set_wins l (ztop d) (active_app d) (start_open d) d, w).

(** The wheel: [-wheel*48] over the page of the browser. *)
Definition wheel_over (d : desktop) : res bool :=
  b ← ub (rd (wins d) APP_BROWSER);
  Ok (visible b &&
    under_mouse d (inner_x b + 18) (inner_y b + 108) (inner_w b - 36) (inner_h b - 124)).

Definition handle_mouse_packet (s : state) : res state :=
  let d0 := fst s in
  b0 ← ub (rd (mpkt d0) 0);
  b1 ← ub (rd (mpkt d0) 1);
  b2 ← ub (rd (mpkt d0) 2);
  wheel ← (if mouse_packet_size (snd (snd s)) =? 4 then
             b3 ← ub (rd (mpkt d0) 3);
             let n := Z.land b3 15 in Ok (if Z.land n 8 =? 0 then n else n - 16)
           else Ok 0);
  '(d, w) ← cursor_restore s;
  let d := moved_mouse d (int8 b1) (int8 b2) (Z.land b0 1) in
  over ← (if wheel =? 0 then Ok false else wheel_over d);
  if (over : bool) then s ← browse_ (vela_scroll_by (- wheel * 48)) (d, w); redraw s
  else
    let pulled := (0 <=? dragging d) && negb (mouse_left d =? 0) in
    '(d, w) ← (if pulled then drag (d, w) else Ok (d, w));
    let d := if negb (mouse_prev_left d =? 0) && (mouse_left d =? 0) then set_dragging (-1) (drag_dx d) (drag_dy d) d else d in
    if (mouse_prev_left d =? 0) && negb (mouse_left d =? 0) then s ← cursor_refresh (d, w); handle_press s
    else
      s ← (if negb (mouse_left d =? 0) && negb (mouse_prev_left d =? 0) && (active_app d =? APP_PAINT) && (dragging d <? 0)
           then painting (fun win => paint_line (paint_at win) (mouse_x d0) (mouse_y d0) (mouse_x d) (mouse_y d)) (d, w)
           else Ok (d, w));
      w ← (if pulled then draw_all arch (fst s) (snd s) else Ok (snd s));
      cursor_refresh (fst s, w).

Definition desktop_mouse_byte (b : Z) (s : state) : res state :=
  let '(d, w) := s in
  if (mpkt_i d =? 0) && (Z.land b 8 =? 0) then Ok s
  else
    let need := if mouse_packet_size (snd w) =? 4 then 4 else 3 in
    l ← ub (wr (mpkt d) (mpkt_i d) b);
    if need <=? mpkt_i d + 1 then handle_mouse_packet (set_packet l 0 d, w)
    else Ok (set_packet l (mpkt_i d + 1) d, w).

(** ** The keyboard *)

Definition info_line : bytes :=
  chars "UN_Orion " ++ VERSION ++ chars " / " ++ arch ++ chars " / UN_Vela " ++ VELA_VERSION ++ chars " / Aster " ++ ASTER_VERSION.

(** A text of the terminal, with a number in it. *)
Definition term_text (before : bytes) (t : option bytes) (after : bytes) : option bytes :=
  t ← t; Some (append TERM_LEN (append TERM_LEN before t) after).

Definition push_text (t : option bytes) (s : state) : res state := t ← ub t; push t s.

Definition cmd_alloc (s : state) : res state :=
  let '(d, (v, e)) := s in
  '(p, e) ← pmm_alloc_page e;
  push_text (h ← hex64 p; Some (append TERM_LEN (chars "allocated ") h)) (d, (v, e)).

Definition cmd_uptime (s : state) : res state :=
  let '(d, (v, e)) := s in
  let '(sec, e) := seconds e in
  push_text (term_text (chars "uptime ") (u64dec sec 24) (chars " seconds")) (d, (v, e)).

Definition cmd_net (s : state) : res state :=
  let e := snd (snd s) in
  push_text
    (if net_ready e =? 0 then Some (append TERM_LEN (chars "network ") (chars "offline"))
     else
       ip ← iptext (net_get_ipv4 e) 32;
       let t := append TERM_LEN (chars "network ") (chars "connected / ") in
       let t := append TERM_LEN (append TERM_LEN t (net_driver_name e)) (chars " / ") in
       Some (append TERM_LEN t ip)) s.

Definition cmd_nettest (s : state) : res state :=
  '(ok, w) ← vela_load_url (chars "10.0.2.2:18080/") (snd s);
  let s := (fst s, w) in
  if negb (ok =? 0) then
    s ← push (chars "HTTP test success / loaded by UN_Vela + Aster") s; log (chars "HTTP test success" ++ [13; 10]) s
  else
    s ← push (vela_status (fst w)) s; log (chars "HTTP test failed" ++ [13; 10]) s.

Definition cmd_openwrt (s : state) : res state :=
  let '(d, (v, e)) := s in
  push (chars "network profile: OpenWrt LAN 192.168.1.2/24")
    (d, (v, net_configure [192; 168; 1; 2] [255; 255; 255; 0] [192; 168; 1; 1] [192; 168; 1; 1] e)).

(** The chain of comparisons; [None]: the command that opens the browser. *)
Definition command (c : bytes) (s : state) : option (res state) :=
  if streq c (chars "help") then Some (push (chars "help clear info mem alloc uptime desktop net ping vela nettest openwrt") s)
  else if streq c (chars "clear") then Some (Ok (set_term (term_lines (fst s)) 0 (fst s), snd s))
  else if streq c (chars "info") then Some (push info_line s)
  else if streq c (chars "desktop") then Some (push (chars "Terminal, Files, Notes, Paint, UN_Vela and Network are native apps.") s)
  else if streq c (chars "mem") then
    Some (push_text (term_text (chars "free physical memory ") (u64dec (pmm_free_pages (snd (snd s)) / 256) 24) (chars " MB")) s)
  else if streq c (chars "alloc") then Some (cmd_alloc s)
  else if streq c (chars "uptime") then Some (cmd_uptime s)
  else if streq c (chars "net") then Some (cmd_net s)
  else if streq c (chars "ping") then
    Some ('(r, s) ← ping 1500 s; push (if r =? 0 then chars "gateway no reply" else chars "gateway reply received") s)
  else if streq c (chars "nettest") then Some (cmd_nettest s)
  else if streq c (chars "openwrt") then Some (cmd_openwrt s)
  else if streq c (chars "vela") || streq c (chars "browser") then None
  else Some (match c with [] => Ok s | _ => push (chars "unknown command") s end).

Definition clear_cmd (s : state) : state := (set_texts [] (notes (fst s)) (fst s), snd s).

Definition terminal_exec (s : state) : res state :=
  let c := term_cmd (fst s) in
  s ← log (chars "desktop shell: ") s;
  s ← log c s;
  s ← log [13; 10] s;
  s ← (match c with [] => Ok s | _ => push (append TERM_LEN (chars "orion > ") c) s end);
  match command c s with
  | None => s ← focus_app APP_BROWSER s; Ok (clear_cmd s)
  | Some r => s ← r; redraw (clear_cmd s)
  end.

(** [(int)sizeof(term_cmd)-1] is 63. *)
Definition key_ascii (c : Z) (s : state) : res state :=
  let '(d, w) := s in
  if active_app d =? APP_TERMINAL then
    if len (term_cmd d) <? 63 then redraw (set_texts (term_cmd d ++ [c]) (notes d) d, w) else Ok s
  else if active_app d =? APP_NOTES then
    if len (notes d) <? NOTE_CAP - 1 then redraw (set_texts (term_cmd d) (notes d ++ [c]) d, w) else Ok s
  else if active_app d =? APP_BROWSER then s ← browse_ (vela_input_char c) s; redraw s
  else Ok s.

Definition enter (s : state) : res state :=
  let '(d, w) := s in
  if active_app d =? APP_TERMINAL then terminal_exec s
  else if (active_app d =? APP_NOTES) && (len (notes d) <? NOTE_CAP - 1) then
    redraw (set_texts (term_cmd d) (notes d ++ [LF]) d, w)
  else if active_app d =? APP_BROWSER then s ← browse vela_go s; redraw s
  else Ok s.

Definition shorter (t : bytes) : bytes := take (length t - 1) t.

Definition backspace (s : state) : res state :=
  let '(d, w) := s in
  if (active_app d =? APP_TERMINAL) && negb (len (term_cmd d) =? 0) then redraw (set_texts (shorter (term_cmd d)) (notes d) d, w)
  else if (active_app d =? APP_NOTES) && negb (len (notes d) =? 0) then redraw (set_texts (term_cmd d) (shorter (notes d)) d, w)
  else if active_app d =? APP_BROWSER then s ← browse_ vela_backspace s; redraw s
  else Ok s.

Definition desktop_key_scancode (k : Z) (s : state) : res state :=
  let '(d, w) := s in
  if (k =? 0x2A) || (k =? 0x36) then Ok (set_keys 1 (last_second d) d, w)
  else if (k =? 0xAA) || (k =? 0xB6) then Ok (set_keys 0 (last_second d) d, w)
  else if negb (Z.land k 0x80 =? 0) then Ok s
  else if k =? 1 then
    if start_open d =? 0 then Ok s else redraw (set_wins (wins d) (ztop d) (active_app d) 0 d, w)
  else if k =? 0x1C then enter s
  else if k =? 0x0E then backspace s
  else
    let c := if k <? 128 then key_map (if shift_down d =? 0 then normal_keys else shift_keys) k else 0 in
    if c =? 0 then Ok s else key_ascii c s.

(** ** The clock and the start *)

Definition desktop_tick (s : state) : res state :=
  let '(d, (v, e)) := s in
  let '(sec, e) := seconds e in
  if sec =? last_second d then Ok (d, (v, e))
  else
    '(d, w) ← cursor_restore (set_keys (shift_down d) sec d, (v, e));
    w ← draw_taskbar d w;
    cursor_refresh (d, w).

Definition no_window : Window := mk_window 0 0 0 0 0 0 0 [].

Definition static_desktop : desktop :=
  mk_desktop (replicate 7 no_window) 10 (-1) 0 (-1) 0 0 700 420 0 0 [0; 0; 0; 0] 0 0 (2 ^ 64 - 1)
    (replicate 13 []) 0 []
    (chars "Welcome to UN_Orion Notes." ++ [LF; LF] ++ chars "UN_Vela is now powered by the native Aster Engine.")
    (replicate (Z.to_nat (PAINT_W * PAINT_H)) 0) (-1) (replicate 384 0) 0 0 0 false.

Definition first_windows : list Window :=
  [mk_window 280 130 720 480 1 0 11 (chars "Terminal"); mk_window 230 115 700 440 0 0 2 (chars "Files");
   mk_window 330 125 610 480 0 0 3 (chars "Notes"); mk_window 250 90 760 560 0 0 4 (chars "Paint");
   mk_window 220 85 820 590 0 0 5 (chars "UN_Vela"); mk_window 345 135 620 430 0 0 6 (chars "Network");
   mk_window 380 165 540 380 0 0 7 (chars "About UN_Orion")].

(** [g_bi] is kept and never read. *)
Definition desktop_init (bi : ptr OrionBootInfo) (s : state) : res state :=
  let '(d, w) := s in
  let d := set_wins first_windows 11 APP_TERMINAL (start_open d) d in
  w ← vela_init (820 - 2) w;
  s ← push (chars "Welcome to UN_Orion Desktop " ++ VERSION ++ chars ".") (d, w);
  s ← push (chars "UN_Vela " ++ VELA_VERSION ++ chars " uses Aster Engine " ++ ASTER_VERSION ++ chars ".") s;
  s ← push (chars "Type 'help' for terminal commands.") s;
  redraw s.

(** ** Events: the loop of kernel_main, until the machine is shut down *)
Inductive input := Key (k : Z) | Mouse (b : Z) | Tick.

Definition handle (i : input) (s : state) : res state :=
  if halted (fst s) then Ok s
  else match i with Key k => desktop_key_scancode k s | Mouse b => desktop_mouse_byte b s | Tick => desktop_tick s end.

Fixpoint handle_all (l : list input) (s : state) : res state :=
  match l with
  | [] => Ok s
  | i :: l' => s ← handle i s; handle_all l' s
  end.
End input.
