(* ===== verification/DesktopSafe.v ===== *)
(** * Drawing the desktop is safe

    What the desktop relies on in the rest of the kernel, the invariant of its static
    variables, and: every drawing routine keeps the world in its shape. *)

From S2P Require Import Prelude Cstr NetEnv VelaText Vela VelaSafe VelaNative DesktopText DesktopScreen DesktopPaint Desktop.
#[local] Open Scope Z_scope.

Class KernelLaws {E} `{!Kernel E} (T : Prop) (J : E -> Prop) : Prop := {
  law_ticks e : J e -> 0 <= fst (timer_ticks e) < 10 ^ 19 /\ J (snd (timer_ticks e));
  law_frequency e : J e -> 0 <= timer_frequency e;
  law_free e : J e -> 0 <= pmm_free_pages e < 2 ^ 64;
  law_alloc e : J e -> safe T (pmm_alloc_page e) (fun '(p, e') => 0 <= p /\ J e');
  law_driver e : J e -> nonzero (net_driver_name e);
  law_ipv4 e : J e -> Forall (fun b => 0 <= b < 256) (net_get_ipv4 e);
  law_gateway e : J e -> Forall (fun b => 0 <= b < 256) (net_get_gateway e);
  law_packets e : J e -> 0 <= net_rx_packets e < 2 ^ 64 /\ 0 <= net_tx_packets e < 2 ^ 64;
  law_ping ms e : J e -> safe T (net_ping_gateway ms e) (fun '(_, e') => J e');
  law_configure ip mask gw dns e : J e -> J (net_configure ip mask gw dns e)
}.

(** ** The invariant

    A window has one of the sizes of [desktop_init] and is near the screen, so that
    all coordinates computed from it are ints.  [k] bounds the stacking order. *)
Record window_ok (w : Window) : Prop := {
  wi_w : 540 <= w_w w <= 820;
  wi_h : 380 <= w_h w <= 590;
  wi_x : -1000 <= w_x w <= 65535;
  wi_y : -1000 <= w_y w <= 65535;
  wi_title : nonzero (w_title w)
}.

(** The seven windows, no two at the same level of the stack. *)
Record layout (z : Z) (l : list Window) : Prop := {
  l_wins : Forall window_ok l;
  l_count : length l = 7%nat;
  l_levels : Forall (fun w => 0 <= w_z w <= z) l;
  l_order : NoDup (map w_z l)
}.

Record desktop_ok (k : Z) (d : desktop) : Prop := {
  d_layout : layout (ztop d) (wins d);
  d_ztop : 0 <= ztop d <= k;
  d_active : -1 <= active_app d < 7;
  d_dragging : -1 <= dragging d < 7;
  d_mouse_x : 0 <= mouse_x d <= 65535;
  d_mouse_y : 0 <= mouse_y d <= 65535;
  d_mpkt : length (mpkt d) = 4%nat;
  d_mpkt_i : 0 <= mpkt_i d <= 3;
  d_lines : length (term_lines d) = 13%nat;
  d_texts : Forall (fits 76) (term_lines d);
  d_rows : 0 <= term_count d <= 13;
  d_cmd : fits 64 (term_cmd d);
  d_notes : fits 1536 (notes d);
  d_paint : len (paint d) = paint_size;
  d_under : length (cursor_under d) = 384%nat
}.

Lemma d_wins k d : desktop_ok k d -> Forall window_ok (wins d).
Proof. intros H. apply (l_wins _ _ (d_layout _ _ H)). Qed.
Lemma d_count k d : desktop_ok k d -> length (wins d) = 7%nat.
Proof. intros H. apply (l_count _ _ (d_layout _ _ H)). Qed.

Lemma u32_size w : size31 w -> size31 (u32 w).
Proof. unfold size31, u32. intros H. rewrite Z.mod_small; lia. Qed.

Section safe_drawing.
Context {Doc E : Type} `{!AsterEngine Doc E, !Console E, !Screen E, !Kernel E}.
Context (T : Prop) (D : Doc -> Prop) (J : E -> Prop) (room : limits Doc) (arch : bytes).
Context `{!AsterLaws T D J room, !ConsoleLaws T J, !ScreenLaws T J, !KernelLaws T J} (Harch : nonzero arch).
Local Abbreviation world := (vela Doc E * E)%type.
Local Abbreviation call := (world -> res world).

Definition world_ok (w : world) : Prop := vela_ok T D J room (fst w) /\ J (snd w).
Definition keeps (f : call) : Prop := forall w, world_ok w -> safe T (f w) world_ok.

(** ** The calls *)

Lemma on_keeps f : (forall e, J e -> safe T (f e) J) -> keeps (on f).
Proof. intros H [v e] [Hv He]. unfold on. eapply safe_bind; [by apply H|]. by intros e' He'. Qed.

Lemma rect_keeps x y w h c : size31 w -> size31 h -> keeps (rect x y w h c).
Proof. intros Hw Hh. apply on_keeps. intros e He. apply law_rect; (apply word32_u32 || by apply u32_size) || done. Qed.
Lemma line_keeps x y w c : size31 w -> keeps (line_h x y w c).
Proof. intros Hw. apply on_keeps. intros e He. apply law_line_h; (apply word32_u32 || by apply u32_size) || done. Qed.
Lemma pixel_keeps x y c : keeps (pixel x y c).
Proof. apply on_keeps. intros e He. apply law_pixel; apply word32_u32 || done. Qed.
Lemma label_keeps x y s c : nonzero s -> keeps (label x y s c).
Proof.
  intros Hs. apply on_keeps. intros e He. eapply safe_bind; [apply law_text; (apply word32_u32 || done || lia)|].
  by intros [a e'] [_ H].
Qed.
Lemma display_keeps x y s c : nonzero s -> keeps (display x y s c).
Proof.
  intros Hs. apply on_keeps. intros e He. eapply safe_bind; [apply law_display_text; (apply word32_u32 || done)|].
  by intros [a e'] [_ H].
Qed.
Lemma right_keeps x y s c : nonzero s -> keeps (right x y s c).
Proof. intros Hs. apply on_keeps. intros e He. apply law_text_right; apply word32_u32 || done. Qed.

Lemma skip_keeps : keeps skip.
Proof. by intros w Hw. Qed.
Lemma seq_keeps f g : keeps f -> keeps g -> keeps (fun w => w ← f w; g w).
Proof. intros Hf Hg w Hw. eapply safe_bind; [by apply Hf|]. exact Hg. Qed.
Lemma calls_keeps l : Forall keeps l -> keeps (calls l).
Proof. induction 1 as [|f l Hf _ IH]; [apply skip_keeps|]. by apply seq_keeps. Qed.
Lemma now_keeps f : (forall e, J e -> keeps (f e)) -> keeps (now f).
Proof. intros H w Hw. apply H; [apply Hw|done]. Qed.
Lemma with_keeps t (P : bytes -> Prop) f : returns t P -> (forall s, P s -> keeps (f s)) -> keeps (with_text t f).
Proof. intros (s & -> & Hs) Hf w Hw. by apply Hf. Qed.
Lemma if_keeps (b : bool) f g : keeps f -> keeps g -> keeps (if b then f else g).
Proof. by destruct b. Qed.
Lemma range_keeps n a f : (forall i, a <= i < a + Z.of_nat n -> keeps (f i)) -> keeps (for_range n a f).
Proof.
  intros Hf w Hw. apply (for_range_safe T (fun _ => world_ok)); [|done]. intros i s Hi Hs. by apply Hf.
Qed.
Lemma read_keeps {A} (l : list A) i (P : A -> Prop) (f : A -> call) :
  0 <= i < len l -> Forall P l -> (forall a, P a -> keeps (f a)) -> keeps (fun s => a ← ub (rd l i); f a s).
Proof.
  intros Hi Hl Hf w Hw. destruct (rd_is_Some l i Hi) as [a Ha]. rewrite Ha. cbn [ub mbind res_bind]. apply Hf; [|done].
  apply rd_inv in Ha as [_ Ha]. by eapply Forall_lookup_1.
Qed.

(** A number in decimal, and texts put together. *)
Lemma number_nonzero v cap n :
  0 <= v < 10 ^ n -> 1 <= n <= 20 -> n < cap -> returns (u64dec v cap) nonzero.
Proof. intros Hv Hn Hc. destruct (u64dec_spec v cap n Hv Hn Hc) as (t & -> & Ht & _). exists t. split; [done|]. by apply decimal_nonzero. Qed.
Lemma append_nonzero cap a b : nonzero a -> nonzero b -> nonzero (append cap a b).
Proof. intros Ha Hb. apply fit_nonzero. by apply Forall_app. Qed.
Lemma char_nonzero (c : Z) t : nonzero (c :: t) -> c <> 0 /\ nonzero t.
Proof. intros H. by inversion H. Qed.

Ltac size := unfold size31, inner_w, inner_h, TITLE_H, TASKBAR_H, PAINT_W, PAINT_H in *; lia.
Ltac words := first [assumption | by apply lit_nonzero | apply append_nonzero; words | case_match; words].
Ltac keep :=
  lazymatch goal with
  | |- keeps (calls _) => apply calls_keeps; keep
  | |- keeps (fun s => calls ?l s) => apply (calls_keeps l); keep
  | |- Forall _ (_ :: _) => constructor; keep
  | |- Forall _ [] => constructor
  | |- keeps skip => apply skip_keeps
  | |- keeps (if _ then _ else _) => apply if_keeps; keep
  | |- keeps (rect _ _ _ _ _) => apply rect_keeps; try size
  | |- keeps (line_h _ _ _ _) => apply line_keeps; try size
  | |- keeps (pixel _ _ _) => apply pixel_keeps
  | |- keeps (label _ _ _ _) => apply label_keeps; try words
  | |- keeps (display _ _ _ _) => apply display_keeps; try words
  | |- keeps (right _ _ _ _) => apply right_keeps; try words
  | |- keeps (for_range _ _ _) => apply range_keeps; intros; keep
  | |- keeps (now _) => apply now_keeps; intros; keep
  | |- _ => idtac
  end.

(** ** The background *)

Lemma screen_size : 64 <= gfx_width <= 65535 /\ 64 <= gfx_height <= 65535.
Proof. split; [apply (law_width (T := T) (J := J))|apply (law_screen_height (T := T) (J := J))]. Qed.

Lemma wall_keeps fuel y :
  0 <= y -> gfx_height - 54 - y < 8 * (Z.of_nat fuel - 1) -> y <= gfx_height - 46 -> keeps (wall_loop fuel y).
Proof.
  pose proof screen_size as [? ?]. revert y. induction fuel as [|f IH]; intros y Hy Hf Hh; [lia|]. cbn [wall_loop].
  unfold TASKBAR_H. assert (E1 : u32 (gfx_height - 54) = gfx_height - 54) by (unfold u32; rewrite Z.mod_small; lia). rewrite E1.
  destruct (Z.ltb_spec y (gfx_height - 54)); [|apply skip_keeps].
  apply seq_keeps; [keep|]. replace (u32 (y + 8)) with (y + 8) by (unfold u32; rewrite Z.mod_small; lia). apply IH; lia.
Qed.

Lemma wallpaper_keeps : keeps draw_wallpaper.
Proof.
  pose proof screen_size as [? ?]. unfold draw_wallpaper. keep. apply wall_keeps; zlia.
Qed.

Lemma icon_keeps x y name kind : nonzero name -> keeps (icon_box x y name kind).
Proof. intros Hn. unfold icon_box. keep. Qed.

Lemma icons_keeps : keeps draw_desktop_icons.
Proof. unfold draw_desktop_icons. keep; apply icon_keeps; words. Qed.

(** ** The taskbar and the menu *)

Lemma seconds_ok e : J e -> 0 <= fst (seconds e) < 10 ^ 19 /\ J (snd (seconds e)).
Proof.
  intros He. pose proof (law_ticks (T := T) (J := J) e He) as [H1 H2]. pose proof (law_frequency (T := T) (J := J) e He) as H3.
  unfold seconds. destruct (Z.eqb_spec (timer_frequency e) 0); [done|]. destruct (timer_ticks e) as [t e']. cbn [fst snd] in *.
  split; [|done]. split; [apply Z.div_pos; lia|]. apply Z.div_lt_upper_bound; [lia|]. nia.
Qed.

Lemma uptime_keeps y : keeps (draw_uptime y).
Proof.
  intros [v e] [Hv He]. unfold draw_uptime. pose proof (seconds_ok e He) as [H1 H2]. destruct (seconds e) as [sec e']. cbn [fst snd] in *.
  apply (with_keeps _ nonzero); [by apply (number_nonzero _ _ 19)| |done]. intros n Hn. keep.
Qed.

Lemma taskbar_keeps k d : desktop_ok k d -> keeps (draw_taskbar d).
Proof.
  intros Hd. pose proof screen_size as [? ?]. unfold draw_taskbar. keep; [|apply uptime_keeps]. unfold draw_task.
  apply (read_keeps _ _ window_ok); [rewrite (d_count _ _ Hd); lia|by apply (d_wins k)|]. intros w Hw. keep.
  unfold task_letter. words.
Qed.

Lemma menu_keeps d : keeps (draw_start_menu d).
Proof.
  unfold draw_start_menu. keep. unfold draw_entry. apply (read_keeps _ _ nonzero); [cbn; lia|unfold names; keep; words|].
  intros name Hname. keep.
Qed.

(** ** Windows *)

Lemma frame_keeps k d app : desktop_ok k d -> 0 <= app < 7 -> keeps (draw_window_frame d app).
Proof.
  intros Hd Ha. unfold draw_window_frame.
  apply (read_keeps _ _ window_ok); [rewrite (d_count _ _ Hd); lia|by apply (d_wins k)|]. intros w [? ? ? ? Ht].
  destruct (negb (visible w)); [apply skip_keeps|]. keep.
Qed.

Lemma terminal_keeps k d w : desktop_ok k d -> window_ok w -> keeps (draw_terminal d w).
Proof.
  intros Hd [? ? ? ? Ht]. unfold draw_terminal. keep; [|by apply (d_cmd k)]. unfold draw_line.
  pose proof (d_rows _ _ Hd). apply (read_keeps _ _ (fits 76)); [rewrite (d_lines _ _ Hd); lia|by apply (d_texts k)|].
  intros t [Htext _]. by apply label_keeps.
Qed.

Lemma files_keeps w : window_ok w -> keeps (draw_files w).
Proof. intros [? ? ? ? Ht]. unfold draw_files. keep; apply icon_keeps; words. Qed.

Lemma notes_loop_ok l left bottom x y col v e :
  nonzero l -> world_ok (v, e) -> safe T (notes_loop l left bottom x y col (v, e)) (fun '(_, s) => world_ok s).
Proof.
  intros Hl [Hv He]. cbn [fst snd] in *. revert x y col e He. induction Hl as [|c l Hc _ IH]; intros x y col e He; cbn [notes_loop]; [done|].
  case_if; [done|]. destruct (if (c =? LF) || (58 <? col) then _ else _) as [[x1 y1] col1]. case_if; [by apply IH|].
  eapply safe_bind; [apply law_text; (apply word32_u32 || by repeat constructor || lia || done)|].
  intros [adv e'] [_ He']. by apply IH.
Qed.

Lemma notes_keeps k d w : desktop_ok k d -> window_ok w -> keeps (draw_notes d w).
Proof.
  intros Hd [? ? ? ? Ht]. unfold draw_notes. keep. intros [v e] Hw.
  eapply safe_bind; [apply notes_loop_ok; [by apply (d_notes k)|done]|]. intros [[x y] s] Hs. apply rect_keeps; [size|size|done].
Qed.

Lemma picture_keeps k d w : desktop_ok k d -> window_ok w -> keeps (draw_paint d w).
Proof.
  intros Hd [? ? ? ? Ht]. unfold draw_paint. pose proof (canvas_of_ok w) as [Cw Ch].
  assert (C : 0 <= c_w (canvas_of w) /\ 0 <= c_h (canvas_of w)) by (unfold canvas_of; cbn [c_w c_h]; split; case_if; size).
  keep. rename i into yy, H into Hy, i0 into xx, H0 into Hx.
  apply (read_keeps _ _ (fun _ => True)); [rewrite (d_paint _ _ Hd); unfold paint_size, PAINT_W, PAINT_H in *; lia|by apply Forall_true|].
  intros p _ s Hs. case_if; [done|]. by apply pixel_keeps.
Qed.

Lemma engine_nonzero : nonzero engine_line.
Proof.
  unfold engine_line. pose proof (law_version (T := T) (D := D) (J := J) (room := room)) as Hv. words.
Qed.

Lemma web_keeps x y w h :
  w <= widest room -> is_int h -> Forall is_int [x + 18; y + 10; w - 36; h - 20] -> h <= 1073741824 -> keeps (vela_paint x y w h).
Proof.
  intros Hw Hh Ha Hb [v e] [Hv He]. eapply safe_mono; [by apply (paint_ok T D J room)|]. intros [v' e'] (H1 & H2 & _). done.
Qed.

Lemma browser_keeps w : window_ok w -> keeps (draw_browser w).
Proof.
  intros [? ? ? ? Ht] s Hs. pose proof Hs as [Hv _]. unfold draw_browser.
  pose proof (url_text T D J room (fst s) Hv) as [Hu _]. pose proof (s_status _ _ _ _ _ Hv) as [Hst _]. pose proof engine_nonzero as He.
  unfold vela_url, vela_status. set (bx := inner_x w). set (by_ := inner_y w).
  assert (Hbx : -999 <= bx <= 65536) by (unfold bx, inner_x; lia). assert (Hby : -957 <= by_ <= 65578) by (unfold by_, inner_y; size).
  match goal with |- safe _ (calls ?l s) _ => enough (Hk : keeps (calls l)) by by apply Hk end.
  pose proof (law_widest (T := T) (D := D) (J := J) (room := room)).
  keep; [case_if; size|]. apply web_keeps; unfold is_int; try size. repeat (constructor; [unfold is_int; size|]). constructor.
Qed.

Lemma address_nonzero ip : Forall (fun b => 0 <= b < 256) ip -> returns (iptext ip 32) nonzero.
Proof. intros H. destruct (iptext_spec ip 32 H) as (t & E1 & [Ht _]); [lia|]. by exists t. Qed.

Lemma network_keeps d w : window_ok w -> keeps (draw_network d w).
Proof.
  intros [? ? ? ? Ht]. unfold draw_network. keep.
  - pose proof (law_driver (T := T) (J := J) _ H). words.
  - eapply (with_keeps _ nonzero); [by apply address_nonzero, (law_ipv4 (T := T) (J := J))|]. intros v Hv. keep.
  - eapply (with_keeps _ nonzero); [by apply address_nonzero, (law_gateway (T := T) (J := J))|]. intros v Hv. keep.
  - pose proof (law_packets (T := T) (J := J) _ H) as [H1 H2].
    eapply (with_keeps _ nonzero); [apply (number_nonzero _ _ 20); lia|]. intros r Hr.
    eapply (with_keeps _ nonzero); [apply (number_nonzero _ _ 20); lia|]. intros t Ht'. keep.
Qed.

Lemma about_keeps w : window_ok w -> keeps (draw_about arch w).
Proof.
  intros [? ? ? ? Ht]. unfold draw_about. keep.
  - apply Forall_app. split; [words|done].
  - pose proof (law_free (T := T) (J := J) _ H) as Hf.
    eapply (with_keeps _ nonzero); [apply (number_nonzero _ _ 20); zlia|]. intros n Hn. keep.
Qed.

Lemma content_keeps k d app : desktop_ok k d -> 0 <= app < 7 -> keeps (draw_window_content arch d app).
Proof.
  intros Hd Ha. unfold draw_window_content.
  apply (read_keeps _ _ window_ok); [rewrite (d_count _ _ Hd); lia|by apply (d_wins k)|]. intros w Hw s Hs.
  case_if; [by apply (terminal_keeps k)|]. case_if; [by apply files_keeps|]. case_if; [by apply (notes_keeps k)|].
  case_if; [by apply (picture_keeps k)|]. case_if; [by apply browser_keeps|]. case_if; [by apply network_keeps|by apply about_keeps].
Qed.

Lemma windows_keeps k d : desktop_ok k d -> keeps (draw_windows arch d).
Proof.
  intros Hd. unfold draw_windows. keep. rename i0 into app.
  apply (read_keeps _ _ window_ok); [rewrite (d_count _ _ Hd); lia|by apply (d_wins k)|]. intros w Hw s Hs.
  case_if; [|done]. revert s Hs. apply (seq_keeps (draw_window_frame d app)); [by apply (frame_keeps k)|by apply (content_keeps k)].
Qed.

Lemma draw_all_keeps k d : desktop_ok k d -> keeps (draw_all arch d).
Proof.
  intros Hd. unfold draw_all. keep; [apply wallpaper_keeps|apply icons_keeps|by apply (windows_keeps k)|apply menu_keeps|by apply (taskbar_keeps k)].
Qed.

(** ** The cursor *)

Definition state_ok (k : Z) (s : desktop * world) : Prop := desktop_ok k (fst s) /\ world_ok (snd s).

Lemma set_cursor_ok k u s x y d : desktop_ok k d -> length u = 384%nat -> desktop_ok k (set_cursor u s x y d).
Proof. by intros [] ?; split. Qed.

Lemma restore_ok k s : state_ok k s -> safe T (cursor_restore s) (state_ok k).
Proof.
  destruct s as [d w]. intros [Hd Hw]. cbn [fst snd] in *. unfold cursor_restore. case_if; [done|].
  eapply safe_bind.
  - apply (range_keeps 24 0); [|exact Hw]. intros y Hy. apply range_keeps. intros x Hx.
    apply (read_keeps _ _ (fun _ => True)); [rewrite (d_under _ _ Hd); lia|by apply Forall_true|]. intros raw _ s Hs.
    apply (on_keeps (gfx_put_raw _ _ raw)); [|done]. intros e He. apply law_put_raw; apply word32_u32 || done.
  - intros w' Hw'. split; [|done]. apply set_cursor_ok; [done|by apply (d_under k)].
Qed.

Lemma capture_ok k s : state_ok k s -> safe T (cursor_capture s) (state_ok k).
Proof.
  destruct s as [d [v e]]. intros [Hd Hw]. cbn [fst snd] in *. unfold cursor_capture.
  eapply (safe_bind _ _ _ (fun u => length u = 384%nat)).
  - apply (for_range_safe T (fun _ u => length u = 384%nat)); [|by apply (d_under k)]. intros y u Hy Hu.
    apply (for_range_safe T (fun _ u => length u = 384%nat)); [|done]. intros x u' Hx Hu'.
    eapply safe_bind; [apply (law_get_raw (T := T) (J := J)); (apply word32_u32 || apply Hw)|]. intros raw _.
    rewrite wr_Some by lia. cbn [ub safe]. by rewrite length_insert.
  - intros u Hu. split; [|done]. by apply set_cursor_ok.
Qed.

Lemma cursor_keeps d : keeps (cursor_draw d).
Proof.
  unfold cursor_draw. apply range_keeps. intros y Hy.
  apply (read_keeps _ _ (fun _ => True)); [cbn; lia|by apply Forall_true|]. intros row _. apply range_keeps. intros x Hx w Hw.
  case_if; [done|]. by apply pixel_keeps.
Qed.

Lemma refresh_ok k s : state_ok k s -> safe T (cursor_refresh s) (state_ok k).
Proof.
  intros Hs. unfold cursor_refresh. eapply safe_bind; [by apply (capture_ok k)|]. intros [d w] [Hd Hw].
  eapply safe_bind; [by apply cursor_keeps|]. by intros w' Hw'.
Qed.

Lemma redraw_ok k s : state_ok k s -> safe T (redraw arch s) (state_ok k).
Proof.
  intros Hs. unfold redraw. eapply safe_bind; [by apply (restore_ok k)|]. intros [d w] [Hd Hw].
  eapply safe_bind; [by apply (draw_all_keeps k)|]. intros w' Hw'. by apply refresh_ok.
Qed.

End safe_drawing.
