(* ===== verification/DesktopSession.v ===== *)
(** * Sessions of the desktop

    Any scan codes, mouse bytes and ticks, in any order, from [desktop_init]: every
    handler keeps the invariant of DesktopSafe. *)

From S2P Require Import Prelude Cstr NetEnv VelaText Vela VelaSafe VelaSession VelaNative DesktopText DesktopScreen DesktopPaint Desktop DesktopInput DesktopSafe.
#[local] Open Scope Z_scope.

(** ** Assignments *)

Lemma desktop_weaken k k' d : desktop_ok k d -> k <= k' -> desktop_ok k' d.
Proof. intros [] ?. split; (done || lia). Qed.
Lemma set_wins_ok k k' l z a s d :
  desktop_ok k d -> layout z l -> 0 <= z <= k' -> -1 <= a < 7 -> desktop_ok k' (set_wins l z a s d).
Proof. by intros [] ? ? ?; split. Qed.
Lemma set_dragging_ok k a x y d : desktop_ok k d -> -1 <= a < 7 -> desktop_ok k (set_dragging a x y d).
Proof. by intros [] ?; split. Qed.
Lemma set_mouse_ok k x y l p d : desktop_ok k d -> 0 <= x <= 65535 -> 0 <= y <= 65535 -> desktop_ok k (set_mouse x y l p d).
Proof. by intros [] ? ?; split. Qed.
Lemma set_packet_ok k l i d : desktop_ok k d -> length l = 4%nat -> 0 <= i <= 3 -> desktop_ok k (set_packet l i d).
Proof. by intros [] ? ?; split. Qed.
Lemma set_keys_ok k s t d : desktop_ok k d -> desktop_ok k (set_keys s t d).
Proof. by intros []; split. Qed.
Lemma set_term_ok k l n d :
  desktop_ok k d -> length l = 13%nat -> Forall (fits 76) l -> 0 <= n <= 13 -> desktop_ok k (set_term l n d).
Proof. by intros [] ? ? ?; split. Qed.
Lemma set_texts_ok k c n d : desktop_ok k d -> fits 64 c -> fits 1536 n -> desktop_ok k (set_texts c n d).
Proof. by intros [] ? ?; split. Qed.
Lemma set_picture_ok k p r d : desktop_ok k d -> len p = paint_size -> desktop_ok k (set_picture p r d).
Proof. by intros [] ?; split. Qed.
Lemma set_halted_ok k d : desktop_ok k d -> desktop_ok k (set_halted d).
Proof. by intros []; split. Qed.

Lemma set_open_ok o m z w : window_ok w -> window_ok (set_open o m z w).
Proof. by intros []; split. Qed.
Lemma set_place_ok x y w : window_ok w -> -1000 <= x <= 65535 -> -1000 <= y <= 65535 -> window_ok (set_place x y w).
Proof. by intros [] ? ?; split. Qed.

Lemma find_index_spec n a f i : find_index n a f = Some i -> a <= i < a + Z.of_nat n.
Proof.
  revert a. induction n as [|n IH]; intros a; cbn [find_index]; [done|]. case_if; [intros [= <-]; lia|]. intros H%IH. lia.
Qed.

Lemma nodup_insert (l : list Z) i x : NoDup l -> x ∉ l -> NoDup (<[i := x]> l).
Proof.
  intros Hl Hx. revert i. induction Hl as [|y l Hy Hl IH]; intros i; [constructor|]. apply not_elem_of_cons in Hx as [Hxy Hx].
  destruct i as [|i]; cbn; [by constructor|]. constructor; [|by apply IH]. intros [j Hj]%list_elem_of_lookup.
  apply list_lookup_insert_Some in Hj as [(_ & -> & _)|(_ & Hj)]; [done|]. apply Hy, list_elem_of_lookup. by exists j.
Qed.

(** A window of the list, and the list with it changed: it stays at its level, or goes
    to a new one above the others. *)
Lemma window_at k d app : desktop_ok k d -> 0 <= app < 7 ->
  exists w, rd (wins d) app = Some w /\ window_ok w /\
    forall w' z, window_ok w' -> w_z w' = w_z w /\ z = ztop d \/ w_z w' = z /\ z = ztop d + 1 ->
      exists l, wr (wins d) app w' = Some l /\ layout z l.
Proof.
  intros Hd Ha. pose proof (d_layout _ _ Hd) as [Hw Hc Hz Ho]. pose proof (d_ztop _ _ Hd).
  destruct (rd_is_Some (wins d) app) as [w Hr]; [lia|]. exists w. split; [done|].
  pose proof Hr as [_ Hl]%rd_inv. split; [exact (Forall_lookup_1 _ _ _ _ Hw Hl)|].
  pose proof (Forall_lookup_1 _ _ _ _ Hz Hl) as Hwz. cbn in Hwz.
  intros w' z Hw' Hlev. rewrite wr_Some by lia. eexists. split; [done|]. split.
  - by apply Forall_insert.
  - by rewrite length_insert.
  - apply Forall_insert; [|destruct Hlev; lia]. eapply List.Forall_impl; [|exact Hz]. cbn. destruct Hlev; lia.
  - change (map w_z ?l) with (w_z <$> l). rewrite list_fmap_insert. destruct Hlev as [[-> _]|[-> ->]].
    + rewrite list_insert_id; [done|]. by rewrite list_lookup_fmap, Hl.
    + apply nodup_insert; [done|]. intros [v [Hv Hin]]%list_elem_of_fmap. rewrite list.Forall_forall in Hz. specialize (Hz v Hin). lia.
Qed.

(** ** The terminal keeps its last thirteen lines *)

Definition lines (d : desktop) : list bytes := take (Z.to_nat (term_count d)) (term_lines d).

Lemma shift_lines_spec l : length l = 13%nat -> exists t, shift_lines 12 0 l = Some (drop 1 l ++ [t]).
Proof.
  intros Hl. do 14 (destruct l as [|? l]; try done). eexists. cbn. reflexivity.
Qed.

Lemma term_push_ok k t d :
  desktop_ok k d -> nonzero t ->
  exists d', term_push t d = Some d' /\ desktop_ok k d' /\
    lines d' = drop (length (lines d) - 12) (lines d) ++ [cp 76 t].
Proof.
  intros Hd Ht. pose proof (d_lines _ _ Hd) as Hl. pose proof (d_texts _ _ Hd) as Hf. pose proof (d_rows _ _ Hd) as Hr.
  assert (Hc : fits 76 (cp 76 t)) by by apply fits_fit. unfold term_push, lines, TERM_LINES, TERM_LEN. rewrite length_take.
  destruct (Z.ltb_spec (term_count d) 13); cbn [mbind option_bind].
  - rewrite wr_Some by lia. cbn [mbind option_bind]. eexists. split; [done|].
    split; [apply set_term_ok; [done|by rewrite length_insert|by apply Forall_insert|lia]|]. cbn [term_lines term_count set_term].
    replace (_ - 12)%nat with 0%nat by lia. cbn [drop]. replace (Z.to_nat (term_count d + 1)) with (S (Z.to_nat (term_count d))) by lia.
    rewrite (take_S_r _ _ (cp 76 t)) by (apply list_lookup_insert_eq; lia). by rewrite take_insert_ge by lia.
  - assert (Hn : term_count d = 13) by lia. rewrite Hn. destruct (shift_lines_spec (term_lines d) Hl) as [a ->]. cbn [mbind option_bind].
    assert (Hdl : length (drop 1 (term_lines d)) = 12%nat) by (rewrite length_drop; lia).
    rewrite wr_Some by (rewrite length_app, Hdl; cbn; lia). cbn [mbind option_bind]. eexists. split; [done|].
    assert (E1 : <[Z.to_nat (13 - 1) := cp 76 t]> (drop 1 (term_lines d) ++ [a]) = drop 1 (term_lines d) ++ [cp 76 t]).
    { rewrite insert_app_r_alt, Hdl by (rewrite Hdl; lia). done. }
    rewrite E1. split.
    + apply set_term_ok; [done|rewrite length_app, Hdl; done| |lia]. apply Forall_app. split; [by apply Forall_drop|by constructor].
    + cbn [term_lines term_count set_term]. rewrite (take_ge (term_lines d)), (take_ge (_ ++ _)) by (rewrite ?length_app, ?Hdl; cbn; lia).
      by rewrite Hl.
Qed.

Section sessions.
Context {Doc E : Type} `{!AsterEngine Doc E, !Console E, !Screen E, !Kernel E, !Fetch E}.
Context (T : Prop) (D : Doc -> Prop) (J : E -> Prop) (room : limits Doc) (arch : bytes).
Context `{!AsterLaws T D J room, !ConsoleLaws T J, !ScreenLaws T J, !KernelLaws T J, !FetchLaws T J room} (Harch : nonzero arch).
Local Abbreviation world := (vela Doc E * E)%type.
Local Abbreviation state := (desktop * world)%type.
Local Abbreviation ok := (state_ok T D J room).
Local Abbreviation world_ok := (world_ok T D J room).
Local Abbreviation redraw := (redraw (Doc := Doc) arch).

(** ** Steps *)

Definition steps (k k' : Z) (f : state -> res state) : Prop := forall s, ok k s -> safe T (f s) (ok k').

Lemma steps_bind k k1 k2 f g : steps k k1 f -> steps k1 k2 g -> steps k k2 (fun s => s ← f s; g s).
Proof. intros Hf Hg s Hs. eapply safe_bind; [by apply Hf|]. exact Hg. Qed.
Lemma steps_weaken k k1 k2 f : steps k k1 f -> k1 <= k2 -> steps k k2 f.
Proof. intros Hf Hk s Hs. eapply safe_mono; [by apply Hf|]. intros s' [H1 H2]. split; [by eapply desktop_weaken|done]. Qed.
Lemma redraw_steps k : steps k k redraw.
Proof. intros s Hs. by apply (redraw_ok T D J room). Qed.
Lemma redraw_with k k' d d' w : ok k (d, w) -> (desktop_ok k d -> desktop_ok k' d') -> safe T (redraw (d', w)) (ok k').
Proof. intros [Hd Hw] H. apply redraw_steps. split; [by apply H|done]. Qed.

Lemma browse_ok {A} push k (f : world -> res (A * world)) :
  (forall v e, vela_ok T D J room v -> J e -> safe T (f (v, e)) (fun '(_, w) => moved T D J room push v w)) ->
  steps k k (browse f).
Proof.
  intros Hf [d [v e]] [Hd [Hv He]]. unfold browse. eapply safe_bind; [by apply Hf|].
  intros [a w] (H1 & H2 & _). by split.
Qed.
Lemma browse__ok k (f : world -> res world) :
  (forall v e, vela_ok T D J room v -> J e -> safe T (f (v, e)) (moved T D J room false v)) -> steps k k (browse_ f).
Proof.
  intros Hf [d [v e]] [Hd [Hv He]]. unfold browse_. eapply safe_bind; [by apply Hf|].
  intros w (H1 & H2 & _). by split.
Qed.
Lemma push_ok k t : nonzero t -> steps k k (push (Doc := Doc) (E := E) t).
Proof.
  intros Ht [d w] [Hd Hw]. unfold push. destruct (term_push_ok k t d Hd Ht) as (d' & E1 & Hd' & _). cbn [fst snd] in *. rewrite E1.
  cbn [ub mbind res_bind]. by split.
Qed.
Lemma log_ok k t : nonzero t -> steps k k (log (Doc := Doc) t).
Proof.
  intros Ht [d [v e]] [Hd [Hv He]]. unfold log. eapply safe_bind; [by apply (law_console (T := T) (J := J))|].
  intros e' He'. by split.
Qed.
Lemma push_text_ok k t : returns t nonzero -> steps k k (push_text (Doc := Doc) (E := E) t).
Proof. intros (b & -> & Hb). by apply push_ok. Qed.

(** ** Windows *)

Lemma raise_ok k f app start :
  (forall w, window_ok w -> window_ok (f w)) -> 0 <= app < 7 -> k < 2147483647 -> steps k (k + 1) (raise (Doc := Doc) (E := E) f app start).
Proof.
  intros Hf Ha Hk [d w] [Hd Hw]. unfold raise. cbn [fst snd] in *. pose proof (d_ztop _ _ Hd).
  rewrite int_of_Ok by (unfold is_int; lia). cbn [mbind res_bind].
  destruct (window_at k d app Hd Ha) as (win & -> & Hwin & Hset). cbn [ub mbind res_bind].
  destruct (Hset (set_open (w_open (f win)) (w_minimized (f win)) (ztop d + 1) (f win)) (ztop d + 1)) as (l & -> & Hl);
    [by apply set_open_ok, Hf|by right|]. cbn [ub mbind res_bind]. split; [|done]. apply (set_wins_ok k); (done || lia).
Qed.

Lemma focus_ok k app : k < 2147483647 -> steps k (k + 1) (focus_app (Doc := Doc) arch app).
Proof.
  intros Hk. unfold focus_app, APP_COUNT. destruct ((app <? 0) || (7 <=? app)) eqn:Ea.
  - intros s [H1 H2]. split; [|done]. eapply desktop_weaken; [done|lia].
  - bool_prop. eapply steps_bind; [apply raise_ok; [|lia|done]|apply redraw_steps]. intros w Hw. by apply set_open_ok.
Qed.

Lemma top_loop_ok k n i d x y best bz :
  desktop_ok k d -> 0 <= i -> i + Z.of_nat n <= 7 -> -1 <= best < 7 ->
  returns (top_loop n i (wins d) x y best bz) (fun a => -1 <= a < 7).
Proof.
  intros Hd. revert i best bz. induction n as [|n IH]; intros i best bz Hi Hn Hb; cbn [top_loop]; [by eexists|].
  destruct (window_at k d i Hd) as (w & -> & _); [lia|]. cbn [mbind option_bind]. case_if; apply IH; lia.
Qed.

(** ** The painting program *)

Lemma painting_ok k f :
  (forall w p e, len p = paint_size -> J e -> safe T (f w (p, e)) (fun '(p', e') => J e' /\ len p' = paint_size)) ->
  steps k k (painting (Doc := Doc) f).
Proof.
  intros Hf [d [v e]] [Hd [Hv He]]. unfold painting. cbn [fst snd] in *. unfold APP_PAINT.
  destruct (window_at k d 3 Hd) as (w & -> & _); [lia|]. cbn [ub mbind res_bind].
  eapply safe_bind; [apply Hf; [by apply (d_paint k)|done]|]. intros [p e'] [He' Hp]. split; [|done]. by apply set_picture_ok.
Qed.

Lemma brush_ok w x y p e :
  len p = paint_size -> J e -> safe T (paint_at w x y (p, e)) (fun '(p', e') => J e' /\ len p' = paint_size).
Proof.
  intros Hp He. eapply safe_mono; [by apply (paint_at_safe T J)|]. intros [p' e'] (H1 & H2 & _). split; [done|]. by rewrite H2.
Qed.

Lemma line_ok w x0 y0 x1 y1 p e :
  len p = paint_size -> J e -> safe T (paint_line (paint_at w) x0 y0 x1 y1 (p, e)) (fun '(p', e') => J e' /\ len p' = paint_size).
Proof.
  intros Hp He. destruct (paint_line_straight (paint_at w) x0 y0 x1 y1) as (l & _ & ->). revert p e Hp He.
  induction l as [|[x y] l IH]; intros p e Hp He; cbn [plot_all]; [done|].
  eapply safe_bind; [by apply brush_ok|]. intros [p' e'] [He' Hp']. by apply IH.
Qed.

(** ** Presses *)

Lemma ping_ok ms k s : ok k s -> safe T (ping ms s) (fun '(_, s') => ok k s').
Proof.
  destruct s as [d [v e]]. intros [Hd [Hv He]]. unfold ping. eapply safe_bind; [by apply (law_ping (T := T) (J := J))|].
  intros [r e'] He'. by split.
Qed.

Lemma press_browser_ok k w s :
  window_ok w -> ok k s -> match press_browser arch w s with Some r => safe T r (ok k) | None => True end.
Proof.
  intros [? ? ? ? _] Hs. unfold press_browser. pose proof (d_mouse_x k _ (proj1 Hs)). pose proof (d_mouse_y k _ (proj1 Hs)).
  repeat case_if.
  - eapply safe_bind; [eapply (browse_ok true); [|exact Hs]|apply redraw_steps]. intros v e Hv He.
    eapply safe_mono; [by apply (back_ok T D J room)|]. by intros [r w'] [Hm _].
  - eapply safe_bind; [exact Hs|apply redraw_steps].
  - eapply safe_bind; [eapply (browse_ok true); [|exact Hs]|apply redraw_steps]. intros v e Hv He.
    eapply safe_mono; [by apply (forward_ok T D J room)|]. by intros [r w'] [Hm _].
  - eapply safe_bind; [exact Hs|apply redraw_steps].
  - eapply safe_bind; [eapply (browse_ok true); [|exact Hs]|apply redraw_steps]. intros v e Hv He. by apply (reload_ok T D J room).
  - eapply safe_bind; [eapply (browse_ok true); [|exact Hs]|apply redraw_steps]. intros v e Hv He. by apply (go_ok T D J room).
  - eapply safe_bind; [eapply (browse_ok true); [|exact Hs]|apply redraw_steps]. intros v e Hv He.
    unfold inner_x, inner_y, TITLE_H. apply (activate_link_ok T D J room); [done|done|unfold is_int; lia|lia].
  - done.
Qed.

Lemma press_window_ok k app : k < 2147483647 -> 0 <= app < 7 -> steps k (k + 1) (press_window (Doc := Doc) arch app).
Proof.
  intros Hk Ha s Hs. unfold press_window. eapply safe_bind; [by apply (raise_ok k (fun w => w))|]. clear s Hs. intros [d w0] [Hd Hw0].
  cbn [fst snd] in *. destruct (window_at _ d app Hd Ha) as (w & -> & Hw & Hset). cbn [ub mbind res_bind].
  pose proof (d_ztop _ _ Hd). pose proof (d_active _ _ Hd). case_if.
  { destruct (Hset (set_open 0 (w_minimized w) (w_z w) w) (ztop d)) as (l & -> & Hl); [by apply set_open_ok|by left|]. cbn [ub mbind res_bind].
    apply redraw_steps. split; [|done]. by apply (set_wins_ok (k + 1)). }
  case_if; [apply redraw_steps; split; [|done]; apply set_dragging_ok; [done|lia]|].
  case_if; [case_if|].
  - pose proof (d_paint _ _ Hd) as Hp. rewrite fill_spec; [|lia|rewrite Hp; unfold paint_size, PAINT_W, PAINT_H; lia].
    cbn [ub mbind res_bind]. apply redraw_steps. split; [|done]. apply set_picture_ok; [done|]. rewrite blit_length; [done|lia|]. rewrite length_replicate, Hp. unfold paint_size, PAINT_W, PAINT_H. lia.
  - eapply safe_bind; [apply (restore_ok T D J room (k + 1)); by split|]. intros s1 Hs1. eapply safe_bind; [eapply painting_ok; [|exact Hs1]|].
    + intros w' p e Hp He. by apply brush_ok.
    + intros s2 Hs2. by apply (refresh_ok T D J room).
  - assert (Hs : ok (k + 1) (d, w0)) by by split. pose proof (press_browser_ok (k + 1) w (d, w0) Hw Hs) as Hb.
    destruct (if app =? APP_BROWSER then press_browser arch w (d, w0) else None) as [r|] eqn:Er.
    { destruct (app =? APP_BROWSER); [|done]. by rewrite Er in Hb. }
    case_if; [|by apply redraw_steps]. eapply safe_bind; [by apply ping_ok|]. intros [r [d1 w1]] [Hd1 Hw1].
    apply redraw_steps. split; [|done]. apply set_picture_ok; [done|by apply (d_paint (k + 1))].
Qed.

Lemma shut_down_ok k : steps k k (shut_down (Doc := Doc) (E := E)).
Proof.
  intros [d w] [Hd Hw]. unfold shut_down. cbn [fst snd] in *. pose proof (screen_size T J) as [? ?]. eapply safe_bind.
  - apply (calls_keeps T D J room); [|exact Hw]. constructor; [|constructor; [|constructor]].
    + apply (rect_keeps T D J room); unfold size31; lia.
    + apply (display_keeps T D J room). by apply lit_nonzero.
  - intros w' Hw'. split; [by apply set_halted_ok|done].
Qed.

Lemma press_task_ok k i : k < 2147483647 -> 0 <= i < 7 -> steps k (k + 1) (press_task (Doc := Doc) arch i).
Proof.
  intros Hk Hi s Hs. pose proof Hs as [Hd Hw]. destruct s as [d w]. unfold press_task. cbn [fst snd] in *.
  destruct (window_at _ d i Hd Hi) as (win & -> & Hwin & Hset). cbn [ub mbind res_bind]. case_if; [|by apply focus_ok].
  destruct (Hset (set_open (w_open win) 1 (w_z win) win) (ztop d)) as (l & -> & Hl); [by apply set_open_ok|by left|]. cbn [ub mbind res_bind].
  pose proof (d_ztop _ _ Hd). apply redraw_steps. split; [|done]. apply (set_wins_ok k); (done || lia).
Qed.

Lemma press_ok k : k < 2147483647 -> steps k (k + 1) (handle_press (Doc := Doc) arch).
Proof.
  intros Hk s Hs. pose proof Hs as [Hd Hw]. destruct s as [d w]. unfold handle_press. cbn [fst snd] in *.
  pose proof (d_ztop _ _ Hd). pose proof (d_active _ _ Hd).
  assert (Hset : forall a t, -1 <= a < 7 -> safe T (redraw (set_wins (wins d) (ztop d) a t d, w)) (ok (k + 1))).
  { intros a t Hat. apply redraw_steps. split; [|done]. apply (set_wins_ok k); try (done || lia). by apply (d_layout k). }
  case_if; [by apply Hset|]. case_if.
  - destruct (find_index 7 0 _) as [i|] eqn:Ei; [by apply focus_ok|].
    case_if; [|by apply Hset]. apply (steps_weaken k k); [apply shut_down_ok|lia|exact Hs].
  - destruct (find_index 7 0 _) as [i|] eqn:Ei; [apply find_index_spec in Ei; by apply press_task_ok; [|lia|]|]. clear Ei.
    destruct (find_index 6 0 _) as [i|] eqn:Ei; [by apply focus_ok|].
    destruct (top_loop_ok k 7 0 d (mouse_x d) (mouse_y d) (-1) (-1) Hd ltac:(lia) ltac:(lia) ltac:(lia)) as (app & Et & Ha).
    unfold top_window_at. rewrite Et. cbn [ub mbind res_bind]. case_if; [apply press_window_ok; (done || lia)|by apply Hset].
Qed.

(** ** The mouse *)

Lemma moved_mouse_ok k dx dy left d : desktop_ok k d -> desktop_ok k (moved_mouse d dx dy left).
Proof. intros Hd. pose proof (screen_size T J) as [? ?]. apply set_mouse_ok; [done|..]; repeat case_if; lia. Qed.

Lemma drag_ok k s : ok k s -> 0 <= dragging (fst s) -> safe T (drag s) (ok k).
Proof.
  destruct s as [d w]. intros [Hd Hw] Hg. unfold drag. cbn [fst snd] in *. pose proof (d_dragging _ _ Hd). pose proof (screen_size T J) as [? ?].
  destruct (window_at _ d (dragging d) Hd) as (win & -> & Hwin & Hset); [lia|]. cbn [ub mbind res_bind].
  destruct (Hset (dragged d win) (ztop d)) as (l & -> & Hl); [|by left|].
  { pose proof Hwin as []. apply set_place_ok; [done|..]; unfold TASKBAR_H; repeat case_if; lia. }
  cbn [ub mbind res_bind]. split; [|done]. apply (set_wins_ok k); try done; [by apply (d_ztop k)|by apply (d_active k)].
Qed.

(** The low four bits of the last byte of a packet, with a sign. *)
Lemma nibble_range b : let n := Z.land b 15 in -8 <= (if Z.land n 8 =? 0 then n else n - 16) < 8.
Proof.
  assert (Hb : 0 <= Z.land b 15 < 16) by (change 15 with (Z.ones 4); rewrite Z.land_ones by lia; apply Z.mod_pos_bound; lia).
  cbv zeta. set (n := Z.land b 15) in *. clearbody n.
  assert (Hn : forallb (fun n => (-8 <=? (if Z.land n 8 =? 0 then n else n - 16)) && ((if Z.land n 8 =? 0 then n else n - 16) <? 8))
    (map Z.of_nat (seq 0 16)) = true) by (vm_compute; reflexivity).
  rewrite forallb_forall in Hn. specialize (Hn n). cbn beta in Hn. rewrite andb_true_iff, Z.leb_le, Z.ltb_lt in Hn. apply Hn.
  rewrite in_map_iff. exists (Z.to_nat n). split; [lia|]. apply in_seq. lia.
Qed.

Lemma packet_byte k d i : desktop_ok k d -> 0 <= i <= 3 -> exists b, rd (mpkt d) i = Some b.
Proof. intros Hd Hi. apply rd_is_Some. rewrite (d_mpkt _ _ Hd). lia. Qed.

Lemma wheel_over_ok k d : desktop_ok k d -> safe T (wheel_over d) (fun _ => True).
Proof. intros Hd. unfold wheel_over, APP_BROWSER. by destruct (window_at _ d 4 Hd) as (w & -> & _). Qed.

(** What follows the wheel: dragging, pressing, painting. *)
Lemma settle_ok k x0 y0 (pulled : bool) s :
  ok k s ->
  safe T
    (s ← (if negb (mouse_left (fst s) =? 0) && negb (mouse_prev_left (fst s) =? 0) && (active_app (fst s) =? APP_PAINT) && (dragging (fst s) <? 0)
          then painting (fun win => paint_line (paint_at win) x0 y0 (mouse_x (fst s)) (mouse_y (fst s))) s else Ok s);
     w ← (if pulled then draw_all arch (fst s) (snd s) else Ok (snd s)); cursor_refresh (fst s, w)) (ok k).
Proof.
  intros Hs. eapply (safe_bind _ _ _ (ok k)).
  - case_if; [|exact Hs]. eapply painting_ok; [|exact Hs]. intros w p e Hp He. by apply line_ok.
  - intros s1 [Hd1 Hw1]. eapply (safe_bind _ _ _ world_ok).
    + case_if; [|exact Hw1]. by apply (draw_all_keeps T D J room arch Harch k).
    + intros w Hw. apply (refresh_ok T D J room). by split.
Qed.

Lemma packet_ok k : k < 2147483647 -> steps k (k + 1) (handle_mouse_packet (Doc := Doc) arch).
Proof.
  intros Hk s Hs. unfold handle_mouse_packet. pose proof (proj1 Hs) as Hd0.
  destruct (packet_byte k _ 0 Hd0) as [b0 ->]; [lia|]. destruct (packet_byte k _ 1 Hd0) as [b1 ->]; [lia|].
  destruct (packet_byte k _ 2 Hd0) as [b2 ->]; [lia|]. cbn [ub mbind res_bind].
  eapply (safe_bind _ _ _ (fun n => -8 <= n < 8)).
  { case_if; [|cbn; lia]. destruct (packet_byte k _ 3 Hd0) as [b3 ->]; [lia|]. cbn [ub mbind res_bind safe]. apply nibble_range. }
  intros wheel Hwheel. eapply safe_bind; [by apply (restore_ok T D J room k)|]. intros [d w] [Hd Hw]. cbn [fst snd] in *.
  pose proof (moved_mouse_ok k (int8 b1) (int8 b2) (Z.land b0 1) d Hd) as Hd1. set (d1 := moved_mouse _ _ _ _) in *. clearbody d1.
  eapply (safe_bind _ _ _ (fun _ => True)); [case_if; [done|by apply (wheel_over_ok k)]|]. intros over _. destruct over.
  { eapply safe_bind; [eapply (browse__ok k); [|by split]|].
    - intros v e Hv He. apply (scroll_by_ok T D J room); (done || lia).
    - intros s1 [H1 H2]. apply redraw_steps. split; [|done]. eapply desktop_weaken; [done|lia]. }
  eapply (safe_bind _ _ _ (ok k)).
  { case_if; [|by split]. bool_prop. apply drag_ok; [by split|done]. }
  intros [d2 w2] [Hd2 Hw2]. cbn [fst snd] in *. set (d3 := if negb (mouse_prev_left d2 =? 0) && (mouse_left d2 =? 0) then set_dragging (-1) (drag_dx d2) (drag_dy d2) d2 else d2).
  assert (Hd3 : desktop_ok k d3) by (unfold d3; case_if; [by apply set_dragging_ok|done]). clearbody d3.
  case_if.
  - eapply safe_bind; [apply (refresh_ok T D J room k); by split|]. by apply press_ok.
  - eapply safe_mono; [apply (settle_ok k _ _ _ (d3, w2)); by split|]. intros s' [H1 H2]. split; [|done]. eapply desktop_weaken; [done|lia].
Qed.

Lemma mouse_byte_ok k b : k < 2147483647 -> steps k (k + 1) (desktop_mouse_byte (Doc := Doc) arch b).
Proof.
  intros Hk [d w] [Hd Hw]. unfold desktop_mouse_byte. cbn [fst snd] in *. pose proof (d_mpkt_i _ _ Hd). pose proof (d_mpkt _ _ Hd) as Hm.
  assert (Hd' : desktop_ok (k + 1) d) by (eapply desktop_weaken; [done|lia]). case_if; [by split|].
  rewrite wr_Some by lia. cbn [ub mbind res_bind]. set (need := if _ =? 4 then 4 else 3).
  assert (Hneed : need = 3 \/ need = 4) by (unfold need; case_if; auto). case_if.
  - apply packet_ok; [done|]. split; [|done]. apply set_packet_ok; [done|by rewrite length_insert|lia].
  - split; [|done]. apply set_packet_ok; [done|by rewrite length_insert|lia].
Qed.

(** ** The terminal *)

Lemma term_text_nonzero a t b : nonzero a -> returns t nonzero -> nonzero b -> returns (term_text a t b) nonzero.
Proof. intros Ha (n & -> & Hn) Hb. eexists. split; [done|]. by repeat apply append_nonzero. Qed.

Lemma alloc_ok k : steps k k (cmd_alloc (Doc := Doc)).
Proof.
  intros [d [v e]] [Hd [Hv He]]. unfold cmd_alloc. cbn [fst snd] in *. eapply safe_bind; [by apply (law_alloc (T := T) (J := J))|].
  intros [p e'] [Hp He']. apply push_text_ok; [|by split]. destruct (hex64_some p Hp) as (h & -> & _ & Hh).
  eexists. split; [done|]. apply append_nonzero; [by apply lit_nonzero|done].
Qed.

Lemma cmd_uptime_ok k : steps k k (cmd_uptime (Doc := Doc)).
Proof.
  intros [d [v e]] [Hd [Hv He]]. unfold cmd_uptime. cbn [fst snd] in *.
  pose proof (seconds_ok T J e He) as [H1 H2]. destruct (seconds e) as [sec e']. cbn [fst snd] in *.
  apply push_text_ok; [|by split]. apply term_text_nonzero; [by apply lit_nonzero| |by apply lit_nonzero].
  apply (number_nonzero _ _ 19); lia.
Qed.

Lemma cmd_net_ok k : steps k k (cmd_net (Doc := Doc)).
Proof.
  intros s Hs. pose proof Hs as [_ [_ He]]. unfold cmd_net. apply push_text_ok; [|done]. case_if.
  - eexists. split; [done|]. by apply append_nonzero; apply lit_nonzero.
  - destruct (address_nonzero _ (law_ipv4 (T := T) (J := J) _ He)) as (ip & -> & Hip). eexists. split; [done|].
    repeat apply append_nonzero; try (by apply lit_nonzero); [by apply (law_driver (T := T) (J := J))|done].
Qed.

Lemma nettest_ok k : steps k k (cmd_nettest (Doc := Doc)).
Proof.
  intros [d [v e]] [Hd [Hv He]]. unfold cmd_nettest. cbn [fst snd] in *.
  eapply safe_bind; [apply (nav_ok T D J room _ true); [done|done|by apply lit_nonzero]|]. intros [r w] (H1 & H2 & _).
  assert (Hs : ok k (d, w)) by by split. case_if.
  - eapply safe_bind; [by apply push_ok; [apply lit_nonzero|]|]. apply log_ok. by apply lit_nonzero.
  - eapply safe_bind; [apply push_ok; [|exact Hs]|]; [by apply (s_status _ _ _ _ _ H1)|]. apply log_ok. by apply lit_nonzero.
Qed.

Lemma command_ok k c s : ok k s -> match command arch c s with Some r => safe T r (ok k) | None => True end.
Proof.
  intros Hs. pose proof Hs as [Hd [Hv He]]. unfold command.
  case_if; [by apply push_ok; [apply lit_nonzero|]|].
  case_if; [split; [apply set_term_ok; [done|by apply (d_lines k)|by apply (d_texts k)|lia]|by split]|].
  case_if; [apply push_ok; [|done]; unfold info_line; repeat (apply Forall_app; split); (done || by apply lit_nonzero)|].
  case_if; [by apply push_ok; [apply lit_nonzero|]|].
  case_if.
  { apply push_text_ok; [|done]. apply term_text_nonzero; [by apply lit_nonzero| |by apply lit_nonzero].
    pose proof (law_free (T := T) (J := J) _ He). apply (number_nonzero _ _ 20); zlia. }
  case_if; [by apply alloc_ok|]. case_if; [by apply cmd_uptime_ok|]. case_if; [by apply cmd_net_ok|].
  case_if.
  { eapply safe_bind; [by apply ping_ok|]. intros [r s1] Hs1. apply push_ok; [|done]. case_if; by apply lit_nonzero. }
  case_if; [by apply nettest_ok|]. case_if.
  { destruct s as [d [v e]]. cbn [fst snd] in *. unfold cmd_openwrt. apply push_ok; [by apply lit_nonzero|].
    split; [done|]. split; [done|]. by apply (law_configure (T := T) (J := J)). }
  case_if; [done|]. destruct c; [exact Hs|]. by apply push_ok; [apply lit_nonzero|].
Qed.

Lemma clear_ok k s : ok k s -> ok k (clear_cmd s).
Proof. intros [Hd Hw]. split; [|done]. apply set_texts_ok; [done|by apply fits_nil|by apply (d_notes k)]. Qed.

Lemma exec_ok k : k < 2147483647 -> steps k (k + 1) (terminal_exec (Doc := Doc) arch).
Proof.
  intros Hk s Hs. unfold terminal_exec. pose proof (d_cmd _ _ (proj1 Hs)) as [Hc _]. set (c := term_cmd (fst s)) in *. clearbody c.
  eapply safe_bind; [by apply log_ok; [apply lit_nonzero|]|]. clear s Hs. intros s Hs.
  eapply safe_bind; [by apply log_ok|]. clear s Hs. intros s Hs.
  eapply safe_bind; [by apply log_ok; [apply lit_nonzero|]|]. clear s Hs. intros s Hs.
  eapply (safe_bind _ _ _ (ok k)).
  { destruct c as [|x c]; [exact Hs|]. apply push_ok; [|done]. apply append_nonzero; [by apply lit_nonzero|done]. }
  clear s Hs. intros s Hs. pose proof (command_ok k c s Hs) as Hr. destruct (command arch c s) as [r|].
  - eapply safe_bind; [exact Hr|]. intros s1 Hs1. apply (steps_weaken k k); [apply redraw_steps|lia|by apply clear_ok].
  - eapply safe_bind; [by apply focus_ok|]. intros s1 Hs1. by apply clear_ok.
Qed.

(** ** The keyboard *)

Lemma fits_snoc cap t c : nonzero t -> c <> 0 -> len t + 1 < cap -> fits cap (t ++ [c]).
Proof. intros Ht Hc Hl. split; [apply Forall_app; by repeat constructor|rewrite length_app; cbn; lia]. Qed.
Lemma fits_shorter cap t : fits cap t -> fits cap (shorter t).
Proof. intros [H1 H2]. unfold shorter. split; [by apply Forall_take|rewrite length_take; lia]. Qed.

Lemma texts_ok k d c n w : ok k (d, w) -> fits 64 c -> fits 1536 n -> safe T (redraw (set_texts c n d, w)) (ok k).
Proof. intros [Hd Hw] Hc Hn. apply redraw_steps. split; [by apply set_texts_ok|done]. Qed.

Lemma key_ascii_ok k c : c <> 0 -> steps k k (key_ascii (Doc := Doc) arch c).
Proof.
  intros Hc s Hs. pose proof Hs as [Hd Hw]. destruct s as [d w]. unfold key_ascii, NOTE_CAP. cbn [fst snd] in *.
  pose proof (d_cmd _ _ Hd) as C. pose proof (d_notes _ _ Hd) as N. case_if.
  - case_if; [|exact Hs]. apply texts_ok; [done| |done]. apply fits_snoc; [apply C|done|lia].
  - case_if; [case_if; [|exact Hs]; apply texts_ok; [done|done|apply fits_snoc; [apply N|done|lia]]|].
    case_if; [|exact Hs]. eapply safe_bind; [eapply (browse__ok k); [|exact Hs]|by apply redraw_steps].
    intros v e Hv He. by apply (input_char_ok T D J room).
Qed.

Lemma key_enter_ok k : k < 2147483647 -> steps k (k + 1) (enter (Doc := Doc) arch).
Proof.
  intros Hk s Hs. pose proof Hs as [Hd Hw]. assert (Hs' : ok (k + 1) s) by (split; [eapply desktop_weaken; [done|lia]|done]).
  destruct s as [d w]. unfold enter, NOTE_CAP. cbn [fst snd] in *. pose proof (d_notes _ _ Hd) as N.
  case_if; [by apply exec_ok|]. case_if; [bool_prop; apply texts_ok; [done|by apply (d_cmd k)|apply fits_snoc; [apply N|done|lia]]|].
  case_if; [|exact Hs']. eapply safe_bind; [eapply (browse_ok true); [|exact Hs']|by apply redraw_steps].
  intros v e Hv He. by apply (go_ok T D J room).
Qed.

Lemma erase_ok k : steps k k (backspace (Doc := Doc) arch).
Proof.
  intros s Hs. pose proof Hs as [Hd Hw]. destruct s as [d w]. unfold backspace. cbn [fst snd] in *.
  pose proof (d_cmd _ _ Hd) as C. pose proof (d_notes _ _ Hd) as N.
  case_if; [apply texts_ok; [done|by apply fits_shorter|done]|]. case_if; [apply texts_ok; [done|done|by apply fits_shorter]|].
  case_if; [|exact Hs]. eapply safe_bind; [eapply (browse__ok k); [|exact Hs]|by apply redraw_steps].
  intros v e Hv He. by apply (backspace_ok T D J room).
Qed.

Lemma scancode_ok k c : k < 2147483647 -> steps k (k + 1) (desktop_key_scancode (Doc := Doc) arch c).
Proof.
  intros Hk s Hs. pose proof Hs as [Hd Hw]. assert (Hs' : ok (k + 1) s) by (split; [eapply desktop_weaken; [done|lia]|done]).
  pose proof Hs' as [Hd' _]. destruct s as [d w]. unfold desktop_key_scancode. cbn [fst snd] in *.
  case_if; [by split; [apply set_keys_ok|]|]. case_if; [by split; [apply set_keys_ok|]|].
  case_if; [exact Hs'|]. case_if.
  - case_if; [exact Hs'|]. apply redraw_steps. split; [|done]. pose proof (d_ztop _ _ Hd).
    apply (set_wins_ok k); [done|by apply (d_layout k)|lia|by apply (d_active k)].
  - case_if; [by apply key_enter_ok|]. case_if; [by apply (steps_weaken k k); [apply erase_ok|lia|]|].
    case_if; [exact Hs'|]. by apply key_ascii_ok.
Qed.

(** ** The clock, the start, and any inputs *)

Lemma tick_ok k : steps k k (desktop_tick (Doc := Doc)).
Proof.
  intros [d [v e]] [Hd [Hv He]]. unfold desktop_tick. cbn [fst snd] in *.
  pose proof (seconds_ok T J e He) as [_ He']. destruct (seconds e) as [sec e']. cbn [fst snd] in *. case_if; [by split|].
  eapply safe_bind; [apply (restore_ok T D J room k); split; [by apply set_keys_ok|by split]|]. intros [d1 w1] [Hd1 Hw1].
  eapply safe_bind; [by apply (taskbar_keeps T D J room k)|]. intros w2 Hw2. apply (refresh_ok T D J room). by split.
Qed.

Lemma handle_ok k i : k < 2147483647 -> steps k (k + 1) (handle (Doc := Doc) arch i).
Proof.
  intros Hk s Hs. unfold handle. case_if.
  - destruct Hs as [Hd Hw]. split; [eapply desktop_weaken; [done|lia]|done].
  - destruct i as [c|b|]; [by apply scancode_ok|by apply mouse_byte_ok|]. by apply (steps_weaken k k); [apply tick_ok|lia|].
Qed.

Lemma handle_all_ok l k : k + len l <= 2147483647 -> steps k (k + len l) (handle_all (Doc := Doc) arch l).
Proof.
  revert k. induction l as [|i l IH]; intros k Hk s Hs; cbn [handle_all length] in *.
  - by replace (k + Z.of_nat 0) with k by lia.
  - eapply safe_bind; [apply (handle_ok k); [lia|done]|]. intros s1 Hs1.
    replace (k + Z.of_nat (S (length l))) with (k + 1 + len l) by lia. apply IH; [lia|done].
Qed.

Lemma static_ok : desktop_ok 11 (set_wins first_windows 11 APP_TERMINAL 0 static_desktop).
Proof.
  assert (Hp : len (replicate (Z.to_nat (PAINT_W * PAINT_H)) 0) = paint_size).
  { rewrite length_replicate. unfold paint_size, PAINT_W, PAINT_H. lia. }
  unfold static_desktop. set (p := replicate (Z.to_nat _) 0) in *. clearbody p.
  split; cbn [wins ztop active_app dragging mouse_x mouse_y mpkt mpkt_i term_lines term_count term_cmd notes paint cursor_under set_wins];
    try (done || lia || by apply fits_nil || text).
  - split.
    + unfold first_windows. repeat (constructor; [split; cbn [w_w w_h w_x w_y w_title]; (lia || by apply lit_nonzero)|]). constructor.
    + done.
    + apply (bool_decide_unpack _). vm_compute. done.
    + apply (bool_decide_unpack _). vm_compute. done.
  - apply Forall_replicate. by apply fits_nil.
Qed.

Lemma init_steps bi d e :
  storage room d -> J e -> safe T (desktop_init (Doc := Doc) arch bi (static_desktop, (static_vela d, e))) (ok 11).
Proof.
  intros Hd He. unfold desktop_init. pose proof static_ok as Hs. change (start_open static_desktop) with 0.
  set (d0 := set_wins _ _ _ _ _) in *. clearbody d0.
  eapply (safe_bind _ _ _ world_ok).
  { pose proof (law_widest (T := T) (D := D) (J := J) (room := room)).
    eapply safe_mono; [apply (vela_init_ok T D J room _ d e Hd); [lia|done]|]. intros [v e'] (H1 & -> & _). by split. }
  intros w Hw. eapply safe_bind; [apply push_ok; [by apply lit_nonzero|split; [exact Hs|exact Hw]]|]. clear w Hw. intros s1 H1.
  eapply safe_bind; [by apply push_ok; [apply lit_nonzero|]|]. clear s1 H1. intros s1 H1.
  eapply safe_bind; [by apply push_ok; [apply lit_nonzero|]|]. intros s2 H2. by apply redraw_steps.
Qed.

End sessions.

(** ** The terminal keeps the last lines *)

Fixpoint push_all (ts : list bytes) (d : desktop) : option desktop :=
  match ts with
  | [] => Some d
  | t :: ts => d ← term_push t d; push_all ts d
  end.

Definition last_lines (l : list bytes) : list bytes := drop (length l - 13) l.

Lemma last_lines_app a b : last_lines (last_lines a ++ b) = last_lines (a ++ b).
Proof.
  unfold last_lines. set (y := drop (length a - 13) a). set (x := take (length a - 13) a).
  assert (E1 : a = x ++ y) by (symmetry; apply take_drop).
  assert (Hx : (length x = 0 \/ length y = 13)%nat) by (unfold x, y; rewrite length_take, length_drop; lia).
  clearbody x y. subst a. rewrite <- app_assoc, (length_app x). destruct Hx as [Hx|Hy].
  - apply nil_length_inv in Hx. by rewrite Hx.
  - rewrite length_app. replace (length x + (length y + length b) - 13)%nat with (length x + (length y + length b - 13))%nat by lia.
    by rewrite <- drop_drop, drop_app_length.
Qed.

(** Whatever is written to the terminal, it shows the last thirteen lines, each
    cut to the width of its array. *)
Theorem terminal_shows_last k ts d :
  desktop_ok k d -> Forall nonzero ts ->
  exists d', push_all ts d = Some d' /\ desktop_ok k d' /\ lines d' = last_lines (lines d ++ map (cp TERM_LEN) ts).
Proof.
  intros Hd Hts. revert d Hd. induction Hts as [|t ts Ht _ IH]; intros d Hd; cbn [push_all map].
  - exists d. split; [done|]. split; [done|]. unfold last_lines. rewrite app_nil_r.
    assert (Hl : (length (lines d) <= 13)%nat) by (unfold lines; rewrite length_take, (d_lines _ _ Hd); lia).
    by replace (length (lines d) - 13)%nat with 0%nat by lia.
  - destruct (term_push_ok k t d Hd Ht) as (d1 & -> & Hd1 & L1). cbn [mbind option_bind].
    destruct (IH d1 Hd1) as (d' & -> & Hd' & L2). exists d'. split; [done|]. split; [done|]. rewrite L2, L1.
    replace (lines d ++ cp TERM_LEN t :: map (cp TERM_LEN) ts) with ((lines d ++ [cp TERM_LEN t]) ++ map (cp TERM_LEN) ts)
      by by rewrite <- app_assoc.
    rewrite <- (last_lines_app (lines d ++ _)). do 2 f_equal. unfold last_lines. rewrite length_app. cbn [length].
    assert (Hl : (length (lines d) <= 13)%nat) by (unfold lines; rewrite length_take, (d_lines _ _ Hd); lia).
    rewrite drop_app_le by lia. do 2 f_equal. lia.
Qed.

(** ** The start and any inputs after it *)

Definition desktop_run {Doc E} `{!AsterEngine Doc E, !Console E, !Screen E, !Kernel E, !Fetch E} (arch : bytes)
    (bi : ptr Pmm.OrionBootInfo) (l : list input) (doc : Doc) (e : E) : res (desktop * (vela Doc E * E)) :=
  s ← desktop_init arch bi (static_desktop, (static_vela doc, e)); handle_all arch l s.

(** Any inputs, over a document engine that keeps its laws. *)
Lemma desktop_run_ok {Doc E} `{!AsterEngine Doc E, !Console E, !Screen E, !Kernel E, !Fetch E} T D J room arch
    `{!AsterLaws T D J room, !ConsoleLaws T J, !ScreenLaws T J, !KernelLaws T J, !FetchLaws T J room} bi l doc e :
  nonzero arch -> storage room doc -> J e -> 11 + len l <= 2147483647 ->
  safe T (desktop_run arch bi l doc e) (fun '(d, (v, e')) =>
    desktop_ok (11 + len l) d /\ vela_ok T D J room v /\ J e').
Proof.
  intros Harch Hd He Hl. unfold desktop_run. eapply safe_bind; [by apply (init_steps T D J room)|]. intros s Hs.
  eapply safe_mono; [by apply (handle_all_ok T D J room arch Harch l 11)|]. by intros [d [v e']] [H1 [H2 H3]].
Qed.
