(* ===== verification/DesktopStack.v ===== *)
(** * What is on top gets the click

    The windows are drawn level by level, and a press goes to the window of the highest
    level under the mouse: the one drawn last. *)

From S2P Require Import Prelude Cstr NetEnv VelaText Vela VelaSafe DesktopText DesktopScreen DesktopPaint Desktop DesktopInput DesktopSafe DesktopSession.
From Stdlib Require Import Sorted.
#[local] Open Scope Z_scope.

(** The numbers a loop runs through. *)
Fixpoint indices (n : nat) (a : Z) : list Z := match n with O => [] | S n' => a :: indices n' (a + 1) end.

Lemma in_indices n a i : In i (indices n a) <-> a <= i < a + Z.of_nat n.
Proof. revert a. induction n as [|n IH]; intros a; cbn [indices In]; [lia|]. rewrite IH. lia. Qed.

Lemma indices_nodup n a : List.NoDup (indices n a).
Proof. revert a. induction n as [|n IH]; intros a; cbn [indices]; constructor; [|done]. rewrite in_indices. lia. Qed.

(** A window, by its number. *)
Definition holds_at (d : desktop) (f : Window -> bool) (i : Z) : bool := match rd (wins d) i with Some w => f w | None => false end.
Definition level (d : desktop) (i : Z) : Z := match rd (wins d) i with Some w => w_z w | None => -1 end.
Definition shown (d : desktop) (z : Z) : Z -> bool := holds_at d (fun w => visible w && (w_z w =? z)).
Definition under (d : desktop) (x y : Z) : Z -> bool :=
  holds_at d (fun w => visible w && inside x y (w_x w) (w_y w) (w_w w) (w_h w)).

(** The visible windows, the lowest first. *)
Definition stack (d : desktop) : list Z :=
  concat (map (fun z => List.filter (shown d z) (indices 7 0)) (indices (Z.to_nat (ztop d + 1)) 0)).

Section stacks.
Context (k : Z) (d : desktop) (Hd : desktop_ok k d).

Lemma seven i : 0 <= i < 7 <-> is_Some (rd (wins d) i).
Proof.
  pose proof (d_count _ _ Hd) as Hc. split; [intros; apply rd_is_Some; lia|]. intros [w Hw]. apply rd_inv in Hw as [H _]. lia.
Qed.

Lemma level_range i w : rd (wins d) i = Some w -> 0 <= w_z w <= ztop d.
Proof. intros [_ Hw]%rd_inv. exact (Forall_lookup_1 _ _ _ _ (l_levels _ _ (d_layout _ _ Hd)) Hw). Qed.

Lemma level_inj i j : 0 <= i < 7 -> 0 <= j < 7 -> level d i = level d j -> i = j.
Proof.
  rewrite !seven. unfold level. intros [v Hv] [w Hw]. rewrite Hv, Hw. intros E1. apply rd_inv in Hv as [Hi Hv]. apply rd_inv in Hw as [Hj Hw].
  assert (E2 : Z.to_nat i = Z.to_nat j); [|lia].
  eapply (NoDup_lookup (w_z <$> wins d)); [exact (l_order _ _ (d_layout _ _ Hd))|by rewrite list_lookup_fmap, Hv|by rewrite list_lookup_fmap, Hw; cbn; rewrite E1].
Qed.

Lemma in_level z i : In i (List.filter (shown d z) (indices 7 0)) <-> exists w, rd (wins d) i = Some w /\ visible w = true /\ w_z w = z.
Proof.
  rewrite filter_In, in_indices. unfold shown, holds_at. split.
  - intros [_ H]. destruct (rd (wins d) i) as [w|]; [|done]. exists w. by bool_prop.
  - intros (w & Hw & H1 & <-). pose proof (proj2 (seven i) ltac:(by exists w)). rewrite Hw, H1, Z.eqb_refl. split; [lia|done].
Qed.

Lemma in_stack i : In i (stack d) <-> exists w, rd (wins d) i = Some w /\ visible w = true.
Proof.
  unfold stack. rewrite in_concat. split.
  - intros (l & Hl & Hi). apply in_map_iff in Hl as (z & <- & _). apply in_level in Hi as (w & H1 & H2 & _). by exists w.
  - intros (w & H1 & H2). pose proof (level_range i w H1). eexists. split; [|apply in_level; by exists w].
    apply (in_map (fun z => List.filter (shown d z) (indices 7 0))), in_indices. lia.
Qed.

Definition below (i j : Z) : Prop := level d i < level d j.

(** A level holds one window at most. *)
Lemma level_sorted z : StronglySorted below (List.filter (shown d z) (indices 7 0)).
Proof.
  pose proof (NoDup_filter (shown d z) (indices_nodup 7 0)) as Hn. pose proof (in_level z) as Hin.
  destruct (List.filter (shown d z) (indices 7 0)) as [|i [|j l]]; [constructor|by repeat constructor|].
  exfalso. destruct (proj1 (Hin i)) as (v & Hv & _ & Ez); [by left|]. destruct (proj1 (Hin j)) as (w & Hw & _ & Ez'); [by right; left|].
  inversion Hn as [|? ? Hi _]; subst. apply Hi. left. symmetry. apply level_inj; [by apply seven; exists v|by apply seven; exists w|].
  unfold level. by rewrite Hv, Hw.
Qed.

Lemma sorted_app (R : Z -> Z -> Prop) l1 l2 :
  StronglySorted R l1 -> StronglySorted R l2 -> (forall a b, In a l1 -> In b l2 -> R a b) -> StronglySorted R (l1 ++ l2).
Proof.
  intros H1 H2 H. induction H1 as [|a l1 _ IH Ha]; cbn; [done|]. constructor.
  - apply IH. intros x y Hx. apply H. by right.
  - apply List.Forall_app. split; [done|]. apply List.Forall_forall. intros b Hb. apply H; [by left|done].
Qed.

Lemma stack_sorted : StronglySorted below (stack d).
Proof.
  unfold stack. generalize (Z.to_nat (ztop d + 1)) as n. generalize 0 at 2 as a. intros a n. revert a.
  induction n as [|n IH]; intros a; cbn [indices map concat]; [constructor|]. apply sorted_app; [apply level_sorted|apply IH|].
  intros i j (v & Hv & _ & Ev)%in_level Hj. apply in_concat in Hj as (l & Hl & Hj). apply in_map_iff in Hl as (z & <- & Hz).
  apply in_indices in Hz. apply in_level in Hj as (w & Hw & _ & Ew). unfold below, level. rewrite Hv, Hw. lia.
Qed.

Lemma filter_sorted (R : Z -> Z -> Prop) f l : StronglySorted R l -> StronglySorted R (List.filter f l).
Proof.
  induction 1 as [|a l _ IH Ha]; cbn; [constructor|]. destruct (f a); [|done]. constructor; [done|].
  apply List.Forall_forall. intros b [Hb _]%filter_In. revert b Hb. by apply List.Forall_forall.
Qed.

Lemma sorted_last l b : StronglySorted below l -> list.last l = Some b -> In b l /\ forall i, In i l -> level d i <= level d b.
Proof.
  induction 1 as [|a l Hs IH Ha]; [done|]. destruct l as [|c l].
  - intros [= <-]. split; [by left|]. intros i [->|[]]. lia.
  - intros Hb. destruct (IH Hb) as [H1 H2]. split; [by right|]. intros i [<-|Hi]; [|by apply H2].
    rewrite List.Forall_forall in Ha. specialize (Ha b H1). unfold below in Ha. lia.
Qed.

(** ** The search for the window under the mouse *)

(** [best] is the one of the highest level among the first [i]. *)
Definition best_of (x y i best bz : Z) : Prop :=
  (best = -1 /\ bz = -1 /\ forall j, 0 <= j < i -> under d x y j = false) \/
  (0 <= best < 7 /\ bz = level d best /\ under d x y best = true /\ forall j, 0 <= j < i -> under d x y j = true -> level d j <= bz).

Lemma top_loop_spec x y n i best bz :
  0 <= i -> i + Z.of_nat n = 7 -> best_of x y i best bz ->
  exists a az, top_loop n i (wins d) x y best bz = Some a /\ best_of x y 7 a az.
Proof.
  revert i best bz. induction n as [|n IH]; intros i best bz Hi Hn Hb; cbn [top_loop].
  - replace i with 7 in Hb by lia. by exists best, bz.
  - destruct (proj1 (seven i)) as [w Hw]; [lia|]. rewrite Hw. cbn [mbind option_bind]. pose proof (level_range i w Hw) as Hz.
    assert (Hu : under d x y i = visible w && inside x y (w_x w) (w_y w) (w_w w) (w_h w)) by (unfold under, holds_at; by rewrite Hw).
    assert (Hl : level d i = w_z w) by (unfold level; by rewrite Hw). rewrite <- Hu, <- Hl. rewrite <- Hl in Hz.
    destruct (under d x y i) eqn:Ei; cbn [andb].
    + destruct (Z.ltb_spec bz (level d i)) as [Hlt|Hge]; (apply IH; [lia|lia|]).
      * right. split; [lia|]. split; [done|]. split; [done|]. intros j Hj Hju. destruct (decide (j = i)) as [->|Hne]; [lia|].
        destruct Hb as [(_ & _ & H)|(_ & _ & _ & H)]; [rewrite H in Hju by lia; done|]. specialize (H j ltac:(lia) Hju). lia.
      * destruct Hb as [(_ & H & _)|(H1 & H2 & H3 & H4)]; [lia|]. right. do 3 (split; [done|]). intros j Hj Hju.
        destruct (decide (j = i)) as [->|Hne]; [done|]. apply H4; [lia|done].
    + apply IH; [lia|lia|]. destruct Hb as [(H1 & H2 & H3)|(H1 & H2 & H3 & H4)]; [left|right].
      * do 2 (split; [done|]). intros j Hj. destruct (decide (j = i)) as [->|Hne]; [done|]. apply H3. lia.
      * do 3 (split; [done|]). intros j Hj Hju. destruct (decide (j = i)) as [->|Hne]; [congruence|]. apply H4; [lia|done].
Qed.

Lemma under_stack x y i : under d x y i = true -> In i (stack d) /\ 0 <= i < 7.
Proof.
  unfold under, holds_at. intros H. destruct (rd (wins d) i) as [w|] eqn:Hw; [|done]. bool_prop. split; [apply in_stack; by exists w|].
  apply seven. by exists w.
Qed.

Lemma top_is_last x y : top_window_at d x y = Some (default (-1) (list.last (List.filter (under d x y) (stack d)))).
Proof.
  destruct (top_loop_spec x y 7 0 (-1) (-1)) as (a & az & E1 & Ha); [lia|lia|left; do 2 (split; [done|]); intros; lia|].
  unfold top_window_at. rewrite E1. f_equal. clear E1. pose proof (filter_sorted _ (under d x y) _ stack_sorted) as Hs.
  destruct (list.last _) as [b|] eqn:El; cbn [default].
  - destruct (sorted_last _ b Hs El) as [Hb Hmax]. apply filter_In in Hb as [_ Hb]. pose proof (under_stack _ _ _ Hb) as [_ Hb7].
    destruct Ha as [(_ & _ & H)|(H1 & H2 & H3 & H4)]; [rewrite H in Hb by lia; done|].
    apply level_inj; [done|done|]. specialize (H4 b Hb7 Hb). specialize (Hmax a). rewrite filter_In in Hmax.
    specialize (Hmax (conj (proj1 (under_stack _ _ _ H3)) H3)). cbn in *. lia.
  - apply last_None in El. destruct Ha as [(-> & _)|(H1 & H2 & H3 & H4)]; [done|]. exfalso.
    assert (Hin : In a (List.filter (under d x y) (stack d))) by (apply filter_In; split; [apply (under_stack _ _ _ H3)|done]).
    by rewrite El in Hin.
Qed.
End stacks.

(** ** The order of drawing *)
Section order.
Context {Doc E : Type} `{!AsterEngine Doc E, !Console E, !Screen E, !Kernel E} (arch : bytes).
Local Abbreviation world := (vela Doc E * E)%type.

Definition draw_app (d : desktop) (i : Z) (s : world) : res world :=
  s ← draw_window_frame d i s; draw_window_content arch d i s.

Lemma calls_app (l1 l2 : list (world -> res world)) s : calls (l1 ++ l2) s = s ← calls l1 s; calls l2 s.
Proof.
  revert s. induction l1 as [|f l1 IH]; intros s; cbn [app calls]; [done|]. destruct (f s) as [s'| |]; [|done|done]. apply IH.
Qed.

Lemma level_drawn k d z n a s :
  desktop_ok k d -> 0 <= a -> a + Z.of_nat n <= 7 ->
  for_range n a (fun i s => w ← ub (rd (wins d) i); if visible w && (w_z w =? z) then draw_app d i s else Ok s) s
  = calls (map (draw_app d) (List.filter (shown d z) (indices n a))) s.
Proof.
  intros Hd. revert a s. induction n as [|n IH]; intros a s Ha Hn; cbn [for_range indices List.filter]; [done|].
  destruct (proj1 (seven k d Hd a)) as [w Hw]; [lia|]. unfold shown at 1, holds_at at 1. rewrite Hw. cbn [ub mbind res_bind].
  destruct (visible w && (w_z w =? z)); cbn [map calls mbind res_bind]; [|apply IH; lia].
  destruct (draw_app d a s) as [s'| |]; [|done|done]. apply IH; lia.
Qed.

Lemma levels_drawn k d n a s :
  desktop_ok k d ->
  for_range n a (fun z => for_range 7 0 (fun i s => w ← ub (rd (wins d) i); if visible w && (w_z w =? z) then draw_app d i s else Ok s)) s
  = calls (map (draw_app d) (concat (map (fun z => List.filter (shown d z) (indices 7 0)) (indices n a)))) s.
Proof.
  intros Hd. revert a s. induction n as [|n IH]; intros a s; [done|].
  change (indices (S n) a) with (a :: indices n (a + 1)). rewrite map_cons, concat_cons.
  rewrite map_app, calls_app, <- (level_drawn k d a 7 0 s Hd) by lia. change (for_range (S n) a ?f s) with (s' ← f a s; for_range n (a + 1) f s').
  cbv beta. destruct (for_range 7 0 _ s) as [s'| |]; [|done|done]. apply IH.
Qed.

Lemma windows_drawn k d s : desktop_ok k d -> draw_windows arch d s = calls (map (draw_app d) (stack d)) s.
Proof. intros Hd. exact (levels_drawn k d _ 0 s Hd). Qed.
End order.

(** ** A press *)

Lemma index_none n a f : (forall i, a <= i < a + Z.of_nat n -> f i = false) -> find_index n a f = None.
Proof. revert a. induction n as [|n IH]; intros a H; cbn [find_index]; [done|]. rewrite H by lia. apply IH. intros i Hi. apply H. lia. Qed.

Lemma index_first n a f i :
  a <= i < a + Z.of_nat n -> f i = true -> (forall j, a <= j < i -> f j = false) -> find_index n a f = Some i.
Proof.
  revert a. induction n as [|n IH]; intros a Hi Hf Hb; cbn [find_index]; [lia|]. destruct (decide (i = a)) as [->|]; [by rewrite Hf|].
  rewrite Hb by lia. apply IH; [lia|done|]. intros j Hj. apply Hb. lia.
Qed.

Lemma existsb_indices n a f : existsb f (indices n a) = false -> forall i, a <= i < a + Z.of_nat n -> f i = false.
Proof.
  intros H i Hi%in_indices. destruct (f i) eqn:E; [|done]. rewrite <- H. symmetry. apply existsb_exists. by exists i.
Qed.

(** A window that is raised is the last one drawn. *)
Lemma raised_last {Doc E} `{!AsterEngine Doc E, !Console E} k d app w start (s : vela Doc E * E) :
  desktop_ok k d -> k < 2147483647 -> rd (wins d) app = Some w -> visible w = true ->
  exists d', raise (fun w => w) app start (d, s) = Ok (d', s) /\ list.last (stack d') = Some app.
Proof.
  intros Hd Hk Hw Hv. pose proof (d_ztop _ _ Hd). unfold raise. rewrite int_of_Ok by (unfold is_int; lia). cbn [mbind res_bind].
  assert (Ha : 0 <= app < 7) by (apply (seven k d Hd); by exists w).
  destruct (window_at k d app Hd Ha) as (w' & Hw' & Hwin & Hset). rewrite Hw in Hw'. injection Hw' as <-. rewrite Hw. cbn [ub mbind res_bind].
  set (w1 := set_open (w_open w) (w_minimized w) (ztop d + 1) w).
  destruct (Hset w1 (ztop d + 1)) as (l & El & Hl); [by apply set_open_ok|by right|]. rewrite El. cbn [ub mbind res_bind].
  eexists. split; [done|]. set (d' := set_wins l (ztop d + 1) app start d).
  assert (Hd' : desktop_ok (k + 1) d') by (apply (set_wins_ok k); (done || lia)).
  assert (Hr : rd (wins d') app = Some w1) by exact (rd_wr_eq _ _ _ _ El).
  assert (Hin : In app (stack d')) by (apply (in_stack (k + 1) d' Hd'); exists w1; by split).
  destruct (list.last (stack d')) as [b|] eqn:Eb; [|apply last_None in Eb; by rewrite Eb in Hin].
  destruct (sorted_last d' _ b (stack_sorted (k + 1) d' Hd') Eb) as [Hb Hmax]. f_equal. specialize (Hmax app Hin).
  apply (level_inj (k + 1) d' Hd'); [|done|].
  { apply (in_stack (k + 1) d' Hd') in Hb as (wb & Hb & _). apply (seven (k + 1) d' Hd'). by exists wb. }
  apply (in_stack (k + 1) d' Hd') in Hb as (wb & Hb & _). pose proof (level_range (k + 1) d' Hd' b wb Hb) as Hz.
  unfold level in *. rewrite Hr in *. rewrite Hb in *. cbn in Hz |- *. cbn in Hmax. lia.
Qed.

(** What a press is tested against before the windows: the start button, the start
    menu, the buttons of the taskbar and the icons. *)
Section press.
Context {Doc E : Type} `{!AsterEngine Doc E, !Console E, !Screen E, !Kernel E} (arch : bytes).
Local Abbreviation world := (vela Doc E * E)%type.

Definition on_start (d : desktop) : bool := under_mouse d 14 (gfx_height - TASKBAR_H + 9) 38 36.
Definition on_task (d : desktop) (i : Z) : bool := under_mouse d (70 + i * 48) (gfx_height - TASKBAR_H + 8) 40 38.
Definition on_icon (d : desktop) (i : Z) : bool := under_mouse d 20 (36 + i * 91) 88 80.
Definition on_bar (d : desktop) : bool := on_start d || negb (start_open d =? 0) || existsb (on_task d) (indices 7 0).
Definition on_icons (d : desktop) : bool := existsb (on_icon d) (indices 6 0).

(** The window drawn last of those under the mouse. *)
Definition topmost (d : desktop) : option Z := list.last (List.filter (under d (mouse_x d) (mouse_y d)) (stack d)).

Lemma press_windows k d (w : world) :
  desktop_ok k d -> on_bar d = false -> on_icons d = false ->
  handle_press arch (d, w) =
  match topmost d with
  | Some app => press_window arch app (d, w)
  | None => redraw arch (set_wins (wins d) (ztop d) (-1) (start_open d) d, w)
  end.
Proof.
  intros Hd Hb Hi. apply orb_false_iff in Hb as [[Hs Ho]%orb_false_iff Ht]. unfold handle_press, on_start in *.
  rewrite Hs, Ho, (index_none 7 0) by by apply existsb_indices. rewrite (index_none 6 0) by by apply existsb_indices.
  rewrite (top_is_last k d Hd). cbn [ub mbind res_bind]. fold (topmost d). destruct (topmost d) as [app|] eqn:E1; cbn [default]; [|done].
  unfold topmost in E1. pose proof (sorted_last d _ app (filter_sorted _ _ _ (stack_sorted k d Hd)) E1) as [[_ Hu]%filter_In _].
  pose proof (under_stack k d Hd _ _ _ Hu) as [_ H7]. unfold id. destruct (Z.leb_spec 0 app); [done|lia].
Qed.

Lemma press_icon d (w : world) i :
  on_bar d = false -> 0 <= i < 6 -> on_icon d i = true -> handle_press arch (d, w) = focus_app arch i (d, w).
Proof.
  intros Hb Hi Ho. apply orb_false_iff in Hb as [[Hs Hst]%orb_false_iff Ht]. unfold handle_press, on_start in *.
  rewrite Hs, Hst, (index_none 7 0) by by apply existsb_indices. rewrite (index_first 6 0 _ i); [done|lia|done|].
  intros j Hj. unfold on_icon, under_mouse, inside in *. bool_prop. lia.
Qed.
End press.

(** C16. The windows that are open and not minimised are drawn once each, in the order
    of their levels.  A press that is not on the taskbar or an icon, with the start menu
    closed, goes to the window drawn last of those under the mouse, which is raised
    first: with that it is the last one drawn; when there is none, no window stays active.  A
    press on an icon goes to the icon - also where a window covers it, since the icons
    are tested first though drawn below (DesktopBench.icon_under_window). *)
Theorem click_reaches_top {Doc E} `{!AsterEngine Doc E, !Console E, !Screen E, !Kernel E} arch k d :
  desktop_ok k d -> k < 2147483647 ->
  (forall i, In i (stack d) <-> exists w, rd (wins d) i = Some w /\ visible w = true) /\
  StronglySorted (fun i j => level d i < level d j) (stack d) /\
  forall s : vela Doc E * E,
    draw_windows arch d s = calls (map (draw_app arch d) (stack d)) s /\
    (on_bar d = false -> on_icons d = false ->
     handle_press arch (d, s) =
     match topmost d with
     | Some app => press_window arch app (d, s)
     | None => redraw arch (set_wins (wins d) (ztop d) (-1) (start_open d) d, s)
     end) /\
    (forall app, topmost d = Some app ->
     exists d', raise (fun w => w) app (start_open d) (d, s) = Ok (d', s) /\ list.last (stack d') = Some app) /\
    (forall i, on_bar d = false -> 0 <= i < 6 -> on_icon d i = true -> handle_press arch (d, s) = focus_app arch i (d, s)).
Proof.
  intros Hd Hk. split; [by apply (in_stack k)|]. split; [by apply (stack_sorted k)|]. intros s. split; [by apply (windows_drawn arch k)|].
  split; [by apply (press_windows arch k)|]. split.
  - intros app E1. pose proof (sorted_last d _ app (filter_sorted _ _ _ (stack_sorted k d Hd)) E1) as [[Hin Hu]%filter_In _].
    apply (in_stack k d Hd) in Hin as (w & Hw & Hv). by apply (raised_last k d app w).
  - intros i. by apply press_icon.
Qed.
