(* ===== verification/DesktopBench.v ===== *)
(** * A desktop on a small machine

    A blank screen of 1024 by 768 pixels, a clock, an adapter and the network of the
    bench of VelaSession: the theorems of the desktop at work. *)

From S2P Require Import Prelude Cstr NetEnv VelaText Vela VelaSafe VelaSession VelaNative DesktopText DesktopScreen DesktopPaint Desktop DesktopInput DesktopSafe DesktopSession DesktopStack.
From Stdlib Require Import Sorted.
#[local] Open Scope Z_scope.

Module Machine.
Import VelaSession.Bench.

#[export] Instance blank : Screen unit := {|
  gfx_width := 1024; gfx_height := 768;
  gfx_rect := fun _ _ _ _ _ e => Ok e; gfx_line_h := fun _ _ _ _ e => Ok e; gfx_pixel := fun _ _ _ e => Ok e;
  gfx_get_raw := fun _ _ _ => Ok 0; gfx_put_raw := fun _ _ _ e => Ok e;
  gfx_text := fun _ _ s _ _ e => Ok (u32 (8 * len s), e); gfx_display_text := fun _ _ s _ e => Ok (u32 (30 * len s), e);
  gfx_text_right := fun _ _ _ _ e => Ok e
|}.

#[export] Instance kernel : Kernel unit := {|
  timer_ticks := fun e => (4200, e); timer_frequency := fun _ => 100; mouse_packet_size := fun _ => 3;
  pmm_free_pages := fun _ => 8192; pmm_alloc_page := fun e => Ok (0x1fe000, e);
  net_ready := fun _ => 1; net_driver_name := fun _ => chars "e1000";
  net_get_ipv4 := fun _ => [192; 168; 1; 2]; net_get_gateway := fun _ => [192; 168; 1; 1];
  net_rx_packets := fun _ => 12; net_tx_packets := fun _ => 7;
  net_ping_gateway := fun _ e => Ok (1, e); net_configure := fun _ _ _ _ e => e
|}.

#[export] Instance fetch : Fetch unit := {|
  net_http_get := get; net_http_get_bytes := fun _ d _ n s _ e => Ok (0, d, n, s, e); tls_platform_ready := fun _ => 0
|}.

#[export] Instance blank_laws : ScreenLaws (E := unit) False (fun _ => True).
Proof.
  split; try done; intros; cbn; (split; [|done]); (split; [apply u32_range|]); intros Hs; unfold size31, u32; rewrite Z.mod_small; lia.
Qed.

#[export] Instance kernel_laws : KernelLaws (E := unit) False (fun _ => True).
Proof.
  split; cbn; try done; try lia; intros _ _; [by apply lit_nonzero|..]; repeat (constructor; [lia|]); constructor.
Qed.

#[export] Instance fetch_laws : FetchLaws (E := unit) False (fun _ => True) within.
Proof.
  split; [|done|done]. intros u raw st e Hu Hr Hs _. pose proof (ok_http _ _ _ _ ops_fine) as H. cbn in H. by apply H.
Qed.

(** Typing [help], then opening the notes from their icon and typing a word. *)
Definition packet (buttons dx dy : Z) : list input := [Mouse (8 + buttons); Mouse (dx mod 256); Mouse (dy mod 256)].
Definition use : list input :=
  [Key 0x23; Key 0x12; Key 0x26; Key 0x19; Key 0x1C; Tick]
  ++ concat (replicate 5 (packet 0 (-128) 0)) ++ packet 0 0 127 ++ packet 0 0 43 ++ packet 1 0 0 ++ packet 0 0 0
  ++ [Key 0x2A; Key 0x23; Key 0xAA; Key 0x17].

Definition seen (r : res (desktop * (vela doc unit * unit))) : option (list bytes * list Z * Z * bytes) :=
  match r with Ok (d, _) => Some (lines d, stack d, active_app d, drop 78 (notes d)) | _ => None end.

Example use_seen :
  seen (desktop_run (chars "x86_64") Null use ([], 0) tt)
  = Some ([chars "Welcome to UN_Orion Desktop 0.0.10."; chars "UN_Vela 0.3.2-dev uses Aster Engine 0.3.2.";
      chars "Type 'help' for terminal commands."; chars "orion > help";
      chars "help clear info mem alloc uptime desktop net ping vela nettest openwrt"], [0; 2], 2, chars "Hi").
Proof. vm_compute. reflexivity. Qed.

Definition started : desktop := set_wins first_windows 11 APP_TERMINAL 0 static_desktop.

(** Fourteen lines. *)
Lemma terminal_shows_last_witness :
  exists d', push_all (replicate 14 (chars "line")) started = Some d' /\ desktop_ok 11 d' /\
    lines d' = last_lines (lines started ++ map (cp TERM_LEN) (replicate 14 (chars "line"))).
Proof. apply (terminal_shows_last 11); [exact static_ok|]. repeat (constructor; [by apply lit_nonzero|]). constructor. Defined.

(** The windows of the start, the mouse on the terminal. *)
Lemma click_reaches_top_witness :
  (forall i, In i (stack started) <-> exists w, rd (wins started) i = Some w /\ visible w = true) /\
  StronglySorted (fun i j => level started i < level started j) (stack started) /\
  handle_press (chars "x86_64") (started, (static_vela ([], 0), tt))
  = press_window (chars "x86_64") APP_TERMINAL (started, (static_vela ([], 0), tt)).
Proof.
  destruct (click_reaches_top (Doc := doc) (E := unit) (chars "x86_64") 11 started static_ok ltac:(lia)) as (H1 & H2 & H3).
  split; [exact H1|]. split; [exact H2|].
  destruct (H3 (static_vela ([], 0), tt)) as (_ & H4 & _). exact (H4 eq_refl eq_refl).
Defined.

(** The terminal is dragged over the second icon: a press there opens the files below
    it. *)
Definition covering : desktop :=
  set_mouse 30 140 0 0 (set_wins (<[0%nat := set_place 0 60 (mk_window 280 130 720 480 1 0 11 (chars "Terminal"))]> first_windows)
    11 APP_TERMINAL 0 static_desktop).

Example icon_under_window :
  topmost covering = Some APP_TERMINAL /\
  (match handle_press (chars "x86_64") (covering, (static_vela (E := unit) (Doc := doc) ([], 0), tt)) with
   | Ok (d, _) => Some (active_app d, stack d) | _ => None end) = Some (APP_FILES, [APP_TERMINAL; APP_FILES]).
Proof. split; vm_compute; reflexivity. Qed.

(** A stroke in the window of the painting program. *)
Definition paint_window : Window := mk_window 250 90 760 560 1 0 12 (chars "Paint").
Definition blank_picture : list Z := replicate (Z.to_nat (PAINT_W * PAINT_H)) 0.

Lemma stroke_correct_witness :
  exists l, straight 300 300 310 304 l /\
    safe False (paint_line (paint_at paint_window) 300 300 310 304 (blank_picture, tt)) (fun '(paint', e') =>
      True /\ length paint' = length blank_picture /\
      forall k, 0 <= k < paint_size ->
        rd paint' k = if existsb (fun p => mark (canvas_of paint_window) (fst p) (snd p) k) l then Some 1 else rd blank_picture k).
Proof.
  apply (stroke_correct False (fun _ => True)); [|exact I]. unfold blank_picture. rewrite length_replicate.
  unfold paint_size, PAINT_W, PAINT_H. lia.
Defined.
End Machine.
