(* ===== verification/DesktopAster.v ===== *)
(** * The desktop with the browser and its document engine

    Any inputs to kernel/desktop.c, from its start, over the engine of kernel/aster.c. *)

From S2P Require Import Prelude Cstr NetEnv VelaText Vela VelaSafe VelaSession VelaNative AsterDoc AsterWf AsterPaint DesktopText DesktopScreen DesktopPaint Desktop DesktopInput DesktopSafe DesktopSession VelaAster.
#[local] Open Scope Z_scope.


(** ** A desktop on the screen that keeps the texts *)
Module Machine.
Import AsterPaint.Shown VelaAster.Bench.

#[export] Instance kernel : Kernel (list bytes) := {|
  timer_ticks := fun e => (4200, e); timer_frequency := fun _ => 100; mouse_packet_size := fun _ => 3;
  pmm_free_pages := fun _ => 8192; pmm_alloc_page := fun e => Ok (0x1fe000, e);
  net_ready := fun _ => 1; net_driver_name := fun _ => chars "e1000";
  net_get_ipv4 := fun _ => [192; 168; 1; 2]; net_get_gateway := fun _ => [192; 168; 1; 1];
  net_rx_packets := fun _ => 12; net_tx_packets := fun _ => 7;
  net_ping_gateway := fun _ e => Ok (1, e); net_configure := fun _ _ _ _ e => e
|}.
#[export] Instance kernel_laws : KernelLaws (E := list bytes) False (fun _ => True).
Proof.
  split; cbn; try done; try lia; intros _ _; [by apply lit_nonzero|..]; repeat (constructor; [lia|]); constructor.
Qed.

#[export] Instance fetch : Fetch (list bytes) := {|
  net_http_get := get; net_http_get_bytes := fun _ d _ n s _ e => Ok (0, d, n, s, e); tls_platform_ready := fun _ => 0
|}.
#[export] Instance fetch_laws : FetchLaws (E := list bytes) False (fun _ => True) aster_limits.
Proof.
  split; [|done|done]. intros u raw st e Hu Hr Hs _. pose proof (ok_http _ _ _ _ engine_ops_ok) as H. cbn in H. by apply H.
Qed.

(** [vela], enter, the beginning of an address, a move of the mouse and a tick. *)
Definition use : list input := map Key [0x2F; 0x12; 0x26; 0x1E; 0x1C; 0x18; 0x31; 0x12] ++ [Mouse 8; Mouse 5; Mouse 5; Tick].

End Machine.
