(* ===== verification/KernelMain.v ===== *)
(** * The kernel from its entry on (kernel/main.c)

    The start-up sequence with its messages, the network set up by DHCP or left as it
    is, the desktop, and the loop that hands it what the interrupts have queued.  The
    devices are a class; interrupts may queue more at any time, so how long a queue
    takes to empty is bounded by fuel. *)

From S2P Require Import Prelude Cstr NetEnv Dhcp Pmm Graphics VelaText Vela VelaSafe VelaSession VelaNative DesktopScreen Desktop DesktopInput DesktopSafe DesktopSession.
#[local] Open Scope Z_scope.

Definition ORION_VERSION_STRING : bytes := chars "UN_Orion " ++ VERSION.

Class Machine (E : Type) := {
  cli : E -> E;
  sti : E -> E;
  hlt : E -> E;
  serial_init : E -> E;
  arch_gdt_init : E -> E;
  pmm_init : ptr OrionBootInfo -> E -> res E;
  interrupts_init : Z -> E -> E;
  mouse_available : E -> bool;
  net_init : E -> res (Z * E);
  net_get_mac : E -> bytes;
  dhcp_acquire : bytes -> Z -> E -> res (option OrionDhcpLease * E);
  keyboard_pop_scancode : E -> option Z * E;
  mouse_pop_byte : E -> option Z * E;
  net_poll : E -> res E
}.

Class MachineLaws {E} `{!Machine E} (T : Prop) (J : E -> Prop) : Prop := {
  law_cli e : J e -> J (cli e);
  law_sti e : J e -> J (sti e);
  law_hlt e : J e -> J (hlt e);
  law_serial_init e : J e -> J (serial_init e);
  law_gdt e : J e -> J (arch_gdt_init e);
  law_pmm_init bi e : J e -> safe T (pmm_init bi e) J;
  law_interrupts hz e : J e -> J (interrupts_init hz e);
  law_net_init e : J e -> safe T (net_init e) (fun '(_, e') => J e');
  law_dhcp mac ms e : J e -> safe T (dhcp_acquire mac ms e) (fun '(_, e') => J e');
  law_keyboard e : J e -> J (snd (keyboard_pop_scancode e));
  law_mouse e : J e -> J (snd (mouse_pop_byte e));
  law_poll e : J e -> safe T (net_poll e) J
}.

Section kernel.
Context {Doc E : Type} `{!AsterEngine Doc E, !Console E, !Screen E, !Kernel E, !Fetch E, !Machine E} (arch : bytes).
Local Abbreviation world := (vela Doc E * E)%type.
Local Abbreviation state := (desktop * world)%type.

Definition line (t : bytes) (e : E) : res E := serial_write (t ++ [13; 10]) e.

(** [sti] and the network; its configuration when a lease was acquired. *)
Definition start_network (e : E) : res E :=
  '(up, e) ← net_init e;
  if up =? 0 then Ok e
  else
    '(lease, e) ← dhcp_acquire (net_get_mac e) 1800 e;
    match lease with
    | Some l => line (chars "DHCPv4 lease acquired") (net_configure (ip l) (netmask l) (gateway l) (dns l) e)
    | None => line (chars "DHCPv4 unavailable; static IPv4 fallback active") e
    end.

(** Everything before the loop.  [g] is the pointer of kernel/graphics.c, which the
    operations of [Screen] draw through. *)
Definition boot (bi : ptr OrionBootInfo) (s : state) : res state :=
  let '(d, (v, e)) := s in
  let e := serial_init (cli e) in
  let g := gfx_init bi in
  e ← serial_write (ORION_VERSION_STRING ++ chars " alive" ++ [13; 10]) e;
  e ← line (chars "GDT ready") (arch_gdt_init e);
  e ← pmm_init bi e;
  e ← line (chars "PMM ready") e;
  e ← line (chars "IDT/PIC/PIT/keyboard ready") (interrupts_init 100 e);
  e ← line (if mouse_available e then chars "PS/2 mouse IRQ12 ready" else chars "PS/2 mouse unavailable") e;
  e ← start_network (sti e);
  e ← line (if net_ready e =? 0 then chars "Network adapter unavailable" else chars "Network stack ready") e;
  if gfx_ready g then
    e ← line (if match bi with Ptr b => pixel_format b =? ORION_PIXEL_FORMAT_RGB565 | Null => false end then chars "Framebuffer RGB565 ready" else chars "Framebuffer 32-bit ready") e;
    '(d, (v, e)) ← desktop_init arch bi (d, (v, e));
    e ← line (chars "Orion desktop ready") e;
    Ok (d, (v, e))
  else Ok (d, (v, e)).

(** [while(pop(&b))handle(b);], which the farewell of the desktop never leaves. *)
Fixpoint drain (fuel : nat) (pop : E -> option Z * E) (f : Z -> state -> res state) (s : state) : res state :=
  match fuel with
  | O => NoFuel
  | S k =>
      if halted (fst s) then Ok s
      else
        let '(d, (v, e)) := s in
        match pop e with
        | (Some b, e) => s ← f b (d, (v, e)); drain k pop f s
        | (None, e) => Ok (d, (v, e))
        end
  end.

(** One turn of the loop. *)
Definition turn (fuel : nat) (s : state) : res state :=
  s ← drain fuel keyboard_pop_scancode (desktop_key_scancode arch) s;
  s ← drain fuel mouse_pop_byte (desktop_mouse_byte arch) s;
  if halted (fst s) then Ok s
  else
    let '(d, (v, e)) := s in
    e ← net_poll e;
    '(d, (v, e)) ← desktop_tick (d, (v, e));
    Ok (d, (v, hlt (sti e))).

Fixpoint turns (n : nat) (fuel : nat) (s : state) : res state :=
  match n with
  | O => Ok s
  | S n' => s ← turn fuel s; turns n' fuel s
  end.

(** The kernel for [n] turns of its loop. *)
Definition kernel_main (n fuel : nat) (bi : ptr OrionBootInfo) (doc : Doc) (e : E) : res state :=
  s ← boot bi (static_desktop, (static_vela doc, e)); turns n fuel s.
End kernel.

(** ** Whatever the devices do *)
Section runs.
Context {Doc E : Type} `{!AsterEngine Doc E, !Console E, !Screen E, !Kernel E, !Fetch E, !Machine E}.
Context (T : Prop) (D : Doc -> Prop) (J : E -> Prop) (room : limits Doc) (arch : bytes).
Context `{!AsterLaws T D J room, !ConsoleLaws T J, !ScreenLaws T J, !KernelLaws T J, !FetchLaws T J room, !MachineLaws T J}.
Context (Harch : nonzero arch) (Hfuel : T).
Local Abbreviation ok := (state_ok T D J room).
Local Abbreviation steps := (steps T D J room).

Lemma line_safe t e : nonzero t -> J e -> safe T (line t e) J.
Proof. intros Ht He. apply (law_console (T := T) (J := J)); [|done]. apply Forall_app. split; [done|by repeat constructor]. Qed.

Lemma network_safe e : J e -> safe T (start_network e) J.
Proof.
  intros He. unfold start_network. eapply safe_bind; [by apply (law_net_init (T := T) (J := J))|]. intros [up e1] He1.
  case_if; [done|]. eapply safe_bind; [by apply (law_dhcp (T := T) (J := J))|]. intros [lease e2] He2.
  destruct lease; apply line_safe; try (by apply lit_nonzero); [by apply (law_configure (T := T) (J := J))|done].
Qed.

(** With a framebuffer the desktop starts. *)
Lemma boot_safe bi doc e :
  gfx_ready bi = true -> storage room doc -> J e -> safe T (boot arch bi (static_desktop, (static_vela doc, e))) (ok 11).
Proof.
  intros Hready Hd He. unfold boot. pose proof (law_serial_init (T := T) (J := J) _ (law_cli (T := T) (J := J) e He)) as H0.
  eapply safe_bind; [apply (law_console (T := T) (J := J)); [|exact H0]; by apply lit_nonzero|]. intros e1 H1.
  eapply safe_bind; [apply line_safe; [by apply lit_nonzero|by apply (law_gdt (T := T) (J := J))]|]. intros e2 H2.
  eapply safe_bind; [by apply (law_pmm_init (T := T) (J := J))|]. intros e3 H3.
  eapply safe_bind; [by apply line_safe; [apply lit_nonzero|]|]. intros e4 H4.
  eapply safe_bind; [apply line_safe; [by apply lit_nonzero|by apply (law_interrupts (T := T) (J := J))]|]. intros e5 H5.
  eapply safe_bind; [apply line_safe; [case_if; by apply lit_nonzero|done]|]. intros e6 H6.
  eapply safe_bind; [by apply network_safe, (law_sti (T := T) (J := J))|]. intros e7 H7.
  eapply safe_bind; [apply line_safe; [case_if; by apply lit_nonzero|done]|]. intros e8 H8.
  unfold gfx_init. rewrite Hready. eapply safe_bind; [apply line_safe; [case_if; by apply lit_nonzero|done]|]. intros e9 H9.
  eapply safe_bind; [by apply (init_steps T D J room arch Harch)|]. intros [d [v e10]] [Hdt [Hv H10]].
  eapply safe_bind; [by apply line_safe; [apply lit_nonzero|]|]. intros e11 H11. by split.
Qed.

Lemma drain_safe fuel pop f k :
  (forall e, J e -> J (snd (pop e))) -> (forall b k, k < 2147483647 -> steps k (k + 1) (f b)) ->
  k + Z.of_nat fuel <= 2147483647 -> steps k (k + Z.of_nat fuel) (drain fuel pop f).
Proof.
  intros Hpop Hf. revert k. induction fuel as [|n IH]; intros k Hk s Hs; cbn [drain]; [exact Hfuel|].
  assert (Hmore : forall s, ok k s -> ok (k + Z.of_nat (S n)) s).
  { intros s' [H1 H2]. split; [eapply desktop_weaken; [done|lia]|done]. }
  case_if; [by apply Hmore|]. destruct s as [d [v e]]. destruct Hs as [Hd [Hv He]]. cbn [fst snd] in *.
  pose proof (Hpop e He) as He'. destruct (pop e) as [[b|] e']; cbn [snd] in He'; [|by apply Hmore].
  eapply safe_bind; [apply (Hf b k); [lia|by split]|]. intros s1 Hs1.
  replace (k + Z.of_nat (S n)) with (k + 1 + Z.of_nat n) by lia. apply IH; [lia|done].
Qed.

Lemma loop_turn_safe fuel k :
  k + 2 * Z.of_nat fuel <= 2147483647 -> steps k (k + 2 * Z.of_nat fuel) (turn arch fuel).
Proof.
  intros Hk s Hs. unfold turn.
  eapply safe_bind; [apply (drain_safe fuel keyboard_pop_scancode (desktop_key_scancode arch) k); [|..]|]; [..|intros s1 Hs1].
  { apply (law_keyboard (T := T) (J := J)). }
  { intros b k' Hk'. by apply (scancode_ok T D J room arch Harch). }
  { lia. }
  { exact Hs. }
  eapply safe_bind; [apply (drain_safe fuel mouse_pop_byte (desktop_mouse_byte arch) (k + Z.of_nat fuel)); [|..]|]; [..|intros s2 Hs2].
  { apply (law_mouse (T := T) (J := J)). }
  { intros b k' Hk'. by apply (mouse_byte_ok T D J room arch Harch). }
  { lia. }
  { exact Hs1. }
  replace (k + Z.of_nat fuel + Z.of_nat fuel) with (k + 2 * Z.of_nat fuel) in Hs2 by lia.
  case_if; [exact Hs2|]. destruct s2 as [d [v e]]. destruct Hs2 as [Hd [Hv He]]. cbn [fst snd] in *.
  eapply safe_bind; [by apply (law_poll (T := T) (J := J))|]. intros e1 He1.
  eapply safe_bind; [apply (tick_ok T D J room (k + 2 * Z.of_nat fuel)); by split|]. intros [d2 [v2 e2]] [Hd2 [Hv2 He2]].
  split; [done|]. split; [done|]. by apply (law_hlt (T := T) (J := J)), (law_sti (T := T) (J := J)).
Qed.

Lemma turns_safe n fuel k :
  k + Z.of_nat n * (2 * Z.of_nat fuel) <= 2147483647 -> steps k (k + Z.of_nat n * (2 * Z.of_nat fuel)) (turns arch n fuel).
Proof.
  revert k. induction n as [|n IH]; intros k Hk s Hs; cbn [turns].
  - by replace (k + Z.of_nat 0 * (2 * Z.of_nat fuel)) with k by lia.
  - eapply safe_bind; [apply (loop_turn_safe fuel k); [lia|done]|]. intros s1 Hs1.
    replace (k + Z.of_nat (S n) * (2 * Z.of_nat fuel)) with (k + 2 * Z.of_nat fuel + Z.of_nat n * (2 * Z.of_nat fuel)) by lia.
    apply IH; [lia|done].
Qed.
End runs.

(** The kernel from its entry on, over parts that keep their laws: start-up with a
    framebuffer and [n] turns of the main loop never leave an array or overflow the
    stacking order, and the desktop, its terminal and the browser keep their shape.  The
    laws are conditions on what the other files do ([MachineLaws], [FetchLaws]): page
    allocator, frame reception, DHCP and HTTP client keep the environment in shape,
    which for the reception holds of frames that are [NetRx.frame_ok] only.  [fuel] is
    the number of bytes a turn takes from a queue. *)
Theorem kernel_main_safe {Doc E} `{!AsterEngine Doc E, !Console E, !Screen E, !Kernel E, !Fetch E, !Machine E} D J room arch
    `{!AsterLaws True D J room, !ConsoleLaws True J, !ScreenLaws True J, !KernelLaws True J, !FetchLaws True J room,
      !MachineLaws True J} n fuel bi doc e :
  gfx_ready bi = true -> nonzero arch -> storage room doc -> J e ->
  11 + Z.of_nat n * (2 * Z.of_nat fuel) <= 2147483647 ->
  safe True (kernel_main arch n fuel bi doc e) (fun '(d, (v, e')) =>
    desktop_ok (11 + Z.of_nat n * (2 * Z.of_nat fuel)) d /\ vela_ok True D J room v /\ J e').
Proof.
  intros Hready Harch Hd He Hn. unfold kernel_main. eapply safe_bind; [by apply (boot_safe True D J room arch Harch)|]. intros s Hs.
  eapply safe_mono; [by apply (turns_safe True D J room arch Harch I n fuel 11)|]. by intros [d [v e']] [H1 [H2 H3]].
Qed.

(** ** A machine with queues of scan codes and mouse bytes *)
Module Queues.

(** The keys, the bytes of the mouse, and what went to the serial line. *)
Definition env : Type := list Z * list Z * list bytes.
Definition doc : Type := bytes * Z.

#[export] Instance engine : AsterEngine doc env := {|
  aster_parse_html := fun _ h => Some (chars "Page", len h); aster_layout := fun d _ => Some d;
  aster_link_at := fun d x y s cap => Some None; aster_document_height := snd; aster_title := fst;
  aster_set_title := fun t d => (t, snd d); aster_version := chars "0.3.2"; aster_paint := fun _ _ _ _ _ _ e => Ok e
|}.
#[export] Instance line_out : Console env := {| serial_write := fun t '(k, m, l) => Ok (k, m, l ++ [t]) |}.
#[export] Instance blank : Screen env := {|
  gfx_width := 1024; gfx_height := 768;
  gfx_rect := fun _ _ _ _ _ e => Ok e; gfx_line_h := fun _ _ _ _ e => Ok e; gfx_pixel := fun _ _ _ e => Ok e;
  gfx_get_raw := fun _ _ _ => Ok 0; gfx_put_raw := fun _ _ _ e => Ok e;
  gfx_text := fun _ _ s _ _ e => Ok (u32 (8 * len s), e); gfx_display_text := fun _ _ s _ e => Ok (u32 (30 * len s), e);
  gfx_text_right := fun _ _ _ _ e => Ok e
|}.
#[export] Instance kernel : Kernel env := {|
  timer_ticks := fun e => (4200, e); timer_frequency := fun _ => 100; mouse_packet_size := fun _ => 4;
  pmm_free_pages := fun _ => 8192; pmm_alloc_page := fun e => Ok (0x1fe000, e);
  net_ready := fun _ => 0; net_driver_name := fun _ => [];
  net_get_ipv4 := fun _ => [0; 0; 0; 0]; net_get_gateway := fun _ => [0; 0; 0; 0];
  net_rx_packets := fun _ => 0; net_tx_packets := fun _ => 0;
  net_ping_gateway := fun _ e => Ok (0, e); net_configure := fun _ _ _ _ e => e
|}.
#[export] Instance fetch : Fetch env := {|
  net_http_get := fun u raw st e => Ok (0, [], chars "No network", e);
  net_http_get_bytes := fun _ d _ n s _ e => Ok (0, d, n, s, e); tls_platform_ready := fun _ => 0
|}.
#[export] Instance machine : Machine env := {|
  cli := id; sti := id; hlt := id; serial_init := id; 
  arch_gdt_init := id; pmm_init := fun _ e => Ok e; interrupts_init := fun _ e => e; mouse_available := fun _ => true;
  net_init := fun e => Ok (0, e); net_get_mac := fun _ => [0; 0; 0; 0; 0; 0]; dhcp_acquire := fun _ _ e => Ok (None, e);
  keyboard_pop_scancode := fun '(k, m, l) => match k with [] => (None, (k, m, l)) | b :: k => (Some b, (k, m, l)) end;
  mouse_pop_byte := fun '(k, m, l) => match m with [] => (None, (k, m, l)) | b :: m => (Some b, (k, m, l)) end;
  net_poll := fun e => Ok e
|}.

Definition doc_ok (d : doc) : Prop := fits 96 (fst d) /\ 0 <= snd d <= 65536.

Definition within : limits doc := short 34816 doc_ok.

#[export] Instance engine_laws : AsterLaws True doc_ok (fun _ : env => True) within.
Proof.
  split; try done.
  - split; [by apply lit_nonzero|vm_compute; reflexivity].
  - intros d h w _ [_ Hh] _ _. eexists. split; [reflexivity|]. split; [text|cbn in Hh |- *; lia].
  - intros d w Hd _. by exists d.
  - intros. by eexists.
  - intros d [_ H]. cbn in *. lia.
  - by intros d [H _].
  - intros d t [_ H] Ht. by split.
  - by apply lit_nonzero.
Qed.
#[export] Instance line_laws : ConsoleLaws (E := env) True (fun _ => True).
Proof. by intros t [[k m] l] _ _. Qed.
#[export] Instance blank_laws : ScreenLaws (E := env) True (fun _ => True).
Proof.
  split; try done; intros; cbn; (split; [|done]); (split; [apply u32_range|]); intros Hs; unfold size31, u32; rewrite Z.mod_small; lia.
Qed.
#[export] Instance kernel_laws : KernelLaws (E := env) True (fun _ => True).
Proof. split; cbn; try done; try lia; intros _ _; repeat (constructor; [lia|]); constructor. Qed.
#[export] Instance fetch_laws : FetchLaws (E := env) True (fun _ => True) within.
Proof.
  split; [|done|done]. intros u raw st e _ _ _ _. split; [by apply fits_nil|]. split; [text|]. by split.
Qed.
#[export] Instance machine_laws : MachineLaws (E := env) True (fun _ => True).
Proof. by split. Qed.

Definition mode : ptr OrionBootInfo := Ptr (mk_bootinfo 0xe0000000 3145728 1024 768 1024 1 0x10000 960 48 1).

(** [mem] and enter, then the wheel and a click. *)
Definition start : env := ([0x32; 0x12; 0x32; 0x1C], [8; 0; 0; 1; 9; 5; 5; 0], []).

Definition seen (r : res (desktop * (vela doc env * env))) : option (list bytes * list bytes) :=
  match r with Ok (d, (_, (_, _, l))) => Some (drop 3 (lines d), drop 6 l) | _ => None end.

Example two_turns :
  seen (kernel_main (chars "i686") 2 20 mode ([], 0) start)
  = Some ([chars "orion > mem"; chars "free physical memory 32 MB"],
      [chars "Framebuffer 32-bit ready" ++ [13; 10]; chars "Orion desktop ready" ++ [13; 10];
       chars "desktop shell: "; chars "mem"; [13; 10]]).
Proof. vm_compute. reflexivity. Qed.

Lemma kernel_main_safe_witness :
  safe True (kernel_main (chars "i686") 2 20 mode ([], 0) start) (fun '(d, (v, e')) =>
    desktop_ok (11 + Z.of_nat 2 * (2 * Z.of_nat 20)) d /\ vela_ok True doc_ok (fun _ => True) within v /\ True).
Proof.
  apply (kernel_main_safe doc_ok (fun _ => True) within (chars "i686")).
  - done.
  - by apply lit_nonzero.
  - split; [by apply fits_nil|done].
  - exact I.
  - lia.
Defined.
End Queues.
