(* ===== verification/Exceptions.v ===== *)
(** * kernel/interrupts.c: descriptor tables, controllers and the panic screen

    The interrupt table that start-up writes, the reprogramming of the two interrupt
    controllers, and what an exception shows before the machine stops. *)

From S2P Require Import Prelude Cstr NetEnv Interrupts VelaText Vela VelaSafe DesktopScreen.
#[local] Open Scope Z_scope.

Definition PIC1_DATA : Z := 0x21.
Definition PIC2_DATA : Z := 0xA1.

(** ** Start-up *)

Definition no_gate : IdtGate := mk_gate 0 0 0 0 0 0 0.

(** The addresses of the stubs and of the three handlers. *)
Record handlers := mk_handlers {
  orion_exception_stub_table : list Z; at_pit_isr : Z; at_keyboard_isr : Z; at_mouse_isr : Z
}.

(** [for(int i=0;i<32;i++)idt_gate(i,orion_exception_stub_table[i]);] *)
Fixpoint stub_loop (k : nat) (i : Z) (stubs : list Z) (idt : list IdtGate) : option (list IdtGate) :=
  match k with
  | O => Some idt
  | S k' => a ← rd stubs i; idt ← wr idt i (idt_gate a); stub_loop k' (i + 1) stubs idt
  end.

Definition fill_idt (h : handlers) (idt : list IdtGate) : option (list IdtGate) :=
  idt ← fill 256 idt 0 no_gate;
  idt ← stub_loop 32 0 (orion_exception_stub_table h) idt;
  idt ← wr idt 32 (idt_gate (at_pit_isr h));
  idt ← wr idt 33 (idt_gate (at_keyboard_isr h));
  wr idt 44 (idt_gate (at_mouse_isr h)).

Section start.
Context {W : Type} (inb : Z -> W -> Z * W) (outb : Z -> Z -> W -> W) (lidt : list IdtGate -> W -> W).

Definition io_wait (w : W) : W := outb 0x80 0 w.

Fixpoint outs (l : list (Z * Z)) (w : W) : W :=
  match l with [] => w | (p, v) :: l => outs l (outb p v w) end.
(** Writes with [io_wait()] behind each. *)
Fixpoint outs_wait (l : list (Z * Z)) (w : W) : W :=
  match l with [] => w | (p, v) :: l => outs_wait l (io_wait (outb p v w)) end.

Definition pic_remap (w : W) : W :=
  let w := outs [(PIC1_DATA, 0xFF); (PIC2_DATA, 0xFF)] w in
  let w := outs_wait [(PIC1, 0x11); (PIC2, 0x11); (PIC1_DATA, 0x20); (PIC2_DATA, 0x28); (PIC1_DATA, 4); (PIC2_DATA, 2);
                      (PIC1_DATA, 1); (PIC2_DATA, 1)] w in
  outs [(PIC1_DATA, 0xF8); (PIC2_DATA, 0xEF)] w.

Definition interrupts_init (h : handlers) (pit_hz : Z) (s : intr) (idt : list IdtGate) (w : W) : option (list IdtGate * intr * W) :=
  idt ← fill_idt h idt;
  let w := pic_remap (lidt idt w) in
  let '(s, w) := pit_program outb s pit_hz w in
  let '(s, w) := mouse_init inb outb s w in
  Some (idt, s, w).
End start.

(** ** The table *)

(** What the table holds at [i]. *)
Definition gate_at (h : handlers) (i : Z) : IdtGate :=
  if i =? 44 then idt_gate (at_mouse_isr h) else if i =? 33 then idt_gate (at_keyboard_isr h)
  else if i =? 32 then idt_gate (at_pit_isr h)
  else if i <? 32 then idt_gate (default 0 (rd (orion_exception_stub_table h) i)) else no_gate.

Lemma stub_loop_spec k i stubs idt :
  0 <= i -> i + Z.of_nat k <= len stubs -> i + Z.of_nat k <= len idt ->
  exists idt', stub_loop k i stubs idt = Some idt' /\ length idt' = length idt /\
    forall j, rd idt' j = if (i <=? j) && (j <? i + Z.of_nat k) then Some (idt_gate (default 0 (rd stubs j))) else rd idt j.
Proof.
  revert i idt. induction k as [|k IH]; intros i idt Hi Hs Hd; cbn [stub_loop].
  - exists idt. split; [done|]. split; [done|]. intros j. destruct (Z.leb_spec i j), (Z.ltb_spec j (i + Z.of_nat 0)); (done || lia).
  - destruct (rd_is_Some stubs i) as [a Ha]; [lia|]. rewrite Ha. cbn [mbind option_bind]. rewrite wr_Some by lia. cbn [mbind option_bind].
    assert (Ew : wr idt i (idt_gate a) = Some (<[Z.to_nat i:=idt_gate a]> idt)) by (apply wr_Some; lia).
    destruct (IH (i + 1) (<[Z.to_nat i:=idt_gate a]> idt)) as (idt' & -> & L & R); [lia|lia|rewrite length_insert; lia|].
    exists idt'. split; [done|]. split; [by rewrite L, length_insert|]. intros j. rewrite R.
    destruct (decide (j = i)) as [->|Hne].
    + replace (i + 1 <=? i) with false by (symmetry; apply Z.leb_gt; lia). cbn [andb]. rewrite (rd_wr_eq _ _ _ _ Ew).
      replace ((i <=? i) && (i <? i + Z.of_nat (S k))) with true
        by (symmetry; apply andb_true_iff; rewrite Z.leb_le, Z.ltb_lt; lia). by rewrite Ha.
    + rewrite (rd_wr_ne _ _ _ _ _ Ew) by done.
      replace ((i <=? j) && (j <? i + Z.of_nat (S k))) with ((i + 1 <=? j) && (j <? i + 1 + Z.of_nat k)); [done|].
      apply eq_true_iff_eq. rewrite !andb_true_iff, !Z.leb_le, !Z.ltb_lt. lia.
Qed.

(** Every entry of the table: the stub of an exception, the three handlers, or none. *)
Lemma idt_filled h idt :
  len (orion_exception_stub_table h) = 32 -> len idt = 256 ->
  exists idt', fill_idt h idt = Some idt' /\ len idt' = 256 /\ forall i, 0 <= i < 256 -> rd idt' i = Some (gate_at h i).
Proof.
  intros Hs Hl. unfold fill_idt. rewrite fill_spec by lia. cbn [mbind option_bind].
  assert (Hb : blit idt 0 (replicate 256 no_gate) = replicate 256 no_gate).
  { unfold blit. rewrite length_replicate, take_0, (drop_ge idt) by lia. by rewrite app_nil_r. }
  rewrite Hb. destruct (stub_loop_spec 32 0 (orion_exception_stub_table h) (replicate 256 no_gate)) as (t & -> & L & R);
    [lia|lia|by rewrite length_replicate|]. cbn [mbind option_bind]. rewrite length_replicate in L.
  destruct (wr t 32 _) as [t1|] eqn:E1; [|by rewrite wr_Some in E1 by lia]. pose proof (wr_length _ _ _ _ E1) as L1. cbn [mbind option_bind].
  destruct (wr t1 33 _) as [t2|] eqn:E2; [|by rewrite wr_Some in E2 by lia]. pose proof (wr_length _ _ _ _ E2) as L2. cbn [mbind option_bind].
  destruct (wr t2 44 _) as [t3|] eqn:E3; [|by rewrite wr_Some in E3 by lia]. pose proof (wr_length _ _ _ _ E3) as L3.
  exists t3. split; [done|]. split; [lia|]. intros i Hi. unfold gate_at.
  destruct (Z.eqb_spec i 44) as [->|H44]; [by rewrite (rd_wr_eq _ _ _ _ E3)|]. rewrite (rd_wr_ne _ _ _ _ _ E3) by done.
  destruct (Z.eqb_spec i 33) as [->|H33]; [by rewrite (rd_wr_eq _ _ _ _ E2)|]. rewrite (rd_wr_ne _ _ _ _ _ E2) by done.
  destruct (Z.eqb_spec i 32) as [->|H32]; [by rewrite (rd_wr_eq _ _ _ _ E1)|]. rewrite (rd_wr_ne _ _ _ _ _ E1) by done.
  rewrite R. replace (0 <=? i) with true by (symmetry; apply Z.leb_le; lia). change (0 + Z.of_nat 32) with 32. cbn [andb].
  case_if; [done|]. unfold rd. if_true. apply lookup_replicate_2. lia.
Qed.

(** ** The panic screen *)

Definition exception_names : list (Z * bytes) :=
  [(0, chars "DIVIDE ERROR"); (1, chars "DEBUG"); (2, chars "NON-MASKABLE INTERRUPT"); (3, chars "BREAKPOINT");
   (4, chars "OVERFLOW"); (5, chars "BOUND RANGE"); (6, chars "INVALID OPCODE"); (7, chars "DEVICE NOT AVAILABLE");
   (8, chars "DOUBLE FAULT"); (9, chars "COPROCESSOR SEGMENT"); (10, chars "INVALID TSS"); (11, chars "SEGMENT NOT PRESENT");
   (12, chars "STACK FAULT"); (13, chars "GENERAL PROTECTION"); (14, chars "PAGE FAULT"); (16, chars "X87 FLOATING POINT");
   (17, chars "ALIGNMENT CHECK"); (18, chars "MACHINE CHECK"); (19, chars "SIMD FLOATING POINT"); (20, chars "VIRTUALIZATION");
   (21, chars "CONTROL PROTECTION"); (29, chars "VMM COMMUNICATION"); (30, chars "SECURITY EXCEPTION")].

Fixpoint name_in (l : list (Z * bytes)) (v : Z) : bytes :=
  match l with [] => chars "CPU EXCEPTION" | (n, t) :: l => if v =? n then t else name_in l v end.
Definition exception_name (v : Z) : bytes := name_in exception_names v.

Section panic.
Context {E : Type} `{!Console E, !Screen E} (gfx_ready : E -> bool) (serial_write_hex64 : Z -> E -> res E).

Definition text_out (x y : Z) (t : bytes) (c : Z) (e : E) : res E := '(_, e) ← gfx_text x y t c 1 e; Ok e.

(** The name of a number and the number; [hv] is the array it is written to. *)
Definition number_line (y : Z) (name : bytes) (v : Z) (s : bytes * E) : res (bytes * E) :=
  let '(hv, e) := s in
  e ← text_out 44 y name 0xA86878 e;
  hv ← ub (hexstr v hv);
  e ← text_out 190 y (text_of hv) 0xFFE7EC e;
  Ok (hv, e).

Definition panic_screen (vector error rip cs rflags cr2 : Z) (hv : bytes) (e : E) : res E :=
  let W := gfx_width in
  let H := gfx_height in
  e ← gfx_rect 0 0 W H 0x13090D e;
  e ← gfx_rect 0 0 7 H 0xFF5C77 e;
  e ← gfx_rect 0 0 W 58 0x1D0E14 e;
  '(_, e) ← gfx_display_text 42 76 (chars "PANIC") 0xFFE7EC e;
  e ← text_out 44 150 (exception_name vector) 0xFF8FA3 e;
  e ← gfx_line_h 44 188 (if 88 <? W then W - 88 else 0) 0x5C2633 e;
  s ← number_line 214 (chars "VECTOR") vector (hv, e);
  s ← number_line 250 (chars "ERROR") error s;
  s ← number_line 286 (chars "RIP") rip s;
  s ← number_line 322 (chars "CS") cs s;
  s ← number_line 358 (chars "RFLAGS") rflags s;
  '(_, e) ← (if vector =? 14 then number_line 394 (chars "CR2") cr2 s else Ok s);
  text_out 44 (if 90 <? H then H - 76 else 430) (chars "SYSTEM HALTED / CHECK COM1 FOR DETAILS") 0xB77A89 e.

(** What is done before [for(;;)hlt]; [cr2] is the register, read for page faults. *)
Definition orion_exception_panic (vector error rip cs rflags cr2 : Z) (hv : bytes) (e : E) : res E :=
  e ← serial_write ([13; 10] ++ chars "UN_Orion PANIC: ") e;
  e ← serial_write (exception_name vector) e;
  e ← serial_write (chars " vector=") e;
  e ← serial_write_hex64 vector e;
  e ← serial_write (chars " error=") e;
  e ← serial_write_hex64 error e;
  e ← serial_write (chars " rip=") e;
  e ← serial_write_hex64 rip e;
  e ← serial_write [13; 10] e;
  if gfx_ready e then panic_screen vector error rip cs rflags (if vector =? 14 then cr2 else 0) hv e else Ok e.

Context (T : Prop) (J : E -> Prop) `{!ConsoleLaws T J, !ScreenLaws T J}.
Context (Hhex : forall v e, J e -> safe T (serial_write_hex64 v e) J).

Lemma name_nonzero v : nonzero (exception_name v).
Proof.
  unfold exception_name. assert (H : Forall (fun p => nonzero (snd p)) exception_names).
  { unfold exception_names. repeat (constructor; [by apply lit_nonzero|]). constructor. }
  induction H as [|[n t] l Ht _ IH]; cbn [name_in]; [by apply lit_nonzero|]. by case_if.
Qed.

Lemma text_out_ok x y t c e : word32 x -> word32 y -> nonzero t -> J e -> safe T (text_out x y t c e) J.
Proof. intros Hx Hy Ht He. eapply safe_bind; [by apply law_text|]. by intros [a e'] [_ He']. Qed.

Lemma hexstr_ok v hv : 0 <= v < 2 ^ 64 -> len hv = 19 -> exists hv', hexstr v hv = Some hv' /\ len hv' = 19 /\ nonzero (text_of hv').
Proof.
  intros Hv Hl. unfold hexstr. rewrite wr_Some by lia. cbn [mbind option_bind].
  rewrite wr_Some by (rewrite ?length_insert; lia). cbn [mbind option_bind].
  rewrite hex_loop_spec by (rewrite ?length_insert; lia). cbn [mbind option_bind].
  rewrite wr_Some by (rewrite blit_length; rewrite ?length_insert, ?length_digits; lia).
  eexists. split; [done|]. split; [rewrite length_insert, blit_length; rewrite ?length_insert, ?length_digits; lia|].
  eapply (text_of_fits 20). rewrite length_insert, blit_length; rewrite ?length_insert, ?length_digits; lia.
Qed.

Lemma number_line_ok y name v hv e :
  word32 y -> nonzero name -> 0 <= v < 2 ^ 64 -> len hv = 19 -> J e ->
  safe T (number_line y name v (hv, e)) (fun '(hv', e') => len hv' = 19 /\ J e').
Proof.
  intros Hy Hn Hv Hl He. unfold number_line. eapply safe_bind; [by apply text_out_ok|]. intros e1 H1.
  destruct (hexstr_ok v hv Hv Hl) as (hv' & -> & Hl' & Hz). cbn [ub mbind res_bind].
  eapply safe_bind; [by apply text_out_ok|]. by intros e2 H2.
Qed.

(** An exception of any number with any registers is shown to the end. *)
Lemma panic_shown vector error rip cs rflags cr2 hv e :
  Forall (fun v => 0 <= v < 2 ^ 64) [vector; error; rip; cs; rflags; cr2] -> len hv = 19 -> J e ->
  safe T (orion_exception_panic vector error rip cs rflags cr2 hv e) J.
Proof.
  intros Hv Hl He. repeat match goal with H : Forall _ (_ :: _) |- _ => apply List.Forall_cons_iff in H as [? H] end.
  pose proof (name_nonzero vector) as Hname.
  pose proof (law_width (T := T) (J := J)). pose proof (law_screen_height (T := T) (J := J)).
  assert (Hlit : forall t e, nonzero t -> J e -> safe T (serial_write t e) J) by (intros; by apply (law_console (T := T) (J := J))).
  unfold orion_exception_panic.
  eapply safe_bind; [by apply Hlit; [apply lit_nonzero|]|]. clear e He. intros e He.
  eapply safe_bind; [by apply Hlit|]. clear e He. intros e He.
  eapply safe_bind; [by apply Hlit; [apply lit_nonzero|]|]. clear e He. intros e He.
  eapply safe_bind; [by apply Hhex|]. clear e He. intros e He.
  eapply safe_bind; [by apply Hlit; [apply lit_nonzero|]|]. clear e He. intros e He.
  eapply safe_bind; [by apply Hhex|]. clear e He. intros e He.
  eapply safe_bind; [by apply Hlit; [apply lit_nonzero|]|]. clear e He. intros e He.
  eapply safe_bind; [by apply Hhex|]. clear e He. intros e He.
  eapply safe_bind; [by apply Hlit; [apply lit_nonzero|]|]. clear e He. intros e He. destruct (gfx_ready e); [|done].
  unfold panic_screen. cbv zeta.
  do 3 (eapply safe_bind; [apply law_rect; unfold word32, size31; (lia || done)|]; clear e He; intros e He).
  eapply safe_bind; [apply law_display_text; [done|done|by apply lit_nonzero|done]|]. clear e He. intros [a e] [_ He].
  eapply safe_bind; [by apply text_out_ok|]. clear e He. intros e He.
  eapply safe_bind; [apply law_line_h; unfold word32, size31; (done || case_if; lia)|]. clear e He. intros e He.
  do 5 (eapply safe_bind; [apply number_line_ok; (done || by apply lit_nonzero)|]; clear e He hv Hl; intros [hv e] [Hl He]).
  eapply (safe_bind _ _ _ (fun '(hv', e') => len hv' = 19 /\ J e')).
  { case_if; [|done]. apply number_line_ok; (done || by apply lit_nonzero). }
  clear e He hv Hl. intros [hv e] [_ He]. apply text_out_ok; [done|unfold word32; case_if; lia|by apply lit_nonzero|done].
Qed.
End panic.
