(* ===== verification/Interrupts32.v ===== *)
(** * kernel/i686/interrupts.c

    The interrupt code of the 32-bit kernel.  Rings, timer and mouse are the same code
    as in kernel/interrupts.c and are the definitions of Interrupts; the gates are
    smaller, and the panic screen is shorter. *)

From S2P Require Import Prelude Cstr NetEnv Interrupts VelaText Vela VelaSafe DesktopScreen Exceptions.
#[local] Open Scope Z_scope.

(** ** Gates *)
Record IdtGate32 := mk_gate32 { g_off0 : Z; g_sel : Z; g_zero : Z; g_attr : Z; g_off1 : Z }.

Definition idt_gate (a : Z) : IdtGate32 := mk_gate32 (u16 a) 0x08 0 0x8e (u16 (Z.shiftr a 16)).

(** The two halves of the address of a handler. *)
Lemma gate32_address a :
  0 <= a < 4294967296 ->
  let g := idt_gate a in 0 <= g_off0 g < 65536 /\ 0 <= g_off1 g < 65536 /\ g_off0 g + g_off1 g * 2 ^ 16 = a.
Proof.
  intros Ha. cbn [idt_gate g_off0 g_off1]. rewrite Z.shiftr_div_pow2 by lia. change (2 ^ 16) with 65536.
  unfold u16. repeat split; zlia.
Qed.

(** ** What is the same code *)
Section same.
Context {W : Type} (inb : Z -> W -> Z * W) (outb : Z -> Z -> W -> W).
Definition pic_remap : W -> W := Exceptions.pic_remap outb.
Definition pit_program : intr -> Z -> W -> intr * W := Interrupts.pit_program outb.
Definition pit_isr : intr -> W -> intr * W := Interrupts.pit_isr outb.
Definition keyboard_isr : intr -> W -> option (intr * W) := Interrupts.keyboard_isr inb outb.
Definition mouse_isr : intr -> W -> option (intr * W) := Interrupts.mouse_isr inb outb.
Definition ps2_wait_write : W -> Z * W := Interrupts.ps2_wait_write inb.
Definition ps2_wait_read : W -> Z * W := Interrupts.ps2_wait_read inb.
Definition mouse_init : intr -> W -> intr * W := Interrupts.mouse_init inb outb.
End same.
Definition keyboard_pop_scancode : intr -> option (Z * option Z * intr) := Interrupts.keyboard_pop_scancode.
Definition mouse_pop_byte : intr -> option (Z * option Z * intr) := Interrupts.mouse_pop_byte.
Definition timer_frequency : intr -> Z := Interrupts.timer_frequency.

(** [return g_ticks;] is two loads of 32 bits here; [low] and [high] are the states in
    which they are made. *)
Definition timer_ticks (low high : intr) : Z := g_ticks low mod 2 ^ 32 + g_ticks high / 2 ^ 32 * 2 ^ 32.

Lemma ticks_together s : 0 <= g_ticks s -> timer_ticks s s = g_ticks s.
Proof. intros H. unfold timer_ticks. pose proof (Z.div_mod (g_ticks s) (2 ^ 32) ltac:(lia)). lia. Qed.

(** A tick between the two loads: 497 days after the start the clock shows nearly
    twice as many. *)
Example ticks_torn :
  let s := mk_intr (2 ^ 32 - 1) 100 (mk_ring [] 0 0) (mk_ring [] 0 0) 0 3 in
  timer_ticks s (fst (pit_isr (fun _ _ w => w) s tt)) = 2 ^ 33 - 1.
Proof. vm_compute. reflexivity. Qed.

(** ** Start-up *)
Fixpoint stub_loop (k : nat) (i : Z) (stubs : list Z) (idt : list IdtGate32) : option (list IdtGate32) :=
  match k with
  | O => Some idt
  | S k' => a ← rd stubs i; idt ← wr idt i (idt_gate a); stub_loop k' (i + 1) stubs idt
  end.

Section start.
Context {W : Type} (inb : Z -> W -> Z * W) (outb : Z -> Z -> W -> W) (lidt : list IdtGate32 -> W -> W).

Definition interrupts_init (h : handlers) (pit_hz : Z) (s : intr) (idt : list IdtGate32) (w : W) : option (list IdtGate32 * intr * W) :=
  idt ← fill 256 idt 0 (mk_gate32 0 0 0 0 0);
  idt ← stub_loop 32 0 (orion_exception_stub_table h) idt;
  idt ← wr idt 32 (idt_gate (at_pit_isr h));
  idt ← wr idt 33 (idt_gate (at_keyboard_isr h));
  idt ← wr idt 44 (idt_gate (at_mouse_isr h));
  let w := pic_remap outb (lidt idt w) in
  let '(s, w) := pit_program outb s pit_hz w in
  let '(s, w) := mouse_init inb outb s w in
  Some (idt, s, w).

Lemma stubs_written k i stubs idt :
  0 <= i -> i + Z.of_nat k <= len stubs -> i + Z.of_nat k <= len idt ->
  exists idt', stub_loop k i stubs idt = Some idt' /\ length idt' = length idt.
Proof.
  revert i idt. induction k as [|k IH]; intros i idt Hi Hs Hd; cbn [stub_loop]; [by exists idt|].
  destruct (rd_is_Some stubs i) as [a ->]; [lia|]. cbn [mbind option_bind]. rewrite wr_Some by lia. cbn [mbind option_bind].
  destruct (IH (i + 1) (<[Z.to_nat i:=idt_gate a]> idt)) as (idt' & -> & L); [lia|lia|rewrite length_insert; lia|].
  exists idt'. by rewrite L, length_insert.
Qed.

(** It writes inside the table. *)
Lemma interrupts_init_returns h hz s idt w :
  len (orion_exception_stub_table h) = 32 -> len idt = 256 ->
  exists idt' s' w', interrupts_init h hz s idt w = Some (idt', s', w') /\ len idt' = 256.
Proof.
  intros Hs Hl. unfold interrupts_init. rewrite fill_spec by lia. cbn [mbind option_bind].
  assert (Hb : len (blit idt 0 (replicate 256 (mk_gate32 0 0 0 0 0))) = 256) by (rewrite blit_length; rewrite ?length_replicate; lia).
  destruct (stubs_written 32 0 (orion_exception_stub_table h) (blit idt 0 (replicate 256 (mk_gate32 0 0 0 0 0)))) as (t & -> & L);
    [lia|lia|lia|]. cbn [mbind option_bind].
  rewrite wr_Some by lia. cbn [mbind option_bind]. rewrite wr_Some by (rewrite length_insert; lia). cbn [mbind option_bind].
  rewrite wr_Some by (rewrite !length_insert; lia). cbn [mbind option_bind].
  destruct (pit_program _ _ _ _) as [s1 w1]. destruct (mouse_init _ _ _ _) as [s2 w2]. do 3 eexists. split; [done|].
  rewrite !length_insert. lia.
Qed.
End start.

(** ** The panic screen *)

Definition exname (v : Z) : bytes :=
  if v =? 0 then chars "DIVIDE ERROR" else if v =? 6 then chars "INVALID OPCODE" else if v =? 8 then chars "DOUBLE FAULT"
  else if v =? 13 then chars "GENERAL PROTECTION" else if v =? 14 then chars "PAGE FAULT" else chars "CPU EXCEPTION".

Section panic.
Context {E : Type} `{!Console E, !Screen E} (gfx_ready : E -> bool) (serial_write_hex64 : Z -> E -> res E).

Definition orion_exception_panic32 (v err ip : Z) (e : E) : res E :=
  e ← serial_write ([13; 10] ++ chars "UN_Orion i686 PANIC: ") e;
  e ← serial_write (exname v) e;
  e ← serial_write (chars " vector=") e;
  e ← serial_write_hex64 v e;
  e ← serial_write (chars " error=") e;
  e ← serial_write_hex64 err e;
  e ← serial_write (chars " eip=") e;
  e ← serial_write_hex64 ip e;
  e ← serial_write [13; 10] e;
  if gfx_ready e then
    e ← gfx_rect 0 0 gfx_width gfx_height 0x13090D e;
    '(_, e) ← gfx_display_text 42 76 (chars "PANIC") 0xFFE7EC e;
    e ← text_out 44 150 (exname v) 0xFF8FA3 e;
    text_out 44 214 (chars "i686 / Legacy BIOS") 0xB77A89 e
  else Ok e.

Definition orion_exception_panic (v err ip : Z) (e : E) : res E := orion_exception_panic32 (u32 v) (u32 err) (u32 ip) e.

Context (T : Prop) (J : E -> Prop) `{!ConsoleLaws T J, !ScreenLaws T J}.
Context (Hhex : forall v e, J e -> safe T (serial_write_hex64 v e) J).

Lemma panic32_shown v err ip e : J e -> safe T (orion_exception_panic v err ip e) J.
Proof.
  intros He. pose proof (law_width (T := T) (J := J)). pose proof (law_screen_height (T := T) (J := J)).
  assert (Hlit : forall t e, nonzero t -> J e -> safe T (serial_write t e) J) by (intros; by apply (law_console (T := T) (J := J))).
  assert (Hname : nonzero (exname (u32 v))) by (unfold exname; repeat case_if; by apply lit_nonzero).
  unfold orion_exception_panic, orion_exception_panic32.
  eapply safe_bind; [by apply Hlit; [apply lit_nonzero|]|]. clear e He. intros e He.
  eapply safe_bind; [by apply Hlit|]. clear e He. intros e He.
  do 3 (eapply safe_bind; [by apply Hlit; [apply lit_nonzero|]|]; clear e He; intros e He;
        eapply safe_bind; [by apply Hhex|]; clear e He; intros e He).
  eapply safe_bind; [by apply Hlit; [apply lit_nonzero|]|]. clear e He. intros e He. destruct (gfx_ready e); [|done].
  eapply safe_bind; [apply law_rect; unfold word32, size31; (lia || done)|]. clear e He. intros e He.
  eapply safe_bind; [apply law_display_text; [done|done|by apply lit_nonzero|done]|]. clear e He. intros [a e] [_ He].
  eapply safe_bind; [by apply (text_out_ok T J)|]. clear e He. intros e He.
  apply (text_out_ok T J); [done|done|by apply lit_nonzero|done].
Qed.
End panic.
